(* ===== verification/_CoqProject ===== *)
-Q . S2P
Prelude.v
CMachine.v
Float.v
FloatExact.v
Bits.v
BitIO.v
Crc.v
Tables.v
Types.v
Util.v
A52.v
Exponent.v
BitAlloc.v
Quant.v
FrameOut.v
Filter.v
Convert.v
Dynrng.v
Window.v
Samples.v
Coefs.v
Mdct.v
Rate.v
Process.v
Init.v
SampleRing.v
Threads.v
Encoder.v
ByteIO.v
PcmConvert.v
PcmFile.v
PcmRead.v
PcmFormats.v
PcmParse.v
Pcm.v
Opts.v
Aften.v
Program.v
