(* ===== verification/Prelude.v ===== *)
(** * Aften, an A/52 (AC-3) audio encoder: the development

    Aften is a C library ([libaften]) that turns PCM samples into A/52 frames,
    a library that reads PCM files ([pcm]), and a program on top of both
    ([aften]).  This development translates the C implementation to executable
    Rocq functions and proves what makes it correct.  The files below name the
    C file they model; definitions have the names of the C functions, and are
    split where a C function is long.

    ** The program and its parts

    The program reads its options, opens the input, and sets up a context with
    [aften_encode_init], which checks the parameters.  It then calls
    [aften_encode_frame] for every 1536 samples per channel and once without
    samples until nothing comes out, and then [aften_encode_close].

<<
      options                                Opts.v     opts.c
      files -> samples (bytes)               ByteIO.v, PcmFormats.v, PcmParse.v,
                                             PcmFile.v, PcmRead.v, PcmConvert.v,
                                             Pcm.v      pcm/
      remapping, the calls                   Util.v, Aften.v, Program.v
>>

    One frame goes through [process_frame]:

<<
      samples (bytes)                          Convert.v  convert.c
        -> filters, overlapping blocks         Samples.v, Filter.v
        -> transients, window, MDCT            Coefs.v, Window.v, Mdct.v
        -> rematrixing, dither, dynrng         Coefs.v, Dynrng.v
        -> exponents and their strategy        Exponent.v exponent.c
        -> bit allocation (CBR or VBR)         BitAlloc.v bitalloc.c, A52.v a52.c
        -> mantissas                           Quant.v    a52enc.c
        -> header, blocks, both CRCs           FrameOut.v a52enc.c, BitIO.v, Crc.v
>>

    With several threads the frames are encoded by workers: frame [n] is taken
    out when frame [n + threads] is put in (Threads.v); the workers pass the
    audio state around in a ring (SampleRing.v).

    ** The files

    - Prelude: this file; [wp], the total-correctness judgement for partial
      computations, and loops.
    - CMachine: integer widths, the macros of common.h, bswap.h, arrays with
      checked accesses ([aget], [aset], reads [l.[i]]), the tactic [wp_steps].
      Float, FloatExact: the type [FLOAT] in both builds, as [spec_float].
    - Bits: bit strings and a reader for them, the abstract view of a frame.
      BitIO: the bit writer.  Crc: the CRC-16.  Tables: a52tab.c.
    - Types: the structures of the encoder.  Util: channel layouts.
    - A52, Exponent, BitAlloc, Quant, FrameOut: as above.
    - Filter, Convert, Dynrng, Window, Samples, Coefs, Mdct: as above.
    - Rate: [adjust_frame_size].  Process: [frame_init] and [process_frame].
    - Init: [aften_set_defaults], [aften_encode_init] up to the threads.
    - SampleRing: the mutex, the turn and the conditions in [copy_samples], as
      a step relation.  Threads: the threads' protocol, over an arbitrary job.
    - Encoder: the creation of the threads, [aften_encode_frame],
      [aften_encode_close].
    - ByteIO: the buffered reader.  PcmConvert: the 64 converters.  PcmFile:
      the file structure, seeking, positions.  PcmRead: reading samples.
      PcmFormats, PcmParse: the four formats, and what their parsers do on
      files written by the specification.  Pcm: several files as one.
    - Opts: the command line.  Aften: the parts of [main].  Program: the loop
      over the reader and the encoder.

    ** How the code is modelled

    A function is a Rocq function on the state that it reads and writes,
    into [option]: [None] is undefined behaviour (an access outside an array,
    a shift by a count outside the width, a division by zero, a conversion of
    a [FLOAT] outside the target type, an overflow of a signed integer where
    the code can reach it, a null pointer, a read of memory that was never
    written) or a loop that has used up its fuel.  So a theorem that gives a
    result also says that the code runs without any of these, and ends.
    Structures are records of their fields, arrays are lists accessed with a
    check.  Where a property needs the memory itself there is a model of it:
    the output buffer of the bit writer with its NULL case, the bytes of the
    input samples in the order of the host, the buffers of the MDCT as cells
    that may be unwritten, the pointers into exponents that
    [compute_expstr_ch] follows.  Where the code reads past an array or from
    an uninitialised variable, and goes on, the values found there are
    parameters of the model, which the theorems quantify over.

    Conventions.  Left shifts of negative numbers multiply, as compilers have
    it; loads need no alignment; a read error is the end of the file; a
    stream is the list of its bytes with a position; strings are without their
    terminator; [long] has 64 bits in [strtol].

    Parameters of the model, all type classes: the host's byte order
    ([Target]), the build's [FLOAT] ([FloatFormat], with [FloatOk]: binary32 or
    binary64), the functions of math.h that the standard does not specify
    exactly ([LibM]; square root, arithmetic and comparisons are those of
    IEEE 754), the bits of a converted NaN ([NanBits]), the values of memory
    read out of bounds.  The registry of formats, a global list, and what the
    stack holds are arguments of the functions that open a file.  Interfaces
    between components are classes as well: [Kernels], the window and the two
    transforms that a context points to, which [c_kernels] implements;
    [JobOk], what the threads' protocol requires of the job, which
    [process_frame] fulfils where [headroom] holds (for silence without
    filters it does: [silence_headroom]).

    Threads.  POSIX threads are modelled; the Windows events are not.
    [Threads] runs a worker from its wake-up to its next wait where the caller
    signals it; [SampleRing] covers the part in which workers run at the same
    time, with every interleaving and every wake-up.  [open_session] creates
    the threads behind the other parts of [aften_encode_init], which is where
    the code has it but for the initial samples; the workers only wait there.

    Bounds and fuel.  The loops of the C code run with the fuel that the
    function shows to be enough, and the theorems prove it: the searches of
    bit allocation move by at least one offset out of 1024 in each turn, the
    loops over the threads pass at most 32 of them and 33 calls drain any
    session, [adjust_frame_size] removes a second of samples in each turn.
    Two loops have no bound in the code, and take their fuel as an argument:
    the loops over the chunks of a file, for which the number of chunks up to
    the data is enough, and the loop of the program, for which the number of
    blocks and two turns more are; what they do for ever is stated as well
    ([wave_without_data_hangs], [no_frame_hangs]).

    ** What the theorems show

    - A frame: [process_frame_correct], from every state the encoder can be in
      a frame is refused or a complete frame is in the buffer, and the state
      is again one the encoder can be in.  [output_frame_correct],
      [header_roundtrip], [counted_bits_are_written]: the frame
      is the fields of the syntax, of the size that was counted, with correct
      CRCs.
    - A session: [aften_encode_init_correct], [initialised_encoder_ready],
      [aften_encode_frame_single], [flush_ends]; with threads
      [process_frame_parallel_correct], [frames_in_order], [samples_in_order],
      [close_after_fed].
    - The program: [program_writes_the_frames].
    - The stages: exponents that a decoder reconstructs, a strategy of least
      error, the masking curve of the standard, bit allocation that ends and
      fits, pointers equal to the per-bin definition, mantissas that can be
      taken apart, transforms that stay in their buffers, samples that are
      neither lost nor reordered, exact conversion, the drift of a constant
      bit rate.
    - The input: buffered reads are the file's bytes, samples are converted
      and placed as the file describes them, WAVE files are parsed back,
      files are detected and interleaved, seeking arrives.
    - The command line: settings in range, files for speakers in any order.
    - The tools: the bit writer against a bit reader, the CRC against a shift
      register and its inverse.
    - What the code does wrong is stated as theorems too:
      [short_stream_blocks_close], [configure_gaps], [initial_samples_lost],
      [offset_exceeds_field], [calc_bap_overruns],
      [strategy_depends_on_stack], [rate_comparison_wraps],
      [wave_without_data_hangs], [odd_chunk_misread], [far_seek_misses],
      [ragged_tail_overflows], [unknown_speaker_crashes],
      [short_start_moves_bytes], [no_frame_hangs].

    ** Not modelled

    - The SIMD and AltiVec replacements of [libaften/x86] and [libaften/ppc]
      and the detection of the processor: intrinsics and assembly; the C
      implementations that they replace are modelled.
    - Transcoding and the decoder header: compiled out.  Freeing memory and
      allocation failure, except where NULL is a value the code tests.
    - The threading primitives of threading.h: system calls, whose documented
      behaviour the step relation of [SampleRing] has.
    - [vbw_bit_allocation] is modelled, but has no specification; its bit
      estimates rest on a table that is only filled in part.
    - The tables that [a52_common_init], [exponent_init] and the like fill once
      for the process are constants, computed by their initialisers.
    - What the program prints: messages, progress, help texts, the description
      of files; opening and closing of files.
    - The tools of [util] and the C# and C++ bindings. *)
From Stdlib Require Import ZArith Lia.
From stdpp Require Import base option list numbers.
From coqutil Require Import Datatypes.RecordSettersUsingExistingGetters.
Local Open Scope Z_scope.

(** Record updates [r <| field := v |>] reduce by [simpl]. *)
#[global] Arguments const {E} newValue _ /.
#[global] Arguments set {R E} getter {Setter} fieldUpdater r /.

(** * Partial computations

    A C function is translated to a function into [option]: [None] is
    undefined behaviour (an access outside an array, a shift by a count
    outside the width, a dereference of NULL) or, for a loop run with fuel, a
    loop that has not terminated.  [wp m Q] says that [m] is defined and that
    its result satisfies [Q]; it is the total-correctness judgement in which
    the array code is specified. *)

Definition wp {A} (m : option A) (Q : A → Prop) : Prop :=
  match m with Some a => Q a | None => False end.

Lemma wp_some {A} (m : option A) Q : wp m Q ↔ ∃ a, m = Some a ∧ Q a.
Proof.
  destruct m as [a|]; simpl; split; [by eauto | | done |].
  - by intros (b & [= ->] & Hb).
  - by intros (b & [=] & _).
Qed.

Lemma wp_ret {A} (a : A) (Q : A → Prop) : Q a → wp (Some a) Q.
Proof. done. Qed.

Lemma wp_eq {A} (m : option A) a (Q : A → Prop) : m = Some a → Q a → wp m Q.
Proof. by intros ->. Qed.

Lemma wp_bind {A B} (m : option A) (f : A → option B) Q :
  wp m (λ a, wp (f a) Q) → wp (m ≫= f) Q.
Proof. by destruct m. Qed.

Lemma wp_bind_inv {A B} (m : option A) (f : A → option B) Q :
  wp (m ≫= f) Q → wp m (λ a, wp (f a) Q).
Proof. by destruct m. Qed.

Lemma wp_mono {A} (m : option A) (P Q : A → Prop) :
  wp m P → (∀ a, P a → Q a) → wp m Q.
Proof. destruct m; simpl; eauto. Qed.

Lemma wp_and {A} (m : option A) (P Q : A → Prop) :
  wp m P → wp m Q → wp m (λ a, P a ∧ Q a).
Proof. by destruct m. Qed.

Lemma wp_if {A} (b : bool) (m n : option A) Q :
  (b = true → wp m Q) → (b = false → wp n Q) → wp (if b then m else n) Q.
Proof. destruct b; auto. Qed.

(** * Loops *)

(** [for (i = lo; i < hi; i++) body] *)
Fixpoint for_steps {S} (n : nat) (i : Z) (body : Z → S → option S) (s : S) : option S :=
  match n with
  | O => Some s
  | Datatypes.S n' => s' ← body i s; for_steps n' (i + 1) body s'
  end.

Definition for_up {S} (lo hi : Z) (body : Z → S → option S) (s : S) : option S :=
  for_steps (Z.to_nat (hi - lo)) lo body s.

(** [for (i = hi; i >= lo; i--) body] *)
Fixpoint for_steps_down {S} (n : nat) (i : Z) (body : Z → S → option S) (s : S) : option S :=
  match n with
  | O => Some s
  | Datatypes.S n' => s' ← body i s; for_steps_down n' (i - 1) body s'
  end.

Definition for_down {S} (hi lo : Z) (body : Z → S → option S) (s : S) : option S :=
  for_steps_down (Z.to_nat (hi - lo + 1)) hi body s.

(** [while (cond) body], with fuel; out of fuel is [None]. *)
Fixpoint while_loop {S} (fuel : nat) (cond : S → bool) (body : S → option S) (s : S) : option S :=
  if cond s then
    match fuel with
    | O => None
    | Datatypes.S n => s' ← body s; while_loop n cond body s'
    end
  else Some s.

Lemma wp_for_steps {S} (I : Z → S → Prop) n i body s (Q : S → Prop) :
  I i s →
  (∀ j s, i ≤ j < i + Z.of_nat n → I j s → wp (body j s) (I (j + 1))) →
  (∀ s, I (i + Z.of_nat n) s → Q s) →
  wp (for_steps n i body s) Q.
Proof.
  revert i s. induction n as [|n IH]; intros i s HI Hbody HQ; simpl.
  - apply HQ. by rewrite Z.add_0_r.
  - apply wp_bind. eapply wp_mono; [apply (Hbody i s); [lia | done] |].
    intros s' Hs'. apply IH; [done | |].
    + intros j t Hj Ht. apply Hbody; [lia | done].
    + intros t Ht. apply HQ.
      by replace (i + Z.of_nat (Datatypes.S n)) with (i + 1 + Z.of_nat n) by lia.
Qed.

(** The loop rule: an invariant indexed by the loop counter. *)
Lemma wp_for_up {S} (I : Z → S → Prop) lo hi body s (Q : S → Prop) :
  lo ≤ hi → I lo s →
  (∀ i s, lo ≤ i < hi → I i s → wp (body i s) (I (i + 1))) →
  (∀ s, I hi s → Q s) →
  wp (for_up lo hi body s) Q.
Proof.
  intros Hle HI Hbody HQ. unfold for_up.
  apply (wp_for_steps I); [done | |].
  - intros j t Hj. apply Hbody. lia.
  - intros t. by replace (lo + Z.of_nat (Z.to_nat (hi - lo))) with hi by lia; auto.
Qed.

Lemma for_up_done {S} lo hi (body : Z → S → option S) s :
  hi ≤ lo → for_up lo hi body s = Some s.
Proof. intros. unfold for_up. by replace (Z.to_nat (hi - lo)) with 0%nat by lia. Qed.

Lemma for_up_step {S} lo hi (body : Z → S → option S) s :
  lo < hi → for_up lo hi body s = (s' ← body lo s; for_up (lo + 1) hi body s').
Proof.
  intros. unfold for_up.
  replace (Z.to_nat (hi - lo)) with (Datatypes.S (Z.to_nat (hi - (lo + 1)))) by lia. done.
Qed.

Lemma wp_for_steps_down {S} (I : Z → S → Prop) n i body s (Q : S → Prop) :
  I i s →
  (∀ j s, i - Z.of_nat n < j ≤ i → I j s → wp (body j s) (I (j - 1))) →
  (∀ s, I (i - Z.of_nat n) s → Q s) →
  wp (for_steps_down n i body s) Q.
Proof.
  revert i s. induction n as [|n IH]; intros i s HI Hbody HQ; simpl.
  - apply HQ. by rewrite Z.sub_0_r.
  - apply wp_bind. eapply wp_mono; [apply (Hbody i s); [lia | done] |].
    intros s' Hs'. apply IH; [done | |].
    + intros j t Hj Ht. apply Hbody; [lia | done].
    + intros t Ht. apply HQ.
      by replace (i - Z.of_nat (Datatypes.S n)) with (i - 1 - Z.of_nat n) by lia.
Qed.

Lemma wp_for_down {S} (I : Z → S → Prop) hi lo body s (Q : S → Prop) :
  lo - 1 ≤ hi → I hi s →
  (∀ i s, lo ≤ i ≤ hi → I i s → wp (body i s) (I (i - 1))) →
  (∀ s, I (lo - 1) s → Q s) →
  wp (for_down hi lo body s) Q.
Proof.
  intros Hle HI Hbody HQ. unfold for_down.
  apply (wp_for_steps_down I); [done | |].
  - intros j t Hj. apply Hbody. lia.
  - intros t. by replace (hi - Z.of_nat (Z.to_nat (hi - lo + 1))) with (lo - 1) by lia; auto.
Qed.

(** The [while] rule: an invariant and a measure that the fuel bounds. *)
Lemma wp_while {S} (I : S → Prop) (m : S → nat) fuel cond body s (Q : S → Prop) :
  I s → (m s ≤ fuel)%nat →
  (∀ s, I s → cond s = true → wp (body s) (λ s', I s' ∧ (m s' < m s)%nat)) →
  (∀ s, I s → cond s = false → Q s) →
  wp (while_loop fuel cond body s) Q.
Proof.
  revert s. induction fuel as [|n IH]; intros s HI Hm Hbody HQ; simpl.
  - destruct (cond s) eqn:Hc; [|by apply HQ].
    specialize (Hbody s HI Hc). destruct (body s); simpl in Hbody; [lia | done].
  - destruct (cond s) eqn:Hc; [|by apply HQ].
    apply wp_bind. eapply wp_mono; [by apply Hbody |].
    intros s' [HI' Hm']. apply IH; auto. lia.
Qed.

(** [do body while (c)]: the body returns the condition with the state. *)
Fixpoint do_while {S} (fuel : nat) (body : S → option (S * bool)) (s : S) : option S :=
  '(s', c) ← body s;
  if (c : bool) then
    match fuel with O => None | Datatypes.S n => do_while n body s' end
  else Some s'.

Lemma wp_do_while {S} (I : S → Prop) (m : S → nat) fuel body s (Q : S → Prop) :
  I s → (m s ≤ fuel)%nat →
  (∀ s, I s → wp (body s) (λ r, if snd r : bool then I (fst r) ∧ (m (fst r) < m s)%nat else Q (fst r))) →
  wp (do_while fuel body s) Q.
Proof.
  revert s. induction fuel as [|n IH]; intros s HI Hm Hbody; simpl.
  - apply wp_bind. eapply wp_mono; [by apply Hbody|]. intros [s' []]; simpl; [lia|done].
  - apply wp_bind. eapply wp_mono; [by apply Hbody|]. intros [s' []]; simpl; [|done].
    intros [HI' Hm']. apply IH; [done|lia|done].
Qed.

(** A loop that can only leave its invariant by undefined behaviour. *)
Lemma do_while_none {S} (I : S → Prop) fuel body s :
  I s → (∀ s, I s → body s = None ∨ ∃ s', body s = Some (s', true) ∧ I s') →
  do_while fuel body s = None.
Proof.
  revert s. induction fuel as [|n IH]; intros s HI Hbody; simpl;
    destruct (Hbody s HI) as [->|(s' & -> & HI')]; simpl; auto.
Qed.

(** [for (i = lo; i < hi; i++) body] with [break]: the body returns [inl] to
    leave the loop. *)
Fixpoint for_break_steps {S} (n : nat) (i : Z) (body : Z → S → option (S + S)) (s : S) : option S :=
  match n with
  | O => Some s
  | Datatypes.S n' =>
      r ← body i s;
      match r with inl s' => Some s' | inr s' => for_break_steps n' (i + 1) body s' end
  end.

Definition for_break {S} (lo hi : Z) (body : Z → S → option (S + S)) (s : S) : option S :=
  for_break_steps (Z.to_nat (hi - lo)) lo body s.

Lemma wp_for_break_steps {S} (I : Z → S → Prop) n i body s (Q : S → Prop) :
  I i s →
  (∀ j s, i ≤ j < i + Z.of_nat n → I j s →
     wp (body j s) (λ r, match r with inl s' => Q s' | inr s' => I (j + 1) s' end)) →
  (∀ s, I (i + Z.of_nat n) s → Q s) →
  wp (for_break_steps n i body s) Q.
Proof.
  revert i s. induction n as [|n IH]; intros i s HI Hbody HQ; simpl.
  - apply HQ. by rewrite Z.add_0_r.
  - apply wp_bind. eapply wp_mono; [apply (Hbody i s); [lia | done] |].
    intros [s'|s'] Hs'; [done|]. apply IH; [done | |].
    + intros j t Hj Ht. apply Hbody; [lia | done].
    + intros t Ht. apply HQ.
      by replace (i + Z.of_nat (Datatypes.S n)) with (i + 1 + Z.of_nat n) by lia.
Qed.

Lemma wp_for_break {S} (I : Z → S → Prop) lo hi body s (Q : S → Prop) :
  lo ≤ hi → I lo s →
  (∀ i s, lo ≤ i < hi → I i s →
     wp (body i s) (λ r, match r with inl s' => Q s' | inr s' => I (i + 1) s' end)) →
  (∀ s, I hi s → Q s) →
  wp (for_break lo hi body s) Q.
Proof.
  intros Hle HI Hbody HQ. unfold for_break.
  apply (wp_for_break_steps I); [done | |].
  - intros j t Hj. apply Hbody. lia.
  - intros t. by replace (lo + Z.of_nat (Z.to_nat (hi - lo))) with hi by lia; auto.
Qed.

Lemma while_stop {S} fuel cond body (s : S) : cond s = false → while_loop fuel cond body s = Some s.
Proof. intros Hc. by destruct fuel; simpl; rewrite Hc. Qed.

Lemma while_step {S} n cond body (s : S) :
  cond s = true → while_loop (Datatypes.S n) cond body s = (s' ← body s; while_loop n cond body s').
Proof. intros Hc. simpl. by rewrite Hc. Qed.

(** Loops are taken apart by their rules, not by computation. *)
#[global] Arguments while_loop : simpl never.
#[global] Arguments do_while : simpl never.
#[global] Arguments for_steps : simpl never.
#[global] Arguments for_steps_down : simpl never.
#[global] Arguments for_break_steps : simpl never.
