(* ===== verification/CMachine.v ===== *)
(** The C machine the encoder runs on: fixed-width integers, the macros of
    [common.h], the byte swaps of [bswap.h], arrays with checked accesses and
    the copies of [string.h].  Signed [int] arithmetic is computed in [Z];
    conversions to the narrower types the code stores into are written out. *)
From Stdlib Require Import ZArith Lia ZifyBool Bool.
From stdpp Require Import base option list numbers.
From coqutil Require Import Z.bitblast.
From S2P Require Import Prelude.
Local Open Scope Z_scope.

Declare Scope carray_scope.
Create HintDb carray.
Create HintDb cint.
Create Rewrite HintDb carray.
Create Rewrite HintDb cint.
Create Rewrite HintDb zbits.

(** * Integers of a fixed width *)

Definition u8 (x : Z) : Z := x mod 2 ^ 8.
Definition u16 (x : Z) : Z := x mod 2 ^ 16.
Definition u32 (x : Z) : Z := x mod 2 ^ 32.
Definition u64 (x : Z) : Z := x mod 2 ^ 64.
(** conversion to a signed type of [w] bits (two's complement) *)
Definition sext (w x : Z) : Z := (x + 2 ^ (w - 1)) mod 2 ^ w - 2 ^ (w - 1).
Definition i16 (x : Z) : Z := sext 16 x.
Definition i32 (x : Z) : Z := sext 32 x.
Definition i64 (x : Z) : Z := sext 64 x.

(** [common.h]: the macros are translated as written. *)
Definition ABS (a : Z) : Z := if a >=? 0 then a else - a.
Definition MAX (a b : Z) : Z := if a >? b then a else b.
Definition MIN (a b : Z) : Z := if a >? b then b else a.
Definition CLIP (x min max : Z) : Z := MAX (MIN x max) min.

Lemma ABS_abs a : ABS a = Z.abs a.
Proof. unfold ABS. destruct (Z.geb_spec a 0); lia. Qed.
Lemma MAX_max a b : MAX a b = Z.max a b.
Proof. unfold MAX. destruct (Z.gtb_spec a b); lia. Qed.
Lemma MIN_min a b : MIN a b = Z.min a b.
Proof. unfold MIN. destruct (Z.gtb_spec a b); lia. Qed.
Lemma CLIP_clip x lo hi : CLIP x lo hi = Z.max (Z.min x hi) lo.
Proof. unfold CLIP. by rewrite MAX_max, MIN_min. Qed.

#[export] Hint Rewrite ABS_abs MAX_max MIN_min CLIP_clip : cint.

Lemma u8_range x : 0 ≤ u8 x < 256.
Proof. apply Z.mod_pos_bound. lia. Qed.
Lemma u16_range x : 0 ≤ u16 x < 65536.
Proof. apply Z.mod_pos_bound. lia. Qed.
Lemma u32_range x : 0 ≤ u32 x < 2 ^ 32.
Proof. apply Z.mod_pos_bound. lia. Qed.
Lemma u8_id x : 0 ≤ x < 256 → u8 x = x.
Proof. apply Z.mod_small. Qed.
Lemma u16_id x : 0 ≤ x < 65536 → u16 x = x.
Proof. apply Z.mod_small. Qed.
Lemma u32_id x : 0 ≤ x < 2 ^ 32 → u32 x = x.
Proof. apply Z.mod_small. Qed.
Lemma i16_id x : -32768 ≤ x < 32768 → i16 x = x.
Proof. intros. unfold i16, sext. change (2 ^ (16 - 1)) with 32768. rewrite Z.mod_small; lia. Qed.
Lemma i32_id x : -2147483648 ≤ x < 2147483648 → i32 x = x.
Proof. intros. unfold i32, sext. change (2 ^ (32 - 1)) with 2147483648. rewrite Z.mod_small; lia. Qed.
Lemma i16_range x : -32768 ≤ i16 x < 32768.
Proof.
  unfold i16, sext. change (2 ^ (16 - 1)) with 32768.
  pose proof (Z.mod_pos_bound (x + 32768) (2 ^ 16) ltac:(lia)). lia.
Qed.

#[export] Hint Resolve u8_range u16_range u32_range i16_range : cint.
#[export] Hint Rewrite u8_id u16_id u32_id i16_id i32_id using lia : cint.

(** Equality of integers bit by bit: [bits_eq] rewrites a test of bit [i] of
    each side into tests of the operands and decides the comparisons of [i]
    with the widths by cases. *)
Lemma testbit_shiftl' a n i :
  0 ≤ n → 0 ≤ i → Z.testbit (Z.shiftl a n) i = negb (i <? n) && Z.testbit a (i - n).
Proof.
  intros Hn Hi. destruct (Z.ltb_spec i n); simpl.
  - apply Z.shiftl_spec_low. lia.
  - apply Z.shiftl_spec_high; lia.
Qed.

#[export] Hint Rewrite Z.lor_spec Z.land_spec Z.lxor_spec Z.testbit_0_l : zbits.
#[export] Hint Rewrite Z.testbit_mod_pow2 Z.testbit_ones Z.shiftr_spec testbit_shiftl' using lia : zbits.

Ltac bits_cases :=
  repeat match goal with
    | |- context [?a <? ?b] => destruct (Z.ltb_spec a b); try (exfalso; lia)
    | |- context [?a <=? ?b] => destruct (Z.leb_spec a b); try (exfalso; lia)
    end.

Ltac bits_simp :=
  autorewrite with zbits; bits_cases;
  repeat first [ progress cbn [orb andb negb] | rewrite Z.testbit_neg_r by lia
               | rewrite orb_false_r | rewrite andb_true_r | rewrite andb_false_r ];
  try done; try (f_equal; lia).

Ltac bits_eq :=
  apply Z.bits_inj'; let i := fresh "i" in let Hi := fresh "Hi" in intros i Hi; bits_simp.

(** Single-bit tests. *)
Lemma land_pow2_test x k : 0 ≤ k → negb (Z.land x (2 ^ k) =? 0) = Z.testbit x k.
Proof.
  intros Hk. assert (Hb : Z.testbit (Z.land x (2 ^ k)) k = Z.testbit x k).
  { by rewrite Z.land_spec, Z.pow2_bits_true, andb_true_r by lia. }
  destruct (Z.testbit x k) eqn:Hx.
  - destruct (Z.eqb_spec (Z.land x (2 ^ k)) 0) as [H0|]; [|done]. by rewrite H0, Z.testbit_0_l in Hb.
  - replace (Z.land x (2 ^ k)) with 0; [done|]. symmetry. apply Z.bits_inj'. intros i Hi.
    rewrite Z.land_spec, Z.pow2_bits_eqb, Z.testbit_0_l by lia.
    destruct (Z.eqb_spec k i) as [<-|]; [by rewrite Hx | apply andb_false_r].
Qed.

Lemma odd_test a : negb (Z.land a 1 =? 0) = Z.odd a.
Proof. rewrite <- Z.bit0_odd. by apply (land_pow2_test a 0). Qed.

(** Shifts of a [uint32_t]: a count outside [0, 31] is undefined. *)
Definition shl32 (x n : Z) : option Z :=
  if (0 <=? n) && (n <? 32) then Some (u32 (Z.shiftl x n)) else None.
Definition shr32 (x n : Z) : option Z :=
  if (0 <=? n) && (n <? 32) then Some (Z.shiftr x n) else None.

Lemma shl32_in x n : 0 ≤ n < 32 → shl32 x n = Some (u32 (Z.shiftl x n)).
Proof. intros. unfold shl32. by rewrite (proj2 (Z.leb_le _ _)), (proj2 (Z.ltb_lt _ _)) by lia. Qed.
Lemma shr32_in x n : 0 ≤ n < 32 → shr32 x n = Some (Z.shiftr x n).
Proof. intros. unfold shr32. by rewrite (proj2 (Z.leb_le _ _)), (proj2 (Z.ltb_lt _ _)) by lia. Qed.

Lemma wp_shl32 x n Q : 0 ≤ n < 32 → Q (u32 (Z.shiftl x n)) → wp (shl32 x n) Q.
Proof. intros. by rewrite shl32_in. Qed.
Lemma wp_shr32 x n Q : 0 ≤ n < 32 → Q (Z.shiftr x n) → wp (shr32 x n) Q.
Proof. intros. by rewrite shr32_in. Qed.

(** [bswap.h] *)
Definition bswap_16 (x : Z) : Z := u16 (Z.lor (Z.shiftr x 8) (Z.shiftl x 8)).

Definition bswap_32 (x : Z) : Z :=
  let x := Z.lor (Z.land (u32 (Z.shiftl x 8)) 0xFF00FF00) (Z.land (Z.shiftr x 8) 0x00FF00FF) in
  Z.lor (Z.shiftr x 16) (u32 (Z.shiftl x 16)).

(** The host's byte order ([WORDS_BIGENDIAN] of the build). *)
Class Target := { words_bigendian : bool }.

Definition be2me_32 `{Target} (x : Z) : Z := if words_bigendian then x else bswap_32 x.
Definition be2me_16 `{Target} (x : Z) : Z := if words_bigendian then x else bswap_16 x.
Definition le2me_16 `{Target} (x : Z) : Z := if words_bigendian then bswap_16 x else x.
Definition le2me_32 `{Target} (x : Z) : Z := if words_bigendian then bswap_32 x else x.

(** The two halves change places. *)
Definition bswap_64 (x : Z) : Z := Z.lor (bswap_32 (Z.shiftr x 32)) (Z.shiftl (bswap_32 (u32 x)) 32).
Definition be2me_64 `{Target} (x : Z) : Z := if words_bigendian then x else bswap_64 x.

(** The bytes of a [uint32_t] most significant first, and as the host stores them. *)
Definition be_bytes32 (x : Z) : list Z :=
  [u8 (Z.shiftr x 24); u8 (Z.shiftr x 16); u8 (Z.shiftr x 8); u8 x].
Definition host_bytes32 `{Target} (x : Z) : list Z :=
  if words_bigendian then be_bytes32 x else rev (be_bytes32 x).

Lemma host_bytes32_be `{Target} x : host_bytes32 (be2me_32 x) = be_bytes32 x.
Proof.
  unfold host_bytes32, be2me_32.
  destruct words_bigendian; [done|]. unfold be_bytes32, u8, bswap_32, u32. simpl rev.
  change 0xFF00FF00 with (Z.lor (Z.shiftl (Z.ones 8) 24) (Z.shiftl (Z.ones 8) 8)).
  change 0x00FF00FF with (Z.lor (Z.shiftl (Z.ones 8) 16) (Z.ones 8)).
  repeat apply (f_equal2 cons); [..|done]; bits_eq.
Qed.

(** * Arrays

    An array object is the list of its elements.  [aget] and [aset] are the
    accesses of the code, undefined outside the object; [l.[i]] is the element
    in specifications and [upd l i v] the updated array. *)

Definition zlen {A} (l : list A) : Z := Z.of_nat (length l).

Definition aget {A} (l : list A) (i : Z) : option A :=
  if 0 <=? i then l !! Z.to_nat i else None.

Definition upd {A} (l : list A) (i : Z) (v : A) : list A := <[Z.to_nat i := v]> l.

Definition aset {A} (l : list A) (i : Z) (v : A) : option (list A) :=
  if (0 <=? i) && (i <? zlen l) then Some (upd l i v) else None.

Definition at_ {A} `{Inhabited A} (l : list A) (i : Z) : A := l !!! Z.to_nat i.

Notation "l .[ i ]" := (at_ l i) (at level 1, left associativity, format "l .[ i ]") : carray_scope.
Local Open Scope carray_scope.

Lemma zlen_upd {A} (l : list A) i v : zlen (upd l i v) = zlen l.
Proof. unfold zlen, upd. by rewrite length_insert. Qed.

Lemma zlen_nonneg {A} (l : list A) : 0 ≤ zlen l.
Proof. unfold zlen. lia. Qed.

Lemma zlen_app {A} (l k : list A) : zlen (l ++ k) = zlen l + zlen k.
Proof. unfold zlen. rewrite length_app. lia. Qed.

Lemma zlen_replicate {A} n (x : A) : zlen (replicate n x) = Z.of_nat n.
Proof. unfold zlen. by rewrite length_replicate. Qed.

Lemma zlen_map {A B} (f : A → B) l : zlen (map f l) = zlen l.
Proof. unfold zlen. by rewrite length_map. Qed.

Lemma zlen_nil {A} : zlen (@nil A) = 0.
Proof. done. Qed.

Lemma zlen_cons {A} (x : A) l : zlen (x :: l) = 1 + zlen l.
Proof. unfold zlen. simpl length. lia. Qed.

#[export] Hint Rewrite @zlen_nil @zlen_cons @zlen_upd @zlen_app @zlen_replicate @zlen_map : carray.

Section arrays.
Context {A : Type} `{Inhabited A}.
Implicit Types l : list A.

Lemma aget_at l i : 0 ≤ i < zlen l → aget l i = Some l.[i].
Proof.
  intros Hi. unfold aget, at_, zlen in *. rewrite (proj2 (Z.leb_le _ _)) by lia.
  apply list_lookup_lookup_total_lt. lia.
Qed.

Lemma aget_oob l i : i < 0 ∨ zlen l ≤ i → aget l i = None.
Proof.
  intros Hi. unfold aget, zlen in *. destruct (Z.leb_spec 0 i); [|done].
  apply lookup_ge_None. lia.
Qed.

Lemma aset_upd l i v : 0 ≤ i < zlen l → aset l i v = Some (upd l i v).
Proof. intros Hi. unfold aset. by rewrite (proj2 (Z.leb_le _ _)), (proj2 (Z.ltb_lt _ _)) by lia. Qed.

Lemma at_upd l i j v :
  0 ≤ i < zlen l → 0 ≤ j → (upd l i v).[j] = if j =? i then v else l.[j].
Proof.
  intros Hi Hj. unfold upd, at_, zlen in *. destruct (Z.eqb_spec j i) as [->|Hne].
  - apply list_lookup_total_insert_eq. lia.
  - apply list_lookup_total_insert_ne. lia.
Qed.

Lemma at_upd_eq l i v : 0 ≤ i < zlen l → (upd l i v).[i] = v.
Proof. intros. rewrite at_upd by lia. by rewrite Z.eqb_refl. Qed.

Lemma at_upd_ne l i j v : 0 ≤ i → 0 ≤ j → j ≠ i → (upd l i v).[j] = l.[j].
Proof. intros. unfold upd, at_. apply list_lookup_total_insert_ne. lia. Qed.

Lemma at_app_l l k i : 0 ≤ i < zlen l → (l ++ k).[i] = l.[i].
Proof. intros. unfold at_, zlen in *. apply lookup_total_app_l. lia. Qed.

Lemma at_app_r l k i : zlen l ≤ i → (l ++ k).[i] = k.[i - zlen l].
Proof.
  intros. unfold at_, zlen in *. rewrite lookup_total_app_r by lia. f_equal. lia.
Qed.

Lemma at_replicate n (x : A) i : 0 ≤ i < Z.of_nat n → (replicate n x).[i] = x.
Proof. intros. unfold at_. apply lookup_total_replicate_2. lia. Qed.

Lemma at_cons_0 x l : (x :: l).[0] = x.
Proof. done. Qed.

Lemma at_cons_pos x l i : 0 < i → (x :: l).[i] = l.[i - 1].
Proof.
  intros. unfold at_. replace (Z.to_nat i) with (Datatypes.S (Z.to_nat (i - 1))) by lia. done.
Qed.

Lemma array_ext l k :
  zlen l = zlen k → (∀ i, 0 ≤ i < zlen l → l.[i] = k.[i]) → l = k.
Proof.
  intros Hlen Hat. unfold zlen, at_ in *. apply list_eq_same_length with (length l); [lia|lia|].
  intros i x y Hi Hx Hy.
  specialize (Hat (Z.of_nat i) ltac:(lia)). rewrite Nat2Z.id in Hat.
  apply list_lookup_total_correct in Hx, Hy. congruence.
Qed.

Lemma Forall_at (P : A → Prop) l : Forall P l ↔ ∀ i, 0 ≤ i < zlen l → P l.[i].
Proof.
  unfold zlen, at_. rewrite Forall_lookup_total. split.
  - intros HP i Hi. apply HP. lia.
  - intros HP i Hi. specialize (HP (Z.of_nat i) ltac:(lia)). by rewrite Nat2Z.id in HP.
Qed.

Lemma wp_aget l i (Q : A → Prop) : 0 ≤ i < zlen l → Q l.[i] → wp (aget l i) Q.
Proof. intros. by rewrite aget_at. Qed.

Lemma wp_aset l i v (Q : list A → Prop) :
  0 ≤ i < zlen l → Q (upd l i v) → wp (aset l i v) Q.
Proof. intros. by rewrite aset_upd. Qed.
End arrays.

#[export] Hint Rewrite @at_upd_eq using lia : carray.

(** Finite checks: a boolean test of every index below [n], and of every
    element of an array. *)
Lemma check_range (p : Z → bool) n i :
  forallb p (map Z.of_nat (seq 0 (Z.to_nat n))) = true → 0 ≤ i < n → p i = true.
Proof.
  rewrite forallb_forall. intros Hall Hi. apply Hall, in_map_iff.
  exists (Z.to_nat i). rewrite in_seq. lia.
Qed.

(** [table_check p n H]: from [H : 0 <= i < n], the test [p] of [i], after
    evaluating [p] on the whole range. *)
Ltac table_check p n H :=
  apply (check_range p n) in H; [cbv beta in H | vm_compute; reflexivity].

Lemma forallb_at {A} `{Inhabited A} (p : A → bool) l i :
  forallb p l = true → 0 ≤ i < zlen l → p l.[i] = true.
Proof.
  rewrite forallb_forall. intros Hall Hi. apply Hall, list_elem_of_In.
  unfold zlen, at_ in *. apply list_elem_of_lookup_2 with (Z.to_nat i).
  apply list_lookup_lookup_total_lt. lia.
Qed.

(** An array of arrays, as [T a[n][m]]. *)
Definition aget2 {A} (l : list (list A)) (i j : Z) : option A := r ← aget l i; aget r j.
Definition aset2 {A} (l : list (list A)) (i j : Z) (v : A) : option (list (list A)) :=
  r ← aget l i; r' ← aset r j v; aset l i r'.

(** [memcpy (dst + d, src + s, n)] and [memset (dst + d, c, n)] on arrays of
    elements of one size; undefined when either range leaves its object. *)
Definition slice {A} (l : list A) (s n : Z) : list A := take (Z.to_nat n) (drop (Z.to_nat s) l).

Definition splice {A} (dst : list A) (d : Z) (src : list A) : list A :=
  take (Z.to_nat d) dst ++ src ++ drop (Z.to_nat d + length src) dst.

Definition memcpy {A} (dst : list A) (d : Z) (src : list A) (s n : Z) : option (list A) :=
  if (0 <=? d) && (0 <=? s) && (0 <=? n) && (d + n <=? zlen dst) && (s + n <=? zlen src)
  then Some (splice dst d (slice src s n)) else None.

Definition memset {A} (dst : list A) (d : Z) (c : A) (n : Z) : option (list A) :=
  if (0 <=? d) && (0 <=? n) && (d + n <=? zlen dst)
  then Some (splice dst d (replicate (Z.to_nat n) c)) else None.

Section copies.
Context {A : Type}.
Implicit Types l dst src : list A.

Lemma memcpy_in dst d src s n :
  0 ≤ d → 0 ≤ s → 0 ≤ n → d + n ≤ zlen dst → s + n ≤ zlen src →
  memcpy dst d src s n = Some (splice dst d (slice src s n)).
Proof.
  intros. unfold memcpy.
  by rewrite !(proj2 (Z.leb_le _ _)) by lia.
Qed.

Lemma memset_in dst d c n :
  0 ≤ d → 0 ≤ n → d + n ≤ zlen dst →
  memset dst d c n = Some (splice dst d (replicate (Z.to_nat n) c)).
Proof. intros. unfold memset. by rewrite !(proj2 (Z.leb_le _ _)) by lia. Qed.

Lemma slice_all l : slice l 0 (zlen l) = l.
Proof. unfold slice, zlen. rewrite drop_0, Nat2Z.id. apply take_ge. lia. Qed.

Lemma zlen_slice l s n : 0 ≤ s → 0 ≤ n → s + n ≤ zlen l → zlen (slice l s n) = n.
Proof. unfold slice, zlen. intros. rewrite length_take, length_drop. lia. Qed.

Lemma slice_0 l s : slice l s 0 = [].
Proof. done. Qed.

Lemma slice_snoc `{Inhabited A} l s i : 0 ≤ s → 0 ≤ i → s + i < zlen l → slice l s (i + 1) = slice l s i ++ [l.[s + i]].
Proof.
  intros Hs Hi Hl. unfold slice, at_, zlen in *. replace (Z.to_nat (i + 1)) with (Datatypes.S (Z.to_nat i)) by lia.
  rewrite (take_S_r _ _ l.[s + i]); [done|]. rewrite lookup_drop.
  replace (Z.to_nat s + Z.to_nat i)%nat with (Z.to_nat (s + i)) by lia. unfold at_. apply list_lookup_lookup_total_lt. lia.
Qed.

Lemma zlen_splice dst d src :
  0 ≤ d → d + zlen src ≤ zlen dst → zlen (splice dst d src) = zlen dst.
Proof.
  unfold splice, zlen. intros. rewrite !length_app, length_take, length_drop. lia.
Qed.

Lemma take_splice dst d src :
  0 ≤ d ≤ zlen dst →
  take (Z.to_nat (d + zlen src)) (splice dst d src) = take (Z.to_nat d) dst ++ src.
Proof.
  intros. unfold splice, zlen in *. rewrite app_assoc, take_app_length'; [done|].
  rewrite length_app, length_take. lia.
Qed.

Lemma drop_splice dst d src :
  0 ≤ d ≤ zlen dst →
  drop (Z.to_nat (d + zlen src)) (splice dst d src) = drop (Z.to_nat (d + zlen src)) dst.
Proof.
  intros. unfold splice, zlen in *. rewrite app_assoc, drop_app_length'.
  - f_equal. lia.
  - rewrite length_app, length_take. lia.
Qed.

Lemma at_slice `{Inhabited A} l s n i :
  0 ≤ s → 0 ≤ i < n → (slice l s n).[i] = l.[s + i].
Proof.
  intros. unfold slice, at_.
  rewrite lookup_total_take_lt by lia. rewrite lookup_total_drop.
  by replace (Z.to_nat (s + i)) with (Z.to_nat s + Z.to_nat i)%nat by lia.
Qed.

Lemma at_splice `{Inhabited A} dst d src i :
  0 ≤ d → d + zlen src ≤ zlen dst → 0 ≤ i →
  (splice dst d src).[i] = if (d <=? i) && (i <? d + zlen src) then src.[i - d] else dst.[i].
Proof.
  intros Hd Hl Hi. unfold splice, at_, zlen in *.
  destruct (Z.leb_spec d i), (Z.ltb_spec i (d + Z.of_nat (length src))); simpl; try lia.
  - rewrite lookup_total_app_r by (rewrite length_take; lia).
    rewrite lookup_total_app_l by (rewrite length_take; lia).
    rewrite length_take. f_equal. lia.
  - rewrite !lookup_total_app_r by (rewrite ?length_take; lia).
    rewrite lookup_total_drop, length_take. f_equal. lia.
  - rewrite lookup_total_app_l by (rewrite length_take; lia).
    apply lookup_total_take_lt. lia.
Qed.
End copies.

(** Symbolic execution: one access or assignment of the code per step.  Side
    conditions (indices in range) go to the hints of [carray] and to [lia];
    those they do not prove remain. *)
Ltac wp_side := try first [ solve [auto with carray nocore] | (autorewrite with carray in *; lia) ].

Ltac wp_step :=
  lazymatch goal with
  | |- wp (_ ≫= _) _ => apply wp_bind
  | |- wp (Some _) _ => apply wp_ret
  | |- wp (mret _) _ => apply wp_ret
  | |- wp (let _ := _ in _) _ => cbv zeta
  | |- wp (aget _ _) _ => apply wp_aget; [wp_side|]
  | |- wp (aset _ _ _) _ => apply wp_aset; [wp_side|]
  | |- wp (shl32 _ _) _ => apply wp_shl32; [wp_side|]
  | |- wp (shr32 _ _) _ => apply wp_shr32; [wp_side|]
  | |- wp (match ?b with true => _ | false => _ end) _ => apply wp_if; intros ?
  end.

Ltac wp_steps := repeat wp_step.

#[global] Arguments shl32 : simpl never.
#[global] Arguments shr32 : simpl never.
#[global] Arguments aget : simpl never.
#[global] Arguments aset : simpl never.
#[global] Arguments upd : simpl never.
#[global] Arguments at_ : simpl never.
#[global] Arguments zlen : simpl never.
#[global] Arguments memcpy : simpl never.
#[global] Arguments memset : simpl never.
#[global] Arguments u8 : simpl never.
#[global] Arguments u16 : simpl never.
#[global] Arguments u32 : simpl never.
#[global] Arguments i16 : simpl never.
#[global] Arguments i32 : simpl never.

(** * Sums over index ranges *)

Fixpoint sum_upto (f : Z → Z) (n : nat) : Z :=
  match n with O => 0 | S n' => sum_upto f n' + f (Z.of_nat n') end.

(** [f 0 + ... + f (n - 1)] *)
Definition zsum (f : Z → Z) (n : Z) : Z := sum_upto f (Z.to_nat n).

Lemma zsum_0 f : zsum f 0 = 0.
Proof. done. Qed.

Lemma zsum_succ f n : 0 ≤ n → zsum f (n + 1) = zsum f n + f n.
Proof.
  intros Hn. unfold zsum. replace (Z.to_nat (n + 1)) with (S (Z.to_nat n)) by lia. simpl.
  by rewrite Z2Nat.id by lia.
Qed.

Lemma zsum_ind (P : Z → Prop) n : 0 ≤ n → P 0 → (∀ k, 0 ≤ k < n → P k → P (k + 1)) → P n.
Proof.
  intros Hn H0 HS. assert (Hm : ∀ m : nat, Z.of_nat m ≤ n → P (Z.of_nat m)).
  { induction m as [|m IH]; intros Hm; [done|]. rewrite Nat2Z.inj_succ, <- Z.add_1_r.
    apply HS; [lia|]. apply IH. lia. }
  rewrite <- (Z2Nat.id n) by done. apply Hm. lia.
Qed.

Lemma zsum_ext f g n : (∀ i, 0 ≤ i < n → f i = g i) → zsum f n = zsum g n.
Proof.
  intros Hfg. destruct (Z.leb_spec n 0) as [Hn|Hn].
  { unfold zsum. by replace (Z.to_nat n) with 0%nat by lia. }
  apply (zsum_ind (λ k, zsum f k = zsum g k)); [lia|done|].
  intros k Hk IH. by rewrite !zsum_succ, IH, Hfg by lia.
Qed.

Lemma zsum_bounds f n a b : 0 ≤ n → (∀ i, 0 ≤ i < n → a ≤ f i ≤ b) → a * n ≤ zsum f n ≤ b * n.
Proof.
  intros Hn Hf. apply (zsum_ind (λ k, a * k ≤ zsum f k ≤ b * k)); [done|rewrite zsum_0; lia|].
  intros k Hk IH. rewrite zsum_succ by lia. specialize (Hf k Hk). lia.
Qed.

Lemma zsum_zero f n : (∀ i, 0 ≤ i < n → f i = 0) → zsum f n = 0.
Proof.
  intros Hf. destruct (Z.leb_spec 0 n).
  - pose proof (zsum_bounds f n 0 0 ltac:(lia)) as Hz. assert (∀ i, 0 ≤ i < n → 0 ≤ f i ≤ 0) as Hb; [|specialize (Hz Hb); lia].
    intros i Hi. rewrite Hf by done. lia.
  - unfold zsum. by replace (Z.to_nat n) with 0%nat by lia.
Qed.

Lemma zsum_add f g n : 0 ≤ n → zsum (λ i, f i + g i) n = zsum f n + zsum g n.
Proof.
  intros Hn. apply (zsum_ind (λ k, zsum (λ i, f i + g i) k = zsum f k + zsum g k)); [done|done|].
  intros k Hk IH. rewrite !zsum_succ by lia. lia.
Qed.

#[global] Arguments zsum : simpl never.

(** * Concatenations over index ranges *)

Fixpoint cat_upto {A} (f : Z → list A) (n : nat) : list A :=
  match n with O => [] | S n' => cat_upto f n' ++ f (Z.of_nat n') end.

(** [f 0 ++ ... ++ f (n - 1)] *)
Definition zcat {A} (f : Z → list A) (n : Z) : list A := cat_upto f (Z.to_nat n).

Lemma zcat_0 {A} (f : Z → list A) : zcat f 0 = [].
Proof. done. Qed.

Lemma zcat_succ {A} (f : Z → list A) n : 0 ≤ n → zcat f (n + 1) = zcat f n ++ f n.
Proof.
  intros Hn. unfold zcat. replace (Z.to_nat (n + 1)) with (S (Z.to_nat n)) by lia. simpl.
  by rewrite Z2Nat.id by lia.
Qed.

Lemma zcat_ext {A} (f g : Z → list A) n : (∀ i, 0 ≤ i < n → f i = g i) → zcat f n = zcat g n.
Proof.
  intros Hfg. destruct (Z.leb_spec n 0) as [Hn|Hn].
  { unfold zcat. by replace (Z.to_nat n) with 0%nat by lia. }
  apply (zsum_ind (λ k, zcat f k = zcat g k)); [lia|done|].
  intros k Hk IH. by rewrite !zcat_succ, IH, Hfg by lia.
Qed.

(** A sum over the elements of a concatenation. *)
Lemma zcat_sum {A} (m : list A → Z) (f : Z → list A) n :
  m [] = 0 → (∀ l k, m (l ++ k) = m l + m k) → m (zcat f n) = zsum (λ i, m (f i)) n.
Proof.
  intros H0 Happ. unfold zcat, zsum. induction (Z.to_nat n) as [|k IH]; [done|]. simpl.
  rewrite Happ. lia.
Qed.

Lemma zlen_zcat {A} (f : Z → list A) n : zlen (zcat f n) = zsum (λ i, zlen (f i)) n.
Proof. apply zcat_sum; [done|]. intros. apply zlen_app. Qed.

Lemma Forall_zcat {A} (P : A → Prop) (f : Z → list A) n :
  (∀ i, 0 ≤ i < n → Forall P (f i)) → Forall P (zcat f n).
Proof.
  intros Hf. destruct (Z.leb_spec n 0) as [Hn|Hn].
  { unfold zcat. replace (Z.to_nat n) with 0%nat by lia. constructor. }
  apply (zsum_ind (λ k, Forall P (zcat f k))); [lia|constructor|].
  intros k Hk IH. rewrite zcat_succ by lia. apply Forall_app. auto.
Qed.

#[global] Arguments zcat : simpl never.

(** ** One element of an array of arrays *)

Definition upd2 {A} (m : list (list A)) (i j : Z) (v : A) : list (list A) := upd m i (upd (at_ m i) j v).

Section matrices.
Context {A : Type} `{Inhabited A}.

Lemma wp_aset2 n w (m : list (list A)) i j v (Q : list (list A) → Prop) :
  zlen m = n → zlen (at_ m i) = w → 0 ≤ i < n → 0 ≤ j < w → Q (upd2 m i j v) → wp (aset2 m i j v) Q.
Proof. intros Hn Hw Hi Hj HQ. unfold aset2. wp_steps. done. Qed.

Lemma at_upd2 (m : list (list A)) i j a b v :
  0 ≤ i < zlen m → 0 ≤ j < zlen m.[i] → 0 ≤ a → 0 ≤ b →
  (upd2 m i j v).[a].[b] = if (a =? i) && (b =? j) then v else m.[a].[b].
Proof.
  intros Hi Hj Ha Hb. unfold upd2. rewrite at_upd by lia. destruct (Z.eqb_spec a i) as [-> |]; simpl; [|done].
  by rewrite at_upd by lia.
Qed.

Lemma wp_aget2 n w (m : list (list A)) i j (Q : A → Prop) :
  zlen m = n → zlen (at_ m i) = w → 0 ≤ i < n → 0 ≤ j < w → Q m.[i].[j] → wp (aget2 m i j) Q.
Proof. intros Hn Hw Hi Hj HQ. unfold aget2. wp_steps. done. Qed.
End matrices.

(** ** Arrays taken apart *)

Lemma slice_mid {A} (a b c : list A) n d : zlen a = n → zlen b = d → slice (a ++ b ++ c) n d = b.
Proof.
  unfold slice, zlen. intros <- <-. rewrite !Nat2Z.id. by rewrite drop_app_length, take_app_length.
Qed.

Lemma splice_nil {A} (l : list A) d : splice l d [] = l.
Proof. unfold splice. simpl. rewrite Nat.add_0_r. apply take_drop. Qed.

Lemma upd_app_mid {A} (a b : list A) x v n : zlen a = n → upd (a ++ x :: b) n v = a ++ v :: b.
Proof.
  unfold upd, zlen. intros <-. rewrite Nat2Z.id. rewrite insert_app_r_alt by lia. by rewrite Nat.sub_diag.
Qed.

(** An array of [n] elements and more, as its first [n] elements and the rest. *)
Lemma split_at {A} (l : list A) n : 0 ≤ n ≤ zlen l → ∃ a b, l = a ++ b ∧ zlen a = n.
Proof.
  intros Hn. exists (take (Z.to_nat n) l), (drop (Z.to_nat n) l). rewrite take_drop. split; [done|].
  unfold zlen in *. rewrite length_take. lia.
Qed.

(** One more row of an array done. *)
Lemma row_done {A} `{Inhabited A} (l : list A) (new old : Z → A) c v ch :
  0 ≤ c < zlen l → 0 ≤ ch → l.[ch] = (if ch <? c then new ch else old ch) → v = new c →
  (upd l c v).[ch] = if ch <? c + 1 then new ch else old ch.
Proof.
  intros Hc Hch Hl ->. rewrite at_upd, Hl by lia. destruct (Z.eqb_spec ch c) as [-> |].
  - by replace (c <? c + 1) with true by lia.
  - by replace (ch <? c + 1) with (ch <? c) by lia.
Qed.
Lemma row_done_if {A} `{Inhabited A} (s : Z → bool) (l : list A) (new old : Z → A) c v ch :
  0 ≤ c < zlen l → 0 ≤ ch → l.[ch] = (if (ch <? c) && s ch then new ch else old ch) → v = new c →
  (if s c then upd l c v else l).[ch] = if (ch <? c + 1) && s ch then new ch else old ch.
Proof.
  intros Hc Hch Hl ->. destruct (Z.eqb_spec ch c) as [-> |Hne].
  - replace (c <? c + 1) with true by lia. rewrite Z.ltb_irrefl in Hl. destruct (s c); [by rewrite at_upd_eq|done].
  - replace (ch <? c + 1) with (ch <? c) by lia. destruct (s c); [by rewrite at_upd_ne by lia|done].
Qed.
