(* ===== verification/Float.v ===== *)
(** The encoder's [FLOAT]: IEEE binary32, or binary64 with [CONFIG_DOUBLE], as
    the Standard Library's [spec_float]; conversions to integers truncate and
    are undefined outside the target type. *)
From Stdlib Require Import ZArith Lia ZifyBool Bool.
From Stdlib Require Export SpecFloat.
From stdpp Require Import base option list numbers.
From S2P Require Import Prelude CMachine.
Local Open Scope Z_scope.

Definition FLOAT : Type := spec_float.
#[global] Instance FLOAT_inhabited : Inhabited FLOAT := populate (S754_zero false).

Class FloatFormat := { F_prec : Z; F_emax : Z }.
(** The two builds: without and with [CONFIG_DOUBLE]. *)
Definition single_format : FloatFormat := {| F_prec := 24; F_emax := 128 |}.
Definition double_format : FloatFormat := {| F_prec := 53; F_emax := 1024 |}.

Section float.
Context `{FloatFormat}.

Definition F_add (x y : FLOAT) : FLOAT := SFadd F_prec F_emax x y.
Definition F_sub (x y : FLOAT) : FLOAT := SFsub F_prec F_emax x y.
Definition F_mul (x y : FLOAT) : FLOAT := SFmul F_prec F_emax x y.
Definition F_div (x y : FLOAT) : FLOAT := SFdiv F_prec F_emax x y.
Definition F_neg (x : FLOAT) : FLOAT := SFopp x.
Definition F_lt (x y : FLOAT) : bool := SFltb x y.
Definition F_le (x y : FLOAT) : bool := SFleb x y.
Definition AFT_SQRT (x : FLOAT) : FLOAT := SFsqrt F_prec F_emax x.
Definition AFT_FABS (x : FLOAT) : FLOAT := SFabs x.

(** Conversion of an integer, rounded to nearest. *)
Definition F_of_Z (n : Z) : FLOAT := binary_normalize F_prec F_emax n 0 false.
(** [m * 2^e], rounded: the decimal constants of the source are given this way. *)
Definition F_const (m e : Z) : FLOAT := binary_normalize F_prec F_emax m e false.
(** The quotient of two exactly representable integers: a decimal constant. *)
Definition F_dec (n d : Z) : FLOAT := SFdiv F_prec F_emax (F_of_Z n) (F_of_Z d).

(** The macros of [common.h] on floating point operands: [MIN] and [MAX] return
    their first operand when the comparison with NaN fails. *)
Definition F_MAX (a b : FLOAT) : FLOAT := if F_lt b a then a else b.
Definition F_MIN (a b : FLOAT) : FLOAT := if F_lt b a then b else a.
Definition F_CLIP (x lo hi : FLOAT) : FLOAT := F_MAX (F_MIN x hi) lo.

Definition F_1 : FLOAT := F_of_Z 1.
Definition F_2 : FLOAT := F_of_Z 2.
(** [AFT_PI] and [AFT_SQRT2], from 64-bit approximations of their decimals. *)
Definition AFT_PI : FLOAT := F_const 14488038916154245684 (-62).
Definition AFT_SQRT2 : FLOAT := F_const 6521908912666391106 (-62).
Definition AFT_LN10 : FLOAT := F_const 10618799479599967254 (-62).
End float.

(** The functions of [math.h] that are not exactly specified. *)
Class LibM := {
  AFT_SIN : FLOAT → FLOAT;
  AFT_COS : FLOAT → FLOAT;
  AFT_TAN : FLOAT → FLOAT;
  AFT_LOG10 : FLOAT → FLOAT;
  AFT_EXP : FLOAT → FLOAT
}.

(** A number between -1 and 1; not NaN. *)
Definition F_unit `{FloatFormat} (x : FLOAT) : Prop := F_le (F_neg F_1) x = true ∧ F_le x F_1 = true.

Lemma F_lt_le x y : F_lt x y = true → F_le x y = true.
Proof. unfold F_lt, F_le, SFltb, SFleb. by destruct (SFcompare x y) as [[]|]. Qed.

(** The format of a build: one of the two. *)
Class FloatOk (F : FloatFormat) : Prop := float_ok : F = single_format ∨ F = double_format.
#[global] Instance single_ok : FloatOk single_format. Proof. by left. Qed.
#[global] Instance double_ok : FloatOk double_format. Proof. by right. Qed.

(** The integer part; [None] for infinities and NaN. *)
Definition F_trunc (x : FLOAT) : option Z :=
  match x with
  | S754_zero _ => Some 0
  | S754_finite s m e =>
      let a := if 0 <=? e then Zpos m * 2 ^ e else Zpos m / 2 ^ (- e) in
      Some (if s then - a else a)
  | _ => None
  end.

(** [(uint32_t)x], [(int)x] *)
Definition F_to_u32 (x : FLOAT) : option Z :=
  z ← F_trunc x; if (0 <=? z) && (z <? 2 ^ 32) then Some z else None.
Definition F_to_int (x : FLOAT) : option Z :=
  z ← F_trunc x; if (- 2 ^ 31 <=? z) && (z <? 2 ^ 31) then Some z else None.

Lemma F_trunc_abs x z : F_trunc x = Some z → F_trunc (AFT_FABS x) = Some (Z.abs z).
Proof.
  destruct x as [s|s| |s m e]; simpl; try done; [by intros [= <-]|]. intros [= <-].
  assert (0 ≤ if 0 <=? e then Zpos m * 2 ^ e else Zpos m / 2 ^ (- e)).
  { destruct (Z.leb_spec 0 e); [apply Z.mul_nonneg_nonneg; [lia|apply Z.pow_nonneg; lia]|].
    apply Z.div_pos; [lia|]. apply Z.pow_pos_nonneg; lia. }
  f_equal. destruct s; lia.
Qed.

#[global] Arguments F_add : simpl never.
#[global] Arguments F_sub : simpl never.
#[global] Arguments F_mul : simpl never.
#[global] Arguments F_to_u32 : simpl never.
#[global] Arguments F_to_int : simpl never.

Lemma SFcompare_swap x y : SFcompare y x = option_map CompOpp (SFcompare x y).
Proof.
  destruct x as [sx|sx| |sx mx ex], y as [sy|sy| |sy my ey]; try (by destruct sx, sy); try (by destruct sx); try (by destruct sy); try done.
  assert (Hm : Pos.compare_cont Eq my mx = CompOpp (Pos.compare_cont Eq mx my))
    by (symmetry; apply (Pos.compare_cont_antisym mx my Eq)).
  simpl. rewrite Hm, (Z.compare_antisym ex ey). destruct sx, sy; simpl; try done;
    destruct (ex ?= ey), (Pos.compare_cont Eq mx my); done.
Qed.

(** Clipping gives a number between -1 and 1, also for infinities and NaN. *)
Lemma F_CLIP_unit `{FloatOk} x : F_unit (F_CLIP x (F_neg F_1) F_1).
Proof.
  assert (H1 : F_unit F_1) by (destruct H as [-> | ->]; by vm_compute).
  assert (Hn : F_unit (F_neg F_1)) by (destruct H as [-> | ->]; by vm_compute).
  unfold F_CLIP, F_MAX, F_MIN. destruct (F_lt F_1 x) eqn:Hx.
  - by destruct (F_lt (F_neg F_1) F_1).
  - destruct (F_lt (F_neg F_1) x) eqn:Hx'; [|done]. split; [by apply F_lt_le|].
    assert (Hone : ∃ m e, F_1 = S754_finite false m e) by (destruct H as [-> | ->]; by repeat eexists).
    destruct Hone as (m & e & Hone). unfold F_lt, F_le, SFltb, SFleb in *. rewrite (SFcompare_swap F_1 x).
    destruct (SFcompare F_1 x) as [[]|] eqn:Hc; try done.
    rewrite Hone in Hc. by destruct x as [s|s| |s m' e'], (F_neg F_1).
Qed.
