(* ===== verification/FloatExact.v ===== *)
(** Arithmetic on [FLOAT]: integers below [2 ^ F_prec] are represented exactly,
    multiplying or dividing by a power of two only moves the exponent, and
    rounding never crosses a number of the format; so sums of numbers below
    [2 ^ b] stay below [2 ^ (b + 1)], which keeps the coefficients of the
    encoder below 1. *)
From Stdlib Require Import ZArith Lia ZifyBool Bool.
From stdpp Require Import base option list numbers.
From S2P Require Import Prelude CMachine Float.
Local Open Scope Z_scope.

(** * Digits *)

Lemma digits2_bounds p : 2 ^ (Zpos (digits2_pos p) - 1) ≤ Zpos p < 2 ^ Zpos (digits2_pos p).
Proof.
  assert (Hstep : ∀ q d, 2 ^ (Zpos d - 1) ≤ Zpos q < 2 ^ Zpos d → ∀ b, 0 ≤ b ≤ 1 →
    2 ^ (Zpos (Pos.succ d) - 1) ≤ 2 * Zpos q + b < 2 ^ Zpos (Pos.succ d)).
  { intros q d Hd b Hb. rewrite Pos2Z.inj_succ. replace (Z.succ (Zpos d) - 1) with (1 + (Zpos d - 1)) by lia.
    replace (Z.succ (Zpos d)) with (1 + Zpos d) by lia. rewrite !Z.pow_add_r by lia. lia. }
  induction p as [p IH|p IH|]; cbn [digits2_pos].
  - change (Zpos p~1) with (2 * Zpos p + 1). apply Hstep; [done|lia].
  - replace (Zpos p~0) with (2 * Zpos p + 0) by lia. apply Hstep; [done|lia].
  - lia.
Qed.

Lemma digits2_unique p d : 2 ^ (d - 1) ≤ Zpos p < 2 ^ d → Zpos (digits2_pos p) = d.
Proof.
  intros Hd. pose proof (digits2_bounds p) as Hb.
  assert (0 < d) by (destruct (Z.ltb_spec 0 d); [done|]; rewrite (Z.pow_neg_r 2 (d - 1)) in Hd by lia;
    destruct (Z.eqb_spec d 0) as [-> |]; [|rewrite (Z.pow_neg_r 2 d) in Hd by lia]; simpl in *; lia).
  destruct (Z.lt_trichotomy (Zpos (digits2_pos p)) d) as [Hlt|[Heq|Hgt]]; [|done|].
  - pose proof (Z.pow_le_mono_r 2 (Zpos (digits2_pos p)) (d - 1)). lia.
  - pose proof (Z.pow_le_mono_r 2 d (Zpos (digits2_pos p) - 1)). lia.
Qed.

Lemma digits2_shift m j : 0 ≤ j → Zdigits2 (Zpos m * 2 ^ j) = Zpos (digits2_pos m) + j.
Proof.
  intros Hj. assert (0 < 2 ^ j) by (apply Z.pow_pos_nonneg; lia). pose proof (digits2_bounds m) as Hb.
  destruct (Zpos m * 2 ^ j) as [|z|z] eqn:Hz; [lia| |lia]. simpl. apply digits2_unique. rewrite <- Hz.
  replace (Zpos (digits2_pos m) + j - 1) with (Zpos (digits2_pos m) - 1 + j) by lia. rewrite !Z.pow_add_r by lia.
  split; [apply Z.mul_le_mono_nonneg_r; lia|apply Z.mul_lt_mono_pos_r; lia].
Qed.

(** * Shifts of exact records *)

Lemma iter_pos_nat {A} (f : A → A) p x : iter_pos f p x = Nat.iter (Pos.to_nat p) f x.
Proof.
  assert (Hcomm : ∀ n (x : A), Nat.iter n f (f x) = f (Nat.iter n f x)) by (induction n; intros; simpl; congruence).
  revert x. induction p as [p IH|p IH|]; intros x; cbn [iter_pos].
  - rewrite !IH, Pos2Nat.inj_xI, <- Nat.iter_add. rewrite Hcomm.
    replace (S (2 * Pos.to_nat p)) with (S (Pos.to_nat p + Pos.to_nat p)) by lia. done.
  - rewrite !IH, Pos2Nat.inj_xO, <- Nat.iter_add. f_equal. lia.
  - done.
Qed.

Lemma shr_1_exact m n :
  0 < m → 0 ≤ n → shr_1 (Build_shr_record (m * 2 ^ (n + 1)) false false) = Build_shr_record (m * 2 ^ n) false false.
Proof.
  intros Hm Hn. rewrite Z.pow_add_r by lia. replace (m * (2 ^ n * 2 ^ 1)) with (2 * (m * 2 ^ n)) by lia.
  assert (0 < m * 2 ^ n) by (apply Z.mul_pos_pos; [lia|apply Z.pow_pos_nonneg; lia]).
  by destruct (m * 2 ^ n) as [|q|q].
Qed.

Lemma shr_exact m e k :
  0 < m → 0 ≤ k → shr (Build_shr_record (m * 2 ^ k) false false) e k = (Build_shr_record m false false, e + k).
Proof.
  intros Hm Hk. assert (Hit : ∀ n : nat, Nat.iter n shr_1 (Build_shr_record (m * 2 ^ Z.of_nat n) false false) =
    Build_shr_record m false false).
  { induction n as [|n IH]; [simpl; by rewrite Z.mul_1_r|].
    assert (Hcomm : ∀ n x, Nat.iter n shr_1 (shr_1 x) = shr_1 (Nat.iter n shr_1 x)) by (induction n0; intros; simpl; congruence).
    replace (Nat.iter (S n) shr_1) with (λ x, shr_1 (Nat.iter n shr_1 x)) by done. cbv beta.
    rewrite <- Hcomm, Nat2Z.inj_succ, <- Z.add_1_r, shr_1_exact by lia. exact IH. }
  destruct k as [|p|p]; [simpl; by rewrite Z.mul_1_r, Z.add_0_r| |lia].
  unfold shr. rewrite iter_pos_nat. specialize (Hit (Pos.to_nat p)). rewrite positive_nat_Z in Hit. by rewrite Hit.
Qed.

Section exact.
Context {F : FloatFormat} {Ok : FloatOk F}.

(** A significand with all its bits. *)
Definition normal (m : positive) : Prop := 2 ^ (F_prec - 1) ≤ Zpos m < 2 ^ F_prec.
(** Exponents far from both ends of the range. *)
Definition mid (e : Z) : Prop := -120 ≤ e ≤ 100.

Lemma format_facts : 0 < F_prec ≤ 53 ∧ emin F_prec F_emax ≤ -130 ∧ 100 ≤ F_emax - F_prec.
Proof. destruct Ok as [-> | ->]; vm_compute; intuition discriminate. Qed.

(** Numbers of the format: canonical significands. *)
Definition canonical (m : positive) (e : Z) : Prop := fexp F_prec F_emax (Zpos (digits2_pos m) + e) = e.

(** A value that is a number of the format is not rounded. *)
Lemma round_aux_canonical s m e j :
  0 ≤ j → canonical m e → e ≤ F_emax - F_prec →
  binary_round_aux F_prec F_emax s (Zpos m * 2 ^ j) (e - j) loc_Exact = S754_finite s m e.
Proof.
  intros Hj Hc He.
  unfold canonical in Hc. unfold binary_round_aux, shr_fexp, shr_record_of_loc. rewrite digits2_shift by done.
  replace (Zpos (digits2_pos m) + j + (e - j)) with (Zpos (digits2_pos m) + e) by lia.
  rewrite Hc. replace (e - (e - j)) with j by lia. rewrite shr_exact by lia. cbv beta iota.
  simpl shr_m. simpl loc_of_shr_record. unfold round_nearest_even. replace (e - j + j) with e by lia.
  change (Zdigits2 (Zpos m)) with (Zpos (digits2_pos m)). rewrite Hc. replace (e - e) with 0 by lia. simpl shr. cbv iota.
  simpl shr_m. by rewrite (proj2 (Z.leb_le _ _)) by lia.
Qed.

Lemma round_aux_exact s m e k x :
  normal m → 0 ≤ k → mid (e + k) → x = Zpos m * 2 ^ k →
  binary_round_aux F_prec F_emax s x e loc_Exact = S754_finite s m (e + k).
Proof.
  intros Hm Hk Hmid ->. pose proof format_facts as (Hp & Hmin & Hmax). unfold mid, normal in *.
  replace e with (e + k - k) at 1 by lia. apply round_aux_canonical; [done| |lia].
  unfold canonical, fexp. rewrite (digits2_unique m F_prec) by done. lia.
Qed.

(** An integer is its significand shifted. *)
Lemma round_exact s p :
  Zpos p < 2 ^ F_prec → ∃ m j, binary_round F_prec F_emax s p 0 = S754_finite s m (- j) ∧ normal m ∧
    0 ≤ j < F_prec ∧ Zpos m = Zpos p * 2 ^ j.
Proof.
  intros Hp. pose proof format_facts as (Hf & Hmin & Hmax). pose proof (digits2_bounds p) as Hd.
  set (d := Zpos (digits2_pos p)) in *.
  assert (Hdp : d ≤ F_prec).
  { destruct (Z.leb_spec d F_prec); [done|]. pose proof (Z.pow_le_mono_r 2 F_prec (d - 1)). lia. }
  unfold binary_round. fold d. rewrite Z.add_0_r.
  replace (fexp F_prec F_emax d) with (- (F_prec - d)) by (unfold fexp; lia).
  assert (Hsh : ∃ m, shl_align p 0 (- (F_prec - d)) = (m, - (F_prec - d)) ∧ Zpos m = Zpos p * 2 ^ (F_prec - d)).
  { unfold shl_align. destruct (- (F_prec - d) - 0) as [|q|q] eqn:Hq.
    - exists p. replace (F_prec - d) with 0 by lia. simpl. split; [done|lia].
    - lia.
    - exists (Pos.iter xO p q). split; [done|]. replace (F_prec - d) with (Zpos q) by lia.
      rewrite <- Z.shiftl_mul_pow2 by lia. unfold Z.shiftl. by apply (Pos.iter_swap_gen _ _ Zpos). }
  destruct Hsh as (m & -> & Hm). exists m, (F_prec - d).
  assert (Hn : normal m).
  { unfold normal. rewrite Hm. replace (F_prec - 1) with (d - 1 + (F_prec - d)) by lia.
    replace (2 ^ F_prec) with (2 ^ (d + (F_prec - d))) by (f_equal; lia). rewrite !Z.pow_add_r by lia.
    pose proof (Z.pow_pos_nonneg 2 (F_prec - d)). nia. }
  split; [|split_and!; [done|lia|lia|done]].
  rewrite (round_aux_exact s m _ 0) by first [done | unfold mid; lia | simpl; lia]. f_equal. lia.
Qed.

(** The power of two [2 ^ k] as a number. *)
Lemma pow_exact k : 0 ≤ k < F_prec → ∃ c, F_of_Z (2 ^ k) = S754_finite false c (k + 1 - F_prec) ∧ Zpos c = 2 ^ (F_prec - 1).
Proof.
  intros Hk. pose proof (Z.pow_pos_nonneg 2 k ltac:(lia) ltac:(lia)) as Hpos.
  assert (Hlt : 2 ^ k < 2 ^ F_prec) by (apply Z.pow_lt_mono_r; lia).
  unfold F_of_Z, binary_normalize. destruct (2 ^ k) as [|p|p] eqn:Hp; [lia| |lia].
  destruct (round_exact false p Hlt) as (m & j & -> & Hm & Hj & Heq).
  assert (Hkj : k + j = F_prec - 1).
  { rewrite <- Hp, <- Z.pow_add_r in Heq by lia. unfold normal in Hm. rewrite Heq in Hm. destruct Hm as [H1 H2].
    apply Z.pow_le_mono_r_iff in H1; [|lia|lia]. apply Z.pow_lt_mono_r_iff in H2; lia. }
  exists m. split; [f_equal; lia|]. rewrite Heq, <- Hp, <- Z.pow_add_r by lia. f_equal. lia.
Qed.

Lemma mul_pow s m e k :
  normal m → 0 ≤ k < F_prec → mid (e + k) → F_mul (S754_finite s m e) (F_of_Z (2 ^ k)) = S754_finite s m (e + k).
Proof.
  intros Hm Hk Hmid. destruct (pow_exact k Hk) as (c & -> & Hc). unfold F_mul, SFmul. rewrite xorb_false_r.
  rewrite (round_aux_exact s m _ (F_prec - 1)); [f_equal; lia|done|lia|unfold mid in *; lia|].
  by rewrite Pos2Z.inj_mul, Hc.
Qed.

Lemma div_pow s m e k :
  normal m → 0 ≤ k < F_prec → mid e → mid (e - k) → F_div (S754_finite s m e) (F_of_Z (2 ^ k)) = S754_finite s m (e - k).
Proof.
  intros Hm Hk Hmid Hmid'. destruct (pow_exact k Hk) as (c & -> & Hc). pose proof format_facts as (Hp & Hmin & Hmax).
  unfold F_div, SFdiv, SFdiv_core_binary. cbv zeta. rewrite xorb_false_r. unfold mid, normal in *.
  change (Zdigits2 (Zpos ?m)) with (Zpos (digits2_pos m)).
  rewrite (digits2_unique m F_prec) by done. rewrite (digits2_unique c F_prec).
  2: { rewrite Hc. split; [lia|]. apply Z.pow_lt_mono_r; lia. }
  replace (Z.min (fexp F_prec F_emax (F_prec + e - (F_prec + (k + 1 - F_prec)))) (e - (k + 1 - F_prec)))
    with (e - (k + 1)) by (unfold fexp; lia).
  replace (e - (k + 1 - F_prec) - (e - (k + 1))) with F_prec by lia.
  assert (Hsh : match F_prec with Z0 => Zpos m | Zpos _ => Z.shiftl (Zpos m) F_prec | Zneg _ => 0 end = Zpos m * 2 * Zpos c).
  { destruct F_prec as [|q|q] eqn:Hq; [lia| |lia]. rewrite Z.shiftl_mul_pow2, Hc by lia.
    replace (Zpos q) with (1 + (Zpos q - 1)) at 1 by lia. rewrite Z.pow_add_r by lia. lia. }
  rewrite Hsh. pose proof (Z_div_mod (Zpos m * 2 * Zpos c) (Zpos c) ltac:(lia)) as Hdm.
  pose proof (Z.div_mul (Zpos m * 2) (Zpos c) ltac:(lia)) as Hdiv. unfold Z.div in Hdiv.
  destruct (Z.div_eucl _ _) as [q r]. subst q. assert (r = 0) as -> by lia.
  replace (new_location (Zpos c) 0) with loc_Exact by (unfold new_location, new_location_even, new_location_odd; by destruct (Z.even _)).
  rewrite (round_aux_exact s m _ 1); [f_equal; lia|done|lia|unfold mid; lia|lia].
Qed.

(** An integer below [2 ^ F_prec] is represented exactly. *)
Lemma F_of_Z_exact v :
  v ≠ 0 → Z.abs v < 2 ^ F_prec → ∃ m j, F_of_Z v = S754_finite (v <? 0) m (- j) ∧ normal m ∧ 0 ≤ j < F_prec ∧
    Zpos m = Z.abs v * 2 ^ j.
Proof.
  intros Hv0 Hv. destruct v as [|p|p]; [done| |]; unfold F_of_Z, binary_normalize; simpl Z.abs in *;
    [destruct (round_exact false p Hv) as (m & j & Hr & Hm & Hj & Heq)|destruct (round_exact true p Hv) as (m & j & Hr & Hm & Hj & Heq)];
    exists m, j; (split; [exact Hr|done]).
Qed.

Lemma F_trunc_of_Z v : Z.abs v < 2 ^ F_prec → F_trunc (F_of_Z v) = Some v.
Proof.
  intros Hv. destruct (Z.eq_dec v 0) as [-> |H0]; [done|].
  destruct (F_of_Z_exact v H0 Hv) as (m & j & -> & _ & Hj & Hm). unfold F_trunc. rewrite Hm.
  assert (Ha : (if 0 <=? - j then Z.abs v * 2 ^ j * 2 ^ (- j) else Z.abs v * 2 ^ j / 2 ^ (- - j)) = Z.abs v).
  { destruct (Z.leb_spec 0 (- j)).
    - replace j with 0 by lia. simpl. lia.
    - rewrite Z.opp_involutive, Z.div_mul; [done|]. pose proof (Z.pow_pos_nonneg 2 j). lia. }
  rewrite Ha. f_equal. destruct (Z.ltb_spec v 0); lia.
Qed.

(** Numbers below a bound in exponent and significand lie between it and its
    opposite. *)
Lemma finite_unit s m e c e' :
  e < e' ∨ e = e' ∧ (m <= c)%positive →
  F_le (F_neg (S754_finite false c e')) (S754_finite s m e) = true ∧
  F_le (S754_finite s m e) (S754_finite false c e') = true.
Proof.
  intros Hle. unfold F_neg, F_le, SFleb, SFopp, SFcompare. simpl negb.
  rewrite (Z.compare_antisym e e'). change (Pos.compare_cont Eq ?a ?b) with (Pos.compare a b).
  rewrite (Pos.compare_antisym m c).
  destruct Hle as [Hlt|[-> Hle]].
  - rewrite (proj2 (Z.compare_lt_iff _ _)) by done. by destruct s.
  - rewrite Z.compare_refl. simpl. destruct s; (split; [|]); try done; destruct (Pos.compare_spec m c); done || lia.
Qed.

(** Dividing an integer by a power of two that bounds it is exact, and gives a
    number between -1 and 1. *)
Lemma scale_exact v k :
  Z.abs v ≤ 2 ^ k → 0 ≤ k < F_prec →
  F_mul (F_div (F_of_Z v) (F_of_Z (2 ^ k))) (F_of_Z (2 ^ k)) = F_of_Z v ∧ F_unit (F_div (F_of_Z v) (F_of_Z (2 ^ k))).
Proof.
  intros Hv Hk. pose proof format_facts as (Hp & _ & _).
  destruct (pow_exact 0 ltac:(lia)) as (c1 & H1 & Hc1). change (F_of_Z (2 ^ 0)) with F_1 in H1.
  destruct (Z.eq_dec v 0) as [-> |H0].
  { destruct (pow_exact k Hk) as (c & -> & _). unfold F_of_Z, binary_normalize. simpl. split; [done|].
    unfold F_unit. by rewrite H1. }
  assert (2 ^ k < 2 ^ F_prec) by (apply Z.pow_lt_mono_r; lia).
  destruct (F_of_Z_exact v H0 ltac:(lia)) as (m & j & -> & Hm & Hj & Heq).
  rewrite div_pow by (done || unfold mid; lia). rewrite mul_pow by (done || unfold mid; lia).
  split; [f_equal; lia|]. unfold F_unit. rewrite H1. unfold normal in Hm.
  assert (Hle : - j - k < 0 + 1 - F_prec ∨ - j - k = 0 + 1 - F_prec ∧ (m <= c1)%positive).
  { assert (Hmk : Zpos m ≤ 2 ^ (k + j)) by (rewrite Z.pow_add_r by lia; nia).
    assert (F_prec - 1 ≤ k + j).
    { destruct (Z.leb_spec (F_prec - 1) (k + j)); [done|].
      assert (2 ^ (k + j) < 2 ^ (F_prec - 1)) by (apply Z.pow_lt_mono_r; lia). lia. }
    destruct (Z.eq_dec (F_prec - 1) (k + j)) as [He|]; [right|left; lia]. split; [lia|].
    rewrite <- He in Hmk. lia. }
  apply finite_unit, Hle.
Qed.
End exact.

(** * Rounding *)

(** Shifting right records the quotient, and whether bits were lost. *)
Lemma shr_1_value m r s :
  0 ≤ m → ∃ r' s', shr_1 (Build_shr_record m r s) = Build_shr_record (m / 2) r' s' ∧ r' || s' = Z.odd m || (r || s).
Proof.
  intros Hm. destruct m as [|p|p]; [|destruct p as [p|p|]|lia]; unfold shr_1.
  - exists false, (r || s). done.
  - exists true, (r || s). replace (Zpos p~1 / 2) with (Zpos p) by (apply (Z.div_unique_pos _ _ _ 1); lia). done.
  - exists false, (r || s). replace (Zpos p~0 / 2) with (Zpos p) by (apply (Z.div_unique_pos _ _ _ 0); lia). done.
  - exists true, (r || s). done.
Qed.

Lemma shr_value m e k :
  0 ≤ m → 0 ≤ k → ∃ r s, shr (Build_shr_record m false false) e k = (Build_shr_record (m / 2 ^ k) r s, e + k) ∧
    (r || s = false → m mod 2 ^ k = 0).
Proof.
  intros Hm Hk. assert (Hit : ∀ n : nat, ∃ r s, Nat.iter n shr_1 (Build_shr_record m false false) =
    Build_shr_record (m / 2 ^ Z.of_nat n) r s ∧ (r || s = false → m mod 2 ^ Z.of_nat n = 0)).
  { induction n as [|n (r & s & Hn & Hrs)].
    - exists false, false. simpl. by rewrite Z.div_1_r, Z.mod_1_r.
    - change (Nat.iter (S n) shr_1 (Build_shr_record m false false)) with (shr_1 (Nat.iter n shr_1 (Build_shr_record m false false))).
      rewrite Hn. set (g := 2 ^ Z.of_nat n) in *. assert (Hg : 0 < g) by (apply Z.pow_pos_nonneg; lia).
      destruct (shr_1_value (m / g) r s ltac:(by apply Z.div_pos)) as (r' & s' & -> & Hrs').
      exists r', s'. replace (2 ^ Z.of_nat (S n)) with (g * 2) by (rewrite Nat2Z.inj_succ, Z.pow_succ_r by lia; unfold g; lia).
      rewrite Z.div_div by lia. split; [done|]. rewrite Hrs'. intros [Hodd Hrs0]%orb_false_iff.
      rewrite Z.rem_mul_r by lia. rewrite (Hrs Hrs0). rewrite <- Z.negb_even in Hodd. apply negb_false_iff in Hodd.
      apply Z.even_spec in Hodd as [q ->]. rewrite (Z.mul_comm 2 q), Z.mod_mul by lia. lia. }
  destruct k as [|p|p]; [| |lia].
  - exists false, false. simpl. by rewrite Z.div_1_r, Z.add_0_r, Z.mod_1_r.
  - unfold shr. rewrite iter_pos_nat. destruct (Hit (Pos.to_nat p)) as (r & s & -> & Hrs). rewrite positive_nat_Z in *. by exists r, s.
Qed.

Lemma round_even_range q r s :
  0 ≤ q → let q' := round_nearest_even q (loc_of_shr_record (Build_shr_record q r s)) in
  q ≤ q' ≤ q + 1 ∧ (r || s = false → q' = q).
Proof. intros Hq. destruct r, s; simpl; try (destruct (Z.even q)); lia. Qed.

Section rounding.
Context {F : FloatFormat} {Ok : FloatOk F}.

(** Numbers of the format below [2 ^ b] in magnitude. *)
Definition within (b : Z) (x : FLOAT) : Prop :=
  match x with
  | S754_zero _ => True
  | S754_finite _ m e => canonical m e ∧ Zpos (digits2_pos m) + e ≤ b
  | _ => False
  end.

Lemma within_mono b b' x : b ≤ b' → within b x → within b' x.
Proof. intros Hb. destruct x; simpl; try done. intros []. split; [done|lia]. Qed.

Lemma within_digits x e d b :
  0 < x → e ≤ b - F_prec → x ≤ (2 ^ F_prec - 1) * 2 ^ (b - F_prec - e) → 2 ^ (d - 1) ≤ x → 0 < d → d + e ≤ b.
Proof.
  intros Hx He Hxb Hd Hd0. pose proof format_facts as (Hp & _). destruct (Z.leb_spec (d + e) b) as [|Hgt]; [done|]. exfalso.
  assert (H2 : 2 ^ F_prec * 2 ^ (b - F_prec - e) ≤ 2 ^ (d - 1)).
  { rewrite <- Z.pow_add_r by lia. apply Z.pow_le_mono_r; lia. }
  assert (0 < 2 ^ (b - F_prec - e)) by (apply Z.pow_pos_nonneg; lia).
  rewrite Z.mul_sub_distr_r in Hxb. lia.
Qed.

Lemma quotient_bounds x d k w :
  0 ≤ k → 0 < w → w + k = d → 2 ^ (d - 1) ≤ x < 2 ^ d → 2 ^ (w - 1) ≤ x / 2 ^ k < 2 ^ w.
Proof.
  intros Hk Hw Hd Hx. assert (Hg : 0 < 2 ^ k) by (apply Z.pow_pos_nonneg; lia). split.
  - apply Z.div_le_lower_bound; [done|]. rewrite <- Z.pow_add_r by lia. replace (k + (w - 1)) with (d - 1) by lia. lia.
  - apply Z.div_lt_upper_bound; [done|]. rewrite <- Z.pow_add_r by lia. replace (k + w) with d by lia. lia.
Qed.

(** The second half of rounding: normalising the rounded significand. *)
Lemma round_finish s q m e1 j b :
  0 ≤ j → q = Zpos m * 2 ^ j → canonical m (e1 + j) → Zpos (digits2_pos m) + (e1 + j) ≤ b → b ≤ 2 →
  within b (let '(mrs, e) := shr_fexp F_prec F_emax q e1 loc_Exact in
    match shr_m mrs with
    | 0 => S754_zero s
    | Zpos m => if Z.leb e (F_emax - F_prec) then S754_finite s m e else S754_infinity s
    | _ => S754_nan
    end).
Proof.
  intros Hj -> Hc Hle Hb. pose proof format_facts as (Hp & Hmin & Hmax). unfold shr_fexp.
  rewrite digits2_shift by done. unfold canonical in Hc. replace (Zpos (digits2_pos m) + j + e1) with (Zpos (digits2_pos m) + (e1 + j)) by lia.
  rewrite Hc. replace (e1 + j - e1) with j by lia. unfold shr_record_of_loc. rewrite shr_exact by lia.
  cbv beta iota. change (shr_m (Build_shr_record (Zpos m) false false)) with (Zpos m). cbv iota.
  assert (e1 + j ≤ F_emax - F_prec) by (unfold fexp in Hc; lia).
  rewrite (proj2 (Z.leb_le _ _)) by lia. done.
Qed.

(** A significand of [w] bits, or the next power of two, at the exponent of a
    value of [w] bits. *)
Lemma round_significand s q e1 w b :
  0 < w ≤ F_prec → 2 ^ (w - 1) ≤ q ≤ 2 ^ w → w + e1 ≤ b → (q = 2 ^ w → w + e1 < b) → b ≤ 2 →
  e1 = Z.max (w + e1 - F_prec) (emin F_prec F_emax) →
  within b (let '(mrs, e) := shr_fexp F_prec F_emax q e1 loc_Exact in
    match shr_m mrs with
    | 0 => S754_zero s
    | Zpos m => if Z.leb e (F_emax - F_prec) then S754_finite s m e else S754_infinity s
    | _ => S754_nan
    end).
Proof.
  intros Hw Hq Hle Hcarry Hb He1.
  assert (Hpos : ∀ n, 0 ≤ n → ∃ m, 2 ^ n = Zpos m ∧ Zpos (digits2_pos m) = n + 1).
  { intros n Hn. destruct (2 ^ n) as [|m|m] eqn:Hm; [pose proof (Z.pow_pos_nonneg 2 n); lia| |pose proof (Z.pow_pos_nonneg 2 n); lia].
    exists m. split; [done|]. apply digits2_unique. rewrite <- Hm. replace (n + 1 - 1) with n by lia.
    split; [lia|apply Z.pow_lt_mono_r; lia]. }
  destruct (Z.eq_dec q (2 ^ w)) as [Hc|Hno].
  - specialize (Hcarry Hc). destruct (Z.eq_dec w F_prec) as [Hwp|Hwp].
    + destruct (Hpos (w - 1) ltac:(lia)) as (m & Hm & Hdm). apply (round_finish s q m e1 1); [lia| | |lia|done].
      * rewrite Hc, <- Hm. replace w with (w - 1 + 1) at 1 by lia. by rewrite Z.pow_add_r by lia.
      * unfold canonical, fexp. rewrite Hdm. lia.
    + destruct (Hpos w ltac:(lia)) as (m & Hm & Hdm). apply (round_finish s q m e1 0); [lia| | |lia|done].
      * by rewrite Hc, Hm, Z.mul_1_r.
      * unfold canonical, fexp. rewrite Hdm. lia.
  - pose proof (Z.pow_pos_nonneg 2 (w - 1) ltac:(lia) ltac:(lia)). destruct q as [|m|m]; [lia| |lia].
    assert (Hdm : Zpos (digits2_pos m) = w) by (apply digits2_unique; lia).
    apply (round_finish s (Zpos m) m e1 0); [lia|lia| |lia|done].
    unfold canonical, fexp. rewrite Hdm. lia.
Qed.

(** The greatest number below [2 ^ b] is [(2 ^ F_prec - 1) * 2 ^ (b - F_prec)];
    rounding a value up to it stays up to it. *)
Lemma round_within s x e b :
  -2 ≤ b ≤ 2 → 0 < x → e ≤ b - F_prec → x ≤ (2 ^ F_prec - 1) * 2 ^ (b - F_prec - e) →
  e ≤ fexp F_prec F_emax (Zdigits2 x + e) →
  within b (binary_round_aux F_prec F_emax s x e loc_Exact).
Proof.
  intros Hb Hx He Hxb Hk. pose proof format_facts as (Hp & Hmin & Hmax).
  assert (Hd : ∃ d, Zdigits2 x = d ∧ 0 < d ∧ 2 ^ (d - 1) ≤ x < 2 ^ d).
  { destruct x as [|px|px]; [lia| |lia]. eexists. split; [reflexivity|]. split; [simpl; lia|apply digits2_bounds]. }
  destruct Hd as (d & Hd & Hd0 & Hdx). pose proof (within_digits x e d b Hx He Hxb ltac:(lia) Hd0) as Hd1.
  unfold binary_round_aux. unfold shr_fexp at 1. rewrite Hd in *. unfold shr_record_of_loc at 1.
  set (e1 := fexp F_prec F_emax (d + e)) in *.
  assert (He1 : e1 = Z.max (d + e - F_prec) (emin F_prec F_emax)) by done. clearbody e1.
  destruct (shr_value x e (e1 - e) ltac:(lia) ltac:(lia)) as (r & s1 & Hshr & Hrs). rewrite Hshr. cbv beta iota.
  change (shr_m (Build_shr_record (x / 2 ^ (e1 - e)) r s1)) with (x / 2 ^ (e1 - e)).
  replace (e + (e1 - e)) with e1 in * by lia.
  assert (Hg : 0 < 2 ^ (e1 - e)) by (apply Z.pow_pos_nonneg; lia).
  pose proof (round_even_range (x / 2 ^ (e1 - e)) r s1 ltac:(by apply Z.div_pos; lia)) as [Hq' Hexact]. cbv zeta in *.
  set (q' := round_nearest_even _ _) in *. clearbody q'.
  destruct (Z.leb_spec (d + e - e1) 0) as [Hsmall|Hbig].
  - (* below the smallest number: zero, or rounded up to it *)
    assert (Hq0 : x / 2 ^ (e1 - e) = 0).
    { apply Z.div_small. pose proof (Z.pow_le_mono_r 2 d (e1 - e)). lia. }
    rewrite Hq0 in *. assert (q' = 0 ∨ q' = 1) as [-> | ->] by lia.
    + unfold shr_fexp. simpl Zdigits2. rewrite Z.add_0_l.
      replace (fexp F_prec F_emax e1 - e1) with 0 by (unfold fexp; lia). done.
    + apply (round_finish s 1 1%positive e1 0); [lia|done| | |lia]; unfold canonical, fexp; simpl digits2_pos; lia.
  - pose proof (quotient_bounds x d (e1 - e) (d + e - e1) ltac:(lia) Hbig ltac:(lia) Hdx) as Hqb.
    apply (round_significand s q' e1 (d + e - e1)); [lia|lia|lia| |lia|lia]. intros Hcarry.
    destruct (Z.eq_dec (d + e) b) as [Heq|]; [exfalso|lia].
    (* at the top nothing is lost, so nothing is rounded up *)
    assert (Hew : e1 = b - F_prec) by lia. replace (d + e - e1) with F_prec in * by lia.
    replace (b - F_prec - e) with (e1 - e) in Hxb by lia. set (g := 2 ^ (e1 - e)) in *.
    assert (Hqm : x / g = 2 ^ F_prec - 1) by lia. pose proof (Z.div_mod x g ltac:(lia)) as Hdm.
    pose proof (Z.mod_pos_bound x g Hg). rewrite Hqm in Hdm. assert (Hxq : x = (2 ^ F_prec - 1) * g) by lia.
    rewrite Hxq in Hshr. unfold g in Hshr. rewrite shr_exact in Hshr by lia. injection Hshr as _ <- <-.
    specialize (Hexact eq_refl). lia.
Qed.

Lemma within_bounds b s m e :
  -2 ≤ b ≤ 2 → within b (S754_finite s m e) → e ≤ b - F_prec ∧ Zpos m ≤ 2 ^ F_prec - 1 ∧ emin F_prec F_emax ≤ e.
Proof.
  intros Hb [Hc Hd]. pose proof format_facts as (Hp & Hmin & Hmax). unfold canonical, fexp in Hc.
  pose proof (digits2_bounds m). assert (Zpos (digits2_pos m) ≤ F_prec) by lia.
  pose proof (Z.pow_le_mono_r 2 (Zpos (digits2_pos m)) F_prec). lia.
Qed.

Lemma shl_align_value p e e' : ∃ q f, shl_align p e e' = (q, f) ∧ f = Z.min e e' ∧ Zpos q = Zpos p * 2 ^ (e - f).
Proof.
  unfold shl_align. destruct (e' - e) as [|k|k] eqn:Hk.
  - exists p, e. split; [done|]. replace (e - e) with 0 by lia. split; [lia|by rewrite Z.mul_1_r].
  - exists p, e. split; [done|]. replace (e - e) with 0 by lia. split; [lia|by rewrite Z.mul_1_r].
  - exists (Pos.iter xO p k), e'. split; [done|]. split; [lia|]. replace (e - e') with (Zpos k) by lia.
    rewrite <- Z.shiftl_mul_pow2 by lia. unfold Z.shiftl. by apply (Pos.iter_swap_gen _ _ Zpos).
Qed.

Lemma normalize_within z e b :
  -2 ≤ b ≤ 2 → e ≤ b - F_prec → Z.abs z ≤ (2 ^ F_prec - 1) * 2 ^ (b - F_prec - e) →
  within b (binary_normalize F_prec F_emax z e false).
Proof.
  intros Hb He Hz. assert (Hround : ∀ s p, Zpos p ≤ (2 ^ F_prec - 1) * 2 ^ (b - F_prec - e) →
    within b (binary_round F_prec F_emax s p e)).
  { intros s p Hp. unfold binary_round.
    destruct (shl_align_value p e (fexp F_prec F_emax (Zpos (digits2_pos p) + e))) as (q & f & -> & Hf & Hq).
    assert (Hg : 0 < 2 ^ (e - f)) by (apply Z.pow_pos_nonneg; lia).
    apply round_within; [done|lia|lia| |].
    - rewrite Hq. replace (b - F_prec - f) with (b - F_prec - e + (e - f)) by lia. rewrite Z.pow_add_r by lia.
      rewrite Z.mul_assoc. apply Z.mul_le_mono_nonneg_r; lia.
    - pose proof (digits2_bounds p) as Hdp. change (Zdigits2 (Zpos q)) with (Zpos (digits2_pos q)).
      rewrite (digits2_unique q (Zpos (digits2_pos p) + (e - f))); [|rewrite Hq; split].
      + replace (Zpos (digits2_pos p) + (e - f) + f) with (Zpos (digits2_pos p) + e) by lia. lia.
      + replace (Zpos (digits2_pos p) + (e - f) - 1) with (Zpos (digits2_pos p) - 1 + (e - f)) by lia.
        rewrite Z.pow_add_r by lia. apply Z.mul_le_mono_nonneg_r; lia.
      + rewrite Z.pow_add_r by lia. apply Z.mul_lt_mono_pos_r; lia. }
  destruct z as [|p|p]; [done| |]; by apply Hround.
Qed.

(** Sums and differences of numbers below [2 ^ b] are below [2 ^ (b + 1)]. *)
Lemma F_add_within b x y : -2 ≤ b ≤ 1 → within b x → within b y → within (b + 1) (F_add x y).
Proof.
  intros Hb Hx Hy. destruct x as [sx|sx| |sx mx ex], y as [sy|sy| |sy my ey]; try done;
    try (by simpl; destruct sx, sy); try (by apply (within_mono b); [lia|]).
  unfold F_add, SFadd. set (ez := Z.min ex ey).
  pose proof (within_bounds b sx mx ex ltac:(lia) Hx) as (Hex & Hmx & _).
  pose proof (within_bounds b sy my ey ltac:(lia) Hy) as (Hey & Hmy & _).
  destruct (shl_align_value mx ex ez) as (qx & fx & -> & Hfx & Hqx), (shl_align_value my ey ez) as (qy & fy & -> & Hfy & Hqy).
  replace fx with ez in * by lia. replace fy with ez in * by lia. simpl fst.
  apply normalize_within; [lia|lia|].
  assert (Hq : ∀ m e, Zpos m ≤ 2 ^ F_prec - 1 → ez ≤ e ≤ b - F_prec → Zpos m * 2 ^ (e - ez) ≤ (2 ^ F_prec - 1) * 2 ^ (b - F_prec - ez)).
  { intros m e Hm He. apply Z.mul_le_mono_nonneg; [lia|done|apply Z.pow_nonneg; lia|apply Z.pow_le_mono_r; lia]. }
  specialize (Hq mx ex Hmx ltac:(lia)) as Hqx'. specialize (Hq my ey Hmy ltac:(lia)) as Hqy'.
  replace (b + 1 - F_prec - ez) with (1 + (b - F_prec - ez)) by lia. rewrite Z.pow_add_r by lia.
  unfold cond_Zopp. destruct sx, sy; lia.
Qed.

Lemma F_sub_add x y : F_sub x y = F_add x (F_neg y).
Proof.
  destruct x as [sx|sx| |sx mx ex], y as [sy|sy| |sy my ey]; try (by destruct sx, sy); done.
Qed.

Lemma F_neg_within b x : within b x → within b (F_neg x).
Proof. by destruct x. Qed.

Lemma F_sub_within b x y : -2 ≤ b ≤ 1 → within b x → within b y → within (b + 1) (F_sub x y).
Proof. intros Hb Hx Hy. rewrite F_sub_add. apply F_add_within; [done|done|by apply F_neg_within]. Qed.

(** Halving. *)
Lemma F_half_within b x : -1 ≤ b ≤ 2 → within b x → within (b - 1) (F_mul x (F_dec 1 2)).
Proof.
  intros Hb Hx. pose proof format_facts as (Hp & Hmin & Hmax).
  assert (Hhalf : ∃ c, F_dec 1 2 = S754_finite false c (- F_prec) ∧ Zpos c = 2 ^ (F_prec - 1))
    by (destruct Ok as [-> | ->]; by eexists).
  destruct Hhalf as (c & -> & Hc). destruct x as [sx|sx| |sx mx ex]; try done.
  pose proof (within_bounds b sx mx ex ltac:(lia) Hx) as (Hex & Hmx & Hemin). destruct Hx as [Hcan Hd].
  unfold F_mul, SFmul. apply round_within; [lia|lia|lia| |].
  - rewrite Pos2Z.inj_mul, Hc. replace (b - 1 - F_prec - (ex + - F_prec)) with (F_prec - 1 + (b - F_prec - ex)) by lia.
    rewrite Z.pow_add_r, Z.mul_assoc by lia. assert (0 < 2 ^ (F_prec - 1)) by (apply Z.pow_pos_nonneg; lia).
    assert (1 ≤ 2 ^ (b - F_prec - ex)) by (assert (0 < 2 ^ (b - F_prec - ex)); [apply Z.pow_pos_nonneg|]; lia).
    rewrite <- (Z.mul_1_r (Zpos mx * _)). apply Z.mul_le_mono_nonneg; [lia| |lia|lia]. apply Z.mul_le_mono_nonneg_r; lia.
  - change (Zdigits2 (Zpos (mx * c))) with (Zpos (digits2_pos (mx * c))). pose proof (digits2_bounds mx) as Hdm.
    rewrite (digits2_unique (mx * c) (Zpos (digits2_pos mx) + (F_prec - 1))).
    2: { rewrite Pos2Z.inj_mul, Hc. replace (Zpos (digits2_pos mx) + (F_prec - 1) - 1) with (Zpos (digits2_pos mx) - 1 + (F_prec - 1)) by lia.
         rewrite !Z.pow_add_r by lia. assert (0 < 2 ^ (F_prec - 1)) by (apply Z.pow_pos_nonneg; lia).
         split; [apply Z.mul_le_mono_nonneg_r; lia|apply Z.mul_lt_mono_pos_r; lia]. }
    unfold canonical, fexp in *. lia.
Qed.

(** Scaling a number below 1 to 24 bits is exact up to the format's least
    exponent; its integer part is below [2 ^ 24]. *)
Lemma F_scale24_within x :
  within 0 x → ∃ z, F_trunc (F_mul x (F_of_Z (2 ^ 24))) = Some z ∧ Z.abs z < 2 ^ 24.
Proof.
  intros Hx. destruct x as [sx|sx| |sx mx ex]; try done.
  - exists 0. split; [|done]. by destruct Ok as [-> | ->].
  - assert (Hc : ∃ c, F_of_Z (2 ^ 24) = S754_finite false c (25 - F_prec) ∧ Zpos c = 2 ^ (F_prec - 1))
      by (destruct Ok as [-> | ->]; by eexists).
    destruct Hc as (c & -> & Hc). pose proof format_facts as (Hp & Hmin & Hmax).
    destruct (within_bounds 0 sx mx ex ltac:(lia) Hx) as (Hex & Hmx & Hemin). destruct Hx as [Hcan Hd].
    set (d := Zpos (digits2_pos mx)) in *. set (e' := fexp F_prec F_emax (d + ex + 24)).
    assert (He' : ex ≤ e' ≤ ex + 24) by (unfold e', canonical, fexp in *; lia).
    assert (Hdm : 2 ^ (d - 1) ≤ Zpos mx < 2 ^ d) by apply digits2_bounds.
    assert (Hd0 : 0 < d) by (unfold d; lia).
    destruct (shl_align_value mx (ex + 24) e') as (q & f & _ & Hf & Hq). replace f with e' in * by lia.
    assert (Hdq : Zpos (digits2_pos q) = d + (ex + 24 - e')).
    { apply digits2_unique. rewrite Hq. replace (d + (ex + 24 - e') - 1) with (d - 1 + (ex + 24 - e')) by lia.
      rewrite !Z.pow_add_r by lia. assert (0 < 2 ^ (ex + 24 - e')) by (apply Z.pow_pos_nonneg; lia).
      split; [apply Z.mul_le_mono_nonneg_r; lia|apply Z.mul_lt_mono_pos_r; lia]. }
    assert (Hmul : F_mul (S754_finite sx mx ex) (S754_finite false c (25 - F_prec)) = S754_finite sx q e').
    { unfold F_mul, SFmul. rewrite xorb_false_r.
      assert (Hj : 0 ≤ e' - (ex + (25 - F_prec))) by (unfold e', canonical, fexp in *; lia).
      assert (Hxq : Zpos (mx * c) = Zpos q * 2 ^ (e' - (ex + (25 - F_prec)))).
      { rewrite Pos2Z.inj_mul, Hc, Hq, <- Z.mul_assoc, <- Z.pow_add_r by lia. do 2 f_equal. lia. }
      rewrite Hxq. replace (ex + (25 - F_prec)) with (e' - (e' - (ex + (25 - F_prec)))) at 2 by lia.
      apply round_aux_canonical; [lia| |lia]. unfold canonical. rewrite Hdq. unfold e' at 2. f_equal. lia. }
    rewrite Hmul. unfold F_trunc. eexists. split; [reflexivity|].
    assert (Hde : d + ex + 24 ≤ 24) by lia. pose proof (digits2_bounds q) as Hbq. rewrite Hdq in Hbq.
    assert (Hab : (if 0 <=? e' then Zpos q * 2 ^ e' else Zpos q / 2 ^ (- e')) < 2 ^ 24 ∧
                  0 ≤ (if 0 <=? e' then Zpos q * 2 ^ e' else Zpos q / 2 ^ (- e'))).
    { destruct (Z.leb_spec 0 e').
      - assert (0 < 2 ^ e') by (apply Z.pow_pos_nonneg; lia). split; [|lia].
        apply (Z.lt_le_trans _ (2 ^ (d + (ex + 24 - e')) * 2 ^ e')); [apply Z.mul_lt_mono_pos_r; lia|].
        rewrite <- Z.pow_add_r by lia. apply Z.pow_le_mono_r; lia.
      - assert (0 < 2 ^ (- e')) by (apply Z.pow_pos_nonneg; lia). split; [|apply Z.div_pos; lia].
        apply Z.div_lt_upper_bound; [done|]. rewrite <- Z.pow_add_r by lia.
        apply (Z.lt_le_trans _ (2 ^ (d + (ex + 24 - e')))); [lia|]. apply Z.pow_le_mono_r; lia. }
    destruct sx; lia.
Qed.
End rounding.
