(* ===== verification/Bits.v ===== *)
(** Bit strings, most significant bit first: the abstract view of what the bit
    writer puts out and of what a decoder reads back. *)
From Stdlib Require Import ZArith Lia ZifyBool Bool.
From stdpp Require Import base option list numbers.
From coqutil Require Import Z.bitblast.
From S2P Require Import Prelude CMachine.
Local Open Scope Z_scope.

(** The low [n] bits of [v], most significant first. *)
Fixpoint bits_of (n : nat) (v : Z) : list bool :=
  match n with
  | O => []
  | S n' => Z.testbit v (Z.of_nat n') :: bits_of n' v
  end.

(** The number a bit string denotes. *)
Fixpoint bits_acc (a : Z) (bs : list bool) : Z :=
  match bs with
  | [] => a
  | b :: bs' => bits_acc (2 * a + Z.b2z b) bs'
  end.
Definition bits_val (bs : list bool) : Z := bits_acc 0 bs.

Definition bits_of_bytes (l : list Z) : list bool := flat_map (bits_of 8) l.

Lemma length_bits_of n v : length (bits_of n v) = n.
Proof. induction n; simpl; congruence. Qed.

Lemma zlen_bits_of n v : zlen (bits_of n v) = Z.of_nat n.
Proof. unfold zlen. by rewrite length_bits_of. Qed.

Lemma bits_of_ext n u v :
  (∀ i, 0 ≤ i < Z.of_nat n → Z.testbit u i = Z.testbit v i) → bits_of n u = bits_of n v.
Proof.
  induction n as [|n IH]; intros Huv; simpl; [done|].
  f_equal; [apply Huv; lia | apply IH; intros; apply Huv; lia].
Qed.

Lemma bits_of_mod n m v : Z.of_nat n ≤ m → bits_of n (v mod 2 ^ m) = bits_of n v.
Proof.
  intros. apply bits_of_ext. intros i Hi.
  rewrite Z.testbit_mod_pow2 by lia. by rewrite (proj2 (Z.ltb_lt i m)) by lia.
Qed.

Lemma bits_of_app a b v :
  bits_of (a + b) v = bits_of a (Z.shiftr v (Z.of_nat b)) ++ bits_of b v.
Proof.
  induction a as [|a IH]; simpl; [done|]. f_equal; [|done].
  rewrite Z.shiftr_spec by lia. f_equal. lia.
Qed.

(** A value shifted past [n] bits with [n] bits or-ed in. *)
Lemma bits_of_shift_or a n u v :
  0 ≤ v < 2 ^ Z.of_nat n →
  bits_of (a + n) (Z.lor (Z.shiftl u (Z.of_nat n)) v) = bits_of a u ++ bits_of n v.
Proof.
  intros Hv. rewrite bits_of_app.
  assert (Hm : v = v mod 2 ^ Z.of_nat n) by (rewrite Z.mod_small; lia).
  f_equal; apply bits_of_ext; intros i Hi; rewrite Hm; bits_simp.
Qed.

Lemma bits_of_bytes_app l k : bits_of_bytes (l ++ k) = bits_of_bytes l ++ bits_of_bytes k.
Proof. apply flat_map_app. Qed.

Lemma zlen_bits_of_bytes l : zlen (bits_of_bytes l) = 8 * zlen l.
Proof.
  unfold zlen, bits_of_bytes. induction l as [|x l IH]; [done|].
  cbn [flat_map length]. rewrite length_app, length_bits_of. lia.
Qed.

Lemma bits_of_8_u8 x : bits_of 8 (u8 x) = bits_of 8 x.
Proof. apply bits_of_mod. lia. Qed.

Lemma bits_of_be_bytes32 x : bits_of_bytes (be_bytes32 x) = bits_of 32 x.
Proof.
  unfold bits_of_bytes, be_bytes32. cbn [flat_map]. rewrite !bits_of_8_u8, app_nil_r.
  change 32%nat with (8 + (8 + (8 + 8)))%nat. by rewrite !bits_of_app.
Qed.

Lemma bits_of_0 n : bits_of n 0 = replicate n false.
Proof. induction n as [|n IH]; simpl; [done|]. by rewrite Z.testbit_0_l, IH. Qed.

Lemma bits_acc_app a bs cs : bits_acc a (bs ++ cs) = bits_acc (bits_acc a bs) cs.
Proof. revert a. induction bs; simpl; auto. Qed.

Lemma bits_acc_bits_of n a v :
  bits_acc a (bits_of n v) = a * 2 ^ Z.of_nat n + v mod 2 ^ Z.of_nat n.
Proof.
  revert a. induction n as [|n IH]; intros a; simpl bits_of; simpl bits_acc.
  - rewrite Z.mod_1_r. simpl. lia.
  - rewrite IH, Nat2Z.inj_succ, Z.pow_succ_r by lia.
    replace (2 * 2 ^ Z.of_nat n) with (2 ^ Z.of_nat n * 2) by lia.
    rewrite Z.rem_mul_r by lia.
    rewrite Z.testbit_spec' by lia. lia.
Qed.

(** Reading back [n] written bits gives the value modulo [2^n]. *)
Lemma bits_val_bits_of n v : bits_val (bits_of n v) = v mod 2 ^ Z.of_nat n.
Proof. unfold bits_val. rewrite bits_acc_bits_of. lia. Qed.

(** The padding that completes a byte. *)
Definition pad8 (n : Z) : Z := (- n) mod 8.

#[global] Arguments bits_of : simpl never.
#[global] Arguments bits_of_bytes : simpl never.
