(* ===== verification/BitIO.v ===== *)
(** [libaften/bitio.c]: the bit writer.  The writer's state is the C struct;
    [buffer] is the memory object it writes to ([None] for NULL) and
    [buf_ptr], [buf_end] are offsets from its start.  The theorems show that a
    sequence of writes appends the fields' bits, that nothing outside the
    buffer is written whatever is written, and that a writer without a buffer
    counts the same bits. *)
From Stdlib Require Import ZArith Lia ZifyBool Bool.
From stdpp Require Import base option list numbers.
From coqutil Require Import Datatypes.RecordSettersUsingExistingGetters.
From S2P Require Import Prelude CMachine Bits.
Local Open Scope Z_scope.
Local Open Scope carray_scope.

(** * The writer *)

Record BitWriter := mkBitWriter {
  bit_buf : Z;
  bit_left : Z;
  buffer : option (list Z);
  buf_ptr : Z;
  buf_end : Z;
  eof : Z
}.

Section writer.
Context `{Target}.

Definition bitwriter_init (buf : option (list Z)) (len : Z) : BitWriter :=
  let '(len, buf) := if len <? 0 then (0, None) else (len, buf) in
  {| bit_buf := 0; bit_left := 32; buffer := buf; buf_ptr := 0; buf_end := len; eof := 0 |}.

(** [*bw->buf_ptr++ = v] *)
Definition put_byte (bw : BitWriter) (v : Z) : option BitWriter :=
  m ← buffer bw;
  m' ← aset m (buf_ptr bw) (u8 v);
  Some (bw <| buffer := Some m' |> <| buf_ptr := buf_ptr bw + 1 |>).

Definition bitwriter_flushbits (bw : BitWriter) : option BitWriter :=
  b ← shl32 (bit_buf bw) (bit_left bw);
  bw ← while_loop (Z.to_nat (32 - bit_left bw)) (λ bw, bit_left bw <? 32)
         (λ bw, bw ← put_byte bw (Z.shiftr (bit_buf bw) 24);
                Some (bw <| bit_buf := u32 (Z.shiftl (bit_buf bw) 8) |> <| bit_left := bit_left bw + 8 |>))
         (bw <| bit_buf := b |>);
  Some (bw <| bit_left := 32 |> <| bit_buf := 0 |>).

(** [*(uint32_t * )bw->buf_ptr = be2me_32(w)], guarded as both writers guard
    it: [inl] is an early return. *)
Definition put_word (bw : BitWriter) (w : Z) : option (BitWriter + BitWriter) :=
  match buffer bw with
  | None => Some (inr bw)
  | Some m =>
      if negb (eof bw =? 0) then Some (inl bw)
      else if buf_end bw <=? buf_ptr bw + 3 then Some (inl (bw <| eof := 1 |>))
      else m' ← memcpy m (buf_ptr bw) (host_bytes32 (be2me_32 w)) 0 4;
           Some (inr (bw <| buffer := Some m' |>))
  end.

Definition bitwriter_writebits (bw : BitWriter) (bits val : Z) : option BitWriter :=
  if (bits =? 0) || (32 <? bits) then Some bw else
  one ← shl32 1 bits;
  let val := Z.land (u32 val) (u32 (one - 1)) in
  if bits <=? bit_left bw then
    b ← shl32 (bit_buf bw) bits;
    Some (bw <| bit_buf := Z.lor b val |> <| bit_left := bit_left bw - bits |>)
  else
    b ← shl32 (bit_buf bw) (bit_left bw);
    v ← shr32 val (bits - bit_left bw);
    let bb := Z.lor b v in
    r ← put_word bw bb;
    match r with
    | inl bw => Some bw
    | inr bw =>
        Some (bw <| bit_left := bit_left bw + (32 - bits) |> <| buf_ptr := buf_ptr bw + 4 |> <| bit_buf := val |>)
    end.

Definition bitwriter_writebit (bw : BitWriter) (val : Z) : option BitWriter :=
  if negb (bit_left bw =? 0) then
    b ← shl32 (bit_buf bw) 1;
    Some (bw <| bit_buf := Z.lor b (Z.land val 1) |> <| bit_left := bit_left bw - 1 |>)
  else
    r ← put_word bw (bit_buf bw);
    match r with
    | inl bw => Some bw
    | inr bw =>
        Some (bw <| bit_left := 31 |> <| buf_ptr := buf_ptr bw + 4 |> <| bit_buf := Z.land val 1 |>)
    end.

Definition bitwriter_bitcount (bw : BitWriter) : Z :=
  u32 (Z.shiftl (buf_ptr bw) 3 + 32 - bit_left bw).

(** A sequence of [bitwriter_writebits] calls. *)
Fixpoint write_fields (bw : BitWriter) (fs : list (Z * Z)) : option BitWriter :=
  match fs with
  | [] => Some bw
  | (bits, val) :: fs' => bw' ← bitwriter_writebits bw bits val; write_fields bw' fs'
  end.

(** * Representation

    [bw_repr m0 bw bs]: the writer [bw], started on a buffer with contents
    [m0], has put out the bits [bs]: those before [buf_ptr] are in the buffer
    and the last [32 - bit_left] are the low bits of [bit_buf]; the rest of the
    buffer is untouched. *)

Record bw_state (m0 m : list Z) (bw : BitWriter) (bs : list bool) : Prop := {
  rep_buffer : buffer bw = Some m;
  rep_len : zlen m = zlen m0;
  rep_rest : drop (Z.to_nat (buf_ptr bw)) m = drop (Z.to_nat (buf_ptr bw)) m0;
  rep_ptr : 0 ≤ buf_ptr bw ≤ buf_end bw;
  rep_end : buf_end bw ≤ zlen m0;
  rep_left : 0 ≤ bit_left bw ≤ 32;
  rep_buf : 0 ≤ bit_buf bw < 2 ^ 32;
  rep_eof : eof bw = 0;
  rep_fresh : bit_left bw = 32 → bs = [];
  rep_bits : bs = bits_of_bytes (take (Z.to_nat (buf_ptr bw)) m)
                  ++ bits_of (Z.to_nat (32 - bit_left bw)) (bit_buf bw)
}.

Definition bw_repr (m0 : list Z) (bw : BitWriter) (bs : list bool) : Prop :=
  ∃ m, bw_state m0 m bw bs.

Definition field_bits (f : Z * Z) : list bool := bits_of (Z.to_nat (fst f)) (snd f).
Definition fields_bits (fs : list (Z * Z)) : list bool := flat_map field_bits fs.

(** The widths the encoder writes. *)
Definition field_ok (f : Z * Z) : Prop := 0 ≤ fst f ≤ 31.

Lemma zlen_take_at {A} (m : list A) p : 0 ≤ p ≤ zlen m → zlen (take (Z.to_nat p) m) = p.
Proof. unfold zlen. intros. rewrite length_take. lia. Qed.

Lemma bw_state_len m0 m bw bs :
  bw_state m0 m bw bs → zlen bs = 8 * buf_ptr bw + 32 - bit_left bw.
Proof.
  intros []. subst bs. rewrite zlen_app, zlen_bits_of_bytes, zlen_bits_of, zlen_take_at; lia.
Qed.

Lemma bitwriter_init_repr m0 len :
  0 ≤ len ≤ zlen m0 → bw_repr m0 (bitwriter_init (Some m0) len) [].
Proof.
  intros Hlen. exists m0. unfold bitwriter_init.
  rewrite (proj2 (Z.ltb_ge len 0)) by lia. by split; simpl; try lia.
Qed.

(** The masked operand of a write. *)
Lemma mask_val n v : 0 ≤ n ≤ 31 → Z.land (u32 v) (u32 (u32 (Z.shiftl 1 n) - 1)) = v mod 2 ^ n.
Proof.
  intros Hn. rewrite Z.shiftl_mul_pow2, Z.mul_1_l by lia.
  assert (2 ^ n ≤ 2 ^ 31) by (apply Z.pow_le_mono_r; lia).
  assert (0 < 2 ^ n) by (apply Z.pow_pos_nonneg; lia).
  rewrite (u32_id (2 ^ n)), (u32_id (2 ^ n - 1)) by lia.
  replace (2 ^ n - 1) with (Z.ones n) by (rewrite Z.ones_equiv; lia).
  rewrite Z.land_ones by lia. unfold u32.
  replace (2 ^ 32) with (2 ^ n * 2 ^ (32 - n)) by (rewrite <- Z.pow_add_r by lia; f_equal; lia).
  rewrite Z.rem_mul_r by lia.
  rewrite (Z.mul_comm (2 ^ n)), Z.mod_add by lia. apply Z.mod_mod. lia.
Qed.

(** Storing a full word appends its 32 bits to the buffer. *)
Lemma put_word_state m0 m bw bs w :
  bw_state m0 m bw bs → buf_ptr bw + 4 ≤ buf_end bw →
  ∃ m', put_word bw w = Some (inr (bw <| buffer := Some m' |>)) ∧ zlen m' = zlen m0 ∧
        drop (Z.to_nat (buf_ptr bw + 4)) m' = drop (Z.to_nat (buf_ptr bw + 4)) m0 ∧
        bits_of_bytes (take (Z.to_nat (buf_ptr bw + 4)) m') =
          bits_of_bytes (take (Z.to_nat (buf_ptr bw)) m) ++ bits_of 32 w.
Proof.
  intros [] Hroom. unfold put_word. rewrite rep_buffer0, rep_eof0. simpl negb. cbv iota.
  rewrite (proj2 (Z.leb_gt _ _)) by lia.
  assert (HL : zlen (be_bytes32 w) = 4) by done.
  rewrite host_bytes32_be, memcpy_in by lia.
  change (slice (be_bytes32 w) 0 4) with (be_bytes32 w).
  eexists. split; [reflexivity|].
  replace (buf_ptr bw + 4) with (buf_ptr bw + zlen (be_bytes32 w)) by lia.
  rewrite zlen_splice, take_splice, drop_splice by lia.
  split_and!; [done| |].
  - rewrite !Z2Nat.inj_add by (apply zlen_nonneg || lia).
    rewrite <- !drop_drop. by f_equal.
  - by rewrite bits_of_bytes_app, bits_of_be_bytes32.
Qed.

(** Or-ing [n] bits into a word keeps it a word. *)
Lemma lor_range a b n : 0 ≤ a < 2 ^ n → 0 ≤ b < 2 ^ n → 0 ≤ n → 0 ≤ Z.lor a b < 2 ^ n.
Proof.
  intros Ha Hb Hn. split; [apply Z.lor_nonneg; lia|].
  destruct (Z.eq_dec (Z.lor a b) 0) as [->|Hne]; [lia|].
  apply Z.log2_lt_pow2; [pose proof (Z.lor_nonneg a b); lia|].
  rewrite Z.log2_lor by lia.
  assert (n ≠ 0) by (intros ->; simpl in *; replace a with 0 in Hne by lia; replace b with 0 in Hne by lia; done).
  assert (∀ c, 0 ≤ c < 2 ^ n → Z.log2 c < n).
  { intros c Hc. destruct (Z.eq_dec c 0) as [->|]; [simpl; lia|]. apply Z.log2_lt_pow2; lia. }
  apply Z.max_lub_lt; auto.
Qed.

(** The bits of a word shifted left by [n] with [n] bits or-ed in. *)
Lemma bits_of_word_shift p n u x :
  0 ≤ p → 0 ≤ n → p + n ≤ 32 → 0 ≤ x < 2 ^ n →
  bits_of (Z.to_nat (p + n)) (Z.lor (u32 (Z.shiftl u n)) x) =
  bits_of (Z.to_nat p) u ++ bits_of (Z.to_nat n) x.
Proof.
  intros Hp Hn Hpn Hx.
  rewrite <- (bits_of_shift_or _ _ u x) by (rewrite Z2Nat.id by lia; lia).
  rewrite Z2Nat.id, Z2Nat.inj_add by lia.
  apply bits_of_ext. intros i Hi. unfold u32. bits_simp.
Qed.

(** A write of [n] bits appends them. *)
Lemma bitwriter_writebits_repr m0 bw bs n v :
  bw_repr m0 bw bs → 0 ≤ n ≤ 31 → zlen bs + n ≤ 8 * buf_end bw →
  wp (bitwriter_writebits bw n v)
     (λ bw', bw_repr m0 bw' (bs ++ field_bits (n, v)) ∧ buf_end bw' = buf_end bw).
Proof.
  intros [m Hst] Hn Hroom. pose proof (bw_state_len _ _ _ _ Hst) as Hlen.
  pose proof Hst as []. unfold bitwriter_writebits, field_bits. simpl fst. simpl snd.
  destruct (Z.eqb_spec n 0) as [->|Hn0]; simpl orb.
  { apply wp_ret. change (bits_of (Z.to_nat 0) v) with (@nil bool). rewrite app_nil_r.
    split; [by exists m | done]. }
  rewrite (proj2 (Z.ltb_ge 32 n)) by lia. cbv iota.
  do 2 wp_step. cbv zeta. rewrite mask_val by lia. set (x := v mod 2 ^ n).
  assert (Hx : 0 ≤ x < 2 ^ n) by (apply Z.mod_pos_bound; lia).
  assert (2 ^ n ≤ 2 ^ 31) by (apply Z.pow_le_mono_r; lia).
  assert (Hbv : bits_of (Z.to_nat n) v = bits_of (Z.to_nat n) x) by (symmetry; apply bits_of_mod; lia).
  rewrite Hbv. destruct (Z.leb_spec n (bit_left bw)).
  - (* the bits fit in the word *)
    wp_steps. split; [|done]. exists m. split; simpl; try done; try lia.
    + apply lor_range; [apply u32_range | lia | lia].
    + rewrite rep_bits0, <- app_assoc. f_equal.
      replace (32 - (bit_left bw - n)) with (32 - bit_left bw + n) by lia.
      by rewrite bits_of_word_shift by lia.
  - (* a full word is stored *)
    do 4 wp_step. cbv zeta. set (w := Z.lor _ _).
    destruct (put_word_state m0 m bw bs w Hst) as (m' & -> & Hlen' & Hrest & Hbits); [lia|].
    wp_steps. split; [|done]. exists m'. split; simpl; try done; try lia.
    rewrite Hbits, rep_bits0, <- !app_assoc. f_equal.
    replace (bits_of 32 w) with
      (bits_of (Z.to_nat (32 - bit_left bw)) (bit_buf bw) ++ bits_of (Z.to_nat (bit_left bw)) (Z.shiftr x (n - bit_left bw))).
    + rewrite <- app_assoc. f_equal.
      replace (Z.to_nat n) with (Z.to_nat (bit_left bw) + Z.to_nat (n - bit_left bw))%nat by lia.
      rewrite bits_of_app, Z2Nat.id by lia. f_equal. f_equal. lia.
    + unfold w. rewrite <- bits_of_word_shift; [f_equal; lia | lia.. |].
      rewrite Z.shiftr_div_pow2 by lia. split; [apply Z.div_pos; lia|].
      apply Z.div_lt_upper_bound; [lia|]. rewrite <- Z.pow_add_r by lia.
      replace (n - bit_left bw + bit_left bw) with n by lia. lia.
Qed.

(** A sequence of writes appends the bits of its fields. *)
Lemma write_fields_repr m0 fs : ∀ bw bs,
  bw_repr m0 bw bs → Forall field_ok fs →
  zlen bs + zlen (fields_bits fs) ≤ 8 * buf_end bw →
  wp (write_fields bw fs)
     (λ bw', bw_repr m0 bw' (bs ++ fields_bits fs) ∧ buf_end bw' = buf_end bw).
Proof.
  induction fs as [|[n v] fs IH]; intros bw bs Hr Hok Hroom; simpl.
  { rewrite app_nil_r. done. }
  apply Forall_cons_1 in Hok as [Hn Hok]. unfold field_ok in Hn. simpl in Hn.
  unfold fields_bits in Hroom. cbn [flat_map] in Hroom. rewrite zlen_app in Hroom.
  pose proof (zlen_nonneg (flat_map field_bits fs)).
  assert (zlen (field_bits (n, v)) = n) as Hlen by (unfold field_bits; rewrite zlen_bits_of; simpl; lia).
  apply wp_bind. eapply wp_mono; [apply (bitwriter_writebits_repr m0 bw bs); [done|lia|lia]|].
  intros bw' [Hr' Hend]. eapply wp_mono; [apply (IH _ _ Hr' Hok)|].
  - rewrite zlen_app, Hend. unfold fields_bits. lia.
  - intros bw'' [Hr'' ->]. split; [|done].
    unfold fields_bits in *. cbn [flat_map]. by rewrite app_assoc.
Qed.

Lemma write_fields_app bw fs gs :
  write_fields bw (fs ++ gs) = (bw' ← write_fields bw fs; write_fields bw' gs).
Proof.
  revert bw. induction fs as [|[n v] fs IH]; intros bw; simpl; [done|].
  destruct (bitwriter_writebits bw n v); simpl; auto.
Qed.

Lemma fields_bits_app fs gs : fields_bits (fs ++ gs) = fields_bits fs ++ fields_bits gs.
Proof. apply flat_map_app. Qed.

(** ** Flushing

    The loop keeps the word left-aligned, so that each step moves the top byte
    of [bit_buf] to the buffer and shifts zeros in: the bytes written followed
    by the word are the pending bits followed by [bit_left] zeros. *)
Record flush_state (m0 : list Z) (bs : list bool) (p0 l0 : Z) (m : list Z) (bw : BitWriter) : Prop := {
  fl_buffer : buffer bw = Some m;
  fl_len : zlen m = zlen m0;
  fl_rest : drop (Z.to_nat (buf_ptr bw)) m = drop (Z.to_nat (buf_ptr bw)) m0;
  fl_left : l0 ≤ bit_left bw < 40;
  fl_ptr : 8 * (buf_ptr bw - p0) = bit_left bw - l0;
  fl_bits : bits_of_bytes (take (Z.to_nat (buf_ptr bw)) m) ++ bits_of 32 (bit_buf bw)
            = bs ++ replicate (Z.to_nat (bit_left bw)) false
}.

Lemma bits_of_32_shl b l :
  0 ≤ l ≤ 32 →
  bits_of 32 (u32 (Z.shiftl b l)) = bits_of (Z.to_nat (32 - l)) b ++ replicate (Z.to_nat l) false.
Proof.
  intros Hl. rewrite <- bits_of_0. unfold u32. rewrite bits_of_mod by lia.
  rewrite <- bits_of_shift_or by (split; [lia | apply Z.pow_pos_nonneg; lia]).
  rewrite Z.lor_0_r, Z2Nat.id by lia.
  by replace (Z.to_nat (32 - l) + Z.to_nat l)%nat with 32%nat by lia.
Qed.

Lemma flush_step m0 bs p0 l0 m bw :
  0 ≤ p0 → 0 ≤ l0 → flush_state m0 bs p0 l0 m bw → bit_left bw < 32 →
  buf_ptr bw < zlen m0 →
  wp (put_byte bw (Z.shiftr (bit_buf bw) 24))
     (λ bw1, ∃ m', flush_state m0 bs p0 l0 m'
        (bw1 <| bit_buf := u32 (Z.shiftl (bit_buf bw1) 8) |> <| bit_left := bit_left bw1 + 8 |>) ∧
        bit_left bw1 = bit_left bw ∧ buf_end bw1 = buf_end bw ∧ eof bw1 = eof bw).
Proof.
  intros Hp Hl0 [] Hleft Hroom. unfold put_byte. rewrite fl_buffer0. simpl.
  wp_step. rewrite aset_upd by lia. simpl.
  set (m' := upd m (buf_ptr bw) (u8 (Z.shiftr (bit_buf bw) 24))).
  exists m'. split; [|done].
  assert (Hm' : m' = splice m (buf_ptr bw) [u8 (Z.shiftr (bit_buf bw) 24)]).
  { apply array_ext.
    - unfold m'. rewrite zlen_upd, zlen_splice; autorewrite with carray; lia.
    - unfold m'. rewrite zlen_upd. intros i Hi.
      rewrite at_upd, at_splice by (autorewrite with carray; lia). change (zlen [_]) with 1.
      destruct (Z.eqb_spec i (buf_ptr bw)) as [->|]; bits_cases; try done.
      by rewrite Z.sub_diag. }
  change 1 with (zlen [u8 (Z.shiftr (bit_buf bw) 24)]) in *.
  split; simpl; [done|rewrite Hm', zlen_splice; autorewrite with carray; lia| |lia|autorewrite with carray; lia|].
  - rewrite Hm', drop_splice by lia.
    rewrite !Z2Nat.inj_add by (apply zlen_nonneg || lia). rewrite <- !drop_drop. by f_equal.
  - rewrite Hm', take_splice, bits_of_bytes_app by lia.
    rewrite Z2Nat.inj_add, replicate_add, app_assoc by lia.
    rewrite <- fl_bits0, <- !app_assoc. f_equal.
    rewrite bits_of_32_shl by lia. unfold bits_of_bytes. cbn [flat_map].
    rewrite app_nil_r, bits_of_8_u8, app_assoc. f_equal.
    change 32%nat with (8 + 24)%nat. by rewrite bits_of_app.
Qed.

(** Flushing completes the last byte with zeros; everything is in the buffer. *)
Lemma bitwriter_flushbits_repr m0 bw bs :
  bw_repr m0 bw bs → bs ≠ [] → zlen bs ≤ 8 * buf_end bw →
  wp (bitwriter_flushbits bw) (λ bw', ∃ m,
     buffer bw' = Some m ∧ zlen m = zlen m0 ∧ bit_left bw' = 32 ∧ bit_buf bw' = 0 ∧
     eof bw' = 0 ∧ buf_end bw' = buf_end bw ∧
     8 * buf_ptr bw' = zlen bs + pad8 (zlen bs) ∧
     bits_of_bytes (take (Z.to_nat (buf_ptr bw')) m) = bs ++ replicate (Z.to_nat (pad8 (zlen bs))) false ∧
     drop (Z.to_nat (buf_ptr bw')) m = drop (Z.to_nat (buf_ptr bw')) m0).
Proof.
  intros [m Hst] Hne Hroom. pose proof (bw_state_len _ _ _ _ Hst) as Hlen. pose proof Hst as [].
  assert (bit_left bw < 32) by (destruct (Z.eq_dec (bit_left bw) 32) as [He|]; [by specialize (rep_fresh0 He) | lia]).
  unfold bitwriter_flushbits. do 2 wp_step. apply wp_bind.
  apply (wp_while (λ b, (∃ m', flush_state m0 bs (buf_ptr bw) (bit_left bw) m' b) ∧
                        buf_end b = buf_end bw ∧ eof b = 0)
                  (λ b, Z.to_nat (32 - bit_left b))).
  - split_and!; [|done|done]. exists m. split; simpl; try done; [lia|lia|].
    rewrite bits_of_32_shl by lia. by rewrite rep_bits0, app_assoc.
  - done.
  - intros b ([m' Hb] & Hend & Heof) Hc%Z.ltb_lt. apply wp_bind.
    eapply wp_mono; [eapply flush_step; [..|exact Hb|exact Hc|]; try lia|].
    { destruct Hb. lia. }
    intros b1 (m1 & Hb1 & Hl1 & He1 & Hf1). apply wp_ret.
    split_and!; [by exists m1 | simpl; congruence | simpl; congruence | simpl; lia].
  - intros b ([m' []] & Hend & Heof) Hc%Z.ltb_ge. wp_steps. exists m'. simpl.
    assert (Hpad : pad8 (zlen bs) = bit_left b - 32).
    { unfold pad8. symmetry. apply Z.mod_unique with (- buf_ptr b); lia. }
    rewrite Hpad. split_and!; try done; [lia|].
    replace (Z.to_nat (bit_left b)) with (Z.to_nat (bit_left b - 32) + 32)%nat in fl_bits0 by lia.
    rewrite replicate_add, app_assoc in fl_bits0.
    by apply app_inj_2 in fl_bits0 as [? _]; [|rewrite length_bits_of, length_replicate].
Qed.

(** * Safety for arbitrary writes *)

Record bw_safe (m0 : list Z) (bw : BitWriter) : Prop := {
  safe_buffer : ∃ m, buffer bw = Some m ∧ zlen m = zlen m0 ∧
    drop (Z.to_nat (buf_end bw)) m = drop (Z.to_nat (buf_end bw)) m0;
  safe_ptr : 0 ≤ buf_ptr bw ≤ buf_end bw ∧ buf_end bw ≤ zlen m0;
  safe_left : 0 ≤ bit_left bw ≤ 32
}.

Lemma put_word_safe m0 bw w :
  bw_safe m0 bw →
  wp (put_word bw w) (λ r, match r with
    | inl bw' => bw_safe m0 bw' ∧ buf_end bw' = buf_end bw
    | inr bw' => bw_safe m0 bw' ∧ buf_end bw' = buf_end bw ∧ bit_left bw' = bit_left bw ∧
                 buf_ptr bw' = buf_ptr bw ∧ buf_ptr bw' + 4 ≤ buf_end bw'
    end).
Proof.
  intros Hs. pose proof Hs as [(m & Hm & Hlen & Hrest) Hptr Hleft]. unfold put_word. rewrite Hm.
  destruct (negb _); [by split|]. destruct (Z.leb_spec (buf_end bw) (buf_ptr bw + 3)).
  { split; [|done]. split; simpl; eauto. }
  assert (HL : zlen (be_bytes32 w) = 4) by done.
  rewrite host_bytes32_be, memcpy_in by lia. wp_steps. simpl.
  change (slice (be_bytes32 w) 0 4) with (be_bytes32 w).
  split_and!; try done; [|lia]. split; simpl; [|done|done].
  eexists. split; [reflexivity|]. rewrite zlen_splice by lia. split; [done|].
  replace (Z.to_nat (buf_end bw)) with
    (Z.to_nat (buf_ptr bw + zlen (be_bytes32 w)) + Z.to_nat (buf_end bw - buf_ptr bw - 4))%nat in * by lia.
  rewrite <- !drop_drop, drop_splice by lia. by rewrite !drop_drop.
Qed.

Lemma bitwriter_writebits_safe m0 bw n v :
  bw_safe m0 bw → 0 ≤ n ≤ 31 →
  wp (bitwriter_writebits bw n v) (λ bw', bw_safe m0 bw' ∧ buf_end bw' = buf_end bw).
Proof.
  intros Hs Hn. pose proof Hs as [Hb Hptr Hleft]. unfold bitwriter_writebits.
  destruct (Z.eqb_spec n 0); simpl orb; [done|].
  rewrite (proj2 (Z.ltb_ge 32 n)) by lia. cbv iota. do 2 wp_step. cbv zeta.
  destruct (Z.leb_spec n (bit_left bw)).
  - wp_steps. split; [|done]. split; simpl; [done|done|lia].
  - do 4 wp_step. cbv zeta. apply wp_bind. eapply wp_mono; [by apply (put_word_safe m0)|].
    intros [b|b]; [done|]. intros (Hs' & He & Hl & Hp & Hr). pose proof Hs' as [].
    wp_steps. split; [|done]. split; simpl; [done|lia|lia].
Qed.

Lemma bitwriter_init_safe m0 len : 0 ≤ len ≤ zlen m0 → bw_safe m0 (bitwriter_init (Some m0) len).
Proof.
  intros Hlen. unfold bitwriter_init. rewrite (proj2 (Z.ltb_ge len 0)) by lia.
  split; simpl; [by exists m0|lia|lia].
Qed.

Lemma write_fields_safe m0 fs : ∀ bw,
  bw_safe m0 bw → Forall field_ok fs →
  wp (write_fields bw fs) (λ bw', bw_safe m0 bw' ∧ buf_end bw' = buf_end bw).
Proof.
  induction fs as [|[n v] fs IH]; intros bw Hs Hok; simpl; [done|].
  apply Forall_cons_1 in Hok as [Hn Hok]. apply wp_bind.
  eapply wp_mono; [by apply bitwriter_writebits_safe|]. intros b [Hb He].
  eapply wp_mono; [by apply IH|]. intros b' [Hb' He']. split; [done|congruence].
Qed.

(** * Counting without a buffer *)

Definition fields_width (fs : list (Z * Z)) : Z := foldr (λ f w, fst f + w) 0 fs.

Lemma fields_width_bits fs : Forall field_ok fs → zlen (fields_bits fs) = fields_width fs.
Proof.
  induction 1 as [|[n v] fs Hn _ IH]; [done|]. unfold fields_bits in *. cbn [flat_map].
  rewrite zlen_app, IH. unfold field_bits, field_ok in *. rewrite zlen_bits_of. simpl in *. lia.
Qed.

Lemma write_fields_null fs : ∀ bw,
  buffer bw = None → 0 ≤ bit_left bw ≤ 32 → Forall field_ok fs →
  wp (write_fields bw fs) (λ bw', buffer bw' = None ∧
    8 * buf_ptr bw' + 32 - bit_left bw' = 8 * buf_ptr bw + 32 - bit_left bw + fields_width fs).
Proof.
  induction fs as [|[n v] fs IH]; intros bw Hb Hl Hok; simpl; [split; [done|lia]|].
  apply Forall_cons_1 in Hok as [Hn Hok]. unfold field_ok in Hn. simpl in Hn.
  apply wp_bind. unfold bitwriter_writebits.
  destruct (Z.eqb_spec n 0) as [->|]; simpl orb.
  { apply wp_ret. eapply wp_mono; [by apply IH|]. intros b [? ?]. split; [done|lia]. }
  rewrite (proj2 (Z.ltb_ge 32 n)) by lia. cbv iota. do 2 wp_step. cbv zeta.
  destruct (Z.leb_spec n (bit_left bw)); wp_steps; unfold put_word; rewrite ?Hb; wp_steps;
    (eapply wp_mono; [apply IH; simpl; [done|lia|done] |]; simpl; intros b [? ?]; split; [done|lia]).
Qed.

(** [bitwriter_writebit] is the one-bit [bitwriter_writebits]. *)
Lemma u32_land1 v : Z.land (u32 v) (u32 (u32 (Z.shiftl 1 1) - 1)) = Z.land v 1.
Proof. rewrite mask_val by lia. change 1 with (Z.ones 1) at 2. by rewrite Z.land_ones by lia. Qed.

Lemma put_word_left bw w b : put_word bw w = Some (inr b) → bit_left b = bit_left bw.
Proof.
  unfold put_word. destruct (buffer bw); [|by intros [= <-]].
  repeat case_match; try done. destruct (memcpy _ _ _ _ _); [|done]. by intros [= <-].
Qed.

(** * Reading back *)

(** A decoder's reader: fields of the given widths, most significant bit first. *)
Fixpoint read_fields (ws : list Z) (bs : list bool) : list Z :=
  match ws with
  | [] => []
  | w :: ws' => bits_val (take (Z.to_nat w) bs) :: read_fields ws' (drop (Z.to_nat w) bs)
  end.

Lemma read_fields_bits fs rest :
  Forall field_ok fs →
  read_fields (map fst fs) (fields_bits fs ++ rest) = map (λ f, snd f mod 2 ^ fst f) fs.
Proof.
  induction 1 as [|[n v] fs Hn _ IH]; [done|]. unfold field_ok in Hn. simpl in Hn.
  unfold fields_bits in *. cbn [flat_map map read_fields fst snd].
  rewrite <- app_assoc, take_app_length', drop_app_length', IH
    by (unfold field_bits; by rewrite length_bits_of).
  f_equal. unfold field_bits. rewrite bits_val_bits_of. simpl. by rewrite Z2Nat.id by lia.
Qed.

(** Write, then flush: the buffer holds the fields' bits, padded to a byte. *)
Lemma write_flush_repr m0 len fs :
  0 ≤ len ≤ zlen m0 → Forall field_ok fs → 0 < fields_width fs ≤ 8 * len →
  wp (bw ← write_fields (bitwriter_init (Some m0) len) fs; bitwriter_flushbits bw) (λ bw, ∃ m,
     buffer bw = Some m ∧ zlen m = zlen m0 ∧ bit_left bw = 32 ∧
     8 * buf_ptr bw = fields_width fs + pad8 (fields_width fs) ∧
     bits_of_bytes (take (Z.to_nat (buf_ptr bw)) m) =
       fields_bits fs ++ replicate (Z.to_nat (pad8 (fields_width fs))) false ∧
     drop (Z.to_nat (buf_ptr bw)) m = drop (Z.to_nat (buf_ptr bw)) m0).
Proof.
  intros Hlen Hok Hw. rewrite <- fields_width_bits in * by done.
  assert (He : buf_end (bitwriter_init (Some m0) len) = len)
    by (unfold bitwriter_init; by rewrite (proj2 (Z.ltb_ge len 0)) by lia).
  wp_step. eapply wp_mono.
  { apply (write_fields_repr m0 fs _ []); [by apply bitwriter_init_repr | done |].
    rewrite He. autorewrite with carray. lia. }
  intros bw [Hr Hend]. simpl app in Hr. eapply wp_mono.
  { apply (bitwriter_flushbits_repr m0 bw _ Hr).
    - intros Hnil. rewrite Hnil in Hw. autorewrite with carray in Hw. lia.
    - rewrite Hend, He. lia. }
  intros bw' (m & Hm & Hzl & Hl & _ & _ & _ & Hp & Hbits & Hrest). by exists m.
Qed.

(** * Properties *)

(** C24: Writing any sequence of fields of at most 31 bits into a buffer that
    can hold them and flushing leaves a buffer from which a reader of the same
    widths reads the values back (modulo the width); the bit count is the
    total width rounded up to bytes and the rest of the buffer is untouched. *)
Theorem bitio_roundtrip m0 len fs :
  0 ≤ len ≤ zlen m0 → len < 2 ^ 28 → Forall field_ok fs → 0 < fields_width fs ≤ 8 * len →
  wp (bw ← write_fields (bitwriter_init (Some m0) len) fs; bitwriter_flushbits bw) (λ bw, ∃ m,
     buffer bw = Some m ∧ zlen m = zlen m0 ∧
     read_fields (map fst fs) (bits_of_bytes m) = map (λ f, snd f mod 2 ^ fst f) fs ∧
     bitwriter_bitcount bw = fields_width fs + pad8 (fields_width fs) ∧
     drop (Z.to_nat (bitwriter_bitcount bw / 8)) m =
       drop (Z.to_nat (bitwriter_bitcount bw / 8)) m0).
Proof.
  intros Hlen Hbig Hok Hw. eapply wp_mono; [by apply write_flush_repr|].
  intros bw (m & Hm & Hzl & Hl & Hp & Hbits & Hrest). exists m.
  assert (0 ≤ pad8 (fields_width fs) < 8) by (unfold pad8; apply Z.mod_pos_bound; lia).
  assert (Hc : bitwriter_bitcount bw = 8 * buf_ptr bw).
  { unfold bitwriter_bitcount. rewrite Z.shiftl_mul_pow2, Hl by lia. rewrite u32_id; lia. }
  rewrite Hc. split_and!; [done|done| |done|].
  - rewrite <- (take_drop (Z.to_nat (buf_ptr bw)) m), bits_of_bytes_app, Hbits, <- app_assoc.
    by apply read_fields_bits.
  - replace (8 * buf_ptr bw / 8) with (buf_ptr bw); [done|].
    rewrite Z.mul_comm, Z.div_mul; lia.
Qed.

(** Whatever is written (any number of fields of at most 31 bits, any
    values, in any total length), every access of the writer is inside the
    buffer and the memory from [buf_end] on is untouched. *)
Theorem bitio_writes_in_bounds m0 len fs :
  0 ≤ len ≤ zlen m0 → Forall field_ok fs →
  wp (write_fields (bitwriter_init (Some m0) len) fs) (λ bw, ∃ m,
     buffer bw = Some m ∧ zlen m = zlen m0 ∧
     drop (Z.to_nat len) m = drop (Z.to_nat len) m0 ∧ 0 ≤ buf_ptr bw ≤ len).
Proof.
  intros Hlen Hok.
  eapply wp_mono; [by apply write_fields_safe; [apply bitwriter_init_safe|]|].
  assert (He : buf_end (bitwriter_init (Some m0) len) = len)
    by (unfold bitwriter_init; by rewrite (proj2 (Z.ltb_ge len 0)) by lia).
  rewrite He. intros bw [[(m & Hm & Hz & Hr) Hp _] <-]. exists m. split_and!; try done; lia.
Qed.

(** [bitwriter_writebit] and the one-bit [bitwriter_writebits] are the
    same state transformer, the overflow behaviour included. *)
Theorem writebit_is_writebits bw v :
  0 ≤ bit_left bw ≤ 32 → 0 ≤ bit_buf bw < 2 ^ 32 →
  bitwriter_writebit bw v = bitwriter_writebits bw 1 v.
Proof.
  intros Hl Hb. unfold bitwriter_writebit, bitwriter_writebits. simpl orb. cbv iota.
  rewrite (shl32_in 1 1) by lia. simpl. rewrite u32_land1.
  destruct (Z.eqb_spec (bit_left bw) 0) as [Hz|]; simpl; rewrite ?Hz; simpl.
  - change (1 - 0) with 1.
    assert (Hv : Z.shiftr (Z.land v 1) 1 = 0) by (rewrite Z.shiftr_land; apply Z.land_0_r).
    rewrite Hv, Z.lor_0_r, Z.shiftl_0_r, u32_id by lia.
    destruct (put_word bw (bit_buf bw)) as [[b|b]|] eqn:Hput; simpl; try done.
    by rewrite (put_word_left _ _ _ Hput), Hz.
  - by rewrite (proj2 (Z.leb_le 1 (bit_left bw))) by lia.
Qed.

(** Flushing does not look at [buf_end]: with the buffer full ([buf_ptr] at
    its end, as a writer is left by an overflow) and bits still pending, the
    flush writes past the end of the memory object. *)
Theorem flush_past_end_undefined m bw :
  buffer bw = Some m → buf_ptr bw = zlen m → 0 ≤ bit_left bw < 32 →
  bitwriter_flushbits bw = None.
Proof.
  intros Hm Hp Hl. unfold bitwriter_flushbits. rewrite shl32_in by lia. simpl mbind.
  replace (Z.to_nat (32 - bit_left bw)) with (Datatypes.S (Z.to_nat (31 - bit_left bw))) by lia.
  rewrite while_step by (simpl; lia).
  unfold put_byte. simpl. rewrite Hm. simpl. unfold aset.
  by rewrite (proj2 (Z.ltb_ge (buf_ptr bw) (zlen m))), andb_false_r by lia.
Qed.

(** Without a buffer ([NULL]) the writer stores nothing and its bit count
    is the total width of the fields written, as a 32-bit number. *)
Theorem null_writer_counts fs :
  Forall field_ok fs →
  wp (write_fields (bitwriter_init None 0) fs) (λ bw,
     buffer bw = None ∧ bitwriter_bitcount bw = u32 (fields_width fs)).
Proof.
  intros Hok. eapply wp_mono; [by apply write_fields_null|].
  intros bw [Hb Hw]. split; [done|]. unfold bitwriter_bitcount.
  rewrite Z.shiftl_mul_pow2 by lia. f_equal. simpl in Hw. lia.
Qed.
End writer.

(** A little-endian build. *)
Definition little_endian : Target := {| words_bigendian := false |}.
Definition example_fields : list (Z * Z) := [(16, 0x0B77); (16, 0); (2, 1); (6, 20); (31, 12345); (7, 99)].

Lemma example_fields_ok : Forall field_ok example_fields.
Proof. repeat constructor; simpl; lia. Qed.

Lemma bitio_roundtrip_witness :
  wp (bw ← write_fields (H := little_endian) (bitwriter_init (Some (replicate 16 0)) 16) example_fields;
      bitwriter_flushbits bw) (λ bw, ∃ m,
     buffer bw = Some m ∧ zlen m = 16 ∧
     read_fields (map fst example_fields) (bits_of_bytes m) = map (λ f, snd f mod 2 ^ fst f) example_fields ∧
     bitwriter_bitcount bw = 78 + pad8 78 ∧
     drop (Z.to_nat (bitwriter_bitcount bw / 8)) m =
       drop (Z.to_nat (bitwriter_bitcount bw / 8)) (replicate 16 0)).
Proof.
  apply (bitio_roundtrip (H := little_endian) (replicate 16 0) 16 example_fields);
    [done|lia|apply example_fields_ok|done].
Defined.

Lemma bitio_writes_in_bounds_witness :
  wp (write_fields (H := little_endian) (bitwriter_init (Some (replicate 16 0)) 8) example_fields) (λ bw, ∃ m,
     buffer bw = Some m ∧ zlen m = 16 ∧ drop 8 m = drop 8 (replicate 16 0) ∧ 0 ≤ buf_ptr bw ≤ 8).
Proof.
  apply (bitio_writes_in_bounds (H := little_endian) (replicate 16 0) 8 example_fields);
    [done|apply example_fields_ok].
Defined.

Definition half_full : BitWriter := (bitwriter_init (Some (replicate 4 0)) 4) <| bit_buf := 5 |> <| bit_left := 20 |>.

Lemma writebit_is_writebits_witness :
  bitwriter_writebit (H := little_endian) half_full 3 = bitwriter_writebits (H := little_endian) half_full 1 3.
Proof. apply (writebit_is_writebits (H := little_endian)); simpl; lia. Defined.

Definition full_writer : BitWriter := half_full <| buf_ptr := 4 |>.

Lemma flush_past_end_undefined_witness : bitwriter_flushbits full_writer = None.
Proof. apply (flush_past_end_undefined (replicate 4 0)); [done|done|simpl; lia]. Defined.

Lemma null_writer_counts_witness :
  wp (write_fields (H := little_endian) (bitwriter_init None 0) example_fields) (λ bw,
     buffer bw = None ∧ bitwriter_bitcount bw = u32 78).
Proof. apply (null_writer_counts (H := little_endian)). apply example_fields_ok. Defined.
