(* ===== verification/Crc.v ===== *)
(** [libaften/crc.c]: the CRC-16 of the frame and the word that makes it zero.
    The reference is the bitwise shift register for the polynomial
    [x^16 + x^15 + x^2 + 1]; the table-driven code computes it, and
    [crc16_zero] inverts it by powers of [x^-1] in the ring of polynomials
    modulo that polynomial. *)
From Stdlib Require Import ZArith Lia ZifyBool Bool.
From stdpp Require Import base option list numbers.
From coqutil Require Import Z.bitblast.
From S2P Require Import Prelude CMachine Bits.
Local Open Scope Z_scope.
Local Open Scope carray_scope.

Definition CRC16_POLY : Z := 0x18005.

(** * The code *)

Definition crc_init_table (table : list Z) (bits poly : Z) : option (list Z) :=
  let poly := poly + Z.shiftl 1 bits in
  for_up 0 256 (λ i table,
    crc ← for_up 0 bits (λ _ crc,
      Some (if negb (Z.land crc (Z.shiftl 1 (bits - 1)) =? 0)
            then Z.lxor (Z.shiftl crc 1) poly
            else Z.shiftl crc 1)) i;
    aset table i (bswap_16 (Z.land crc (Z.shiftl 1 bits - 1)))) table.

(** [static uint16_t crc16tab[256]], as the program starts and after [crc_init]. *)
Definition crc16tab_zero : list Z := replicate 256 0.

Definition crc_init (tab : list Z) : option (list Z) := crc_init_table tab 16 CRC16_POLY.

Section union.
Context `{Target}.

(** [union crc_t]: the bytes of [word] in the host's order and the two macros. *)
Definition crc_bytes (word : Z) : list Z :=
  if words_bigendian then [Z.shiftr word 8; Z.land word 255] else [Z.land word 255; Z.shiftr word 8].
Definition LOW_BYTE : Z := if words_bigendian then 1 else 0.
Definition HIGH_BYTE : Z := if words_bigendian then 0 else 1.

(** [calc_crc16(data + off, len)] *)
Definition calc_crc16 (crc16tab : list Z) (data : list Z) (off len : Z) : option Z :=
  word ← for_up 0 len (λ i word,
    v1 ← aget (crc_bytes word) HIGH_BYTE;
    lo ← aget (crc_bytes word) LOW_BYTE;
    d ← aget data (off + i);
    let v2 := Z.lxor lo d in
    t ← aget crc16tab v2;
    Some (Z.lxor v1 t)) 0;
  Some (bswap_16 word).
End union.

Definition mul_poly_step '((a, b, c) : Z * Z * Z) : option (Z * Z * Z) :=
  let c := if negb (Z.land a 1 =? 0) then Z.lxor c b else c in
  let a := Z.shiftr a 1 in
  let b := u32 (Z.shiftl b 1) in
  let b := if negb (Z.land b (Z.shiftl 1 16) =? 0) then Z.lxor b CRC16_POLY else b in
  Some (a, b, c).

Definition mul_poly (a b : Z) : option Z :=
  '(_, _, c) ← while_loop 32 (λ '(a, _, _), negb (a =? 0)) mul_poly_step (a, b, 0);
  Some (u16 c).

Definition pow_poly_step '((n, a, r) : Z * Z * Z) : option (Z * Z * Z) :=
  r ← (if negb (Z.land n 1 =? 0) then mul_poly r a else Some r);
  a ← mul_poly a a;
  Some (Z.shiftr n 1, a, r).

Definition pow_poly (n : Z) : option Z :=
  '(_, _, r) ← while_loop 32 (λ '(n, _, _), negb (n =? 0)) pow_poly_step
                 (n, Z.shiftr CRC16_POLY 1, 1);
  Some r.

(** The [int] product [size * 8]; its overflow is undefined. *)
Definition bits_in_bytes (size : Z) : option Z :=
  if (-2147483648 <=? size * 8) && (size * 8 <=? 2147483647) then Some (size * 8) else None.

Definition crc16_zero (crc size : Z) : option Z :=
  bits ← bits_in_bytes size;
  crc_inv ← pow_poly (u32 bits);
  mul_poly crc_inv crc.

(** * The reference *)

(** Multiplication by [x] modulo the polynomial, on 16-bit remainders. *)
Definition xtime (b : Z) : Z :=
  if Z.testbit b 15 then Z.lxor (2 * b) CRC16_POLY else 2 * b.

(** One bit into the shift register. *)
Definition crc_bit (r : Z) (b : bool) : Z := xtime (Z.lxor r (if b then 0x8000 else 0)).
Definition crc_bits (r : Z) (bs : list bool) : Z := foldl crc_bit r bs.
Definition crc_ref (data : list Z) : Z := crc_bits 0 (bits_of_bytes data).

(** The product of two remainders. *)
Fixpoint pmul (n : nat) (a b : Z) : Z :=
  match n with
  | O => 0
  | S n' => Z.lxor (if Z.odd a then b else 0) (pmul n' (Z.div2 a) (xtime b))
  end.

(** ** Linearity *)

Definition is16 (x : Z) : Prop := 0 ≤ x < 2 ^ 16.
Record linear16 (f : Z → Z) : Prop := {
  lin_range : ∀ x, is16 x → is16 (f x);
  lin_xor : ∀ x y, is16 x → is16 y → f (Z.lxor x y) = Z.lxor (f x) (f y)
}.

Lemma is16_bits x : 0 ≤ x → (∀ i, 16 ≤ i → Z.testbit x i = false) → is16 x.
Proof.
  intros Hx Hb. replace x with (x mod 2 ^ 16); [apply Z.mod_pos_bound; lia|].
  apply Z.bits_inj'. intros i Hi. rewrite Z.testbit_mod_pow2 by lia.
  destruct (Z.ltb_spec i 16); [done|]. by rewrite Hb by lia.
Qed.

Lemma is16_testbit x i : is16 x → 16 ≤ i → Z.testbit x i = false.
Proof.
  intros Hx Hi. rewrite <- (Z.mod_small x (2 ^ 16)) by done.
  by apply Z.mod_pow2_bits_high; lia.
Qed.

Lemma is16_lxor a b : is16 a → is16 b → is16 (Z.lxor a b).
Proof.
  intros Ha Hb. apply is16_bits; [apply Z.lxor_nonneg; unfold is16 in *; lia|].
  intros i Hi. by rewrite Z.lxor_spec, !is16_testbit.
Qed.
#[local] Hint Resolve is16_lxor lin_range : core.

Lemma lin_0 f : linear16 f → f 0 = 0.
Proof.
  intros Hf. assert (is16 0) by (unfold is16; lia).
  pose proof (lin_xor f Hf 0 0) as H0. rewrite Z.lxor_0_l in H0.
  rewrite H0 by done. apply Z.lxor_nilpotent.
Qed.

(** Two linear maps that agree on the powers of [x] are equal. *)
Lemma linear_ext f g :
  linear16 f → linear16 g → forallb (λ i, f (2 ^ Z.of_nat i) =? g (2 ^ Z.of_nat i)) (seq 0 16) = true →
  ∀ x, is16 x → f x = g x.
Proof.
  intros Hf Hg Hbase. rewrite forallb_forall in Hbase.
  assert (Hn : ∀ n x, (n ≤ 16)%nat → 0 ≤ x < 2 ^ Z.of_nat n → f x = g x).
  { induction n as [|n IH]; intros x Hn Hx.
    - replace x with 0 by (simpl in Hx; lia). by rewrite !lin_0.
    - rewrite Nat2Z.inj_succ, Z.pow_succ_r in Hx by lia.
      assert (2 ^ Z.of_nat n ≤ 2 ^ 15) by (apply Z.pow_le_mono_r; lia).
      destruct (Z.ltb_spec x (2 ^ Z.of_nat n)); [apply IH; lia|].
      set (y := x - 2 ^ Z.of_nat n).
      assert (Hxy : x = Z.lxor (2 ^ Z.of_nat n) y).
      { rewrite <- Z.add_nocarry_lxor; [unfold y; lia|].
        rewrite Z.land_comm, <- (Z.mul_1_l (2 ^ Z.of_nat n)), <- Z.shiftl_mul_pow2 by lia.
        apply Z.bits_inj'. intros i Hi. rewrite Z.land_spec, Z.testbit_0_l, testbit_shiftl' by lia.
        destruct (Z.ltb_spec i (Z.of_nat n)); simpl; [by rewrite andb_false_r|].
        rewrite <- (Z.mod_small y (2 ^ Z.of_nat n)), Z.mod_pow2_bits_high by (unfold y; lia). done. }
      rewrite Hxy, !lin_xor by (done || (unfold is16, y; lia)). f_equal.
      + apply Z.eqb_eq, Hbase, in_seq. lia.
      + apply IH; unfold y; lia. }
  intros x Hx. apply (Hn 16%nat); [lia|done].
Qed.

Lemma lin_id : linear16 (λ x, x).
Proof. by split. Qed.
Lemma lin_compose f g : linear16 f → linear16 g → linear16 (λ x, f (g x)).
Proof. intros Hf Hg. split; intros; [auto|]. rewrite !lin_xor by auto. done. Qed.

Lemma xtime_testbit b i : is16 b → 0 ≤ i →
  Z.testbit (xtime b) i =
    xorb (negb (i =? 0) && Z.testbit b (i - 1)) (Z.testbit b 15 && Z.testbit CRC16_POLY i).
Proof.
  intros Hb Hi. unfold xtime.
  replace (2 * b) with (Z.shiftl b 1) by (rewrite Z.shiftl_mul_pow2; lia).
  assert (Hs : Z.testbit (Z.shiftl b 1) i = negb (i =? 0) && Z.testbit b (i - 1)).
  { rewrite testbit_shiftl' by lia. f_equal.
    destruct (Z.ltb_spec i 1), (Z.eqb_spec i 0); try done; lia. }
  destruct (Z.testbit b 15); rewrite ?Z.lxor_spec, Hs; [done|]. by rewrite xorb_false_r.
Qed.

Lemma xtime_linear : linear16 xtime.
Proof.
  split.
  - intros b Hb. apply is16_bits.
    + unfold xtime, is16 in *. destruct (Z.testbit b 15); [apply Z.lxor_nonneg|]; unfold CRC16_POLY; lia.
    + intros i Hi. rewrite xtime_testbit by (done || lia).
      destruct (Z.eqb_spec i 0); [lia|]. cbn [negb andb].
      destruct (Z.eq_dec i 16) as [->|].
      * change (16 - 1) with 15. change (Z.testbit CRC16_POLY 16) with true.
        by destruct (Z.testbit b 15).
      * rewrite (is16_testbit b (i - 1)) by (done || lia).
        replace (Z.testbit CRC16_POLY i) with false; [by rewrite andb_false_r|].
        symmetry. rewrite <- (Z.mod_small CRC16_POLY (2 ^ 17)) by (unfold CRC16_POLY; lia).
        apply Z.mod_pow2_bits_high. lia.
  - intros x y Hx Hy. apply Z.bits_inj'. intros i Hi.
    rewrite Z.lxor_spec, !xtime_testbit, !Z.lxor_spec by auto.
    destruct (negb _), (Z.testbit x (i - 1)), (Z.testbit y (i - 1)), (Z.testbit x 15),
      (Z.testbit y 15), (Z.testbit CRC16_POLY i); done.
Qed.

Lemma xtimes_linear n : linear16 (Nat.iter n xtime).
Proof.
  induction n as [|n IH]; [apply lin_id|].
  apply (lin_compose xtime (Nat.iter n xtime)); [apply xtime_linear|done].
Qed.
#[local] Hint Resolve xtime_linear xtimes_linear lin_compose lin_id : core.

(** ** The product *)

Lemma pmul_linear_r n a : linear16 (pmul n a).
Proof.
  revert a. induction n as [|n IH]; intros a.
  - split; intros; [unfold is16; simpl; lia | done].
  - destruct (IH (Z.div2 a)) as [IHr IHx]. split; cbn [pmul].
    + intros x Hx. apply is16_lxor; [destruct (Z.odd a); unfold is16 in *; [done|lia]|].
      apply IHr. by apply lin_range.
    + intros x y Hx Hy. rewrite (lin_xor xtime), IHx by eauto.
      destruct (Z.odd a); rewrite ?Z.lxor_0_l; [|done].
      rewrite !Z.lxor_assoc. f_equal. rewrite <- !Z.lxor_assoc, (Z.lxor_comm y). done.
Qed.

Lemma pmul_xor_l n a a' b : pmul n (Z.lxor a a') b = Z.lxor (pmul n a b) (pmul n a' b).
Proof.
  revert a a' b. induction n as [|n IH]; intros a a' b; cbn [pmul]; [done|].
  rewrite !Z.div2_spec, Z.shiftr_lxor, <- !Z.div2_spec, IH, <- !Z.bit0_odd, Z.lxor_spec.
  set (p := pmul n _ _). set (q := pmul n _ _).
  destruct (Z.testbit a 0), (Z.testbit a' 0); simpl; rewrite ?Z.lxor_0_l.
  - rewrite !Z.lxor_assoc, <- (Z.lxor_assoc p b q), (Z.lxor_comm p b), !Z.lxor_assoc.
    by rewrite <- (Z.lxor_assoc b b), Z.lxor_nilpotent, Z.lxor_0_l.
  - by rewrite Z.lxor_assoc.
  - by rewrite <- !Z.lxor_assoc, (Z.lxor_comm b).
  - done.
Qed.

Lemma pmul_range n a b : is16 b → is16 (pmul n a b).
Proof. apply (pmul_linear_r n a). Qed.

Lemma pmul_linear_l b : is16 b → linear16 (λ a, pmul 16 a b).
Proof. split; intros; [by apply pmul_range | apply pmul_xor_l]. Qed.
#[local] Hint Resolve pmul_linear_r pmul_range pmul_linear_l : core.

Definition basis16 : list Z := map (λ i, 2 ^ Z.of_nat i) (seq 0 16).

Lemma forallb_elem {A} (p : A → bool) l x : forallb p l = true → x ∈ l → p x = true.
Proof. rewrite forallb_forall, list_elem_of_In. auto. Qed.

Lemma basis16_is16 e : e ∈ basis16 → is16 e.
Proof.
  intros He. apply (forallb_elem (λ e, (0 <=? e) && (e <? 2 ^ 16))) in He; [|reflexivity].
  unfold is16. apply andb_true_iff in He. lia.
Qed.

Lemma linear_ext_basis f g :
  linear16 f → linear16 g → (∀ e, e ∈ basis16 → f e = g e) → ∀ x, is16 x → f x = g x.
Proof.
  intros Hf Hg Hb. apply linear_ext; [done..|]. apply forallb_forall. intros i Hi.
  apply Z.eqb_eq, Hb, list_elem_of_In. unfold basis16.
  apply (in_map (λ i, 2 ^ Z.of_nat i)), Hi.
Qed.

(** Associativity of the product: both sides are linear in each operand, so
    it is checked on the powers of [x]. *)
Lemma pmul_assoc_basis a b c :
  a ∈ basis16 → b ∈ basis16 → c ∈ basis16 → pmul 16 (pmul 16 a b) c = pmul 16 a (pmul 16 b c).
Proof.
  assert (Hall : forallb (λ a, forallb (λ b, forallb (λ c,
    pmul 16 (pmul 16 a b) c =? pmul 16 a (pmul 16 b c)) basis16) basis16) basis16 = true)
    by (vm_compute; reflexivity).
  intros Ha Hb Hc. apply (forallb_elem _ _ a) in Hall; [|done].
  apply (forallb_elem _ _ b) in Hall; [|done]. apply (forallb_elem _ _ c) in Hall; [|done].
  by apply Z.eqb_eq.
Qed.

Lemma pmul_assoc a b c :
  is16 a → is16 b → is16 c → pmul 16 (pmul 16 a b) c = pmul 16 a (pmul 16 b c).
Proof.
  pose proof basis16_is16 as H16. intros Ha Hb Hc.
  revert a Ha. apply (linear_ext_basis (λ a, pmul 16 (pmul 16 a b) c) (λ a, pmul 16 a (pmul 16 b c)));
    [by apply (lin_compose (λ a, pmul 16 a c) (λ a, pmul 16 a b)); auto | auto | intros a Ha].
  revert b Hb. apply (linear_ext_basis (λ b, pmul 16 (pmul 16 a b) c) (λ b, pmul 16 a (pmul 16 b c)));
    [apply (lin_compose (λ a, pmul 16 a c) (pmul 16 a)); auto
    | apply (lin_compose (pmul 16 a) (λ b, pmul 16 b c)); auto | intros b Hb].
  revert c Hc. apply (linear_ext_basis (pmul 16 (pmul 16 a b)) (λ c, pmul 16 a (pmul 16 b c)));
    [auto | apply (lin_compose (pmul 16 a) (pmul 16 b)); auto | intros c Hc].
  by apply pmul_assoc_basis.
Qed.

(** Multiplying by [0xC002] undoes a multiplication by [x]. *)
Lemma xtime_inv b : is16 b → xtime (pmul 16 0xC002 b) = b.
Proof.
  revert b. apply (linear_ext (λ b, xtime (pmul 16 0xC002 b)) (λ b, b));
    [apply (lin_compose xtime (pmul 16 0xC002)); auto | auto | vm_compute; reflexivity].
Qed.

Lemma pmul_1_l b : is16 b → pmul 16 1 b = b.
Proof. revert b. apply (linear_ext (pmul 16 1) (λ b, b)); [auto..|vm_compute; reflexivity]. Qed.

(** ** The reference CRC of a message *)

Lemma crc_bit_xor r b : is16 r → crc_bit r b = Z.lxor (xtime r) (crc_bit 0 b).
Proof.
  intros Hr. unfold crc_bit. rewrite Z.lxor_0_l.
  apply (lin_xor _ xtime_linear); [done|]. destruct b; unfold is16; lia.
Qed.

Lemma crc_bits_xor bs r :
  is16 r → crc_bits r bs = Z.lxor (Nat.iter (length bs) xtime r) (crc_bits 0 bs).
Proof.
  unfold crc_bits. revert r. induction bs as [|b bs IH]; intros r Hr; [by rewrite Z.lxor_0_r|].
  cbn [foldl length]. assert (Hb : is16 (crc_bit 0 b)) by by destruct b.
  rewrite crc_bit_xor by done.
  rewrite IH, (IH (crc_bit 0 b)) by auto. rewrite <- Z.lxor_assoc. f_equal.
  rewrite (lin_xor _ (xtimes_linear (length bs))) by auto. by rewrite Nat.iter_succ_r.
Qed.

Lemma crc_bits_is16 bs r : is16 r → is16 (crc_bits r bs).
Proof.
  unfold crc_bits. revert r. induction bs as [|b bs IH]; intros r Hr; [done|]. cbn [foldl].
  apply IH. rewrite crc_bit_xor by done. assert (Hb : is16 (crc_bit 0 b)) by by destruct b. auto.
Qed.

Lemma crc_bits_app r bs cs : crc_bits r (bs ++ cs) = crc_bits (crc_bits r bs) cs.
Proof. apply foldl_app. Qed.

Lemma crc_bits_linear n r s v w :
  is16 r → is16 s →
  crc_bits (Z.lxor r s) (bits_of n (Z.lxor v w)) =
    Z.lxor (crc_bits r (bits_of n v)) (crc_bits s (bits_of n w)).
Proof.
  unfold crc_bits, bits_of. revert r s. induction n as [|n IH]; intros r s Hr Hs; [done|].
  cbn [foldl]. rewrite Z.lxor_spec. set (b := Z.testbit v _). set (c := Z.testbit w _).
  assert (Hb : ∀ b, is16 (crc_bit 0 b)) by (intros []; done).
  rewrite <- IH; rewrite 1?(crc_bit_xor r b), 1?(crc_bit_xor s c) by done; [|by auto..].
  f_equal. rewrite crc_bit_xor, (lin_xor _ xtime_linear) by auto.
  rewrite !Z.lxor_assoc. f_equal. rewrite <- !Z.lxor_assoc, (Z.lxor_comm _ (xtime s)), !Z.lxor_assoc.
  f_equal. by destruct b, c.
Qed.

(** The remainder of a 16-bit word followed by a message. *)
Lemma crc_ref_word v rest :
  is16 v →
  crc_ref (Z.shiftr v 8 :: Z.land v 255 :: rest) =
    Z.lxor (Nat.iter (length (bits_of_bytes rest) + 16) xtime v) (crc_ref rest).
Proof.
  intros Hv. unfold crc_ref. change (_ :: _ :: rest) with ([Z.shiftr v 8; Z.land v 255] ++ rest).
  rewrite bits_of_bytes_app, crc_bits_app, crc_bits_xor by (apply crc_bits_is16; done).
  f_equal. rewrite Nat.iter_add. f_equal. unfold bits_of_bytes. cbn [flat_map]. rewrite app_nil_r.
  rewrite (bits_of_ext 8 (Z.land v 255) v)
    by (intros i Hi; change 255 with (Z.ones 8); bits_simp).
  change (bits_of 8 (Z.shiftr v 8)) with (bits_of 8 (Z.shiftr v (Z.of_nat 8))).
  rewrite <- bits_of_app. simpl Nat.add.
  revert v Hv. apply (linear_ext (λ v, crc_bits 0 (bits_of 16 v)) (Nat.iter 16 xtime));
    [|auto|vm_compute; reflexivity].
  split; intros; [by apply crc_bits_is16|].
  by rewrite <- crc_bits_linear by done.
Qed.

(** ** The table *)

(** Eight bits into a register whose high byte is [k]. *)
Definition crc_byte (k : Z) : Z := Nat.iter 8 xtime (Z.shiftl k 8).

Lemma crc_byte_is16 k : 0 ≤ k < 256 → is16 (crc_byte k).
Proof. intros. apply (xtimes_linear 8). unfold is16. rewrite Z.shiftl_mul_pow2; lia. Qed.

Lemma crc_table_spec :
  ∃ tab, crc_init crc16tab_zero = Some tab ∧ zlen tab = 256 ∧
         ∀ k, 0 ≤ k < 256 → tab.[k] = bswap_16 (crc_byte k).
Proof.
  set (t := crc_init crc16tab_zero). vm_compute in t. eexists. split; [reflexivity|].
  split; [reflexivity|]. intros k Hk. apply Z.eqb_eq. revert Hk.
  match goal with |- _ → (?T.[_] =? _) = true =>
    apply (check_range (λ k, T.[k] =? bswap_16 (crc_byte k))) end.
  vm_compute. reflexivity.
Qed.

Lemma crc_init_spec tab :
  crc_init crc16tab_zero = Some tab →
  zlen tab = 256 ∧ ∀ k, 0 ≤ k < 256 → tab.[k] = bswap_16 (crc_byte k).
Proof. destruct crc_table_spec as (tab' & -> & Hspec). by intros [= <-]. Qed.

Lemma land255 x : Z.land x 255 = u8 x.
Proof. change 255 with (Z.ones 8). by rewrite Z.land_ones. Qed.

(** The register after a byte. *)
Lemma crc_byte_step r d :
  is16 r → 0 ≤ d < 256 →
  crc_bits r (bits_of 8 d) = Z.lxor (crc_byte (Z.lxor (Z.shiftr r 8) d)) (Z.shiftl (u8 r) 8).
Proof.
  intros Hr Hd. rewrite crc_bits_xor, length_bits_of by done.
  assert (Hs : ∀ k, 0 ≤ k < 256 → is16 (Z.shiftl k 8))
    by (intros; unfold is16; rewrite Z.shiftl_mul_pow2; lia).
  assert (Hr8 : 0 ≤ Z.shiftr r 8 < 256).
  { rewrite Z.shiftr_div_pow2 by lia. unfold is16 in Hr. split; [apply Z.div_pos; lia|].
    apply Z.div_lt_upper_bound; lia. }
  assert (Hb : crc_bits 0 (bits_of 8 d) = crc_byte d).
  { apply Z.eqb_eq.
    apply (check_range (λ d, crc_bits 0 (bits_of 8 d) =? crc_byte d) 256 d); [|done].
    vm_compute. reflexivity. }
  assert (Hlow : Nat.iter 8 xtime (u8 r) = Z.shiftl (u8 r) 8).
  { apply Z.eqb_eq.
    apply (check_range (λ k, Nat.iter 8 xtime k =? Z.shiftl k 8) 256); [|apply u8_range].
    vm_compute. reflexivity. }
  rewrite Hb. unfold crc_byte at 2. rewrite Z.shiftl_lxor.
  rewrite (lin_xor _ (xtimes_linear 8)) by auto. rewrite <- Hlow.
  fold (crc_byte (Z.shiftr r 8)) (crc_byte d).
  rewrite !Z.lxor_assoc, (Z.lxor_comm (crc_byte d)), <- !Z.lxor_assoc. f_equal.
  unfold crc_byte. rewrite <- (lin_xor _ (xtimes_linear 8));
    [|by auto|pose proof (u8_range r); unfold is16; lia].
  f_equal. unfold u8. bits_eq. rewrite Z.shiftr_spec, xorb_false_r by lia. f_equal. lia.
Qed.

Lemma bswap_16_16 x : is16 x → bswap_16 (bswap_16 x) = x.
Proof.
  intros Hx. unfold bswap_16, u16. apply Z.bits_inj'. intros i Hi.
  rewrite <- (Z.mod_small x (2 ^ 16)) by done. bits_simp. bits_simp.
Qed.

Lemma bswap_16_is16 x : is16 (bswap_16 x).
Proof. apply Z.mod_pos_bound. lia. Qed.

Lemma bswap_16_lxor a b : is16 a → is16 b → bswap_16 (Z.lxor a b) = Z.lxor (bswap_16 a) (bswap_16 b).
Proof.
  intros Ha Hb. unfold bswap_16, u16. apply Z.bits_inj'. intros i Hi.
  rewrite Z.lxor_spec, !Z.testbit_mod_pow2, !Z.lor_spec by lia.
  rewrite !Z.shiftr_spec, !testbit_shiftl', !Z.lxor_spec by lia.
  destruct (Z.ltb_spec i 16), (Z.ltb_spec i 8); simpl; try done.
  - by rewrite !orb_false_r.
  - by rewrite (is16_testbit a), (is16_testbit b) by (done || lia).
Qed.

Lemma bswap_16_high w : is16 w → Z.shiftr (bswap_16 w) 8 = u8 w.
Proof.
  intros Hw. unfold bswap_16, u16, u8. rewrite <- (Z.mod_small w (2 ^ 16)) by done.
  bits_eq; bits_simp.
Qed.

Lemma bswap_16_low w : is16 w → Z.shiftl (u8 (bswap_16 w)) 8 = bswap_16 (Z.shiftr w 8).
Proof.
  intros Hw. unfold bswap_16, u16, u8. rewrite <- (Z.mod_small w (2 ^ 16)) by done.
  bits_eq; bits_simp.
Qed.

Section union_spec.
Context `{Target}.

Lemma wp_crc_bytes w Q (k : Z → Z → option Z) :
  wp (k (Z.shiftr w 8) (Z.land w 255)) Q →
  wp (v1 ← aget (crc_bytes w) HIGH_BYTE; lo ← aget (crc_bytes w) LOW_BYTE; k v1 lo) Q.
Proof. unfold crc_bytes, HIGH_BYTE, LOW_BYTE. by destruct words_bigendian. Qed.

(** The table-driven CRC is the shift register's. *)
Lemma calc_crc16_ref tab data off len :
  crc_init crc16tab_zero = Some tab → 0 ≤ off → 0 ≤ len → off + len ≤ zlen data →
  Forall (λ d, 0 ≤ d < 256) data →
  calc_crc16 tab data off len = Some (crc_ref (slice data off len)).
Proof.
  intros [Htl Htab]%crc_init_spec Ho Hl Hlen Hd.
  rewrite Forall_at in Hd.
  assert (Hwp : wp (calc_crc16 tab data off len) (λ w, w = crc_ref (slice data off len))).
  { unfold calc_crc16. apply wp_bind.
    apply (wp_for_up (λ i w, is16 w ∧ bswap_16 w = crc_ref (slice data off i))); [lia|by split| |].
    2:{ intros w [? ?]. by apply wp_ret. }
    intros i w Hi [Hw Hb].
    apply wp_crc_bytes. wp_step. apply wp_aget; [lia|]. cbv zeta. rewrite land255.
    assert (Hx : 0 ≤ Z.lxor (u8 w) data.[off + i] < 2 ^ 8).
    { specialize (Hd (off + i) ltac:(lia)). pose proof (u8_range w).
      rewrite <- (Z.mod_small (u8 w) (2 ^ 8)), <- (Z.mod_small data.[off + i] (2 ^ 8)) by lia.
      replace (Z.lxor _ _) with (Z.lxor (u8 w) data.[off + i] mod 2 ^ 8) by bits_eq.
      apply Z.mod_pos_bound. lia. }
    wp_step. apply wp_aget; [lia|]. apply wp_ret. rewrite Htab by lia.
    assert (Hw8 : is16 (Z.shiftr w 8)).
    { unfold is16 in *. rewrite Z.shiftr_div_pow2 by lia. split; [apply Z.div_pos; lia|].
      apply Z.div_lt_upper_bound; lia. }
    split.
    - apply is16_lxor; [done|apply bswap_16_is16].
    - rewrite slice_snoc by lia.
      unfold crc_ref. rewrite bits_of_bytes_app, crc_bits_app. fold (crc_ref (slice data off i)).
      rewrite <- Hb. unfold bits_of_bytes. cbn [flat_map]. rewrite app_nil_r.
      rewrite crc_byte_step by (apply bswap_16_is16 || (apply Hd; lia)).
      rewrite bswap_16_high, bswap_16_low, bswap_16_lxor by (done || apply bswap_16_is16).
      rewrite bswap_16_16 by (apply crc_byte_is16; lia).
      apply Z.lxor_comm. }
  apply wp_some in Hwp as (w & Heq & ->). exact Heq.
Qed.
End union_spec.

(** ** The word that makes the CRC zero *)

Lemma mul_poly_step_eq a b c :
  is16 b →
  mul_poly_step (a, b, c) = Some (Z.div2 a, xtime b, Z.lxor c (if Z.odd a then b else 0)).
Proof.
  intros Hb. unfold mul_poly_step. rewrite odd_test, Z.div2_spec by lia.
  assert (H2 : u32 (Z.shiftl b 1) = 2 * b).
  { unfold is16 in Hb. rewrite Z.shiftl_mul_pow2, u32_id; lia. }
  rewrite H2. change (Z.shiftl 1 16) with (2 ^ 16). rewrite land_pow2_test by lia.
  replace (Z.testbit (2 * b) 16) with (Z.testbit b 15) by (symmetry; apply (Z.double_bits_succ b 15)).
  unfold xtime. destruct (Z.odd a); by rewrite ?Z.lxor_0_r.
Qed.

Lemma pmul_0_l n b : pmul n 0 b = 0.
Proof. revert b. induction n as [|n IH]; intros b; [done|]. cbn [pmul]. simpl Z.div2. by rewrite IH. Qed.

Lemma mul_poly_loop n m a b c :
  (n ≤ m)%nat → 0 ≤ a < 2 ^ Z.of_nat n → is16 b →
  ∃ b', while_loop m (λ '(a, _, _), negb (a =? 0)) mul_poly_step (a, b, c) =
          Some (0, b', Z.lxor c (pmul n a b)).
Proof.
  revert m a b c. induction n as [|n IH]; intros m a b c Hm Ha Hb.
  { replace a with 0 by (simpl in Ha; lia). exists b. rewrite Z.lxor_0_r. by destruct m. }
  rewrite Nat2Z.inj_succ, Z.pow_succ_r in Ha by lia. destruct m as [|m]; [lia|].
  cbn [pmul]. destruct (Z.eqb_spec a 0) as [->|Hne].
  - exists b. rewrite while_stop by done. simpl Z.div2. simpl Z.odd. by rewrite pmul_0_l, !Z.lxor_0_r.
  - rewrite while_step by lia. rewrite mul_poly_step_eq by done. simpl mbind. rewrite <- Z.lxor_assoc. apply IH; [lia| |].
    + rewrite Z.div2_div. split; [apply Z.div_pos; lia|]. apply Z.div_lt_upper_bound; lia.
    + by apply (lin_range _ xtime_linear).
Qed.

#[global] Arguments pmul : simpl never.

Lemma mul_poly_spec a b : is16 a → is16 b → mul_poly a b = Some (pmul 16 a b).
Proof.
  intros Ha Hb. unfold mul_poly.
  destruct (mul_poly_loop 16 32 a b 0) as [b' ->]; [lia|done|done|].
  simpl mbind. rewrite Z.lxor_0_l, u16_id; [done|]. by apply (pmul_range 16 a b).
Qed.

(** Multiplying by [a] undoes [s] multiplications by [x]. *)
Definition inverts (s : nat) (a : Z) : Prop :=
  is16 a ∧ ∀ b, is16 b → Nat.iter s xtime (pmul 16 a b) = b.

Lemma inverts_mul s t a b : inverts s a → inverts t b → inverts (s + t) (pmul 16 a b).
Proof.
  intros [Ha Hsa] [Hb Htb]. split; [by apply pmul_range|]. intros c Hc.
  rewrite pmul_assoc, Nat.add_comm, Nat.iter_add, Hsa by auto. by apply Htb.
Qed.

Lemma pow_poly_step_eq n a r :
  is16 a → is16 r →
  pow_poly_step (n, a, r) = Some (n / 2, pmul 16 a a, if Z.odd n then pmul 16 r a else r).
Proof.
  intros Ha Hr. unfold pow_poly_step. rewrite odd_test, !mul_poly_spec by done.
  rewrite Z.shiftr_div_pow2 by lia. by destruct (Z.odd n).
Qed.

Lemma pow_poly_loop n m s k a r :
  0 ≤ n < 2 ^ Z.of_nat m → inverts s a → inverts k r →
  wp (while_loop m (λ '(n, _, _), negb (n =? 0)) pow_poly_step (n, a, r))
     (λ '(_, _, r'), inverts (k + s * Z.to_nat n) r').
Proof.
  revert n s k a r. induction m as [|m IH]; intros n s k a r Hn Ha Hr.
  { replace n with 0 by (simpl in Hn; lia). rewrite while_stop by done. simpl. by rewrite Nat.mul_0_r, Nat.add_0_r. }
  rewrite Nat2Z.inj_succ, Z.pow_succ_r in Hn by lia.
  destruct (Z.eqb_spec n 0) as [->|Hne].
  { rewrite while_stop by done. simpl. by rewrite Nat.mul_0_r, Nat.add_0_r. }
  pose proof Ha as [Ha16 _]. pose proof Hr as [Hr16 _].
  rewrite while_step by lia. rewrite pow_poly_step_eq by done. simpl mbind.
  assert (0 ≤ n / 2 < 2 ^ Z.of_nat m).
  { split; [apply Z.div_pos; lia | apply Z.div_lt_upper_bound; lia]. }
  pose proof (Z.div_mod n 2 ltac:(lia)) as Hdm. rewrite Zmod_odd in Hdm.
  destruct (Z.odd n).
  - replace (k + s * Z.to_nat n)%nat with ((k + s) + (s + s) * Z.to_nat (n / 2))%nat by nia.
    apply IH; [lia|..]; by apply inverts_mul.
  - replace (k + s * Z.to_nat n)%nat with (k + (s + s) * Z.to_nat (n / 2))%nat by nia.
    apply IH; [lia| |done]; by apply inverts_mul.
Qed.

Lemma pow_poly_spec n : 0 ≤ n < 2 ^ 32 → wp (pow_poly n) (inverts (Z.to_nat n)).
Proof.
  intros Hn. unfold pow_poly. apply wp_bind.
  eapply wp_mono.
  - apply (pow_poly_loop n 32 1 0); [done| |].
    + split; [done|]. intros b Hb. by apply (xtime_inv b).
    + split; [done|]. intros b Hb. by apply (pmul_1_l b).
  - intros [[n' a'] r'] Hr. apply wp_ret. by rewrite Nat.mul_1_l in Hr.
Qed.

(** [crc16_zero] makes the CRC of the whole data zero. *)
Lemma crc16_zero_spec crc size rest :
  is16 crc → crc = crc_ref rest → size = 2 + zlen rest → 8 * size < 2 ^ 31 →
  wp (crc16_zero crc size) (λ v, is16 v ∧ crc_ref (Z.shiftr v 8 :: Z.land v 255 :: rest) = 0).
Proof.
  intros Hc Hcrc Hs Hsz. unfold crc16_zero.
  pose proof (zlen_nonneg rest). unfold bits_in_bytes.
  replace ((-2147483648 <=? size * 8) && (size * 8 <=? 2147483647)) with true by lia.
  cbn [mbind option_bind]. apply wp_bind. rewrite u32_id by lia.
  eapply wp_mono; [apply pow_poly_spec; lia|]. intros inv [Hi Hinv].
  rewrite mul_poly_spec by done. apply wp_ret. split; [by apply pmul_range|].
  rewrite crc_ref_word by (by apply pmul_range).
  replace (length (bits_of_bytes rest) + 16)%nat with (Z.to_nat (size * 8)).
  - rewrite Hinv, Hcrc by done. apply Z.lxor_nilpotent.
  - pose proof (zlen_bits_of_bytes rest). unfold zlen in *. lia.
Qed.

Lemma crc_ref_is16 l : is16 (crc_ref l).
Proof. by apply crc_bits_is16. Qed.

(** * Properties *)

(** C25: The table-driven [calc_crc16] computes, on either byte order, the
    CRC of the bit-serial shift register for x^16+x^15+x^2+1, for any range of
    any byte array. *)
Theorem calc_crc16_is_shift_register `{Target} tab data off len :
  crc_init crc16tab_zero = Some tab → 0 ≤ off → 0 ≤ len → off + len ≤ zlen data →
  Forall (λ d, 0 ≤ d < 256) data →
  calc_crc16 tab data off len = Some (crc_ref (slice data off len)).
Proof. intros. by apply calc_crc16_ref. Qed.

Definition tab_after_init : list Z := default [] (crc_init crc16tab_zero).

Lemma calc_crc16_is_shift_register_witness :
  @calc_crc16 {| words_bigendian := false |} tab_after_init [0x31; 0x32; 0x33] 1 2 =
    Some (crc_ref [0x32; 0x33]).
Proof.
  apply (@calc_crc16_is_shift_register {| words_bigendian := false |}
           tab_after_init [0x31; 0x32; 0x33] 1 2);
    [vm_compute; reflexivity | lia | lia | vm_compute; discriminate | repeat constructor; lia].
Defined.

(** C26: [crc16_zero] terminates and finds the 16-bit word that, written as the
    first two bytes of the data, makes the CRC of the whole data zero, for data
    whose number of bits is an [int]. *)
Theorem crc16_zero_zeroes_crc size rest :
  size = 2 + zlen rest → 8 * size < 2 ^ 31 →
  wp (crc16_zero (crc_ref rest) size)
     (λ v, 0 ≤ v < 2 ^ 16 ∧ crc_ref (Z.shiftr v 8 :: Z.land v 255 :: rest) = 0).
Proof. intros Hs Hsz. apply (crc16_zero_spec (crc_ref rest)); [apply crc_ref_is16|done..]. Qed.

Lemma crc16_zero_zeroes_crc_witness :
  wp (crc16_zero (crc_ref [1; 2; 3]) 5)
     (λ v, 0 ≤ v < 2 ^ 16 ∧ crc_ref (Z.shiftr v 8 :: Z.land v 255 :: [1; 2; 3]) = 0).
Proof. apply (crc16_zero_zeroes_crc 5 [1; 2; 3]); reflexivity. Defined.
