(* ===== verification/Tables.v ===== *)
(** [libaften/a52tab.c]: the tables of the A/52 specification, with the C
    arrays' names and element types, and the facts about them that the
    bit-allocation proofs use. *)
From Stdlib Require Import ZArith Lia ZifyBool Bool.
From stdpp Require Import base option list numbers.
From S2P Require Import Prelude CMachine.
Local Open Scope Z_scope.
Local Open Scope carray_scope.

(** [a52.h]: exponent encoding strategies. *)
Definition EXP_REUSE : Z := 0.
Definition EXP_NEW : Z := 1.
Definition EXP_D15 : Z := 1.
Definition EXP_D25 : Z := 2.
Definition EXP_D45 : Z := 3.

Definition a52_frame_size_tab : list (list Z) := [
  [1024; 1104; 1536];
  [1024; 1120; 1536];
  [1280; 1392; 1920];
  [1280; 1408; 1920];
  [1536; 1664; 2304];
  [1536; 1680; 2304];
  [1792; 1936; 2688];
  [1792; 1952; 2688];
  [2048; 2224; 3072];
  [2048; 2240; 3072];
  [2560; 2784; 3840];
  [2560; 2800; 3840];
  [3072; 3328; 4608];
  [3072; 3344; 4608];
  [3584; 3888; 5376];
  [3584; 3904; 5376];
  [4096; 4448; 6144];
  [4096; 4464; 6144];
  [5120; 5568; 7680];
  [5120; 5584; 7680];
  [6144; 6672; 9216];
  [6144; 6688; 9216];
  [7168; 7792; 10752];
  [7168; 7808; 10752];
  [8192; 8912; 12288];
  [8192; 8928; 12288];
  [10240; 11136; 15360];
  [10240; 11152; 15360];
  [12288; 13360; 18432];
  [12288; 13376; 18432];
  [14336; 15600; 21504];
  [14336; 15616; 21504];
  [16384; 17824; 24576];
  [16384; 17840; 24576];
  [18432; 20048; 27648];
  [18432; 20064; 27648];
  [20480; 22288; 30720];
  [20480; 22304; 30720]
].

Definition a52_channels_tab : list Z := [
  2; 1; 2; 3; 3; 4; 4; 5
].

Definition a52_sample_rate_tab : list Z := [
  48000; 44100; 32000
].

Definition a52_bitrate_tab : list Z := [
  32; 40; 48; 56; 64; 80; 96; 112; 128; 160; 192; 224; 256; 320; 384; 448; 512;
  576; 640
].

(** The initialiser gives 220 of the 260 elements; the rest are zero. *)
Definition a52_log_add_tab : list Z := [
  64; 63; 62; 61; 60; 59; 58; 57; 56; 55; 54; 53; 52; 52; 51; 50; 49; 48; 47; 47;
  46; 45; 44; 44; 43; 42; 41; 41; 40; 39; 38; 38; 37; 36; 36; 35; 35; 34; 33; 33;
  32; 32; 31; 30; 30; 29; 29; 28; 28; 27; 27; 26; 26; 25; 25; 24; 24; 23; 23; 22;
  22; 21; 21; 21; 20; 20; 19; 19; 19; 18; 18; 18; 17; 17; 17; 16; 16; 16; 15; 15;
  15; 14; 14; 14; 13; 13; 13; 13; 12; 12; 12; 12; 11; 11; 11; 11; 10; 10; 10; 10;
  10; 9; 9; 9; 9; 9; 8; 8; 8; 8; 8; 8; 7; 7; 7; 7; 7; 7; 6; 6; 6; 6; 6; 6; 6; 6;
  5; 5; 5; 5; 5; 5; 5; 5; 4; 4; 4; 4; 4; 4; 4; 4; 4; 4; 4; 3; 3; 3; 3; 3; 3; 3;
  3; 3; 3; 3; 3; 3; 3; 2; 2; 2; 2; 2; 2; 2; 2; 2; 2; 2; 2; 2; 2; 2; 2; 2; 2; 2;
  1; 1; 1; 1; 1; 1; 1; 1; 1; 1; 1; 1; 1; 1; 1; 1; 1; 1; 1; 1; 1; 1; 1; 1; 1; 1;
  1; 1; 1; 1; 1; 1; 0; 0; 0; 0; 0; 0; 0; 0; 0; 0
] ++ replicate 40 0.

Definition a52_hearing_threshold_tab : list (list Z) := [
  [1232; 1264; 1408];
  [1232; 1264; 1408];
  [1088; 1120; 1200];
  [1024; 1040; 1104];
  [992; 992; 1056];
  [960; 976; 1008];
  [944; 960; 992];
  [944; 944; 976];
  [928; 944; 960];
  [928; 928; 944];
  [928; 928; 944];
  [928; 928; 944];
  [928; 928; 928];
  [912; 928; 928];
  [912; 912; 928];
  [912; 912; 928];
  [896; 912; 928];
  [896; 896; 928];
  [880; 896; 928];
  [880; 896; 928];
  [864; 880; 912];
  [864; 880; 912];
  [848; 864; 912];
  [848; 864; 912];
  [832; 848; 896];
  [832; 848; 896];
  [816; 832; 896];
  [800; 832; 880];
  [784; 800; 864];
  [768; 784; 848];
  [752; 768; 832];
  [752; 752; 816];
  [752; 752; 800];
  [752; 752; 784];
  [768; 752; 768];
  [784; 768; 752];
  [832; 800; 752];
  [912; 848; 752];
  [992; 912; 768];
  [1056; 992; 784];
  [1120; 1056; 816];
  [1168; 1104; 848];
  [1184; 1184; 960];
  [1120; 1168; 1040];
  [1088; 1120; 1136];
  [1088; 1088; 1184];
  [1312; 1152; 1120];
  [2048; 1584; 1088];
  [2112; 2112; 1104];
  [2112; 2112; 1248]
].

Definition a52_bap_tab : list Z := [
  0; 1; 1; 1; 1; 1; 2; 2; 3; 3; 3; 4; 4; 5; 5; 6; 6; 6; 6; 7; 7; 7; 7; 8; 8; 8;
  8; 9; 9; 9; 9; 10; 10; 10; 10; 11; 11; 11; 11; 12; 12; 12; 12; 13; 13; 13; 13;
  14; 14; 14; 14; 14; 14; 14; 14; 15; 15; 15; 15; 15; 15; 15; 15; 15
].

Definition a52_slow_decay_tab : list Z := [
  15; 17; 19; 21
].

Definition a52_fast_decay_tab : list Z := [
  63; 83; 103; 123
].

Definition a52_slow_gain_tab : list Z := [
  1344; 1240; 1144; 1040
].

Definition a52_db_per_bit_tab : list Z := [
  0; 1792; 2304; 2816
].

Definition a52_floor_tab : list Z := [
  752; 688; 624; 560; 496; 368; 240; -2048
].

Definition a52_fast_gain_tab : list Z := [
  128; 256; 384; 512; 640; 768; 896; 1024
].

Definition a52_critical_band_size_tab : list Z := [
  1; 1; 1; 1; 1; 1; 1; 1; 1; 1; 1; 1; 1; 1; 1; 1; 1; 1; 1; 1; 1; 1; 1; 1; 1; 1;
  1; 1; 3; 3; 3; 3; 3; 3; 3; 6; 6; 6; 6; 6; 6; 12; 12; 12; 12; 24; 24; 24; 24; 24
].

Definition a52_expstr_set_tab : list (list Z) := [
  [EXP_D15; EXP_REUSE; EXP_REUSE; EXP_REUSE; EXP_REUSE; EXP_REUSE];
  [EXP_D15; EXP_REUSE; EXP_REUSE; EXP_REUSE; EXP_REUSE; EXP_D45];
  [EXP_D15; EXP_REUSE; EXP_REUSE; EXP_REUSE; EXP_D25; EXP_REUSE];
  [EXP_D15; EXP_REUSE; EXP_REUSE; EXP_REUSE; EXP_D45; EXP_D45];
  [EXP_D25; EXP_REUSE; EXP_REUSE; EXP_D25; EXP_REUSE; EXP_REUSE];
  [EXP_D25; EXP_REUSE; EXP_REUSE; EXP_D25; EXP_REUSE; EXP_D45];
  [EXP_D25; EXP_REUSE; EXP_REUSE; EXP_D45; EXP_D25; EXP_REUSE];
  [EXP_D25; EXP_REUSE; EXP_REUSE; EXP_D45; EXP_D45; EXP_D45];
  [EXP_D25; EXP_REUSE; EXP_D15; EXP_REUSE; EXP_REUSE; EXP_REUSE];
  [EXP_D25; EXP_REUSE; EXP_D25; EXP_REUSE; EXP_REUSE; EXP_D45];
  [EXP_D25; EXP_REUSE; EXP_D25; EXP_REUSE; EXP_D25; EXP_REUSE];
  [EXP_D25; EXP_REUSE; EXP_D25; EXP_REUSE; EXP_D45; EXP_D45];
  [EXP_D25; EXP_REUSE; EXP_D45; EXP_D25; EXP_REUSE; EXP_REUSE];
  [EXP_D25; EXP_REUSE; EXP_D45; EXP_D25; EXP_REUSE; EXP_D45];
  [EXP_D25; EXP_REUSE; EXP_D45; EXP_D45; EXP_D25; EXP_REUSE];
  [EXP_D25; EXP_REUSE; EXP_D45; EXP_D45; EXP_D45; EXP_D45];
  [EXP_D45; EXP_D15; EXP_REUSE; EXP_REUSE; EXP_REUSE; EXP_REUSE];
  [EXP_D45; EXP_D15; EXP_REUSE; EXP_REUSE; EXP_REUSE; EXP_D45];
  [EXP_D45; EXP_D25; EXP_REUSE; EXP_REUSE; EXP_D25; EXP_REUSE];
  [EXP_D45; EXP_D25; EXP_REUSE; EXP_REUSE; EXP_D45; EXP_D45];
  [EXP_D45; EXP_D25; EXP_REUSE; EXP_D25; EXP_REUSE; EXP_REUSE];
  [EXP_D45; EXP_D25; EXP_REUSE; EXP_D25; EXP_REUSE; EXP_D45];
  [EXP_D45; EXP_D25; EXP_REUSE; EXP_D45; EXP_D25; EXP_REUSE];
  [EXP_D45; EXP_D25; EXP_REUSE; EXP_D45; EXP_D45; EXP_D45];
  [EXP_D45; EXP_D45; EXP_D15; EXP_REUSE; EXP_REUSE; EXP_REUSE];
  [EXP_D45; EXP_D45; EXP_D25; EXP_REUSE; EXP_REUSE; EXP_D45];
  [EXP_D45; EXP_D45; EXP_D25; EXP_REUSE; EXP_D25; EXP_REUSE];
  [EXP_D45; EXP_D45; EXP_D25; EXP_REUSE; EXP_D45; EXP_D45];
  [EXP_D45; EXP_D45; EXP_D45; EXP_D25; EXP_REUSE; EXP_REUSE];
  [EXP_D45; EXP_D45; EXP_D45; EXP_D25; EXP_REUSE; EXP_D45];
  [EXP_D45; EXP_D45; EXP_D45; EXP_D45; EXP_D25; EXP_REUSE];
  [EXP_D45; EXP_D45; EXP_D45; EXP_D45; EXP_D45; EXP_D45]
].

(** * Facts about the tables, by evaluation *)

Lemma zlen_log_add : zlen a52_log_add_tab = 260.
Proof. reflexivity. Qed.
Lemma zlen_bap_tab : zlen a52_bap_tab = 64.
Proof. reflexivity. Qed.
Lemma zlen_hearing_threshold : zlen a52_hearing_threshold_tab = 50.
Proof. reflexivity. Qed.
Lemma zlen_expstr_set : zlen a52_expstr_set_tab = 32.
Proof. reflexivity. Qed.
#[export] Hint Rewrite zlen_log_add zlen_bap_tab zlen_hearing_threshold zlen_expstr_set : carray.

Lemma log_add_range i : 0 ≤ i < 260 → 0 ≤ a52_log_add_tab.[i] ≤ 64.
Proof.
  intros Hi. table_check (λ i, (0 <=? a52_log_add_tab.[i]) && (a52_log_add_tab.[i] <=? 64)) 260 Hi. lia.
Qed.

Lemma bap_tab_range i : 0 ≤ i < 64 → 0 ≤ a52_bap_tab.[i] ≤ 15.
Proof.
  intros Hi. table_check (λ i, (0 <=? a52_bap_tab.[i]) && (a52_bap_tab.[i] <=? 15)) 64 Hi. lia.
Qed.

Lemma bap_tab_mono i j : 0 ≤ i ≤ j → j < 64 → a52_bap_tab.[i] ≤ a52_bap_tab.[j].
Proof.
  intros Hi Hj.
  assert (Hstep : ∀ i, 0 ≤ i < 63 → a52_bap_tab.[i] ≤ a52_bap_tab.[i + 1]).
  { intros k Hk. table_check (λ k, a52_bap_tab.[k] <=? a52_bap_tab.[k + 1]) 63 Hk. lia. }
  assert (Hn : ∀ n : nat, i + Z.of_nat n < 64 → a52_bap_tab.[i] ≤ a52_bap_tab.[i + Z.of_nat n]).
  { induction n as [|n IH]; intros Hn; [by rewrite Z.add_0_r|].
    specialize (Hstep (i + Z.of_nat n) ltac:(lia)).
    replace (i + Z.of_nat (S n)) with (i + Z.of_nat n + 1) by lia. lia. }
  replace j with (i + Z.of_nat (Z.to_nat (j - i))) by lia. apply Hn. lia.
Qed.

(** The strategy sets: every set starts with a new exponent set, and all
    codes are strategies. *)
Lemma expstr_set_tab_ok s :
  0 ≤ s < 32 → zlen a52_expstr_set_tab.[s] = 6 ∧ a52_expstr_set_tab.[s].[0] ≠ EXP_REUSE ∧
    ∀ b, 0 ≤ b < 6 → 0 ≤ a52_expstr_set_tab.[s].[b] ≤ 3.
Proof.
  intros Hs. table_check (λ s, (zlen a52_expstr_set_tab.[s] =? 6) &&
    negb (a52_expstr_set_tab.[s].[0] =? EXP_REUSE) &&
    forallb (λ e, (0 <=? e) && (e <=? 3)) a52_expstr_set_tab.[s]) 32 Hs.
  apply andb_true_iff in Hs as [[Hl H0]%andb_true_iff Hall].
  apply Z.eqb_eq in Hl. apply negb_true_iff, Z.eqb_neq in H0. split_and!; [done|done|].
  intros b Hb. apply (forallb_at _ _ b) in Hall; lia.
Qed.
