(* ===== verification/Types.v ===== *)
(** The data of the encoder: the structures of [libaften/aften-types.h],
    [libaften/a52.h] and [libaften/a52enc.h], one Module per [struct] with the
    C field names (a name that is a Rocq keyword or is taken has a trailing
    underscore), and the constants of the enumerations.  Left out are the
    fields of the threading primitives, the filters and the MDCT. *)
From Stdlib Require Import ZArith Lia ZifyBool.
From stdpp Require Import base option list numbers.
From S2P Require Import Prelude CMachine Float BitIO.
Local Open Scope Z_scope.

(** * [aften-types.h] *)

Definition A52_MAX_CODED_FRAME_SIZE : Z := 3840.
Definition A52_SAMPLES_PER_FRAME : Z := 1536.

(** [AftenOperationMode] *)
Definition AFTEN_ENCODE : Z := 0.
Definition AFTEN_TRANSCODE : Z := 1.

(** [AftenEncMode] *)
Definition AFTEN_ENC_MODE_CBR : Z := 0.
Definition AFTEN_ENC_MODE_VBR : Z := 1.

(** [A52SampleFormat] *)
Definition A52_SAMPLE_FMT_U8 : Z := 0.
Definition A52_SAMPLE_FMT_S16 : Z := 1.
Definition A52_SAMPLE_FMT_S20 : Z := 2.
Definition A52_SAMPLE_FMT_S24 : Z := 3.
Definition A52_SAMPLE_FMT_S32 : Z := 4.
Definition A52_SAMPLE_FMT_FLT : Z := 5.
Definition A52_SAMPLE_FMT_DBL : Z := 6.
Definition A52_SAMPLE_FMT_S8 : Z := 7.

(** [DynRngProfile]: the five profiles come first. *)
Definition DYNRNG_PROFILE_NONE : Z := 5.

Definition A52_ACMOD_DUAL_MONO : Z := 0.
Definition A52_ACMOD_MONO : Z := 1.
Definition A52_ACMOD_STEREO : Z := 2.
Definition A52_ACMOD_3_0 : Z := 3.
Definition A52_ACMOD_2_1 : Z := 4.
Definition A52_ACMOD_3_1 : Z := 5.
Definition A52_ACMOD_2_2 : Z := 6.
Definition A52_ACMOD_3_2 : Z := 7.

(** [AftenEncParams] *)
Module EncParams.
Record t := mk {
  encoding_mode : Z;
  use_rematrixing : Z;
  use_block_switching : Z;
  use_dc_filter : Z;
  use_bw_filter : Z;
  use_lfe_filter : Z;
  bitrate : Z;
  quality : Z;
  bwcode : Z;
  bitalloc_fast : Z;
  expstr_search : Z;
  dynrng_profile : Z;
  min_bwcode : Z;
  max_bwcode : Z
}.
End EncParams.

(** [AftenMetadata] *)
Module Metadata.
Record t := mk {
  cmixlev : Z;
  surmixlev : Z;
  dsurmod : Z;
  dialnorm : Z;
  xbsi1e : Z;
  dmixmod : Z;
  ltrtcmixlev : Z;
  ltrtsmixlev : Z;
  lorocmixlev : Z;
  lorosmixlev : Z;
  xbsi2e : Z;
  dsurexmod : Z;
  dheadphonmod : Z;
  adconvtyp : Z
}.
End Metadata.

(** [AftenStatus] *)
Module Status.
Record t := mk {
  quality : Z;
  bit_rate : Z;
  bwcode : Z
}.
End Status.

(** * [a52.h] *)

Definition A52_MAX_CHANNELS : Z := 6.
Definition A52_NUM_BLOCKS : Z := 6.

(** [AC3DeltaStrategy] *)
Definition DBA_REUSE : Z := 0.
Definition DBA_NEW : Z := 1.
Definition DBA_NONE : Z := 2.
Definition DBA_RESERVED : Z := 3.

(** [A52Block]; [input_samples] and [mdct_coef] are the arrays the pointers of
    the C struct point to. *)
Module Block.
Record t := mk {
  input_samples : list (list FLOAT);
  mdct_coef : list (list FLOAT);
  transient_samples : list (list FLOAT);
  block_num : Z;
  blksw : list Z;
  dithflag : list Z;
  dynrng : Z;
  exp_ : list (list Z);
  psd : list (list Z);
  mask : list (list Z);
  exp_strategy : list Z;
  nexpgrps : list Z;
  grp_exp : list (list Z);
  bap : list (list Z);
  qmant : list (list Z);
  fgaincod : list Z;
  write_snr : Z
}.
#[global] Instance inhabited : Inhabited t :=
  populate (mk [] [] [] 0 [] [] 0 [] [] [] [] [] [] [] [] [] 0).
End Block.

(** [A52BitAllocParams] *)
Module BitAllocParams.
Record t := mk {
  fscod : Z;
  halfratecod : Z;
  fgain : list (list Z);
  sgain : Z; sdecay : Z; fdecay : Z; dbknee : Z; floor_ : Z;
  cplfleak : Z; cplsleak : Z
}.
End BitAllocParams.

(** [A52Frame] *)
Module Frame.
Record t := mk {
  quality : Z;
  bit_rate : Z;
  bwcode : Z;
  input_audio : list (list FLOAT);
  blocks : list Block.t;
  frame_bits : Z;
  exp_bits : Z;
  mant_bits : Z;
  frame_size_min : Z;
  frame_size : Z;
  frmsizecod : Z;
  sgaincod : Z; sdecaycod : Z; fdecaycod : Z; dbkneecod : Z; floorcod : Z;
  bit_alloc : BitAllocParams.t;
  csnroffst : Z;
  fsnroffst : Z;
  ncoefs : list Z;
  expstr_set : list Z;
  rematflg : list Z
}.
End Frame.

(** * [a52enc.h] *)

(** [A52Context]: what the threads share. *)
Module Ctx.
Record t := mk {
  params : EncParams.t;
  meta : Metadata.t;
  n_threads : Z;
  last_samples_count : Z;
  n_channels : Z;
  n_all_channels : Z;
  acmod : Z;
  lfe : Z;
  lfe_channel : Z;
  sample_rate : Z;
  halfratecod : Z;
  bsid : Z;
  fscod : Z;
  bsmod : Z;
  target_bitrate : Z;
  frmsizecod : Z;
  fixed_bwcode : Z
}.
End Ctx.

(** [A52ThreadContext]: what one thread encodes a frame in. *)
Module TCtx.
Record t := mk {
  thread_num : Z;
  framesize : Z;
  status : Status.t;
  frame : Frame.t;
  bw : BitWriter;
  bit_cnt : Z;
  sample_cnt : Z;
  last_quality : Z
}.
End TCtx.

(** [AftenContext]: the library's user's view. *)
Module AftenContext.
Record t := mk {
  params : EncParams.t;
  meta : Metadata.t;
  status : Status.t;
  n_threads : Z;
  mode : Z;
  verbose : Z;
  channels : Z;
  acmod : Z;
  lfe : Z;
  samplerate : Z;
  sample_format : Z
}.
End AftenContext.

(** * Well-formed blocks

    The dimensions of the arrays of a block, and the blocks of a frame with one
    field of one channel replaced. *)

Definition dim2 {A} (n m : Z) (l : list (list A)) : Prop :=
  zlen l = n ∧ ∀ i, 0 ≤ i < n → zlen (at_ l i) = m.

Record block_wf (b : Block.t) : Prop := {
  wf_mdct_coef : dim2 6 256 (Block.mdct_coef b);
  wf_blksw : zlen (Block.blksw b) = 6;
  wf_dithflag : zlen (Block.dithflag b) = 6;
  wf_exp : dim2 6 256 (Block.exp_ b);
  wf_psd : dim2 6 256 (Block.psd b);
  wf_mask : dim2 6 50 (Block.mask b);
  wf_exp_strategy : zlen (Block.exp_strategy b) = 6;
  wf_nexpgrps : zlen (Block.nexpgrps b) = 6;
  wf_grp_exp : dim2 6 85 (Block.grp_exp b);
  wf_bap : dim2 6 256 (Block.bap b);
  wf_qmant : dim2 6 256 (Block.qmant b);
  wf_fgaincod : zlen (Block.fgaincod b) = 6
}.

Definition blocks_wf (blocks : list Block.t) : Prop :=
  zlen blocks = 6 ∧ ∀ k, 0 ≤ k < 6 → block_wf (at_ blocks k).

Lemma dim2_ext {A} `{Inhabited A} n m (l k : list (list A)) :
  dim2 n m l → dim2 n m k → (∀ i j, 0 ≤ i < n → 0 ≤ j < m → at_ (at_ l i) j = at_ (at_ k i) j) → l = k.
Proof.
  intros [Hl Hlr] [Hk Hkr] Hat. apply array_ext; [lia|]. intros i Hi. apply array_ext; [rewrite Hlr, Hkr; lia|].
  intros j Hj. apply Hat; [lia|]. rewrite Hlr in Hj; lia.
Qed.

Lemma dim2_upd {A} n m (l : list (list A)) i r :
  dim2 n m l → 0 ≤ i < n → zlen r = m → dim2 n m (upd l i r).
Proof.
  intros [Hl Hr] Hi Hm. split; [by rewrite zlen_upd|]. intros j Hj.
  rewrite at_upd by lia. destruct (Z.eqb_spec j i); [done|]. by apply Hr.
Qed.

Lemma dim2_row {A} n m (l : list (list A)) i : dim2 n m l → 0 ≤ i < n → zlen (at_ l i) = m.
Proof. intros [_ Hr]. apply Hr. Qed.

Lemma aget2_at {A} `{Inhabited A} n w (m : list (list A)) i j :
  dim2 n w m → 0 ≤ i < n → 0 ≤ j < w → aget2 m i j = Some (at_ (at_ m i) j).
Proof.
  intros Hd Hi Hj. pose proof (proj1 Hd). pose proof (dim2_row _ _ _ i Hd Hi). unfold aget2.
  rewrite aget_at by lia. simpl. by rewrite aget_at by lia.
Qed.

Lemma blocks_wf_upd blocks k b :
  blocks_wf blocks → 0 ≤ k < 6 → block_wf b → blocks_wf (upd blocks k b).
Proof.
  intros [Hl Hb] Hk Hwf. split; [by rewrite zlen_upd|]. intros j Hj.
  rewrite at_upd by lia. destruct (Z.eqb_spec j k); [done|]. by apply Hb.
Qed.

(** The channel counts of a context agree: at most five full-bandwidth
    channels, with the LFE channel after them. *)
Record channels_ok (ctx : Ctx.t) : Prop := {
  ch_n : 1 ≤ Ctx.n_channels ctx ≤ 5;
  ch_lfe : Ctx.lfe ctx = 0 ∨ Ctx.lfe ctx = 1;
  ch_all : Ctx.n_all_channels ctx = Ctx.n_channels ctx + Ctx.lfe ctx;
  ch_lfe_channel : Ctx.lfe_channel ctx = if Ctx.lfe ctx =? 0 then -1 else Ctx.n_channels ctx
}.

(** * Zeroed structures

    [encode_init] allocates the contexts with [calloc]: every field starts at
    zero.  They also serve as concrete states. *)

Definition zero_float : FLOAT := S754_zero false.
Definition zero_block : Block.t := {|
  Block.input_samples := replicate 6 (replicate 512 zero_float);
  Block.mdct_coef := replicate 6 (replicate 256 zero_float);
  Block.transient_samples := replicate 6 (replicate 512 zero_float);
  Block.block_num := 0;
  Block.blksw := replicate 6 0;
  Block.dithflag := replicate 6 0;
  Block.dynrng := 0;
  Block.exp_ := replicate 6 (replicate 256 0);
  Block.psd := replicate 6 (replicate 256 0);
  Block.mask := replicate 6 (replicate 50 0);
  Block.exp_strategy := replicate 6 0;
  Block.nexpgrps := replicate 6 0;
  Block.grp_exp := replicate 6 (replicate 85 0);
  Block.bap := replicate 6 (replicate 256 0);
  Block.qmant := replicate 6 (replicate 256 0);
  Block.fgaincod := replicate 6 0;
  Block.write_snr := 0
|}.

Definition zero_frame : Frame.t := {|
  Frame.quality := 0; Frame.bit_rate := 0; Frame.bwcode := 0;
  Frame.input_audio := replicate 6 (replicate 1536 zero_float);
  Frame.blocks := replicate 6 zero_block;
  Frame.frame_bits := 0; Frame.exp_bits := 0; Frame.mant_bits := 0;
  Frame.frame_size_min := 0; Frame.frame_size := 0; Frame.frmsizecod := 0;
  Frame.sgaincod := 0; Frame.sdecaycod := 0; Frame.fdecaycod := 0; Frame.dbkneecod := 0;
  Frame.floorcod := 0;
  Frame.bit_alloc := BitAllocParams.mk 0 0 (replicate 6 (replicate 6 0)) 0 0 0 0 0 0 0;
  Frame.csnroffst := 0; Frame.fsnroffst := 0;
  Frame.ncoefs := replicate 6 0;
  Frame.expstr_set := replicate 6 0;
  Frame.rematflg := replicate 4 0
|}.

Lemma dim2_replicate {A} n m (x : A) : dim2 (Z.of_nat n) (Z.of_nat m) (replicate n (replicate m x)).
Proof.
  split; [by rewrite zlen_replicate|]. intros i Hi. rewrite at_replicate by lia. by rewrite zlen_replicate.
Qed.

Lemma zero_block_wf : block_wf zero_block.
Proof.
  split; lazymatch goal with
    | |- dim2 _ ?m _ => exact (dim2_replicate 6 (Z.to_nat m) _)
    | _ => reflexivity
    end.
Qed.

Lemma blocks_wf_replicate b : block_wf b → blocks_wf (replicate 6 b).
Proof.
  intros Hb. split; [by rewrite zlen_replicate|]. intros k Hk. by rewrite at_replicate by (simpl; lia).
Qed.
