(* ===== verification/Util.v ===== *)
(** [libaften/util.c] and the logarithm of [libaften/a52.h]: integer logarithm
    by table, number of channels of a WAVE channel mask, choice of the audio
    coding mode, and the channel remappings. *)
From Stdlib Require Import ZArith Lia ZifyBool Bool.
From stdpp Require Import base option list numbers sorting.
From S2P Require Import Prelude CMachine Tables Types.
Local Open Scope Z_scope.
Local Open Scope carray_scope.

(** * The code *)

Definition ch_to_acmod : list Z :=
  [A52_ACMOD_MONO; A52_ACMOD_STEREO; A52_ACMOD_3_0; A52_ACMOD_2_2; A52_ACMOD_3_2; A52_ACMOD_3_2].

Definition log2tab : list Z := [
  0; 0; 1; 1; 2; 2; 2; 2; 3; 3; 3; 3; 3; 3; 3; 3; 4; 4; 4; 4; 4; 4; 4; 4;
  4; 4; 4; 4; 4; 4; 4; 4; 5; 5; 5; 5; 5; 5; 5; 5; 5; 5; 5; 5; 5; 5; 5; 5;
  5; 5; 5; 5; 5; 5; 5; 5; 5; 5; 5; 5; 5; 5; 5; 5; 6; 6; 6; 6; 6; 6; 6; 6;
  6; 6; 6; 6; 6; 6; 6; 6; 6; 6; 6; 6; 6; 6; 6; 6; 6; 6; 6; 6; 6; 6; 6; 6;
  6; 6; 6; 6; 6; 6; 6; 6; 6; 6; 6; 6; 6; 6; 6; 6; 6; 6; 6; 6; 6; 6; 6; 6;
  6; 6; 6; 6; 6; 6; 6; 6; 7; 7; 7; 7; 7; 7; 7; 7; 7; 7; 7; 7; 7; 7; 7; 7;
  7; 7; 7; 7; 7; 7; 7; 7; 7; 7; 7; 7; 7; 7; 7; 7; 7; 7; 7; 7; 7; 7; 7; 7;
  7; 7; 7; 7; 7; 7; 7; 7; 7; 7; 7; 7; 7; 7; 7; 7; 7; 7; 7; 7; 7; 7; 7; 7;
  7; 7; 7; 7; 7; 7; 7; 7; 7; 7; 7; 7; 7; 7; 7; 7; 7; 7; 7; 7; 7; 7; 7; 7;
  7; 7; 7; 7; 7; 7; 7; 7; 7; 7; 7; 7; 7; 7; 7; 7; 7; 7; 7; 7; 7; 7; 7; 7;
  7; 7; 7; 7; 7; 7; 7; 7; 7; 7; 7; 7; 7; 7; 7; 7
].

Definition log2i (v : Z) : option Z :=
  let n := 0 in
  let '(v, n) := if negb (Z.land v 0xffff0000 =? 0) then (Z.shiftr v 16, n + 16) else (v, n) in
  let '(v, n) := if negb (Z.land v 0xff00 =? 0) then (Z.shiftr v 8, n + 8) else (v, n) in
  t ← aget log2tab v;
  Some (n + t).

Definition chmask_get_num_channels (chmask : Z) : option Z :=
  '(_, count) ← while_loop 32 (λ '(chmask, _), negb (chmask =? 0))
    (λ '(chmask, count), Some (Z.land chmask (u32 (chmask - 1)), count + 1)) (chmask, 0);
  Some count.

(** The switch on the full-bandwidth layout. *)
Definition layout_acmod (chmask : Z) : option Z :=
  if chmask =? 0x004 then Some A52_ACMOD_MONO
  else if chmask =? 0x003 then Some A52_ACMOD_STEREO
  else if chmask =? 0x007 then Some A52_ACMOD_3_0
  else if chmask =? 0x103 then Some A52_ACMOD_2_1
  else if chmask =? 0x107 then Some A52_ACMOD_3_1
  else if (chmask =? 0x033) || (chmask =? 0x603) then Some A52_ACMOD_2_2
  else if (chmask =? 0x037) || (chmask =? 0x607) then Some A52_ACMOD_3_2
  else None.

(** The result is the return value with the values stored to [*acmod] and
    [*lfe] on success. *)
Definition aften_wav_channels_to_acmod (ch chmask : Z) : option (Z * option (Z * Z)) :=
  if (ch <? 1) || (A52_MAX_CHANNELS <? ch) then Some (-1, None) else
  let chmask := Z.land chmask 0x7FFFFFFF in
  if chmask =? 0 then
    let tmp_lfe := Z.b2z (ch =? 6) in
    let ch := if negb (tmp_lfe =? 0) then ch - 1 else ch in
    tmp_acmod ← aget ch_to_acmod (ch - 1);
    Some (0, Some (tmp_acmod, tmp_lfe))
  else
    n ← chmask_get_num_channels chmask;
    if negb (n =? ch) then Some (-1, None) else
    let tmp_lfe := Z.b2z (negb (Z.land chmask 0x08 =? 0)) in
    let chmask := if negb (tmp_lfe =? 0) then chmask - 0x08 else chmask in
    tmp_acmod ← match layout_acmod chmask with
                | Some a => Some a
                | None => aget ch_to_acmod (ch - 1)
                end;
    Some (0, Some (tmp_acmod, tmp_lfe)).

(** [wav_chmap[acmod][lfe][ch]]; short initialisers are zero-filled. *)
Definition wav_chmap : list (list (list Z)) := [
  [[0; 1; 0; 0; 0; 0]; [0; 1; 2; 0; 0; 0]];
  [[0; 0; 0; 0; 0; 0]; [0; 1; 0; 0; 0; 0]];
  [[0; 1; 0; 0; 0; 0]; [0; 1; 2; 0; 0; 0]];
  [[0; 2; 1; 0; 0; 0]; [0; 2; 1; 3; 0; 0]];
  [[0; 1; 2; 0; 0; 0]; [0; 1; 3; 2; 0; 0]];
  [[0; 2; 1; 3; 0; 0]; [0; 2; 1; 4; 3; 0]];
  [[0; 1; 2; 3; 4; 0]; [0; 1; 3; 4; 2; 0]];
  [[0; 2; 1; 3; 4; 0]; [0; 2; 1; 4; 5; 3]]
].

Section remap.
Context {A : Type}.
(** The samples are of the type that [fmt] selects; the code is the same for
    all of them. *)

Definition fmt_known (fmt : Z) : bool := (A52_SAMPLE_FMT_U8 <=? fmt) && (fmt <=? A52_SAMPLE_FMT_S8).

(** [REMAP_WAV_TO_A52_COMMON]: [tmp] is a copy of the [ch] samples of a frame. *)
Definition REMAP_WAV_TO_A52_COMMON (smp : list A) (n ch acmod lfe : Z) : option (list A) :=
  for_up 0 n (λ k smp,
    let i := k * ch in
    tmp ← (if (ch <=? 6) && (0 <=? i) && (i + ch <=? zlen smp) then Some (slice smp i ch) else None);
    for_up 0 ch (λ j smp,
      m ← aget wav_chmap acmod; row ← aget m lfe; c ← aget row j;
      v ← aget tmp c;
      aset smp (i + j) v) smp) smp.

Definition aften_remap_wav_to_a52 (samples : option (list A)) (n ch fmt acmod : Z)
    : option (option (list A)) :=
  match samples with
  | None => Some None
  | Some smp =>
      nfull ← aget a52_channels_tab acmod;
      let lfe := if ch >? nfull then 1 else 0 in
      if (acmod <? 3) || (((acmod =? 4) || (acmod =? 6)) && (lfe =? 0)) then Some samples
      else if fmt_known fmt then smp ← REMAP_WAV_TO_A52_COMMON smp n ch acmod lfe; Some (Some smp)
      else Some samples
  end.

Definition REMAP_MPEG_TO_A52_COMMON (smp : list A) (n ch : Z) : option (list A) :=
  for_up 0 n (λ k smp,
    let i := k * ch in
    tmp ← aget smp i;
    v ← aget smp (i + 1);
    smp ← aset smp i v;
    aset smp (i + 1) tmp) smp.

Definition aften_remap_mpeg_to_a52 (samples : option (list A)) (n ch fmt acmod : Z)
    : option (option (list A)) :=
  match samples with
  | None => Some None
  | Some smp =>
      if (acmod <=? 2) || (Z.land acmod 1 =? 0) then Some samples
      else if fmt_known fmt then smp ← REMAP_MPEG_TO_A52_COMMON smp n ch; Some (Some smp)
      else Some samples
  end.
End remap.

(** * Lemmas *)

Lemma log2tab_spec v : 0 ≤ v < 256 → log2tab.[v] = Z.log2 v.
Proof. intros Hv. table_check (λ v, log2tab.[v] =? Z.log2 v) 256 Hv. lia. Qed.

Lemma land_high v k n : 0 ≤ k → 0 ≤ n → 0 ≤ v < 2 ^ (k + n) →
  Z.land v (Z.shiftl (Z.ones n) k) = Z.shiftl (Z.shiftr v k) k.
Proof.
  intros Hk Hn Hv. rewrite <- (Z.mod_small v (2 ^ (k + n))) by done. bits_eq; bits_simp.
Qed.

Lemma land_high_test v k n : 0 ≤ k → 0 ≤ n → 0 ≤ v < 2 ^ (k + n) →
  negb (Z.land v (Z.shiftl (Z.ones n) k) =? 0) = (2 ^ k <=? v).
Proof.
  intros Hk Hn Hv. rewrite land_high, Z.shiftl_mul_pow2, Z.shiftr_div_pow2 by lia.
  assert (0 < 2 ^ k) by (apply Z.pow_pos_nonneg; lia).
  destruct (Z.leb_spec (2 ^ k) v).
  - assert (1 ≤ v / 2 ^ k) by (apply Z.div_le_lower_bound; lia).
    destruct (Z.eqb_spec (v / 2 ^ k * 2 ^ k) 0); [nia|done].
  - by rewrite Z.div_small by lia.
Qed.

(** One step of the binary search. *)
Lemma log2_shift v k : 0 ≤ k → 2 ^ k ≤ v → Z.log2 v = k + Z.log2 (Z.shiftr v k).
Proof.
  intros Hk Hv. assert (0 < 2 ^ k) by (apply Z.pow_pos_nonneg; lia).
  rewrite Z.log2_shiftr by lia.
  pose proof (Z.log2_le_mono _ _ Hv) as Hm. rewrite Z.log2_pow2 in Hm by lia. lia.
Qed.

Lemma shiftr_small v k n : 0 ≤ k → 0 ≤ n → 0 ≤ v < 2 ^ (k + n) → 0 ≤ Z.shiftr v k < 2 ^ n.
Proof.
  intros Hk Hn Hv. rewrite Z.shiftr_div_pow2 by lia.
  assert (0 < 2 ^ k) by (apply Z.pow_pos_nonneg; lia). rewrite Z.pow_add_r in Hv by lia.
  split; [apply Z.div_pos; lia | apply Z.div_lt_upper_bound; lia].
Qed.

Lemma log2i_spec v : 0 ≤ v < 2 ^ 32 → log2i v = Some (Z.log2 v).
Proof.
  intros Hv. unfold log2i.
  change 0xffff0000 with (Z.shiftl (Z.ones 16) 16). change 0xff00 with (Z.shiftl (Z.ones 8) 8).
  rewrite (land_high_test v 16 16) by (lia || done).
  assert (Hrest : ∀ w n, 0 ≤ w < 2 ^ 16 →
    (let '(v, n) := if negb (Z.land w (Z.shiftl (Z.ones 8) 8) =? 0) then (Z.shiftr w 8, n + 8) else (w, n) in
     t ← aget log2tab v; Some (n + t)) = Some (n + Z.log2 w)).
  { intros w n Hw. rewrite (land_high_test w 8 8) by (lia || done).
    change (2 ^ 8) with 256. destruct (Z.leb_spec 256 w).
    - pose proof (shiftr_small w 8 8 ltac:(lia) ltac:(lia) Hw). change (2 ^ 8) with 256 in *.
      rewrite aget_at by (change (zlen log2tab) with 256; lia). simpl mbind.
      rewrite log2tab_spec by lia. rewrite (log2_shift w 8) by lia. f_equal. lia.
    - rewrite aget_at by (change (zlen log2tab) with 256; lia). simpl mbind.
      by rewrite log2tab_spec by lia. }
  destruct (Z.leb_spec (2 ^ 16) v).
  - rewrite (log2_shift v 16) by lia. apply (Hrest (Z.shiftr v 16) (0 + 16)).
    apply (shiftr_small v 16 16); lia.
  - apply (Hrest v 0). lia.
Qed.

(** The number of bits set. *)
Fixpoint pos_popcount (p : positive) : Z :=
  match p with
  | xH => 1
  | xO p => pos_popcount p
  | xI p => 1 + pos_popcount p
  end.
Definition popcount (v : Z) : Z := match v with Zpos p => pos_popcount p | _ => 0 end.

Lemma popcount_double v : 0 ≤ v → popcount (2 * v) = popcount v.
Proof. by destruct v. Qed.

Lemma land_double a b : Z.land (2 * a) (2 * b + 1) = 2 * Z.land a b.
Proof.
  apply Z.bits_inj'. intros i Hi. rewrite Z.land_spec.
  destruct (Z.eq_dec i 0) as [->|].
  - by rewrite !Z.testbit_even_0.
  - replace i with (Z.succ (i - 1)) by lia.
    by rewrite !Z.testbit_even_succ, Z.testbit_odd_succ, Z.land_spec by lia.
Qed.

(** Clearing the lowest bit set. *)
Lemma clear_lowest p :
  0 ≤ Z.land (Zpos p) (Zpos p - 1) < Zpos p ∧
  popcount (Z.land (Zpos p) (Zpos p - 1)) = popcount (Zpos p) - 1.
Proof.
  induction p as [p IH|p IH|].
  - replace (Z.land (Zpos p~1) (Zpos p~1 - 1)) with (2 * Zpos p).
    + split; [lia|]. change (popcount (2 * Zpos p)) with (pos_popcount p).
      change (popcount (Zpos p~1)) with (1 + pos_popcount p). lia.
    + replace (Zpos p~1 - 1) with (2 * Zpos p) by lia.
      rewrite Z.land_comm. change (Zpos p~1) with (2 * Zpos p + 1).
      by rewrite land_double, Z.land_diag.
  - replace (Z.land (Zpos p~0) (Zpos p~0 - 1)) with (2 * Z.land (Zpos p) (Zpos p - 1)).
    + rewrite popcount_double by lia. change (popcount (Zpos p~0)) with (popcount (Zpos p)). lia.
    + rewrite <- land_double. f_equal. lia.
  - change (Z.land 1 (1 - 1)) with 0. split; [lia|done].
Qed.

Lemma popcount_bound n v : 0 ≤ v < 2 ^ Z.of_nat n → 0 ≤ popcount v ≤ Z.of_nat n.
Proof.
  intros Hv. destruct v as [|p|p]; [simpl; lia| |lia]. simpl popcount. revert n Hv.
  induction p as [p IH|p IH|]; intros n Hv.
  - destruct n as [|n]; [simpl in Hv; lia|]. rewrite Nat2Z.inj_succ, Z.pow_succ_r in Hv by lia.
    specialize (IH n ltac:(lia)). cbn [pos_popcount]. lia.
  - destruct n as [|n]; [simpl in Hv; lia|]. rewrite Nat2Z.inj_succ, Z.pow_succ_r in Hv by lia.
    specialize (IH n ltac:(lia)). cbn [pos_popcount]. lia.
  - destruct n as [|n]; [simpl in Hv; lia|]. cbn [pos_popcount]. lia.
Qed.

Lemma chmask_get_num_channels_spec chmask :
  0 ≤ chmask < 2 ^ 32 →
  chmask_get_num_channels chmask = Some (popcount chmask).
Proof.
  intros Hc. pose proof (popcount_bound 32 chmask Hc).
  assert (Hw : wp (chmask_get_num_channels chmask) (λ n, n = popcount chmask)).
  { unfold chmask_get_num_channels. apply wp_bind.
    apply (wp_while (λ '(m, n), 0 ≤ m < 2 ^ 32 ∧ n + popcount m = popcount chmask)
                    (λ '(m, _), Z.to_nat (popcount m))).
    - lia.
    - lia.
    - intros [m n] [Hm Hn] Hc'. simpl in Hc'. destruct m as [|p|p]; [done| |lia]. clear Hc'.
      apply wp_ret. pose proof (clear_lowest p) as [Hr Hpc]. rewrite u32_id by lia.
      assert (0 ≤ popcount (Z.land (Zpos p) (Zpos p - 1))).
      { clear. unfold popcount. destruct (Z.land _ _) as [|q|]; try done. induction q; simpl; lia. }
      rewrite Hpc in *. split; lia.
    - intros [m n] [Hm Hn] Hc'. simpl in Hc'. destruct (Z.eqb_spec m 0) as [-> |]; [|done].
      apply wp_ret. change (popcount 0) with 0 in Hn. lia. }
  apply wp_some in Hw as (n & -> & ->). done.
Qed.

(** * Channel remapping *)

(** The row of the channel map in use. *)
Definition chmap_row (acmod lfe : Z) : list Z := wav_chmap.[acmod].[lfe].

(** The first [ch] entries of a row are a permutation of the channels. *)
Lemma chmap_row_perm acmod lfe :
  0 ≤ acmod < 8 → 0 ≤ lfe < 2 →
  Permutation (take (Z.to_nat (a52_channels_tab.[acmod] + lfe)) (chmap_row acmod lfe))
              (map Z.of_nat (seq 0 (Z.to_nat (a52_channels_tab.[acmod] + lfe)))).
Proof.
  intros Ha Hl.
  table_check (λ a, forallb (λ l, bool_decide
      (merge_sort Z.le (take (Z.to_nat (a52_channels_tab.[a] + l)) (chmap_row a l)) =
       map Z.of_nat (seq 0 (Z.to_nat (a52_channels_tab.[a] + l))))) [0; 1]) 8 Ha.
  rewrite forallb_forall in Ha. specialize (Ha lfe ltac:(simpl; lia)).
  apply bool_decide_eq_true_1 in Ha. rewrite <- Ha. symmetry. apply merge_sort_Permutation.
Qed.

Lemma chmap_row_entry acmod lfe j :
  0 ≤ acmod < 8 → 0 ≤ lfe < 2 → 0 ≤ j < a52_channels_tab.[acmod] + lfe →
  zlen (chmap_row acmod lfe) = 6 ∧ a52_channels_tab.[acmod] + lfe ≤ 6 ∧
  0 ≤ (chmap_row acmod lfe).[j] < a52_channels_tab.[acmod] + lfe.
Proof.
  intros Ha Hl Hj.
  table_check (λ a, forallb (λ l, (zlen (chmap_row a l) =? 6) && (a52_channels_tab.[a] + l <=? 6) &&
    forallb (λ j, negb (Z.of_nat j <? a52_channels_tab.[a] + l) ||
      ((0 <=? (chmap_row a l).[Z.of_nat j]) && ((chmap_row a l).[Z.of_nat j] <? a52_channels_tab.[a] + l))) (seq 0 6))
    [0; 1]) 8 Ha.
  rewrite forallb_forall in Ha. specialize (Ha lfe ltac:(simpl; lia)).
  apply andb_true_iff in Ha as [[H6 Hle]%andb_true_iff Hr]. rewrite forallb_forall in Hr.
  specialize (Hr (Z.to_nat j) ltac:(apply in_seq; lia)). rewrite Z2Nat.id in Hr by lia. lia.
Qed.

Lemma wav_chmap_rows acmod : 0 ≤ acmod < 8 → zlen wav_chmap.[acmod] = 2.
Proof. intros Ha. table_check (λ a, zlen wav_chmap.[a] =? 2) 8 Ha. lia. Qed.

Section remap_spec.
Context {A : Type} `{Inhabited A}.

(** Sample [t] after remapping the first [n] frames of [ch] channels. *)
Definition remapped (row : list Z) (smp : list A) (n ch t : Z) : A :=
  if t <? n * ch then smp.[t / ch * ch + row.[t mod ch]] else smp.[t].

Lemma frame_index k ch j : 0 < ch → 0 ≤ j < ch → (k * ch + j) / ch = k ∧ (k * ch + j) mod ch = j.
Proof.
  intros Hc Hj. split.
  - rewrite Z.div_add_l, Z.div_small by lia. lia.
  - rewrite Z.add_comm, Z.mod_add, Z.mod_small by lia. done.
Qed.

Lemma remap_wav_spec smp n acmod lfe :
  0 ≤ acmod < 8 → 0 ≤ lfe < 2 → 0 ≤ n → let ch := a52_channels_tab.[acmod] + lfe in
  0 < ch → n * ch ≤ zlen smp →
  wp (REMAP_WAV_TO_A52_COMMON smp n ch acmod lfe) (λ smp', zlen smp' = zlen smp ∧
    ∀ t, 0 ≤ t → smp'.[t] = remapped (chmap_row acmod lfe) smp n ch t).
Proof.
  intros Ha Hl Hn ch Hch Hlen. unfold REMAP_WAV_TO_A52_COMMON.
  apply (wp_for_up (λ k s, zlen s = zlen smp ∧ ∀ t, 0 ≤ t → s.[t] = remapped (chmap_row acmod lfe) smp k ch t)).
  - lia.
  - split; [done|]. intros t Ht. unfold remapped. by rewrite (proj2 (Z.ltb_ge t (0 * ch))) by lia.
  - intros k s Hk [Hsl Hs]. cbv zeta.
    pose proof (chmap_row_entry acmod lfe 0 Ha Hl ltac:(fold ch; lia)) as (Hrow & H6 & _). fold ch in H6.
    assert (k * ch + ch ≤ zlen smp) by nia.
    replace ((ch <=? 6) && (0 <=? k * ch) && (k * ch + ch <=? zlen s)) with true by nia. simpl mbind.
    apply (wp_for_up (λ j s', zlen s' = zlen smp ∧
      ∀ t, 0 ≤ t → s'.[t] = if (k * ch <=? t) && (t <? k * ch + j)
                            then smp.[k * ch + (chmap_row acmod lfe).[t - k * ch]] else s.[t])).
    + lia.
    + split; [done|]. intros t Ht. by replace ((k * ch <=? t) && (t <? k * ch + 0)) with false by lia.
    + intros j s' Hj [Hsl' Hs'].
      pose proof (chmap_row_entry acmod lfe j Ha Hl ltac:(fold ch; lia)) as (_ & _ & Hc). fold ch in Hc.
      wp_step. apply wp_aget; [change (zlen wav_chmap) with 8; lia|].
      wp_step. apply wp_aget; [rewrite wav_chmap_rows by lia; lia|]. fold (chmap_row acmod lfe).
      wp_step. wp_step. wp_step. apply wp_aget; [rewrite zlen_slice by nia; lia|].
      wp_step. rewrite zlen_upd. split; [done|]. intros t Ht.
      rewrite at_upd, Hs' by nia. destruct (Z.eqb_spec t (k * ch + j)) as [->|].
      * replace ((k * ch <=? k * ch + j) && (k * ch + j <? k * ch + (j + 1))) with true by lia.
        rewrite at_slice, Hs by nia. unfold remapped.
        rewrite (proj2 (Z.ltb_ge _ (k * ch))) by lia. do 2 f_equal. f_equal. lia.
      * by replace (t <? k * ch + (j + 1)) with (t <? k * ch + j) by lia.
    + intros s' [Hsl' Hs']. split; [done|]. intros t Ht. rewrite Hs', Hs by done. unfold remapped.
      destruct (Z.ltb_spec t (k * ch)).
      * replace (k * ch <=? t) with false by lia. simpl. by replace (t <? (k + 1) * ch) with true by nia.
      * replace (k * ch <=? t) with true by lia. simpl.
        replace (t <? (k + 1) * ch) with (t <? k * ch + ch) by nia.
        destruct (Z.ltb_spec t (k * ch + ch)); [|done].
        destruct (frame_index k ch (t - k * ch) Hch ltac:(lia)) as [Hd Hm].
        replace (k * ch + (t - k * ch)) with t in * by lia. by rewrite Hd, Hm.
  - done.
Qed.
End remap_spec.

Section mpeg_spec.
Context {A : Type} `{Inhabited A}.

Lemma remap_mpeg_spec (smp : list A) n ch :
  0 ≤ n → 2 ≤ ch → n * ch ≤ zlen smp →
  wp (REMAP_MPEG_TO_A52_COMMON smp n ch) (λ smp', zlen smp' = zlen smp ∧
    ∀ t, 0 ≤ t → smp'.[t] = if t <? n * ch then
        smp.[t / ch * ch + (if t mod ch =? 0 then 1 else if t mod ch =? 1 then 0 else t mod ch)] else smp.[t]).
Proof.
  intros Hn Hch Hlen. unfold REMAP_MPEG_TO_A52_COMMON.
  apply (wp_for_up (λ k s, zlen s = zlen smp ∧ ∀ t, 0 ≤ t → s.[t] = if t <? k * ch then
        smp.[t / ch * ch + (if t mod ch =? 0 then 1 else if t mod ch =? 1 then 0 else t mod ch)] else smp.[t])).
  - lia.
  - split; [done|]. intros t Ht. by replace (t <? 0 * ch) with false by lia.
  - intros k s Hk [Hsl Hs]. assert (k * ch + ch ≤ zlen smp) by nia.
    assert (0 ≤ k * ch) by nia. wp_steps. rewrite !zlen_upd. split; [done|]. intros t Ht.
    rewrite !at_upd by (rewrite ?zlen_upd; lia). rewrite !Hs by lia.
    replace (k * ch <? k * ch) with false by lia. replace (k * ch + 1 <? k * ch) with false by lia.
    replace ((k + 1) * ch) with (k * ch + ch) by lia.
    destruct (Z.ltb_spec t (k * ch)).
    { rewrite (proj2 (Z.eqb_neq t _)), (proj2 (Z.eqb_neq t _)) by lia.
      by replace (t <? k * ch + ch) with true by lia. }
    destruct (Z.ltb_spec t (k * ch + ch)).
    + destruct (frame_index k ch (t - k * ch) ltac:(lia) ltac:(lia)) as [Hd Hm].
      replace (k * ch + (t - k * ch)) with t in * by lia. rewrite Hd, Hm.
      destruct (Z.eqb_spec t (k * ch + 1)), (Z.eqb_spec t (k * ch)),
        (Z.eqb_spec (t - k * ch) 0), (Z.eqb_spec (t - k * ch) 1); try lia; f_equal; lia.
    + rewrite (proj2 (Z.eqb_neq t _)), (proj2 (Z.eqb_neq t _)) by lia. done.
  - done.
Qed.
End mpeg_spec.

(** * Properties *)

(** [log2i] is the integer logarithm of every 32-bit number (0 for 0). *)
Theorem log2i_is_log2 v : 0 ≤ v < 2 ^ 32 → log2i v = Some (Z.log2 v).
Proof. apply log2i_spec. Qed.

Lemma log2i_is_log2_witness : log2i 70000 = Some (Z.log2 70000).
Proof. apply (log2i_is_log2 70000). lia. Defined.

(** The layout the switch looks at: the mask without the LFE bit. *)
Definition fbw_mask (mask : Z) : Z := if negb (Z.land mask 0x08 =? 0) then mask - 0x08 else mask.
Definition lfe_of_mask (mask : Z) : Z := Z.b2z (negb (Z.land mask 0x08 =? 0)).

(** [aften_wav_channels_to_acmod] fails exactly for a channel count out of
    1 to 6 and for a mask with another number of bits.  On success the acmod and
    LFE flag stand for the [ch] channels of the input whenever the mask is zero
    or one of the known layouts; for any other mask the acmod is chosen for
    [min(ch, 5)] full-bandwidth channels although [ch] counts the LFE channel
    too, so that with the LFE bit set acmod and LFE stand for one channel more
    than there is. *)
Theorem wav_channels_to_acmod_counts ch chmask :
  0 ≤ chmask < 2 ^ 32 → let mask := Z.land chmask 0x7FFFFFFF in
  wp (aften_wav_channels_to_acmod ch chmask) (λ '(ret, out), match out with
    | None => ret = -1 ∧ (ch < 1 ∨ 6 < ch ∨ (mask ≠ 0 ∧ popcount mask ≠ ch))
    | Some (acmod, lfe) => ret = 0 ∧ 1 ≤ ch ≤ 6 ∧ 0 < acmod < 8 ∧ 0 ≤ lfe ≤ 1 ∧
        (mask = 0 → a52_channels_tab.[acmod] + lfe = ch) ∧
        (mask ≠ 0 → popcount mask = ch ∧ lfe = lfe_of_mask mask ∧
           match layout_acmod (fbw_mask mask) with
           | Some a => acmod = a ∧ a52_channels_tab.[acmod] + lfe = ch
           | None => a52_channels_tab.[acmod] = Z.min ch 5
           end)
    end).
Proof.
  intros Hm mask. unfold aften_wav_channels_to_acmod.
  destruct ((ch <? 1) || (A52_MAX_CHANNELS <? ch)) eqn:Hch.
  { apply wp_ret. unfold A52_MAX_CHANNELS in Hch. split; [done|lia]. }
  unfold A52_MAX_CHANNELS in Hch. assert (Hch6 : 1 ≤ ch ≤ 6) by lia. clear Hch. fold mask. cbv zeta.
  assert (Hdef : ∀ c, 1 ≤ c ≤ 6 → aget ch_to_acmod (c - 1) = Some ch_to_acmod.[c - 1] ∧
    0 < ch_to_acmod.[c - 1] < 8 ∧ a52_channels_tab.[ch_to_acmod.[c - 1]] = Z.min c 5).
  { intros c Hc. split; [apply aget_at; change (zlen ch_to_acmod) with 6; lia|].
    assert (Hc' : 0 ≤ c < 7) by lia.
    table_check (λ c, (c =? 0) || (0 <? ch_to_acmod.[c - 1]) && (ch_to_acmod.[c - 1] <? 8) &&
      (a52_channels_tab.[ch_to_acmod.[c - 1]] =? Z.min c 5)) 7 Hc'. lia. }
  destruct (Z.eqb_spec mask 0) as [H0|H0].
  - destruct (Z.eqb_spec ch 6) as [->|]; simpl negb; cbv iota.
    + destruct (Hdef (6 - 1)) as (-> & Hr & Ht); [lia|]. wp_steps. split_and!; try (simpl; lia).
    + destruct (Hdef ch) as (-> & Hr & Ht); [lia|]. wp_steps. split_and!; try (simpl; lia).
  - assert (Hmask : 0 ≤ mask < 2 ^ 32).
    { unfold mask. change 0x7FFFFFFF with (Z.ones 31). rewrite Z.land_ones by lia.
      pose proof (Z.mod_pos_bound chmask (2 ^ 31)). lia. }
    rewrite chmask_get_num_channels_spec by done. simpl mbind.
    destruct (Z.eqb_spec (popcount mask) ch) as [Hp|Hp]; simpl negb; cbv iota; [|apply wp_ret; lia].
    fold (lfe_of_mask mask).
    assert (Hf : (if negb (lfe_of_mask mask =? 0) then mask - 0x08 else mask) = fbw_mask mask)
      by (unfold lfe_of_mask, fbw_mask; by destruct (Z.land mask 0x08 =? 0)).
    rewrite Hf.
    assert (Hlfe : 0 ≤ lfe_of_mask mask ≤ 1) by (unfold lfe_of_mask; destruct (Z.land mask 0x08 =? 0); simpl; lia).
    destruct (layout_acmod (fbw_mask mask)) as [a|] eqn:Hl.
    + wp_steps.
      assert (Ha : 0 < a < 8 ∧ a52_channels_tab.[a] + lfe_of_mask mask = popcount mask).
      { assert (Hmk : mask = fbw_mask mask + 8 * lfe_of_mask mask)
          by (unfold fbw_mask, lfe_of_mask; destruct (Z.land mask 0x08 =? 0); simpl; lia).
        revert Hmk Hl Hlfe. generalize (fbw_mask mask) (lfe_of_mask mask). clear.
        intros m l -> Hl Hlfe. assert (Hl01 : l = 0 ∨ l = 1) by lia. unfold layout_acmod in Hl.
        repeat case_match; simplify_eq/=; repeat match goal with
          | H : (_ || _)%bool = true |- _ => apply orb_true_iff in H as [H|H]
          | H : (_ =? _) = true |- _ => apply Z.eqb_eq in H end; subst;
          destruct Hl01 as [-> | ->]; done. }
      destruct Ha as [Ha Hpc]. split_and!; lia.
    + destruct (Hdef ch) as (-> & Hr & Ht); [lia|]. wp_steps. split_and!; lia.
Qed.

Lemma wav_channels_to_acmod_counts_witness :
  let mask := Z.land 0x18 0x7FFFFFFF in
  wp (aften_wav_channels_to_acmod 2 0x18) (λ '(ret, out), match out with
    | None => ret = -1 ∧ (2 < 1 ∨ 6 < 2 ∨ (mask ≠ 0 ∧ popcount mask ≠ 2))
    | Some (acmod, lfe) => ret = 0 ∧ 1 ≤ 2 ≤ 6 ∧ 0 < acmod < 8 ∧ 0 ≤ lfe ≤ 1 ∧
        (mask = 0 → a52_channels_tab.[acmod] + lfe = 2) ∧
        (mask ≠ 0 → popcount mask = 2 ∧ lfe = lfe_of_mask mask ∧
           match layout_acmod (fbw_mask mask) with
           | Some a => acmod = a ∧ a52_channels_tab.[acmod] + lfe = 2
           | None => a52_channels_tab.[acmod] = Z.min 2 5
           end)
    end).
Proof. apply (wav_channels_to_acmod_counts 2 0x18). lia. Defined.

(** Remapping from WAVE to A/52 order, for a channel count that fits the
    acmod, permutes the samples of each of the first [n] frames by the row of
    the channel map of that acmod and LFE flag, which is a permutation of the
    channels, and changes nothing else. *)
Theorem remap_wav_permutes {A} `{Inhabited A} (smp : list A) n acmod lfe fmt :
  0 ≤ acmod < 8 → 0 ≤ lfe < 2 → 0 ≤ n → A52_SAMPLE_FMT_U8 ≤ fmt ≤ A52_SAMPLE_FMT_S8 →
  let ch := a52_channels_tab.[acmod] + lfe in
  n * ch ≤ zlen smp →
  Permutation (take (Z.to_nat ch) (chmap_row acmod lfe)) (map Z.of_nat (seq 0 (Z.to_nat ch))) ∧
  wp (aften_remap_wav_to_a52 (Some smp) n ch fmt acmod) (λ out, ∃ smp', out = Some smp' ∧
    zlen smp' = zlen smp ∧ ∀ t, 0 ≤ t → smp'.[t] = remapped (chmap_row acmod lfe) smp n ch t).
Proof.
  intros Ha Hl Hn Hf ch Hlen. split; [by apply chmap_row_perm|].
  assert (Htab : 1 ≤ a52_channels_tab.[acmod] ∧ zlen a52_channels_tab = 8 ∧
    (acmod < 3 ∨ ((acmod = 4 ∨ acmod = 6) ∧ lfe = 0) →
      ∀ j, 0 ≤ j < ch → (chmap_row acmod lfe).[j] = j)).
  { pose proof Ha as Ha'.
    table_check (λ a, (1 <=? a52_channels_tab.[a]) && forallb (λ l,
       negb ((a <? 3) || ((a =? 4) || (a =? 6)) && (l =? 0)) ||
       forallb (λ j, negb (Z.of_nat j <? a52_channels_tab.[a] + l) || ((chmap_row a l).[Z.of_nat j] =? Z.of_nat j))
         (seq 0 6)) [0; 1]) 8 Ha'.
    apply andb_true_iff in Ha' as [H1 Hr]. rewrite forallb_forall in Hr.
    specialize (Hr lfe ltac:(simpl; lia)). split_and!; [lia|done|]. intros Hid j Hj.
    apply orb_true_iff in Hr as [Hr|Hr]; [lia|]. rewrite forallb_forall in Hr.
    pose proof (chmap_row_entry acmod lfe j Ha Hl Hj) as (_ & H6 & _). fold ch in H6.
    specialize (Hr (Z.to_nat j) ltac:(apply in_seq; lia)). rewrite Z2Nat.id in Hr by lia.
    unfold ch in Hj. lia. }
  destruct Htab as (H1 & H8 & Hid).
  unfold aften_remap_wav_to_a52. wp_step. wp_step. cbv zeta.
  replace (if ch >? a52_channels_tab.[acmod] then 1 else 0) with lfe
    by (unfold ch; destruct (Z.gtb_spec (a52_channels_tab.[acmod] + lfe) a52_channels_tab.[acmod]); lia).
  wp_step.
  - apply wp_ret. exists smp. split_and!; [done|done|]. intros t Ht. unfold remapped.
    destruct (Z.ltb_spec t (n * ch)); [|done].
    pose proof (Z.mod_pos_bound t ch ltac:(unfold ch; lia)).
    rewrite Hid by lia. pose proof (Z.div_mod t ch ltac:(unfold ch; lia)). f_equal. lia.
  - unfold fmt_known. replace ((A52_SAMPLE_FMT_U8 <=? fmt) && (fmt <=? A52_SAMPLE_FMT_S8)) with true by lia.
    wp_step. eapply wp_mono; [apply remap_wav_spec; unfold ch in *; done || lia|].
    intros smp' Hs. apply wp_ret. by exists smp'.
Qed.

Lemma remap_wav_permutes_witness :
  Permutation (take 6 (chmap_row 7 1)) (map Z.of_nat (seq 0 6)) ∧
  wp (aften_remap_wav_to_a52 (Some [10; 11; 12; 13; 14; 15; 20; 21; 22; 23; 24; 25]) 2 6 1 7) (λ out,
    ∃ smp', out = Some smp' ∧ zlen smp' = 12 ∧ ∀ t, 0 ≤ t → smp'.[t] =
      remapped (chmap_row 7 1) [10; 11; 12; 13; 14; 15; 20; 21; 22; 23; 24; 25] 2 6 t).
Proof.
  apply (remap_wav_permutes [10; 11; 12; 13; 14; 15; 20; 21; 22; 23; 24; 25] 2 7 1 1);
    unfold A52_SAMPLE_FMT_U8, A52_SAMPLE_FMT_S8; try lia. vm_compute. discriminate.
Defined.
