(* ===== verification/A52.v ===== *)
(** [libaften/a52.c]: the psychoacoustic model that encoder and decoder share:
    exponents to power spectrum, power spectrum to masking curve, masking
    curve to bit allocation pointers.  The theorems give the value of every
    output element and show which elements are read and written. *)
From Stdlib Require Import ZArith Lia ZifyBool Bool.
From stdpp Require Import base option list numbers.
From S2P Require Import Prelude CMachine Tables Types.
Local Open Scope Z_scope.
Local Open Scope carray_scope.

(** * The band tables *)

Definition band_start_zero : list Z := replicate 51 0.
Definition bin_to_band_zero : list Z := replicate 253 0.

Definition a52_common_init (band_start_tab bin_to_band_tab : list Z) : option (list Z * list Z) :=
  '(band_start_tab, bin_to_band_tab, bin) ←
    for_up 0 50 (λ band '(band_start_tab, bin_to_band_tab, bin),
      size ← aget a52_critical_band_size_tab band;
      let band_end := bin + size in
      band_start_tab ← aset band_start_tab band (u8 bin);
      '(bin_to_band_tab, bin) ← while_loop 256 (λ '(_, bin), bin <? band_end)
        (λ '(tab, bin), tab ← aset tab bin (u8 band); Some (tab, bin + 1)) (bin_to_band_tab, bin);
      Some (band_start_tab, bin_to_band_tab, bin)) (band_start_tab, bin_to_band_tab, 0);
  band_start_tab ← aset band_start_tab 50 (u8 bin);
  Some (band_start_tab, bin_to_band_tab).

(** The tables after [a52_common_init]; every other function of the file runs
    after it. *)
Definition band_tables : list Z * list Z :=
  Eval vm_compute in default ([], []) (a52_common_init band_start_zero bin_to_band_zero).
Definition band_start_tab : list Z := Eval cbv in fst band_tables.
Definition bin_to_band_tab : list Z := Eval cbv in snd band_tables.

(** * Power spectral density *)

Definition a52_bit_alloc_calc_psd (exp_ : list Z) (start end_ : Z) (psd band_psd : list Z)
    : option (list Z * list Z) :=
  (* exponent mapping to PSD *)
  psd ← for_up start end_ (λ bin psd,
    e ← aget exp_ bin; aset psd bin (i16 (3072 - Z.shiftl e 7))) psd;
  (* PSD integration *)
  band ← aget bin_to_band_tab start;
  '(_, _, band_psd) ← do_while 50 (λ '(bin, band, band_psd),
    v ← aget psd bin;
    let bin := bin + 1 in
    next ← aget band_start_tab (band + 1);
    let band_end := MIN next end_ in
    v ← for_up bin band_end (λ bin v,
      p ← aget psd bin;
      let adr := MIN (Z.shiftr (ABS (v - p)) 1) 255 in
      t ← aget a52_log_add_tab adr;
      Some (MAX v p + t)) v;
    band_psd ← aset band_psd band (i16 v);
    let band := band + 1 in
    bs ← aget band_start_tab band;
    Some ((MAX bin band_end, band, band_psd), bs <? end_)) (start, band, band_psd);
  Some (psd, band_psd).

(** * Masking curve *)

Definition calc_lowcomp1 (a b0 b1 c : Z) : Z :=
  if b0 + 256 =? b1 then c
  else if b0 >? b1 then MAX (a - 64) 0
  else a.

Definition calc_lowcomp (a b0 b1 bin : Z) : Z :=
  if bin <? 7 then calc_lowcomp1 a b0 b1 384
  else if bin <? 20 then calc_lowcomp1 a b0 b1 320
  else MAX (a - 128) 0.

(** What the program can observe of memory it does not own or has not
    written: the elements one past [mask[ch]] and one past [band_start_tab]
    ([None] when such a read traps), and the contents of three local arrays
    before their initialisation. *)
Class Residue := {
  past_mask : option Z;
  past_band_start : option Z;
  stack_excite : list Z;        (* int16_t excite[50] *)
  stack_exponents : list (list Z); (* uint8_t exponents[6][256] *)
  stack_bndpsd : list Z            (* int16_t bndpsd[50] *)
}.

Class ResidueOk (R : Residue) := {
  past_band_start_u8 : ∀ v, past_band_start = Some v → 0 ≤ v < 256;
  stack_excite_len : zlen stack_excite = 50;
  stack_exponents_len : zlen stack_exponents = 6;
  stack_exponents_row : ∀ i, 0 ≤ i < 6 → zlen stack_exponents.[i] = 256;
  stack_exponents_u8 : ∀ i j, 0 ≤ i < 6 → 0 ≤ j < 256 → 0 ≤ stack_exponents.[i].[j] < 256;
  stack_bndpsd_len : zlen stack_bndpsd = 50
}.

Section mask.
Context `{Residue}.

(** The excitation of the low bands, for a range that starts at band 0. *)
Definition excite_low (s : BitAllocParams.t) (band_psd : list Z) (fast_gain band_end : Z)
    (excite : list Z) : option (list Z * Z * Z) :=
  p0 ← aget band_psd 0; p1 ← aget band_psd 1;
  let lowcomp := calc_lowcomp1 0 p0 p1 384 in
  excite ← aset excite 0 (i16 (p0 - fast_gain - lowcomp));
  p2 ← aget band_psd 2;
  let lowcomp := calc_lowcomp1 lowcomp p1 p2 384 in
  excite ← aset excite 1 (i16 (p1 - fast_gain - lowcomp));
  '(begin, lowcomp, fastleak, slowleak, excite) ←
    for_break 2 7 (λ band '(begin, lowcomp, fastleak, slowleak, excite),
      p ← aget band_psd band;
      lowcomp ← (if negb ((band_end =? 7) && (band =? 6))
                 then p' ← aget band_psd (band + 1); Some (calc_lowcomp1 lowcomp p p' 384)
                 else Some lowcomp);
      let fastleak := p - fast_gain in
      let slowleak := p - BitAllocParams.sgain s in
      excite ← aset excite band (i16 (fastleak - lowcomp));
      if negb ((band_end =? 7) && (band =? 6)) then
        p' ← aget band_psd (band + 1);
        if p <=? p' then Some (inl (band + 1, lowcomp, fastleak, slowleak, excite))
        else Some (inr (begin, lowcomp, fastleak, slowleak, excite))
      else Some (inr (begin, lowcomp, fastleak, slowleak, excite)))
    (7, lowcomp, 0, 0, excite);
  let end1 := MIN band_end 22 in
  '(lowcomp, fastleak, slowleak, excite) ←
    for_up begin end1 (λ band '(lowcomp, fastleak, slowleak, excite),
      p ← aget band_psd band;
      lowcomp ← (if negb ((band_end =? 7) && (band =? 6))
                 then p' ← aget band_psd (band + 1); Some (calc_lowcomp lowcomp p p' band)
                 else Some lowcomp);
      let fastleak := MAX (fastleak - BitAllocParams.fdecay s) (p - fast_gain) in
      let slowleak := MAX (slowleak - BitAllocParams.sdecay s) (p - BitAllocParams.sgain s) in
      excite ← aset excite band (i16 (MAX (fastleak - lowcomp) slowleak));
      Some (lowcomp, fastleak, slowleak, excite)) (lowcomp, fastleak, slowleak, excite);
  Some (excite, fastleak, slowleak).

(** Delta bit allocation. *)
Definition apply_dba (dba_mode dba_nsegs : Z) (dba_offsets dba_lengths dba_values mask : list Z)
    : option (list Z) :=
  if (dba_mode =? DBA_REUSE) || (dba_mode =? DBA_NEW) then
    let dba_nsegs := MIN dba_nsegs 8 in
    '(_, mask) ← for_up 0 dba_nsegs (λ seg '(band, mask),
      off ← aget dba_offsets seg;
      let band := band + off in
      v ← aget dba_values seg;
      let delta := if v >=? 4 then Z.shiftl (v - 3) 7 else Z.shiftl (v - 4) 7 in
      len ← aget dba_lengths seg;
      for_break 0 len (λ _ '(band, mask),
        if band <? 50 then
          m ← aget mask band;
          mask ← aset mask band (i16 (m + delta));
          Some (inr (band + 1, mask))
        else Some (inl (band, mask))) (band, mask)) (0, mask);
    Some mask
  else Some mask.

Definition a52_bit_alloc_calc_mask (s : BitAllocParams.t) (band_psd : list Z)
    (start end_ fast_gain dba_mode dba_nsegs : Z) (dba_offsets dba_lengths dba_values mask : list Z)
    : option (list Z) :=
  (* excitation function *)
  band_start ← aget bin_to_band_tab start;
  last ← aget bin_to_band_tab (end_ - 1);
  let band_end := last + 1 in
  '(begin, excite, fastleak, slowleak) ←
    (if band_start =? 0 then
       '(excite, fastleak, slowleak) ← excite_low s band_psd fast_gain band_end stack_excite;
       Some (22, excite, fastleak, slowleak)
     else (* coupling channel *)
       Some (band_start, stack_excite, Z.shiftl (BitAllocParams.cplfleak s) 8 + 768,
             Z.shiftl (BitAllocParams.cplsleak s) 8 + 768));
  '(_, _, excite) ← for_up begin band_end (λ band '(fastleak, slowleak, excite),
    p ← aget band_psd band;
    let fastleak := MAX (fastleak - BitAllocParams.fdecay s) (p - fast_gain) in
    let slowleak := MAX (slowleak - BitAllocParams.sdecay s) (p - BitAllocParams.sgain s) in
    excite ← aset excite band (i16 (MAX fastleak slowleak));
    Some (fastleak, slowleak, excite)) (fastleak, slowleak, excite);
  (* compute masking curve *)
  '(excite, mask) ← for_up band_start band_end (λ band '(excite, mask),
    p ← aget band_psd band;
    let tmp := BitAllocParams.dbknee s - p in
    e ← aget excite band;
    excite ← (if tmp >? 0 then aset excite band (i16 (e + Z.shiftr tmp 2)) else Some excite);
    e ← aget excite band;
    th ← aget2 a52_hearing_threshold_tab (Z.shiftr band (BitAllocParams.halfratecod s)) (BitAllocParams.fscod s);
    mask ← aset mask band (i16 (MAX th e));
    Some (excite, mask)) (excite, mask);
  apply_dba dba_mode dba_nsegs dba_offsets dba_lengths dba_values mask.

(** * Bit allocation pointers *)

(** Reads of the two arrays that can go one past the end. *)
Definition get_mask (mask : list Z) (band : Z) : option Z :=
  if band =? 50 then past_mask else aget mask band.
Definition get_band_start (band : Z) : option Z :=
  if band =? 51 then past_band_start else aget band_start_tab band.

Definition bap_address (p m : Z) : Z := CLIP (Z.shiftr (p - m) 5) 0 63.

Definition a52_bit_alloc_calc_bap (mask psd : list Z) (start end_ snr_offset floor : Z)
    (bap : list Z) : option (list Z) :=
  (* special case, if snr offset is -960, set all bap's to zero *)
  if snr_offset =? -960 then memset bap 0 0 256 else
  band ← aget bin_to_band_tab start;
  '(_, _, bap) ← do_while 52 (λ '(bin, band, bap),
    mk ← get_mask mask band;
    let m := Z.land (MAX (mk - snr_offset - floor) 0) 0x1FE0 + floor in
    next ← get_band_start (band + 1);
    let band_end := MIN next end_ in
    '(bin, bap) ← (if negb (Z.land (band_end - bin) 1 =? 0) then
        p ← aget psd bin;
        b ← aget a52_bap_tab (bap_address p m);
        bap ← aset bap bin b;
        Some (bin + 1, bap)
      else Some (bin, bap));
    '(bin, bap) ← while_loop 128 (λ '(bin, _), bin <? band_end) (λ '(bin, bap),
        p1 ← aget psd bin;
        p2 ← aget psd (bin + 1);
        b1 ← aget a52_bap_tab (bap_address p1 m);
        bap ← aset bap bin b1;
        b2 ← aget a52_bap_tab (bap_address p2 m);
        bap ← aset bap (bin + 1) b2;
        Some (bin + 2, bap)) (bin, bap);
    bs ← get_band_start band;
    Some ((bin, band + 1, bap), bs <? end_)) (start, band, bap);
  Some bap.
End mask.

(** Two environments: one whose memory past the arrays can be read, and one
    that traps there. *)
Definition readable_residue : Residue :=
  {| past_mask := Some 0; past_band_start := Some 0; stack_excite := replicate 50 0;
     stack_exponents := replicate 6 (replicate 256 0); stack_bndpsd := replicate 50 0 |}.
Definition trapping_residue : Residue :=
  {| past_mask := None; past_band_start := None; stack_excite := replicate 50 0;
     stack_exponents := replicate 6 (replicate 256 0); stack_bndpsd := replicate 50 0 |}.

#[global] Instance readable_residue_ok : ResidueOk readable_residue.
Proof.
  split; unfold past_band_start, stack_excite, stack_exponents, readable_residue; [by intros v [= <-]|done|done| | |done].
  - intros i Hi. by rewrite at_replicate by lia.
  - intros i j Hi Hj. rewrite (at_replicate 6), at_replicate by lia. lia.
Qed.
#[global] Instance trapping_residue_ok : ResidueOk trapping_residue.
Proof.
  split; unfold past_band_start, stack_excite, stack_exponents, trapping_residue; [done|done|done| | |done].
  - intros i Hi. by rewrite at_replicate by lia.
  - intros i j Hi Hj. rewrite (at_replicate 6), at_replicate by lia. lia.
Qed.

(** * Facts about the band tables *)

Lemma zlen_band_start : zlen band_start_tab = 51.
Proof. reflexivity. Qed.
Lemma zlen_bin_to_band : zlen bin_to_band_tab = 253.
Proof. reflexivity. Qed.

#[export] Hint Rewrite zlen_band_start zlen_bin_to_band : carray.

Lemma band_start_step b :
  0 ≤ b < 50 → 0 ≤ band_start_tab.[b] ∧ band_start_tab.[b] < band_start_tab.[b + 1] ∧
               band_start_tab.[b + 1] ≤ band_start_tab.[b] + 24 ∧ band_start_tab.[b + 1] ≤ 253.
Proof.
  intros Hb. table_check (λ b, (0 <=? band_start_tab.[b]) && (band_start_tab.[b] <? band_start_tab.[b + 1]) &&
    (band_start_tab.[b + 1] <=? band_start_tab.[b] + 24) && (band_start_tab.[b + 1] <=? 253)) 50 Hb. lia.
Qed.

Lemma band_start_last b : 0 ≤ b ≤ 50 → band_start_tab.[b] ≤ 253 ∧ (band_start_tab.[b] = 253 ↔ b = 50).
Proof.
  intros Hb. assert (Hb' : 0 ≤ b < 51) by lia.
  table_check (λ b, (band_start_tab.[b] <=? 253) && Bool.eqb (band_start_tab.[b] =? 253) (b =? 50)) 51 Hb'.
  lia.
Qed.

(** [bin] lies in [band]. *)
Definition in_band (bin band : Z) : Prop :=
  0 ≤ band < 50 ∧ band_start_tab.[band] ≤ bin < band_start_tab.[band + 1].

Lemma bin_to_band_in bin : 0 ≤ bin < 253 → in_band bin bin_to_band_tab.[bin].
Proof.
  intros Hb. table_check (λ bin, let b := bin_to_band_tab.[bin] in
    (0 <=? b) && (b <? 50) && (band_start_tab.[b] <=? bin) && (bin <? band_start_tab.[b + 1])) 253 Hb.
  unfold in_band. cbv zeta in Hb. lia.
Qed.

Lemma in_band_eq bin band : in_band bin band → bin_to_band_tab.[bin] = band.
Proof.
  intros [Hb Hin]. pose proof (band_start_step band Hb).
  table_check (λ b, forallb (λ i, negb ((band_start_tab.[b] <=? i) && (i <? band_start_tab.[b + 1]))
     || (bin_to_band_tab.[i] =? b)) (map Z.of_nat (seq 0 253))) 50 Hb.
  apply (check_range _ 253 bin) in Hb; [|lia]. cbv beta in Hb. lia.
Qed.

(** * Power spectrum *)

Definition logadd (v p : Z) : Z :=
  MAX v p + a52_log_add_tab.[MIN (Z.shiftr (ABS (v - p)) 1) 255].

(** The integrated power of [n + 1] bins from [lo]. *)
Fixpoint logsum (psd : Z → Z) (lo : Z) (n : nat) : Z :=
  match n with
  | O => psd lo
  | S n' => logadd (logsum psd lo n') (psd (lo + Z.of_nat (S n')))
  end.

Definition psd_of (e : Z) : Z := 3072 - 128 * e.

Lemma log_add_index v p : 0 ≤ MIN (Z.shiftr (ABS (v - p)) 1) 255 < 260.
Proof.
  rewrite MIN_min, ABS_abs, Z.shiftr_div_pow2 by lia.
  assert (0 ≤ Z.abs (v - p) / 2 ^ 1) by (apply Z.div_pos; lia). lia.
Qed.

Lemma log_add_in_tab v p : 0 ≤ MIN (Z.shiftr (ABS (v - p)) 1) 255 < zlen a52_log_add_tab.
Proof. apply log_add_index. Qed.
#[local] Hint Resolve log_add_in_tab : carray.

Lemma logadd_bounds v p : Z.max v p ≤ logadd v p ≤ Z.max v p + 64.
Proof.
  unfold logadd. pose proof (log_add_range _ (log_add_index v p)). rewrite MAX_max. lia.
Qed.

Lemma logsum_bounds f lo n B :
  (∀ i, 0 ≤ i ≤ Z.of_nat n → 0 ≤ f (lo + i) ≤ B) → 0 ≤ logsum f lo n ≤ B + 64 * Z.of_nat n.
Proof.
  intros Hf. induction n as [|n IH]; cbn [logsum].
  - specialize (Hf 0). rewrite Z.add_0_r in Hf. lia.
  - specialize (IH ltac:(intros; apply Hf; lia)). specialize (Hf (Z.of_nat (S n)) ltac:(lia)).
    pose proof (logadd_bounds (logsum f lo n) (f (lo + Z.of_nat (S n)))). lia.
Qed.

Lemma logsum_ext f g lo n :
  (∀ i, 0 ≤ i ≤ Z.of_nat n → f (lo + i) = g (lo + i)) → logsum f lo n = logsum g lo n.
Proof.
  intros Hfg. induction n as [|n IH]; cbn [logsum].
  - specialize (Hfg 0). rewrite Z.add_0_r in Hfg. apply Hfg. lia.
  - rewrite IH, Hfg by (intros; try apply Hfg; lia). done.
Qed.

(** The integrated power of a band within the range [start, end_). *)
Definition band_power (exp_ : list Z) (start end_ band : Z) : Z :=
  let lo := Z.max start band_start_tab.[band] in
  let hi := Z.min end_ band_start_tab.[band + 1] in
  logsum (λ i, psd_of exp_.[i]) lo (Z.to_nat (hi - lo - 1)).

(** The bands a range of bins touches. *)
Definition band_touched (start end_ band : Z) : Prop :=
  bin_to_band_tab.[start] ≤ band < 50 ∧ band_start_tab.[band] < end_.

Lemma band_start_mono a b : 0 ≤ a ≤ b → b ≤ 50 → band_start_tab.[a] ≤ band_start_tab.[b].
Proof.
  intros Ha Hb. assert (Hn : ∀ n : nat, a + Z.of_nat n ≤ 50 → band_start_tab.[a] ≤ band_start_tab.[a + Z.of_nat n]).
  { induction n as [|n IH]; intros Hn; [by rewrite Z.add_0_r|].
    pose proof (band_start_step (a + Z.of_nat n) ltac:(lia)).
    replace (a + Z.of_nat (S n)) with (a + Z.of_nat n + 1) by lia. lia. }
  replace b with (a + Z.of_nat (Z.to_nat (b - a))) by lia. apply Hn. lia.
Qed.

(** The part of a touched band inside the range is not empty. *)
Lemma band_touched_range start end_ band :
  0 ≤ start < end_ → end_ ≤ 253 → band_touched start end_ band →
  0 ≤ band < 50 ∧
  Z.max start band_start_tab.[band] < Z.min end_ band_start_tab.[band + 1] ∧
  Z.min end_ band_start_tab.[band + 1] - Z.max start band_start_tab.[band] ≤ 24.
Proof.
  intros Hs He [Hb1 Hb2]. pose proof (bin_to_band_in start ltac:(lia)) as [Hb0 Hin].
  pose proof (band_start_step band ltac:(lia)).
  assert (Hle : 0 ≤ bin_to_band_tab.[start] + 1 ≤ band + 1) by lia.
  pose proof (band_start_mono _ _ Hle ltac:(lia)).
  split; [lia|]. split; [|lia]. apply Z.max_lub_lt; apply Z.min_glb_lt; lia.
Qed.

Lemma band_power_bounds exp_ start end_ band :
  0 ≤ start < end_ → end_ ≤ 253 → (∀ i, start ≤ i < end_ → 0 ≤ exp_.[i] ≤ 24) →
  band_touched start end_ band → 0 ≤ band_power exp_ start end_ band ≤ 4544.
Proof.
  intros Hs He Hexp Hb. pose proof (band_touched_range _ _ _ Hs He Hb) as (? & ? & ?).
  unfold band_power. cbv zeta. set (lo := Z.max _ _) in *. set (hi := Z.min _ _) in *.
  pose proof (logsum_bounds (λ i, psd_of exp_.[i]) lo (Z.to_nat (hi - lo - 1)) 3072) as Hl.
  cut (0 ≤ logsum (λ i, psd_of exp_.[i]) lo (Z.to_nat (hi - lo - 1)) ≤ 3072 + 64 * Z.of_nat (Z.to_nat (hi - lo - 1)));
    [lia|].
  apply Hl. intros i Hi. unfold psd_of. specialize (Hexp (lo + i) ltac:(lia)). lia.
Qed.

(** One band: the sum over the bins after the first. *)
Lemma integrate_band psd f bin hi :
  0 ≤ bin < hi → hi ≤ zlen psd → (∀ i, bin ≤ i < hi → psd.[i] = f i) →
  wp (for_up (bin + 1) hi (λ bin v,
        p ← aget psd bin;
        let adr := MIN (Z.shiftr (ABS (v - p)) 1) 255 in
        t ← aget a52_log_add_tab adr;
        Some (MAX v p + t)) psd.[bin]) (λ v, v = logsum f bin (Z.to_nat (hi - bin - 1))).
Proof.
  intros Hb Hl Hf. apply (wp_for_up (λ i v, v = logsum f bin (Z.to_nat (i - bin - 1)))).
  - lia.
  - replace (bin + 1 - bin - 1) with 0 by lia. simpl. apply Hf. lia.
  - intros i v Hi ->. wp_steps. replace (Z.to_nat (i + 1 - bin - 1)) with (S (Z.to_nat (i - bin - 1))) by lia.
    cbn [logsum]. rewrite (Hf i) by lia.
    by replace (bin + Z.of_nat (S (Z.to_nat (i - bin - 1)))) with i by lia.
  - done.
Qed.

(** The invariant of the integration loop: the bins before [bin] are in
    [band_psd], the rest of which is unchanged. *)
Definition psd_inv (psd0 exp_ : list Z) (start end_ : Z) (band_psd0 : list Z)
    '((bin, band, band_psd) : Z * Z * list Z) : Prop :=
  0 ≤ band < 50 ∧ start ≤ bin < end_ ∧ band_start_tab.[band] ≤ bin < band_start_tab.[band + 1] ∧
  bin = Z.max start band_start_tab.[band] ∧ bin_to_band_tab.[start] ≤ band ∧
  zlen band_psd = zlen band_psd0 ∧
  ∀ b, 0 ≤ b → band_psd.[b] =
    if (bin_to_band_tab.[start] <=? b) && (b <? band) then band_power exp_ start end_ b else band_psd0.[b].

Lemma a52_bit_alloc_calc_psd_spec exp_ start end_ psd band_psd :
  0 ≤ start < end_ → end_ ≤ 253 → end_ ≤ zlen exp_ → end_ ≤ zlen psd → 50 ≤ zlen band_psd →
  (∀ i, start ≤ i < end_ → 0 ≤ exp_.[i] ≤ 24) →
  wp (a52_bit_alloc_calc_psd exp_ start end_ psd band_psd) (λ '(psd', band_psd'),
    zlen psd' = zlen psd ∧ zlen band_psd' = zlen band_psd ∧
    (∀ i, 0 ≤ i → psd'.[i] = if (start <=? i) && (i <? end_) then psd_of exp_.[i] else psd.[i]) ∧
    (∀ b, band_touched start end_ b → band_psd'.[b] = band_power exp_ start end_ b) ∧
    (∀ b, 0 ≤ b → ¬ band_touched start end_ b → band_psd'.[b] = band_psd.[b])).
Proof.
  intros Hs He Hle Hlp Hlb Hexp. unfold a52_bit_alloc_calc_psd. apply wp_bind.
  apply (wp_for_up (λ k psd', zlen psd' = zlen psd ∧
    ∀ i, 0 ≤ i → psd'.[i] = if (start <=? i) && (i <? k) then psd_of exp_.[i] else psd.[i])).
  - lia.
  - split; [done|]. intros i Hi. by replace ((start <=? i) && (i <? start)) with false by lia.
  - intros k p Hk [Hl Hp]. wp_steps. split; [by rewrite zlen_upd|].
    intros i Hi. rewrite at_upd, Hp by lia. destruct (Z.eqb_spec i k) as [->|].
    + replace ((start <=? k) && (k <? k + 1)) with true by lia. unfold psd_of.
      rewrite Z.shiftl_mul_pow2 by lia. specialize (Hexp k Hk). rewrite i16_id; lia.
    + by replace (i <? k + 1) with (i <? k) by lia.
  - intros psd' [Hl Hp]. wp_step. wp_step.
    pose proof (bin_to_band_in start ltac:(lia)) as [Hb0 Hin].
    wp_step. eapply (wp_do_while (psd_inv psd' exp_ start end_ band_psd) (λ '(_, band, _), Z.to_nat (50 - band))).
    + unfold psd_inv. split_and!; try lia. intros b Hb.
      by replace ((bin_to_band_tab.[start] <=? b) && (b <? bin_to_band_tab.[start])) with false by lia.
    + lia.
    + intros [[bin band] bp] (Hband & Hbin & Hbb & Hbe & Hst & Hlbp & Hbp).
      pose proof (band_start_step band Hband). wp_steps. rewrite MIN_min.
      assert (Hlo : bin < Z.min band_start_tab.[band + 1] end_) by lia.
      eapply wp_mono.
      { apply (integrate_band psd' (λ i, psd_of exp_.[i]) bin); [lia|lia|].
        intros i Hi. rewrite Hp by lia. by replace ((start <=? i) && (i <? end_)) with true by lia. }
      intros v ->. assert (Hpow : logsum (λ i, psd_of exp_.[i]) bin
          (Z.to_nat (Z.min band_start_tab.[band + 1] end_ - bin - 1)) = band_power exp_ start end_ band).
      { unfold band_power. cbv zeta. by rewrite <- Hbe, (Z.min_comm end_). }
      rewrite Hpow. pose proof (band_power_bounds exp_ start end_ band Hs He Hexp) as Hbnd.
      specialize (Hbnd ltac:(split; lia)). rewrite i16_id by lia.
      assert (Hupd : ∀ b, 0 ≤ b → (upd bp band (band_power exp_ start end_ band)).[b] =
        if (bin_to_band_tab.[start] <=? b) && (b <? band + 1) then band_power exp_ start end_ b else band_psd.[b]).
      { intros b Hb. rewrite at_upd, Hbp by lia. destruct (Z.eqb_spec b band) as [->|].
        - by replace ((bin_to_band_tab.[start] <=? band) && (band <? band + 1)) with true by lia.
        - by replace (b <? band + 1) with (b <? band) by lia. }
      wp_steps. simpl. rewrite MAX_max. destruct (Z.ltb_spec band_start_tab.[band + 1] end_).
      * pose proof (band_start_last (band + 1) ltac:(lia)).
        pose proof (band_start_step (band + 1) ltac:(lia)).
        split; [|lia]. unfold psd_inv. rewrite zlen_upd. split_and!; try lia. exact Hupd.
      * apply wp_ret. rewrite zlen_upd. split_and!; [done|done|done| |].
        -- intros b [Hb1 Hb2]. rewrite Hupd by lia.
           assert (b < band + 1).
           { destruct (Z.ltb_spec b (band + 1)); [done|].
             pose proof (band_start_mono (band + 1) b ltac:(lia) ltac:(lia)). lia. }
           by replace ((bin_to_band_tab.[start] <=? b) && (b <? band + 1)) with true by lia.
        -- intros b Hb Hnb. rewrite Hupd by lia.
           destruct (Z.leb_spec bin_to_band_tab.[start] b), (Z.ltb_spec b (band + 1)); try done.
           exfalso. apply Hnb. split; [lia|].
           pose proof (band_start_mono b band ltac:(lia) ltac:(lia)). lia.
Qed.

(** * Bit allocation pointers *)

Definition bap_level (mask snr_offset floor : Z) : Z :=
  Z.land (MAX (mask - snr_offset - floor) 0) 0x1FE0 + floor.

Definition bap_of (mask psd snr_offset floor : Z) : Z :=
  a52_bap_tab.[bap_address psd (bap_level mask snr_offset floor)].

Lemma bap_address_range p m : 0 ≤ bap_address p m < 64.
Proof. unfold bap_address. rewrite CLIP_clip. lia. Qed.

Lemma bap_address_index p m : 0 ≤ bap_address p m < zlen a52_bap_tab.
Proof. apply bap_address_range. Qed.
#[local] Hint Resolve bap_address_index : carray.

Lemma bap_of_range mask psd snr floor : 0 ≤ bap_of mask psd snr floor ≤ 15.
Proof. apply bap_tab_range, bap_address_range. Qed.

(** The two-at-a-time loop over one band, with its odd first step. *)
Lemma fill_band psd bap m bin hi :
  0 ≤ bin ≤ hi → hi ≤ zlen psd → hi ≤ zlen bap → hi - bin ≤ 256 →
  wp ('(bin, bap) ← (if negb (Z.land (hi - bin) 1 =? 0) then
        p ← aget psd bin;
        b ← aget a52_bap_tab (bap_address p m);
        bap ← aset bap bin b;
        Some (bin + 1, bap)
      else Some (bin, bap));
      while_loop 128 (λ '(bin, _), bin <? hi) (λ '(bin, bap),
        p1 ← aget psd bin;
        p2 ← aget psd (bin + 1);
        b1 ← aget a52_bap_tab (bap_address p1 m);
        bap ← aset bap bin b1;
        b2 ← aget a52_bap_tab (bap_address p2 m);
        bap ← aset bap (bin + 1) b2;
        Some (bin + 2, bap)) (bin, bap))
     (λ '(bin', bap'), bin' = hi ∧ zlen bap' = zlen bap ∧
        ∀ i, 0 ≤ i → bap'.[i] =
          if (bin <=? i) && (i <? hi) then a52_bap_tab.[bap_address psd.[i] m] else bap.[i]).
Proof.
  intros Hb Hp Hl Hn. pose (Inv := λ '((k, bap') : Z * list Z),
    bin ≤ k ≤ hi ∧ Z.odd (hi - k) = false ∧ zlen bap' = zlen bap ∧
    ∀ i, 0 ≤ i → bap'.[i] = if (bin <=? i) && (i <? k) then a52_bap_tab.[bap_address psd.[i] m] else bap.[i]).
  apply wp_bind. rewrite odd_test. apply (wp_mono _ Inv).
  - destruct (Z.odd (hi - bin)) eqn:Hodd.
    + assert (bin < hi) by (destruct (Z.eq_dec bin hi) as [->|]; [by rewrite Z.sub_diag in Hodd|lia]).
      wp_steps. simpl. rewrite zlen_upd. split_and!; try lia.
      * replace (hi - (bin + 1)) with (hi - bin - 1) by lia. by rewrite Z.odd_sub, Hodd.
      * intros i Hi. rewrite at_upd by lia. destruct (Z.eqb_spec i bin) as [->|].
        -- by replace ((bin <=? bin) && (bin <? bin + 1)) with true by lia.
        -- by replace ((bin <=? i) && (i <? bin + 1)) with false by lia.
    + apply wp_ret. split_and!; [lia|lia|done|done|].
      intros i Hi. by replace ((bin <=? i) && (i <? bin)) with false by lia.
  - intros [k bap'] (Hk & Hev & Hzl & Hat).
    apply (wp_while Inv (λ '(k, _), Z.to_nat ((hi - k) / 2))).
    + exact (conj Hk (conj Hev (conj Hzl Hat))).
    + assert ((hi - k) / 2 ≤ 128) by (apply Z.div_le_upper_bound; lia). lia.
    + intros [k' b'] (Hk' & Hev' & Hzl' & Hat') Hc.
      assert (k' + 2 ≤ hi).
      { destruct (Z.eq_dec (hi - k') 1) as [He|]; [by rewrite He in Hev'|lia]. }
      wp_steps. simpl. rewrite !zlen_upd. split_and!; try lia.
      * replace (hi - (k' + 2)) with (hi - k' - 2) by lia. by rewrite Z.odd_sub, Hev'.
      * intros i Hi. rewrite !at_upd, Hat' by (rewrite ?zlen_upd; lia).
        destruct (Z.eqb_spec i (k' + 1)) as [->|].
        { by replace ((bin <=? k' + 1) && (k' + 1 <? k' + 2)) with true by lia. }
        destruct (Z.eqb_spec i k') as [->|].
        { by replace ((bin <=? k') && (k' <? k' + 2)) with true by lia. }
        by replace (i <? k' + 2) with (i <? k') by lia.
      * assert ((hi - k') / 2 = (hi - (k' + 2)) / 2 + 1).
        { replace (hi - k') with (hi - (k' + 2) + 1 * 2) by lia. by rewrite Z.div_add by lia. }
        assert (0 ≤ (hi - (k' + 2)) / 2) by (apply Z.div_pos; lia). lia.
    + intros [k' b'] (Hk' & Hev' & Hzl' & Hat') Hc. assert (k' = hi) as -> by lia. done.
Qed.

(** The values after a band, as one assignment of [fill_band]'s result. *)
Definition bap_inv (mask psd bap0 : list Z) (start end_ snr floor : Z)
    '((bin, band, bap) : Z * Z * list Z) : Prop :=
  bin_to_band_tab.[start] ≤ band ≤ 50 ∧ start ≤ bin ≤ end_ ∧ zlen bap = zlen bap0 ∧
  ((bin < end_ ∧ band < 50 ∧ bin = Z.max start band_start_tab.[band] ∧
    band_start_tab.[band] ≤ bin < band_start_tab.[band + 1]) ∨
   (bin = end_ ∧ 1 ≤ band ∧ band_start_tab.[band - 1] < end_ ≤ band_start_tab.[band])) ∧
  ∀ i, 0 ≤ i → bap.[i] = if (start <=? i) && (i <? bin)
    then bap_of mask.[bin_to_band_tab.[i]] psd.[i] snr floor else bap0.[i].

Section bap.
Context `{R : Residue} {ROk : ResidueOk R}.

(** The residue is only read for ranges that reach the last band. *)
Definition residue_readable (end_ : Z) : Prop :=
  end_ ≤ band_start_tab.[49] ∨ (is_Some past_mask ∧ is_Some past_band_start).

(** What [a52_bit_alloc_calc_bap] leaves in [bap]. *)
Definition bap_result (mask psd bap0 bap : list Z) (start end_ snr floor : Z) : Prop :=
  zlen bap = zlen bap0 ∧
  ∀ i, 0 ≤ i → i ≠ end_ ∨ end_ ≤ band_start_tab.[49] →
    bap.[i] = if (start <=? i) && (i <? end_)
              then bap_of mask.[bin_to_band_tab.[i]] psd.[i] snr floor else bap0.[i].

Section run.
Variables (mask psd bap0 : list Z) (start end_ snr floor : Z).
Hypothesis Hrange : 0 ≤ start < end_.
Hypothesis Hend : end_ ≤ 253.
Hypothesis Hmask : zlen mask = 50.
Hypothesis Hpsd : 256 ≤ zlen psd.
Hypothesis Hbap : 256 ≤ zlen bap0.
Hypothesis Hres : residue_readable end_.

(** The body of the loop on bands. *)
Definition bap_body : Z * Z * list Z → option ((Z * Z * list Z) * bool) := λ '(bin, band, bap),
    mk ← get_mask mask band;
    let m := Z.land (MAX (mk - snr - floor) 0) 0x1FE0 + floor in
    next ← get_band_start (band + 1);
    let band_end := MIN next end_ in
    '(bin, bap) ← (if negb (Z.land (band_end - bin) 1 =? 0) then
        p ← aget psd bin;
        b ← aget a52_bap_tab (bap_address p m);
        bap ← aset bap bin b;
        Some (bin + 1, bap)
      else Some (bin, bap));
    '(bin, bap) ← while_loop 128 (λ '(bin, _), bin <? band_end) (λ '(bin, bap),
        p1 ← aget psd bin;
        p2 ← aget psd (bin + 1);
        b1 ← aget a52_bap_tab (bap_address p1 m);
        bap ← aset bap bin b1;
        b2 ← aget a52_bap_tab (bap_address p2 m);
        bap ← aset bap (bin + 1) b2;
        Some (bin + 2, bap)) (bin, bap);
    bs ← get_band_start band;
    Some ((bin, band + 1, bap), bs <? end_).

Lemma get_mask_in b : 0 ≤ b < 50 → get_mask mask b = Some mask.[b].
Proof. intros. unfold get_mask. destruct (Z.eqb_spec b 50); [lia|]. apply aget_at. lia. Qed.

Lemma get_band_start_in b : 0 ≤ b ≤ 50 → get_band_start b = Some band_start_tab.[b].
Proof.
  intros. unfold get_band_start. destruct (Z.eqb_spec b 51); [lia|].
  apply aget_at. rewrite zlen_band_start. lia.
Qed.

(** The iteration after the last band with bins: it reads, and with the
    residue's values may write [bap[end_]], but nothing else. *)
Lemma bap_body_extra band bap :
  1 ≤ band ≤ 50 → band_start_tab.[band - 1] < end_ ≤ band_start_tab.[band] → 256 ≤ zlen bap →
  wp (bap_body (end_, band, bap)) (λ '((_, _, bap'), c), c = false ∧ zlen bap' = zlen bap ∧
    ∀ i, 0 ≤ i → i ≠ end_ ∨ band < 50 → bap'.[i] = bap.[i]).
Proof.
  intros Hb Hbs Hl. unfold bap_body.
  destruct (Z.ltb_spec band 50).
  - rewrite get_mask_in, (get_band_start_in (band + 1)) by lia. simpl mbind.
    pose proof (band_start_step band ltac:(lia)). rewrite MIN_min, Z.min_r by lia.
    rewrite Z.sub_diag. simpl Z.land. simpl Z.eqb. simpl negb. cbv iota. simpl mbind.
    rewrite while_stop by apply Z.ltb_irrefl. simpl mbind. rewrite get_band_start_in by lia. wp_steps.
    by replace (band_start_tab.[band] <? end_) with false by lia.
  - assert (band = 50) as -> by lia. change (band_start_tab.[50 - 1]) with 229 in Hbs.
    destruct Hres as [Hle|[[mk Hmk] [v Hv]]]; [change (band_start_tab.[49]) with 229 in Hle; lia|].
    unfold get_mask, get_band_start. simpl Z.eqb. cbv iota. rewrite Hmk, Hv. simpl mbind.
    rewrite MIN_min. pose proof (past_band_start_u8 _ Hv).
    set (hi := Z.min v end_). rewrite odd_test.
    assert (Hw : ∀ k b, end_ ≤ k →
      while_loop 128 (λ '(bin, _), bin <? hi) (λ '(bin, bap),
        p1 ← aget psd bin;
        p2 ← aget psd (bin + 1);
        b1 ← aget a52_bap_tab (bap_address p1 (bap_level mk snr floor));
        bap ← aset bap bin b1;
        b2 ← aget a52_bap_tab (bap_address p2 (bap_level mk snr floor));
        bap ← aset bap (bin + 1) b2;
        Some (bin + 2, bap)) (k, b) = Some (k, b)).
    { intros k b Hk. apply while_stop. lia. }
    destruct (Z.odd (hi - end_)).
    + wp_steps. unfold bap_level in Hw. rewrite Hw by lia. wp_steps.
      split; [lia|]. rewrite zlen_upd. split; [done|]. intros i Hi [Hne|]; [|lia].
      rewrite at_upd by lia. by destruct (Z.eqb_spec i end_).
    + wp_steps. unfold bap_level in Hw. rewrite Hw by lia. wp_steps. split; [lia|done].
Qed.

(** An iteration on a band with bins in the range. *)
Lemma bap_body_band bin band bap :
  bin < end_ → bap_inv mask psd bap0 start end_ snr floor (bin, band, bap) →
  wp (bap_body (bin, band, bap)) (λ r, snd r = true ∧ snd (fst (fst r)) = band + 1 ∧
    bap_inv mask psd bap0 start end_ snr floor (fst r)).
Proof.
  intros Hlt (Hb & Hbin & Hl & [(_ & Hb50 & Hbe & Hbb)|(? & _)] & Hat); [|lia].
  pose proof (bin_to_band_in start ltac:(lia)) as [Hb0 Hin].
  pose proof (band_start_step band ltac:(lia)).
  unfold bap_body. rewrite get_mask_in, (get_band_start_in (band + 1)) by lia. simpl mbind.
  rewrite MIN_min. set (hi := Z.min _ end_). cbv zeta.
  fold (bap_level mask.[band] snr floor). set (m := bap_level _ _ _).
  assert (Hhi : bin < hi ≤ end_) by lia.
  pose proof (fill_band psd bap m bin hi ltac:(lia) ltac:(lia) ltac:(lia) ltac:(lia)) as Hfill.
  apply wp_bind_inv in Hfill. apply wp_bind. eapply wp_mono; [exact Hfill|]. clear Hfill.
  intros [k1 bap1] Hw. simpl in Hw. apply wp_bind. eapply wp_mono; [exact Hw|].
  clear Hw. intros [k2 bap2] (-> & Hl2 & Hat2). rewrite get_band_start_in by lia. wp_steps.
  simpl. split; [lia|]. split; [done|]. split; [lia|]. split; [lia|]. split; [lia|]. split.
  - destruct (Z.ltb_spec band_start_tab.[band + 1] end_).
    + pose proof (band_start_last (band + 1) ltac:(lia)).
      pose proof (band_start_step (band + 1) ltac:(lia)). left. lia.
    + right. replace (band + 1 - 1) with band by lia. lia.
  - intros i Hi. rewrite Hat2, Hat by lia.
    destruct (Z.leb_spec bin i), (Z.ltb_spec i hi); simpl.
    + replace ((start <=? i) && true) with true by lia.
      by rewrite (in_band_eq i band) by (split; lia).
    + replace ((start <=? i) && (i <? bin)) with false by lia. by rewrite andb_false_r.
    + by replace (i <? bin) with true by lia.
    + lia.
Qed.

Lemma a52_bit_alloc_calc_bap_run :
  snr ≠ -960 →
  wp (a52_bit_alloc_calc_bap mask psd start end_ snr floor bap0)
     (λ bap, bap_result mask psd bap0 bap start end_ snr floor).
Proof.
  intros Hsnr. unfold a52_bit_alloc_calc_bap. rewrite (proj2 (Z.eqb_neq snr (-960)) Hsnr).
  pose proof (bin_to_band_in start ltac:(lia)) as [Hb0 Hin].
  wp_step. wp_step. apply wp_bind.
  apply (wp_do_while (bap_inv mask psd bap0 start end_ snr floor) (λ '(_, band, _), Z.to_nat (52 - band))).
  - split_and!; try lia. intros i Hi. by replace ((start <=? i) && (i <? start)) with false by lia.
  - lia.
  - intros [[bin band] bap] Hinv. match goal with |- wp _ ?Q => change (wp (bap_body (bin, band, bap)) Q) end.
    destruct (Z.ltb_spec bin end_).
    + eapply wp_mono; [by apply (bap_body_band bin)|].
      intros [[[b' band'] bap'] c]. simpl. intros (-> & -> & Hinv'). split; [done|].
      destruct Hinv' as (? & _). lia.
    + destruct Hinv as (Hb & Hbin & Hl & [(? & _)|(-> & Hb1 & Hbs)] & Hat); [lia|].
      eapply wp_mono; [apply bap_body_extra; lia|].
      intros [[[b' band'] bap'] c]. simpl. intros (-> & Hl' & Hat'). apply wp_ret.
      split; [lia|]. intros i Hi Hor. rewrite Hat', Hat; [done|lia|lia|].
      destruct Hor as [|Hle]; [by left|right].
      destruct (Z.ltb_spec band 50); [done|].
      assert (band = 50) as -> by lia. change (50 - 1) with 49 in Hbs. lia.
Qed.
End run.
End bap.

(** More SNR never lowers a pointer. *)
Lemma bap_of_mono mask psd floor s1 s2 :
  s1 ≤ s2 → mask - s1 - floor < 8192 →
  bap_of mask psd s1 floor ≤ bap_of mask psd s2 floor.
Proof.
  intros Hs Hm. unfold bap_of. apply bap_tab_mono; [|apply bap_address_range].
  pose proof (bap_address_range psd (bap_level mask s1 floor)). split; [lia|].
  assert (Hland : ∀ x, 0 ≤ x < 8192 → Z.land x 0x1FE0 = 32 * (x / 32)).
  { intros x Hx. change 32 with (2 ^ 5). rewrite <- Z.shiftr_div_pow2, Z.mul_comm, <- Z.shiftl_mul_pow2 by lia.
    rewrite <- (Z.mod_small x (2 ^ 13)) by lia.
    change 0x1FE0 with (Z.shiftl (Z.ones 8) 5). bits_eq; bits_simp. }
  assert (Hlev : bap_level mask s2 floor ≤ bap_level mask s1 floor).
  { unfold bap_level. rewrite !MAX_max, !Hland by lia.
    pose proof (Z.div_le_mono (Z.max (mask - s2 - floor) 0) (Z.max (mask - s1 - floor) 0) 32). lia. }
  unfold bap_address. rewrite !CLIP_clip, !Z.shiftr_div_pow2 by lia.
  pose proof (Z.div_le_mono (psd - bap_level mask s1 floor) (psd - bap_level mask s2 floor) (2 ^ 5)). lia.
Qed.

(** * Bounds of the masking curve *)

Record bit_alloc_params_ok (s : BitAllocParams.t) : Prop := {
  bap_sgain : 1040 ≤ BitAllocParams.sgain s ≤ 1344;
  bap_sdecay : 0 ≤ BitAllocParams.sdecay s;
  bap_fdecay : 0 ≤ BitAllocParams.fdecay s;
  bap_dbknee : 0 ≤ BitAllocParams.dbknee s ≤ 2816;
  bap_halfrate : 0 ≤ BitAllocParams.halfratecod s ≤ 2;
  bap_fscod : 0 ≤ BitAllocParams.fscod s ≤ 2
}.

Lemma hearing_threshold_row b : 0 ≤ b < 50 → zlen a52_hearing_threshold_tab.[b] = 3.
Proof. intros Hb. table_check (λ b, zlen a52_hearing_threshold_tab.[b] =? 3) 50 Hb. lia. Qed.

Lemma hearing_threshold_range b f :
  0 ≤ b < 50 → 0 ≤ f ≤ 2 → 752 ≤ a52_hearing_threshold_tab.[b].[f] ≤ 2112.
Proof.
  intros Hb Hf. pose proof (hearing_threshold_row b Hb) as Hrow.
  table_check (λ b, forallb (λ t, (752 <=? t) && (t <=? 2112)) a52_hearing_threshold_tab.[b]) 50 Hb.
  apply (forallb_at _ _ f) in Hb; lia.
Qed.

Lemma calc_lowcomp1_range a b0 b1 c : 0 ≤ a ≤ 384 → 0 ≤ c ≤ 384 → 0 ≤ calc_lowcomp1 a b0 b1 c ≤ 384.
Proof. intros. unfold calc_lowcomp1. rewrite MAX_max. repeat case_match; lia. Qed.

Lemma calc_lowcomp_range a b0 b1 bin : 0 ≤ a ≤ 384 → 0 ≤ calc_lowcomp a b0 b1 bin ≤ 384.
Proof.
  intros. unfold calc_lowcomp. rewrite MAX_max.
  repeat case_match; try apply calc_lowcomp1_range; lia.
Qed.

(** The masking curve as the standard describes it, on unbounded integers. *)
Section masking_curve.
Variables (s : BitAllocParams.t) (band_psd : list Z) (fast_gain band_end : Z).

(** The low-frequency compensation after the first [n] bands: a band 256
    below its successor sets it, a band above its successor lets it fall.  The
    last band of the LFE channel (7 bands) leaves it as it is. *)
Fixpoint compensation (n : nat) : Z :=
  match n with
  | O => 0
  | S k =>
    let b := Z.of_nat k in let before := compensation k in
    if (band_end =? 7) && (b =? 6) then before
    else if 20 <=? b then Z.max 0 (before - 128)
    else if band_psd.[b + 1] =? band_psd.[b] + 256 then (if b <? 7 then 384 else 320)
    else if band_psd.[b + 1] <? band_psd.[b] then Z.max 0 (before - 64)
    else before
  end.

(** The band from which the leaks start: the first of the bands 2 to 5 that is
    not above its successor, or else band 6. *)
Definition leak_start (first : Z) : Prop :=
  2 ≤ first ≤ 6 ∧ (∀ b, 2 ≤ b < first → band_psd.[b + 1] < band_psd.[b]) ∧
  (first < 6 → band_psd.[first] ≤ band_psd.[first + 1]).

(** [v] is the strongest of what the bands from [first] to [b] leak into
    band [b]: a band's power less the gain and less the decay per band of
    distance. *)
Definition strongest_leak (gain decay first b v : Z) : Prop :=
  (∃ j, first ≤ j ≤ b ∧ v = band_psd.[j] - gain - (b - j) * decay) ∧
  (∀ j, first ≤ j ≤ b → band_psd.[j] - gain - (b - j) * decay ≤ v).

(** The excitation of a band. *)
Definition excitation (first b e : Z) : Prop :=
  if b <=? first then e = band_psd.[b] - fast_gain - compensation (Z.to_nat (b + 1))
  else ∃ fast slow,
    strongest_leak fast_gain (BitAllocParams.fdecay s) first b fast ∧
    strongest_leak (BitAllocParams.sgain s) (BitAllocParams.sdecay s) first b slow ∧
    e = Z.max (fast - (if b <? 22 then compensation (Z.to_nat (b + 1)) else 0)) slow.

(** What a band below the knee gains. *)
Definition knee_gain (b : Z) : Z := Z.max 0 (BitAllocParams.dbknee s - band_psd.[b]) / 4.

(** The hearing threshold of a band. *)
Definition mask_floor (b : Z) : Z :=
  a52_hearing_threshold_tab.[Z.shiftr b (BitAllocParams.halfratecod s)].[BitAllocParams.fscod s].

(** The mask of the bands of a channel. *)
Definition masking_curve (mask : list Z) : Prop :=
  ∃ first, leak_start first ∧ ∀ b, 0 ≤ b < band_end → ∃ e,
    excitation first b e ∧ -1500 ≤ e ∧ mask.[b] = Z.max (mask_floor b) (e + knee_gain b).
End masking_curve.

Section mask_bounds.
Context `{R : Residue} {ROk : ResidueOk R}.
Variables (s : BitAllocParams.t) (band_psd : list Z) (fast_gain band_end : Z).
Hypothesis Hs : bit_alloc_params_ok s.
Hypothesis Hfg : 128 ≤ fast_gain ≤ 1024.
Hypothesis Hend : 7 ≤ band_end ≤ 50.
Hypothesis Hlen : zlen band_psd = 50.
Hypothesis Hpsd : ∀ b, 0 ≤ b < band_end → 0 ≤ band_psd.[b] ≤ 4544.

Abbreviation compensation := (compensation band_psd band_end).
Abbreviation strongest_leak := (strongest_leak band_psd).
Abbreviation excitation := (excitation s band_psd fast_gain band_end).

(** The compensation as the loops compute it. *)
Lemma compensation_step k p' :
  0 ≤ k → p' = band_psd.[k + 1] →
  (if negb ((band_end =? 7) && (k =? 6)) then calc_lowcomp (compensation (Z.to_nat k)) band_psd.[k] p' k
   else compensation (Z.to_nat k)) = compensation (Z.to_nat (k + 1)).
Proof.
  intros Hk ->. replace (Z.to_nat (k + 1)) with (S (Z.to_nat k)) by lia. simpl.
  rewrite Z2Nat.id by lia. unfold calc_lowcomp, calc_lowcomp1.
  destruct ((band_end =? 7) && (k =? 6)); [done|]. simpl. rewrite !MAX_max.
  repeat case_match; lia.
Qed.

Lemma compensation_range n : 0 ≤ compensation n ≤ 384.
Proof. induction n as [|n IH]; simpl; [lia|]. repeat case_match; lia. Qed.

(** The excitation of the first [n] bands, and its range. *)
Definition excite_ok (first n : Z) (excite : list Z) : Prop :=
  zlen excite = 50 ∧ ∀ b, 0 ≤ b < n → excitation first b excite.[b] ∧ -1500 ≤ excite.[b] ≤ 4416.

Lemma excite_ok_upd first n excite v :
  excite_ok first n excite → 0 ≤ n < 50 → excitation first n v → -1500 ≤ v ≤ 4416 →
  excite_ok first (n + 1) (upd excite n (i16 v)).
Proof.
  intros [Hl He] Hn Hv Hr. split; [by rewrite zlen_upd|]. intros b Hb.
  rewrite at_upd, i16_id by lia. destruct (Z.eqb_spec b n) as [->|]; [done|]. apply He. lia.
Qed.

Lemma excitation_low first b :
  b ≤ first → excitation first b (band_psd.[b] - fast_gain - compensation (Z.to_nat (b + 1))).
Proof. intros Hb. unfold A52.excitation. by replace (b <=? first) with true by lia. Qed.

Lemma excite_ok_low first n excite :
  0 ≤ n < band_end → n ≤ first → n < 50 → excite_ok first n excite →
  excite_ok first (n + 1)
    (upd excite n (i16 (band_psd.[n] - fast_gain - compensation (Z.to_nat (n + 1))))).
Proof.
  intros Hn Hf H50 Hex. pose proof (Hpsd n Hn). pose proof (compensation_range (Z.to_nat (n + 1))).
  apply excite_ok_upd; [done|lia|by apply excitation_low|lia].
Qed.

Lemma excite_ok_first first excite :
  first ≤ 7 → excite_ok 7 (first + 1) excite → excite_ok first (first + 1) excite.
Proof.
  intros Hf [Hl He]. split; [done|]. intros b Hb. destruct (He b Hb) as [Hx Hr]. split; [|done].
  revert Hx. unfold A52.excitation.
  by replace (b <=? 7) with true by lia; replace (b <=? first) with true by lia.
Qed.

(** A leak at its first band, and carried to the next band. *)
Lemma strongest_leak_first gain decay first v :
  v = band_psd.[first] - gain → strongest_leak gain decay first first v.
Proof.
  intros ->. split; [exists first; split; [lia|ring]|]. intros j Hj.
  assert (j = first) as -> by lia. lia.
Qed.

Lemma strongest_leak_next gain decay first b v :
  first ≤ b + 1 → strongest_leak gain decay first b v →
  strongest_leak gain decay first (b + 1) (Z.max (v - decay) (band_psd.[b + 1] - gain)).
Proof.
  intros Hfb [(j & Hj & ->) Hmax]. split.
  - destruct (Z.max_spec (band_psd.[j] - gain - (b - j) * decay - decay) (band_psd.[b + 1] - gain))
      as [[_ ->]|[_ ->]]; [exists (b + 1)|exists j]; (split; [lia|ring]).
  - intros i Hi. destruct (Z.eqb_spec i (b + 1)) as [->|]; [lia|].
    specialize (Hmax i ltac:(lia)). lia.
Qed.

Lemma strongest_leak_range gain decay first b v :
  0 ≤ first ≤ b → b < band_end → 0 ≤ decay → strongest_leak gain decay first b v →
  - gain ≤ v ≤ 4544 - gain.
Proof.
  intros Hf Hb Hd [(j & Hj & ->) Hmax]. pose proof (Hmax b ltac:(lia)).
  pose proof (Hpsd b ltac:(lia)). pose proof (Hpsd j ltac:(lia)). nia.
Qed.

Definition leaks_ok (first b fastleak slowleak : Z) : Prop :=
  strongest_leak fast_gain (BitAllocParams.fdecay s) first b fastleak ∧
  strongest_leak (BitAllocParams.sgain s) (BitAllocParams.sdecay s) first b slowleak.

(** One band of the loops with leaks: [lc] is the compensation they use. *)
Lemma leak_band first band fastleak slowleak lc excite :
  0 ≤ first < band → band < band_end →
  lc = (if band <? 22 then compensation (Z.to_nat (band + 1)) else 0) →
  leaks_ok first (band - 1) fastleak slowleak → excite_ok first band excite →
  let fl := MAX (fastleak - BitAllocParams.fdecay s) (band_psd.[band] - fast_gain) in
  let sl := MAX (slowleak - BitAllocParams.sdecay s) (band_psd.[band] - BitAllocParams.sgain s) in
  leaks_ok first band fl sl ∧ excite_ok first (band + 1) (upd excite band (i16 (MAX (fl - lc) sl))).
Proof.
  intros Hf Hb -> [Hfl Hsl] Hex. cbv zeta. rewrite !MAX_max.
  destruct Hs as [? bap_sdecay0 bap_fdecay0 _ _ _].
  apply strongest_leak_next in Hfl; [|lia]. apply strongest_leak_next in Hsl; [|lia].
  replace (band - 1 + 1) with band in * by lia.
  pose proof (strongest_leak_range _ _ first band _ ltac:(lia) Hb bap_fdecay0 Hfl) as Hrf.
  pose proof (strongest_leak_range _ _ first band _ ltac:(lia) Hb bap_sdecay0 Hsl) as Hrs.
  pose proof (compensation_range (Z.to_nat (band + 1))).
  split; [by split|]. apply excite_ok_upd; [done|lia| |case_match; lia].
  unfold A52.excitation. replace (band <=? first) with false by lia. eauto.
Qed.

(** The compensation of one band, in either loop. *)
Lemma lowcomp_step (f : Z → Z → Z) band (Q : Z → Prop) :
  0 ≤ band < band_end → band < 22 →
  (∀ p', f band_psd.[band] p' = calc_lowcomp (compensation (Z.to_nat band)) band_psd.[band] p' band) →
  Q (compensation (Z.to_nat (band + 1))) →
  wp (if negb ((band_end =? 7) && (band =? 6))
      then p' ← aget band_psd (band + 1); Some (f band_psd.[band] p')
      else Some (compensation (Z.to_nat band))) Q.
Proof.
  intros Hb Hb22 Hf HQ. pose proof (compensation_step band _ ltac:(lia) eq_refl) as Hc.
  destruct ((band_end =? 7) && (band =? 6)); simpl in *.
  - apply wp_ret. by rewrite Hc.
  - wp_steps. by rewrite Hf, Hc.
Qed.

Definition low_state (first : Z) : Z * Z * Z * Z * list Z → Prop :=
  λ '(begin, lowcomp, fastleak, slowleak, excite),
    begin = first + 1 ∧ lowcomp = compensation (Z.to_nat (first + 1)) ∧
    leaks_ok first first fastleak slowleak ∧ excite_ok first (first + 1) excite.

(** The bands before the leaks start, as the loop leaves them. *)
Definition falling (band : Z) : Z * Z * Z * Z * list Z → Prop :=
  λ '(begin, lowcomp, fastleak, slowleak, excite),
    begin = 7 ∧ lowcomp = compensation (Z.to_nat band) ∧ excite_ok 7 band excite ∧
    (∀ b, 2 ≤ b < Z.min band 6 → band_psd.[b + 1] < band_psd.[b]) ∧
    (2 < band → leaks_ok (band - 1) (band - 1) fastleak slowleak).

Lemma falling_done st : falling 7 st → ∃ first, leak_start band_psd first ∧ low_state first st.
Proof.
  destruct st as [[[[begin lc] fl] sl] ex]. intros (-> & -> & Hex & Hfall & Hl). exists 6. split.
  - split_and!; [lia|lia| |lia]. intros b Hb. apply Hfall. lia.
  - split_and!; [done|done|apply Hl; lia|apply (excite_ok_first 6); [lia|done]].
Qed.

Lemma low_bands excite :
  zlen excite = 50 →
  let lc0 := calc_lowcomp1 0 band_psd.[0] band_psd.[1] 384 in
  let lc1 := calc_lowcomp1 lc0 band_psd.[1] band_psd.[2] 384 in
  falling 2 (7, lc1, 0, 0, upd (upd excite 0 (i16 (band_psd.[0] - fast_gain - lc0))) 1
                             (i16 (band_psd.[1] - fast_gain - lc1))).
Proof.
  intros Hle. cbv zeta.
  pose proof (compensation_step 0 _ ltac:(lia) eq_refl) as H0.
  pose proof (compensation_step 1 _ ltac:(lia) eq_refl) as H1.
  rewrite andb_false_r in H0, H1. cbn [negb] in H0, H1. unfold calc_lowcomp in H0, H1.
  change (0 <? 7) with true in H0. change (1 <? 7) with true in H1. cbv iota in H0, H1.
  change (Z.to_nat 0) with 0%nat in H0. change (A52.compensation band_psd band_end 0) with 0 in H0.
  change (0 + 1) with 1 in *. change (1 + 1) with 2 in *. rewrite H0, H1.
  split_and!; [done|done| |lia|lia].
  apply (excite_ok_low 7 1); [lia..|]. apply (excite_ok_low 7 0); [lia..|]. split; [done|lia].
Qed.

Lemma excite_low_ok excite :
  zlen excite = 50 →
  wp (excite_low s band_psd fast_gain band_end excite) (λ '(excite', fastleak, slowleak),
    ∃ first, leak_start band_psd first ∧ excite_ok first (Z.min band_end 22) excite' ∧
      leaks_ok first (Z.min band_end 22 - 1) fastleak slowleak).
Proof.
  intros Hle. destruct Hs as []. pose proof (low_bands excite Hle) as Hinit.
  unfold excite_low. wp_steps.
  apply (wp_mono _ (λ st, ∃ first, leak_start band_psd first ∧ low_state first st)).
  - apply (wp_for_break falling); [lia|exact Hinit| |apply falling_done].
    intros band [[[[begin lc] fl] sl] ex] Hb (-> & -> & Hex & Hfall & _). pose proof Hex as [Hex50 _].
    do 3 wp_step.
    apply (lowcomp_step (λ p p', calc_lowcomp1 (compensation (Z.to_nat band)) p p' 384) band); [lia|lia| |].
    { intros p'. unfold calc_lowcomp. by replace (band <? 7) with true by lia. }
    assert (Hleaks : leaks_ok band band (band_psd.[band] - fast_gain)
                       (band_psd.[band] - BitAllocParams.sgain s)) by (split; by apply strongest_leak_first).
    apply (excite_ok_low 7 band) in Hex; [|lia..].
    wp_steps.
    + exists band. split; [|by split_and!; [..|apply excite_ok_first; [lia|]]].
      split_and!; [lia|lia| |lia]. intros b Hb'. apply Hfall. lia.
    + split_and!; try done; [|by replace (band + 1 - 1) with band by lia].
      intros b Hb'. destruct (Z.eqb_spec b band) as [->|]; [lia|apply Hfall; lia].
    + split_and!; try done; [|by replace (band + 1 - 1) with band by lia].
      intros b Hb'. apply Hfall. lia.
  - intros [[[[begin lc] fl] sl] ex] (first & Hfirst & -> & -> & Hl & Hex). pose proof Hfirst as [Hf6 _].
    wp_step. rewrite MIN_min.
    apply (wp_for_up (λ band '(lowcomp, fastleak, slowleak, excite),
      lowcomp = compensation (Z.to_nat band) ∧ leaks_ok first (band - 1) fastleak slowleak ∧
      excite_ok first band excite)).
    + lia.
    + by replace (first + 1 - 1) with first by lia.
    + intros band [[[lc1 fl1] sl1] ex1] Hb (-> & Hl1 & Hex1). pose proof Hex1 as [Hex50 _].
      do 3 wp_step.
      apply (lowcomp_step (λ p p', calc_lowcomp (compensation (Z.to_nat band)) p p' band) band); [lia|lia|done|].
      wp_steps. split; [done|]. replace (band + 1 - 1) with band by lia.
      apply leak_band; [lia|lia|by replace (band <? 22) with true by lia|done|done].
    + intros [[[lc1 fl1] sl1] ex1] (-> & Hl1 & Hex1). wp_steps. eauto.
Qed.

Lemma shiftr_band b k : 0 ≤ b < 50 → 0 ≤ k → 0 ≤ Z.shiftr b k < 50.
Proof.
  intros Hb Hk. rewrite Z.shiftr_div_pow2 by lia. assert (0 < 2 ^ k) by (apply Z.pow_pos_nonneg; lia).
  split; [apply Z.div_pos; lia|]. apply Z.div_lt_upper_bound; nia.
Qed.

Lemma wp_threshold b (Q : Z → Prop) :
  0 ≤ b < 50 → Q (mask_floor s b) →
  wp (aget2 a52_hearing_threshold_tab (Z.shiftr b (BitAllocParams.halfratecod s)) (BitAllocParams.fscod s)) Q.
Proof.
  intros Hb HQ. destruct Hs. unfold aget2.
  pose proof (shiftr_band b (BitAllocParams.halfratecod s) Hb ltac:(lia)) as Hsb.
  wp_step. wp_step. apply wp_aget; [|done]. rewrite hearing_threshold_row by lia. lia.
Qed.

(** The knee's gain as the code computes it. *)
Lemma knee_gain_above b :
  BitAllocParams.dbknee s - band_psd.[b] > 0 →
  Z.shiftr (BitAllocParams.dbknee s - band_psd.[b]) 2 = knee_gain s band_psd b.
Proof. intros H. unfold knee_gain. by rewrite Z.max_r, Z.shiftr_div_pow2 by lia. Qed.

Lemma knee_gain_below b : BitAllocParams.dbknee s - band_psd.[b] ≤ 0 → knee_gain s band_psd b = 0.
Proof. intros H. unfold knee_gain. by rewrite Z.max_l by lia. Qed.

Lemma knee_gain_range b : 0 ≤ b < band_end → 0 ≤ knee_gain s band_psd b ≤ 704.
Proof.
  intros Hb. pose proof (Hpsd b Hb). destruct Hs. unfold knee_gain.
  split; [apply Z.div_pos; lia|apply Z.div_le_upper_bound; lia].
Qed.

(** The last loop: knee and threshold. *)
Lemma mask_loop first excite mask :
  excite_ok first band_end excite → zlen mask = 50 → leak_start band_psd first →
  wp (for_up 0 band_end (λ band '(excite, mask),
    p ← aget band_psd band;
    let tmp := BitAllocParams.dbknee s - p in
    e ← aget excite band;
    excite ← (if tmp >? 0 then aset excite band (i16 (e + Z.shiftr tmp 2)) else Some excite);
    e ← aget excite band;
    th ← aget2 a52_hearing_threshold_tab (Z.shiftr band (BitAllocParams.halfratecod s)) (BitAllocParams.fscod s);
    mask ← aset mask band (i16 (MAX th e));
    Some (excite, mask)) (excite, mask)) (λ '(_, mask'), zlen mask' = 50 ∧
      masking_curve s band_psd fast_gain band_end mask' ∧
      (∀ b, 0 ≤ b < band_end → mask_floor s b ≤ mask'.[b] ≤ 5120) ∧
      (∀ b, band_end ≤ b → mask'.[b] = mask.[b])).
Proof.
  intros [Hl50 Hex] Hlm Hfirst. destruct Hs.
  apply (wp_for_up (λ k '(ex, mask'), zlen ex = 50 ∧ zlen mask' = 50 ∧
    (∀ b, k ≤ b < band_end → ex.[b] = excite.[b]) ∧
    (∀ b, 0 ≤ b < k → mask'.[b] = Z.max (mask_floor s b) (excite.[b] + knee_gain s band_psd b) ∧
       mask_floor s b ≤ mask'.[b] ≤ 5120) ∧ (∀ b, k ≤ b → mask'.[b] = mask.[b]))).
  - lia.
  - split_and!; try done. lia.
  - intros k [ex mask'] Hk (Hlx & Hlm' & Hxe & Hin & Hout).
    pose proof (Hpsd k ltac:(lia)). destruct (Hex k ltac:(lia)) as [_ Hrx].
    pose proof (Hxe k ltac:(lia)) as Hxk.
    assert (Hth : 752 ≤ mask_floor s k ≤ 2112)
      by (apply hearing_threshold_range; [apply shiftr_band|]; lia).
    pose proof (knee_gain_range k ltac:(lia)) as Hknee.
    do 5 wp_step. rewrite Hxk. cbv zeta. wp_step.
    apply (wp_mono _ (λ ex', zlen ex' = 50 ∧ ex'.[k] = excite.[k] + knee_gain s band_psd k ∧
      ∀ b, k + 1 ≤ b < band_end → ex'.[b] = excite.[b])).
    + wp_step.
      * wp_step. rewrite zlen_upd, at_upd_eq, knee_gain_above, i16_id by lia.
        split_and!; [done..|]. intros b Hb. rewrite at_upd_ne by lia. apply Hxe. lia.
      * apply wp_ret. rewrite knee_gain_below by lia. split_and!; [done|lia|].
        intros b Hb. apply Hxe. lia.
    + intros ex' (Hlx' & Hrk & Hxe'). wp_step. wp_step. wp_step. apply wp_threshold; [lia|].
      rewrite Hrk. wp_steps. rewrite zlen_upd, MAX_max, i16_id by lia. split_and!; try done.
      * intros b Hb. rewrite at_upd by lia. destruct (Z.eqb_spec b k) as [->|]; [lia|]. apply Hin. lia.
      * intros b Hb. rewrite at_upd_ne by lia. apply Hout. lia.
  - intros [ex mask'] (_ & Hlm' & _ & Hin & Hout). split; [done|]. split.
    + exists first. split; [done|]. intros b Hb. exists excite.[b].
      destruct (Hex b Hb). split_and!; [done|lia|by apply Hin].
    + split; [|done]. intros b Hb. by apply Hin.
Qed.
End mask_bounds.

Lemma a52_bit_alloc_calc_mask_curve `{R : Residue} {ROk : ResidueOk R} s band_psd end_ fast_gain mask :
  bit_alloc_params_ok s → 128 ≤ fast_gain ≤ 1024 → 7 ≤ end_ ≤ 253 → zlen band_psd = 50 → zlen mask = 50 →
  let band_end := bin_to_band_tab.[end_ - 1] + 1 in
  (∀ b, 0 ≤ b < band_end → 0 ≤ band_psd.[b] ≤ 4544) →
  wp (a52_bit_alloc_calc_mask s band_psd 0 end_ fast_gain (-1) (-1) [] [] [] mask) (λ mask',
    zlen mask' = 50 ∧ masking_curve s band_psd fast_gain band_end mask' ∧
    (∀ b, 0 ≤ b < band_end → mask_floor s b ≤ mask'.[b] ≤ 5120) ∧
    (∀ b, band_end ≤ b → mask'.[b] = mask.[b])).
Proof.
  intros Hs Hfg He Hlb Hlm be Hpsd. unfold a52_bit_alloc_calc_mask.
  pose proof (bin_to_band_in (end_ - 1) ltac:(lia)) as [Hbe Hbe2].
  assert (Hbe7 : 7 ≤ be).
  { unfold be. destruct (Z.ltb_spec bin_to_band_tab.[end_ - 1] 6); [|lia].
    assert (Hle : 0 ≤ bin_to_band_tab.[end_ - 1] + 1 ≤ 6) by lia.
    pose proof (band_start_mono _ _ Hle ltac:(lia)) as Hm.
    change band_start_tab.[6] with 6 in Hm. lia. }
  assert (Hbe50 : 7 ≤ be ≤ 50) by (unfold be; lia).
  do 4 wp_step. fold be. change (bin_to_band_tab.[0] =? 0) with true. cbv iota zeta.
  wp_step. wp_step. eapply wp_mono; [apply (excite_low_ok s band_psd fast_gain be); [done..|apply stack_excite_len]|].
  intros [[ex fl] sl] (first & Hfirst & Hex & Hl). pose proof Hfirst as [Hf6 _]. wp_step.
  wp_step.
  apply (wp_mono _ (λ '(_, _, excite), excite_ok s band_psd fast_gain be first be excite)).
  - destruct (Z.leb_spec be 22) as [Hle|Hgt].
    + rewrite for_up_done by lia. apply wp_ret. by rewrite Z.min_l in Hex by lia.
    + rewrite Z.min_r in Hex, Hl by lia.
      apply (wp_for_up (λ band '(fastleak, slowleak, excite),
        leaks_ok s band_psd fast_gain first (band - 1) fastleak slowleak ∧
        excite_ok s band_psd fast_gain be first band excite)).
      * lia.
      * done.
      * intros band [[fl1 sl1] ex1] Hb (Hl1 & Hex1). pose proof Hex1 as [Hex50 _].
        wp_steps. replace (band + 1 - 1) with band by lia.
        pose proof (leak_band s band_psd fast_gain be Hs Hfg Hbe50 Hpsd first band fl1 sl1 0 ex1) as Hband.
        cbv zeta in Hband. rewrite Z.sub_0_r in Hband.
        apply Hband; [lia|lia|by replace (band <? 22) with false by lia|done|done].
      * by intros [[fl1 sl1] ex1] [_ Hex1].
  - intros [[fl1 sl1] ex1] Hex1. change (bin_to_band_tab.[0]) with 0. wp_step.
    eapply wp_mono; [by apply (mask_loop s band_psd fast_gain be) with first|].
    intros [ex2 mask2] Hm. exact Hm.
Qed.

Lemma a52_bit_alloc_calc_mask_spec `{R : Residue} {ROk : ResidueOk R} s band_psd end_ fast_gain mask :
  bit_alloc_params_ok s → 128 ≤ fast_gain ≤ 1024 → 7 ≤ end_ ≤ 253 → zlen band_psd = 50 → zlen mask = 50 →
  let band_end := bin_to_band_tab.[end_ - 1] + 1 in
  (∀ b, 0 ≤ b < band_end → 0 ≤ band_psd.[b] ≤ 4544) →
  wp (a52_bit_alloc_calc_mask s band_psd 0 end_ fast_gain (-1) (-1) [] [] [] mask) (λ mask',
    zlen mask' = 50 ∧ (∀ b, 0 ≤ b < band_end → mask_floor s b ≤ mask'.[b] ≤ 5120) ∧
    (∀ b, band_end ≤ b → mask'.[b] = mask.[b])).
Proof.
  intros. eapply wp_mono; [by apply a52_bit_alloc_calc_mask_curve|].
  by intros mask' (? & _ & ? & ?).
Qed.

(** * Properties *)

(** [a52_common_init] fills the two band tables without leaving them;
    the bands partition the bins 0 to 252, and [bin_to_band_tab] gives the band
    of every bin. *)
Theorem a52_common_init_tables :
  a52_common_init band_start_zero bin_to_band_zero = Some (band_start_tab, bin_to_band_tab) ∧
  band_start_tab.[0] = 0 ∧ band_start_tab.[50] = 253 ∧
  ∀ bin band, in_band bin band ↔ 0 ≤ bin < 253 ∧ band = bin_to_band_tab.[bin].
Proof.
  split; [vm_compute; reflexivity|]. split; [done|]. split; [done|].
  intros bin band. split.
  - intros Hin. rewrite (in_band_eq _ _ Hin). destruct Hin as [Hb Hin].
    pose proof (band_start_step band Hb). lia.
  - intros [Hb ->]. by apply bin_to_band_in.
Qed.

(** The power spectrum: every bin of the range gets [3072 - 128 * exp]
    and every band that the range touches the log-sum of its bins in the range,
    between 0 and 4544 (so that no [int16_t] wraps); all other elements keep
    their values and no array is left. *)
Theorem calc_psd_correct exp_ start end_ psd band_psd :
  0 ≤ start < end_ → end_ ≤ 253 → end_ ≤ zlen exp_ → end_ ≤ zlen psd → 50 ≤ zlen band_psd →
  (∀ i, start ≤ i < end_ → 0 ≤ exp_.[i] ≤ 24) →
  wp (a52_bit_alloc_calc_psd exp_ start end_ psd band_psd) (λ '(psd', band_psd'),
    (∀ i, 0 ≤ i → psd'.[i] = if (start <=? i) && (i <? end_) then 3072 - 128 * exp_.[i] else psd.[i]) ∧
    (∀ b, band_touched start end_ b →
       band_psd'.[b] = band_power exp_ start end_ b ∧ 0 ≤ band_psd'.[b] ≤ 4544) ∧
    (∀ b, 0 ≤ b → ¬ band_touched start end_ b → band_psd'.[b] = band_psd.[b])).
Proof.
  intros Hs He Hle Hlp Hlb Hexp. eapply wp_mono; [by apply a52_bit_alloc_calc_psd_spec|].
  intros [psd' bp'] (_ & _ & Hp & Hin & Hout). split; [done|]. split; [|done].
  intros b Hb. rewrite Hin by done. split; [done|]. by apply band_power_bounds.
Qed.

Lemma calc_psd_correct_witness :
  wp (a52_bit_alloc_calc_psd (replicate 256 9) 0 73 (replicate 256 0) (replicate 50 0)) (λ '(psd', band_psd'),
    (∀ i, 0 ≤ i → psd'.[i] = if (0 <=? i) && (i <? 73) then 3072 - 128 * (replicate 256 9).[i]
                             else (replicate 256 0).[i]) ∧
    (∀ b, band_touched 0 73 b →
       band_psd'.[b] = band_power (replicate 256 9) 0 73 b ∧ 0 ≤ band_psd'.[b] ≤ 4544) ∧
    (∀ b, 0 ≤ b → ¬ band_touched 0 73 b → band_psd'.[b] = (replicate 50 0).[b])).
Proof.
  apply (calc_psd_correct (replicate 256 9) 0 73); try (vm_compute; intuition congruence).
  intros i Hi. rewrite at_replicate by lia. lia.
Defined.

(** C30: The masking curve of an encoder channel (no delta allocation, range
    from bin 0) is the standard's, computed on unbounded integers: up to the
    first of the bands 2 to 6 that is not above its successor the excitation is
    the band's power less the gain and the low-frequency compensation, from
    there on the strongest of the fast and slow leaks of all bands since; a band
    below the knee gains a quarter of the difference, and the mask is at least
    the hearing threshold of the sample rate.  So no [int16_t] of the
    computation wraps; the mask is at most 5120, the other bands keep their
    values and no array is left. *)
Theorem calc_mask_bounds `{R : Residue} {ROk : ResidueOk R} s band_psd end_ fast_gain mask :
  bit_alloc_params_ok s → 128 ≤ fast_gain ≤ 1024 → 7 ≤ end_ ≤ 253 → zlen band_psd = 50 → zlen mask = 50 →
  let band_end := bin_to_band_tab.[end_ - 1] + 1 in
  (∀ b, 0 ≤ b < band_end → 0 ≤ band_psd.[b] ≤ 4544) →
  wp (a52_bit_alloc_calc_mask s band_psd 0 end_ fast_gain (-1) (-1) [] [] [] mask) (λ mask',
    zlen mask' = 50 ∧ masking_curve s band_psd fast_gain band_end mask' ∧
    (∀ b, 0 ≤ b < band_end →
       a52_hearing_threshold_tab.[Z.shiftr b (BitAllocParams.halfratecod s)].[BitAllocParams.fscod s]
         ≤ mask'.[b] ≤ 5120) ∧
    (∀ b, band_end ≤ b → mask'.[b] = mask.[b])).
Proof. intros. by apply a52_bit_alloc_calc_mask_curve. Qed.

Definition example_params : BitAllocParams.t :=
  BitAllocParams.mk 0 0 [] 1240 19 83 2304 (-2048) 0 0.

Lemma example_params_ok : bit_alloc_params_ok example_params.
Proof. split; simpl; lia. Qed.

Lemma calc_mask_bounds_witness :
  wp (@a52_bit_alloc_calc_mask trapping_residue example_params (replicate 50 2000) 0 7 512 (-1) (-1) [] [] []
        (replicate 50 0)) (λ mask',
    zlen mask' = 50 ∧ masking_curve example_params (replicate 50 2000) 512 7 mask' ∧
    (∀ b, 0 ≤ b < 7 → a52_hearing_threshold_tab.[Z.shiftr b 0].[0] ≤ mask'.[b] ≤ 5120) ∧
    (∀ b, 7 ≤ b → mask'.[b] = (replicate 50 0).[b])).
Proof.
  apply (@calc_mask_bounds trapping_residue trapping_residue_ok example_params (replicate 50 2000) 7 512
           (replicate 50 0)); [apply example_params_ok|lia|lia|reflexivity|reflexivity|].
  change (bin_to_band_tab.[7 - 1] + 1) with 7. intros b Hb. rewrite at_replicate by lia. lia.
Defined.

(** C27: The optimised [a52_bit_alloc_calc_bap] (a band at a time, two bins
    per step) computes for every bin of the range the pointer of the bin's own
    power and its band's mask, a value in 0 to 15 that is 0 when the SNR offset
    is -960; it writes nothing else, except possibly [bap[end_]] when the range
    reaches the last band.  There it reads past two arrays, which must be
    readable. *)
Theorem calc_bap_correct `{R : Residue} {ROk : ResidueOk R} mask psd bap start end_ snr floor :
  0 ≤ start < end_ → end_ ≤ 253 → zlen mask = 50 → 256 ≤ zlen psd → zlen bap = 256 →
  residue_readable end_ →
  wp (a52_bit_alloc_calc_bap mask psd start end_ snr floor bap) (λ bap',
    zlen bap' = 256 ∧
    (∀ i, start ≤ i < end_ → 0 ≤ bap'.[i] ≤ 15 ∧
       bap'.[i] = if snr =? -960 then 0 else bap_of mask.[bin_to_band_tab.[i]] psd.[i] snr floor) ∧
    (snr ≠ -960 → ∀ i, 0 ≤ i → i < start ∨ end_ < i ∨ (i = end_ ∧ end_ < 230) → bap'.[i] = bap.[i])).
Proof.
  intros Hs He Hm Hp Hb Hr. destruct (Z.eqb_spec snr (-960)) as [->|Hne].
  - unfold a52_bit_alloc_calc_bap. simpl. rewrite memset_in by lia. apply wp_ret.
    assert (Hz : zlen (replicate (Z.to_nat 256) 0) = 256) by done.
    rewrite zlen_splice by lia. split_and!; [done| |lia].
    intros i Hi. rewrite at_splice by lia. rewrite Hz.
    replace ((0 <=? i) && (i <? 0 + 256)) with true by lia. rewrite at_replicate by lia. lia.
  - eapply wp_mono; [apply a52_bit_alloc_calc_bap_run; done || lia|].
    intros bap' [Hl Hat]. split_and!; [lia| |].
    + intros i Hi. rewrite Hat by lia.
      replace ((start <=? i) && (i <? end_)) with true by lia. split; [apply bap_of_range|done].
    + intros _ i Hi Hor. change (band_start_tab.[49]) with 229 in Hat. rewrite Hat by lia.
      by replace ((start <=? i) && (i <? end_)) with false by lia.
Qed.

Lemma calc_bap_correct_witness :
  wp (@a52_bit_alloc_calc_bap readable_residue (replicate 50 900) (replicate 256 2000) 0 253 0 (-2048)
        (replicate 256 0)) (λ bap',
    zlen bap' = 256 ∧
    (∀ i, 0 ≤ i < 253 → 0 ≤ bap'.[i] ≤ 15 ∧
       bap'.[i] = if 0 =? -960 then 0
                  else bap_of (replicate 50 900).[bin_to_band_tab.[i]] (replicate 256 2000).[i] 0 (-2048)) ∧
    (0 ≠ -960 → ∀ i, 0 ≤ i → i < 0 ∨ 253 < i ∨ (i = 253 ∧ 253 < 230) →
       bap'.[i] = (replicate 256 0).[i])).
Proof.
  apply (@calc_bap_correct readable_residue readable_residue_ok (replicate 50 900) (replicate 256 2000));
    [lia|lia|reflexivity|vm_compute; discriminate|reflexivity|right; split; eexists; reflexivity].
Defined.

(** Raising the SNR offset never lowers a bit allocation pointer, for
    masking values in the range that [a52_bit_alloc_calc_mask] produces and the
    offsets and floors the encoder uses. *)
Theorem bap_monotone mask psd floor s1 s2 :
  0 ≤ mask ≤ 5120 → -2048 ≤ floor → -960 ≤ s1 ≤ s2 →
  bap_of mask psd s1 floor ≤ bap_of mask psd s2 floor.
Proof. intros. apply bap_of_mono; lia. Qed.

Lemma bap_monotone_witness : bap_of 900 2000 (-960) (-2048) ≤ bap_of 900 2000 3132 (-2048).
Proof. apply (bap_monotone 900 2000 (-2048)); lia. Defined.

(** With the loop condition as it is written the pointer computation
    reads past [mask] and [band_start_tab] for every range that reaches the last
    band (bandwidth codes 53 to 60): where such a read traps, the function has
    no result. *)
Theorem calc_bap_overruns mask psd bap end_ snr floor :
  230 ≤ end_ ≤ 253 → zlen mask = 50 → 256 ≤ zlen psd → zlen bap = 256 → snr ≠ -960 →
  @a52_bit_alloc_calc_bap trapping_residue mask psd 0 end_ snr floor bap = None.
Proof.
  intros He Hm Hp Hb Hsnr. unfold a52_bit_alloc_calc_bap. rewrite (proj2 (Z.eqb_neq snr (-960)) Hsnr).
  change (aget bin_to_band_tab 0) with (Some 0). simpl mbind.
  rewrite (do_while_none (λ '(bin, band, b), bap_inv mask psd bap 0 end_ snr floor (bin, band, b) ∧
    (bin < end_ ∨ band = 50))); [done| |].
  - split; [|by left; lia]. change (bin_to_band_tab.[0]) with 0. split_and!; try (simpl; lia).
    + done.
    + left. change (band_start_tab.[0]) with 0. change (band_start_tab.[0 + 1]) with 1. lia.
    + intros i Hi. by replace ((0 <=? i) && (i <? 0)) with false by lia.
  - intros [[bin band] b] [Hinv Hor]. destruct (Z.ltb_spec bin end_).
    + right. pose proof (@bap_body_band trapping_residue mask psd bap 0 end_ snr floor
        ltac:(lia) ltac:(lia) Hm Hp ltac:(lia) bin band b ltac:(lia) Hinv) as Hw.
      apply wp_some in Hw as ([[[bin' band'] b'] c] & Hbody & Hc & Hband & Hinv').
      simpl in Hc, Hband, Hinv'. subst c. exists (bin', band', b'). split; [exact Hbody|].
      split; [done|]. destruct Hinv' as (Hb50 & _ & _ & [(? & _)|(_ & H1 & H2)] & _); [by left|right].
      destruct (Z.ltb_spec band' 50); [|lia].
      pose proof (band_start_mono band' 49 ltac:(lia) ltac:(lia)) as Hmono.
      change (band_start_tab.[49]) with 229 in Hmono. lia.
    + left. destruct Hor as [| ->]; [lia|]. reflexivity.
Qed.

Lemma calc_bap_overruns_witness :
  @a52_bit_alloc_calc_bap trapping_residue (replicate 50 900) (replicate 256 2000) 0 253 0 (-2048)
    (replicate 256 0) = None.
Proof.
  apply (calc_bap_overruns (replicate 50 900) (replicate 256 2000) (replicate 256 0) 253 0 (-2048));
    [lia|reflexivity|vm_compute; discriminate|reflexivity|lia].
Defined.
