(* ===== verification/Exponent.v ===== *)
(** [libaften/exponent.c]: extraction, strategy decision, encoding and grouping
    of the exponents (the C implementations of the three replaceable
    functions).  The theorems show that the encoded exponents are the greatest
    ones the decoder can represent below the extracted ones, and that the
    groups decode to them. *)
From Stdlib Require Import ZArith Lia ZifyBool Bool.
From stdpp Require Import base option list numbers.
From coqutil Require Import Datatypes.RecordSettersUsingExistingGetters.
From S2P Require Import Prelude CMachine Float Tables Types Util A52.
Local Open Scope Z_scope.
Local Open Scope carray_scope.

Definition A52_EXPSTR_SETS : Z := 32.

Definition expstr_set_search_order_tab : list Z := [
  0; 31; 10;  2;  8; 17; 24; 22;  3; 21; 26; 13; 14; 23; 29; 11;
  30; 27; 15; 16;  1;  9; 12;  4;  5;  6;  7; 18; 19; 20; 25; 28
].

(** * Initialisation *)

Definition nexpgrptab_zero : list (list Z) := replicate 3 (replicate 256 0).
Definition expstr_set_bits_zero : list (list Z) := replicate 32 (replicate 256 0).

(** [exponent_init], on the two tables it fills. *)
Definition exponent_init (nexpgrptab expstr_set_bits : list (list Z))
    : option (list (list Z) * list (list Z)) :=
  nexpgrptab ← for_up 1 4 (λ i, for_up 0 256 (λ j nexpgrptab,
    let grpsize := i + Z.b2z (i =? EXP_D45) in
    let ngrps := if j =? 7 then 2 else Z.quot (j + grpsize * 3 - 4) (3 * grpsize) in
    aset2 nexpgrptab (i - 1) j ngrps)) nexpgrptab;
  expstr_set_bits ← for_up 0 6 (λ i, for_up 0 254 (λ nc expstr_set_bits,
    bits ← for_up 0 A52_NUM_BLOCKS (λ blk bits,
      es ← aget2 a52_expstr_set_tab i blk;
      if negb (es =? EXP_REUSE) then
        n ← aget2 nexpgrptab (es - 1) nc;
        Some (u16 (bits + (4 + n * 7)))
      else Some bits) 0;
    aset2 expstr_set_bits i nc bits)) expstr_set_bits;
  Some (nexpgrptab, expstr_set_bits).

(** The tables after [exponent_init], as the rest of the encoder sees them. *)
Definition exponent_tables : list (list Z) * list (list Z) :=
  Eval vm_compute in default ([], []) (exponent_init nexpgrptab_zero expstr_set_bits_zero).
Definition nexpgrptab : list (list Z) := Eval cbv in fst exponent_tables.
Definition expstr_set_bits : list (list Z) := Eval cbv in snd exponent_tables.

(** * The replaceable functions *)

(** [exponent_min(expTarget, exp, exp1, n)].  [exp] may be [expTarget] itself:
    element [i] of it is read before it is written. *)
Definition exponent_min (expTarget exp_ exp1 : list Z) (n : Z) : option (list Z) :=
  for_up 0 n (λ i t,
    a ← aget exp_ i;
    b ← aget exp1 i;
    aset t i (MIN a b)) expTarget.

Definition encode_exp_blk_ch (exp_ : list Z) (ncoefs exp_strategy : Z) : option (list Z) :=
  n ← aget2 nexpgrptab (exp_strategy - 1) ncoefs;
  let ngrps := n * 3 in
  (* constraint for DC exponent *)
  e0 ← aget exp_ 0;
  e ← aset exp_ 0 (MIN e0 15);
  (* for each group, compute the minimum exponent *)
  e ← (if exp_strategy =? EXP_D25 then
         '(e, _) ← for_up 1 (ngrps + 1) (λ i '(e, k),
            a ← aget e k; b ← aget e (k + 1);
            e ← aset e i (MIN a b);
            Some (e, k + 2)) (e, 1);
         Some e
       else if exp_strategy =? EXP_D45 then
         '(e, _) ← for_up 1 (ngrps + 1) (λ i '(e, k),
            a ← aget e k; b ← aget e (k + 1);
            let exp_min1 := MIN a b in
            c ← aget e (k + 2); d ← aget e (k + 3);
            let exp_min2 := MIN c d in
            e ← aset e i (MIN exp_min1 exp_min2);
            Some (e, k + 4)) (e, 1);
         Some e
       else Some e);
  (* decrease the delta between each groups to within 2 *)
  e ← for_up 1 (ngrps + 1) (λ i e,
    a ← aget e i; b ← aget e (i - 1);
    aset e i (u8 (MIN a (b + 2)))) e;
  e ← for_down (ngrps - 1) 0 (λ i e,
    a ← aget e i; b ← aget e (i + 1);
    aset e i (u8 (MIN a (b + 2)))) e;
  (* expand exponent groups to generate final set of exponents *)
  if exp_strategy =? EXP_D25 then
    '(e, _) ← for_down ngrps 1 (λ i '(e, k),
      v ← aget e i;
      e ← aset e (k - 1) v; e ← aset e k v;
      Some (e, k - 2)) (e, ngrps * 2);
    Some e
  else if exp_strategy =? EXP_D45 then
    '(e, _) ← for_down ngrps 1 (λ i '(e, k),
      v ← aget e i;
      e ← aset e (k - 3) v; e ← aset e (k - 2) v; e ← aset e (k - 1) v; e ← aset e k v;
      Some (e, k - 4)) (e, ngrps * 4);
    Some e
  else Some e.

(** The arrays the pointers of [compute_expstr_ch] can point to: the extracted
    exponents of a block and the local copies. *)
Inductive exp_ptr := Extracted (blk : Z) | Local_ (i : Z).
#[global] Instance exp_ptr_eq_dec : EqDecision exp_ptr.
Proof. solve_decision. Defined.
#[global] Instance exp_ptr_inhabited : Inhabited exp_ptr := populate (Extracted 0).

Definition deref (exp_ exponents : list (list Z)) (p : exp_ptr) : option (list Z) :=
  match p with Extracted b => aget exp_ b | Local_ i => aget exponents i end.

(** [exponent_sum_square_error]; equal pointers have no error. *)
Definition exponent_sum_square_error (same : bool) (exp0 exp1 : list Z) (ncoefs : Z) : option Z :=
  if same then Some 0 else
  for_up 0 ncoefs (λ i exp_error,
    a ← aget exp0 i; b ← aget exp1 i;
    let err := a - b in
    Some (exp_error + err * err)) 0.

(** * Strategy decision *)

Section strategy.
Context `{Residue}.

(** Encoding the exponents of all blocks with one strategy set; the state is
    the local [exponents] and [expSource]. *)
Definition encode_strategy_set (exp_ : list (list Z)) (ncoefs : Z) (expstr_set_tab : list Z)
    (exponents : list (list Z)) : option (list (list Z) * list exp_ptr) :=
  let expSource := map (λ b, Extracted (Z.of_nat b)) (seq 0 6) in
  '(_, exponents, expSource) ← while_loop 6 (λ '(i, _, _), i <? A52_NUM_BLOCKS)
    (λ '(i, exponents, expSource),
      currentExp ← aget exponents i;
      let reuse j := (if j <? A52_NUM_BLOCKS
                      then es ← aget expstr_set_tab j; Some (es =? EXP_REUSE) else Some false) in
      let source j exponents := (p ← aget expSource j; deref exp_ exponents p) in
      (* special handling for first time *)
      r ← reuse (i + 1);
      '(j, currentExp) ← (if (r : bool) then
          a ← source i exponents; b ← source (i + 1) exponents;
          currentExp ← exponent_min currentExp a b ncoefs;
          Some (i + 2, currentExp)
        else Some (i + 1, currentExp));
      '(j, currentExp) ← for_break j A52_NUM_BLOCKS (λ j '(_, currentExp),
          r ← reuse j;
          if (r : bool) then
            b ← source j exponents;
            currentExp ← exponent_min currentExp currentExp b ncoefs;
            Some (inr (j + 1, currentExp))
          else Some (inl (j, currentExp))) (j, currentExp);
      es ← aget expstr_set_tab i;
      currentExp ← encode_exp_blk_ch currentExp ncoefs es;
      exponents ← aset exponents i currentExp;
      expSource ← for_up i j (λ k src, aset src k (Local_ i)) expSource;
      Some (j, exponents, expSource)) (0, exponents, expSource);
  Some (exponents, expSource).

Definition strategy_error (exp_ exponents : list (list Z)) (expSource : list exp_ptr) (ncoefs : Z)
    : option Z :=
  for_up 0 A52_NUM_BLOCKS (λ blk err,
    a ← aget exp_ blk;
    p ← aget expSource blk;
    b ← deref exp_ exponents p;
    e ← exponent_sum_square_error (bool_decide (p = Extracted blk)) a b ncoefs;
    Some (err + e)) 0.

Definition compute_expstr_ch (exp_ : list (list Z)) (ncoefs search_size : Z) : option Z :=
  min_error ← aget expstr_set_search_order_tab 0;
  '(min_error, _, _) ← for_up 0 search_size (λ s '(min_error, exp_error, exponents),
    str ← aget expstr_set_search_order_tab s;
    expstr_set_tab ← aget a52_expstr_set_tab str;
    '(exponents, expSource) ← encode_strategy_set exp_ ncoefs expstr_set_tab exponents;
    err ← strategy_error exp_ exponents expSource ncoefs;
    exp_error ← aset exp_error str (Some err);
    (* [exp_error] is not initialised: [None] is an unwritten element *)
    m ← aget exp_error min_error;
    m ← m;
    Some (if err <? m then str else min_error, exp_error, exponents))
    (min_error, replicate 32 None, stack_exponents);
  Some min_error.

(** * The frame *)

(** [block = &frame->blocks[blk]]: the block is read and written in place. *)
Definition with_block {X} (frame : Frame.t) (blk : Z) (f : Block.t → X → option (Block.t * X)) (x : X)
    : option (Frame.t * X) :=
  b ← aget (Frame.blocks frame) blk;
  '(b, x) ← f b x;
  bs ← aset (Frame.blocks frame) blk b;
  Some (frame <| Frame.blocks := bs |>, x).

Definition compute_exponent_strategy (ctx : Ctx.t) (frame : Frame.t) : option Frame.t :=
  frame ← for_up 0 (Ctx.n_channels ctx) (λ ch frame,
    str ← aget expstr_set_search_order_tab 0;
    str ← (if EncParams.expstr_search (Ctx.params ctx) >? 1 then
             exp_ ← mapM (λ b, aget (Block.exp_ b) ch) (Frame.blocks frame);
             nc ← aget (Frame.ncoefs frame) ch;
             compute_expstr_ch exp_ nc (EncParams.expstr_search (Ctx.params ctx))
           else Some str);
    blocks ← for_up 0 A52_NUM_BLOCKS (λ blk blocks,
      es ← aget2 a52_expstr_set_tab str blk;
      b ← aget blocks blk;
      s ← aset (Block.exp_strategy b) ch es;
      aset blocks blk (b <| Block.exp_strategy := s |>)) (Frame.blocks frame);
    set ← aset (Frame.expstr_set frame) ch str;
    Some (frame <| Frame.blocks := blocks |> <| Frame.expstr_set := set |>)) frame;
  if negb (Ctx.lfe ctx =? 0) then
    blocks ← for_up 0 A52_NUM_BLOCKS (λ blk blocks,
      b ← aget blocks blk;
      s ← aset (Block.exp_strategy b) (Ctx.lfe_channel ctx) (if blk =? 0 then EXP_D15 else EXP_REUSE);
      aset blocks blk (b <| Block.exp_strategy := s |>)) (Frame.blocks frame);
    Some (frame <| Frame.blocks := blocks |>)
  else Some frame.

(** The groups of one channel of one block: [p] is the index the C pointer
    is at in [exp]. *)
Definition group_exponents_ch (b : Block.t) (ch expstr nc : Z) : option (Block.t * Z) :=
  n ← aget2 nexpgrptab (expstr - 1) nc;
  nexpgrps ← aset (Block.nexpgrps b) ch (u8 n);
  let n := u8 n in
  let bits := 4 + n * 7 in
  let gsize := expstr + Z.b2z (expstr =? EXP_D45) in
  e ← aget (Block.exp_ b) ch;
  exp1 ← aget e 0;
  g ← aget (Block.grp_exp b) ch;
  g ← aset g 0 exp1;
  '(_, _, g) ← for_up 1 (n + 1) (λ i '(p, exp1, g),
    (* merge three delta into one code *)
    let exp0 := exp1 in
    exp1 ← aget e p;
    let p := p + gsize in
    let delta0 := exp1 - exp0 + 2 in
    exp2 ← aget e p;
    let p := p + gsize in
    let delta1 := exp2 - exp1 + 2 in
    exp3 ← aget e p;
    let p := p + gsize in
    let delta2 := exp3 - exp2 + 2 in
    g ← aset g i (u8 ((delta0 * 5 + delta1) * 5 + delta2));
    Some (p, exp3, g)) (1, exp1, g);
  grp ← aset (Block.grp_exp b) ch g;
  Some (b <| Block.nexpgrps := nexpgrps |> <| Block.grp_exp := grp |>, bits).

Definition group_exponents (ctx : Ctx.t) (frame : Frame.t) : option Frame.t :=
  '(frame, bits) ← for_up 0 A52_NUM_BLOCKS (λ blk '(frame, bits),
    with_block frame blk (λ b bits, for_up 0 (Ctx.n_all_channels ctx) (λ ch '(b, bits),
      expstr ← aget (Block.exp_strategy b) ch;
      if expstr =? EXP_REUSE then
        n ← aset (Block.nexpgrps b) ch 0;
        Some (b <| Block.nexpgrps := n |>, bits)
      else
        nc ← aget (Frame.ncoefs frame) ch;
        '(b, n) ← group_exponents_ch b ch expstr nc;
        Some (b, bits + n)) (b, bits)) bits) (frame, 0);
  Some (frame <| Frame.exp_bits := bits |>).

(** [blocks[blk].exp[ch]] *)
Definition get_exp (blocks : list Block.t) (blk ch : Z) : option (list Z) :=
  b ← aget blocks blk; aget (Block.exp_ b) ch.
Definition set_exp (blocks : list Block.t) (blk ch : Z) (e : list Z) : option (list Block.t) :=
  b ← aget blocks blk;
  es ← aset (Block.exp_ b) ch e;
  aset blocks blk (b <| Block.exp_ := es |>).

Definition encode_exponents (ctx : Ctx.t) (frame : Frame.t) : option Frame.t :=
  blocks ← for_up 0 (Ctx.n_all_channels ctx) (λ ch blocks,
    nc ← aget (Frame.ncoefs frame) ch;
    '(_, blocks) ← while_loop 6 (λ '(i, _), i <? A52_NUM_BLOCKS) (λ '(i, blocks),
      '(j, blocks) ← for_break (i + 1) A52_NUM_BLOCKS (λ j '(_, blocks),
        b ← aget blocks j;
        es ← aget (Block.exp_strategy b) ch;
        if es =? EXP_REUSE then
          ei ← get_exp blocks i ch;
          ej ← get_exp blocks j ch;
          ei ← exponent_min ei ei ej nc;
          blocks ← set_exp blocks i ch ei;
          Some (inr (j + 1, blocks))
        else Some (inl (j, blocks))) (i + 1, blocks);
      b ← aget blocks i;
      es ← aget (Block.exp_strategy b) ch;
      ei ← get_exp blocks i ch;
      ei ← encode_exp_blk_ch ei nc es;
      blocks ← set_exp blocks i ch ei;
      (* copy encoded exponents for reuse case *)
      blocks ← for_up (i + 1) j (λ k blocks,
        ek ← get_exp blocks k ch;
        ei ← get_exp blocks i ch;
        ek ← memcpy ek 0 ei 0 nc;
        set_exp blocks k ch ek) blocks;
      Some (j, blocks)) (0, blocks);
    Some blocks) (Frame.blocks frame);
  Some (frame <| Frame.blocks := blocks |>).
End strategy.

Section extract.
Context `{FloatFormat}.

(** [FCONST(16777216.0)] *)
Definition two24 : FLOAT := F_const 1 24.

Definition extract_exponent (coef : FLOAT) : option Z :=
  v ← F_to_u32 (AFT_FABS (F_mul coef two24));
  l ← log2i v;
  Some (u8 (if v =? 0 then 24 else 23 - l)).

Definition extract_exponents (ctx : Ctx.t) (frame : Frame.t) : option Frame.t :=
  blocks ← for_up 0 (Ctx.n_all_channels ctx) (λ ch blocks,
    for_up 0 A52_NUM_BLOCKS (λ blk blocks,
      b ← aget blocks blk;
      e ← aget (Block.exp_ b) ch;
      coefs ← aget (Block.mdct_coef b) ch;
      e ← for_up 0 128 (λ k e,
        let j := 2 * k in
        c1 ← aget coefs j; c2 ← aget coefs (j + 1);
        v1 ← extract_exponent c1;
        v2 ← extract_exponent c2;
        e ← aset e j v1;
        aset e (j + 1) v2) e;
      es ← aset (Block.exp_ b) ch e;
      aset blocks blk (b <| Block.exp_ := es |>)) blocks) (Frame.blocks frame);
  Some (frame <| Frame.blocks := blocks |>).
End extract.

Definition a52_process_exponents `{Residue} `{FloatFormat} (ctx : Ctx.t) (frame : Frame.t) : option Frame.t :=
  frame ← extract_exponents ctx frame;
  frame ← compute_exponent_strategy ctx frame;
  frame ← encode_exponents ctx frame;
  group_exponents ctx frame.

(** * Encoding one set of exponents *)

Definition grpsize (s : Z) : Z := s + Z.b2z (s =? EXP_D45).
Definition nexpgrp (s n : Z) : Z := nexpgrptab.[s - 1].[n].

(** The numbers of coefficients of the encoder's channels. *)
Definition ncoefs_ok (n : Z) : Prop := n = 7 ∨ ∃ b, 0 ≤ b ≤ 60 ∧ n = 3 * b + 73.

Lemma ncoefs_ok_range n : ncoefs_ok n → 7 ≤ n ≤ 253.
Proof. intros [-> |(b & Hb & ->)]; lia. Qed.

Lemma grpsize_range s : 1 ≤ s ≤ 3 → grpsize s = 1 ∧ s = 1 ∨ grpsize s = 2 ∧ s = 2 ∨ grpsize s = 4 ∧ s = 3.
Proof. intros Hs. assert (s = 1 ∨ s = 2 ∨ s = 3) as [-> |[-> | ->]] by lia; auto. Qed.

Lemma nexpgrp_range s n :
  1 ≤ s ≤ 3 → 0 ≤ n < 256 →
  aget2 nexpgrptab (s - 1) n = Some (nexpgrp s n) ∧ 0 ≤ nexpgrp s n ≤ 84 ∧
  grpsize s * (nexpgrp s n * 3) ≤ 252.
Proof.
  intros Hs Hn. assert (Hr : 0 ≤ s - 1 < 3) by lia. pose proof Hr as Hr'.
  table_check (λ r, (zlen nexpgrptab.[r] =? 256) && forallb (λ j,
    (0 <=? nexpgrp (r + 1) (Z.of_nat j)) && (nexpgrp (r + 1) (Z.of_nat j) <=? 84) &&
    (grpsize (r + 1) * (nexpgrp (r + 1) (Z.of_nat j) * 3) <=? 252)) (seq 0 256)) 3 Hr.
  replace (s - 1 + 1) with s in Hr by lia.
  apply andb_true_iff in Hr as [Hl Hr]. rewrite forallb_forall in Hr.
  specialize (Hr (Z.to_nat n) ltac:(apply in_seq; lia)). rewrite Z2Nat.id in Hr by lia.
  split; [|lia]. unfold aget2. rewrite aget_at by (change (zlen nexpgrptab) with 3; lia).
  simpl mbind. rewrite aget_at by lia. done.
Qed.

(** The groups cover the coefficients. *)
Lemma nexpgrp_covers s n :
  1 ≤ s ≤ 3 → ncoefs_ok n → 1 ≤ nexpgrp s n ∧ n - 1 ≤ grpsize s * (nexpgrp s n * 3).
Proof.
  intros Hs Hn. assert (Hr : 0 ≤ s - 1 < 3) by lia.
  assert (Hn' : n ∈ 7 :: map (λ b, 3 * Z.of_nat b + 73) (seq 0 61)).
  { destruct Hn as [-> |(b & Hb & ->)]; [left|right]. apply list_elem_of_In, in_map_iff.
    exists (Z.to_nat b). rewrite in_seq. lia. }
  table_check (λ r, forallb (λ n, (1 <=? nexpgrp (r + 1) n) &&
    (n - 1 <=? grpsize (r + 1) * (nexpgrp (r + 1) n * 3)))
    (7 :: map (λ b, 3 * Z.of_nat b + 73) (seq 0 61))) 3 Hr.
  rewrite forallb_forall in Hr. apply list_elem_of_In in Hn'. specialize (Hr n Hn').
  replace (s - 1 + 1) with s in Hr by lia. lia.
Qed.

(** The group of a bin: 0 for bin 0, then [G] bins per group. *)
Definition grp_of (G t : Z) : Z := (t + G - 1) / G.

(** What a decoder can reconstruct from [N] deltas over groups of [G] bins. *)
Record representable (G N : Z) (x : Z → Z) : Prop := {
  repr_dc : x 0 ≤ 15;
  repr_group : ∀ t, 1 ≤ t ≤ G * N → x t = x (G * grp_of G t);
  repr_delta : ∀ i, 1 ≤ i ≤ N → Z.abs (x (G * i) - x (G * (i - 1))) ≤ 2
}.

(** The result of encoding: the greatest representable exponents below [e]. *)
Record exp_encoded (G N : Z) (e out : list Z) : Prop := {
  enc_len : zlen out = zlen e;
  enc_rest : ∀ t, G * N < t → out.[t] = e.[t];
  enc_repr : representable G N (λ t, out.[t]);
  enc_below : ∀ t, 0 ≤ t ≤ G * N → 0 ≤ out.[t] ≤ e.[t];
  enc_greatest : ∀ x, representable G N x → (∀ t, 0 ≤ t ≤ G * N → x t ≤ e.[t]) →
                 ∀ t, 0 ≤ t ≤ G * N → x t ≤ out.[t]
}.

(** The smallest exponent of a group. *)
Definition group_min (e : Z → Z) (G i : Z) : Z :=
  if i =? 0 then Z.min (e 0) 15
  else if G =? 1 then e i
  else if G =? 2 then Z.min (e (2 * i - 1)) (e (2 * i))
  else Z.min (Z.min (e (4 * i - 3)) (e (4 * i - 2))) (Z.min (e (4 * i - 1)) (e (4 * i))).

Lemma grp_of_0 G : 0 < G → grp_of G 0 = 0.
Proof. intros. unfold grp_of. rewrite Z.div_small; lia. Qed.

Lemma grp_of_bounds G t : 0 < G → 1 ≤ t → G * (grp_of G t - 1) + 1 ≤ t ≤ G * grp_of G t ∧ 1 ≤ grp_of G t.
Proof.
  intros HG Ht. unfold grp_of. pose proof (Z.div_mod (t + G - 1) G ltac:(lia)).
  pose proof (Z.mod_pos_bound (t + G - 1) G HG). nia.
Qed.

Lemma grp_of_eq G i r : 0 < G → 1 ≤ i → 1 ≤ r ≤ G → grp_of G (G * (i - 1) + r) = i.
Proof.
  intros HG Hi Hr. unfold grp_of. symmetry. apply Z.div_unique with (r - 1); lia.
Qed.

Lemma grp_of_mul G i : 0 < G → 0 ≤ i → grp_of G (G * i) = i.
Proof.
  intros HG Hi. destruct (Z.eq_dec i 0) as [-> |]; [rewrite Z.mul_0_r; by apply grp_of_0|].
  replace (G * i) with (G * (i - 1) + G) by lia. apply grp_of_eq; lia.
Qed.

Lemma group_min_le e G i t :
  G = 1 ∨ G = 2 ∨ G = 4 → 1 ≤ i → G * (i - 1) + 1 ≤ t ≤ G * i → group_min e G i ≤ e t.
Proof.
  intros HG Hi Ht. unfold group_min. rewrite (proj2 (Z.eqb_neq i 0)) by lia.
  destruct HG as [-> |[-> | ->]]; simpl.
  - by replace t with i by lia.
  - assert (t = 2 * i - 1 ∨ t = 2 * i) as [-> | ->] by lia; lia.
  - assert (t = 4 * i - 3 ∨ t = 4 * i - 2 ∨ t = 4 * i - 1 ∨ t = 4 * i) as [-> |[-> |[-> | ->]]] by lia; lia.
Qed.

Lemma group_min_glb e G i b :
  G = 1 ∨ G = 2 ∨ G = 4 → 1 ≤ i → (∀ t, G * (i - 1) + 1 ≤ t ≤ G * i → b ≤ e t) → b ≤ group_min e G i.
Proof.
  intros HG Hi Hb. unfold group_min. rewrite (proj2 (Z.eqb_neq i 0)) by lia.
  destruct HG as [-> |[-> | ->]]; simpl; repeat apply Z.min_glb; apply Hb; lia.
Qed.

(** The slopes: the two passes give the greatest 2-Lipschitz sequence below. *)
Record slope_passes (N : Z) (g f h : Z → Z) : Prop := {
  fwd_0 : f 0 = g 0;
  fwd_S : ∀ i, 1 ≤ i ≤ N → f i = Z.min (g i) (f (i - 1) + 2);
  bwd_N : h N = f N;
  bwd_S : ∀ i, 0 ≤ i < N → h i = Z.min (f i) (h (i + 1) + 2)
}.

Lemma slope_passes_spec N g f h :
  0 ≤ N → slope_passes N g f h →
  (∀ i, 0 ≤ i ≤ N → h i ≤ g i) ∧
  (∀ i, 1 ≤ i ≤ N → Z.abs (h i - h (i - 1)) ≤ 2) ∧
  (∀ x, (∀ i, 0 ≤ i ≤ N → x i ≤ g i) → (∀ i, 1 ≤ i ≤ N → Z.abs (x i - x (i - 1)) ≤ 2) →
     ∀ i, 0 ≤ i ≤ N → x i ≤ h i) ∧
  (∀ b, (∀ i, 0 ≤ i ≤ N → b ≤ g i) → ∀ i, 0 ≤ i ≤ N → b ≤ h i).
Proof.
  intros HN [H0 Hf HhN Hh].
  assert (Hhf : ∀ i, 0 ≤ i ≤ N → h i ≤ f i).
  { intros i Hi. destruct (Z.eq_dec i N) as [-> |]; [lia|]. rewrite Hh; lia. }
  assert (Hgreat : ∀ x, (∀ i, 0 ≤ i ≤ N → x i ≤ g i) → (∀ i, 1 ≤ i ≤ N → Z.abs (x i - x (i - 1)) ≤ 2) →
     ∀ i, 0 ≤ i ≤ N → x i ≤ h i).
  { intros x Hx Hs.
    assert (Hxf : ∀ i, 0 ≤ i → i ≤ N → x i ≤ f i).
    { apply (natlike_ind (λ i, i ≤ N → x i ≤ f i)).
      - intros _. rewrite H0. apply Hx. lia.
      - intros i Hi IH HiN. rewrite Hf by lia. replace (Z.succ i - 1) with i by lia.
        specialize (Hx (Z.succ i) ltac:(lia)). specialize (Hs (Z.succ i) ltac:(lia)).
        replace (Z.succ i - 1) with i in Hs by lia. specialize (IH ltac:(lia)). lia. }
    assert (Hd : ∀ d, 0 ≤ d → d ≤ N → x (N - d) ≤ h (N - d)).
    { apply (natlike_ind (λ d, d ≤ N → x (N - d) ≤ h (N - d))).
      - intros _. rewrite Z.sub_0_r, HhN. apply Hxf; lia.
      - intros d Hd IH HdN. rewrite Hh by lia. replace (N - Z.succ d + 1) with (N - d) by lia.
        specialize (Hxf (N - Z.succ d) ltac:(lia) ltac:(lia)). specialize (Hs (N - d) ltac:(lia)).
        replace (N - d - 1) with (N - Z.succ d) in Hs by lia. specialize (IH ltac:(lia)). lia. }
    intros i Hi. specialize (Hd (N - i) ltac:(lia) ltac:(lia)).
    by replace (N - (N - i)) with i in Hd by lia. }
  split_and!.
  - intros i Hi. specialize (Hhf i Hi). destruct (Z.eq_dec i 0) as [-> |]; [lia|].
    specialize (Hf i ltac:(lia)). lia.
  - intros i Hi. pose proof (Hf i Hi). pose proof (Hh (i - 1) ltac:(lia)) as Hhi.
    replace (i - 1 + 1) with i in Hhi by lia. pose proof (Hhf i ltac:(lia)). lia.
  - done.
  - intros b Hb. apply (Hgreat (λ _, b)); [done|]. intros i Hi. lia.
Qed.

Section encode.
Variables (e : list Z) (s N : Z).
Hypothesis Hs : 1 ≤ s ≤ 3.
Hypothesis HN : 1 ≤ N.
Hypothesis Hlen : grpsize s * N < zlen e.
#[local] Abbreviation G := (grpsize s).

Definition group_mins_ok (k : Z) (a : list Z) : Prop :=
  zlen a = zlen e ∧ (∀ i, 0 ≤ i < k → a.[i] = group_min (λ t, e.[t]) G i) ∧
  (∀ t, k ≤ t → a.[t] = e.[t]).

Lemma group_mins_start :
  wp (e0 ← aget e 0; aset e 0 (MIN e0 15)) (group_mins_ok 1).
Proof.
  assert (HG := grpsize_range s Hs). wp_steps; try nia. split_and!.
  - apply zlen_upd.
  - intros i Hi. assert (i = 0) as -> by lia. rewrite at_upd_eq, MIN_min by nia. done.
  - intros t Ht. by rewrite at_upd_ne by lia.
Qed.

Lemma group_mins_step k a v :
  group_mins_ok k a → 1 ≤ k ≤ N → v = group_min (λ t, e.[t]) G k → group_mins_ok (k + 1) (upd a k v).
Proof.
  intros (Hl & Hin & Hout) Hk ->. assert (HG := grpsize_range s Hs). split_and!.
  - by rewrite zlen_upd.
  - intros i Hi. rewrite at_upd by nia. destruct (Z.eqb_spec i k) as [-> |]; [done|]. apply Hin. lia.
  - intros t Ht. rewrite at_upd_ne by lia. apply Hout. lia.
Qed.

(** The minimum loops of the three strategies. *)
Lemma group_mins_loop a :
  group_mins_ok 1 a →
  wp (if s =? EXP_D25 then
         '(e, _) ← for_up 1 (N + 1) (λ i '(e, k),
            a ← aget e k; b ← aget e (k + 1);
            e ← aset e i (MIN a b);
            Some (e, k + 2)) (a, 1);
         Some e
       else if s =? EXP_D45 then
         '(e, _) ← for_up 1 (N + 1) (λ i '(e, k),
            a ← aget e k; b ← aget e (k + 1);
            let exp_min1 := MIN a b in
            c ← aget e (k + 2); d ← aget e (k + 3);
            let exp_min2 := MIN c d in
            e ← aset e i (MIN exp_min1 exp_min2);
            Some (e, k + 4)) (a, 1);
         Some e
       else Some a) (group_mins_ok (N + 1)).
Proof.
  intros Ha. assert (HG3 := grpsize_range s Hs).
  destruct (Z.eqb_spec s EXP_D25) as [Es|Es]; [|destruct (Z.eqb_spec s EXP_D45) as [Es'|Es']];
    unfold EXP_D25, EXP_D45 in *.
  - assert (HG : G = 2) by lia. apply wp_bind. apply (wp_for_up (λ i '(a, k), group_mins_ok i a ∧ k = 2 * i - 1)); [lia|done| |].
    + intros i [a' k] Hi [Ha' ->]. pose proof Ha' as (Hl & Hin & Hout). 
      wp_steps. rewrite !Hout, MIN_min by lia. split; [|lia].
      apply group_mins_step; [done|lia|]. unfold group_min. rewrite HG, (proj2 (Z.eqb_neq i 0)) by lia.
      simpl. f_equal; f_equal; lia.
    + intros [a' k] [Ha' _]. by apply wp_ret.
  - assert (HG : G = 4) by lia. apply wp_bind. apply (wp_for_up (λ i '(a, k), group_mins_ok i a ∧ k = 4 * i - 3)); [lia|done| |].
    + intros i [a' k] Hi [Ha' ->]. pose proof Ha' as (Hl & Hin & Hout). 
      wp_steps. rewrite !Hout, !MIN_min by lia. split; [|lia].
      apply group_mins_step; [done|lia|]. unfold group_min. rewrite HG, (proj2 (Z.eqb_neq i 0)) by lia.
      simpl. f_equal; f_equal; f_equal; lia.
    + intros [a' k] [Ha' _]. by apply wp_ret.
  - assert (HG : G = 1) by lia. apply wp_ret. destruct Ha as (Hl & Hin & Hout). split_and!; [done| |].
    + intros i Hi. destruct (Z.eq_dec i 0) as [-> |]; [apply Hin; lia|]. rewrite Hout by lia.
      unfold group_min. rewrite HG. by rewrite (proj2 (Z.eqb_neq i 0)) by lia.
    + intros t Ht. apply Hout. lia.
Qed.

(** The two passes, on any array of bytes. *)
Lemma slope_loops a :
  zlen a = zlen e → (∀ i, 0 ≤ i ≤ N → 0 ≤ a.[i] < 256) →
  wp (e ← for_up 1 (N + 1) (λ i e,
        a ← aget e i; b ← aget e (i - 1); aset e i (u8 (MIN a (b + 2)))) a;
      for_down (N - 1) 0 (λ i e,
        a ← aget e i; b ← aget e (i + 1); aset e i (u8 (MIN a (b + 2)))) e)
     (λ h, zlen h = zlen e ∧ (∀ t, N < t → h.[t] = a.[t]) ∧
        ∃ f, slope_passes N (λ i, a.[i]) (λ i, f.[i]) (λ i, h.[i])).
Proof.
  intros Hl Hr. assert (HG := grpsize_range s Hs). assert (HNl : N < zlen e) by nia. clear HG.
  apply wp_bind.
  apply (wp_for_up (λ k f, zlen f = zlen e ∧ (∀ t, k ≤ t → f.[t] = a.[t]) ∧ f.[0] = a.[0] ∧
    (∀ i, 0 ≤ i < k → 0 ≤ f.[i] < 256) ∧
    (∀ i, 1 ≤ i < k → f.[i] = Z.min a.[i] (f.[i - 1] + 2)))).
  - lia.
  - split_and!; try done; [|lia]. intros i Hi. apply Hr. lia.
  - intros k f Hk (Hfl & Hrest & H0 & Hfr & Hmin). wp_steps. rewrite MIN_min, zlen_upd.
    pose proof (Hr k ltac:(lia)). pose proof (Hfr (k - 1) ltac:(lia)). rewrite Hrest by lia.
    rewrite u8_id by lia. split_and!.
    + done.
    + intros t Ht. rewrite at_upd_ne by lia. apply Hrest. lia.
    + by rewrite at_upd_ne by lia.
    + intros i Hi. rewrite at_upd by lia. destruct (Z.eqb_spec i k); [lia|]. apply Hfr. lia.
    + intros i Hi. rewrite !at_upd by lia. rewrite (proj2 (Z.eqb_neq (i - 1) k)) by lia.
      destruct (Z.eqb_spec i k) as [-> |]; [done|]. apply Hmin. lia.
  - intros f (Hfl & Hrest & H0 & Hfr & Hmin).
    apply (wp_for_down (λ k h, zlen h = zlen e ∧ (∀ t, 0 ≤ t ≤ k → h.[t] = f.[t]) ∧ h.[N] = f.[N] ∧
      (∀ t, N < t → h.[t] = f.[t]) ∧ (∀ i, k < i ≤ N → 0 ≤ h.[i] < 256) ∧
      (∀ i, k < i < N → 0 ≤ i → h.[i] = Z.min f.[i] (h.[i + 1] + 2)))).
    + lia.
    + split_and!; try done; [|lia]. intros i Hi. apply Hfr. lia.
    + intros k h Hk (Hhl & Hlow & HhN & Hhigh & Hhr & Hh). wp_steps. rewrite MIN_min, zlen_upd.
      pose proof (Hfr k ltac:(lia)). pose proof (Hhr (k + 1) ltac:(lia)). rewrite Hlow by lia.
      rewrite u8_id by lia. split_and!.
      * done.
      * intros t Ht. rewrite at_upd_ne by lia. apply Hlow. lia.
      * by rewrite at_upd_ne by lia.
      * intros t Ht. rewrite at_upd_ne by lia. apply Hhigh. lia.
      * intros i Hi. rewrite at_upd by lia. destruct (Z.eqb_spec i k); [lia|]. apply Hhr. lia.
      * intros i Hi Hi0. rewrite !at_upd by lia. rewrite (proj2 (Z.eqb_neq (i + 1) k)) by lia.
        destruct (Z.eqb_spec i k) as [-> |]; [done|]. apply Hh; lia.
    + intros h (Hhl & _ & HhN & Hhigh & _ & Hh). split_and!; [done| |].
      * intros t Ht. rewrite Hhigh by lia. apply Hrest. lia.
      * exists f. split; [done| |done|]; intros i Hi; [apply Hmin; lia|apply Hh; lia].
Qed.

(** The expansion of groups. *)
Lemma expand_loop h :
  zlen h = zlen e →
  wp (if s =? EXP_D25 then
    '(e, _) ← for_down N 1 (λ i '(e, k),
      v ← aget e i;
      e ← aset e (k - 1) v; e ← aset e k v;
      Some (e, k - 2)) (h, N * 2);
    Some e
  else if s =? EXP_D45 then
    '(e, _) ← for_down N 1 (λ i '(e, k),
      v ← aget e i;
      e ← aset e (k - 3) v; e ← aset e (k - 2) v; e ← aset e (k - 1) v; e ← aset e k v;
      Some (e, k - 4)) (h, N * 4);
    Some e
  else Some h) (λ out : list Z, zlen out = zlen e ∧ (∀ t, G * N < t → out.[t] = h.[t]) ∧
    ∀ t, 0 ≤ t ≤ G * N → out.[t] = h.[grp_of G t]).
Proof.
  intros Hl. assert (HG3 := grpsize_range s Hs). pose proof Hlen as Hlen'.
  remember (grpsize s) as g eqn:Eg.
  (* after the groups from [i] on have been expanded, [out] differs from [h] on their bins only *)
  pose (Inv (i : Z) (out : list Z) := zlen out = zlen e ∧ (∀ t, g * N < t → out.[t] = h.[t]) ∧
    (∀ t, 0 ≤ t ≤ g * i → out.[t] = h.[t]) ∧
    ∀ t, g * i < t ≤ g * N → out.[t] = h.[grp_of g t]).
  assert (Hinit : Inv N h) by (split_and!; try done; lia).
  assert (Hfin : ∀ out, Inv 0 out → zlen out = zlen e ∧ (∀ t, g * N < t → out.[t] = h.[t]) ∧
    ∀ t, 0 ≤ t ≤ g * N → out.[t] = h.[grp_of g t]).
  { intros out (Ho & Hrest & H0 & Hexp). split_and!; [done|done|]. intros t Ht.
    destruct (Z.eq_dec t 0) as [-> |]; [|apply Hexp; lia].
    rewrite grp_of_0 by lia. apply H0. lia. }
  destruct (Z.eqb_spec s EXP_D25) as [Es|Es]; [|destruct (Z.eqb_spec s EXP_D45) as [Es'|Es']];
    unfold EXP_D25, EXP_D45 in *.
  - assert (g = 2) by lia. clear Eg. subst g. apply wp_bind. apply (wp_for_down (λ i '(out, k), Inv i out ∧ k = 2 * i)); [lia|by split; [|lia]| |].
    + intros i [out k] Hi [(Ho & Hrest & Hlow & Hexp) ->]. wp_steps. unfold Inv. rewrite !zlen_upd, (Hlow i) by lia.
      split; [split_and!|lia].
      * done.
      * intros t Ht. rewrite !at_upd_ne by lia. by apply Hrest.
      * intros t Ht. rewrite !at_upd_ne by lia. apply Hlow. lia.
      * intros t Ht. rewrite !at_upd by (rewrite ?zlen_upd; lia).
        destruct (Z.eqb_spec t (2 * i)) as [-> |]; [by rewrite grp_of_mul by lia|].
        destruct (Z.eqb_spec t (2 * i - 1)) as [-> |]; [|apply Hexp; lia].
        replace (2 * i - 1) with (2 * (i - 1) + 1) by lia. by rewrite grp_of_eq by lia.
    + intros [out k] [Hinv _]. by apply wp_ret, Hfin.
  - assert (g = 4) by lia. clear Eg. subst g. apply wp_bind. apply (wp_for_down (λ i '(out, k), Inv i out ∧ k = 4 * i)); [lia|by split; [|lia]| |].
    + intros i [out k] Hi [(Ho & Hrest & Hlow & Hexp) ->]. wp_steps. unfold Inv. rewrite !zlen_upd, (Hlow i) by lia.
      split; [split_and!|lia].
      * done.
      * intros t Ht. rewrite !at_upd_ne by lia. by apply Hrest.
      * intros t Ht. rewrite !at_upd_ne by lia. apply Hlow. lia.
      * intros t Ht. rewrite !at_upd by (rewrite ?zlen_upd; lia).
        destruct (Z.eqb_spec t (4 * i)) as [-> |]; [by rewrite grp_of_mul by lia|].
        destruct (Z.eqb_spec t (4 * i - 1)) as [-> |];
          [by replace (4 * i - 1) with (4 * (i - 1) + 3) by lia; rewrite grp_of_eq by lia|].
        destruct (Z.eqb_spec t (4 * i - 2)) as [-> |];
          [by replace (4 * i - 2) with (4 * (i - 1) + 2) by lia; rewrite grp_of_eq by lia|].
        destruct (Z.eqb_spec t (4 * i - 3)) as [-> |]; [|apply Hexp; lia].
        by replace (4 * i - 3) with (4 * (i - 1) + 1) by lia; rewrite grp_of_eq by lia.
    + intros [out k] [Hinv _]. by apply wp_ret, Hfin.
  - assert (g = 1) by lia. clear Eg. subst g. apply wp_ret. split_and!; [done|done|]. intros t Ht. unfold grp_of.
    by replace (t + 1 - 1) with t by lia; rewrite Z.div_1_r.
Qed.
End encode.

Lemma grp_of_range G N t : 0 < G → 0 ≤ t ≤ G * N → 0 ≤ grp_of G t ≤ N.
Proof.
  intros HG Ht. destruct (Z.eq_dec t 0) as [-> |]; [rewrite grp_of_0 by lia; nia|].
  pose proof (grp_of_bounds G t HG ltac:(lia)). nia.
Qed.

(** The three phases together are the greatest representable exponents. *)
Lemma encoded_of_phases G N e a f h out :
  G = 1 ∨ G = 2 ∨ G = 4 → 1 ≤ N → G * N < zlen e → (∀ t, 0 ≤ t ≤ G * N → 0 ≤ e.[t]) →
  (∀ i, 0 ≤ i ≤ N → a i = group_min (λ t, e.[t]) G i) →
  slope_passes N a f h →
  zlen out = zlen e → (∀ t, G * N < t → out.[t] = e.[t]) →
  (∀ t, 0 ≤ t ≤ G * N → out.[t] = h (grp_of G t)) →
  exp_encoded G N e out.
Proof.
  intros HG HN Hlen He Ha Hsl Ho Hrest Hout. assert (HG0 : 0 < G) by lia.
  destruct (slope_passes_spec N a f h ltac:(lia) Hsl) as (Hle & Hslope & Hgreat & Hlow).
  assert (Hag : ∀ t, 0 ≤ t ≤ G * N → a (grp_of G t) ≤ e.[t]).
  { intros t Ht. pose proof (grp_of_range G N t HG0 Ht). rewrite Ha by lia.
    destruct (Z.eq_dec t 0) as [-> |]; [rewrite grp_of_0 by lia; unfold group_min; simpl; lia|].
    destruct (grp_of_bounds G t HG0 ltac:(lia)) as [Hb H1].
    by apply (group_min_le (λ t, e.[t])). }
  assert (Hout_mul : ∀ i, 0 ≤ i ≤ N → out.[G * i] = h i).
  { intros i Hi. rewrite Hout by nia. by rewrite grp_of_mul by lia. }
  split.
  - done.
  - done.
  - split.
    + replace 0 with (G * 0) by lia. rewrite Hout_mul by lia. specialize (Hle 0 ltac:(lia)).
      rewrite Ha in Hle by lia. unfold group_min in Hle. simpl in Hle. lia.
    + intros t Ht. pose proof (grp_of_range G N t HG0 ltac:(lia)).
      by rewrite Hout, Hout_mul by lia.
    + intros i Hi. rewrite !Hout_mul by lia. by apply Hslope.
  - intros t Ht. pose proof (grp_of_range G N t HG0 Ht). rewrite Hout by done. split.
    + apply Hlow; [|done]. intros i Hi. rewrite Ha by done. destruct (Z.eq_dec i 0) as [-> |].
      * unfold group_min. simpl. specialize (He 0 ltac:(nia)). lia.
      * apply group_min_glb; [done|lia|]. intros t' Ht'. apply He. nia.
    + etrans; [by apply Hle|by apply Hag].
  - intros x [Hdc Hgrp Hdelta] Hx t Ht. pose proof (grp_of_range G N t HG0 Ht).
    rewrite Hout by done. etrans; [|apply (Hgreat (λ i, x (G * i))); [| |done]].
    + destruct (Z.eq_dec t 0) as [-> |]; [by rewrite grp_of_0, Z.mul_0_r by lia|].
      rewrite Hgrp by lia. done.
    + intros i Hi. rewrite Ha by done. destruct (Z.eq_dec i 0) as [-> |].
      * unfold group_min. simpl. rewrite Z.mul_0_r. specialize (Hx 0 ltac:(nia)). lia.
      * apply group_min_glb; [done|lia|]. intros t' Ht'.
        assert (Hg : grp_of G t' = i).
        { replace t' with (G * (i - 1) + (t' - G * (i - 1))) by lia. apply grp_of_eq; lia. }
        rewrite <- Hg, <- Hgrp by nia. apply Hx. nia.
    + intros i Hi. by apply Hdelta.
Qed.

Lemma encode_exp_blk_ch_spec e nc s :
  1 ≤ s ≤ 3 → 0 ≤ nc < 256 → 1 ≤ nexpgrp s nc → zlen e = 256 → (∀ t, 0 ≤ t < 256 → 0 ≤ e.[t] < 256) →
  wp (encode_exp_blk_ch e nc s) (exp_encoded (grpsize s) (nexpgrp s nc * 3) e).
Proof.
  intros Hs Hnc H1 Hl Hu8. unfold encode_exp_blk_ch.
  destruct (nexpgrp_range s nc Hs Hnc) as (-> & H84 & H252). simpl mbind. cbv zeta.
  set (N := nexpgrp s nc * 3) in *. assert (HN : 1 ≤ N) by lia.
  assert (HG := grpsize_range s Hs).
  assert (Hlen : grpsize s * N < zlen e) by lia.
  pose proof (group_mins_start e s N Hs HN Hlen) as Hst. apply wp_bind_inv in Hst.
  apply wp_bind. eapply wp_mono; [exact Hst|]. intros e0 He0. cbv beta in He0.
  apply wp_bind. eapply wp_mono; [exact He0|]. intros a1 Ha1.
  apply wp_bind. eapply wp_mono; [by apply (group_mins_loop e s N)|].
  intros a (Hla & Hag & Har).
  assert (Hgb : ∀ i, 0 ≤ i ≤ N → 0 ≤ a.[i] < 256).
  { intros i Hi. rewrite Hag by lia. destruct (Z.eq_dec i 0) as [-> |].
    - unfold group_min. simpl. specialize (Hu8 0 ltac:(lia)). lia.
    - assert (HG' : grpsize s = 1 ∨ grpsize s = 2 ∨ grpsize s = 4) by lia. split.
      + apply group_min_glb; [done|lia|]. intros t Ht. apply Hu8. nia.
      + eapply Z.le_lt_trans; [apply (group_min_le (λ t, e.[t]) (grpsize s) i (grpsize s * i)); [done|lia|nia]|].
        apply Hu8. nia. }
  pose proof (slope_loops e s N Hs HN Hlen a Hla Hgb) as Hsl. apply wp_bind_inv in Hsl.
  apply wp_bind. eapply wp_mono; [exact Hsl|]. intros f Hf. cbv beta in Hf.
  apply wp_bind. eapply wp_mono; [exact Hf|]. intros h (Hlh & Hhr & f' & Hpass).
  eapply wp_mono; [by apply (expand_loop e s N)|]. intros out (Ho & Hor & Hout).
  apply (encoded_of_phases _ _ e (λ i, a.[i]) (λ i, f'.[i]) (λ i, h.[i])); try done.
  - lia.
  - intros t Ht. apply Hu8. lia.
  - intros i Hi. apply Hag. lia.
  - intros t Ht. rewrite Hor, Hhr, Har by nia. done.
Qed.

Lemma exponent_min_spec t a b n :
  0 ≤ n → n ≤ zlen t → n ≤ zlen a → n ≤ zlen b →
  wp (exponent_min t a b n) (λ t', zlen t' = zlen t ∧
    ∀ i, 0 ≤ i → t'.[i] = if i <? n then Z.min a.[i] b.[i] else t.[i]).
Proof.
  intros Hn Ht Ha Hb. unfold exponent_min.
  apply (wp_for_up (λ k t', zlen t' = zlen t ∧
    ∀ i, 0 ≤ i → t'.[i] = if i <? k then Z.min a.[i] b.[i] else t.[i])); [done| | |done].
  - split; [done|]. intros i Hi. by replace (i <? 0) with false by lia.
  - intros k t' Hk [Hl Hat]. wp_steps. rewrite zlen_upd, MIN_min. split; [done|]. intros i Hi.
    rewrite at_upd, Hat by lia. destruct (Z.eqb_spec i k) as [-> |].
    + by replace (k <? k + 1) with true by lia.
    + by replace (i <? k + 1) with (i <? k) by lia.
Qed.

(** * The exponents of a frame *)

(** [blocks[k].exp[ch]], [blocks[k].exp_strategy[ch]] *)
Definition bexp (blocks : list Block.t) (k ch : Z) : list Z := (Block.exp_ blocks.[k]).[ch].
Definition bstr (blocks : list Block.t) (k ch : Z) : Z := (Block.exp_strategy blocks.[k]).[ch].

Definition put_exp (blocks : list Block.t) (k ch : Z) (e : list Z) : list Block.t :=
  upd blocks k (blocks.[k] <| Block.exp_ := upd (Block.exp_ blocks.[k]) ch e |>).

Section put_exp.
Variables (blocks : list Block.t) (k ch : Z).
Hypothesis Hwf : blocks_wf blocks.
Hypothesis Hk : 0 ≤ k < 6.
Hypothesis Hch : 0 ≤ ch < 6.

Lemma get_exp_eq : get_exp blocks k ch = Some (bexp blocks k ch).
Proof.
  destruct Hwf as [Hl Hb]. unfold get_exp. rewrite aget_at by lia. simpl mbind.
  destruct (wf_exp _ (Hb k Hk)) as [He _]. by rewrite aget_at by lia.
Qed.

Lemma set_exp_eq e : set_exp blocks k ch e = Some (put_exp blocks k ch e).
Proof.
  destruct Hwf as [Hl Hb]. unfold set_exp. rewrite aget_at by lia. simpl mbind.
  destruct (wf_exp _ (Hb k Hk)) as [He _]. rewrite aset_upd by lia. simpl mbind.
  by rewrite aset_upd by lia.
Qed.

Lemma bexp_len : zlen (bexp blocks k ch) = 256.
Proof. destruct Hwf as [_ Hb]. apply (dim2_row 6); [by apply wf_exp, Hb|done]. Qed.

Lemma put_exp_wf e : zlen e = 256 → blocks_wf (put_exp blocks k ch e).
Proof.
  intros He. apply blocks_wf_upd; [done|done|]. destruct Hwf as [_ Hb]. destruct (Hb k Hk).
  split; simpl; try done. by apply dim2_upd.
Qed.

Lemma bexp_put e k' ch' :
  0 ≤ k' → 0 ≤ ch' →
  bexp (put_exp blocks k ch e) k' ch' = if (k' =? k) && (ch' =? ch) then e else bexp blocks k' ch'.
Proof.
  intros Hk' Hch'. destruct Hwf as [Hl Hb]. unfold bexp, put_exp. rewrite at_upd by lia.
  destruct (Z.eqb_spec k' k) as [-> |]; [|done]. simpl.
  destruct (wf_exp _ (Hb k Hk)) as [He _]. rewrite at_upd by lia. by destruct (ch' =? ch).
Qed.

(** Everything but the exponents is kept. *)
Lemma put_exp_same {X} (f : Block.t → X) e k' :
  (∀ b es, f (b <| Block.exp_ := es |>) = f b) → 0 ≤ k' →
  f (put_exp blocks k ch e).[k'] = f blocks.[k'].
Proof.
  intros Hf Hk'. destruct Hwf as [Hl Hb]. unfold put_exp. rewrite at_upd by lia.
  destruct (Z.eqb_spec k' k) as [-> |]; [by rewrite Hf|done].
Qed.

Lemma bstr_put e k' ch' : 0 ≤ k' → bstr (put_exp blocks k ch e) k' ch' = bstr blocks k' ch'.
Proof. intros. unfold bstr. f_equal. by apply (put_exp_same Block.exp_strategy). Qed.
End put_exp.

(** Blocks that differ in their exponents only. *)
Definition same_but_exp (b0 b1 : list Block.t) : Prop :=
  ∀ k, 0 ≤ k < 6 → b1.[k] = b0.[k] <| Block.exp_ := Block.exp_ b1.[k] |>.

Lemma same_but_exp_refl b : same_but_exp b b.
Proof. intros k _. by destruct b.[k]. Qed.

Lemma same_but_exp_put b0 b1 k ch e :
  same_but_exp b0 b1 → blocks_wf b1 → 0 ≤ k < 6 → same_but_exp b0 (put_exp b1 k ch e).
Proof.
  intros Hs [Hl _] Hk j Hj. unfold put_exp. rewrite at_upd by lia.
  destruct (Z.eqb_spec j k) as [-> |]; [|by apply Hs].
  simpl. exact (f_equal (λ b, b <| Block.exp_ := upd (Block.exp_ b1.[k]) ch e |>) (Hs k Hk)).
Qed.

Lemma same_but_exp_str b0 b1 k ch : same_but_exp b0 b1 → 0 ≤ k < 6 → bstr b1 k ch = bstr b0 k ch.
Proof. intros Hs Hk. unfold bstr. by rewrite (Hs k Hk). Qed.

(** What the encoding of a channel leaves in block [k], relative to the
    exponents [X0] before it. *)
Record exp_final (nc : Z) (blocks0 blocks : list Block.t) (ch k : Z) : Prop := {
  ef_u8 : ∀ t, 0 ≤ t < 256 → 0 ≤ (bexp blocks k ch).[t] < 256;
  ef_below : ∀ t, 0 ≤ t < nc → (bexp blocks k ch).[t] ≤ (bexp blocks0 k ch).[t];
  ef_new : bstr blocks0 k ch ≠ EXP_REUSE →
    representable (grpsize (bstr blocks0 k ch)) (nexpgrp (bstr blocks0 k ch) nc * 3)
      (λ t, (bexp blocks k ch).[t]);
  ef_reuse : bstr blocks0 k ch = EXP_REUSE →
    ∀ t, 0 ≤ t < nc → (bexp blocks k ch).[t] = (bexp blocks (k - 1) ch).[t]
}.

Section encode_channel.
Variables (blocks0 : list Block.t) (ch nc : Z).
Hypothesis Hch : 0 ≤ ch < 6.
Hypothesis Hnc : ncoefs_ok nc.
Hypothesis Hwf0 : blocks_wf blocks0.
Hypothesis Hstr : ∀ k, 0 ≤ k < 6 → 0 ≤ bstr blocks0 k ch ≤ 3.
Hypothesis Hstr0 : bstr blocks0 0 ch ≠ EXP_REUSE.
Hypothesis Hu8 : ∀ k t, 0 ≤ k < 6 → 0 ≤ t < 256 → 0 ≤ (bexp blocks0 k ch).[t] < 256.

(** [b1] is [b0] except for the exponents of channel [ch] in the blocks of [p]. *)
Definition chan_only (p : Z → Prop) (b1 b2 : list Block.t) : Prop :=
  blocks_wf b2 ∧ same_but_exp b1 b2 ∧
  ∀ k c, 0 ≤ k < 6 → 0 ≤ c < 6 → c ≠ ch ∨ ¬ p k → bexp b2 k c = bexp b1 k c.

Lemma chan_only_put p b1 b2 k e :
  chan_only p b1 b2 → 0 ≤ k < 6 → p k → zlen e = 256 → chan_only p b1 (put_exp b2 k ch e).
Proof.
  intros (Hw & Hs & Ho) Hk Hp He. split; [by apply put_exp_wf|]. split; [by apply same_but_exp_put|].
  intros k' c Hk' Hc Hor. rewrite bexp_put by (done || lia).
  destruct (Z.eqb_spec k' k) as [-> |], (Z.eqb_spec c ch) as [-> |]; simpl; auto.
  destruct Hor; done.
Qed.

Lemma chan_only_strategy p b1 b2 k :
  chan_only p b1 b2 → 0 ≤ k < 6 →
  ∃ b, aget b2 k = Some b ∧ aget (Block.exp_strategy b) ch = Some (bstr b1 k ch).
Proof.
  intros ([Hl Hb] & Hs & _) Hk. exists b2.[k]. split; [apply aget_at; lia|].
  rewrite <- (same_but_exp_str b1 b2) by done. unfold bstr.
  apply aget_at. rewrite (wf_exp_strategy _ (Hb k Hk)). lia.
Qed.

(** The minimum over the blocks that reuse the exponents of block [i]. *)
Lemma reuse_loop b i :
  0 ≤ i < 6 → chan_only (λ k, 0 ≤ k < i) blocks0 b →
  wp (for_break (i + 1) A52_NUM_BLOCKS (λ j '(_, blocks),
        b ← aget blocks j;
        es ← aget (Block.exp_strategy b) ch;
        if es =? EXP_REUSE then
          ei ← get_exp blocks i ch;
          ej ← get_exp blocks j ch;
          ei ← exponent_min ei ei ej nc;
          blocks ← set_exp blocks i ch ei;
          Some (inr (j + 1, blocks))
        else Some (inl (j, blocks))) (i + 1, b))
     (λ '(j, b'), i < j ≤ 6 ∧ (∀ k, i < k < j → bstr blocks0 k ch = EXP_REUSE) ∧
        (j < 6 → bstr blocks0 j ch ≠ EXP_REUSE) ∧ chan_only (λ k, k = i) b b' ∧
        (∀ t, 0 ≤ t < 256 → 0 ≤ (bexp b' i ch).[t] < 256) ∧
        ∀ k t, i ≤ k < j → 0 ≤ t < nc → (bexp b' i ch).[t] ≤ (bexp blocks0 k ch).[t]).
Proof.
  intros Hi Hb. pose proof (ncoefs_ok_range nc Hnc).
  apply (wp_for_break (λ j '(j', b'), j' = j ∧ (∀ k, i < k < j → bstr blocks0 k ch = EXP_REUSE) ∧
    chan_only (λ k, k = i) b b' ∧ (∀ t, 0 ≤ t < 256 → 0 ≤ (bexp b' i ch).[t] < 256) ∧
    ∀ k t, i ≤ k < j → 0 ≤ t < nc → (bexp b' i ch).[t] ≤ (bexp blocks0 k ch).[t])).
  - unfold A52_NUM_BLOCKS. lia.
  - pose proof Hb as (Hw & _ & Ho). split_and!; [done|lia| | |].
    + split; [done|]. split; [apply same_but_exp_refl|done].
    + intros t Ht. rewrite Ho by lia. by apply Hu8.
    + intros k t Hk Ht. assert (k = i) as -> by lia. rewrite Ho by lia. lia.
  - unfold A52_NUM_BLOCKS. intros j [j' b'] Hj (-> & Hre & Hc & Hcu & Hle).
    assert (Hs : bstr b j ch = bstr blocks0 j ch) by (apply same_but_exp_str; [apply Hb|lia]).
    destruct (chan_only_strategy _ _ _ j Hc ltac:(lia)) as (bj & -> & Hbj). simpl mbind.
    rewrite Hbj, Hs. simpl mbind. destruct (Z.eqb_spec (bstr blocks0 j ch) EXP_REUSE) as [Hz|Hz].
    + pose proof Hc as (Hw' & _ & Ho').
      rewrite (get_exp_eq b' i), (get_exp_eq b' j) by (done || lia). simpl mbind.
      pose proof (bexp_len b' i ch Hw' ltac:(lia) Hch). pose proof (bexp_len b' j ch Hw' ltac:(lia) Hch).
      wp_step. eapply wp_mono; [apply exponent_min_spec; lia|]. intros e [Hel He].
      rewrite set_exp_eq by (done || lia). simpl mbind. apply wp_ret.
      assert (Hej : ∀ t, (bexp b' j ch).[t] = (bexp blocks0 j ch).[t]).
      { intros t. rewrite Ho' by lia. destruct Hb as (_ & _ & Ho). by rewrite Ho by lia. }
      split_and!; [done| | | |].
      * intros k Hk. destruct (Z.eq_dec k j) as [-> |]; [done|]. apply Hre. lia.
      * apply chan_only_put; [done|lia|done|lia].
      * intros t Ht. rewrite bexp_put by (done || lia). rewrite !Z.eqb_refl. simpl.
        rewrite He, Hej by lia. pose proof (Hcu t Ht). pose proof (Hu8 j t ltac:(lia) Ht).
        destruct (t <? nc); lia.
      * intros k t Hk Ht. rewrite bexp_put by (done || lia). rewrite !Z.eqb_refl. simpl.
        rewrite He, Hej by lia. replace (t <? nc) with true by lia.
        destruct (Z.eq_dec k j) as [-> |]; [lia|]. pose proof (Hle k t ltac:(lia) Ht). lia.
    + apply wp_ret. split_and!; [lia|lia|done|done|done|done|done].
  - unfold A52_NUM_BLOCKS. intros [j' b'] (-> & Hre & Hc & Hcu & Hle).
    split_and!; [lia|lia|done|lia|done|done|done].
Qed.

(** Copying the encoded exponents to the blocks that reuse them. *)
Lemma copy_loop b i j :
  0 ≤ i < j → j ≤ 6 → blocks_wf b →
  wp (for_up (i + 1) j (λ k blocks,
        ek ← get_exp blocks k ch;
        ei ← get_exp blocks i ch;
        ek ← memcpy ek 0 ei 0 nc;
        set_exp blocks k ch ek) b)
     (λ b', chan_only (λ k, i < k < j) b b' ∧
        ∀ k t, i < k < j → 0 ≤ t < 256 →
          (bexp b' k ch).[t] = if t <? nc then (bexp b i ch).[t] else (bexp b k ch).[t]).
Proof.
  intros Hi Hj Hw. pose proof (ncoefs_ok_range nc Hnc).
  apply (wp_for_up (λ m b', chan_only (λ k, i < k < m) b b' ∧
    ∀ k t, i < k < m → 0 ≤ t < 256 →
      (bexp b' k ch).[t] = if t <? nc then (bexp b i ch).[t] else (bexp b k ch).[t])).
  - lia.
  - split; [|lia]. split; [done|]. split; [apply same_but_exp_refl|done].
  - intros m b' Hm [Hc Hcp]. pose proof Hc as (Hw' & _ & Ho').
    rewrite (get_exp_eq b' m) by (done || lia). simpl mbind. rewrite (get_exp_eq b' i) by (done || lia). simpl mbind.
    pose proof (bexp_len b' m ch Hw' ltac:(lia) Hch). pose proof (bexp_len b' i ch Hw' ltac:(lia) Hch).
    rewrite memcpy_in by lia. simpl mbind. rewrite set_exp_eq by (done || lia). simpl.
    rewrite (Ho' i ch), (Ho' m ch) in * by lia.
    assert (Hsl : zlen (slice (bexp b i ch) 0 nc) = nc) by (apply zlen_slice; lia).
    set (e := splice _ _ _).
    assert (He : zlen e = 256) by (unfold e; rewrite zlen_splice by lia; lia).
    split.
    + apply chan_only_put; [|lia|lia|done]. destruct Hc as (_ & Hs & _).
      split; [done|]. split; [done|]. intros k c Hk Hc Hor. apply Ho'; [done|done|].
      destruct Hor; [by left|right; lia].
    + intros k t Hk Ht. rewrite bexp_put by (done || lia). rewrite Z.eqb_refl, andb_true_r.
      destruct (Z.eqb_spec k m) as [-> |]; [|apply Hcp; lia].
      unfold e. rewrite at_splice by lia. rewrite Hsl.
      replace ((0 <=? t) && (t <? 0 + nc)) with (t <? nc) by lia. destruct (Z.ltb_spec t nc); [|done].
      rewrite at_slice by lia. f_equal. lia.
  - done.
Qed.

(** One run: block [i] with the blocks that reuse its exponents. *)
Lemma encode_run b i :
  0 ≤ i < 6 → bstr blocks0 i ch ≠ EXP_REUSE → chan_only (λ k, 0 ≤ k < i) blocks0 b →
  wp ('(j, blocks) ← for_break (i + 1) A52_NUM_BLOCKS (λ j '(_, blocks),
        b ← aget blocks j;
        es ← aget (Block.exp_strategy b) ch;
        if es =? EXP_REUSE then
          ei ← get_exp blocks i ch;
          ej ← get_exp blocks j ch;
          ei ← exponent_min ei ei ej nc;
          blocks ← set_exp blocks i ch ei;
          Some (inr (j + 1, blocks))
        else Some (inl (j, blocks))) (i + 1, b);
      b ← aget blocks i;
      es ← aget (Block.exp_strategy b) ch;
      ei ← get_exp blocks i ch;
      ei ← encode_exp_blk_ch ei nc es;
      blocks ← set_exp blocks i ch ei;
      blocks ← for_up (i + 1) j (λ k blocks,
        ek ← get_exp blocks k ch;
        ei ← get_exp blocks i ch;
        ek ← memcpy ek 0 ei 0 nc;
        set_exp blocks k ch ek) blocks;
      Some (j, blocks))
     (λ '(j, b'), i < j ≤ 6 ∧ (j < 6 → bstr blocks0 j ch ≠ EXP_REUSE) ∧
        chan_only (λ k, 0 ≤ k < j) blocks0 b' ∧ (∀ k c, 0 ≤ k < i → 0 ≤ c < 6 → bexp b' k c = bexp b k c) ∧
        ∀ k, i ≤ k < j → exp_final nc blocks0 b' ch k).
Proof.
  intros Hi Hsi Hb. pose proof (ncoefs_ok_range nc Hnc) as Hr.
  apply wp_bind. eapply wp_mono; [by apply reuse_loop|].
  intros [j b1] (Hj & Hre & Hnext & Hc1 & Hu1 & Hle1).
  destruct (chan_only_strategy _ _ _ i Hc1 ltac:(lia)) as (bi & -> & Hbi). simpl mbind.
  rewrite Hbi. simpl mbind. pose proof Hc1 as (Hw1 & Hs1 & Ho1). pose proof Hb as (Hwb & Hsb & Hob).
  rewrite (same_but_exp_str blocks0 b) by done. set (si := bstr blocks0 i ch) in *.
  assert (Hsi3 : 1 ≤ si ≤ 3) by (specialize (Hstr i Hi); unfold si, EXP_REUSE in *; lia).
  rewrite get_exp_eq by done. simpl mbind.
  pose proof (bexp_len b1 i ch Hw1 Hi Hch) as Hl1.
  pose proof (nexpgrp_covers si nc Hsi3 Hnc) as [H1g Hcov].
  pose proof (nexpgrp_range si nc Hsi3 ltac:(lia)) as (_ & _ & H252).
  wp_step. eapply wp_mono; [apply encode_exp_blk_ch_spec; done || lia|].
  intros e [Hel Herest Herepr Hebelow _].
  rewrite set_exp_eq by done. simpl mbind.
  assert (He256 : zlen e = 256) by lia.
  set (b2 := put_exp b1 i ch e).
  assert (Hw2 : blocks_wf b2) by (by apply put_exp_wf).
  assert (Hb2i : bexp b2 i ch = e) by (unfold b2; rewrite bexp_put by (done || lia); by rewrite !Z.eqb_refl).
  assert (Heu : ∀ t, 0 ≤ t < 256 → 0 ≤ e.[t] < 256).
  { intros t Ht. destruct (Z.leb_spec t (grpsize si * (nexpgrp si nc * 3))) as [Hle|Hgt].
    - pose proof (Hebelow t ltac:(lia)). pose proof (Hu1 t Ht). lia.
    - rewrite Herest by lia. by apply Hu1. }
  wp_step. eapply wp_mono; [apply copy_loop; [lia|lia|done]|].
  intros b3 [(Hw3 & Hs3 & Ho3) Hcp]. apply wp_ret.
  assert (Ho2 : ∀ k c, 0 ≤ k < 6 → 0 ≤ c < 6 → c ≠ ch ∨ k ≠ i → bexp b2 k c = bexp b k c).
  { intros k c Hk Hc Hor. unfold b2. rewrite bexp_put by (done || lia).
    destruct (Z.eqb_spec k i) as [-> |], (Z.eqb_spec c ch) as [-> |]; simpl;
      try (apply Ho1; [lia|lia|]; tauto). by destruct Hor. }
  split_and!; [lia|lia|done| | |].
  - split; [done|]. split.
    + intros k Hk. rewrite (Hs3 k Hk). unfold b2, put_exp.
      pose proof (Hs1 k Hk) as E1. pose proof (Hsb k Hk) as Eb.
      destruct (Z.eq_dec k i) as [-> |].
      * rewrite at_upd_eq by (destruct Hw1; lia). simpl. rewrite E1, Eb. done.
      * rewrite at_upd_ne by lia. rewrite E1, Eb. done.
    + intros k c Hk Hc Hor. destruct (Z.ltb_spec k j).
      * destruct Hor as [Hne|]; [|lia]. rewrite Ho3, Ho2, Hob by (done || lia || by left). done.
      * rewrite Ho3, Ho2, Hob by (done || lia || (right; lia)). done.
  - intros k c Hk Hc. rewrite Ho3, Ho2 by (done || lia || (right; lia)). done.
  - intros k Hk.
    assert (Hk3 : ∀ t, 0 ≤ t < 256 → (bexp b3 k ch).[t] = if t <? nc then e.[t] else (bexp b2 k ch).[t]).
    { intros t Ht. destruct (Z.eq_dec k i) as [-> |].
      - rewrite Ho3, Hb2i by (done || lia || (right; lia)). by destruct (t <? nc).
      - rewrite Hcp by lia. by rewrite Hb2i. }
    assert (Hk3i : bexp b3 i ch = e) by (rewrite Ho3, Hb2i by (done || lia || (right; lia)); done).
    split.
    + intros t Ht. rewrite Hk3 by done. destruct (t <? nc); [by apply Heu|].
      destruct (Z.eq_dec k i) as [-> |]; [rewrite Hb2i; by apply Heu|].
      rewrite Ho2, Hob by (done || lia || (right; lia)). apply Hu8; lia.
    + intros t Ht. rewrite Hk3 by lia. replace (t <? nc) with true by lia.
      pose proof (Hebelow t ltac:(lia)). pose proof (Hle1 k t ltac:(lia) Ht). lia.
    + intros Hnew. destruct (Z.eq_dec k i) as [-> |]; [|by destruct Hnew; apply Hre; lia].
      by rewrite Hk3i.
    + intros Hreuse t Ht. destruct (Z.eq_dec k i) as [-> |]; [done|].
      rewrite Hk3 by lia. replace (t <? nc) with true by lia.
      destruct (Z.eq_dec (k - 1) i) as [-> |]; [by rewrite Hk3i|].
      rewrite Hcp by lia. replace (t <? nc) with true by lia. by rewrite Hb2i.
Qed.

Lemma exp_final_ext b b' k :
  0 ≤ k < 6 → bstr blocks0 0 ch ≠ EXP_REUSE →
  (∀ k', 0 ≤ k' ≤ k → bexp b' k' ch = bexp b k' ch) →
  exp_final nc blocks0 b ch k → exp_final nc blocks0 b' ch k.
Proof.
  intros Hk H0 Heq [Hu Hb Hn Hr]. rewrite <- (Heq k ltac:(lia)) in *.
  split; [done|done|done|]. intros Hre t Ht.
  assert (k ≠ 0) by (intros ->; done). rewrite (Heq (k - 1)) by lia. by apply Hr.
Qed.

(** All blocks of the channel. *)
Lemma encode_channel_spec :
  wp (while_loop 6 (λ '(i, _), i <? A52_NUM_BLOCKS) (λ '(i, blocks),
      '(j, blocks) ← for_break (i + 1) A52_NUM_BLOCKS (λ j '(_, blocks),
        b ← aget blocks j;
        es ← aget (Block.exp_strategy b) ch;
        if es =? EXP_REUSE then
          ei ← get_exp blocks i ch;
          ej ← get_exp blocks j ch;
          ei ← exponent_min ei ei ej nc;
          blocks ← set_exp blocks i ch ei;
          Some (inr (j + 1, blocks))
        else Some (inl (j, blocks))) (i + 1, blocks);
      b ← aget blocks i;
      es ← aget (Block.exp_strategy b) ch;
      ei ← get_exp blocks i ch;
      ei ← encode_exp_blk_ch ei nc es;
      blocks ← set_exp blocks i ch ei;
      blocks ← for_up (i + 1) j (λ k blocks,
        ek ← get_exp blocks k ch;
        ei ← get_exp blocks i ch;
        ek ← memcpy ek 0 ei 0 nc;
        set_exp blocks k ch ek) blocks;
      Some (j, blocks)) (0, blocks0))
    (λ '(_, b), chan_only (λ _, True) blocks0 b ∧ ∀ k, 0 ≤ k < 6 → exp_final nc blocks0 b ch k).
Proof.
  unfold A52_NUM_BLOCKS.
  apply (wp_while (λ '(i, b), 0 ≤ i ≤ 6 ∧ (i < 6 → bstr blocks0 i ch ≠ EXP_REUSE) ∧
    chan_only (λ k, 0 ≤ k < i) blocks0 b ∧ ∀ k, 0 ≤ k < i → exp_final nc blocks0 b ch k)
    (λ '(i, _), Z.to_nat (6 - i))).
  - split_and!; [lia|lia|done| |lia]. split; [done|]. split; [apply same_but_exp_refl|done].
  - lia.
  - intros [i b] (Hi & Hsi & Hc & Hf) Hlt. simpl in Hlt.
    eapply wp_mono; [apply (encode_run b i); [lia|apply Hsi; lia|done]|].
    intros [j b'] (Hj & Hnext & Hc' & Hkeep & Hf'). split; [|lia]. split_and!; [lia|lia|done|done|].
    intros k Hk. destruct (Z.ltb_spec k i); [|apply Hf'; lia].
    apply (exp_final_ext b); [lia|done| |apply Hf; lia].
    intros k' Hk'. apply Hkeep; lia.
  - intros [i b] (Hi & _ & (Hw & Hs & Ho) & Hf) Hge. simpl in Hge. split; [|intros k Hk; apply Hf; lia].
    split; [done|]. split; [done|]. intros k c Hk Hc [Hne|[]]; [|done]. by apply Ho; [| |left].
Qed.
End encode_channel.

(** The part of a frame that the exponent stages look at is in shape: the
    channels' coefficient counts, strategies and exponents. *)
Record exps_ready (n : Z) (ncoefs : list Z) (blocks : list Block.t) : Prop := {
  er_n : 0 ≤ n ≤ 6;
  er_wf : blocks_wf blocks;
  er_nlen : zlen ncoefs = 6;
  er_ncoefs : ∀ c, 0 ≤ c < n → ncoefs_ok ncoefs.[c];
  er_str : ∀ k c, 0 ≤ k < 6 → 0 ≤ c < n → 0 ≤ bstr blocks k c ≤ 3;
  er_str0 : ∀ c, 0 ≤ c < n → bstr blocks 0 c ≠ EXP_REUSE;
  er_u8 : ∀ k c t, 0 ≤ k < 6 → 0 ≤ c < n → 0 ≤ t < 256 → 0 ≤ (bexp blocks k c).[t] < 256
}.

Lemma encode_exponents_spec ctx frame :
  exps_ready (Ctx.n_all_channels ctx) (Frame.ncoefs frame) (Frame.blocks frame) →
  wp (encode_exponents ctx frame) (λ frame', ∃ blocks,
    frame' = frame <| Frame.blocks := blocks |> ∧ blocks_wf blocks ∧
    same_but_exp (Frame.blocks frame) blocks ∧
    ∀ c k, 0 ≤ c < Ctx.n_all_channels ctx → 0 ≤ k < 6 →
      exp_final (Frame.ncoefs frame).[c] (Frame.blocks frame) blocks c k).
Proof.
  intros [Hn Hwf Hnl Hnc Hstr Hstr0 Hu8]. unfold encode_exponents.
  set (b0 := Frame.blocks frame) in *. set (n := Ctx.n_all_channels ctx) in *.
  apply wp_bind.
  apply (wp_for_up (λ ch b, blocks_wf b ∧ same_but_exp b0 b ∧
    (∀ c k, 0 ≤ c < ch → 0 ≤ k < 6 → exp_final (Frame.ncoefs frame).[c] b0 b c k) ∧
    (∀ c k, ch ≤ c < 6 → 0 ≤ k < 6 → bexp b k c = bexp b0 k c))).
  - lia.
  - split; [done|]. split; [apply same_but_exp_refl|]. split; [lia|done].
  - intros ch b Hch (Hw & Hs & Hdone & Htodo).
    assert (Hbs : ∀ k c, 0 ≤ k < 6 → bstr b k c = bstr b0 k c) by (intros; by apply same_but_exp_str).
    wp_steps. eapply wp_mono.
    { apply (encode_channel_spec b ch (Frame.ncoefs frame).[ch]).
      - lia.
      - by apply Hnc.
      - done.
      - intros k Hk. rewrite Hbs by done. by apply Hstr.
      - rewrite Hbs by lia. by apply Hstr0.
      - intros k t Hk Ht. rewrite Htodo by lia. by apply Hu8. }
    intros [i b'] [(Hw' & Hs' & Ho') Hf]. apply wp_ret. split; [done|]. split; [|split].
    + intros k Hk. rewrite (Hs' k Hk). pose proof (Hs k Hk) as E. rewrite E. done.
    + intros c k Hc Hk. destruct (Z.eq_dec c ch) as [-> |].
      * destruct (Hf k Hk) as [Hu Hb Hnw Hr]. rewrite Hbs in Hnw, Hr by done.
        split; [done| |done|done]. intros t Ht. rewrite <- (Htodo ch k) by lia. by apply Hb.
      * destruct (Hdone c k ltac:(lia) Hk) as [Hu Hb Hnw Hr].
        assert (He : ∀ k, 0 ≤ k < 6 → bexp b' k c = bexp b k c) by (intros; apply Ho'; [done|lia|by left]).
        split; rewrite ?He by done; [done|done|done|].
        intros Hre t Ht. assert (k ≠ 0) by (intros ->; by apply (Hstr0 c); [lia|]).
        rewrite He by lia. by apply Hr.
    + intros c k Hc Hk. rewrite Ho' by (lia || (left; lia)). apply Htodo; lia.
  - intros b (Hw & Hs & Hdone & _). apply wp_ret. by exists b.
Qed.

(** * Groups *)

(** The decoder: exponent of group [m] from the first exponent and the 7-bit
    codes of three deltas each. *)
Definition code_digit (code r : Z) : Z :=
  if r =? 0 then code / 25 else if r =? 1 then code / 5 mod 5 else code mod 5.

Fixpoint decode_group (g : list Z) (m : nat) : Z :=
  match m with
  | O => g.[0]
  | S m' => decode_group g m' + code_digit g.[Z.of_nat m' / 3 + 1] (Z.of_nat m' mod 3) - 2
  end.

Lemma code_digits d0 d1 d2 :
  0 ≤ d0 ≤ 4 → 0 ≤ d1 ≤ 4 → 0 ≤ d2 ≤ 4 → let code := (d0 * 5 + d1) * 5 + d2 in
  0 ≤ code ≤ 124 ∧ code_digit code 0 = d0 ∧ code_digit code 1 = d1 ∧ code_digit code 2 = d2.
Proof.
  intros H0 H1 H2 code. unfold code_digit, code. simpl.
  split; [lia|]. split; [symmetry; apply Z.div_unique with (5 * d1 + d2); lia|].
  assert (Hq : ((d0 * 5 + d1) * 5 + d2) / 5 = d0 * 5 + d1) by (symmetry; apply Z.div_unique with d2; lia).
  rewrite Hq. split; symmetry; [apply Z.mod_unique with d0|apply Z.mod_unique with (d0 * 5 + d1)]; lia.
Qed.

(** The codes of a channel, for the exponents of [N = 3 * n] groups. *)
Record groups_ok (G n : Z) (e g : list Z) : Prop := {
  go_first : 0 ≤ g.[0] ≤ 15;
  go_codes : ∀ i, 1 ≤ i ≤ n → 0 ≤ g.[i] ≤ 124;
  go_decode : ∀ m, 0 ≤ m ≤ 3 * n → decode_group g (Z.to_nat m) = e.[G * m]
}.

Lemma decode_group_ext g g' m :
  (∀ i, 0 ≤ i ≤ (Z.of_nat m + 2) / 3 → g'.[i] = g.[i]) → decode_group g' m = decode_group g m.
Proof.
  induction m as [|m IH]; intros Hg; cbn [decode_group].
  - apply Hg. done.
  - assert ((Z.of_nat m + 2) / 3 ≤ (Z.of_nat (S m) + 2) / 3) by (apply Z.div_le_mono; lia).
    assert ((Z.of_nat (S m) + 2) / 3 = Z.of_nat m / 3 + 1).
    { rewrite Nat2Z.inj_succ. replace (Z.succ (Z.of_nat m) + 2) with (Z.of_nat m + 1 * 3) by lia.
      by rewrite Z.div_add by lia. }
    assert (0 ≤ Z.of_nat m / 3) by (apply Z.div_pos; lia).
    rewrite IH by (intros; apply Hg; lia). rewrite Hg by lia. done.
Qed.

Lemma decode_group_step g k r :
  0 ≤ k → 0 ≤ r < 3 →
  decode_group g (Z.to_nat (3 * k + r + 1)) =
    decode_group g (Z.to_nat (3 * k + r)) + code_digit g.[k + 1] r - 2.
Proof.
  intros Hk Hr. replace (Z.to_nat (3 * k + r + 1)) with (S (Z.to_nat (3 * k + r))) by lia.
  cbn [decode_group]. rewrite Z2Nat.id by lia.
  replace ((3 * k + r) / 3) with k by (apply Z.div_unique with r; lia).
  by replace ((3 * k + r) mod 3) with r by (apply Z.mod_unique with k; lia).
Qed.

(** Appending the code of three more deltas. *)
Lemma decode_extend (h : Z → Z) g i d0 d1 d2 :
  1 ≤ i < zlen g →
  (∀ m, 0 ≤ m ≤ 3 * (i - 1) → decode_group g (Z.to_nat m) = h m) →
  0 ≤ d0 ≤ 4 → 0 ≤ d1 ≤ 4 → 0 ≤ d2 ≤ 4 →
  h (3 * (i - 1) + 1) = h (3 * (i - 1)) + d0 - 2 →
  h (3 * (i - 1) + 2) = h (3 * (i - 1) + 1) + d1 - 2 →
  h (3 * i) = h (3 * (i - 1) + 2) + d2 - 2 →
  ∀ m, 0 ≤ m ≤ 3 * i → decode_group (upd g i ((d0 * 5 + d1) * 5 + d2)) (Z.to_nat m) = h m.
Proof.
  intros Hi Hdec H0 H1 H2 Hh1 Hh2 Hh3. set (g' := upd g i _).
  destruct (code_digits d0 d1 d2 H0 H1 H2) as (_ & Hc0 & Hc1 & Hc2).
  assert (Hgi : g'.[i] = (d0 * 5 + d1) * 5 + d2) by (unfold g'; by rewrite at_upd_eq by lia).
  assert (Hlow : ∀ m, 0 ≤ m ≤ 3 * (i - 1) → decode_group g' (Z.to_nat m) = h m).
  { intros m Hm. rewrite <- Hdec by done. apply decode_group_ext. intros k Hk.
    rewrite Z2Nat.id in Hk by lia.
    assert ((m + 2) / 3 < i) by (apply Z.div_lt_upper_bound; lia). unfold g'. by rewrite at_upd_ne by lia. }
  pose proof (decode_group_step g' (i - 1) 0 ltac:(lia) ltac:(lia)) as E1.
  pose proof (decode_group_step g' (i - 1) 1 ltac:(lia) ltac:(lia)) as E2.
  pose proof (decode_group_step g' (i - 1) 2 ltac:(lia) ltac:(lia)) as E3.
  replace (i - 1 + 1) with i in E1, E2, E3 by lia. rewrite Hgi in E1, E2, E3.
  rewrite Z.add_0_r, (Hlow (3 * (i - 1))), Hc0 in E1 by lia. rewrite E1, Hc1 in E2.
  replace (3 * (i - 1) + 1 + 1) with (3 * (i - 1) + 2) in E2 by lia. rewrite E2, Hc2 in E3.
  intros m Hm.
  assert (m ≤ 3 * (i - 1) ∨ m = 3 * (i - 1) + 1 ∨ m = 3 * (i - 1) + 2 ∨ m = 3 * (i - 1) + 2 + 1)
    as [Hle|[-> |[-> | ->]]] by lia; [apply Hlow; lia|lia|lia|].
  rewrite E3. replace (3 * (i - 1) + 2 + 1) with (3 * i) by lia. lia.
Qed.

Section group_channel.
Variables (b : Block.t) (ch s nc : Z).
Hypothesis Hb : block_wf b.
Hypothesis Hch : 0 ≤ ch < 6.
Hypothesis Hs : 1 ≤ s ≤ 3.
Hypothesis Hnc : ncoefs_ok nc.
#[local] Abbreviation e := (Block.exp_ b).[ch].
#[local] Abbreviation G := (grpsize s).
#[local] Abbreviation n := (nexpgrp s nc).
Hypothesis Hrepr : representable G (n * 3) (λ t, e.[t]).
Hypothesis Hpos : 0 ≤ e.[0].

(** The bin the pointer is at before group [m] holds the group's exponent. *)
Lemma group_first_bin m : 1 ≤ m ≤ n * 3 → e.[G * (m - 1) + 1] = e.[G * m].
Proof.
  intros Hm. assert (HG := grpsize_range s Hs).
  rewrite (repr_group _ _ _ Hrepr (G * (m - 1) + 1)) by nia. by rewrite grp_of_eq by lia.
Qed.

Lemma group_exponents_ch_spec :
  wp (group_exponents_ch b ch s nc) (λ '(b', bits), bits = 4 + 7 * n ∧ ∃ g,
    b' = b <| Block.nexpgrps := upd (Block.nexpgrps b) ch n |>
           <| Block.grp_exp := upd (Block.grp_exp b) ch g |> ∧
    zlen g = 85 ∧ groups_ok G n e g).
Proof.
  assert (HG := grpsize_range s Hs). pose proof (ncoefs_ok_range nc Hnc) as Hncr.
  destruct (nexpgrp_range s nc Hs ltac:(lia)) as (Hn & Hn84 & H252).
  destruct Hb. destruct wf_exp as [Hel He]. destruct wf_grp_exp as [Hgl Hg].
  pose proof (He ch ltac:(lia)) as Hel'. pose proof (Hg ch ltac:(lia)) as Hgl'.
  unfold group_exponents_ch. rewrite Hn. simpl mbind. rewrite u8_id by lia.
  do 2 wp_step. cbv zeta. do 8 wp_step. fold (grpsize s). wp_step.
  apply (wp_for_up (λ i '(p, x, g), p = G * (3 * (i - 1)) + 1 ∧ x = e.[G * (3 * (i - 1))] ∧ zlen g = 85 ∧
    g.[0] = e.[0] ∧ (∀ k, 1 ≤ k < i → 0 ≤ g.[k] ≤ 124) ∧
    ∀ m, 0 ≤ m ≤ 3 * (i - 1) → decode_group g (Z.to_nat m) = e.[G * m])).
  - lia.
  - rewrite zlen_upd, at_upd_eq by lia. split_and!; try lia; try (f_equal; lia).
    intros m Hm. assert (m = 0) as -> by lia. simpl. rewrite at_upd_eq by lia. f_equal. lia.
  - intros i [[p x] g] Hi (-> & -> & Hgz & Hg0 & Hcodes & Hdec).
    remember (3 * (i - 1)) as M eqn:HM.
    assert (E1 : e.[G * M + 1] = e.[G * (M + 1)]).
    { rewrite <- group_first_bin by lia. f_equal. lia. }
    assert (E2 : e.[G * M + 1 + G] = e.[G * (M + 2)]).
    { rewrite <- group_first_bin by lia. f_equal. lia. }
    assert (E3 : e.[G * M + 1 + G + G] = e.[G * (3 * i)]).
    { rewrite <- group_first_bin by lia. f_equal. lia. }
    assert (D1 := repr_delta _ _ _ Hrepr (M + 1) ltac:(lia)). cbv beta in D1.
    assert (D2 := repr_delta _ _ _ Hrepr (M + 2) ltac:(lia)). cbv beta in D2.
    assert (D3 := repr_delta _ _ _ Hrepr (3 * i) ltac:(lia)). cbv beta in D3.
    replace (M + 1 - 1) with M in D1 by lia. replace (M + 2 - 1) with (M + 1) in D2 by lia.
    replace (3 * i - 1) with (M + 2) in D3 by lia.
    wp_step. apply wp_aget; [nia|]. rewrite E1. wp_step. apply wp_aget; [nia|]. rewrite E2.
    wp_step. apply wp_aget; [nia|]. rewrite E3. wp_steps.
    set (d0 := _ - _ + 2). set (d1 := e.[G * (M + 2)] - _ + 2). set (d2 := e.[G * (3 * i)] - _ + 2).
    destruct (code_digits d0 d1 d2) as (Hcr & _); [lia..|].
    rewrite u8_id by lia. rewrite zlen_upd, (at_upd_ne g i 0) by lia.
    split_and!; [lia|f_equal; lia|done|done| |].
    + intros k Hk. rewrite at_upd by lia. destruct (Z.eqb_spec k i) as [-> |]; [lia|]. apply Hcodes. lia.
    + intros m Hm. apply (decode_extend (λ m, e.[G * m])); [lia| |lia|lia|lia| | | |lia]; rewrite <- HM;
        [done|unfold d0, d1, d2; lia..].
  - intros [[p x] g] (_ & _ & Hgz & Hg0 & Hcodes & Hdec). wp_steps. split; [lia|]. exists g.
    split; [done|]. split; [done|]. pose proof (repr_dc _ _ _ Hrepr) as Hdc. cbv beta in Hdc. split.
    + lia.
    + intros i Hi. apply Hcodes. lia.
    + intros m Hm. apply Hdec. lia.
Qed.
End group_channel.

(** The exponent bits of one channel of one block. *)
Definition exp_bits_ch (s nc : Z) : Z := if s =? EXP_REUSE then 0 else 4 + 7 * nexpgrp s nc.
Definition exp_bits_frame (n : Z) (ncoefs : list Z) (blocks : list Block.t) : Z :=
  zsum (λ k, zsum (λ c, exp_bits_ch (bstr blocks k c) ncoefs.[c]) n) 6.

(** What grouping leaves in a block for channel [c] with strategy [s]. *)
Record group_final (s nc : Z) (e g : list Z) (nexpgrps : Z) : Prop := {
  gf_new : s ≠ EXP_REUSE → nexpgrps = nexpgrp s nc ∧ groups_ok (grpsize s) (nexpgrp s nc) e g;
  gf_reuse : s = EXP_REUSE → nexpgrps = 0
}.

Definition same_but_grp (b b' : Block.t) : Prop :=
  b' = b <| Block.nexpgrps := Block.nexpgrps b' |> <| Block.grp_exp := Block.grp_exp b' |>.

(** Every new exponent set of the frame can be represented. *)
Definition exps_representable (n : Z) (ncoefs : list Z) (blocks : list Block.t) : Prop :=
  ∀ k c, 0 ≤ k < 6 → 0 ≤ c < n → bstr blocks k c ≠ EXP_REUSE →
    representable (grpsize (bstr blocks k c)) (nexpgrp (bstr blocks k c) ncoefs.[c] * 3)
      (λ t, (bexp blocks k c).[t]).

Section group_block.
Variables (b : Block.t) (n : Z) (ncoefs : list Z).
Hypothesis Hb : block_wf b.
Hypothesis Hn : 0 ≤ n ≤ 6.
Hypothesis Hnl : zlen ncoefs = 6.
#[local] Abbreviation S_ c := (Block.exp_strategy b).[c].
Hypothesis Hnc : ∀ c, 0 ≤ c < n → ncoefs_ok ncoefs.[c].
Hypothesis Hstr : ∀ c, 0 ≤ c < n → 0 ≤ S_ c ≤ 3.
Hypothesis Hrepr : ∀ c, 0 ≤ c < n → S_ c ≠ EXP_REUSE →
  representable (grpsize (S_ c)) (nexpgrp (S_ c) ncoefs.[c] * 3) (λ t, (Block.exp_ b).[c].[t]).
Hypothesis Hpos : ∀ c, 0 ≤ c < n → 0 ≤ (Block.exp_ b).[c].[0].

Lemma group_block_spec bits0 :
  wp (for_up 0 n (λ ch '(b, bits),
      expstr ← aget (Block.exp_strategy b) ch;
      if expstr =? EXP_REUSE then
        n ← aset (Block.nexpgrps b) ch 0;
        Some (b <| Block.nexpgrps := n |>, bits)
      else
        nc ← aget ncoefs ch;
        '(b, n) ← group_exponents_ch b ch expstr nc;
        Some (b, bits + n)) (b, bits0))
    (λ '(b', bits), block_wf b' ∧ same_but_grp b b' ∧
      bits = bits0 + zsum (λ c, exp_bits_ch (S_ c) ncoefs.[c]) n ∧
      ∀ c, 0 ≤ c < n → group_final (S_ c) ncoefs.[c] (Block.exp_ b).[c]
                         (Block.grp_exp b').[c] (Block.nexpgrps b').[c]).
Proof.
  apply (wp_for_up (λ k '(b', bits), block_wf b' ∧ same_but_grp b b' ∧
      bits = bits0 + zsum (λ c, exp_bits_ch (S_ c) ncoefs.[c]) k ∧
      ∀ c, 0 ≤ c < k → group_final (S_ c) ncoefs.[c] (Block.exp_ b).[c]
                         (Block.grp_exp b').[c] (Block.nexpgrps b').[c])); [lia| | |done].
  - split; [done|]. split; [by destruct b|]. rewrite zsum_0. split; lia.
  - intros ch [b' bits] Hch (Hw & Hsame & Hbits & Hf).
    assert (Hes : Block.exp_strategy b' = Block.exp_strategy b) by (by rewrite Hsame).
    assert (Hex : Block.exp_ b' = Block.exp_ b) by (by rewrite Hsame).
    pose proof Hw as []. destruct wf_grp_exp as [Hgl Hg].
    wp_step. wp_step. rewrite Hes. specialize (Hstr ch ltac:(lia)).
    rewrite zsum_succ by lia. unfold exp_bits_ch at 2. wp_step.
    + assert (Hz : S_ ch = EXP_REUSE) by lia. wp_steps. split.
      { split; simpl; try done. by rewrite zlen_upd. }
      split; [by rewrite Hsame|]. split; [rewrite Hz; simpl; lia|].
      intros c Hc. simpl. rewrite at_upd by lia. destruct (Z.eqb_spec c ch) as [-> |].
      * split; [by intros []|done].
      * apply Hf. lia.
    + assert (Hnz : S_ ch ≠ EXP_REUSE) by lia. wp_step. wp_step. wp_step.
      eapply wp_mono.
      { apply (group_exponents_ch_spec b' ch (S_ ch) ncoefs.[ch]); [done|lia|unfold EXP_REUSE in *; lia|by apply Hnc| |];
          rewrite Hex; [by apply Hrepr|by apply Hpos]. }
      intros [b2 bits2] (-> & g & -> & Hgz & Hgo). apply wp_ret. split.
      { split; simpl; try done; [by rewrite zlen_upd|apply dim2_upd; [by split|lia|done]]. }
      split; [by rewrite Hsame|].
      split; [rewrite (proj2 (Z.eqb_neq (S_ ch) EXP_REUSE) Hnz); lia|].
      intros c Hc. simpl. rewrite !at_upd by lia. destruct (Z.eqb_spec c ch) as [-> |].
      * rewrite Hex in Hgo. by split.
      * apply Hf. lia.
Qed.
End group_block.

Lemma wp_with_block_len {X} frame k (f : Block.t → X → option (Block.t * X)) x (Q : Frame.t * X → Prop) :
  zlen (Frame.blocks frame) = 6 → 0 ≤ k < 6 →
  wp (f (Frame.blocks frame).[k] x)
     (λ '(b, x), Q (frame <| Frame.blocks := upd (Frame.blocks frame) k b |>, x)) →
  wp (with_block frame k f x) Q.
Proof.
  intros Hl Hk Hf. unfold with_block. wp_step. wp_step. wp_step.
  eapply wp_mono; [exact Hf|]. intros [b x'] HQ. by wp_steps.
Qed.

Lemma wp_with_block {X} frame k (f : Block.t → X → option (Block.t * X)) x (Q : Frame.t * X → Prop) :
  blocks_wf (Frame.blocks frame) → 0 ≤ k < 6 →
  wp (f (Frame.blocks frame).[k] x)
     (λ '(b, x), Q (frame <| Frame.blocks := upd (Frame.blocks frame) k b |>, x)) →
  wp (with_block frame k f x) Q.
Proof. intros [Hl _]. by apply wp_with_block_len. Qed.

Lemma group_exponents_spec ctx frame :
  let n := Ctx.n_all_channels ctx in
  exps_ready n (Frame.ncoefs frame) (Frame.blocks frame) →
  exps_representable n (Frame.ncoefs frame) (Frame.blocks frame) →
  wp (group_exponents ctx frame) (λ frame', ∃ blocks,
    frame' = frame <| Frame.blocks := blocks |>
      <| Frame.exp_bits := exp_bits_frame n (Frame.ncoefs frame) (Frame.blocks frame) |> ∧
    blocks_wf blocks ∧
    (∀ k, 0 ≤ k < 6 → same_but_grp (Frame.blocks frame).[k] blocks.[k]) ∧
    ∀ k c, 0 ≤ k < 6 → 0 ≤ c < n →
      group_final (bstr (Frame.blocks frame) k c) (Frame.ncoefs frame).[c] (bexp (Frame.blocks frame) k c)
        (Block.grp_exp blocks.[k]).[c] (Block.nexpgrps blocks.[k]).[c]).
Proof.
  intros n [Hn Hwf Hnl Hnc Hstr Hstr0 Hu8] Hrepr. unfold group_exponents. fold n.
  set (b0 := Frame.blocks frame) in *. apply wp_bind.
  apply (wp_for_up (λ k '(f, bits), ∃ blocks, f = frame <| Frame.blocks := blocks |> ∧ blocks_wf blocks ∧
    bits = zsum (λ k, zsum (λ c, exp_bits_ch (bstr b0 k c) (Frame.ncoefs frame).[c]) n) k ∧
    (∀ j, k ≤ j < 6 → blocks.[j] = b0.[j]) ∧
    (∀ j, 0 ≤ j < k → same_but_grp b0.[j] blocks.[j]) ∧
    ∀ j c, 0 ≤ j < k → 0 ≤ c < n →
      group_final (bstr b0 j c) (Frame.ncoefs frame).[c] (bexp b0 j c)
        (Block.grp_exp blocks.[j]).[c] (Block.nexpgrps blocks.[j]).[c])).
  - unfold A52_NUM_BLOCKS. lia.
  - exists b0. split; [by destruct frame|]. split; [done|]. split; [done|]. split; [done|].
    split; intros; lia.
  - unfold A52_NUM_BLOCKS. intros k [f bits] Hk (blocks & -> & Hw & Hbits & Hlater & Hsame & Hf).
    pose proof Hw as [Hl Hb]. apply wp_with_block; [done|done|]. simpl. rewrite (Hlater k) by lia.
    eapply wp_mono.
    { apply (group_block_spec b0.[k] n (Frame.ncoefs frame)); try done.
      - apply Hwf. lia.
      - intros c Hc. by apply (Hstr k c); [lia|].
      - intros c Hc. by apply (Hrepr k c); [lia|].
      - intros c Hc. apply (Hu8 k c 0); lia. }
    intros [b' bits'] (Hwb & Hsb & -> & Hfb). exists (upd blocks k b'). split; [done|].
    split; [by apply blocks_wf_upd|]. split; [by rewrite zsum_succ, <- Hbits by lia|].
    split; [|split].
    + intros j Hj. rewrite at_upd_ne by lia. apply Hlater. lia.
    + intros j Hj. rewrite at_upd by lia. destruct (Z.eqb_spec j k) as [-> |]; [done|]. apply Hsame. lia.
    + intros j c Hj Hc. rewrite at_upd by lia. destruct (Z.eqb_spec j k) as [-> |]; [by apply Hfb|].
      apply Hf; lia.
  - intros [f bits] (blocks & -> & Hw & -> & _ & Hsame & Hf). apply wp_ret. by exists blocks.
Qed.

(** * Strategy decision *)

Definition rows_u8 (n m : Z) (l : list (list Z)) : Prop :=
  dim2 n m l ∧ ∀ i j, 0 ≤ i < n → 0 ≤ j < m → 0 ≤ l.[i].[j] < 256.

Lemma rows_u8_upd n m l i r :
  rows_u8 n m l → 0 ≤ i < n → zlen r = m → (∀ j, 0 ≤ j < m → 0 ≤ r.[j] < 256) → rows_u8 n m (upd l i r).
Proof.
  intros [Hd Hr] Hi Hm Hu. split; [by apply dim2_upd|]. intros k j Hk Hj.
  rewrite at_upd by (destruct Hd; lia). destruct (Z.eqb_spec k i); [by apply Hu|by apply Hr].
Qed.

Lemma encode_exp_u8 e nc s :
  1 ≤ s ≤ 3 → ncoefs_ok nc → zlen e = 256 → (∀ t, 0 ≤ t < 256 → 0 ≤ e.[t] < 256) →
  wp (encode_exp_blk_ch e nc s) (λ e', zlen e' = 256 ∧ ∀ t, 0 ≤ t < 256 → 0 ≤ e'.[t] < 256).
Proof.
  intros Hs Hnc Hl Hu. pose proof (ncoefs_ok_range nc Hnc).
  pose proof (nexpgrp_covers s nc Hs Hnc) as [H1 _].
  eapply wp_mono; [apply encode_exp_blk_ch_spec; done || lia|].
  intros out [Ho Hrest _ Hbelow _]. split; [lia|]. intros t Ht.
  destruct (Z.leb_spec t (grpsize s * (nexpgrp s nc * 3))).
  - pose proof (Hbelow t ltac:(lia)). pose proof (Hu t Ht). lia.
  - rewrite Hrest by lia. by apply Hu.
Qed.

Lemma exponent_min_u8 t a b n :
  0 ≤ n ≤ 256 → zlen t = 256 → zlen a = 256 → zlen b = 256 →
  (∀ i, 0 ≤ i < 256 → 0 ≤ t.[i] < 256) → (∀ i, 0 ≤ i < 256 → 0 ≤ a.[i] < 256) →
  (∀ i, 0 ≤ i < 256 → 0 ≤ b.[i] < 256) →
  wp (exponent_min t a b n) (λ t', zlen t' = 256 ∧ ∀ i, 0 ≤ i < 256 → 0 ≤ t'.[i] < 256).
Proof.
  intros Hn Ht Ha Hb Hut Hua Hub. eapply wp_mono; [apply exponent_min_spec; lia|].
  intros t' [Hl Hat]. split; [lia|]. intros i Hi. rewrite Hat by lia.
  specialize (Hut i Hi). specialize (Hua i Hi). specialize (Hub i Hi). destruct (i <? n); lia.
Qed.

Section strategy_search.
Context `{R : Residue} {ROk : ResidueOk R}.
Variables (exp_ : list (list Z)) (nc : Z).
Hypothesis Hexp : rows_u8 6 256 exp_.
Hypothesis Hnc : ncoefs_ok nc.

Lemma get_order s : 0 ≤ s < 32 →
  aget expstr_set_search_order_tab s = Some expstr_set_search_order_tab.[s] ∧
  0 ≤ expstr_set_search_order_tab.[s] < 32.
Proof.
  intros Hs. split; [apply aget_at; change (zlen expstr_set_search_order_tab) with 32; lia|].
  table_check (λ s, (0 <=? expstr_set_search_order_tab.[s]) && (expstr_set_search_order_tab.[s] <? 32)) 32 Hs. lia.
Qed.

Lemma order_inj s t :
  0 ≤ s < 32 → 0 ≤ t < 32 → expstr_set_search_order_tab.[s] = expstr_set_search_order_tab.[t] → s = t.
Proof.
  intros Hs Ht He. table_check (λ s, forallb (λ t, (s =? Z.of_nat t) ||
    negb (expstr_set_search_order_tab.[s] =? expstr_set_search_order_tab.[Z.of_nat t])) (seq 0 32)) 32 Hs.
  rewrite forallb_forall in Hs. specialize (Hs (Z.to_nat t) ltac:(apply in_seq; lia)).
  rewrite Z2Nat.id in Hs by lia. lia.
Qed.

(** ** What a strategy set costs

    A new exponent set starts a run: it is reused by the blocks behind it up to
    the next new one. *)
Definition in_run (tab : list Z) (i k : Z) : Prop := i ≤ k < 6 ∧ ∀ j, i < j ≤ k → tab.[j] = EXP_REUSE.

(** The block whose exponents block [k] uses. *)
Fixpoint run_start (tab : list Z) (k : nat) : Z :=
  match k with
  | O => 0
  | S k' => if tab.[Z.of_nat k] =? EXP_REUSE then run_start tab k' else Z.of_nat k
  end.

(** [m] is the least of the extracted exponents [t] of the blocks [i] to
    [j - 1]. *)
Definition least_of (i j t m : Z) : Prop :=
  (∀ k, i ≤ k < j → m ≤ exp_.[k].[t]) ∧ ∃ k, i ≤ k < j ∧ m = exp_.[k].[t].

(** What is encoded for the run of block [i]: for a run of two blocks or more
    the least exponents of its blocks.  For a run of one block nothing is
    written to the local array, so it is what an earlier set or the stack left
    there in [old]. *)
Definition run_source (tab : list Z) (old : list (list Z)) (i : Z) (e : list Z) : Prop :=
  zlen e = 256 ∧
  ((i + 1 < 6 ∧ tab.[i + 1] = EXP_REUSE ∧ ∃ j, i < j ≤ 6 ∧ (∀ k, in_run tab i k ↔ i ≤ k < j) ∧
      (∀ t, 0 ≤ t < nc → least_of i j t e.[t]) ∧ ∀ t, nc ≤ t < 256 → e.[t] = old.[i].[t]) ∨
   (¬ (i + 1 < 6 ∧ tab.[i + 1] = EXP_REUSE) ∧ e = old.[i])).

(** The local array after encoding with the set [tab]: for each run the
    greatest exponents below its source that its strategy can represent. *)
Record set_encoded (tab : list Z) (old new : list (list Z)) : Prop := {
  se_run : ∀ i, 0 ≤ i < 6 → tab.[i] ≠ EXP_REUSE →
    ∃ e, run_source tab old i e ∧ exp_encoded (grpsize tab.[i]) (nexpgrp tab.[i] nc * 3) e new.[i];
  se_kept : ∀ i, 0 ≤ i < 6 → tab.[i] = EXP_REUSE → new.[i] = old.[i]
}.

(** The sum of the squared differences to the extracted exponents. *)
Definition squared_error (tab : list Z) (new : list (list Z)) : Z :=
  zsum (λ k, zsum (λ t, (exp_.[k].[t] - new.[run_start tab (Z.to_nat k)].[t]) ^ 2) nc) 6.

Lemma run_start_range tab k : 0 ≤ run_start tab k ≤ Z.of_nat k.
Proof. induction k as [|k IH]; [done|]. cbn [run_start]. destruct (_ =? _); lia. Qed.

(** All blocks of a run use its first one. *)
Lemma run_start_in tab i k : 0 ≤ i → tab.[i] ≠ EXP_REUSE ∨ i = 0 → in_run tab i k → run_start tab (Z.to_nat k) = i.
Proof.
  intros Hi0 Hi [Hr Hre]. replace k with (i + (k - i)) in Hre |- * by lia. assert (Hd : 0 ≤ k - i) by lia.
  revert Hre. clear Hr. pattern (k - i). apply natlike_ind; [|clear k Hd|done].
  - intros _. rewrite Z.add_0_r. destruct (Z.to_nat i) as [|n] eqn:He; [simpl; lia|]. cbn [run_start].
    replace (Z.of_nat (S n)) with i by lia. destruct (Z.eqb_spec tab.[i] EXP_REUSE); [|done]. destruct Hi; [done|lia].
  - intros d Hd IH Hre. replace (Z.to_nat (i + Z.succ d)) with (S (Z.to_nat (i + d))) by lia. cbn [run_start].
    replace (Z.of_nat (S (Z.to_nat (i + d)))) with (i + Z.succ d) by lia. rewrite (Hre (i + Z.succ d)) by lia.
    change (EXP_REUSE =? EXP_REUSE) with true. cbv iota. apply IH. intros j Hj. apply Hre. lia.
Qed.

(** The blocks a run has not reached still point to their own exponents. *)
Definition sources_ok (tab : list Z) (i : Z) (src : list exp_ptr) : Prop :=
  zlen src = 6 ∧ (∀ k, 0 ≤ k < i → src.[k] = Local_ (run_start tab (Z.to_nat k))) ∧
  ∀ k, i ≤ k < 6 → src.[k] = Extracted k.

(** The encoded blocks before [i]. *)
Record encoded_to (tab : list Z) (old : list (list Z)) (i : Z) (new : list (list Z)) : Prop := {
  et_rows : rows_u8 6 256 new;
  et_run : ∀ k, 0 ≤ k < i → tab.[k] ≠ EXP_REUSE →
    ∃ e, run_source tab old k e ∧ exp_encoded (grpsize tab.[k]) (nexpgrp tab.[k] nc * 3) e new.[k];
  et_kept : ∀ k, 0 ≤ k < 6 → i ≤ k ∨ tab.[k] = EXP_REUSE → new.[k] = old.[k]
}.

Definition row_u8 (e : list Z) : Prop := zlen e = 256 ∧ ∀ t, 0 ≤ t < 256 → 0 ≤ e.[t] < 256.

Lemma rows_row n l i : rows_u8 n 256 l → 0 ≤ i < n → row_u8 l.[i].
Proof. intros [[_ Hd] Hu] Hi. split; [by apply Hd|]. intros; by apply Hu. Qed.

(** [cur] has the least exponents of the blocks [i] to [j - 1]. *)
Definition collected (old : list Z) (i j : Z) (cur : list Z) : Prop :=
  row_u8 cur ∧ (∀ t, 0 ≤ t < nc → least_of i j t cur.[t]) ∧ ∀ t, nc ≤ t < 256 → cur.[t] = old.[t].

Lemma collect_first old i :
  0 ≤ i < 5 → row_u8 old → wp (exponent_min old exp_.[i] exp_.[i + 1] nc) (collected old i (i + 2)).
Proof.
  intros Hi [Hl Hu]. pose proof (ncoefs_ok_range nc Hnc). destruct (rows_row _ _ i Hexp ltac:(lia)) as [Ha Hau].
  destruct (rows_row _ _ (i + 1) Hexp ltac:(lia)) as [Hb Hbu].
  eapply wp_mono; [apply exponent_min_spec; lia|]. intros cur [Hcl Hat]. split; [split; [lia|]|split].
  - intros t Ht. rewrite Hat by lia. specialize (Hu t Ht). specialize (Hau t Ht). specialize (Hbu t Ht). destruct (t <? nc); lia.
  - intros t Ht. rewrite Hat by lia. replace (t <? nc) with true by lia. split.
    + intros k Hk. assert (k = i ∨ k = i + 1) as [-> | ->] by lia; lia.
    + destruct (Z.min_spec exp_.[i].[t] exp_.[i + 1].[t]) as [[_ ->]|[_ ->]]; [exists i|exists (i + 1)]; (split; [lia|done]).
  - intros t Ht. rewrite Hat by lia. by replace (t <? nc) with false by lia.
Qed.

Lemma collect_next old i j cur :
  0 ≤ i < j → j < 6 → collected old i j cur → wp (exponent_min cur cur exp_.[j] nc) (collected old i (j + 1)).
Proof.
  intros Hi Hj ([Hl Hu] & Hleast & Hrest). pose proof (ncoefs_ok_range nc Hnc). destruct (rows_row _ _ j Hexp ltac:(lia)) as [Hb Hbu].
  eapply wp_mono; [apply exponent_min_spec; lia|]. intros cur' [Hcl Hat]. split; [split; [lia|]|split].
  - intros t Ht. rewrite Hat by lia. specialize (Hu t Ht). specialize (Hbu t Ht). destruct (t <? nc); lia.
  - intros t Ht. rewrite Hat by lia. replace (t <? nc) with true by lia. destruct (Hleast t Ht) as [Hle (k & Hk & He)]. split.
    + intros k' Hk'. destruct (Z.eq_dec k' j) as [-> |]; [lia|]. specialize (Hle k' ltac:(lia)). lia.
    + destruct (Z.min_spec cur.[t] exp_.[j].[t]) as [[_ ->]|[_ ->]]; [exists k|exists j]; (split; [lia|done]).
  - intros t Ht. rewrite Hat by lia. replace (t <? nc) with false by lia. by apply Hrest.
Qed.

(** The run of block [i] ends at [j]. *)
Lemma run_ends tab i j :
  0 ≤ i < j → j ≤ 6 → (∀ k, i < k < j → tab.[k] = EXP_REUSE) → (j < 6 → tab.[j] ≠ EXP_REUSE) → ∀ k, in_run tab i k ↔ i ≤ k < j.
Proof.
  intros Hi Hj Hre Hend k. split.
  - intros [Hk Hall]. split; [lia|]. destruct (Z.lt_ge_cases k j); [done|]. exfalso. apply (Hend ltac:(lia)), Hall. lia.
  - intros Hk. split; [lia|]. intros m Hm. apply Hre. lia.
Qed.

(** One run: the array and the pointers after it. *)
Lemma encoded_run tab old i j ex e cur :
  0 ≤ i < j → j ≤ 6 → tab.[i] ≠ EXP_REUSE → 1 ≤ tab.[i] ≤ 3 → encoded_to tab old i ex →
  (∀ k, in_run tab i k ↔ i ≤ k < j) → run_source tab old i cur → row_u8 cur →
  exp_encoded (grpsize tab.[i]) (nexpgrp tab.[i] nc * 3) cur e → encoded_to tab old j (upd ex i e).
Proof.
  intros Hi Hj Hne Hs [Hrows Hrun Hkept] Hends Hsrc [Hcl Hcu] He. pose proof Hrows as [[Hel _] _].
  assert (Heu : row_u8 e).
  { destruct He as [Hl Hrest _ Hbelow _]. split; [lia|]. intros t Ht.
    destruct (Z.leb_spec t (grpsize tab.[i] * (nexpgrp tab.[i] nc * 3))) as [Hle|Hgt].
    - pose proof (Hbelow t ltac:(lia)). pose proof (Hcu t Ht). lia.
    - rewrite Hrest by lia. by apply Hcu. }
  split.
  - apply rows_u8_upd; [done|lia|apply Heu|apply Heu].
  - intros k Hk Hkn. rewrite at_upd by lia. destruct (Z.eqb_spec k i) as [-> |Hki]; [by exists cur|].
    destruct (Z.lt_ge_cases k i); [apply Hrun; [lia|done]|]. exfalso. apply Hkn. apply (Hends k); lia.
  - intros k Hk Hor. rewrite at_upd_ne; [|lia..|].
    + apply Hkept; [done|]. destruct Hor; [left; lia|by right].
    + intros ->. destruct Hor; [lia|done].
Qed.

Lemma encode_strategy_set_spec s exponents :
  0 ≤ s < 32 → rows_u8 6 256 exponents →
  wp (encode_strategy_set exp_ nc a52_expstr_set_tab.[s] exponents)
     (λ '(exponents', src), rows_u8 6 256 exponents' ∧ set_encoded a52_expstr_set_tab.[s] exponents exponents' ∧
        sources_ok a52_expstr_set_tab.[s] 6 src).
Proof.
  intros Hs Hex. pose proof (ncoefs_ok_range nc Hnc) as Hr.
  destruct (expstr_set_tab_ok s Hs) as (Htl & Ht0 & Htr). set (tab := a52_expstr_set_tab.[s]) in *.
  unfold encode_strategy_set, A52_NUM_BLOCKS. cbv zeta. apply wp_bind.
  apply (wp_while (λ '(i, ex, src), 0 ≤ i ≤ 6 ∧ (i < 6 → tab.[i] ≠ EXP_REUSE) ∧ encoded_to tab exponents i ex ∧ sources_ok tab i src)
                  (λ '(i, _, _), Z.to_nat (6 - i))).
  - split; [lia|]. split; [done|]. split; [split; [done|lia|done]|]. split; [done|]. split; [lia|]. intros k Hk.
    assert (Hk' : k = 0 ∨ k = 1 ∨ k = 2 ∨ k = 3 ∨ k = 4 ∨ k = 5) by lia.
    by destruct Hk' as [-> |[-> |[-> |[-> |[-> | ->]]]]].
  - lia.
  - intros [[i ex] src] (Hi & Hti & Hto & (Hsl & Hloc & Hown)) Hlt. simpl in Hlt. pose proof (et_rows _ _ _ _ Hto) as Hrows.
    assert (Hreuse : ∀ j (Q : bool → Prop), i < j ≤ 6 →
      (∀ b : bool, (b = true → j < 6 ∧ tab.[j] = EXP_REUSE) → (b = false → j < 6 → tab.[j] ≠ EXP_REUSE) → Q b) →
      wp (if j <? 6 then es ← aget tab j; Some (es =? EXP_REUSE) else Some false) Q).
    { intros j Q Hj HQ. wp_step; wp_steps; apply HQ; intros; split || idtac; lia. }
    assert (Hsrc : ∀ j Q, i ≤ j < 6 → Q exp_.[j] → wp (p ← aget src j; deref exp_ ex p) Q).
    { intros j Q Hj HQ. wp_step. wp_step. rewrite Hown by lia. simpl. destruct Hexp as [[Hel _] _].
      apply wp_aget; [lia|done]. }
    pose proof (rows_row _ _ i Hrows ltac:(lia)) as Hcur. assert (Hold : ex.[i] = exponents.[i]) by (apply (et_kept _ _ _ _ Hto); lia).
    pose proof Hrows as [[Hel Hdr] _]. wp_step. wp_step. rewrite Hold in *.
    wp_step. apply Hreuse; [lia|]. intros r Hr1 Hr0. wp_step.
    (* the first minimum *)
    apply (wp_mono _ (λ '(j, cur), j = (if r then i + 2 else i + 1) ∧
      if r then collected exponents.[i] i j cur else cur = exponents.[i])).
    { destruct r.
      - destruct (Hr1 eq_refl) as [H6 _]. wp_step. apply Hsrc; [lia|]. wp_step. apply Hsrc; [lia|]. wp_step.
        eapply wp_mono; [apply collect_first; [lia|done]|]. intros cur Hc. by apply wp_ret.
      - by apply wp_ret. }
    intros [j1 cur1] (Hj1 & Hcur1). wp_step.
    (* the others *)
    apply (wp_mono _ (λ '(j, cur), i < j ≤ 6 ∧ (j < 6 → tab.[j] ≠ EXP_REUSE) ∧ (∀ k, i < k < j → tab.[k] = EXP_REUSE) ∧
      if r then collected exponents.[i] i j cur else cur = exponents.[i] ∧ j = i + 1)).
    { apply (wp_for_break (λ j '(j', cur), j' = j ∧ (∀ k, i < k < j → tab.[k] = EXP_REUSE) ∧
        if r then collected exponents.[i] i j cur else cur = exponents.[i] ∧ j = i + 1)).
      - destruct r; [destruct (Hr1 eq_refl)|]; lia.
      - split; [done|]. subst j1. destruct r; [|split; [lia|done]]. split; [|done]. intros k Hk. assert (k = i + 1) as -> by lia. by apply Hr1.
      - intros j [j' cur] Hj (-> & Hre & Hc). wp_step. apply Hreuse; [subst j1; destruct r; lia|]. intros b Hb1 Hb0.
        destruct b.
        + wp_step. apply Hsrc; [subst j1; destruct r; lia|]. destruct (Hb1 eq_refl) as [_ Hbt]. destruct r.
          * wp_step. eapply wp_mono; [apply (collect_next exponents.[i] i j); [lia|lia|done]|]. intros cur' Hc'. apply wp_ret.
            split; [done|]. split; [|done]. intros k Hk. destruct (Z.eq_dec k j) as [-> |]; [done|]. apply Hre. lia.
          * destruct Hc as [_ Hji]. exfalso. rewrite Hji in *. apply (Hr0 eq_refl); [lia|done].
        + apply wp_ret. split; [subst j1; destruct r; lia|]. split; [by apply Hb0|done].
      - intros [j' cur] (-> & Hre & Hc). split; [lia|]. split; [lia|done]. }
    intros [j cur] (Hj & Hnext & Hre & Hcc). pose proof (run_ends tab i j ltac:(lia) ltac:(lia) Hre Hnext) as Hends.
    assert (Hsource : run_source tab exponents i cur ∧ row_u8 cur).
    { destruct r.
      - destruct (Hr1 eq_refl) as [H6 Ht1]. destruct Hcc as (Hu & Hle & Hrest). split; [|done]. split; [apply Hu|]. left.
        split; [done|]. split; [done|]. by exists j.
      - destruct Hcc as [-> _]. split; [|done]. split; [apply Hcur|]. right. split; [|done]. intros [H6 Ht1]. by apply (Hr0 eq_refl). }
    destruct Hsource as [Hsource Hcu].
    assert (Hsi : 1 ≤ tab.[i] ≤ 3).
    { specialize (Htr i ltac:(lia)). specialize (Hti ltac:(lia)). unfold EXP_REUSE in *. lia. }
    pose proof (nexpgrp_covers tab.[i] nc Hsi Hnc) as [H1 _].
    do 3 wp_step. eapply wp_mono; [apply (encode_exp_blk_ch_spec cur nc tab.[i] Hsi); [lia|done|apply Hcu|apply Hcu]|].
    intros e He. wp_step. wp_step. wp_step.
    apply (wp_for_up (λ m src', zlen src' = 6 ∧ ∀ k, 0 ≤ k < 6 →
      src'.[k] = if (i <=? k) && (k <? m) then Local_ i else src.[k])).
    + lia.
    + split; [done|]. intros k Hk. by replace ((i <=? k) && (k <? i)) with false by lia.
    + intros m src' Hm [Hl' Hs']. wp_steps. rewrite zlen_upd. split; [done|]. intros k Hk.
      rewrite at_upd by lia. destruct (Z.eqb_spec k m) as [-> |].
      * by replace ((i <=? m) && (m <? m + 1)) with true by lia.
      * rewrite Hs' by lia. by replace (k <? m + 1) with (k <? m) by lia.
    + intros src' [Hl' Hs']. apply wp_ret. split; [|lia]. split; [lia|]. split; [done|]. split.
      * apply (encoded_run tab exponents i j ex e cur); [lia|lia|apply Hti; lia|done..].
      * split; [done|]. split.
        -- intros k Hk. rewrite Hs' by lia. destruct (Z.leb_spec i k).
           ++ replace (k <? j) with true by lia. simpl. by rewrite (run_start_in tab i k); [|lia|left; apply Hti; lia|apply Hends; lia].
           ++ simpl. apply Hloc. lia.
        -- intros k Hk. rewrite Hs' by lia. replace (k <? j) with false by lia. rewrite andb_false_r.
           apply Hown. lia.
  - intros [[i ex] src] (Hi & _ & [Hrows Hrun Hkept] & Hsrc) Hge. simpl in Hge. apply wp_ret. assert (i = 6) as -> by lia.
    split; [done|]. split; [|done]. split; [done|]. intros k Hk Hre. apply Hkept; [done|by right].
Qed.

Lemma strategy_error_spec tab exponents src :
  rows_u8 6 256 exponents → sources_ok tab 6 src →
  wp (strategy_error exp_ exponents src nc) (λ e, e = squared_error tab exponents).
Proof.
  intros Hrows (Hsl & Hloc & _). pose proof (ncoefs_ok_range nc Hnc). pose proof Hrows as [[Hel _] _].
  pose proof Hexp as [[Hxl _] _]. unfold strategy_error, A52_NUM_BLOCKS, squared_error.
  apply (wp_for_up (λ k e, e = zsum (λ k, zsum (λ t, (exp_.[k].[t] - exponents.[run_start tab (Z.to_nat k)].[t]) ^ 2) nc) k)); [lia|done| |done].
  intros k e Hk ->. wp_step. wp_step. wp_step. wp_step. rewrite (Hloc k) by lia. pose proof (run_start_range tab (Z.to_nat k)).
  set (j := run_start tab (Z.to_nat k)) in *. simpl deref. wp_step. apply wp_aget; [lia|].
  destruct (rows_row _ _ k Hexp ltac:(lia)) as [Hlk _]. destruct (rows_row _ _ j Hrows ltac:(lia)) as [Hlj _].
  wp_step. unfold exponent_sum_square_error. rewrite bool_decide_eq_false_2 by done.
  apply (wp_for_up (λ m e, e = zsum (λ t, (exp_.[k].[t] - exponents.[j].[t]) ^ 2) m)); [lia|done| |].
  - intros t e Ht ->. wp_steps. rewrite zsum_succ by lia. lia.
  - intros e ->. apply wp_ret. rewrite zsum_succ by lia. done.
Qed.

(** The search as a relation: after [s] sets, the contents of the local array
    and the errors, in search order. *)
Inductive searched : Z → list (list Z) → list (Z * Z) → Prop :=
  | searched_start : searched 0 stack_exponents []
  | searched_step s str exponents exponents' l :
      searched s exponents l →
      str = expstr_set_search_order_tab.[s] →
      set_encoded a52_expstr_set_tab.[str] exponents exponents' →
      searched (s + 1) exponents' (l ++ [(str, squared_error a52_expstr_set_tab.[str] exponents')]).

(** [m] has the least error of the sets searched. *)
Definition argmin (m : Z) (l : list (Z * Z)) : Prop :=
  ∃ e, (m, e) ∈ l ∧ ∀ s' e', (s', e') ∈ l → e ≤ e'.

Definition search_inv (s : Z) '((min_error, exp_error, exponents) : Z * list (option Z) * list (list Z)) : Prop :=
  rows_u8 6 256 exponents ∧ zlen exp_error = 32 ∧ 0 ≤ min_error < 32 ∧
  ∃ l, searched s exponents l ∧
    (∀ str e, (str, e) ∈ l → (∃ t, 0 ≤ t < s ∧ str = expstr_set_search_order_tab.[t]) ∧
                             exp_error.[str] = Some e) ∧
    (s = 0 → min_error = expstr_set_search_order_tab.[0]) ∧ (0 < s → argmin min_error l).

Lemma compute_expstr_ch_spec search_size :
  1 ≤ search_size ≤ 32 →
  wp (compute_expstr_ch exp_ nc search_size) (λ str, 0 ≤ str < 32 ∧
    ∃ exponents l, searched search_size exponents l ∧ argmin str l).
Proof.
  intros Hss. unfold compute_expstr_ch. destruct (get_order 0 ltac:(lia)) as (-> & Hr0). simpl mbind.
  apply wp_bind. apply (wp_for_up search_inv).
  - lia.
  - split; [|split; [done|split; [done|]]].
    + split; [split; [apply stack_exponents_len|apply stack_exponents_row]|apply stack_exponents_u8].
    + exists []. split; [constructor|]. split; [|split; [done|lia]]. intros str e Hin. by apply elem_of_nil in Hin.
  - intros s [[m errs] ex] Hs (Hrows & Hel & Hm & l & Hl & Hin & Hm0 & Hmin).
    destruct (get_order s ltac:(lia)) as (Hget & Hrs). rewrite Hget. simpl mbind.
    set (str := expstr_set_search_order_tab.[s]) in *.
    wp_step. wp_step. wp_step.
    pose proof (encode_strategy_set_spec str ex Hrs Hrows) as Henc. apply wp_some in Henc as ([ex' src] & Henc & Hrows' & Hset & Hsrc).
    rewrite Henc. simpl.
    pose proof (strategy_error_spec _ ex' src Hrows' Hsrc) as Herr. apply wp_some in Herr as (err & Herr & Hval).
    wp_step. rewrite Herr. apply wp_ret. cbv beta. wp_step. wp_step. wp_step. wp_step.
    assert (Hnew : ∀ e, (str, e) ∉ l).
    { intros e Hel'. destruct (Hin _ _ Hel') as [(t & Ht & Heq) _]. apply order_inj in Heq; lia. }
    rewrite at_upd by lia.
    assert (Hmval : (m =? str) = false → ∃ e, errs.[m] = Some e ∧ (m, e) ∈ l ∧ ∀ s' e', (s', e') ∈ l → e ≤ e').
    { intros Hne. destruct (Z.eq_dec s 0) as [-> |]; [rewrite Hm0 in Hne by done; unfold str in Hne; lia|].
      destruct (Hmin ltac:(lia)) as (e & He & Hall). exists e. split; [by apply Hin|done]. }
    (* the invariant for the next set, whichever is kept *)
    assert (Hnext : ∀ m', argmin m' (l ++ [(str, err)]) → 0 ≤ m' < 32 →
      search_inv (s + 1) (m', upd errs str (Some err), ex')).
    { intros m' Ham Hm'. split; [done|]. split; [by rewrite zlen_upd|]. split; [done|].
      exists (l ++ [(str, err)]). split; [rewrite Hval; by eapply searched_step|]. split; [|split; [lia|done]].
      intros str' e' [Hel'|Hel']%elem_of_app.
      - destruct (Hin _ _ Hel') as [(t & Ht & Heq) He']. split; [exists t; split; [lia|done]|].
        rewrite at_upd_ne; [done|lia|pose proof (get_order t ltac:(lia)); lia|]. intros ->. by apply (Hnew e').
      - apply list_elem_of_singleton in Hel'. injection Hel' as -> ->.
        split; [exists s; split; [lia|done]|]. by rewrite at_upd_eq by lia. }
    destruct (Z.eqb_spec m str) as [-> |Hne].
    + simpl mbind. apply wp_ret. rewrite Z.ltb_irrefl. apply Hnext; [|done].
      destruct (Z.eq_dec s 0) as [-> |].
      * assert (l = []) as ->.
        { destruct l as [|[s1 e1] l]; [done|]. destruct (Hin s1 e1 ltac:(by left)) as [(t & ? & _) _]. lia. }
        exists err. split; [by left|].
        intros s' e' Hel'. apply list_elem_of_singleton in Hel'. injection Hel' as -> ->. lia.
      * destruct (Hmin ltac:(lia)) as (e & He & _). by destruct (Hnew e).
    + destruct (Hmval ltac:(lia)) as (e & -> & He & Hall). simpl mbind. apply wp_ret.
      destruct (Z.ltb_spec err e); (apply Hnext; [|done]).
      * exists err. split; [apply elem_of_app; right; by left|]. intros s' e' [Hel'|Hel']%elem_of_app.
        -- pose proof (Hall _ _ Hel'). lia.
        -- apply list_elem_of_singleton in Hel'. injection Hel' as -> ->. lia.
      * exists e. split; [apply elem_of_app; by left|]. intros s' e' [Hel'|Hel']%elem_of_app; [by eapply Hall|].
        apply list_elem_of_singleton in Hel'. by injection Hel' as -> ->.
  - intros [[m errs] ex] (_ & _ & Hm & l & Hl & _ & _ & Hmin). apply wp_ret. split; [done|].
    exists ex, l. split; [done|]. apply Hmin. lia.
Qed.
End strategy_search.


(** ** The frame's strategies *)

(** Blocks that differ in their strategies only. *)
Definition same_but_strategy (b0 b1 : list Block.t) : Prop :=
  ∀ k, 0 ≤ k < 6 → b1.[k] = b0.[k] <| Block.exp_strategy := Block.exp_strategy b1.[k] |>.

Lemma set_strategies_spec blocks ch (es : Z → option Z) (f : Z → Z) :
  blocks_wf blocks → 0 ≤ ch < 6 → (∀ k, 0 ≤ k < 6 → es k = Some (f k)) →
  wp (for_up 0 A52_NUM_BLOCKS (λ blk blocks,
      e ← es blk;
      b ← aget blocks blk;
      s ← aset (Block.exp_strategy b) ch e;
      aset blocks blk (b <| Block.exp_strategy := s |>)) blocks)
    (λ blocks', blocks_wf blocks' ∧ same_but_strategy blocks blocks' ∧
      ∀ k c, 0 ≤ k < 6 → 0 ≤ c → bstr blocks' k c = if c =? ch then f k else bstr blocks k c).
Proof.
  intros Hw Hch Hes. unfold A52_NUM_BLOCKS.
  apply (wp_for_up (λ j blocks', blocks_wf blocks' ∧ same_but_strategy blocks blocks' ∧
    ∀ k c, 0 ≤ k < 6 → 0 ≤ c → bstr blocks' k c = if (c =? ch) && (k <? j) then f k else bstr blocks k c)).
  - lia.
  - split; [done|]. split; [by intros k _; destruct blocks.[k]|]. intros k c Hk Hc.
    replace (k <? 0) with false by lia. by rewrite andb_false_r.
  - intros j b Hj (Hwb & Hs & Hb). pose proof Hwb as [Hl Hbw]. pose proof (wf_exp_strategy _ (Hbw j Hj)).
    rewrite (Hes j Hj). wp_steps. split; [|split].
    + apply blocks_wf_upd; [done|done|]. destruct (Hbw j Hj). split; simpl; try done. by rewrite zlen_upd.
    + intros k Hk. rewrite at_upd by lia. destruct (Z.eqb_spec k j) as [-> |]; [|by apply Hs].
      simpl. exact (f_equal (λ b', b' <| Block.exp_strategy := upd (Block.exp_strategy b.[j]) ch (f j) |>) (Hs j Hj)).
    + intros k c Hk Hc. unfold bstr. rewrite at_upd by lia. destruct (Z.eqb_spec k j) as [-> |].
      * simpl. rewrite at_upd by lia. replace (j <? j + 1) with true by lia.
        destruct (Z.eqb_spec c ch) as [-> |]; simpl; [done|]. fold (bstr b j c). rewrite Hb by done.
        by replace (c =? ch) with false by lia.
      * fold (bstr b k c). rewrite Hb by done. by replace (k <? j + 1) with (k <? j) by lia.
  - intros b (Hwb & Hs & Hb). split; [done|]. split; [done|]. intros k c Hk Hc. rewrite Hb by done.
    replace (k <? 6) with true by lia. by rewrite andb_true_r.
Qed.

Lemma same_but_strategy_exp b0 b1 k c : same_but_strategy b0 b1 → 0 ≤ k < 6 → bexp b1 k c = bexp b0 k c.
Proof. intros Hs Hk. unfold bexp. by rewrite (Hs k Hk). Qed.

Lemma same_but_strategy_trans b0 b1 b2 :
  same_but_strategy b0 b1 → same_but_strategy b1 b2 → same_but_strategy b0 b2.
Proof. intros H1 H2 k Hk. rewrite (H2 k Hk). pose proof (H1 k Hk) as E. rewrite E. done. Qed.

Lemma mapM_aget_exp blocks ch :
  blocks_wf blocks → 0 ≤ ch < 6 →
  mapM (λ b, aget (Block.exp_ b) ch) blocks = Some (map (λ k, bexp blocks (Z.of_nat k) ch) (seq 0 6)).
Proof.
  intros [Hl Hb] Hch.
  destruct blocks as [|b0 [|b1 [|b2 [|b3 [|b4 [|b5 [|b6 l]]]]]]]; unfold zlen in Hl; simpl in Hl; try lia.
  assert (Hg : ∀ b, block_wf b → aget (Block.exp_ b) ch = Some (Block.exp_ b).[ch]).
  { intros b Hw. destruct (wf_exp _ Hw). apply aget_at. lia. }
  pose proof (Hb 0 ltac:(lia)). pose proof (Hb 1 ltac:(lia)). pose proof (Hb 2 ltac:(lia)).
  pose proof (Hb 3 ltac:(lia)). pose proof (Hb 4 ltac:(lia)). pose proof (Hb 5 ltac:(lia)).
  simpl. by rewrite !Hg by done.
Qed.


(** What strategy decision is given. *)
Record strategy_ready (ctx : Ctx.t) (ncoefs expstr_set : list Z) (blocks : list Block.t) : Prop := {
  sr_channels : channels_ok ctx;
  sr_wf : blocks_wf blocks;
  sr_nlen : zlen ncoefs = 6;
  sr_setlen : zlen expstr_set = 6;
  sr_ncoefs : ∀ c, 0 ≤ c < Ctx.n_all_channels ctx → ncoefs_ok ncoefs.[c];
  sr_search : EncParams.expstr_search (Ctx.params ctx) ≤ 32;
  sr_u8 : ∀ k c t, 0 ≤ k < 6 → 0 ≤ c < Ctx.n_all_channels ctx → 0 ≤ t < 256 →
          0 ≤ (bexp blocks k c).[t] < 256
}.

(** The strategy set of a full-bandwidth channel: the first one, or the one
    with the least error among those searched. *)
Definition chosen_set `{Residue} (search_size : Z) (exp_ : list (list Z)) (nc str : Z) : Prop :=
  0 ≤ str < 32 ∧
  if search_size >? 1 then ∃ exponents l, searched exp_ nc search_size exponents l ∧ argmin str l
  else str = expstr_set_search_order_tab.[0].

Definition exp_rows (blocks : list Block.t) (c : Z) : list (list Z) :=
  map (λ k, bexp blocks (Z.of_nat k) c) (seq 0 6).

Lemma exp_rows_u8 blocks c :
  blocks_wf blocks → 0 ≤ c < 6 →
  (∀ k t, 0 ≤ k < 6 → 0 ≤ t < 256 → 0 ≤ (bexp blocks k c).[t] < 256) → rows_u8 6 256 (exp_rows blocks c).
Proof.
  intros Hw Hc Hu.
  assert (Hat : ∀ k, 0 ≤ k < 6 → (exp_rows blocks c).[k] = bexp blocks k c).
  { intros k Hk. assert (k = 0 ∨ k = 1 ∨ k = 2 ∨ k = 3 ∨ k = 4 ∨ k = 5) as Hk' by lia.
    by destruct Hk' as [-> |[-> |[-> |[-> |[-> | ->]]]]]. }
  split; [split; [done|]|].
  - intros k Hk. rewrite Hat by done. by apply bexp_len.
  - intros k t Hk Ht. rewrite Hat by done. by apply Hu.
Qed.

Lemma exp_rows_strategy b0 b c : same_but_strategy b0 b → exp_rows b c = exp_rows b0 c.
Proof.
  intros Hs. apply map_ext_in. intros k Hk%in_seq. apply (same_but_strategy_exp b0 b); [done|lia].
Qed.

Definition strategies_set `{Residue} (ctx : Ctx.t) (ncoefs : list Z) (blocks blocks' : list Block.t)
    (sets : list Z) (c : Z) : Prop :=
  chosen_set (EncParams.expstr_search (Ctx.params ctx)) (exp_rows blocks c) ncoefs.[c] sets.[c] ∧
  ∀ k, 0 ≤ k < 6 → bstr blocks' k c = a52_expstr_set_tab.[sets.[c]].[k].

Lemma compute_exponent_strategy_spec `{R : Residue} {ROk : ResidueOk R} ctx frame :
  strategy_ready ctx (Frame.ncoefs frame) (Frame.expstr_set frame) (Frame.blocks frame) →
  wp (compute_exponent_strategy ctx frame) (λ frame', ∃ blocks sets,
    frame' = frame <| Frame.blocks := blocks |> <| Frame.expstr_set := sets |> ∧
    blocks_wf blocks ∧ same_but_strategy (Frame.blocks frame) blocks ∧ zlen sets = 6 ∧
    (∀ c, 0 ≤ c < Ctx.n_channels ctx →
       strategies_set ctx (Frame.ncoefs frame) (Frame.blocks frame) blocks sets c) ∧
    (∀ c, Ctx.n_channels ctx ≤ c < 6 → sets.[c] = (Frame.expstr_set frame).[c]) ∧
    (Ctx.lfe ctx = 1 → ∀ k, 0 ≤ k < 6 →
       bstr blocks k (Ctx.n_channels ctx) = if k =? 0 then EXP_D15 else EXP_REUSE)).
Proof.
  intros [[Hn Hlfe Hall Hlc] Hwf Hnl Hsl Hnc Hss Hu8]. unfold compute_exponent_strategy.
  set (b0 := Frame.blocks frame) in *. set (n := Ctx.n_channels ctx) in *.
  apply wp_bind.
  apply (wp_for_up (λ ch f, ∃ blocks sets,
    f = frame <| Frame.blocks := blocks |> <| Frame.expstr_set := sets |> ∧
    blocks_wf blocks ∧ same_but_strategy b0 blocks ∧ zlen sets = 6 ∧
    (∀ c, 0 ≤ c < ch → strategies_set ctx (Frame.ncoefs frame) b0 blocks sets c) ∧
    (∀ c, ch ≤ c < 6 → sets.[c] = (Frame.expstr_set frame).[c]))).
  - lia.
  - exists b0, (Frame.expstr_set frame). split; [by destruct frame|]. split; [done|].
    split; [by intros k _; destruct b0.[k]|]. split; [done|]. split; [lia|done].
  - intros ch f Hch (b & sets & -> & Hw & Hs & Hl & Hdone & Htodo). simpl.
    wp_step.
    apply (wp_mono _ (chosen_set (EncParams.expstr_search (Ctx.params ctx)) (exp_rows b0 ch) (Frame.ncoefs frame).[ch])).
    { unfold chosen_set. destruct (_ >? 1) eqn:Hsearch; [|apply wp_ret; split; [|done]].
      - rewrite mapM_aget_exp by (done || lia). wp_step. wp_step. wp_step.
        fold (exp_rows b ch). rewrite (exp_rows_strategy b0 b) by done. wp_step.
        apply (compute_expstr_ch_spec (exp_rows b0 ch)).
        + apply exp_rows_u8; [done|lia|]. intros k t Hk Ht. by apply Hu8; lia.
        + apply Hnc. lia.
        + lia.
      - done. }
    intros str [Hr Hchosen].
    destruct (expstr_set_tab_ok str Hr) as (Htl & Ht0 & Htr).
    wp_step. eapply wp_mono.
    { apply (set_strategies_spec b ch _ (λ k, a52_expstr_set_tab.[str].[k])); [done|lia|].
      intros k Hk. unfold aget2. rewrite aget_at by (change (zlen a52_expstr_set_tab) with 32; lia).
      simpl mbind. apply aget_at. lia. }
    intros b' (Hw' & Hs' & Hb'). wp_steps.
    exists b', (upd sets ch str). split; [done|]. split; [done|].
    split; [by eapply same_but_strategy_trans|]. split; [by rewrite zlen_upd|]. split.
    + intros c Hc. unfold strategies_set. rewrite at_upd by lia.
      destruct (Z.eqb_spec c ch) as [-> |].
      * split; [by split|]. intros k Hk. rewrite Hb' by lia. by rewrite Z.eqb_refl.
      * destruct (Hdone c ltac:(lia)) as [Hc1 Hc2]. split; [done|]. intros k Hk. rewrite Hb' by lia.
        replace (c =? ch) with false by lia. by apply Hc2.
    + intros c Hc. rewrite at_upd_ne by lia. apply Htodo. lia.
  - intros f (b & sets & -> & Hw & Hs & Hl & Hdone & Htodo). simpl.
    destruct Hlfe as [H0|H1].
    + rewrite H0. simpl. apply wp_ret. exists b, sets. repeat (split; [done|]). lia.
    + rewrite H1. simpl negb. cbv iota. wp_step. rewrite Hlc, H1. simpl Z.eqb. cbv iota. fold n.
      eapply wp_mono.
      { apply (set_strategies_spec b n (λ k, Some (if k =? 0 then EXP_D15 else EXP_REUSE))
                 (λ k, if k =? 0 then EXP_D15 else EXP_REUSE)); [done|lia|done]. }
      intros b' (Hw' & Hs' & Hb'). apply wp_ret. exists b', sets. split; [done|]. split; [done|].
      split; [by eapply same_but_strategy_trans|]. split; [done|]. split; [|split].
      * intros c Hc. destruct (Hdone c Hc) as [Hc1 Hc2]. split; [done|]. intros k Hk.
        rewrite Hb' by lia. replace (c =? n) with false by lia. by apply Hc2.
      * done.
      * intros _ k Hk. rewrite Hb' by lia. by rewrite Z.eqb_refl.
Qed.


(** ** Extraction *)

Section extract_spec.
Context `{FloatFormat}.

(** The integer part of a coefficient scaled to 24 bits, as both extraction
    and quantisation take it, and the number of its leading zeros. *)
Definition scaled (coef : FLOAT) : Z := default 0 (F_trunc (F_mul coef two24)).
Definition exponent_of (z : Z) : Z := if z =? 0 then 24 else 23 - Z.log2 (Z.abs z).

(** A coefficient below 1 in absolute value. *)
Definition coef_ok (coef : FLOAT) : Prop :=
  F_trunc (F_mul coef two24) = Some (scaled coef) ∧ Z.abs (scaled coef) < 2 ^ 24.

Lemma exponent_of_bounds z :
  Z.abs z < 2 ^ 24 →
  0 ≤ exponent_of z ≤ 24 ∧ Z.abs z < 2 ^ (24 - exponent_of z) ∧
  (exponent_of z < 24 → 2 ^ (23 - exponent_of z) ≤ Z.abs z).
Proof.
  intros Hz. unfold exponent_of. destruct (Z.eqb_spec z 0) as [-> |Hne]; [simpl; lia|].
  assert (Hpos : 0 < Z.abs z) by lia. pose proof (Z.log2_spec _ Hpos) as Hl.
  pose proof (Z.log2_nonneg (Z.abs z)).
  assert (Z.log2 (Z.abs z) < 24) by (apply Z.log2_lt_pow2; lia).
  replace (24 - (23 - Z.log2 (Z.abs z))) with (Z.succ (Z.log2 (Z.abs z))) by lia.
  replace (23 - (23 - Z.log2 (Z.abs z))) with (Z.log2 (Z.abs z)) by lia. lia.
Qed.

Lemma extract_exponent_spec coef :
  coef_ok coef → extract_exponent coef = Some (exponent_of (scaled coef)).
Proof.
  intros [Ht Hb]. pose proof (exponent_of_bounds _ Hb) as [He _]. unfold extract_exponent, F_to_u32.
  rewrite (F_trunc_abs _ _ Ht). simpl mbind.
  replace ((0 <=? Z.abs (scaled coef)) && (Z.abs (scaled coef) <? 2 ^ 32)) with true by lia.
  simpl mbind. rewrite log2i_spec by lia. simpl mbind. f_equal. unfold exponent_of in *.
  destruct (Z.eqb_spec (scaled coef) 0) as [-> |]; [done|].
  replace (Z.abs (scaled coef) =? 0) with false by lia. apply u8_id. lia.
Qed.

Definition bcoef (blocks : list Block.t) (k ch : Z) : list FLOAT := (Block.mdct_coef blocks.[k]).[ch].

Definition extracted (blocks0 blocks : list Block.t) (k c : Z) : Prop :=
  ∀ t, 0 ≤ t < 256 → (bexp blocks k c).[t] = exponent_of (scaled (bcoef blocks0 k c).[t]).

Lemma extract_row_spec coefs e :
  zlen coefs = 256 → zlen e = 256 → (∀ t, 0 ≤ t < 256 → coef_ok coefs.[t]) →
  wp (for_up 0 128 (λ k e,
        let j := 2 * k in
        c1 ← aget coefs j; c2 ← aget coefs (j + 1);
        v1 ← extract_exponent c1;
        v2 ← extract_exponent c2;
        e ← aset e j v1;
        aset e (j + 1) v2) e)
    (λ e', zlen e' = 256 ∧ ∀ t, 0 ≤ t < 256 → e'.[t] = exponent_of (scaled coefs.[t])).
Proof.
  intros Hc He Hok.
  apply (wp_for_up (λ k e', zlen e' = 256 ∧ ∀ t, 0 ≤ t < 2 * k → e'.[t] = exponent_of (scaled coefs.[t]))).
  - lia.
  - split; [done|]. lia.
  - intros k e' Hk [Hl Hat]. do 5 wp_step. rewrite !extract_exponent_spec by (apply Hok; lia).
    simpl mbind. wp_steps. rewrite !zlen_upd. split; [done|]. intros t Ht.
    rewrite !at_upd by (rewrite ?zlen_upd; lia).
    destruct (Z.eqb_spec t (2 * k + 1)) as [-> |]; [done|].
    destruct (Z.eqb_spec t (2 * k)) as [-> |]; [done|]. apply Hat. lia.
  - intros e' [Hl Hat]. split; [done|]. intros t Ht. apply Hat. lia.
Qed.

Lemma extract_exponents_spec ctx frame :
  let n := Ctx.n_all_channels ctx in let b0 := Frame.blocks frame in
  0 ≤ n ≤ 6 → blocks_wf b0 →
  (∀ k c t, 0 ≤ k < 6 → 0 ≤ c < n → 0 ≤ t < 256 → coef_ok (bcoef b0 k c).[t]) →
  wp (extract_exponents ctx frame) (λ frame', ∃ blocks,
    frame' = frame <| Frame.blocks := blocks |> ∧ blocks_wf blocks ∧ same_but_exp b0 blocks ∧
    ∀ k c, 0 ≤ k < 6 → 0 ≤ c < n → extracted b0 blocks k c).
Proof.
  intros n b0 Hn Hw0 Hok. unfold extract_exponents. fold n b0. apply wp_bind.
  apply (wp_for_up (λ ch b, blocks_wf b ∧ same_but_exp b0 b ∧
    ∀ k c, 0 ≤ k < 6 → 0 ≤ c < ch → extracted b0 b k c)).
  - lia.
  - split; [done|]. split; [apply same_but_exp_refl|]. lia.
  - intros ch b Hch (Hw & Hs & Hdone).
    apply (wp_for_up (λ j b, blocks_wf b ∧ same_but_exp b0 b ∧
      ∀ k c, 0 ≤ k < 6 → 0 ≤ c < ch ∨ c = ch ∧ k < j → extracted b0 b k c)).
    + unfold A52_NUM_BLOCKS. lia.
    + split; [done|]. split; [done|]. intros k c Hk [Hc|[-> Hkj]]; [by apply Hdone|lia].
    + unfold A52_NUM_BLOCKS. intros j b' Hj (Hw' & Hs' & Hd'). pose proof Hw' as [Hl Hb].
      pose proof (Hb j Hj) as []. pose proof wf_exp as [? ?]. pose proof wf_mdct_coef as [? ?].
      do 6 wp_step. pose proof (Hs' j Hj) as Ej.
      assert (Hcoef : (Block.mdct_coef b'.[j]).[ch] = bcoef b0 j ch) by (unfold bcoef; by rewrite Ej).
      wp_step. eapply wp_mono.
      { apply extract_row_spec; [apply (dim2_row 6); [done|lia]|apply (dim2_row 6); [done|lia]|].
        rewrite Hcoef. intros t Ht. by apply Hok; lia. }
      intros e [Hle He]. wp_steps. fold (put_exp b' j ch e). split; [by apply put_exp_wf; try done; lia|].
      split; [by apply same_but_exp_put|]. intros k c Hk Hc. unfold extracted. intros t Ht.
      rewrite bexp_put by (done || lia).
      destruct ((k =? j) && (c =? ch)) eqn:Heq.
      * assert (k = j) as -> by lia. assert (c = ch) as -> by lia. rewrite He by done. by rewrite Hcoef.
      * apply Hd'; [done| |done]. lia.
    + intros b' (Hw' & Hs' & Hd'). split; [done|]. split; [done|]. intros k c Hk Hc. apply Hd'; [done|].
      unfold A52_NUM_BLOCKS. lia.
  - intros b (Hw & Hs & Hd). apply wp_ret. exists b. by repeat (split; [done|]).
Qed.
End extract_spec.


(** ** All stages *)

Definition same_but_exponents (b b' : Block.t) : Prop :=
  b' = b <| Block.exp_ := Block.exp_ b' |> <| Block.exp_strategy := Block.exp_strategy b' |>
         <| Block.nexpgrps := Block.nexpgrps b' |> <| Block.grp_exp := Block.grp_exp b' |>.

(** What the exponent stages are given: coefficients below 1, coefficient
    counts of the encoder and a search size. *)
Record process_ready `{FloatFormat} (ctx : Ctx.t) (frame : Frame.t) : Prop := {
  pr_channels : channels_ok ctx;
  pr_wf : blocks_wf (Frame.blocks frame);
  pr_nlen : zlen (Frame.ncoefs frame) = 6;
  pr_setlen : zlen (Frame.expstr_set frame) = 6;
  pr_ncoefs : ∀ c, 0 ≤ c < Ctx.n_all_channels ctx → ncoefs_ok (Frame.ncoefs frame).[c];
  pr_search : EncParams.expstr_search (Ctx.params ctx) ≤ 32;
  pr_coefs : ∀ k c t, 0 ≤ k < 6 → 0 ≤ c < Ctx.n_all_channels ctx → 0 ≤ t < 256 →
             coef_ok (bcoef (Frame.blocks frame) k c).[t]
}.

(** What they leave for channel [c] of block [k]: exponents that are at most
    the extracted ones, so that the mantissas do not overflow, that the
    previous block's are reused or that the groups decode to. *)
Record channel_exponents `{FloatFormat} (ncoefs : list Z) (blocks0 blocks : list Block.t) (k c : Z) : Prop := {
  ce_strategy : 0 ≤ bstr blocks k c ≤ 3;
  ce_u8 : ∀ t, 0 ≤ t < 256 → 0 ≤ (bexp blocks k c).[t] < 256;
  ce_below : ∀ t, 0 ≤ t < ncoefs.[c] → (bexp blocks k c).[t] ≤ exponent_of (scaled (bcoef blocks0 k c).[t]);
  ce_mantissa : ∀ t, 0 ≤ t < ncoefs.[c] →
    Z.abs (scaled (bcoef blocks0 k c).[t]) < 2 ^ (24 - (bexp blocks k c).[t]);
  ce_first : k = 0 → bstr blocks k c ≠ EXP_REUSE;
  ce_new : bstr blocks k c ≠ EXP_REUSE →
    representable (grpsize (bstr blocks k c)) (nexpgrp (bstr blocks k c) ncoefs.[c] * 3)
      (λ t, (bexp blocks k c).[t]);
  ce_reuse : bstr blocks k c = EXP_REUSE →
    ∀ t, 0 ≤ t < ncoefs.[c] → (bexp blocks k c).[t] = (bexp blocks (k - 1) c).[t];
  ce_groups : group_final (bstr blocks k c) ncoefs.[c] (bexp blocks k c)
                (Block.grp_exp blocks.[k]).[c] (Block.nexpgrps blocks.[k]).[c]
}.

Record process_done `{FloatFormat} (ctx : Ctx.t) (frame : Frame.t) (blocks : list Block.t) (sets : list Z) : Prop := {
  pd_wf : blocks_wf blocks;
  pd_same : ∀ k, 0 ≤ k < 6 → same_but_exponents (Frame.blocks frame).[k] blocks.[k];
  pd_channels : ∀ k c, 0 ≤ k < 6 → 0 ≤ c < Ctx.n_all_channels ctx →
    channel_exponents (Frame.ncoefs frame) (Frame.blocks frame) blocks k c;
  pd_setlen : zlen sets = 6;
  pd_sets : ∀ c, 0 ≤ c < Ctx.n_channels ctx →
    0 ≤ sets.[c] < 32 ∧ ∀ k, 0 ≤ k < 6 → bstr blocks k c = a52_expstr_set_tab.[sets.[c]].[k];
  pd_lfe : Ctx.lfe ctx = 1 → ∀ k, 0 ≤ k < 6 →
    bstr blocks k (Ctx.n_channels ctx) = if k =? 0 then EXP_D15 else EXP_REUSE
}.

Lemma a52_process_exponents_spec `{R : Residue} {ROk : ResidueOk R} `{FloatFormat} ctx frame :
  process_ready ctx frame →
  wp (a52_process_exponents ctx frame) (λ frame', ∃ blocks sets,
    frame' = frame <| Frame.blocks := blocks |> <| Frame.expstr_set := sets |>
      <| Frame.exp_bits := exp_bits_frame (Ctx.n_all_channels ctx) (Frame.ncoefs frame) blocks |> ∧
    process_done ctx frame blocks sets).
Proof.
  intros [Hch Hwf Hnl Hsl Hnc Hss Hok]. pose proof Hch as [Hn1 Hlfe Hall Hlc].
  set (n := Ctx.n_all_channels ctx) in *. assert (Hn : 0 ≤ n ≤ 6) by lia.
  unfold a52_process_exponents.
  apply wp_bind. eapply wp_mono; [by apply extract_exponents_spec|].
  intros f1 (b1 & -> & Hw1 & Hs1 & He1).
  assert (Hb1 : ∀ k c t, 0 ≤ k < 6 → 0 ≤ c < n → 0 ≤ t < 256 →
    (bexp b1 k c).[t] = exponent_of (scaled (bcoef (Frame.blocks frame) k c).[t]) ∧ 0 ≤ (bexp b1 k c).[t] ≤ 24).
  { intros k c t Hk Hc Ht. rewrite (He1 k c) by done. split; [done|].
    by apply exponent_of_bounds, Hok. }
  apply wp_bind. eapply wp_mono.
  { apply compute_exponent_strategy_spec. simpl. split; try done. intros k c t Hk Hc Ht.
    destruct (Hb1 k c t Hk Hc Ht). lia. }
  simpl. intros f2 (b2 & sets & -> & Hw2 & Hs2 & Hsets & Hstr & _ & Hlfes).
  assert (Hb2 : ∀ k c, 0 ≤ k < 6 → bexp b2 k c = bexp b1 k c)
    by (intros; by apply same_but_strategy_exp).
  assert (Hsr : ∀ c, 0 ≤ c < n → (∀ k, 0 ≤ k < 6 → 0 ≤ bstr b2 k c ≤ 3) ∧ bstr b2 0 c ≠ EXP_REUSE).
  { intros c Hc. destruct (decide (c < Ctx.n_channels ctx)) as [Hlt|Hge].
    - destruct (Hstr c ltac:(lia)) as [[Hr _] Htab]. destruct (expstr_set_tab_ok _ Hr) as (_ & H0 & H3).
      split; [intros k Hk; rewrite Htab by done; by apply H3|]. by rewrite Htab by lia.
    - assert (Ctx.lfe ctx = 1 ∧ c = Ctx.n_channels ctx) as [Hl1 ->] by lia.
      split; [intros k Hk; rewrite Hlfes by done; by destruct (k =? 0)|]. by rewrite Hlfes by (done || lia). }
  assert (Hready : exps_ready n (Frame.ncoefs frame) b2).
  { split; try done; [intros k c Hk Hc; by apply Hsr|intros c Hc; by apply Hsr|].
    intros k c t Hk Hc Ht. rewrite Hb2 by done. destruct (Hb1 k c t Hk Hc Ht). lia. }
  apply wp_bind. eapply wp_mono; [by apply encode_exponents_spec|]. simpl.
  intros f3 (b3 & -> & Hw3 & Hs3 & Hf3).
  assert (Hst3 : ∀ k c, 0 ≤ k < 6 → bstr b3 k c = bstr b2 k c) by (intros; by apply same_but_exp_str).
  eapply wp_mono.
  { apply group_exponents_spec; simpl.
    - destruct Hready. split; try done.
      + intros k c Hk Hc. rewrite Hst3 by done. by apply Hsr.
      + intros c Hc. rewrite Hst3 by lia. by apply Hsr.
      + intros k c t Hk Hc Ht. by apply (Hf3 c k).
    - intros k c Hk Hc. rewrite Hst3 by done. by apply (Hf3 c k). }
  simpl. fold n. intros f4 (b4 & -> & Hw4 & Hs4 & Hf4).
  assert (Hx4 : ∀ k c, 0 ≤ k < 6 → bexp b4 k c = bexp b3 k c ∧ bstr b4 k c = bstr b2 k c).
  { intros k c Hk. rewrite <- Hst3 by done. unfold bexp, bstr. by rewrite (Hs4 k Hk). }
  assert (Hbits : exp_bits_frame n (Frame.ncoefs frame) b3 = exp_bits_frame n (Frame.ncoefs frame) b4).
  { apply zsum_ext. intros k Hk. apply zsum_ext. intros c Hc.
    by rewrite Hst3, (proj2 (Hx4 k c Hk)) by done. }
  exists b4, sets. rewrite Hbits. split; [done|]. split; try done.
  - intros k Hk. unfold same_but_exponents. rewrite (Hs4 k Hk), (Hs3 k Hk), (Hs2 k Hk). simpl.
    rewrite (Hs1 k Hk). done.
  - intros k c Hk Hc. destruct (Hf3 c k Hc Hk) as [Hu Hb Hnw Hr].
    assert (Hbelow : ∀ t, 0 ≤ t < (Frame.ncoefs frame).[c] →
      0 ≤ (bexp b3 k c).[t] ≤ exponent_of (scaled (bcoef (Frame.blocks frame) k c).[t])).
    { intros t Ht. pose proof (ncoefs_ok_range _ (Hnc c Hc)).
      rewrite <- (proj1 (Hb1 k c t Hk Hc ltac:(lia))), <- Hb2 by done.
      split; [apply Hu; lia|by apply Hb]. }
    destruct (Hx4 k c Hk) as [Hx Hst]. pose proof (Hf4 k c Hk Hc) as Hg. rewrite Hst3 in Hg by done.
    split; rewrite ?Hx, ?Hst; try done.
    + by apply Hsr.
    + intros t Ht. by apply Hbelow.
    + intros t Ht. pose proof (ncoefs_ok_range _ (Hnc c Hc)).
      destruct (exponent_of_bounds _ (proj2 (Hok k c t Hk Hc ltac:(lia)))) as (_ & Hz & _).
      eapply Z.lt_le_trans; [exact Hz|]. apply Z.pow_le_mono_r; [lia|]. specialize (Hbelow t Ht). lia.
    + intros ->. by apply Hsr.
    + intros Hre t Ht. assert (k ≠ 0) by (intros ->; by apply (Hsr c Hc)).
      rewrite (proj1 (Hx4 (k - 1) c ltac:(lia))). by apply Hr.
  - intros c Hc. destruct (Hstr c Hc) as [[Hr _] Htab]. split; [done|]. intros k Hk.
    rewrite (proj2 (Hx4 k c Hk)). by apply Htab.
  - intros Hl k Hk. rewrite (proj2 (Hx4 k _ Hk)). by apply Hlfes.
Qed.


(** * Properties *)

(** C19: [encode_exp_blk_ch] never leaves its array, and its result is the
    greatest exponent set, at most the given one, that the strategy can
    represent: constant in each group, at most 2 between groups, DC at most 15. *)
Theorem encode_exp_greatest e nc s :
  1 ≤ s ≤ 3 → ncoefs_ok nc → zlen e = 256 → (∀ t, 0 ≤ t < 256 → 0 ≤ e.[t] < 256) →
  ∃ out, encode_exp_blk_ch e nc s = Some out ∧
    exp_encoded (grpsize s) (nexpgrp s nc * 3) e out ∧ nc - 1 ≤ grpsize s * (nexpgrp s nc * 3).
Proof.
  intros Hs Hnc Hl Hu. destruct (nexpgrp_covers s nc Hs Hnc). pose proof (ncoefs_ok_range nc Hnc).
  pose proof (encode_exp_blk_ch_spec e nc s Hs ltac:(lia) ltac:(lia) Hl Hu) as Hw.
  apply wp_some in Hw as (out & -> & Ho). by exists out.
Qed.

Definition example_exps : list Z := map (λ t, (Z.of_nat t * 7) mod 25) (seq 0 256).

Lemma example_exps_u8 t : 0 ≤ t < 256 → 0 ≤ example_exps.[t] < 256.
Proof.
  intros Ht. table_check (λ t, (0 <=? example_exps.[t]) && (example_exps.[t] <? 256)) 256 Ht. lia.
Qed.

Lemma encode_exp_greatest_witness :
  ncoefs_ok 223 ∧ ∃ out, encode_exp_blk_ch example_exps 223 EXP_D45 = Some out ∧
    exp_encoded (grpsize EXP_D45) (nexpgrp EXP_D45 223 * 3) example_exps out ∧
    223 - 1 ≤ grpsize EXP_D45 * (nexpgrp EXP_D45 223 * 3).
Proof.
  assert (Hn : ncoefs_ok 223) by (right; exists 50; lia).
  split; [done|]. apply encode_exp_greatest; [unfold EXP_D45; lia|done|done|apply example_exps_u8].
Defined.

(** Grouping turns the exponents of every new exponent set of a frame into
    7-bit codes of at most 124 that decode to exactly these exponents, keeps
    everything else of the blocks and counts the bits of all groups. *)
Theorem group_exponents_decode ctx frame :
  exps_ready (Ctx.n_all_channels ctx) (Frame.ncoefs frame) (Frame.blocks frame) →
  exps_representable (Ctx.n_all_channels ctx) (Frame.ncoefs frame) (Frame.blocks frame) →
  wp (group_exponents ctx frame) (λ frame', ∃ blocks,
    frame' = frame <| Frame.blocks := blocks |>
      <| Frame.exp_bits := exp_bits_frame (Ctx.n_all_channels ctx) (Frame.ncoefs frame) (Frame.blocks frame) |> ∧
    (∀ k, 0 ≤ k < 6 → same_but_grp (Frame.blocks frame).[k] blocks.[k]) ∧
    ∀ k c, 0 ≤ k < 6 → 0 ≤ c < Ctx.n_all_channels ctx →
      group_final (bstr (Frame.blocks frame) k c) (Frame.ncoefs frame).[c] (bexp (Frame.blocks frame) k c)
        (Block.grp_exp blocks.[k]).[c] (Block.nexpgrps blocks.[k]).[c]).
Proof.
  intros Hr Hrep. eapply wp_mono; [by apply group_exponents_spec|]. simpl.
  intros f (blocks & -> & _ & Hs & Hg). by exists blocks.
Qed.

(** A stereo context and a frame of silence. *)
Definition example_ctx : Ctx.t := {|
  Ctx.params := EncParams.mk AFTEN_ENC_MODE_CBR 1 0 0 0 0 192 240 (-2) 0 8 DYNRNG_PROFILE_NONE 0 60;
  Ctx.meta := Metadata.mk 0 0 0 31 0 0 4 4 4 4 0 0 0 0;
  Ctx.n_threads := 1; Ctx.last_samples_count := 0;
  Ctx.n_channels := 2; Ctx.n_all_channels := 2; Ctx.acmod := A52_ACMOD_STEREO; Ctx.lfe := 0;
  Ctx.lfe_channel := -1; Ctx.sample_rate := 48000; Ctx.halfratecod := 0; Ctx.bsid := 8; Ctx.fscod := 0;
  Ctx.bsmod := 0; Ctx.target_bitrate := 192; Ctx.frmsizecod := 20; Ctx.fixed_bwcode := 50
|}.
Definition example_block : Block.t := zero_block <| Block.exp_strategy := replicate 6 EXP_D25 |>.
Definition example_frame : Frame.t :=
  zero_frame <| Frame.ncoefs := replicate 6 223 |> <| Frame.blocks := replicate 6 example_block |>.

Lemma example_channels : channels_ok example_ctx.
Proof. split; simpl; lia. Qed.

Lemma example_blocks_wf : blocks_wf (Frame.blocks example_frame).
Proof. apply blocks_wf_replicate. by destruct zero_block_wf. Qed.

Lemma example_at k c t :
  0 ≤ k < 6 → 0 ≤ c < 6 → bstr (Frame.blocks example_frame) k c = EXP_D25 ∧
  (0 ≤ t < 256 → (bexp (Frame.blocks example_frame) k c).[t] = 0 ∧
                 (bcoef (Frame.blocks example_frame) k c).[t] = zero_float).
Proof.
  intros Hk Hc. unfold bstr, bexp, bcoef.
  assert (Hb : (Frame.blocks example_frame).[k] = example_block) by (apply (at_replicate 6); lia).
  rewrite Hb. split; [apply (at_replicate 6); lia|]. intros Ht.
  assert (He : (Block.exp_ example_block).[c] = replicate 256 0) by (apply (at_replicate 6); lia).
  assert (Hm : (Block.mdct_coef example_block).[c] = replicate 256 zero_float) by (apply (at_replicate 6); lia).
  rewrite He, Hm. split; apply (at_replicate 256); lia.
Qed.

Lemma example_ncoefs c : 0 ≤ c < 6 → (Frame.ncoefs example_frame).[c] = 223.
Proof. intros Hc. apply (at_replicate 6). lia. Qed.
Lemma example_ncoefs_ok c : 0 ≤ c < 6 → ncoefs_ok (Frame.ncoefs example_frame).[c].
Proof. intros Hc. rewrite example_ncoefs by done. right. exists 50. lia. Qed.

Lemma group_exponents_decode_witness :
  wp (group_exponents example_ctx example_frame) (λ frame', ∃ blocks,
    frame' = example_frame <| Frame.blocks := blocks |>
      <| Frame.exp_bits := exp_bits_frame 2 (Frame.ncoefs example_frame) (Frame.blocks example_frame) |> ∧
    (∀ k, 0 ≤ k < 6 → same_but_grp (Frame.blocks example_frame).[k] blocks.[k]) ∧
    ∀ k c, 0 ≤ k < 6 → 0 ≤ c < 2 →
      group_final (bstr (Frame.blocks example_frame) k c) (Frame.ncoefs example_frame).[c]
        (bexp (Frame.blocks example_frame) k c)
        (Block.grp_exp blocks.[k]).[c] (Block.nexpgrps blocks.[k]).[c]).
Proof.
  apply (group_exponents_decode example_ctx example_frame).
  - change (Ctx.n_all_channels example_ctx) with 2. split; [lia|apply example_blocks_wf|done| | | |].
    + intros c Hc. apply example_ncoefs_ok. lia.
    + intros k c Hk Hc. destruct (example_at k c 0 Hk ltac:(lia)) as [-> _]. unfold EXP_D25. lia.
    + intros c Hc. destruct (example_at 0 c 0 ltac:(lia) ltac:(lia)) as [-> _]. done.
    + intros k c t Hk Hc Ht. destruct (example_at k c t Hk ltac:(lia)) as [_ He].
      destruct (He Ht) as [-> _]. lia.
  - change (Ctx.n_all_channels example_ctx) with 2. intros k c Hk Hc _. destruct (example_at k c 0 Hk ltac:(lia)) as [-> _].
    assert (Hz : ∀ t, 0 ≤ t < 256 → (bexp (Frame.blocks example_frame) k c).[t] = 0)
      by (intros t Ht; apply (example_at k c t); lia).
    rewrite example_ncoefs by lia.
    change (grpsize EXP_D25) with 2. change (nexpgrp EXP_D25 223 * 3) with 111. split.
    + rewrite Hz by lia. lia.
    + intros t Ht. pose proof (grp_of_range 2 111 t ltac:(lia) ltac:(lia)). by rewrite !Hz by lia.
    + intros i Hi. rewrite !Hz by lia. lia.
Defined.


(** C18: From coefficients below 1, the exponent stages produce exponents that
    the decoder can reconstruct (reused, or decoded from the groups), that are
    never above the extracted ones, so every mantissa fits its 24 bits, and
    strategies of a predefined set; the bits of the groups are counted. *)
Theorem process_exponents_correct `{R : Residue} {ROk : ResidueOk R} `{FloatFormat} ctx frame :
  process_ready ctx frame →
  ∃ blocks sets, a52_process_exponents ctx frame =
    Some (frame <| Frame.blocks := blocks |> <| Frame.expstr_set := sets |>
      <| Frame.exp_bits := exp_bits_frame (Ctx.n_all_channels ctx) (Frame.ncoefs frame) blocks |>) ∧
    process_done ctx frame blocks sets.
Proof.
  intros Hr. pose proof (a52_process_exponents_spec ctx frame Hr) as Hw.
  apply wp_some in Hw as (f & Hf & blocks & sets & -> & Hd). by exists blocks, sets.
Qed.

Lemma zero_coef_ok : @coef_ok single_format zero_float.
Proof. by vm_compute. Qed.

Lemma example_ready : @process_ready single_format example_ctx example_frame.
Proof.
  split; change (Ctx.n_all_channels example_ctx) with 2.
  - apply example_channels.
  - apply example_blocks_wf.
  - done.
  - done.
  - intros c Hc. apply example_ncoefs_ok. lia.
  - simpl. lia.
  - intros k c t Hk Hc Ht. destruct (example_at k c t Hk ltac:(lia)) as [_ He].
    destruct (He Ht) as [_ ->]. apply zero_coef_ok.
Qed.

Lemma process_exponents_correct_witness :
  ∃ blocks sets, @a52_process_exponents trapping_residue single_format example_ctx example_frame =
    Some (example_frame <| Frame.blocks := blocks |> <| Frame.expstr_set := sets |>
      <| Frame.exp_bits := exp_bits_frame 2 (Frame.ncoefs example_frame) blocks |>) ∧
    @process_done single_format example_ctx example_frame blocks sets.
Proof.
  apply (@process_exponents_correct trapping_residue trapping_residue_ok single_format example_ctx example_frame).
  apply example_ready.
Defined.


Definition example_rows : list (list Z) := map (λ b, if b =? 3 then replicate 256 20 else replicate 256 4)
  [0; 1; 2; 3; 4; 5].

Lemma example_rows_u8 : rows_u8 6 256 example_rows.
Proof.
  assert (Hrow : ∀ i, 0 ≤ i < 6 → example_rows.[i] = replicate 256 20 ∨ example_rows.[i] = replicate 256 4).
  { intros i Hi. assert (i = 0 ∨ i = 1 ∨ i = 2 ∨ i = 3 ∨ i = 4 ∨ i = 5) as Hi' by lia.
    destruct Hi' as [-> |[-> |[-> |[-> |[-> | ->]]]]]; (by left) || by right. }
  split; [split; [done|]|].
  - intros i Hi. by destruct (Hrow i Hi) as [-> | ->].
  - intros i j Hi Hj. destruct (Hrow i Hi) as [-> | ->]; rewrite (at_replicate 256) by lia; lia.
Qed.


(** The same calls with other bytes left on the stack. *)
Definition residue_with (exponents : list (list Z)) : Residue :=
  {| past_mask := None; past_band_start := None; stack_excite := replicate 50 0; stack_exponents := exponents;
     stack_bndpsd := replicate 50 0 |}.

(** The search reads its local [exponents] before writing them when a block
    is not followed by a reusing block: for the same exponents, the strategy
    chosen depends on what the stack held. *)
Theorem strategy_depends_on_stack :
  @compute_expstr_ch (residue_with (replicate 6 (replicate 256 0))) example_rows 7 2 = Some 0 ∧
  @compute_expstr_ch (residue_with example_rows) example_rows 7 2 = Some 31.
Proof. split; by vm_compute. Qed.

(** The bits of the exponents of a channel, for one strategy set. *)
Definition set_bits (set nc : Z) : Z :=
  zsum (λ b, exp_bits_ch a52_expstr_set_tab.[set].[b] nc) 6.

(** [exponent_init] fills the group counts so that the groups cover the
    coefficients, and the bits of the exponents for the strategy sets 0 to 5;
    the table's entries for the sets 6 to 31 stay 0. *)
Theorem exponent_init_tables :
  exponent_init nexpgrptab_zero expstr_set_bits_zero = Some (nexpgrptab, expstr_set_bits) ∧
  (∀ s n, 1 ≤ s ≤ 3 → ncoefs_ok n → n - 1 ≤ grpsize s * (nexpgrp s n * 3) ∧
     (7 < n → grpsize s * (nexpgrp s n * 3) < n - 1 + 3 * grpsize s)) ∧
  (∀ set nc, 0 ≤ set < 32 → 0 ≤ nc ≤ 253 →
     expstr_set_bits.[set].[nc] = if set <? 6 then set_bits set nc else 0).
Proof.
  split; [by vm_compute|]. split.
  - intros s n Hs Hn. split; [by apply nexpgrp_covers|]. pose proof (ncoefs_ok_range n Hn).
    assert (Hr : 0 ≤ s - 1 < 3) by lia.
    table_check (λ r, forallb (λ n, (Z.of_nat n <? 8) || (grpsize (r + 1) * (nexpgrp (r + 1) (Z.of_nat n) * 3) <?
      Z.of_nat n - 1 + 3 * grpsize (r + 1))) (seq 0 254)) 3 Hr.
    rewrite forallb_forall in Hr. specialize (Hr (Z.to_nat n) ltac:(apply in_seq; lia)).
    replace (s - 1 + 1) with s in Hr by lia. rewrite Z2Nat.id in Hr by lia. intros. lia.
  - intros set nc Hset Hnc. table_check (λ s, forallb (λ n, expstr_set_bits.[s].[Z.of_nat n] =?
      if s <? 6 then set_bits s (Z.of_nat n) else 0) (seq 0 254)) 32 Hset.
    rewrite forallb_forall in Hset. specialize (Hset (Z.to_nat nc) ltac:(apply in_seq; lia)).
    rewrite Z2Nat.id in Hset by lia. lia.
Qed.
