(* ===== verification/BitAlloc.v ===== *)
(** [libaften/bitalloc.c]: power spectra and masks of a frame, the count of
    its bits, and the search for the signal-to-noise offset that fills a frame
    of the given size.  The theorems show that the search terminates, that what
    it accepts fits the frame and that the bit allocation pointers are those of
    the offset it reports. *)
From Stdlib Require Import ZArith Lia ZifyBool Bool.
From stdpp Require Import base option list numbers.
From coqutil Require Import Datatypes.RecordSettersUsingExistingGetters.
From S2P Require Import Prelude CMachine Float BitIO Tables Types Util A52 Exponent.
Local Open Scope Z_scope.
Local Open Scope carray_scope.

Section bitalloc.
Context `{Residue}.

Definition a52_bit_allocation_prepare (s : BitAllocParams.t) (exp_ psd mask : list Z)
    (fgain start end_ : Z) : option (list Z * list Z) :=
  '(psd, bndpsd) ← a52_bit_alloc_calc_psd exp_ start end_ psd stack_bndpsd;
  (* delta bit allocation not used *)
  mask ← a52_bit_alloc_calc_mask s bndpsd start end_ fgain (-1) (-1) [] [] [] mask;
  Some (psd, mask).

(** * Mantissa sizes *)

(** Returns the array [mant_cnt] it updates and the bits. *)
Definition compute_mantissa_size (mant_cnt bap : list Z) (ncoefs : Z) : option (list Z * Z) :=
  for_up 0 ncoefs (λ i '(mant_cnt, bits),
    b ← aget bap i;
    if b <=? 4 then
      (* counted in compute_mantissa_size_final *)
      n ← aget mant_cnt b;
      mant_cnt ← aset mant_cnt b (n + 1);
      Some (mant_cnt, bits)
    else if b <=? 13 then Some (mant_cnt, bits + (b - 1))
    else Some (mant_cnt, bits + (14 + Z.shiftl (b - 14) 1))) (mant_cnt, 0).

Definition compute_mantissa_size_final (mant_cnt : list Z) : option Z :=
  c1 ← aget mant_cnt 1;
  c2 ← aget mant_cnt 2;
  c3 ← aget mant_cnt 3;
  c4 ← aget mant_cnt 4;
  let bits := Z.quot c1 3 * 5 in
  let bits := bits + (Z.quot c2 3 + Z.shiftr c4 1) * 7 in
  let bits := bits + c3 * 3 in
  Some bits.

(** * Allocation for one offset *)

Definition bit_alloc_prepare (ctx : Ctx.t) (frame : Frame.t) : option Frame.t :=
  for_up 0 A52_NUM_BLOCKS (λ blk frame,
    '(frame, _) ← with_block frame blk (λ b _,
      b ← for_up 0 (Ctx.n_all_channels ctx) (λ ch b,
        (* we don't have to run the bit allocation when reusing exponents *)
        es ← aget (Block.exp_strategy b) ch;
        if negb (es =? EXP_REUSE) then
          e ← aget (Block.exp_ b) ch;
          p ← aget (Block.psd b) ch;
          m ← aget (Block.mask b) ch;
          fgain ← aget2 (BitAllocParams.fgain (Frame.bit_alloc frame)) blk ch;
          nc ← aget (Frame.ncoefs frame) ch;
          '(p, m) ← a52_bit_allocation_prepare (Frame.bit_alloc frame) e p m fgain 0 nc;
          psd ← aset (Block.psd b) ch p;
          mask ← aset (Block.mask b) ch m;
          Some (b <| Block.psd := psd |> <| Block.mask := mask |>)
        else Some b) b;
      Some (b, ())) ();
    Some frame) frame.

(** Returns the frame, with the pointers [bap] set, and the mantissa bits. *)
Definition bit_alloc (ctx : Ctx.t) (frame : Frame.t) (snroffst : Z) : option (Frame.t * Z) :=
  let snroffst := Z.shiftl snroffst 2 - 960 in
  for_up 0 A52_NUM_BLOCKS (λ blk '(frame, bits),
    (* padded to the next whole group size *)
    let mant_cnt := [0; 2; 2; 0; 1] in
    '(frame, (mant_cnt, bits)) ← with_block frame blk (λ b '(mant_cnt, bits),
      '(b, mant_cnt, bits) ← for_up 0 (Ctx.n_all_channels ctx) (λ ch '(b, mant_cnt, bits),
        es ← aget (Block.exp_strategy b) ch;
        old ← aget (Block.bap b) ch;
        nc ← aget (Frame.ncoefs frame) ch;
        new ← (if es =? EXP_REUSE then
                 prev ← aget (Frame.blocks frame) (blk - 1);
                 src ← aget (Block.bap prev) ch;
                 memcpy old 0 src 0 256
               else
                 m ← aget (Block.mask b) ch;
                 p ← aget (Block.psd b) ch;
                 a52_bit_alloc_calc_bap m p 0 nc snroffst
                   (BitAllocParams.floor_ (Frame.bit_alloc frame)) old);
        bap ← aset (Block.bap b) ch new;
        '(mant_cnt, n) ← compute_mantissa_size mant_cnt new nc;
        Some (b <| Block.bap := bap |>, mant_cnt, bits + n)) (b, mant_cnt, bits);
      Some (b, (mant_cnt, bits))) (mant_cnt, bits);
    n ← compute_mantissa_size_final mant_cnt;
    Some (frame, bits + n)) (frame, 0).
End bitalloc.

(** * The fixed bits *)

Definition frame_bits_inc : list Z := [8; 0; 2; 2; 2; 4; 2; 4].

Definition count_frame_bits (ctx : Ctx.t) (frame : Frame.t) : option Frame.t :=
  inc ← aget frame_bits_inc (Ctx.acmod ctx);
  (* header size *)
  let frame_bits := 0 + 65 in
  let frame_bits := frame_bits + inc in
  let frame_bits := if negb (Metadata.xbsi1e (Ctx.meta ctx) =? 0) then frame_bits + 14 else frame_bits in
  let frame_bits := if negb (Metadata.xbsi2e (Ctx.meta ctx) =? 0) then frame_bits + 14 else frame_bits in
  (* audio blocks *)
  frame_bits ← for_up 0 A52_NUM_BLOCKS (λ blk frame_bits,
    block ← aget (Frame.blocks frame) blk;
    let frame_bits := frame_bits + Ctx.n_channels ctx in (* blksw *)
    let frame_bits := frame_bits + Ctx.n_channels ctx in (* dithflg *)
    let frame_bits := frame_bits + (1 + Z.b2z (Ctx.acmod ctx =? A52_ACMOD_DUAL_MONO)) in (* dynrnge, dynrng2e *)
    let frame_bits := if negb (EncParams.dynrng_profile (Ctx.params ctx) =? DYNRNG_PROFILE_NONE) then
        let frame_bits := frame_bits + 8 in (* dynrng *)
        if Ctx.acmod ctx =? A52_ACMOD_DUAL_MONO then frame_bits + 8 else frame_bits (* dynrng2 *)
      else frame_bits in
    let frame_bits := frame_bits + 1 in (* cplstre *)
    let frame_bits := if blk =? 0 then frame_bits + 1 else frame_bits in (* cplinu *)
    let frame_bits := if Ctx.acmod ctx =? 2 then
        let frame_bits := frame_bits + 1 in (* rematstr *)
        if blk =? 0 then frame_bits + 4 else frame_bits (* rematflg *)
      else frame_bits in
    let frame_bits := frame_bits + 2 * Ctx.n_channels ctx in (* chexpstr *)
    let frame_bits := if negb (Ctx.lfe ctx =? 0) then frame_bits + 1 else frame_bits in (* lfeexpstr *)
    frame_bits ← for_up 0 (Ctx.n_channels ctx) (λ ch frame_bits,
      es ← aget (Block.exp_strategy block) ch;
      Some (if negb (es =? EXP_REUSE) then frame_bits + 6 (* chbwcod *) + 2 (* gainrng *) else frame_bits))
      frame_bits;
    let frame_bits := frame_bits + 1 in (* baie *)
    let frame_bits := if blk =? 0 then frame_bits + (2 + 2 + 2 + 2 + 3) else frame_bits in
    let frame_bits := frame_bits + 1 in (* snr *)
    let frame_bits := if negb (Block.write_snr block =? 0) then
        let frame_bits := frame_bits + 6 in (* csnroffset *)
        let frame_bits := frame_bits + Ctx.n_all_channels ctx * 4 in (* fsnroffset *)
        frame_bits + Ctx.n_all_channels ctx * 3 (* fgaincod *)
      else frame_bits in
    let frame_bits := frame_bits + 1 in (* delta *)
    Some (frame_bits + 1) (* skip *)) frame_bits;
  (* auxdatae, crcrsv *)
  let frame_bits := frame_bits + 2 in
  (* CRC *)
  let frame_bits := frame_bits + 16 in
  Some (frame <| Frame.frame_bits := frame_bits |>).

(** Loads the bit allocation parameters and counts the fixed bits. *)
Definition start_bit_allocation (ctx : Ctx.t) (frame : Frame.t) : option Frame.t :=
  sdecay ← aget a52_slow_decay_tab (Frame.sdecaycod frame);
  fdecay ← aget a52_fast_decay_tab (Frame.fdecaycod frame);
  sgain ← aget a52_slow_gain_tab (Frame.sgaincod frame);
  dbknee ← aget a52_db_per_bit_tab (Frame.dbkneecod frame);
  floor ← aget a52_floor_tab (Frame.floorcod frame);
  let frame := frame <| Frame.bit_alloc := (Frame.bit_alloc frame)
    <| BitAllocParams.fscod := Ctx.fscod ctx |>
    <| BitAllocParams.halfratecod := Ctx.halfratecod ctx |>
    <| BitAllocParams.sdecay := Z.shiftr sdecay (Ctx.halfratecod ctx) |>
    <| BitAllocParams.fdecay := Z.shiftr fdecay (Ctx.halfratecod ctx) |>
    <| BitAllocParams.sgain := sgain |>
    <| BitAllocParams.dbknee := dbknee |>
    <| BitAllocParams.floor_ := floor |> |> in
  (* set fast gain based on exponent strategy *)
  frame ← for_up 0 A52_NUM_BLOCKS (λ blk frame,
    '(frame, fgain) ← with_block frame blk (λ b fgain,
      let b := b <| Block.write_snr := 0 |> in
      for_up 0 (Ctx.n_all_channels ctx) (λ ch '(b, fgain),
        es ← aget (Block.exp_strategy b) ch;
        b ← (if negb (es =? EXP_REUSE) then
               codes ← aset (Block.fgaincod b) ch (4 - es);
               differs ← (if blk =? 0 then Some true else
                 prev ← aget (Frame.blocks frame) (blk - 1);
                 c ← aget (Block.fgaincod prev) ch;
                 Some (negb (4 - es =? c)));
               Some (b <| Block.fgaincod := codes |>
                       <| Block.write_snr := Z.lor (Block.write_snr b) (Z.b2z differs) |>)
             else
               prev ← aget (Frame.blocks frame) (blk - 1);
               c ← aget (Block.fgaincod prev) ch;
               codes ← aset (Block.fgaincod b) ch c;
               Some (b <| Block.fgaincod := codes |>));
        c ← aget (Block.fgaincod b) ch;
        g ← aget a52_fast_gain_tab c;
        fgain ← aset2 fgain blk ch g;
        Some (b, fgain)) (b, fgain)) (BitAllocParams.fgain (Frame.bit_alloc frame));
    Some (frame <| Frame.bit_alloc := (Frame.bit_alloc frame) <| BitAllocParams.fgain := fgain |> |>)) frame;
  count_frame_bits ctx frame.

(** * The search for the offset *)

Section search.
Context `{Residue}.

(** [leftover = avail_bits - bit_alloc(tctx, snroffst)] *)
Definition leftover_at (ctx : Ctx.t) (avail_bits : Z) (frame : Frame.t) (snroffst : Z) : option (Frame.t * Z) :=
  '(frame, bits) ← bit_alloc ctx frame snroffst;
  Some (frame, avail_bits - bits).

(** The fast search: steps of 16. *)
Definition cbr_search_fast (ctx : Ctx.t) (avail_bits : Z) (frame : Frame.t) (snroffst leftover : Z)
    : option (Frame.t * Z * Z) :=
  '(frame, snr0, snr1) ←
    (if negb (leftover =? 0) then
       if leftover >? 0 then
         '(frame, snr0, snr1, _) ← while_loop 65
           (λ '(_, _, snr1, leftover1), (leftover1 >? 0) && (snr1 + 16 <=? 1023))
           (λ '(frame, _, snr1, _),
             let snr0 := snr1 in
             let snr1 := snr1 + 16 in
             '(frame, leftover1) ← leftover_at ctx avail_bits frame snr1;
             Some (frame, snr0, snr1, leftover1)) (frame, snroffst, snroffst, leftover);
         Some (frame, snr0, snr1)
       else
         '(frame, snr0, snr1, _) ← while_loop 65
           (λ '(_, snr0, _, leftover0), (leftover0 <? 0) && (snr0 - 16 >=? 0))
           (λ '(frame, snr0, _, _),
             let snr1 := snr0 in
             let snr0 := snr0 - 16 in
             '(frame, leftover0) ← leftover_at ctx avail_bits frame snr0;
             Some (frame, snr0, snr1, leftover0)) (frame, snroffst, snroffst, leftover);
         Some (frame, snr0, snr1)
     else Some (frame, snroffst, snroffst));
  if negb (snr0 =? snr1) then
    '(frame, leftover) ← leftover_at ctx avail_bits frame snr0;
    Some (frame, snr0, leftover)
  else Some (frame, snroffst, leftover).

(** One of the jumps based on the estimated distance from the optimum. *)
Definition cbr_jump (ctx : Ctx.t) (avail_bits : Z) (test : Z → bool) (k : Z)
    '((frame, snroffst, leftover) : Frame.t * Z * Z) : option (Frame.t * Z * Z) :=
  if test leftover then
    let snroffst := snroffst + Z.quot leftover (k * Ctx.n_channels ctx) in
    '(frame, leftover) ← leftover_at ctx avail_bits frame snroffst;
    Some (frame, snroffst, leftover)
  else Some (frame, snroffst, leftover).

(** The slow search; the loops end by the bound on the offset. *)
Definition cbr_search_slow (ctx : Ctx.t) (avail_bits : Z) (frame : Frame.t) (snroffst leftover : Z)
    : option (Frame.t * Z * Z) :=
  (* take up to 3 jumps based on estimated distance from optimal *)
  st ← cbr_jump ctx avail_bits (λ l, l <? -400) 16 (frame, snroffst, leftover);
  st ← cbr_jump ctx avail_bits (λ l, l >? 400) 24 st;
  '(frame, snroffst, leftover) ← cbr_jump ctx avail_bits (λ l, l <? -200) 40 st;
  (* adjust snroffst until leftover <= -100 *)
  '(frame, snroffst, leftover, _) ← while_loop (S (Z.to_nat (1025 - snroffst)))
    (λ '(_, _, leftover, break), (leftover >? -100) && negb break)
    (λ '(frame, snroffst, _, _),
      let snroffst := snroffst + Z.quot 10 (Ctx.n_channels ctx) in
      if snroffst >? 1023 then
        '(frame, leftover) ← leftover_at ctx avail_bits frame 1023;
        Some (frame, 1023, leftover, true)
      else
        '(frame, leftover) ← leftover_at ctx avail_bits frame snroffst;
        Some (frame, snroffst, leftover, false)) (frame, snroffst, leftover, false);
  (* adjust snroffst until leftover is positive *)
  while_loop (Z.to_nat snroffst)
    (λ '(_, snroffst, leftover), (leftover <? 0) && (snroffst >? 0))
    (λ '(frame, snroffst, _),
      let snroffst := snroffst - 1 in
      '(frame, leftover) ← leftover_at ctx avail_bits frame snroffst;
      Some (frame, snroffst, leftover)) (frame, snroffst, leftover).

(** Returns the state and the C return value. *)
Definition cbr_bit_allocation (ctx : Ctx.t) (tctx : TCtx.t) (prepare : Z) : option (TCtx.t * Z) :=
  let frame := TCtx.frame tctx in
  let current_bits := Frame.frame_bits frame + Frame.exp_bits frame in
  let avail_bits := 16 * Frame.frame_size frame - current_bits in
  frame ← (if negb (prepare =? 0) then bit_alloc_prepare ctx frame else Some frame);
  (* starting point *)
  let snroffst :=
    if EncParams.encoding_mode (Ctx.params ctx) =? AFTEN_ENC_MODE_VBR then EncParams.quality (Ctx.params ctx)
    else if EncParams.encoding_mode (Ctx.params ctx) =? AFTEN_ENC_MODE_CBR then TCtx.last_quality tctx
    else 0 in
  '(frame, leftover) ← leftover_at ctx avail_bits frame snroffst;
  '(frame, snroffst, leftover) ←
    (if negb (EncParams.bitalloc_fast (Ctx.params ctx) =? 0)
     then cbr_search_fast ctx avail_bits frame snroffst leftover
     else cbr_search_slow ctx avail_bits frame snroffst leftover);
  let frame := frame <| Frame.mant_bits := avail_bits - leftover |> in
  if leftover <? 0 then Some (tctx <| TCtx.frame := frame |>, -1) else
  (* set encoding parameters *)
  let frame := frame <| Frame.csnroffst := Z.shiftr snroffst 4 |>
                     <| Frame.fsnroffst := Z.land snroffst 0xF |>
                     <| Frame.quality := snroffst |> in
  Some (tctx <| TCtx.frame := frame |> <| TCtx.last_quality := snroffst |>, 0).

Definition vbr_bit_allocation (ctx : Ctx.t) (tctx : TCtx.t) : option (TCtx.t * Z) :=
  let frame := TCtx.frame tctx in
  let current_bits := Frame.frame_bits frame + Frame.exp_bits frame in
  let quality := EncParams.quality (Ctx.params ctx) in
  frame ← bit_alloc_prepare ctx frame;
  (* find an A52 frame size that can hold the data *)
  '(frame, bits) ← bit_alloc ctx frame quality;
  let frame_bits := current_bits + bits in
  '(i, frame_size) ← for_break 0 (Ctx.frmsizecod ctx + 1) (λ i '(_, _),
    frame_size ← aget2 a52_frame_size_tab i (Ctx.fscod ctx);
    if frame_size >=? frame_bits then Some (inl (i, frame_size))
    else Some (inr (i + 1, frame_size))) (0, 0);
  let i := MIN i (Ctx.frmsizecod ctx) in
  rate ← aget a52_bitrate_tab (Z.quot i 2);
  let frame := frame <| Frame.bit_rate := Z.shiftr rate (Ctx.halfratecod ctx) |>
    <| Frame.frmsizecod := i |>
    <| Frame.frame_size := Z.quot frame_size 16 |>
    <| Frame.frame_size_min := Z.quot frame_size 16 |> in
  cbr_bit_allocation ctx (tctx <| TCtx.frame := frame |>) 0.

Definition compute_bit_allocation (ctx : Ctx.t) (tctx : TCtx.t) : option (TCtx.t * Z) :=
  frame ← start_bit_allocation ctx (TCtx.frame tctx);
  let tctx := tctx <| TCtx.frame := frame |> in
  if EncParams.encoding_mode (Ctx.params ctx) =? AFTEN_ENC_MODE_VBR then
    '(tctx, r) ← vbr_bit_allocation ctx tctx;
    Some (tctx, if negb (r =? 0) then -1 else 0)
  else if EncParams.encoding_mode (Ctx.params ctx) =? AFTEN_ENC_MODE_CBR then
    '(tctx, r) ← cbr_bit_allocation ctx tctx 1;
    Some (tctx, if negb (r =? 0) then -1 else 0)
  else Some (tctx, -1).

(** * Variable bandwidth *)

Context `{FloatFormat}.

(** Estimated number of bits used for a mantissa, indexed by bap value. *)
Definition mant_est_tab : list FLOAT :=
  [F_dec 0 1; F_dec 1667 1000; F_dec 2333 1000; F_dec 3 1; F_dec 35 10; F_dec 4 1;
   F_dec 5 1; F_dec 6 1; F_dec 7 1; F_dec 8 1; F_dec 9 1; F_dec 10 1;
   F_dec 11 1; F_dec 12 1; F_dec 14 1; F_dec 16 1].

(** [sum += mant_est_tab[bap[nc]]] *)
Definition add_estimate (bap : list Z) (nc : Z) (sum : FLOAT) : option FLOAT :=
  b ← aget bap nc;
  m ← aget mant_est_tab b;
  Some (F_add sum m).

Definition get_bap (frame : Frame.t) (blk ch : Z) : option (list Z) :=
  b ← aget (Frame.blocks frame) blk; aget (Block.bap b) ch.

Definition vbw_bit_allocation (ctx : Ctx.t) (tctx : TCtx.t) : option TCtx.t :=
  frame ← start_bit_allocation ctx (TCtx.frame tctx);
  let avail_bits := 16 * Frame.frame_size frame - Frame.frame_bits frame in
  frame ← bit_alloc_prepare ctx frame;
  '(frame, _) ← bit_alloc ctx frame 240;
  (* deduct any LFE exponent and mantissa bits *)
  avail_bits ← (if negb (Ctx.lfe ctx =? 0) then
      let ch := Ctx.lfe_channel ctx in
      set ← aget (Frame.expstr_set frame) ch;
      n ← aget2 expstr_set_bits set 7;
      let lfe_bits := F_add (F_of_Z 0) (F_of_Z n) in
      lfe_bits ← for_up 0 A52_NUM_BLOCKS (λ blk lfe_bits,
        bap ← get_bap frame blk ch;
        for_up 0 7 (λ nc, add_estimate bap nc) lfe_bits) lfe_bits;
      n ← F_to_int lfe_bits;
      Some (avail_bits - n)
    else Some avail_bits);
  (* set limits *)
  let wmin := EncParams.min_bwcode (Ctx.params ctx) in
  let wmax := EncParams.max_bwcode (Ctx.params ctx) in
  let ncmin := wmin * 3 + 73 in
  let ncmax := wmax * 3 + 73 in
  (* sum up mantissa bits up to bin 72 *)
  mant_bits ← for_up 0 (Ctx.n_channels ctx) (λ ch, for_up 0 A52_NUM_BLOCKS (λ blk mant_bits,
      bap ← get_bap frame blk ch;
      for_up 0 ncmin (λ nc, add_estimate bap nc) mant_bits)) (F_of_Z 0);
  (* add bins while estimated bits fit in the frame *)
  '(nc, _) ← for_break ncmin (ncmax + 1) (λ nc '(_, mant_bits),
    '(bits, mant_bits) ← for_up 0 (Ctx.n_channels ctx) (λ ch '(bits, mant_bits),
      set ← aget (Frame.expstr_set frame) ch;
      n ← aget2 expstr_set_bits set nc;
      mant_bits ← for_up 0 A52_NUM_BLOCKS (λ blk mant_bits,
        bap ← get_bap frame blk ch;
        add_estimate bap nc mant_bits) mant_bits;
      Some (bits + n, mant_bits)) (0, mant_bits);
    m ← F_to_int mant_bits;
    if bits + m >? avail_bits then Some (inl (nc, mant_bits))
    else Some (inr (nc + 1, mant_bits))) (ncmin, mant_bits);
  (* set frame bandwidth parameters *)
  let bw := CLIP (Z.quot (nc - 73) 3) 0 60 in
  let nc := bw * 3 + 73 in
  ncoefs ← for_up 0 (Ctx.n_channels ctx) (λ ch ncoefs, aset ncoefs ch nc) (Frame.ncoefs frame);
  Some (tctx <| TCtx.frame := frame <| Frame.bwcode := bw |> <| Frame.ncoefs := ncoefs |> |>).
End search.

(** * Mantissa sizes: specification *)

(** Bits of a mantissa that is not grouped. *)
Definition plain_bits (b : Z) : Z :=
  if b <=? 4 then 0 else if b <=? 13 then b - 1 else 14 + 2 * (b - 14).

Definition count_bap (v : Z) (bap : Z → Z) (n : Z) : Z := zsum (λ i, Z.b2z (bap i =? v)) n.

Lemma count_bap_range v bap n : 0 ≤ n → 0 ≤ count_bap v bap n ≤ n.
Proof.
  intros Hn. pose proof (zsum_bounds (λ i, Z.b2z (bap i =? v)) n 0 1 Hn).
  unfold count_bap. assert (∀ i, 0 ≤ i < n → 0 ≤ Z.b2z (bap i =? v) ≤ 1) by (intros; destruct (_ =? _); simpl; lia).
  specialize (H ltac:(done)). lia.
Qed.

Lemma compute_mantissa_size_spec cnt bap n :
  zlen cnt = 5 → 0 ≤ n ≤ zlen bap → (∀ i, 0 ≤ i < n → 0 ≤ bap.[i] ≤ 15) →
  wp (compute_mantissa_size cnt bap n) (λ '(cnt', bits), zlen cnt' = 5 ∧
    bits = zsum (λ i, plain_bits bap.[i]) n ∧
    ∀ v, 0 ≤ v < 5 → cnt'.[v] = cnt.[v] + count_bap v (λ i, bap.[i]) n).
Proof.
  intros Hc Hn Hb. unfold compute_mantissa_size, count_bap.
  apply (wp_for_up (λ k '(cnt', bits), zlen cnt' = 5 ∧ bits = zsum (λ i, plain_bits bap.[i]) k ∧
    ∀ v, 0 ≤ v < 5 → cnt'.[v] = cnt.[v] + zsum (λ i, Z.b2z (bap.[i] =? v)) k)).
  - lia.
  - split; [done|]. split; [done|]. intros v Hv. rewrite zsum_0. lia.
  - intros i [cnt' bits] Hi (Hl & -> & Hcnt). specialize (Hb i Hi).
    assert (Hother : bap.[i] > 4 → ∀ v, 0 ≤ v < 5 →
      cnt'.[v] = cnt.[v] + zsum (λ i, Z.b2z (bap.[i] =? v)) (i + 1)).
    { intros Hbig v Hv. rewrite zsum_succ, Hcnt by lia. replace (bap.[i] =? v) with false by lia. simpl. lia. }
    wp_step. wp_step. rewrite zsum_succ by lia.
    assert (Hp : plain_bits bap.[i] = if bap.[i] <=? 4 then 0 else if bap.[i] <=? 13 then bap.[i] - 1
      else 14 + 2 * (bap.[i] - 14)) by done.
    rewrite Hp. wp_step.
    + wp_steps. rewrite zlen_upd. split; [done|].
      split; [replace (bap.[i] <=? 4) with true by lia; lia|]. intros v Hv. rewrite zsum_succ, at_upd by lia. rewrite !Hcnt by lia. destruct (Z.eqb_spec v bap.[i]) as [-> |].
      * rewrite Z.eqb_refl. simpl. lia.
      * replace (bap.[i] =? v) with false by lia. simpl. lia.
    + replace (bap.[i] <=? 4) with false by lia.
      wp_step; apply wp_ret; (split; [done|]); (split; [|apply Hother; lia]).
      * by replace (bap.[i] <=? 13) with true by lia.
      * replace (bap.[i] <=? 13) with false by lia. rewrite Z.shiftl_mul_pow2 by lia. lia.
  - intros [cnt' bits] H. exact H.
Qed.

(** The grouped mantissas of a block. *)
Definition grouped_bits (c1 c2 c3 c4 : Z) : Z := 5 * (c1 / 3) + 7 * (c2 / 3 + c4 / 2) + 3 * c3.

Lemma compute_mantissa_size_final_spec cnt :
  zlen cnt = 5 → (∀ v, 0 ≤ v < 5 → 0 ≤ cnt.[v]) →
  compute_mantissa_size_final cnt = Some (grouped_bits cnt.[1] cnt.[2] cnt.[3] cnt.[4]).
Proof.
  intros Hl Hp. unfold compute_mantissa_size_final, grouped_bits.
  pose proof (Hp 1 ltac:(lia)). pose proof (Hp 2 ltac:(lia)).
  rewrite !aget_at by lia. simpl mbind. f_equal.
  rewrite !Z.quot_div_nonneg, Z.shiftr_div_pow2 by lia. change (2 ^ 1) with 2. lia.
Qed.

(** * Pointers of a frame *)

(** The block whose exponents, and so pointers, block [k] uses. *)
Fixpoint source_blk (blocks : list Block.t) (c : Z) (k : nat) : Z :=
  match k with
  | O => 0
  | S k' => if bstr blocks (Z.of_nat k) c =? EXP_REUSE then source_blk blocks c k' else Z.of_nat k
  end.

Definition snr_offset (snroffst : Z) : Z := 4 * snroffst - 960.

(** The pointer of a bin for an offset, from the masks and spectra. *)
Definition alloc_bap (blocks : list Block.t) (floor snroffst k c i : Z) : Z :=
  if snr_offset snroffst =? -960 then 0 else
  let b := blocks.[source_blk blocks c (Z.to_nat k)] in
  bap_of (Block.mask b).[c].[bin_to_band_tab.[i]] (Block.psd b).[c].[i] (snr_offset snroffst) floor.

Lemma alloc_bap_range blocks floor s k c i : 0 ≤ alloc_bap blocks floor s k c i ≤ 15.
Proof. unfold alloc_bap. destruct (_ =? _); [lia|apply bap_of_range]. Qed.

(** Mantissa bits of a block: [n] channels with pointers [bap c i]. *)
Definition block_plain (bap : Z → Z → Z) (ncoefs : list Z) (n : Z) : Z :=
  zsum (λ c, zsum (λ i, plain_bits (bap c i)) ncoefs.[c]) n.
Definition block_count (v : Z) (bap : Z → Z → Z) (ncoefs : list Z) (n : Z) : Z :=
  zsum (λ c, count_bap v (bap c) ncoefs.[c]) n.
Definition block_mant_bits (bap : Z → Z → Z) (ncoefs : list Z) (n : Z) : Z :=
  block_plain bap ncoefs n +
  grouped_bits (2 + block_count 1 bap ncoefs n) (2 + block_count 2 bap ncoefs n)
               (block_count 3 bap ncoefs n) (1 + block_count 4 bap ncoefs n).

Definition frame_mant_bits (bap : Z → Z → Z → Z) (ncoefs : list Z) (n : Z) : Z :=
  zsum (λ k, block_mant_bits (bap k) ncoefs n) 6.

Definition alloc_bits (n : Z) (ncoefs : list Z) (blocks : list Block.t) (floor snroffst : Z) : Z :=
  frame_mant_bits (alloc_bap blocks floor snroffst) ncoefs n.

Lemma block_count_nonneg v bap ncoefs n :
  0 ≤ n → (∀ c, 0 ≤ c < n → 0 ≤ ncoefs.[c]) → 0 ≤ block_count v bap ncoefs n.
Proof.
  intros Hn Hnc. unfold block_count.
  apply (zsum_ind (λ k, 0 ≤ zsum (λ c, count_bap v (bap c) ncoefs.[c]) k) n); [done|done|].
  intros k Hk IH. rewrite zsum_succ by lia.
  pose proof (count_bap_range v (bap k) ncoefs.[k] (Hnc k Hk)). lia.
Qed.

(** What the allocation reads. *)
Record alloc_ready `{Residue} (n : Z) (ncoefs : list Z) (blocks : list Block.t) : Prop := {
  ar_n : 0 ≤ n ≤ 6;
  ar_wf : blocks_wf blocks;
  ar_nlen : zlen ncoefs = 6;
  ar_ncoefs : ∀ c, 0 ≤ c < n → ncoefs_ok ncoefs.[c];
  ar_str0 : ∀ c, 0 ≤ c < n → bstr blocks 0 c ≠ EXP_REUSE;
  ar_residue : ∀ c, 0 ≤ c < n → residue_readable ncoefs.[c]
}.

Definition same_but_bap (b b' : Block.t) : Prop := b' = b <| Block.bap := Block.bap b' |>.

Lemma source_blk_new blocks c k :
  0 ≤ k → k = 0 ∨ bstr blocks k c ≠ EXP_REUSE → source_blk blocks c (Z.to_nat k) = k.
Proof.
  intros Hk Hor. destruct (Z.eq_dec k 0) as [-> |]; [done|].
  replace (Z.to_nat k) with (S (Z.to_nat (k - 1))) by lia. cbn [source_blk].
  replace (Z.of_nat (S (Z.to_nat (k - 1)))) with k by lia.
  destruct Hor as [|Hne]; [lia|]. by rewrite (proj2 (Z.eqb_neq _ _) Hne).
Qed.

Lemma alloc_bap_reuse blocks floor s k c i :
  0 < k → bstr blocks k c = EXP_REUSE →
  alloc_bap blocks floor s k c i = alloc_bap blocks floor s (k - 1) c i.
Proof.
  intros Hk Hre. unfold alloc_bap. replace (Z.to_nat k) with (S (Z.to_nat (k - 1))) by lia.
  cbn [source_blk]. replace (Z.of_nat (S (Z.to_nat (k - 1)))) with k by lia. by rewrite Hre.
Qed.

Section allocate.
Context `{R : Residue} {ROk : ResidueOk R}.
Variables (n : Z) (ncoefs : list Z) (B : list Block.t) (floor s : Z).
Hypothesis Hready : alloc_ready n ncoefs B.

(** Block [b] has the pointers of block [k] for the channels below [m]. *)
Definition baps_done (k m : Z) (b : Block.t) : Prop :=
  ∀ c i, 0 ≤ c < m → 0 ≤ i < ncoefs.[c] → (Block.bap b).[c].[i] = alloc_bap B floor s k c i.

Lemma calc_bap_row b k c :
  block_wf b → same_but_bap B.[k] b → 0 ≤ k < 6 → 0 ≤ c < n → k = 0 ∨ bstr B k c ≠ EXP_REUSE →
  wp (a52_bit_alloc_calc_bap (Block.mask b).[c] (Block.psd b).[c] 0 ncoefs.[c] (Z.shiftl s 2 - 960)
        floor (Block.bap b).[c])
     (λ new, zlen new = 256 ∧ ∀ i, 0 ≤ i < ncoefs.[c] → new.[i] = alloc_bap B floor s k c i).
Proof.
  intros Hb Hsame Hk Hc Hor. destruct Hready as [Hn Hwf Hnl Hnc Hs0 Hres].
  pose proof (ncoefs_ok_range _ (Hnc c Hc)). destruct Hb.
  pose proof (dim2_row 6 50 _ c wf_mask ltac:(lia)). pose proof (dim2_row 6 256 _ c wf_psd ltac:(lia)).
  pose proof (dim2_row 6 256 _ c wf_bap ltac:(lia)).
  replace (Z.shiftl s 2 - 960) with (snr_offset s) by (unfold snr_offset; rewrite Z.shiftl_mul_pow2; lia).
  destruct (Z.eqb_spec (snr_offset s) (-960)) as [Heq|Hne].
  - unfold a52_bit_alloc_calc_bap. rewrite Heq, Z.eqb_refl. rewrite memset_in by lia.
    apply wp_ret. assert (zlen (replicate (Z.to_nat 256) 0) = 256) as Hz by done.
    rewrite zlen_splice by lia. split; [lia|]. intros i Hi. rewrite at_splice by lia. rewrite Hz.
    replace ((0 <=? i) && (i <? 0 + 256)) with true by lia.
    unfold alloc_bap. rewrite Heq, Z.eqb_refl. apply at_replicate. lia.
  - eapply wp_mono; [apply (a52_bit_alloc_calc_bap_run _ _ _ 0 ncoefs.[c]); try lia; by apply Hres|].
    intros new [Hl Hat]. split; [lia|]. intros i Hi. rewrite Hat by lia.
    replace ((0 <=? i) && (i <? ncoefs.[c])) with true by lia. unfold alloc_bap.
    rewrite (proj2 (Z.eqb_neq _ _) Hne), source_blk_new by (done || lia). by rewrite Hsame.
Qed.

Lemma bit_alloc_block frame k mant0 bits0 :
  Frame.ncoefs frame = ncoefs → BitAllocParams.floor_ (Frame.bit_alloc frame) = floor →
  0 ≤ k < 6 → blocks_wf (Frame.blocks frame) → same_but_bap B.[k] (Frame.blocks frame).[k] →
  (0 < k → baps_done (k - 1) n (Frame.blocks frame).[k - 1]) → zlen mant0 = 5 →
  wp (for_up 0 n (λ ch '(b, mant_cnt, bits),
        es ← aget (Block.exp_strategy b) ch;
        old ← aget (Block.bap b) ch;
        nc ← aget (Frame.ncoefs frame) ch;
        new ← (if es =? EXP_REUSE then
                 prev ← aget (Frame.blocks frame) (k - 1);
                 src ← aget (Block.bap prev) ch;
                 memcpy old 0 src 0 256
               else
                 m ← aget (Block.mask b) ch;
                 p ← aget (Block.psd b) ch;
                 a52_bit_alloc_calc_bap m p 0 nc (Z.shiftl s 2 - 960)
                   (BitAllocParams.floor_ (Frame.bit_alloc frame)) old);
        bap ← aset (Block.bap b) ch new;
        '(mant_cnt, n) ← compute_mantissa_size mant_cnt new nc;
        Some (b <| Block.bap := bap |>, mant_cnt, bits + n)) ((Frame.blocks frame).[k], mant0, bits0))
    (λ '(b, cnt, bits), block_wf b ∧ same_but_bap B.[k] b ∧ baps_done k n b ∧ zlen cnt = 5 ∧
       bits = bits0 + block_plain (alloc_bap B floor s k) ncoefs n ∧
       ∀ v, 0 ≤ v < 5 → cnt.[v] = mant0.[v] + block_count v (alloc_bap B floor s k) ncoefs n).
Proof.
  intros Hfn Hff Hk Hw Hsame Hprev Hm0. destruct Hready as [Hn Hwf Hnl Hnc Hs0 Hres].
  rewrite Hfn, Hff. pose proof Hw as [Hl Hb].
  apply (wp_for_up (λ m '(b, cnt, bits), block_wf b ∧ same_but_bap B.[k] b ∧ baps_done k m b ∧ zlen cnt = 5 ∧
       bits = bits0 + block_plain (alloc_bap B floor s k) ncoefs m ∧
       ∀ v, 0 ≤ v < 5 → cnt.[v] = mant0.[v] + block_count v (alloc_bap B floor s k) ncoefs m)).
  - lia.
  - split; [by apply Hb|]. split; [done|]. split; [intros c i Hc; lia|]. split; [done|].
    unfold block_plain, block_count. split; [rewrite zsum_0; lia|]. intros v Hv. rewrite zsum_0. lia.
  - intros c [[b cnt] bits] Hc (Hbw & Hsb & Hd & Hlc & -> & Hcnt).
    pose proof (ncoefs_ok_range _ (Hnc c Hc)). pose proof Hbw as []. pose proof wf_bap as [? Hrow].
    pose proof (Hrow c ltac:(lia)). pose proof wf_mask as [? _]. pose proof wf_psd as [? _].
    assert (Hes : (Block.exp_strategy b).[c] = bstr B k c) by (unfold bstr; by rewrite Hsb).
    do 7 wp_step. apply (wp_mono _ (λ new, zlen new = 256 ∧
      ∀ i, 0 ≤ i < ncoefs.[c] → new.[i] = alloc_bap B floor s k c i)).
    { rewrite Hes. wp_step.
      - assert (Hre : bstr B k c = EXP_REUSE) by lia. assert (0 < k) by (destruct (Z.eq_dec k 0) as [-> |];
          [by specialize (Hs0 c Hc)|lia]).
        pose proof (Hb (k - 1) ltac:(lia)) as []. pose proof wf_bap0 as [? Hrow']. pose proof (Hrow' c ltac:(lia)).
        do 4 wp_step. rewrite memcpy_in by lia. apply wp_ret.
        assert (Hsl : zlen (slice (Block.bap (Frame.blocks frame).[k - 1]).[c] 0 256) = 256) by (apply zlen_slice; lia).
        rewrite zlen_splice by lia. split; [lia|]. intros i Hi. rewrite at_splice, Hsl by lia.
        replace ((0 <=? i) && (i <? 0 + 256)) with true by lia. rewrite at_slice by lia.
        rewrite alloc_bap_reuse by done. replace (0 + (i - 0)) with i by lia. apply Hprev; lia.
      - wp_steps. apply calc_bap_row; try done. right. lia. }
    intros new [Hln Hnew]. wp_step. wp_step. wp_step. eapply wp_mono.
    { apply (compute_mantissa_size_spec cnt new ncoefs.[c]); [done|lia|].
      intros i Hi. rewrite Hnew by done. apply alloc_bap_range. }
    intros [cnt' bits'] (Hlc' & -> & Hcnt'). apply wp_ret.
    split; [split; simpl; try done; by apply dim2_upd; [|lia|]|].
    split; [by rewrite Hsb|]. split; [|split; [done|split]].
    + intros c' i Hc' Hi. simpl. rewrite at_upd by lia. destruct (Z.eqb_spec c' c) as [-> |]; [by apply Hnew|].
      apply Hd; [lia|done].
    + unfold block_plain. rewrite zsum_succ by lia.
      rewrite (zsum_ext _ (λ i, plain_bits (alloc_bap B floor s k c i)) ncoefs.[c]) by (intros; by rewrite Hnew).
      lia.
    + intros v Hv. rewrite Hcnt', Hcnt by done. unfold block_count. rewrite zsum_succ by lia.
      assert (Hcb : count_bap v (λ i, new.[i]) ncoefs.[c] = count_bap v (alloc_bap B floor s k c) ncoefs.[c])
        by (apply zsum_ext; intros; by rewrite Hnew).
      lia.
  - done.
Qed.
(** A frame that differs from [frame0], with blocks [B], in its pointers. *)
Definition like_frame (frame0 frame : Frame.t) : Prop :=
  ∃ blocks, frame = frame0 <| Frame.blocks := blocks |> ∧ blocks_wf blocks ∧
    ∀ k, 0 ≤ k < 6 → same_but_bap B.[k] blocks.[k].

Definition allocated (frame0 frame : Frame.t) : Prop :=
  like_frame frame0 frame ∧ ∀ k, 0 ≤ k < 6 → baps_done k n (Frame.blocks frame).[k].

Lemma bit_alloc_spec ctx frame0 frame :
  Ctx.n_all_channels ctx = n → Frame.ncoefs frame0 = ncoefs →
  BitAllocParams.floor_ (Frame.bit_alloc frame0) = floor → like_frame frame0 frame →
  wp (bit_alloc ctx frame s) (λ '(frame', bits),
    allocated frame0 frame' ∧ bits = alloc_bits n ncoefs B floor s).
Proof.
  intros Hcn Hfn Hff (b0 & -> & Hw0 & Hs0). unfold bit_alloc, A52_NUM_BLOCKS. rewrite Hcn.
  apply (wp_for_up (λ k '(f, bits), ∃ blocks, f = frame0 <| Frame.blocks := blocks |> ∧ blocks_wf blocks ∧
    (∀ j, 0 ≤ j < 6 → same_but_bap B.[j] blocks.[j]) ∧ (∀ j, 0 ≤ j < k → baps_done j n blocks.[j]) ∧
    bits = zsum (λ j, block_mant_bits (alloc_bap B floor s j) ncoefs n) k)).
  - lia.
  - exists b0. split; [done|]. split; [done|]. split; [done|]. split; [lia|done].
  - intros k [f bits] Hk (blocks & -> & Hw & Hsame & Hd & ->). cbv zeta. apply wp_bind.
    apply wp_with_block; [done|done|]. apply wp_bind. cbv beta iota. eapply wp_mono.
    { apply (bit_alloc_block (frame0 <| Frame.blocks := blocks |>)); try done.
      - by apply Hsame.
      - intros Hk0. apply Hd. lia. }
    intros [[b cnt] bits] (Hb & Hsb & Hdb & Hlc & -> & Hcnt). apply wp_ret. cbv beta iota.
    destruct Hready as [Hn Hwf Hnl Hnc _ _].
    assert (Hpos : ∀ v, 0 ≤ block_count v (alloc_bap B floor s k) ncoefs n).
    { intros v. apply block_count_nonneg; [lia|]. intros c Hc. pose proof (ncoefs_ok_range _ (Hnc c Hc)). lia. }
    assert (Hm0 : [0; 2; 2; 0; 1].[0] = 0 ∧ [0; 2; 2; 0; 1].[1] = 2 ∧ [0; 2; 2; 0; 1].[2] = 2 ∧
      [0; 2; 2; 0; 1].[3] = 0 ∧ [0; 2; 2; 0; 1].[4] = 1) by done.
    rewrite compute_mantissa_size_final_spec.
    2: done.
    2: { intros v Hv. rewrite Hcnt by done. specialize (Hpos v).
         assert (v = 0 ∨ v = 1 ∨ v = 2 ∨ v = 3 ∨ v = 4) as [-> |[-> |[-> |[-> | ->]]]] by lia; lia. }
    rewrite !Hcnt by lia. simpl mbind. destruct Hm0 as (_ & -> & -> & -> & ->). apply wp_ret. pose proof Hw as [Hl _].
    exists (upd blocks k b). split; [done|]. split; [by apply blocks_wf_upd|]. split; [|split].
    + intros j Hj. rewrite at_upd by lia. destruct (Z.eqb_spec j k) as [-> |]; [done|by apply Hsame].
    + intros j Hj. rewrite at_upd by lia. destruct (Z.eqb_spec j k) as [-> |]; [done|apply Hd; lia].
    + rewrite zsum_succ by lia. unfold block_mant_bits at 3. rewrite Z.add_0_l. lia.
  - intros [f bits] (blocks & -> & Hw & Hsame & Hd & ->). split; [|done].
    split; [|done]. by exists blocks.
Qed.

Lemma leftover_at_spec ctx avail frame0 frame :
  Ctx.n_all_channels ctx = n → Frame.ncoefs frame0 = ncoefs →
  BitAllocParams.floor_ (Frame.bit_alloc frame0) = floor → like_frame frame0 frame →
  wp (leftover_at ctx avail frame s) (λ '(frame', l),
    allocated frame0 frame' ∧ l = avail - alloc_bits n ncoefs B floor s).
Proof.
  intros H1 H2 H3 H4. unfold leftover_at. apply wp_bind.
  eapply wp_mono; [by apply (bit_alloc_spec ctx frame0)|]. intros [f bits] [Ha ->]. by apply wp_ret.
Qed.
End allocate.

(** * The search: specification *)

(** No mantissa bits at offset 0. *)
Lemma alloc_bits_0 n ncoefs B floor :
  0 ≤ n → (∀ c, 0 ≤ c < n → 0 ≤ ncoefs.[c]) → alloc_bits n ncoefs B floor 0 = 0.
Proof.
  intros Hn Hnc. apply zsum_zero. intros k Hk. unfold block_mant_bits.
  assert (Hp : block_plain (alloc_bap B floor 0 k) ncoefs n = 0).
  { apply zsum_zero. intros c Hc. by apply zsum_zero. }
  assert (Hc : ∀ v, 1 ≤ v → block_count v (alloc_bap B floor 0 k) ncoefs n = 0).
  { intros v Hv. apply zsum_zero. intros c Hc. apply zsum_zero. intros i Hi.
    change (alloc_bap B floor 0 k c i) with 0. by replace (0 =? v) with false by lia. }
  by rewrite Hp, !Hc by lia.
Qed.

Section search_spec.
Context `{R : Residue} {ROk : ResidueOk R}.
Variables (ctx : Ctx.t) (frame0 : Frame.t) (avail : Z).
#[local] Abbreviation n := (Ctx.n_all_channels ctx).
#[local] Abbreviation floor0 := (BitAllocParams.floor_ (Frame.bit_alloc frame0)).
#[local] Abbreviation B := (Frame.blocks frame0).
Hypothesis Hready : alloc_ready n (Frame.ncoefs frame0) B.

Definition offset_bits (s : Z) : Z := alloc_bits n (Frame.ncoefs frame0) B floor0 s.
Definition left (s : Z) : Z := avail - offset_bits s.

(** The frame is allocated for offset [s] and [l] bits are left. *)
Definition at_offset (frame : Frame.t) (s l : Z) : Prop :=
  allocated n (Frame.ncoefs frame0) B floor0 s frame0 frame ∧ l = left s.

Lemma try_offset frame s0 l0 s (Q : Frame.t * Z → Prop) :
  at_offset frame s0 l0 → (∀ f, at_offset f s (left s) → Q (f, left s)) →
  wp (leftover_at ctx avail frame s) Q.
Proof.
  intros [[Hlike _] _] HQ. eapply wp_mono; [by apply (leftover_at_spec n (Frame.ncoefs frame0) B floor0 s Hready ctx avail frame0)|].
  intros [f l] [Ha ->]. by apply HQ.
Qed.

(** *** The fast search

    From [s0] in steps of 16.  Upwards while bits are left, and up to 1023: the
    last offset with bits left before one without; but the offset before the
    last step when the steps end at the top, and [s0] itself if there is no room
    for a step.  Downwards while bits are missing, and down to 0. *)
Inductive fast_found (s0 : Z) : Z → Prop :=
  | fast_exact : left s0 = 0 → fast_found s0 s0
  | fast_up k s : 0 ≤ k → s = s0 + 16 * k → (∀ i, 0 ≤ i ≤ k → 0 < left (s0 + 16 * i)) →
      (s + 16 ≤ 1023 ∧ (left (s + 16) ≤ 0 ∨ 1023 < s + 32)) ∨ (k = 0 ∧ 1023 < s + 16) → fast_found s0 s
  | fast_down k s : 0 ≤ k → s = s0 - 16 * k → left s0 < 0 → (∀ i, 0 ≤ i < k → left (s0 - 16 * i) < 0) → 0 ≤ s →
      0 ≤ left s ∨ s < 16 → fast_found s0 s.

(** The state of the upward loop and what it leaves. *)
Definition rising (s0 snr0 snr1 : Z) : Prop :=
  ∃ k, 0 ≤ k ∧ snr1 = s0 + 16 * k ∧ snr0 = (if k =? 0 then s0 else snr1 - 16) ∧ (k = 0 ∨ snr1 ≤ 1023) ∧
    ∀ i, 0 ≤ i < k ∨ i = 0 → 0 < left (s0 + 16 * i).

Lemma rising_start s0 : 0 < left s0 → rising s0 s0 s0.
Proof. intros Hl. exists 0. rewrite Z.mul_0_r, Z.add_0_r. split_and!; try done; [by left|]. intros i Hi. by replace (s0 + 16 * i) with s0 by lia. Qed.

Lemma rising_step s0 snr0 snr1 : rising s0 snr0 snr1 → 0 < left snr1 → snr1 + 16 ≤ 1023 → rising s0 snr1 (snr1 + 16).
Proof.
  intros (k & Hk & -> & _ & _ & Hl) Hp Hb. exists (k + 1). replace (k + 1 =? 0) with false by lia.
  split; [lia|]. split; [lia|]. split; [lia|]. split; [lia|]. intros i Hi. destruct (Z.eq_dec i k) as [-> |]; [done|]. apply Hl. lia.
Qed.

Lemma rising_found s0 snr0 snr1 :
  rising s0 snr0 snr1 → (left snr1 ≤ 0 ∨ 1023 < snr1 + 16) → fast_found s0 snr0.
Proof.
  intros (k & Hk & -> & -> & Hb & Hl) Hend. destruct (Z.eqb_spec k 0) as [-> |Hne].
  - apply (fast_up s0 0); [lia|lia|intros i Hi; apply Hl; lia|]. specialize (Hl 0 ltac:(lia)).
    rewrite Z.mul_0_r, Z.add_0_r in *. right. lia.
  - apply (fast_up s0 (k - 1)); [lia|lia|intros i Hi; apply Hl; lia|]. left.
    replace (s0 + 16 * k - 16 + 16) with (s0 + 16 * k) by lia. split; [lia|]. destruct Hend; [by left|right; lia].
Qed.

(** The state of the downward loop and what it leaves. *)
Definition falling (s0 snr0 snr1 : Z) : Prop :=
  ∃ k, 0 ≤ k ∧ snr0 = s0 - 16 * k ∧ snr1 = (if k =? 0 then s0 else snr0 + 16) ∧ 0 ≤ snr0 ∧ left s0 < 0 ∧
    ∀ i, 0 ≤ i < k → left (s0 - 16 * i) < 0.

Lemma falling_start s0 : left s0 < 0 → 0 ≤ s0 → falling s0 s0 s0.
Proof. intros Hl H0. exists 0. rewrite Z.mul_0_r, Z.sub_0_r. split_and!; try done. lia. Qed.

Lemma falling_step s0 snr0 snr1 : falling s0 snr0 snr1 → left snr0 < 0 → 0 ≤ snr0 - 16 → falling s0 (snr0 - 16) snr0.
Proof.
  intros (k & Hk & -> & _ & _ & H0 & Hl) Hp Hb. exists (k + 1). replace (k + 1 =? 0) with false by lia.
  split; [lia|]. split; [lia|]. split; [lia|]. split; [lia|]. split; [done|].
  intros i Hi. destruct (Z.eq_dec i k) as [-> |]; [done|]. apply Hl. lia.
Qed.

Lemma falling_found s0 snr0 snr1 : falling s0 snr0 snr1 → (0 ≤ left snr0 ∨ snr0 < 16) → fast_found s0 snr0.
Proof. intros (k & Hk & -> & _ & Hb & H0 & Hl) Hend. by apply (fast_down s0 k). Qed.

Lemma fast_found_range s0 s : 0 ≤ s0 → fast_found s0 s → 0 ≤ s ≤ Z.max 1023 s0.
Proof. intros H0 Hf. destruct Hf as [|k s Hk -> Hl Hend|k s Hk -> H Hl Hs Hend]; lia. Qed.

(** The two loops: their last offsets, and the frame at one of them. *)
Lemma fast_loops_spec frame s0 l0 (Q : Frame.t * Z * Z → Prop) :
  at_offset frame s0 l0 → 0 ≤ s0 < 1040 →
  (∀ f snr0 snr1 s l, fast_found s0 snr0 → at_offset f s l → (snr0 = snr1 → s = snr0 ∧ snr0 = s0) → Q (f, snr0, snr1)) →
  wp (if negb (l0 =? 0) then
       if l0 >? 0 then
         '(frame, snr0, snr1, _) ← while_loop 65
           (λ '(_, _, snr1, leftover1), (leftover1 >? 0) && (snr1 + 16 <=? 1023))
           (λ '(frame, _, snr1, _),
             let snr0 := snr1 in
             let snr1 := snr1 + 16 in
             '(frame, leftover1) ← leftover_at ctx avail frame snr1;
             Some (frame, snr0, snr1, leftover1)) (frame, s0, s0, l0);
         Some (frame, snr0, snr1)
       else
         '(frame, snr0, snr1, _) ← while_loop 65
           (λ '(_, snr0, _, leftover0), (leftover0 <? 0) && (snr0 - 16 >=? 0))
           (λ '(frame, snr0, _, _),
             let snr1 := snr0 in
             let snr0 := snr0 - 16 in
             '(frame, leftover0) ← leftover_at ctx avail frame snr0;
             Some (frame, snr0, snr1, leftover0)) (frame, s0, s0, l0);
         Some (frame, snr0, snr1)
     else Some (frame, s0, s0)) Q.
Proof.
  intros Hat Hs0 HQ. pose proof Hat as [_ Hl0]. wp_step; [wp_step|].
  - apply wp_bind.
    apply (wp_while (λ '(f, snr0, snr1, l1), at_offset f snr1 l1 ∧ rising s0 snr0 snr1 ∧ snr1 < 1040)
      (λ '(_, _, snr1, _), Z.to_nat ((1039 - snr1) / 16))).
    + split; [done|]. split; [|lia]. apply rising_start. lia.
    + assert ((1039 - s0) / 16 < 65) by (apply Z.div_lt_upper_bound; lia). lia.
    + intros [[[f snr0] snr1] l1] ([Ha ->] & Hr & Hb) Hc. cbv zeta. apply wp_bind. eapply try_offset; [by split|]. intros f' Ha'. apply wp_ret.
      assert ((1039 - (snr1 + 16)) / 16 = (1039 - snr1) / 16 - 1).
      { replace (1039 - (snr1 + 16)) with (1039 - snr1 + (-1) * 16) by lia. rewrite Z.div_add by lia. lia. }
      assert (1 ≤ (1039 - snr1) / 16) by (apply Z.div_le_lower_bound; lia).
      split; [|lia]. split; [done|]. split; [apply (rising_step s0 snr0); [done|lia..]|lia].
    + intros [[[f snr0] snr1] l1] ([Ha ->] & Hr & Hb) Hc. apply wp_ret. apply (HQ f snr0 snr1 snr1 (left snr1)); [|done|].
      * apply (rising_found s0 snr0 snr1); [done|lia].
      * intros <-. split; [done|]. destruct Hr as (k & _ & -> & He & _). destruct (k =? 0); lia.
  - apply wp_bind.
    apply (wp_while (λ '(f, snr0, snr1, l), at_offset f snr0 l ∧ falling s0 snr0 snr1) (λ '(_, snr0, _, _), Z.to_nat (snr0 / 16))).
    + split; [done|]. apply falling_start; lia.
    + assert (s0 / 16 < 65) by (apply Z.div_lt_upper_bound; lia). lia.
    + intros [[[f snr0] snr1] l] ([Ha ->] & Hf) Hc. cbv zeta. apply wp_bind. eapply try_offset; [by split|]. intros f' Ha'. apply wp_ret.
      assert ((snr0 - 16) / 16 = snr0 / 16 - 1).
      { replace (snr0 - 16) with (snr0 + (-1) * 16) by lia. rewrite Z.div_add by lia. lia. }
      assert (1 ≤ snr0 / 16) by (apply Z.div_le_lower_bound; lia).
      split; [|lia]. split; [done|]. apply (falling_step s0 snr0 snr1); [done|lia..].
    + intros [[[f snr0] snr1] l] ([Ha ->] & Hf) Hc. apply wp_ret. apply (HQ f snr0 snr1 snr0 (left snr0)); [|done|].
      * apply (falling_found s0 snr0 snr1); [done|lia].
      * intros <-. split; [done|]. destruct Hf as (k & _ & -> & He & _). destruct (k =? 0); lia.
  - apply wp_ret. apply (HQ frame s0 s0 s0 l0); [|done|done]. apply fast_exact. lia.
Qed.

Lemma cbr_search_fast_spec frame s0 l0 :
  at_offset frame s0 l0 → 0 ≤ s0 < 1040 →
  wp (cbr_search_fast ctx avail frame s0 l0) (λ '(f, s, l), at_offset f s l ∧ fast_found s0 s).
Proof.
  intros Hat Hs0. pose proof Hat as [_ Hl0]. unfold cbr_search_fast. apply wp_bind.
  apply (fast_loops_spec frame s0 l0); [done|done|]. intros f snr0 snr1 s l Hfound Ha Heq. wp_step.
  - apply wp_bind. eapply try_offset; [exact Ha|]. intros f' Ha'. by apply wp_ret.
  - destruct (Heq ltac:(lia)) as [-> ->]. apply wp_ret. split; [|done]. destruct Ha as [Ha _]. by split.
Qed.

(** *** The slow search *)

(** A jump by the estimated distance from the optimum. *)
Definition jump (test : Z → bool) (k s : Z) : Z :=
  if test (left s) then s + Z.quot (left s) (k * Ctx.n_channels ctx) else s.
Definition jumped (s0 : Z) : Z :=
  jump (λ l, l <? -200) 40 (jump (λ l, l >? 400) 24 (jump (λ l, l <? -400) 16 s0)).

(** The top of the search: the first of the steps from [s] on at which a
    hundred bits or more are missing, or 1023 if the steps get there before. *)
Definition topped (s t : Z) : Prop :=
  ∃ k, 0 ≤ k ∧ (∀ i, 0 ≤ i < k → -100 < left (s + i * Z.quot 10 (Ctx.n_channels ctx))) ∧
    ((t = s + k * Z.quot 10 (Ctx.n_channels ctx) ∧ left t ≤ -100) ∨
     (t = 1023 ∧ 0 < k ∧ 1023 < s + k * Z.quot 10 (Ctx.n_channels ctx))).

(** The greatest offset from the top down to 0 whose data fits; the last one
    looked at if there is none. *)
Definition slow_found (s0 s : Z) : Prop :=
  ∃ t, topped (jumped s0) t ∧ s ≤ t ∧ (∀ u, s < u ≤ t → left u < 0) ∧ (0 ≤ left s ∨ s ≤ 0) ∧ (s = t ∨ 0 ≤ s).

Lemma cbr_jump_spec test k frame s l :
  at_offset frame s l →
  wp (cbr_jump ctx avail test k (frame, s, l)) (λ '(f, s', l'), s' = jump test k s ∧ at_offset f s' l').
Proof.
  intros Hat. pose proof Hat as [_ ->]. unfold cbr_jump, jump. destruct (test (left s)).
  - cbv zeta. apply wp_bind. eapply try_offset; [exact Hat|]. intros f Ha. by apply wp_ret.
  - by apply wp_ret.
Qed.

(** Above 1023, the offset does not matter. *)
Definition saturated : Prop := ∀ s, 1023 ≤ s → offset_bits s = offset_bits 1023.

Lemma climb_spec frame s0 l0 :
  1 ≤ Ctx.n_channels ctx ≤ 5 → at_offset frame s0 l0 →
  wp (while_loop (S (Z.to_nat (1025 - s0)))
    (λ '(_, _, leftover, break), (leftover >? -100) && negb break)
    (λ '(frame, snroffst, _, _),
      let snroffst := snroffst + Z.quot 10 (Ctx.n_channels ctx) in
      if snroffst >? 1023 then
        '(frame, leftover) ← leftover_at ctx avail frame 1023;
        Some (frame, 1023, leftover, true)
      else
        '(frame, leftover) ← leftover_at ctx avail frame snroffst;
        Some (frame, snroffst, leftover, false)) (frame, s0, l0, false))
    (λ '(f, t, l, _), at_offset f t l ∧ topped s0 t).
Proof.
  intros Hn Hat. assert (Hq : 2 ≤ Z.quot 10 (Ctx.n_channels ctx)).
  { rewrite Z.quot_div_nonneg by lia. apply Z.div_le_lower_bound; lia. }
  set (d := Z.quot 10 (Ctx.n_channels ctx)) in *.
  apply (wp_while (λ '(f, s, l, break), at_offset f s l ∧ if break : bool then topped s0 s else
      ∃ k, 0 ≤ k ∧ s = s0 + k * d ∧ ∀ i, 0 ≤ i < k → -100 < left (s0 + i * d))
    (λ '(_, s, _, break), if break : bool then 0%nat else S (Z.to_nat (1025 - s)))).
  - split; [done|]. exists 0. split; [lia|]. split; [lia|]. lia.
  - lia.
  - intros [[[f s] l] break] [Ha Hb] Hc. cbv zeta. destruct break; [by rewrite andb_false_r in Hc|].
    destruct Hb as (k & Hk & Hs & Hl). pose proof Ha as [_ Hla].
    assert (Hl' : ∀ i, 0 ≤ i < k + 1 → -100 < left (s0 + i * d)).
    { intros i Hi. destruct (Z.eq_dec i k) as [-> |]; [rewrite <- Hs; lia|]. apply Hl. lia. }
    destruct (_ >? 1023) eqn:Hbig; apply wp_bind; (eapply try_offset; [exact Ha|]); intros f' Ha'; apply wp_ret.
    + split; [|lia]. split; [done|]. exists (k + 1). split; [lia|]. split; [done|]. right. fold d. lia.
    + split; [|lia]. split; [done|]. exists (k + 1). split; [lia|]. split; [lia|done].
  - intros [[[f s] l] break] [Ha Hb] Hc. split; [done|]. destruct break; [done|]. destruct Hb as (k & Hk & Hs & Hl).
    exists k. split; [done|]. split; [done|]. left. split; [done|]. destruct Ha as [_ ->]. rewrite andb_true_r in Hc. lia.
Qed.

Lemma cbr_search_slow_spec frame s0 l0 :
  1 ≤ Ctx.n_channels ctx ≤ 5 → at_offset frame s0 l0 →
  wp (cbr_search_slow ctx avail frame s0 l0) (λ '(f, s, l), at_offset f s l ∧ slow_found s0 s).
Proof.
  intros Hn Hat. unfold cbr_search_slow.
  apply wp_bind. eapply wp_mono; [by apply cbr_jump_spec|]. intros [[f1 s1] l1] [-> Ha1].
  apply wp_bind. eapply wp_mono; [by apply cbr_jump_spec|]. intros [[f2 s2] l2] [-> Ha2].
  apply wp_bind. eapply wp_mono; [by apply cbr_jump_spec|]. intros [[f3 s3] l3] [-> Ha3]. fold (jumped s0) in *.
  apply wp_bind. eapply wp_mono; [by apply climb_spec|]. intros [[[f t] l] break] [Ha Ht].
  apply (wp_while (λ '(f', s', l'), at_offset f' s' l' ∧ s' ≤ t ∧ (s' = t ∨ 0 ≤ s') ∧ ∀ u, s' < u ≤ t → left u < 0)
    (λ '(_, s', _), Z.to_nat s')).
  - split; [done|]. split; [lia|]. split; [by left|]. lia.
  - lia.
  - intros [[f' s'] l'] (Ha' & Hle & Hor & Hu) Hc. cbv zeta. apply wp_bind.
    eapply try_offset; [exact Ha'|]. intros f2' Ha2'. apply wp_ret. split; [|lia]. destruct Ha' as [_ ->].
    split; [done|]. split; [lia|]. split; [lia|]. intros u Hur. destruct (Z.eq_dec u s') as [-> |]; [lia|]. apply Hu. lia.
  - intros [[f' s'] l'] (Ha' & Hle & Hor & Hu) Hc. split; [done|]. destruct Ha' as [_ ->]. exists t. split; [done|].
    split; [done|]. split; [done|]. split; [lia|done].
Qed.

Lemma slow_found_range s0 s : slow_found s0 s → 0 ≤ left s → 0 ≤ s ∧ (saturated → s ≤ 1023).
Proof.
  intros (t & (k & Hk & _ & Ht) & Hle & Hu & _ & Hor) Hl. split.
  - destruct Hor as [-> |]; [|done]. destruct Ht as [[_ ?]|[-> _]]; lia.
  - intros Hsat. destruct (Z.leb_spec s 1023); [done|]. exfalso. destruct (Z.eq_dec s t) as [-> |Hne]; [lia|].
    specialize (Hu t ltac:(lia)). unfold left in *. rewrite (Hsat s), (Hsat t) in * by lia. lia.
Qed.
End search_spec.

(** * Preparation: specification *)

Section prepare.
Context `{R : Residue} {ROk : ResidueOk R}.

Lemma a52_bit_allocation_prepare_spec s exp_ psd mask fgain nc :
  bit_alloc_params_ok s → 128 ≤ fgain ≤ 1024 → ncoefs_ok nc →
  zlen exp_ = 256 → zlen psd = 256 → zlen mask = 50 → (∀ i, 0 ≤ i < nc → 0 ≤ exp_.[i] ≤ 24) →
  wp (a52_bit_allocation_prepare s exp_ psd mask fgain 0 nc) (λ '(psd', mask'),
    zlen psd' = 256 ∧ zlen mask' = 50 ∧ (∀ i, 0 ≤ i < nc → psd'.[i] = psd_of exp_.[i]) ∧
    ∀ i, 0 ≤ i < nc → mask_floor s bin_to_band_tab.[i] ≤ mask'.[bin_to_band_tab.[i]] ≤ 5120).
Proof.
  intros Hs Hg Hnc Hle Hlp Hlm Hexp. pose proof (ncoefs_ok_range nc Hnc).
  unfold a52_bit_allocation_prepare. apply wp_bind. eapply wp_mono.
  { apply (a52_bit_alloc_calc_psd_spec exp_ 0 nc psd stack_bndpsd); try lia; [|done].
    rewrite stack_bndpsd_len. lia. }
  intros [psd' bnd] (Hl1 & Hl2 & Hpsd & Hbnd & _). rewrite stack_bndpsd_len in Hl2.
  pose proof (bin_to_band_in (nc - 1) ltac:(lia)) as [Hbe Hin].
  assert (Ht : ∀ b, 0 ≤ b < bin_to_band_tab.[nc - 1] + 1 → band_touched 0 nc b).
  { intros b Hb. change (bin_to_band_tab.[0]) with 0. split; [change (bin_to_band_tab.[0]) with 0; lia|].
    assert (Hb' : 0 ≤ b ≤ bin_to_band_tab.[nc - 1]) by lia. pose proof (band_start_mono _ _ Hb' ltac:(lia)). lia. }
  apply wp_bind. eapply wp_mono.
  { apply (a52_bit_alloc_calc_mask_spec s bnd nc fgain mask); try done; try lia.
    intros b Hb. rewrite Hbnd by (apply Ht; lia). apply band_power_bounds; try lia; [done|]. apply Ht. lia. }
  intros mask' (Hl3 & Hm & _). apply wp_ret. split; [lia|]. split; [done|]. split.
  - intros i Hi. rewrite Hpsd by lia. by replace ((0 <=? i) && (i <? nc)) with true by lia.
  - intros i Hi. apply Hm. pose proof (bin_to_band_in i ltac:(lia)) as [Hb Hbi].
    destruct (Z.leb_spec bin_to_band_tab.[i] bin_to_band_tab.[nc - 1]) as [|Hgt]; [lia|].
    assert (Hb' : 0 ≤ bin_to_band_tab.[nc - 1] + 1 ≤ bin_to_band_tab.[i]) by lia.
    pose proof (band_start_mono _ _ Hb' ltac:(lia)). lia.
Qed.

Definition same_but_masks (b b' : Block.t) : Prop :=
  b' = b <| Block.psd := Block.psd b' |> <| Block.mask := Block.mask b' |>.

Variables (n : Z) (ncoefs : list Z) (s : BitAllocParams.t) (blocks0 : list Block.t).
Hypothesis Hn : 0 ≤ n ≤ 6.
Hypothesis Hwf0 : blocks_wf blocks0.
Hypothesis Hnl : zlen ncoefs = 6.
Hypothesis Hnc : ∀ c, 0 ≤ c < n → ncoefs_ok ncoefs.[c].
Hypothesis Hs : bit_alloc_params_ok s.
Hypothesis Hgl : dim2 6 6 (BitAllocParams.fgain s).
Hypothesis Hg : ∀ k c, 0 ≤ k < 6 → 0 ≤ c < n → 128 ≤ (BitAllocParams.fgain s).[k].[c] ≤ 1024.
Hypothesis Hexp : ∀ k c i, 0 ≤ k < 6 → 0 ≤ c < n → 0 ≤ i < ncoefs.[c] → 0 ≤ (bexp blocks0 k c).[i] ≤ 24.

(** The spectrum and the mask of a channel that has new exponents. *)
Definition masks_done (k m : Z) (b : Block.t) : Prop :=
  ∀ c, 0 ≤ c < m → bstr blocks0 k c ≠ EXP_REUSE →
    (∀ i, 0 ≤ i < ncoefs.[c] → (Block.psd b).[c].[i] = psd_of (bexp blocks0 k c).[i]) ∧
    ∀ i, 0 ≤ i < ncoefs.[c] →
      mask_floor s bin_to_band_tab.[i] ≤ (Block.mask b).[c].[bin_to_band_tab.[i]] ≤ 5120.

Lemma prepare_block k :
  0 ≤ k < 6 →
  wp (for_up 0 n (λ ch b,
        es ← aget (Block.exp_strategy b) ch;
        if negb (es =? EXP_REUSE) then
          e ← aget (Block.exp_ b) ch;
          p ← aget (Block.psd b) ch;
          m ← aget (Block.mask b) ch;
          fgain ← aget2 (BitAllocParams.fgain s) k ch;
          nc ← aget ncoefs ch;
          '(p, m) ← a52_bit_allocation_prepare s e p m fgain 0 nc;
          psd ← aset (Block.psd b) ch p;
          mask ← aset (Block.mask b) ch m;
          Some (b <| Block.psd := psd |> <| Block.mask := mask |>)
        else Some b) blocks0.[k])
    (λ b, block_wf b ∧ same_but_masks blocks0.[k] b ∧ masks_done k n b).
Proof.
  intros Hk. destruct Hwf0 as [Hl0 Hb0].
  apply (wp_for_up (λ m b, block_wf b ∧ same_but_masks blocks0.[k] b ∧ masks_done k m b)).
  - lia.
  - split; [by apply Hb0|]. split; [by destruct blocks0.[k]|]. intros c Hc. lia.
  - intros c b Hc (Hbw & Hsame & Hd). pose proof (ncoefs_ok_range _ (Hnc c Hc)). pose proof Hbw as [].
    pose proof wf_psd as [? Hpr]. pose proof wf_mask as [? Hmr]. pose proof wf_exp as [? Her].
    pose proof (Hpr c ltac:(lia)). pose proof (Hmr c ltac:(lia)). pose proof (Her c ltac:(lia)).
    assert (Hes : (Block.exp_strategy b).[c] = bstr blocks0 k c) by (unfold bstr; by rewrite Hsame).
    assert (Hex : (Block.exp_ b).[c] = bexp blocks0 k c) by (unfold bexp; by rewrite Hsame).
    wp_step. wp_step. rewrite Hes. wp_step.
    + do 6 wp_step. destruct Hgl as [Hgl1 Hgl2]. pose proof (Hgl2 k ltac:(lia)).
      wp_step. unfold aget2. do 5 wp_step. apply wp_bind. eapply wp_mono.
      { apply (a52_bit_allocation_prepare_spec s); try done; [by apply Hg|by apply Hnc|].
        rewrite Hex. intros i Hi. by apply Hexp. }
      intros [p m] (Hlp & Hlm & Hp & Hm). rewrite Hex in Hp. wp_steps.
      split; [split; simpl; try done; by apply dim2_upd; [|lia|]|].
      split; [by rewrite Hsame|]. intros c' Hc' Hne. simpl. rewrite !at_upd by lia.
      destruct (Z.eqb_spec c' c) as [-> |]; [by split|]. apply Hd; [lia|done].
    + apply wp_ret. split; [done|]. split; [done|]. intros c' Hc' Hne.
      destruct (Z.eq_dec c' c) as [-> |]; [lia|]. apply Hd; [lia|done].
  - done.
Qed.

Lemma bit_alloc_prepare_spec ctx frame :
  Ctx.n_all_channels ctx = n → Frame.ncoefs frame = ncoefs → Frame.bit_alloc frame = s →
  Frame.blocks frame = blocks0 →
  wp (bit_alloc_prepare ctx frame) (λ frame', ∃ blocks,
    frame' = frame <| Frame.blocks := blocks |> ∧ blocks_wf blocks ∧
    ∀ k, 0 ≤ k < 6 → same_but_masks blocks0.[k] blocks.[k] ∧ masks_done k n blocks.[k]).
Proof.
  intros Hcn Hfn Hfs Hfb. unfold bit_alloc_prepare, A52_NUM_BLOCKS. rewrite Hcn.
  apply (wp_for_up (λ k f, ∃ blocks, f = frame <| Frame.blocks := blocks |> ∧ blocks_wf blocks ∧
    (∀ j, k ≤ j < 6 → blocks.[j] = blocks0.[j]) ∧
    ∀ j, 0 ≤ j < k → same_but_masks blocks0.[j] blocks.[j] ∧ masks_done j n blocks.[j])).
  - lia.
  - exists blocks0. split; [rewrite <- Hfb; by destruct frame|]. split; [done|]. split; [done|]. lia.
  - intros k f Hk (blocks & -> & Hw & Hlater & Hd). apply wp_bind. apply wp_with_block; [done|done|].
    apply wp_bind. change (Frame.blocks (frame <| Frame.blocks := blocks |>)) with blocks. rewrite Hlater by lia.
    change (Frame.bit_alloc (frame <| Frame.blocks := blocks |>)) with (Frame.bit_alloc frame).
    change (Frame.ncoefs (frame <| Frame.blocks := blocks |>)) with (Frame.ncoefs frame).
    rewrite Hfn, Hfs. eapply wp_mono; [by apply prepare_block|]. intros b (Hb & Hsame & Hm).
    apply wp_ret. cbv beta iota. apply wp_ret. pose proof Hw as [Hl _].
    exists (upd blocks k b). split; [done|]. split; [by apply blocks_wf_upd|]. split.
    + intros j Hj. rewrite at_upd_ne by lia. apply Hlater. lia.
    + intros j Hj. rewrite at_upd by lia. destruct (Z.eqb_spec j k) as [-> |]; [done|]. apply Hd. lia.
  - intros f (blocks & -> & Hw & _ & Hd). by exists blocks.
Qed.
End prepare.

(** * The fixed bits: specification *)

(** The bits of a block besides exponents and mantissas. *)
Definition block_fixed_bits (ctx : Ctx.t) (blk : Z) (b : Block.t) : Z :=
  let n := Ctx.n_channels ctx in
  let dual := Z.b2z (Ctx.acmod ctx =? A52_ACMOD_DUAL_MONO) in
  let first := Z.b2z (blk =? 0) in
  let stereo := Z.b2z (Ctx.acmod ctx =? A52_ACMOD_STEREO) in
  n + n + (1 + dual)
  + Z.b2z (negb (EncParams.dynrng_profile (Ctx.params ctx) =? DYNRNG_PROFILE_NONE)) * (8 + 8 * dual)
  + (1 + first) + stereo * (1 + 4 * first)
  + 2 * n + Z.b2z (negb (Ctx.lfe ctx =? 0))
  + zsum (λ c, 8 * Z.b2z (negb ((Block.exp_strategy b).[c] =? EXP_REUSE))) n
  + (1 + 11 * first)
  + (1 + Z.b2z (negb (Block.write_snr b =? 0)) * (6 + 7 * Ctx.n_all_channels ctx))
  + 1 + 1.

Definition header_fixed_bits (ctx : Ctx.t) : Z :=
  65 + frame_bits_inc.[Ctx.acmod ctx] + 14 * Z.b2z (negb (Metadata.xbsi1e (Ctx.meta ctx) =? 0))
  + 14 * Z.b2z (negb (Metadata.xbsi2e (Ctx.meta ctx) =? 0)).

Definition fixed_bits (ctx : Ctx.t) (blocks : list Block.t) : Z :=
  header_fixed_bits ctx + zsum (λ k, block_fixed_bits ctx k blocks.[k]) 6 + 2 + 16.

Lemma count_frame_bits_spec ctx frame :
  0 ≤ Ctx.acmod ctx ≤ 7 → 0 ≤ Ctx.n_channels ctx ≤ 6 → blocks_wf (Frame.blocks frame) →
  count_frame_bits ctx frame = Some (frame <| Frame.frame_bits := fixed_bits ctx (Frame.blocks frame) |>).
Proof.
  intros Ha Hn [Hl Hb]. cut (wp (count_frame_bits ctx frame)
    (λ f, f = frame <| Frame.frame_bits := fixed_bits ctx (Frame.blocks frame) |>)).
  { intros Hw. by apply wp_some in Hw as (? & -> & ->). }
  unfold count_frame_bits, A52_NUM_BLOCKS, fixed_bits. wp_step. wp_step; [change (zlen frame_bits_inc) with 8; lia|].
  cbv zeta. apply wp_bind. rewrite Z.add_0_l.
  eapply (wp_mono _ (λ f, f = header_fixed_bits ctx + zsum (λ k, block_fixed_bits ctx k (Frame.blocks frame).[k]) 6)).
  2: { intros f ->. by apply wp_ret. }
  apply (wp_for_up (λ j f, f = header_fixed_bits ctx + zsum (λ k, block_fixed_bits ctx k (Frame.blocks frame).[k]) j)).
  - lia.
  - rewrite zsum_0. unfold header_fixed_bits. by destruct (_ =? 0), (_ =? 0); simpl; lia.
  - intros k f Hk ->. wp_step. wp_step. apply wp_bind.
    pose proof (Hb k Hk) as []. set (S_ := Block.exp_strategy (Frame.blocks frame).[k]) in *.
    match goal with |- wp (for_up 0 _ _ ?s0) _ =>
      apply (wp_mono _ (λ f, f = s0 + zsum (λ c, 8 * Z.b2z (negb (S_.[c] =? EXP_REUSE))) (Ctx.n_channels ctx)));
      [apply (wp_for_up (λ j f, f = s0 + zsum (λ c, 8 * Z.b2z (negb (S_.[c] =? EXP_REUSE))) j))|] end.
    + lia.
    + rewrite zsum_0. lia.
    + intros c f Hc ->. wp_steps. rewrite zsum_succ by lia. destruct (S_.[c] =? EXP_REUSE); simpl; lia.
    + done.
    + intros f ->. apply wp_ret. rewrite (zsum_succ _ k) by lia. set (U := zsum _ k).
      unfold block_fixed_bits. fold S_.
      change (Ctx.acmod ctx =? A52_ACMOD_STEREO) with (Ctx.acmod ctx =? 2).
      set (T := zsum _ (Ctx.n_channels ctx)).
      destruct (EncParams.dynrng_profile _ =? _), (Ctx.acmod ctx =? A52_ACMOD_DUAL_MONO), (k =? 0),
        (Ctx.acmod ctx =? 2), (Ctx.lfe ctx =? 0), (Block.write_snr _ =? 0); cbn [negb Z.b2z]; lia.
  - done.
Qed.

(** ** Parameters and gains *)

Definition same_but_gains (b b' : Block.t) : Prop :=
  b' = b <| Block.fgaincod := Block.fgaincod b' |> <| Block.write_snr := Block.write_snr b' |>.

Definition bgain (blocks : list Block.t) (k c : Z) : Z := (Block.fgaincod blocks.[k]).[c].

(** What a decoder relies on: the gain codes follow the exponents, and they are
    sent whenever they change. *)
Record gains_done (ctx : Ctx.t) (blocks : list Block.t) (k : Z) : Prop := {
  gd_code : ∀ c, 0 ≤ c < Ctx.n_all_channels ctx →
    bgain blocks k c = 4 - bstr blocks (source_blk blocks c (Z.to_nat k)) c ∧ 1 ≤ bgain blocks k c ≤ 3;
  gd_flag : Block.write_snr blocks.[k] = 0 ∨ Block.write_snr blocks.[k] = 1;
  gd_first : k = 0 → Block.write_snr blocks.[k] = 1;
  gd_sent : Block.write_snr blocks.[k] = 0 →
    ∀ c, 0 ≤ c < Ctx.n_all_channels ctx → bgain blocks k c = bgain blocks (k - 1) c
}.

Record start_ready (ctx : Ctx.t) (frame : Frame.t) : Prop := {
  st_channels : channels_ok ctx;
  st_wf : blocks_wf (Frame.blocks frame);
  st_acmod : 0 ≤ Ctx.acmod ctx ≤ 7;
  st_fscod : 0 ≤ Ctx.fscod ctx ≤ 2;
  st_halfrate : 0 ≤ Ctx.halfratecod ctx ≤ 2;
  st_sdecay : 0 ≤ Frame.sdecaycod frame ≤ 3;
  st_fdecay : 0 ≤ Frame.fdecaycod frame ≤ 3;
  st_sgain : 0 ≤ Frame.sgaincod frame ≤ 3;
  st_dbknee : 0 ≤ Frame.dbkneecod frame ≤ 3;
  st_floor : 0 ≤ Frame.floorcod frame ≤ 7;
  st_fgain : dim2 6 6 (BitAllocParams.fgain (Frame.bit_alloc frame));
  st_str : ∀ k c, 0 ≤ k < 6 → 0 ≤ c < Ctx.n_all_channels ctx → 0 ≤ bstr (Frame.blocks frame) k c ≤ 3;
  st_str0 : ∀ c, 0 ≤ c < Ctx.n_all_channels ctx → bstr (Frame.blocks frame) 0 c ≠ EXP_REUSE
}.

Lemma source_blk_ext b0 b1 c k :
  (∀ j, 0 ≤ j ≤ Z.of_nat k → bstr b1 j c = bstr b0 j c) → source_blk b1 c k = source_blk b0 c k.
Proof.
  induction k as [|k IH]; intros Hj; [done|]. cbn [source_blk]. rewrite Hj by lia.
  rewrite IH; [done|]. intros j ?. apply Hj. lia.
Qed.

Lemma source_blk_range blocks c k : 0 ≤ source_blk blocks c k ≤ Z.of_nat k.
Proof. induction k as [|k IH]; cbn [source_blk]; [lia|]. destruct (_ =? _); lia. Qed.

(** The exponents in use are never of strategy [EXP_REUSE]. *)
Lemma source_blk_strategy blocks c k :
  bstr blocks 0 c ≠ EXP_REUSE → bstr blocks (source_blk blocks c k) c ≠ EXP_REUSE.
Proof.
  intros H0. induction k as [|k IH]; [done|]. cbn [source_blk].
  destruct (Z.eqb_spec (bstr blocks (Z.of_nat (S k)) c) EXP_REUSE); done.
Qed.

Section gains.
Variables (ctx : Ctx.t) (B : list Block.t).
#[local] Abbreviation n := (Ctx.n_all_channels ctx).
Hypothesis Hn : 0 ≤ n ≤ 6.
Hypothesis HB : blocks_wf B.
Hypothesis Hstr : ∀ k c, 0 ≤ k < 6 → 0 ≤ c < n → 0 ≤ bstr B k c ≤ 3.
Hypothesis Hstr0 : ∀ c, 0 ≤ c < n → bstr B 0 c ≠ EXP_REUSE.

Definition code_of (k c : Z) : Z := 4 - bstr B (source_blk B c (Z.to_nat k)) c.

Lemma code_of_range k c : 0 ≤ k < 6 → 0 ≤ c < n → 1 ≤ code_of k c ≤ 3.
Proof.
  intros Hk Hc. unfold code_of. pose proof (source_blk_range B c (Z.to_nat k)).
  pose proof (source_blk_strategy B c (Z.to_nat k) (Hstr0 c Hc)) as Hne.
  pose proof (Hstr (source_blk B c (Z.to_nat k)) c ltac:(lia) Hc). unfold EXP_REUSE in Hne. lia.
Qed.

Lemma code_of_reuse k c : 0 < k → bstr B k c = EXP_REUSE → code_of k c = code_of (k - 1) c.
Proof.
  intros Hk Hre. unfold code_of. replace (Z.to_nat k) with (S (Z.to_nat (k - 1))) by lia. cbn [source_blk].
  replace (Z.of_nat (S (Z.to_nat (k - 1)))) with k by lia. by rewrite Hre.
Qed.

(** The codes of the channels below [m] of block [k], and the flag. *)
Record gain_inv (k m : Z) (b : Block.t) : Prop := {
  gi_wf : block_wf b;
  gi_same : same_but_gains B.[k] b;
  gi_code : ∀ c, 0 ≤ c < m → (Block.fgaincod b).[c] = code_of k c;
  gi_flag : Block.write_snr b = 0 ∨ Block.write_snr b = 1;
  gi_first : k = 0 → 0 < m → Block.write_snr b = 1;
  gi_sent : Block.write_snr b = 0 → ∀ c, 0 ≤ c < m → 0 < k → code_of k c = code_of (k - 1) c
}.

Definition gain_rows (k m : Z) (fgain : list (list Z)) : Prop :=
  dim2 6 6 fgain ∧ ∀ j c, 0 ≤ j < 6 → 0 ≤ c < n → j < k ∨ j = k ∧ c < m →
    fgain.[j].[c] = a52_fast_gain_tab.[code_of j c].

Lemma gain_channel pb k m b fgain :
  0 ≤ k < 6 → 0 ≤ m < n → blocks_wf pb →
  (0 < k → ∀ c, 0 ≤ c < n → (Block.fgaincod pb.[k - 1]).[c] = code_of (k - 1) c) →
  gain_inv k m b → gain_rows k m fgain →
  wp (es ← aget (Block.exp_strategy b) m;
      b ← (if negb (es =? EXP_REUSE) then
             codes ← aset (Block.fgaincod b) m (4 - es);
             differs ← (if k =? 0 then Some true else
               prev ← aget pb (k - 1);
               c ← aget (Block.fgaincod prev) m;
               Some (negb (4 - es =? c)));
             Some (b <| Block.fgaincod := codes |>
                     <| Block.write_snr := Z.lor (Block.write_snr b) (Z.b2z differs) |>)
           else
             prev ← aget pb (k - 1);
             c ← aget (Block.fgaincod prev) m;
             codes ← aset (Block.fgaincod b) m c;
             Some (b <| Block.fgaincod := codes |>));
      c ← aget (Block.fgaincod b) m;
      g ← aget a52_fast_gain_tab c;
      fgain ← aset2 fgain k m g;
      Some (b, fgain)) (λ '(b, fgain), gain_inv k (m + 1) b ∧ gain_rows k (m + 1) fgain).
Proof.
  intros Hk Hm [Hl Hb] Hprev [Hw Hsame Hcode Hflag Hfirst Hsent] [Hgd Hgr].
  assert (Hes : (Block.exp_strategy b).[m] = bstr B k m) by (unfold bstr; by rewrite Hsame).
  pose proof Hw as []. pose proof (code_of_range k m Hk ltac:(lia)) as Hcr.
  assert (Hpl : 0 < k → zlen (Block.fgaincod pb.[k - 1]) = 6)
    by (intros; destruct (Hb (k - 1) ltac:(lia)); done).
  wp_step. wp_step. rewrite Hes. apply wp_bind.
  apply (wp_mono _ (λ b', gain_inv k (m + 1) b')).
  - wp_step.
    + assert (Hc : code_of k m = 4 - bstr B k m).
      { unfold code_of. rewrite source_blk_new by (lia || right; lia). done. }
      do 3 wp_step. apply (wp_mono _ (λ d, (k = 0 → d = true) ∧ (0 < k → d = negb (code_of k m =? code_of (k - 1) m)))).
      { wp_step; [by apply wp_ret; split; [|lia]|]. specialize (Hpl ltac:(lia)). wp_steps.
        split; [lia|]. intros _. by rewrite Hc, Hprev by lia. }
      intros d [Hd0 Hd]. apply wp_ret.
      assert (Hlor : Z.lor (Block.write_snr b) (Z.b2z d) = Z.b2z ((Block.write_snr b =? 1) || d)).
      { destruct Hflag as [-> | ->]; by destruct d. }
      split; simpl; rewrite ?Hlor.
      * split; simpl; try done. by rewrite zlen_upd.
      * by rewrite Hsame.
      * intros c Hc'. rewrite at_upd by lia. destruct (Z.eqb_spec c m) as [-> |]; [done|]. apply Hcode. lia.
      * destruct (_ || _); simpl; lia.
      * intros ->. rewrite Hd0 by done. by rewrite orb_true_r.
      * intros Hz c Hc' Hk0. destruct (Z.eqb_spec (Block.write_snr b) 1), d; try done. 
        destruct (Z.eq_dec c m) as [-> |]; [specialize (Hd Hk0); lia|].
        apply Hsent; [destruct Hflag; done|lia|done].
    + assert (Hre : bstr B k m = EXP_REUSE) by lia.
      assert (Hk0 : 0 < k) by (destruct (Z.eq_dec k 0) as [-> |]; [by specialize (Hstr0 m ltac:(lia))|lia]).
      specialize (Hpl Hk0). wp_steps. rewrite Hprev by lia. pose proof (code_of_reuse k m Hk0 Hre) as Hc.
      split; simpl; try done.
      * split; simpl; try done. by rewrite zlen_upd.
      * by rewrite Hsame.
      * intros c Hc'. rewrite at_upd by lia. destruct (Z.eqb_spec c m) as [-> |]; [done|]. apply Hcode. lia.
      * lia.
      * intros Hz c Hc' _. destruct (Z.eq_dec c m) as [-> |]; [done|]. apply Hsent; [done|lia|done].
  - intros b' Hinv. pose proof (gi_wf _ _ _ Hinv) as []. pose proof (gi_code _ _ _ Hinv m ltac:(lia)) as Hcm.
    wp_step. wp_step. rewrite Hcm. wp_step.
    wp_step; [change (zlen a52_fast_gain_tab) with 8; lia|]. destruct Hgd as [Hg1 Hg2]. pose proof (Hg2 k Hk).
    unfold aset2. wp_steps. split; [done|]. split; [by apply dim2_upd; [by split|lia|rewrite zlen_upd]|].
    intros j c Hj Hc Hor. rewrite at_upd by lia. destruct (Z.eqb_spec j k) as [-> |]; [|apply Hgr; lia].
    rewrite at_upd by lia. destruct (Z.eqb_spec c m) as [-> |]; [done|]. apply Hgr; lia.
Qed.
End gains.

Lemma fast_gain_range c : 1 ≤ c ≤ 3 → 128 ≤ a52_fast_gain_tab.[c] ≤ 1024.
Proof. intros Hc. assert (c = 1 ∨ c = 2 ∨ c = 3) as [-> |[-> | ->]] by lia; by vm_compute. Qed.

(** What [start_bit_allocation] leaves. *)
Record start_done (ctx : Ctx.t) (frame0 frame : Frame.t) : Prop := {
  sd_frame : frame = frame0 <| Frame.bit_alloc := Frame.bit_alloc frame |>
    <| Frame.blocks := Frame.blocks frame |>
    <| Frame.frame_bits := fixed_bits ctx (Frame.blocks frame) |>;
  sd_wf : blocks_wf (Frame.blocks frame);
  sd_same : ∀ k, 0 ≤ k < 6 → same_but_gains (Frame.blocks frame0).[k] (Frame.blocks frame).[k];
  sd_gains : 0 < Ctx.n_all_channels ctx → ∀ k, 0 ≤ k < 6 → gains_done ctx (Frame.blocks frame) k;
  sd_params : bit_alloc_params_ok (Frame.bit_alloc frame);
  sd_floor : BitAllocParams.floor_ (Frame.bit_alloc frame) = a52_floor_tab.[Frame.floorcod frame0];
  sd_fgain : dim2 6 6 (BitAllocParams.fgain (Frame.bit_alloc frame));
  sd_fgain_range : ∀ k c, 0 ≤ k < 6 → 0 ≤ c < Ctx.n_all_channels ctx →
    (BitAllocParams.fgain (Frame.bit_alloc frame)).[k].[c] = a52_fast_gain_tab.[bgain (Frame.blocks frame) k c] ∧
    128 ≤ (BitAllocParams.fgain (Frame.bit_alloc frame)).[k].[c] ≤ 1024
}.

Lemma gains_done_of ctx B blocks k :
  0 ≤ k < 6 → 0 < Ctx.n_all_channels ctx ≤ 6 →
  (∀ c, 0 ≤ c < Ctx.n_all_channels ctx → 1 ≤ code_of B k c ≤ 3) →
  (∀ j c, 0 ≤ j < 6 → bstr blocks j c = bstr B j c) →
  gain_inv B k (Ctx.n_all_channels ctx) blocks.[k] →
  (0 < k → gain_inv B (k - 1) (Ctx.n_all_channels ctx) blocks.[k - 1]) →
  gains_done ctx blocks k.
Proof.
  intros Hk Hn Hr Hs [Hw Hsame Hcode Hflag Hfirst Hsent] Hprev. split.
  - intros c Hc. unfold bgain. rewrite Hcode by done. split; [|by apply Hr]. unfold code_of.
    pose proof (source_blk_range B c (Z.to_nat k)).
    rewrite (source_blk_ext B blocks), Hs by (try (intros; apply Hs); lia). done.
  - done.
  - intros ->. apply Hfirst; lia.
  - intros Hz c Hc. destruct (Z.eq_dec k 0) as [-> |]; [rewrite Hfirst in Hz by lia; done|].
    unfold bgain. rewrite Hcode by done. destruct (Hprev ltac:(lia)) as [_ _ Hcode' _ _ _].
    rewrite Hcode' by done. apply Hsent; [done|done|lia].
Qed.

Lemma start_bit_allocation_spec ctx frame :
  start_ready ctx frame →
  wp (start_bit_allocation ctx frame) (λ frame', start_done ctx frame frame').
Proof.
  intros [[Hn Hlfe Hall Hlc] Hwf Ha Hfs Hhr Hsd Hfd Hsg Hdb Hfl Hfg Hst Hst0].
  set (n := Ctx.n_all_channels ctx) in *. set (B := Frame.blocks frame) in *.
  assert (HnN : 0 ≤ n ≤ 6) by lia.
  assert (Hrange : ∀ k c, 0 ≤ k < 6 → 0 ≤ c < n → 1 ≤ code_of B k c ≤ 3)
    by (intros; by apply (code_of_range ctx B Hst Hst0)).
  assert (Hsdt : 15 ≤ a52_slow_decay_tab.[Frame.sdecaycod frame]).
  { assert (Hr : 0 ≤ Frame.sdecaycod frame < 4) by lia. table_check (λ i, 15 <=? a52_slow_decay_tab.[i]) 4 Hr. lia. }
  assert (Hfdt : 15 ≤ a52_fast_decay_tab.[Frame.fdecaycod frame]).
  { assert (Hr : 0 ≤ Frame.fdecaycod frame < 4) by lia. table_check (λ i, 15 <=? a52_fast_decay_tab.[i]) 4 Hr. lia. }
  assert (Hsgt : 1040 ≤ a52_slow_gain_tab.[Frame.sgaincod frame] ≤ 1344).
  { assert (Hr : 0 ≤ Frame.sgaincod frame < 4) by lia.
    table_check (λ i, (1040 <=? a52_slow_gain_tab.[i]) && (a52_slow_gain_tab.[i] <=? 1344)) 4 Hr. lia. }
  assert (Hdbt : 0 ≤ a52_db_per_bit_tab.[Frame.dbkneecod frame] ≤ 2816).
  { assert (Hr : 0 ≤ Frame.dbkneecod frame < 4) by lia.
    table_check (λ i, (0 <=? a52_db_per_bit_tab.[i]) && (a52_db_per_bit_tab.[i] <=? 2816)) 4 Hr. lia. }
  unfold start_bit_allocation.
  wp_step. wp_step; [change (zlen a52_slow_decay_tab) with 4; lia|].
  wp_step. wp_step; [change (zlen a52_fast_decay_tab) with 4; lia|].
  wp_step. wp_step; [change (zlen a52_slow_gain_tab) with 4; lia|].
  wp_step. wp_step; [change (zlen a52_db_per_bit_tab) with 4; lia|].
  wp_step. wp_step; [change (zlen a52_floor_tab) with 8; lia|]. cbv zeta.
  match goal with |- wp (for_up _ _ _ ?f0 ≫= _) _ => set (frame1 := f0) end.
  set (ba := Frame.bit_alloc frame1).
  apply wp_bind.
  apply (wp_mono _ (λ f, ∃ blocks fgain, f = frame1 <| Frame.blocks := blocks |>
      <| Frame.bit_alloc := ba <| BitAllocParams.fgain := fgain |> |> ∧ blocks_wf blocks ∧
      gain_rows ctx B 6 0 fgain ∧ ∀ j, 0 ≤ j < 6 → gain_inv B j n blocks.[j])).
  - apply (wp_for_up (λ k f, ∃ blocks fgain, f = frame1 <| Frame.blocks := blocks |>
      <| Frame.bit_alloc := ba <| BitAllocParams.fgain := fgain |> |> ∧ blocks_wf blocks ∧
      gain_rows ctx B k 0 fgain ∧ (∀ j, 0 ≤ j < k → gain_inv B j n blocks.[j]) ∧
      ∀ j, k ≤ j < 6 → blocks.[j] = B.[j])).
    + unfold A52_NUM_BLOCKS. lia.
    + exists B, (BitAllocParams.fgain (Frame.bit_alloc frame)). split.
      { unfold B, ba, frame1. destruct frame as [? ? ? ? ? ? ? ? ? ? ? ? ? ? ? ? [] ? ? ? ? ?]. done. }
      split; [done|]. split; [split; [done|lia]|]. split; [lia|done].
    + unfold A52_NUM_BLOCKS. intros k f Hk (blocks & fgain & -> & Hw & Hrows & Hinv & Hlater).
      pose proof Hw as [Hl Hb]. apply wp_bind. apply wp_with_block; [done|done|]. simpl Frame.blocks.
      rewrite Hlater by lia. cbv beta zeta.
      eapply (wp_for_up (λ m '(b, fgain), gain_inv B k m b ∧ gain_rows ctx B k m fgain)).
      * lia.
      * split; [|done]. destruct Hwf as [_ Hb0]. pose proof (Hb0 k Hk) as [].
        split; simpl; [split; simpl; done|by destruct B.[k]|lia|by left|lia|lia].
      * intros m [b g] Hm [Hi Hg].
        apply (gain_channel ctx B HnN Hst Hst0 blocks k m b g); try done.
        intros Hk0 c Hc. apply Hinv; lia.
      * intros [b g] [Hi [Hg1 Hg2]]. apply wp_ret. exists (upd blocks k b), g. split; [done|].
        split; [by apply blocks_wf_upd; [| |by destruct Hi]|]. split; [|split].
        -- split; [done|]. intros j c Hj Hc Hor. apply Hg2; [done|done|lia].
        -- intros j Hj. rewrite at_upd by lia. destruct (Z.eqb_spec j k) as [-> |]; [done|]. apply Hinv. lia.
        -- intros j Hj. rewrite at_upd_ne by lia. apply Hlater. lia.
    + unfold A52_NUM_BLOCKS. intros f (blocks & fgain & -> & Hw & Hrows & Hinv & _). by exists blocks, fgain.
  - intros f (blocks & fgain & -> & Hw & [Hg1 Hg2] & Hinv).
    eapply wp_eq; [by apply count_frame_bits_spec; simpl; [lia|lia|done]|].
    assert (Hsame : ∀ k, 0 ≤ k < 6 → same_but_gains B.[k] blocks.[k]) by (intros; by apply Hinv).
    assert (Hs : ∀ j c, 0 ≤ j < 6 → bstr blocks j c = bstr B j c)
      by (intros j c Hj; unfold bstr; by rewrite (Hsame j Hj)).
    split; simpl; try done.
    + intros Hn0 k Hk. apply (gains_done_of ctx B); try done; [lia|intros; by apply Hrange|by apply Hinv|].
      intros Hk0. apply Hinv. lia.
    + assert (H2 : 0 < 2 ^ Ctx.halfratecod ctx) by (apply Z.pow_pos_nonneg; lia).
      split; simpl; rewrite ?Z.shiftr_div_pow2 by lia; try lia; (apply Z.div_pos; lia).
    + intros k c Hk Hc. rewrite Hg2 by (done || lia). unfold bgain.
      rewrite (gi_code _ _ _ _ (Hinv k Hk)) by done. split; [done|]. by apply fast_gain_range, Hrange.
Qed.

(** * Constant bit rate: specification *)

Section cbr.
Context `{R : Residue} {ROk : ResidueOk R}.
Variable ctx : Ctx.t.
#[local] Abbreviation n := (Ctx.n_all_channels ctx).
#[local] Abbreviation fast := (negb (EncParams.bitalloc_fast (Ctx.params ctx) =? 0)).

Definition start_offset (tctx : TCtx.t) : Z :=
  if EncParams.encoding_mode (Ctx.params ctx) =? AFTEN_ENC_MODE_VBR then EncParams.quality (Ctx.params ctx)
  else if EncParams.encoding_mode (Ctx.params ctx) =? AFTEN_ENC_MODE_CBR then TCtx.last_quality tctx
  else 0.

Definition avail_bits (frame : Frame.t) : Z :=
  16 * Frame.frame_size frame - (Frame.frame_bits frame + Frame.exp_bits frame).

(** The offset [s] the search from [s0] finds. *)
Definition offset_found (frame0 : Frame.t) (avail s0 s : Z) : Prop :=
  if fast then fast_found ctx frame0 avail s0 s else slow_found ctx frame0 avail s0 s.

(** It is accepted if its data fits the frame. *)
Definition offset_accepted (frame0 : Frame.t) (avail s0 s : Z) : Prop :=
  0 ≤ left ctx frame0 avail s ∧ 0 ≤ s ∧ (if fast then s ≤ Z.max 1023 s0 else saturated ctx frame0 → s ≤ 1023) ∧
  offset_found frame0 avail s0 s.

Definition offset_refused (frame0 : Frame.t) (avail s0 s : Z) : Prop :=
  left ctx frame0 avail s < 0 ∧ s < 16 ∧ offset_found frame0 avail s0 s.

(** The state after the search, for the C return value [r]. *)
Definition cbr_outcome (frame0 : Frame.t) (avail s0 : Z) (tctx tctx' : TCtx.t) (r : Z) : Prop :=
  ∃ frame s, allocated n (Frame.ncoefs frame0) (Frame.blocks frame0)
               (BitAllocParams.floor_ (Frame.bit_alloc frame0)) s frame0 frame ∧
    let frame := frame <| Frame.mant_bits := offset_bits ctx frame0 s |> in
    (r = 0 ∧ offset_accepted frame0 avail s0 s ∧
       tctx' = tctx <| TCtx.frame := frame <| Frame.csnroffst := Z.shiftr s 4 |>
         <| Frame.fsnroffst := Z.land s 0xF |> <| Frame.quality := s |> |> <| TCtx.last_quality := s |>) ∨
    (r = -1 ∧ offset_refused frame0 avail s0 s ∧ tctx' = tctx <| TCtx.frame := frame |>).

Lemma cbr_search_spec frame0 avail frame s0 l0 :
  alloc_ready n (Frame.ncoefs frame0) (Frame.blocks frame0) → channels_ok ctx →
  (fast = true → 0 ≤ s0 < 1040) → at_offset ctx frame0 avail frame s0 l0 →
  wp (if fast then cbr_search_fast ctx avail frame s0 l0 else cbr_search_slow ctx avail frame s0 l0)
     (λ '(f, s, l), at_offset ctx frame0 avail f s l ∧
        if 0 <=? l then offset_accepted frame0 avail s0 s else offset_refused frame0 avail s0 s).
Proof.
  intros Hr Hch Hs0 Hat. unfold offset_accepted, offset_refused, offset_found. destruct fast.
  - eapply wp_mono; [apply cbr_search_fast_spec; [done|exact Hat|by apply Hs0]|].
    intros [[f s] l] [Ha Hf]. split; [done|]. destruct Ha as [_ ->]. pose proof (fast_found_range _ _ _ s0 s ltac:(specialize (Hs0 eq_refl); lia) Hf).
    destruct (Z.leb_spec 0 (left ctx frame0 avail s)); [by split_and!; [..|lia|lia|]|]. split; [done|]. split; [|done].
    destruct Hf as [|k s Hk -> Hl _|k s _ _ _ _ _ [?|?]]; [lia| |lia|done]. specialize (Hl k ltac:(lia)). lia.
  - destruct Hch as [Hn _ _ _]. eapply wp_mono; [by apply cbr_search_slow_spec|].
    intros [[f s] l] [Ha Hf]. split; [done|]. destruct Ha as [_ ->].
    destruct (Z.leb_spec 0 (left ctx frame0 avail s)) as [H0|H0].
    + destruct (slow_found_range _ _ _ s0 s Hf H0). by split_and!.
    + split; [done|]. split; [|done]. destruct Hf as (t & _ & _ & _ & [?|?] & _); lia.
Qed.

Lemma cbr_bit_allocation_from tctx prepare (Good : Frame.t → Prop) :
  channels_ok ctx → (fast = true → 0 ≤ start_offset tctx < 1040) →
  wp (if negb (prepare =? 0) then bit_alloc_prepare ctx (TCtx.frame tctx) else Some (TCtx.frame tctx))
     (λ f, ∃ frame0, Good frame0 ∧ alloc_ready n (Frame.ncoefs frame0) (Frame.blocks frame0) ∧
                     like_frame (Frame.blocks frame0) frame0 f) →
  wp (cbr_bit_allocation ctx tctx prepare) (λ '(tctx', r), ∃ frame0, Good frame0 ∧
    cbr_outcome frame0 (avail_bits (TCtx.frame tctx)) (start_offset tctx) tctx tctx' r).
Proof.
  intros Hch Hs0 Hprep. unfold cbr_bit_allocation. cbv zeta. fold (avail_bits (TCtx.frame tctx)).
  fold (start_offset tctx). set (avail := avail_bits (TCtx.frame tctx)). set (s0 := start_offset tctx) in *.
  apply wp_bind. eapply wp_mono; [exact Hprep|]. intros f (frame0 & HG & Hr & Hlike).
  apply wp_bind. eapply wp_mono.
  { by apply (leftover_at_spec n (Frame.ncoefs frame0) (Frame.blocks frame0)
      (BitAllocParams.floor_ (Frame.bit_alloc frame0)) s0 Hr ctx avail frame0). }
  intros [f1 l1] Ha1. apply wp_bind. eapply wp_mono; [by apply (cbr_search_spec frame0 avail f1 s0 l1)|].
  intros [[f2 s] l] [[Ha ->] Hres]. cbv beta iota.
  replace (avail - left ctx frame0 avail s) with (offset_bits ctx frame0 s) by (unfold left; lia).
  destruct (Z.leb_spec 0 (left ctx frame0 avail s)).
  - replace (left ctx frame0 avail s <? 0) with false by lia. apply wp_ret. exists frame0. split; [done|].
    exists f2, s. split; [done|]. left. done.
  - replace (left ctx frame0 avail s <? 0) with true by lia. apply wp_ret. exists frame0. split; [done|].
    exists f2, s. split; [done|]. right. done.
Qed.

(** What [cbr_bit_allocation] is given by the exponent stages and
    [start_bit_allocation]. *)
Record cbr_ready (frame : Frame.t) : Prop := {
  cr_channels : channels_ok ctx;
  cr_wf : blocks_wf (Frame.blocks frame);
  cr_nlen : zlen (Frame.ncoefs frame) = 6;
  cr_ncoefs : ∀ c, 0 ≤ c < n → ncoefs_ok (Frame.ncoefs frame).[c];
  cr_str0 : ∀ c, 0 ≤ c < n → bstr (Frame.blocks frame) 0 c ≠ EXP_REUSE;
  cr_exp : ∀ k c i, 0 ≤ k < 6 → 0 ≤ c < n → 0 ≤ i < (Frame.ncoefs frame).[c] →
           0 ≤ (bexp (Frame.blocks frame) k c).[i] ≤ 24;
  cr_params : bit_alloc_params_ok (Frame.bit_alloc frame);
  cr_fgain : dim2 6 6 (BitAllocParams.fgain (Frame.bit_alloc frame));
  cr_fgain_range : ∀ k c, 0 ≤ k < 6 → 0 ≤ c < n →
    128 ≤ (BitAllocParams.fgain (Frame.bit_alloc frame)).[k].[c] ≤ 1024;
  cr_residue : ∀ c, 0 ≤ c < n → residue_readable (Frame.ncoefs frame).[c]
}.

(** [frame0] is [frame] with spectra and masks. *)
Definition prepared (frame frame0 : Frame.t) : Prop :=
  ∃ blocks, frame0 = frame <| Frame.blocks := blocks |> ∧ blocks_wf blocks ∧
    ∀ k, 0 ≤ k < 6 → same_but_masks (Frame.blocks frame).[k] blocks.[k] ∧
      masks_done (Frame.ncoefs frame) (Frame.bit_alloc frame) (Frame.blocks frame) k n blocks.[k].

Lemma prepared_ready frame frame0 :
  cbr_ready frame → prepared frame frame0 → alloc_ready n (Frame.ncoefs frame0) (Frame.blocks frame0).
Proof.
  intros [[Hn Hlfe Hall _] Hwf Hnl Hnc Hs0 Hx Hp Hg Hgr Hres] (blocks & -> & Hw & Hd). split; simpl; try done; [lia|].
  intros c Hc. destruct (Hd 0 ltac:(lia)) as [Hs _]. unfold bstr. rewrite Hs. by apply Hs0.
Qed.

Lemma like_frame_refl frame0 : blocks_wf (Frame.blocks frame0) → like_frame (Frame.blocks frame0) frame0 frame0.
Proof.
  intros Hw. exists (Frame.blocks frame0). split; [by destruct frame0|]. split; [done|].
  intros k _. unfold same_but_bap. by destruct (Frame.blocks frame0).[k].
Qed.

Lemma prepare_spec frame :
  cbr_ready frame → wp (bit_alloc_prepare ctx frame) (λ frame0, prepared frame frame0).
Proof.
  intros [[Hn Hlfe Hall _] Hwf Hnl Hnc Hs0 Hx Hp Hg Hgr Hres].
  eapply wp_mono; [by apply (bit_alloc_prepare_spec n (Frame.ncoefs frame) (Frame.bit_alloc frame) (Frame.blocks frame)); try done; lia|].
  intros f (blocks & -> & Hw & Hd). by exists blocks.
Qed.

Lemma cbr_bit_allocation_spec tctx :
  cbr_ready (TCtx.frame tctx) → (fast = true → 0 ≤ start_offset tctx < 1040) →
  wp (cbr_bit_allocation ctx tctx 1) (λ '(tctx', r), ∃ frame0, prepared (TCtx.frame tctx) frame0 ∧
    cbr_outcome frame0 (avail_bits (TCtx.frame tctx)) (start_offset tctx) tctx tctx' r).
Proof.
  intros Hr Hs0. apply cbr_bit_allocation_from; [by destruct Hr|done|]. simpl.
  eapply wp_mono; [by apply prepare_spec|]. intros frame0 Hp. exists frame0. split; [done|].
  split; [by eapply prepared_ready|]. apply like_frame_refl. by destruct Hp as (? & -> & ? & _).
Qed.

(** ** Variable bit rate *)

Lemma frame_size_tab_ok i f :
  0 ≤ i < 38 → 0 ≤ f < 3 → aget2 a52_frame_size_tab i f = Some a52_frame_size_tab.[i].[f] ∧
  0 < a52_frame_size_tab.[i].[f] ≤ 30720 ∧ a52_frame_size_tab.[i].[f] mod 16 = 0.
Proof.
  intros Hi Hf. assert (Hl : zlen a52_frame_size_tab.[i] = 3 ∧ 0 < a52_frame_size_tab.[i].[f] ≤ 30720 ∧
    a52_frame_size_tab.[i].[f] mod 16 = 0).
  { pose proof Hi as Hi'. table_check (λ i, (zlen a52_frame_size_tab.[i] =? 3) && forallb (λ f, let v := a52_frame_size_tab.[i].[Z.of_nat f] in
      (0 <? v) && (v <=? 30720) && (v mod 16 =? 0)) (seq 0 3)) 38 Hi.
    apply andb_true_iff in Hi as [Hl Hv]. rewrite forallb_forall in Hv.
    specialize (Hv (Z.to_nat f) ltac:(apply in_seq; lia)). rewrite Z2Nat.id in Hv by lia. cbv zeta in Hv. lia. }
  split; [|by apply Hl]. unfold aget2. rewrite aget_at by (change (zlen a52_frame_size_tab) with 38; lia).
  simpl mbind. apply aget_at. lia.
Qed.

(** The first frame size that holds [need] bits, or the largest one allowed. *)
Definition size_chosen (need i : Z) : Prop :=
  0 ≤ i ≤ Ctx.frmsizecod ctx ∧
  (∀ j, 0 ≤ j < i → a52_frame_size_tab.[j].[Ctx.fscod ctx] < need) ∧
  (need ≤ a52_frame_size_tab.[i].[Ctx.fscod ctx] ∨ i = Ctx.frmsizecod ctx).

(** The frame with the chosen size. *)
Definition sized (frame : Frame.t) (i : Z) : Frame.t :=
  frame <| Frame.bit_rate := Z.shiftr a52_bitrate_tab.[Z.quot i 2] (Ctx.halfratecod ctx) |>
    <| Frame.frmsizecod := i |>
    <| Frame.frame_size := Z.quot a52_frame_size_tab.[i].[Ctx.fscod ctx] 16 |>
    <| Frame.frame_size_min := Z.quot a52_frame_size_tab.[i].[Ctx.fscod ctx] 16 |>.

Lemma sized_avail frame i :
  0 ≤ i < 38 → 0 ≤ Ctx.fscod ctx < 3 →
  avail_bits (sized frame i) =
    a52_frame_size_tab.[i].[Ctx.fscod ctx] - (Frame.frame_bits frame + Frame.exp_bits frame).
Proof.
  intros Hi Hf. destruct (frame_size_tab_ok i _ Hi Hf) as (_ & Hr & Hm). unfold avail_bits. simpl.
  rewrite Z.quot_div_nonneg by lia. pose proof (Z.div_mod a52_frame_size_tab.[i].[Ctx.fscod ctx] 16). lia.
Qed.

Definition vbr_outcome (frame frame0 : Frame.t) (i : Z) (tctx tctx' : TCtx.t) (r : Z) : Prop :=
  let quality := EncParams.quality (Ctx.params ctx) in
  size_chosen (Frame.frame_bits frame + Frame.exp_bits frame + offset_bits ctx frame0 quality) i ∧
  cbr_outcome (sized frame0 i) (avail_bits (sized frame0 i)) quality tctx tctx' r.

Lemma choose_size (need : Z) :
  0 ≤ Ctx.frmsizecod ctx ≤ 37 → 0 ≤ Ctx.fscod ctx ≤ 2 →
  wp (for_break 0 (Ctx.frmsizecod ctx + 1) (λ i '(_, _),
        frame_size ← aget2 a52_frame_size_tab i (Ctx.fscod ctx);
        if frame_size >=? need then Some (inl (i, frame_size))
        else Some (inr (i + 1, frame_size))) (0, 0))
     (λ '(i, frame_size), size_chosen need (MIN i (Ctx.frmsizecod ctx)) ∧
        frame_size = a52_frame_size_tab.[MIN i (Ctx.frmsizecod ctx)].[Ctx.fscod ctx]).
Proof.
  intros Hfz Hfs.
  apply (wp_for_break (λ i '(i', size), i' = i ∧
    (0 < i → size = a52_frame_size_tab.[i - 1].[Ctx.fscod ctx]) ∧
    ∀ j, 0 ≤ j < i → a52_frame_size_tab.[j].[Ctx.fscod ctx] < need)).
  - lia.
  - split; [done|]. split; [lia|]. lia.
  - intros i [i' size] Hi (-> & Hsz & Hlow). destruct (frame_size_tab_ok i (Ctx.fscod ctx) ltac:(lia) ltac:(lia)) as (-> & _).
    simpl mbind. wp_step; apply wp_ret; rewrite ?MIN_min.
    + replace (Z.min i (Ctx.frmsizecod ctx)) with i by lia. split; [|done].
      split; [lia|]. split; [done|]. left. lia.
    + split; [done|]. split; [intros _; by replace (i + 1 - 1) with i by lia|]. intros j Hj.
      destruct (Z.eq_dec j i) as [-> |]; [lia|]. apply Hlow. lia.
  - intros [i size] (-> & Hsz & Hlow). rewrite MIN_min.
    replace (Z.min (Ctx.frmsizecod ctx + 1) (Ctx.frmsizecod ctx)) with (Ctx.frmsizecod ctx) by lia.
    rewrite Hsz by lia. replace (Ctx.frmsizecod ctx + 1 - 1) with (Ctx.frmsizecod ctx) by lia.
    split; [|done]. split; [lia|]. split; [|by right]. intros j Hj. apply Hlow. lia.
Qed.

Lemma vbr_bit_allocation_spec tctx :
  cbr_ready (TCtx.frame tctx) → EncParams.encoding_mode (Ctx.params ctx) = AFTEN_ENC_MODE_VBR →
  0 ≤ EncParams.quality (Ctx.params ctx) ≤ 1023 → 0 ≤ Ctx.frmsizecod ctx ≤ 37 → 0 ≤ Ctx.fscod ctx ≤ 2 →
  wp (vbr_bit_allocation ctx tctx) (λ '(tctx', r), ∃ frame0 i, prepared (TCtx.frame tctx) frame0 ∧
    vbr_outcome (TCtx.frame tctx) frame0 i tctx tctx' r).
Proof.
  intros Hr Hmode Hq Hfz Hfs. unfold vbr_bit_allocation. cbv zeta.
  set (frame := TCtx.frame tctx) in *. set (q := EncParams.quality (Ctx.params ctx)) in *.
  apply wp_bind. eapply wp_mono; [by apply prepare_spec|]. intros frame0 Hp.
  pose proof (prepared_ready _ _ Hr Hp) as Hready.
  assert (Hw0 : blocks_wf (Frame.blocks frame0)) by (by destruct Hp as (? & -> & ? & _)).
  apply wp_bind. eapply wp_mono.
  { apply (bit_alloc_spec n (Frame.ncoefs frame0) (Frame.blocks frame0)
      (BitAllocParams.floor_ (Frame.bit_alloc frame0)) q Hready ctx frame0); try done. by apply like_frame_refl. }
  intros [f bits] [[Hlike _] ->]. cbv beta iota. fold (offset_bits ctx frame0 q).
  apply wp_bind. eapply wp_mono; [by apply choose_size|]. intros [i0 size] [Hi ->]. cbv beta iota.
  set (i := MIN i0 (Ctx.frmsizecod ctx)) in *.
  assert (Hi' : 0 ≤ Z.quot i 2 < 19).
  { destruct Hi as (Hi & _). rewrite Z.quot_div_nonneg by lia. split; [apply Z.div_pos; lia|].
    apply Z.div_lt_upper_bound; lia. }
  wp_step. apply wp_aget; [change (zlen a52_bitrate_tab) with 19; lia|]. fold (sized f i).
  eapply wp_mono.
  { apply (cbr_bit_allocation_from (tctx <| TCtx.frame := sized f i |>) 0 (λ f0, f0 = sized frame0 i)).
    - by destruct Hr.
    - intros _. unfold start_offset. rewrite Hmode. simpl. fold q. lia.
    - simpl. exists (sized frame0 i). split; [done|]. split; [done|].
      destruct Hlike as (blocks & -> & Hlike). by exists blocks. }
  intros [tctx' r] (f0 & -> & Hout). exists frame0, i. split; [done|]. split; [done|].
  assert (Hav : avail_bits (TCtx.frame (tctx <| TCtx.frame := sized f i |>)) = avail_bits (sized frame0 i)).
  { by destruct Hlike as (blocks & -> & _). }
  rewrite Hav in Hout. unfold start_offset in Hout. rewrite Hmode in Hout. exact Hout.
Qed.
End cbr.

(** * The allocation of a frame *)

Section compute.
Context `{R : Residue} {ROk : ResidueOk R}.
Variable ctx : Ctx.t.
#[local] Abbreviation n := (Ctx.n_all_channels ctx).

Record compute_ready (tctx : TCtx.t) : Prop := {
  co_start : start_ready ctx (TCtx.frame tctx);
  co_nlen : zlen (Frame.ncoefs (TCtx.frame tctx)) = 6;
  co_ncoefs : ∀ c, 0 ≤ c < n → ncoefs_ok (Frame.ncoefs (TCtx.frame tctx)).[c];
  co_exp : ∀ k c i, 0 ≤ k < 6 → 0 ≤ c < n → 0 ≤ i < (Frame.ncoefs (TCtx.frame tctx)).[c] →
           0 ≤ (bexp (Frame.blocks (TCtx.frame tctx)) k c).[i] ≤ 24;
  co_residue : ∀ c, 0 ≤ c < n → residue_readable (Frame.ncoefs (TCtx.frame tctx)).[c];
  co_mode : EncParams.encoding_mode (Ctx.params ctx) = AFTEN_ENC_MODE_CBR ∨
            EncParams.encoding_mode (Ctx.params ctx) = AFTEN_ENC_MODE_VBR;
  co_quality : EncParams.encoding_mode (Ctx.params ctx) = AFTEN_ENC_MODE_VBR → 0 ≤ EncParams.quality (Ctx.params ctx) ≤ 1023;
  co_last : EncParams.bitalloc_fast (Ctx.params ctx) ≠ 0 → 0 ≤ TCtx.last_quality tctx < 1040;
  co_frmsizecod : 0 ≤ Ctx.frmsizecod ctx ≤ 37
}.

Definition compute_outcome (tctx tctx' : TCtx.t) (r : Z) : Prop :=
  ∃ frame1 frame0, start_done ctx (TCtx.frame tctx) frame1 ∧ prepared ctx frame1 frame0 ∧
    if EncParams.encoding_mode (Ctx.params ctx) =? AFTEN_ENC_MODE_VBR
    then ∃ i, vbr_outcome ctx frame1 frame0 i tctx tctx' r
    else cbr_outcome ctx frame0 (avail_bits frame1) (TCtx.last_quality tctx) tctx tctx' r.

Lemma outcome_code frame0 avail s0 tctx tctx' r :
  cbr_outcome ctx frame0 avail s0 tctx tctx' r → (if negb (r =? 0) then -1 else 0) = r.
Proof. by intros (f & s & _ & [(-> & _)|(-> & _)]). Qed.

Lemma started_ready tctx frame1 :
  compute_ready tctx → start_done ctx (TCtx.frame tctx) frame1 → cbr_ready ctx frame1.
Proof.
  intros [Hst Hnl Hnc Hx Hres _ _ _ _] [Hf Hw Hsame _ Hp _ Hg Hgr].
  pose proof (st_channels _ _ Hst). pose proof (st_str0 _ _ Hst) as Hs0.
  assert (Hn1 : Frame.ncoefs frame1 = Frame.ncoefs (TCtx.frame tctx)) by (by rewrite Hf).
  assert (Hb : ∀ k c, 0 ≤ k < 6 → bexp (Frame.blocks frame1) k c = bexp (Frame.blocks (TCtx.frame tctx)) k c ∧
                                  bstr (Frame.blocks frame1) k c = bstr (Frame.blocks (TCtx.frame tctx)) k c)
    by (intros k c Hk; unfold bexp, bstr; by rewrite (Hsame k Hk)).
  split; rewrite ?Hn1; try done.
  - intros c Hc. rewrite (proj2 (Hb 0 c ltac:(lia))). by apply Hs0.
  - intros k c i Hk Hc Hi. rewrite (proj1 (Hb k c Hk)). by apply Hx.
  - intros k c Hk Hc. by apply Hgr.
Qed.

Lemma compute_bit_allocation_spec tctx :
  compute_ready tctx →
  wp (compute_bit_allocation ctx tctx) (λ '(tctx', r), compute_outcome tctx tctx' r).
Proof.
  intros Hr. pose proof Hr as [Hst Hnl Hnc Hx Hres Hmode Hq Hlast Hfz].
  unfold compute_bit_allocation, compute_outcome. apply wp_bind.
  eapply wp_mono; [by apply start_bit_allocation_spec|]. intros frame1 Hd. cbv zeta.
  pose proof (started_ready tctx frame1 Hr Hd) as Hc.
  destruct (Z.eqb_spec (EncParams.encoding_mode (Ctx.params ctx)) AFTEN_ENC_MODE_VBR) as [Hv|Hv].
  - apply wp_bind. eapply wp_mono; [apply vbr_bit_allocation_spec; try done; try (by destruct Hst); by apply Hq|].
    intros [tctx' r] (frame0 & i & Hp & Hi & Hout). apply wp_ret.
    rewrite (outcome_code _ _ _ _ _ _ Hout).
    exists frame1, frame0. split; [done|]. split; [done|]. exists i. split; [done|]. exact Hout.
  - destruct Hmode as [Hm|]; [|done]. rewrite Hm.
    change (AFTEN_ENC_MODE_CBR =? AFTEN_ENC_MODE_CBR) with true. cbv iota.
    set (t1 := tctx <| TCtx.frame := frame1 |>).
    assert (Hs0 : start_offset ctx t1 = TCtx.last_quality tctx) by (unfold start_offset; by rewrite Hm).
    pose proof (cbr_bit_allocation_spec ctx t1 Hc) as Hw. rewrite Hs0 in Hw.
    apply wp_bind. eapply wp_mono; [apply Hw; intros Hf; apply Hlast; lia|].
    intros [tctx' r] (frame0 & Hp & Hout). apply wp_ret. rewrite (outcome_code _ _ _ _ _ _ Hout).
    exists frame1, frame0. split; [done|]. split; [done|]. exact Hout.
Qed.

(** Blocks that differ in what allocation sets. *)
Definition same_but_alloc (b b' : Block.t) : Prop :=
  b' = b <| Block.fgaincod := Block.fgaincod b' |> <| Block.write_snr := Block.write_snr b' |>
         <| Block.psd := Block.psd b' |> <| Block.mask := Block.mask b' |> <| Block.bap := Block.bap b' |>.

(** The pointer of a bin of the frame. *)
Definition fbap (frame : Frame.t) (k c i : Z) : Z := (Block.bap (Frame.blocks frame).[k]).[c].[i].

(** The allocated frame [f], from the frame [f0] of the exponent stages: the
    data fits, and the pointers, gains and offsets are what a decoder derives. *)
Record allocation_ok (f0 f : Frame.t) : Prop := {
  ao_wf : blocks_wf (Frame.blocks f);
  ao_same : ∀ k, 0 ≤ k < 6 → same_but_alloc (Frame.blocks f0).[k] (Frame.blocks f).[k];
  ao_frame : Frame.ncoefs f = Frame.ncoefs f0 ∧ Frame.exp_bits f = Frame.exp_bits f0 ∧
             Frame.rematflg f = Frame.rematflg f0 ∧ Frame.bwcode f = Frame.bwcode f0 ∧
             Frame.sdecaycod f = Frame.sdecaycod f0 ∧ Frame.fdecaycod f = Frame.fdecaycod f0 ∧
             Frame.sgaincod f = Frame.sgaincod f0 ∧ Frame.dbkneecod f = Frame.dbkneecod f0 ∧
             Frame.floorcod f = Frame.floorcod f0;
  ao_fixed : Frame.frame_bits f = fixed_bits ctx (Frame.blocks f);
  ao_mant : Frame.mant_bits f = frame_mant_bits (fbap f) (Frame.ncoefs f) n;
  ao_fits : Frame.frame_bits f + Frame.exp_bits f + Frame.mant_bits f ≤ 16 * Frame.frame_size f;
  ao_bap : ∀ k c i, 0 ≤ k < 6 → 0 ≤ c < n → 0 ≤ i < (Frame.ncoefs f).[c] → fbap f k c i =
    alloc_bap (Frame.blocks f) a52_floor_tab.[Frame.floorcod f0] (Frame.quality f) k c i;
  ao_quality : 0 ≤ Frame.quality f ∧ Frame.quality f = 16 * Frame.csnroffst f + Frame.fsnroffst f ∧
               0 ≤ Frame.fsnroffst f < 16;
  ao_gains : ∀ k, 0 ≤ k < 6 → gains_done ctx (Frame.blocks f) k
}.
Lemma frame_mant_bits_ext bap bap' ncoefs m :
  (∀ k c i, 0 ≤ k < 6 → 0 ≤ c < m → 0 ≤ i < ncoefs.[c] → bap' k c i = bap k c i) →
  frame_mant_bits bap' ncoefs m = frame_mant_bits bap ncoefs m.
Proof.
  intros He. apply zsum_ext. intros k Hk. unfold block_mant_bits.
  assert (Hcnt : ∀ v, block_count v (bap' k) ncoefs m = block_count v (bap k) ncoefs m).
  { intros v. apply zsum_ext. intros c Hc. apply zsum_ext. intros i Hi. by rewrite He. }
  rewrite !Hcnt. f_equal. apply zsum_ext. intros c Hc. apply zsum_ext. intros i Hi. by rewrite He.
Qed.

Lemma alloc_bap_ext blocks blocks' floor s k c i :
  0 ≤ k < 6 → (∀ j, 0 ≤ j < 6 → bstr blocks' j c = bstr blocks j c ∧
    Block.psd blocks'.[j] = Block.psd blocks.[j] ∧ Block.mask blocks'.[j] = Block.mask blocks.[j]) →
  alloc_bap blocks' floor s k c i = alloc_bap blocks floor s k c i.
Proof.
  intros Hk He. unfold alloc_bap. pose proof (source_blk_range blocks c (Z.to_nat k)).
  rewrite (source_blk_ext blocks blocks') by (intros; apply He; lia).
  destruct (He (source_blk blocks c (Z.to_nat k)) ltac:(lia)) as (_ & -> & ->). done.
Qed.

Lemma fixed_bits_ext blocks blocks' :
  (∀ k, 0 ≤ k < 6 → Block.exp_strategy blocks'.[k] = Block.exp_strategy blocks.[k] ∧
                    Block.write_snr blocks'.[k] = Block.write_snr blocks.[k]) →
  fixed_bits ctx blocks' = fixed_bits ctx blocks.
Proof.
  intros He. unfold fixed_bits. do 3 f_equal. apply zsum_ext. intros k Hk. unfold block_fixed_bits.
  by destruct (He k Hk) as [-> ->].
Qed.

Lemma gains_done_ext b0 b1 k :
  0 ≤ k < 6 →
  (∀ j, 0 ≤ j < 6 → Block.exp_strategy b1.[j] = Block.exp_strategy b0.[j] ∧
     Block.write_snr b1.[j] = Block.write_snr b0.[j] ∧ Block.fgaincod b1.[j] = Block.fgaincod b0.[j]) →
  gains_done ctx b0 k → gains_done ctx b1 k.
Proof.
  intros Hk He [Hcode Hf H0 Hs].
  assert (Hg : ∀ j c, 0 ≤ j < 6 → bgain b1 j c = bgain b0 j c ∧ bstr b1 j c = bstr b0 j c)
    by (intros j c Hj; unfold bgain, bstr; by destruct (He j Hj) as (-> & _ & ->)).
  destruct (He k Hk) as (_ & Hw & _). split; rewrite ?Hw; try done.
  - intros c Hc'. pose proof (source_blk_range b0 c (Z.to_nat k)).
    rewrite (source_blk_ext b0 b1) by (intros; apply Hg; lia).
    rewrite (proj1 (Hg k c Hk)), (proj2 (Hg (source_blk b0 c (Z.to_nat k)) c ltac:(lia))). by apply Hcode.
  - intros Hz c Hc'. assert (k ≠ 0) by (intros ->; rewrite H0 in Hz; done).
    rewrite (proj1 (Hg k c Hk)), (proj1 (Hg (k - 1) c ltac:(lia))). by apply Hs.
Qed.

(** An accepted offset gives a well allocated frame; [avail] is taken from any
    frame [fs] with the sizes and counts of the allocated one. *)
Lemma accepted_allocation tctx frame1 frame0 fs s frame :
  compute_ready tctx → start_done ctx (TCtx.frame tctx) frame1 → prepared ctx frame1 frame0 →
  (∃ br fz sz mn, fs = frame0 <| Frame.bit_rate := br |> <| Frame.frmsizecod := fz |>
    <| Frame.frame_size := sz |> <| Frame.frame_size_min := mn |>) →
  allocated n (Frame.ncoefs fs) (Frame.blocks fs) (BitAllocParams.floor_ (Frame.bit_alloc fs)) s fs frame →
  0 ≤ left ctx fs (avail_bits fs) s → 0 ≤ s →
  allocation_ok (TCtx.frame tctx) (frame <| Frame.mant_bits := offset_bits ctx fs s |>
    <| Frame.csnroffst := Z.shiftr s 4 |> <| Frame.fsnroffst := Z.land s 0xF |> <| Frame.quality := s |>).
Proof.
  intros Hr Hd (B & -> & HwB & HB) (br & fz & sz & mn & ->) [(blocks & -> & Hw & Hlike) Hbap] Hleft Hs.
  simpl in *. pose proof Hd as [Hf1 Hw1 Hsame1 Hgain Hp Hfloor Hg Hgr].
  assert (Hblk : ∀ k, 0 ≤ k < 6 → same_but_alloc (Frame.blocks (TCtx.frame tctx)).[k] blocks.[k]).
  { intros k Hk. unfold same_but_alloc. rewrite (Hlike k Hk). rewrite (proj1 (HB k Hk)), (Hsame1 k Hk). done. }
  assert (Hblk1 : ∀ k, 0 ≤ k < 6 → Block.exp_strategy blocks.[k] = Block.exp_strategy (Frame.blocks frame1).[k] ∧
    Block.write_snr blocks.[k] = Block.write_snr (Frame.blocks frame1).[k] ∧
    Block.fgaincod blocks.[k] = Block.fgaincod (Frame.blocks frame1).[k]).
  { intros k Hk. rewrite (Hlike k Hk). simpl. by rewrite (proj1 (HB k Hk)). }
  assert (HblkB : ∀ k c, 0 ≤ k < 6 → bstr blocks k c = bstr B k c ∧
    Block.psd blocks.[k] = Block.psd B.[k] ∧ Block.mask blocks.[k] = Block.mask B.[k]).
  { intros k c Hk. unfold bstr. by rewrite (Hlike k Hk). }
  assert (Hmant : frame_mant_bits (λ k c i, (Block.bap blocks.[k]).[c].[i]) (Frame.ncoefs frame1) n =
    alloc_bits n (Frame.ncoefs frame1) B (BitAllocParams.floor_ (Frame.bit_alloc frame1)) s).
  { apply frame_mant_bits_ext. intros k c i Hk Hc Hi. by apply Hbap. }
  assert (Hfb : Frame.frame_bits frame1 = fixed_bits ctx blocks).
  { rewrite Hf1. simpl. apply fixed_bits_ext. intros k Hk. by destruct (Hblk1 k Hk) as (-> & -> & _). }
  split; simpl; try done.
  - rewrite Hf1. done.
  - unfold left, avail_bits, offset_bits in Hleft. simpl in Hleft. unfold offset_bits. simpl. lia.
  - intros k c i Hk Hc Hi. unfold fbap. simpl. rewrite (Hbap k Hk c i Hc Hi). rewrite <- Hfloor.
    symmetry. apply alloc_bap_ext; [done|]. intros j Hj. by apply HblkB.
  - split; [done|]. rewrite Z.shiftr_div_pow2 by lia. change 0xF with (Z.ones 4).
    rewrite Z.land_ones by lia. pose proof (Z.div_mod s (2 ^ 4)). pose proof (Z.mod_pos_bound s (2 ^ 4)). lia.
  - pose proof (co_start _ Hr) as Hst. pose proof (st_channels _ _ Hst) as [Hn Hlfe Hall _].
    intros k Hk. apply (gains_done_ext (Frame.blocks frame1)); [done|done|]. apply Hgain; lia.
Qed.
Lemma compute_success tctx tctx' :
  compute_ready tctx → compute_outcome tctx tctx' 0 →
  allocation_ok (TCtx.frame tctx) (TCtx.frame tctx') ∧
  TCtx.last_quality tctx' = Frame.quality (TCtx.frame tctx').
Proof.
  intros Hr (frame1 & frame0 & Hd & Hp & Hout).
  assert (Hgen : ∀ fs avail s0, avail = avail_bits fs → cbr_outcome ctx fs avail s0 tctx tctx' 0 →
    (∃ br fz sz mn, fs = frame0 <| Frame.bit_rate := br |> <| Frame.frmsizecod := fz |>
       <| Frame.frame_size := sz |> <| Frame.frame_size_min := mn |>) →
    allocation_ok (TCtx.frame tctx) (TCtx.frame tctx') ∧
    TCtx.last_quality tctx' = Frame.quality (TCtx.frame tctx')).
  { intros fs avail s0 -> (f & s & Ha & [(_ & (Hleft & Hs & _) & ->)|(? & _)]) Hfs; [|done].
    split; [|done]. by apply (accepted_allocation tctx frame1 frame0 fs). }
  destruct (_ =? _) in Hout.
  - destruct Hout as (i & _ & Hout). eapply Hgen; [|exact Hout|]; [done|].
    unfold sized. repeat eexists.
  - eapply (Hgen frame0); [|exact Hout|].
    + destruct Hp as (? & -> & _). done.
    + destruct frame0. repeat eexists.
Qed.
(** What allocation keeps, whether it succeeds or not. *)
Record compute_kept (tctx tctx' : TCtx.t) (r : Z) : Prop := {
  ck_code : r = 0 ∨ r = -1;
  ck_tctx : tctx' = tctx <| TCtx.frame := TCtx.frame tctx' |> <| TCtx.last_quality := TCtx.last_quality tctx' |>;
  ck_frame : let f' := TCtx.frame tctx' in f' = (TCtx.frame tctx) <| Frame.blocks := Frame.blocks f' |>
    <| Frame.bit_alloc := Frame.bit_alloc f' |> <| Frame.frame_bits := Frame.frame_bits f' |>
    <| Frame.mant_bits := Frame.mant_bits f' |> <| Frame.csnroffst := Frame.csnroffst f' |>
    <| Frame.fsnroffst := Frame.fsnroffst f' |> <| Frame.quality := Frame.quality f' |>
    <| Frame.bit_rate := Frame.bit_rate f' |> <| Frame.frmsizecod := Frame.frmsizecod f' |>
    <| Frame.frame_size := Frame.frame_size f' |> <| Frame.frame_size_min := Frame.frame_size_min f' |>;
  ck_wf : blocks_wf (Frame.blocks (TCtx.frame tctx'));
  ck_same : ∀ k, 0 ≤ k < 6 → same_but_alloc (Frame.blocks (TCtx.frame tctx)).[k] (Frame.blocks (TCtx.frame tctx')).[k];
  ck_fgain : dim2 6 6 (BitAllocParams.fgain (Frame.bit_alloc (TCtx.frame tctx')));
  ck_size : if EncParams.encoding_mode (Ctx.params ctx) =? AFTEN_ENC_MODE_VBR
    then ∃ i, 0 ≤ i ≤ Ctx.frmsizecod ctx ∧ Frame.frame_size (TCtx.frame tctx') = Z.quot a52_frame_size_tab.[i].[Ctx.fscod ctx] 16
    else Frame.frame_size (TCtx.frame tctx') = Frame.frame_size (TCtx.frame tctx);
  ck_last : EncParams.bitalloc_fast (Ctx.params ctx) ≠ 0 → 0 ≤ TCtx.last_quality tctx < 1040 → 0 ≤ TCtx.last_quality tctx' < 1040
}.

Lemma cbr_kept tctx frame1 frame0 fs avail s0 tctx' r :
  start_done ctx (TCtx.frame tctx) frame1 → prepared ctx frame1 frame0 → s0 < 1040 ∨ EncParams.bitalloc_fast (Ctx.params ctx) = 0 →
  (∃ br fz sz mn, fs = frame0 <| Frame.bit_rate := br |> <| Frame.frmsizecod := fz |>
    <| Frame.frame_size := sz |> <| Frame.frame_size_min := mn |>) →
  cbr_outcome ctx fs avail s0 tctx tctx' r →
  (if EncParams.encoding_mode (Ctx.params ctx) =? AFTEN_ENC_MODE_VBR
   then ∃ i, 0 ≤ i ≤ Ctx.frmsizecod ctx ∧ Frame.frame_size fs = Z.quot a52_frame_size_tab.[i].[Ctx.fscod ctx] 16
   else Frame.frame_size fs = Frame.frame_size (TCtx.frame tctx)) →
  compute_kept tctx tctx' r.
Proof.
  intros [Hf1 _ Hsame1 _ _ _ Hg _] (B & -> & _ & HB) Hs0 (br & fz & sz & mn & ->) (f & s & [(bl & -> & Hw & Hlike) _] & Hout) Hsz.
  simpl in *.
  assert (Hblk : ∀ k, 0 ≤ k < 6 → same_but_alloc (Frame.blocks (TCtx.frame tctx)).[k] bl.[k]).
  { intros k Hk. unfold same_but_alloc. rewrite (Hlike k Hk). rewrite (proj1 (HB k Hk)), (Hsame1 k Hk). done. }
  destruct Hout as [(-> & Ha & ->)|(-> & _ & ->)]; split; simpl; try done; auto; try (by rewrite Hf1).
  intros Hf Hl. unfold offset_accepted in Ha. destruct Ha as (_ & ? & Ha). destruct Hs0 as [Hs0|]; [|done].
  replace (negb (EncParams.bitalloc_fast (Ctx.params ctx) =? 0)) with true in Ha by lia. lia.
Qed.

Lemma compute_keeps tctx tctx' r :
  compute_ready tctx → compute_outcome tctx tctx' r → compute_kept tctx tctx' r.
Proof.
  intros Hr (frame1 & frame0 & Hd & Hp & Hout). pose proof (co_last _ Hr) as Hl. pose proof (co_quality _ Hr).
  assert (Hsz : Frame.frame_size frame0 = Frame.frame_size (TCtx.frame tctx)).
  { destruct Hp as (? & -> & _). destruct Hd as [-> _ _ _ _ _ _ _]. done. }
  destruct (_ =? _) eqn:Hm in Hout.
  - destruct Hout as (i & (Hi & _) & Hout). eapply (cbr_kept _ _ frame0); [done|done| | |exact Hout|].
    + left. assert (EncParams.encoding_mode (Ctx.params ctx) = AFTEN_ENC_MODE_VBR) by lia. auto with lia.
    + unfold sized. repeat eexists.
    + rewrite Hm. by exists i.
  - eapply (cbr_kept _ _ frame0 frame0); [done|done| | |exact Hout|].
    + destruct (Z.eq_dec (EncParams.bitalloc_fast (Ctx.params ctx)) 0); [by right|left]. by apply Hl.
    + destruct frame0. repeat eexists.
    + by rewrite Hm.
Qed.
End compute.

(** * Properties *)

(** For any offset, the allocation of a frame terminates, leaves every
    pointer as the masks, spectra and the offset define it (reused exponents
    reuse the pointers), and returns exactly the bits of the mantissas. *)
Theorem bit_alloc_correct `{R : Residue} {ROk : ResidueOk R} ctx frame s :
  alloc_ready (Ctx.n_all_channels ctx) (Frame.ncoefs frame) (Frame.blocks frame) →
  ∃ frame', bit_alloc ctx frame s = Some (frame',
      frame_mant_bits (fbap frame') (Frame.ncoefs frame) (Ctx.n_all_channels ctx)) ∧
    like_frame (Frame.blocks frame) frame frame' ∧
    ∀ k c i, 0 ≤ k < 6 → 0 ≤ c < Ctx.n_all_channels ctx → 0 ≤ i < (Frame.ncoefs frame).[c] →
      fbap frame' k c i =
        alloc_bap (Frame.blocks frame) (BitAllocParams.floor_ (Frame.bit_alloc frame)) s k c i.
Proof.
  intros Hr. pose proof (bit_alloc_spec _ _ _ _ s Hr ctx frame frame eq_refl eq_refl eq_refl
    (like_frame_refl frame (ar_wf _ _ _ Hr))) as Hw.
  apply wp_some in Hw as ([f bits] & -> & [Hl Hb] & ->). exists f. split; [|split; [done|]].
  - do 2 f_equal. symmetry. apply frame_mant_bits_ext. intros k c i Hk Hc Hi. by apply Hb.
  - intros k c i Hk Hc Hi. by apply Hb.
Qed.

Lemma bit_alloc_correct_witness :
  ∃ frame', @bit_alloc trapping_residue example_ctx example_frame 240 = Some (frame',
      frame_mant_bits (fbap frame') (Frame.ncoefs example_frame) 2) ∧
    like_frame (Frame.blocks example_frame) example_frame frame' ∧
    ∀ k c i, 0 ≤ k < 6 → 0 ≤ c < 2 → 0 ≤ i < (Frame.ncoefs example_frame).[c] →
      fbap frame' k c i = alloc_bap (Frame.blocks example_frame)
        (BitAllocParams.floor_ (Frame.bit_alloc example_frame)) 240 k c i.
Proof.
  apply (@bit_alloc_correct trapping_residue trapping_residue_ok example_ctx example_frame 240).
  change (Ctx.n_all_channels example_ctx) with 2. split.
  - lia.
  - apply example_blocks_wf.
  - done.
  - intros c Hc. apply example_ncoefs_ok. lia.
  - intros c Hc. destruct (example_at 0 c 0 ltac:(lia) ltac:(lia)) as [-> _]. done.
  - intros c Hc. left. rewrite example_ncoefs by lia. by vm_compute.
Defined.


(** C5: From the state the exponent stages leave, bit allocation terminates in
    both modes; when it succeeds, all data fits the frame, the fixed bits and
    mantissa bits are counted exactly, the offset fields give back the quality,
    the pointers are those of that quality, and the decoder is told of every
    change of the gains. *)
Theorem bit_allocation_fits `{R : Residue} {ROk : ResidueOk R} ctx tctx :
  compute_ready ctx tctx →
  ∃ tctx' r, compute_bit_allocation ctx tctx = Some (tctx', r) ∧ (r = 0 ∨ r = -1) ∧
    (r = 0 → allocation_ok ctx (TCtx.frame tctx) (TCtx.frame tctx') ∧
             TCtx.last_quality tctx' = Frame.quality (TCtx.frame tctx')).
Proof.
  intros Hr. pose proof (compute_bit_allocation_spec ctx tctx Hr) as Hw.
  apply wp_some in Hw as ([t' r] & Heq & Hout). exists t', r. split; [done|]. split.
  - destruct Hout as (f1 & f0 & _ & _ & Hout). destruct (_ =? _) in Hout.
    + destruct Hout as (i & _ & f & s & _ & [(-> & _)|(-> & _)]); auto.
    + destruct Hout as (f & s & _ & [(-> & _)|(-> & _)]); auto.
  - intros ->. by apply compute_success.
Qed.

Definition example_tctx : TCtx.t := {|
  TCtx.thread_num := 0; TCtx.framesize := 768; TCtx.status := Status.mk 0 0 0;
  TCtx.frame := example_frame <| Frame.frame_size := 384 |> <| Frame.exp_bits := 1704 |>;
  TCtx.bw := bitwriter_init None 0; TCtx.bit_cnt := 0; TCtx.sample_cnt := 0; TCtx.last_quality := 240
|}.

Lemma example_compute_ready : @compute_ready trapping_residue example_ctx example_tctx.
Proof.
  assert (Hb : Frame.blocks (TCtx.frame example_tctx) = Frame.blocks example_frame) by done.
  assert (Hn : Frame.ncoefs (TCtx.frame example_tctx) = Frame.ncoefs example_frame) by done.
  split; rewrite ?Hb, ?Hn; change (Ctx.n_all_channels example_ctx) with 2.
  - split; try (simpl; unfold A52_ACMOD_STEREO; lia); rewrite ?Hb; change (Ctx.n_all_channels example_ctx) with 2.
    + apply example_channels.
    + apply example_blocks_wf.
    + exact (dim2_replicate 6 6 0).
    + intros k c Hk Hc. destruct (example_at k c 0 Hk ltac:(lia)) as [-> _]. unfold EXP_D25. lia.
    + intros c Hc. destruct (example_at 0 c 0 ltac:(lia) ltac:(lia)) as [-> _]. done.
  - done.
  - intros c Hc. apply example_ncoefs_ok. lia.
  - intros k c i Hk Hc Hi. rewrite example_ncoefs in Hi by lia.
    destruct (example_at k c i Hk ltac:(lia)) as [_ He]. destruct (He ltac:(lia)) as [-> _]. lia.
  - intros c Hc. left. rewrite example_ncoefs by lia. by vm_compute.
  - by left.
  - simpl. lia.
  - simpl. lia.
  - simpl. lia.
Qed.

Lemma bit_allocation_fits_witness :
  ∃ tctx' r, @compute_bit_allocation trapping_residue example_ctx example_tctx = Some (tctx', r) ∧ (r = 0 ∨ r = -1) ∧
    (r = 0 → allocation_ok example_ctx (TCtx.frame example_tctx) (TCtx.frame tctx') ∧
             TCtx.last_quality tctx' = Frame.quality (TCtx.frame tctx')).
Proof.
  apply (@bit_allocation_fits trapping_residue trapping_residue_ok). apply example_compute_ready.
Defined.

(** C20: In constant bit rate mode the search ends at one offset, which the
    bits left at each offset determine, and the frame is accepted exactly when
    the data of that offset fits.  The slow search jumps by the estimated
    distance, goes up in steps until a hundred bits are missing or to 1023, and
    finds the greatest offset from there down that fits; none fits above it.
    The fast search goes in steps of 16 only: it finds the last offset with
    bits left before one without, or the first one that fits on the way down;
    at the top it gives the last step away.  A refusal means that every offset
    tried is too large, and that the steps ended below 16. *)
Theorem cbr_search_result `{R : Residue} {ROk : ResidueOk R} ctx tctx :
  compute_ready ctx tctx → EncParams.encoding_mode (Ctx.params ctx) = AFTEN_ENC_MODE_CBR →
  ∃ frame1 frame0 tctx' r s, compute_bit_allocation ctx tctx = Some (tctx', r) ∧
    start_done ctx (TCtx.frame tctx) frame1 ∧ prepared ctx frame1 frame0 ∧
    let avail := avail_bits frame1 in
    (if EncParams.bitalloc_fast (Ctx.params ctx) =? 0 then slow_found ctx frame0 avail (TCtx.last_quality tctx) s
     else fast_found ctx frame0 avail (TCtx.last_quality tctx) s) ∧
    ((r = 0 ∧ 0 ≤ left ctx frame0 avail s ∧ Frame.quality (TCtx.frame tctx') = s) ∨
     (r = -1 ∧ left ctx frame0 avail s < 0 ∧ s < 16)).
Proof.
  intros Hr Hm. pose proof (compute_bit_allocation_spec ctx tctx Hr) as Hw.
  apply wp_some in Hw as ([t' r] & Heq & f1 & f0 & Hd & Hp & Hout). rewrite Hm in Hout. simpl in Hout.
  destruct Hout as (f & s & _ & Hout). exists f1, f0, t', r, s. split; [done|]. split; [done|]. split; [done|]. cbv zeta.
  unfold offset_accepted, offset_refused, offset_found in Hout.
  destruct Hout as [(-> & (Hl & _ & _ & Hf) & ->)|(-> & (Hl & Hs & Hf) & _)]; destruct (_ =? 0) in Hf |- *; (split; [exact Hf|]); [by left|by left|by right|by right].
Qed.

Lemma cbr_search_result_witness :
  ∃ frame1 frame0 tctx' r s, @compute_bit_allocation trapping_residue example_ctx example_tctx = Some (tctx', r) ∧
    start_done example_ctx (TCtx.frame example_tctx) frame1 ∧ prepared example_ctx frame1 frame0 ∧
    let avail := avail_bits frame1 in
    slow_found example_ctx frame0 avail 240 s ∧
    ((r = 0 ∧ 0 ≤ left example_ctx frame0 avail s ∧ Frame.quality (TCtx.frame tctx') = s) ∨
     (r = -1 ∧ left example_ctx frame0 avail s < 0 ∧ s < 16)).
Proof.
  apply (@cbr_search_result trapping_residue trapping_residue_ok); [apply example_compute_ready|done].
Defined.

(** C28: In variable bit rate mode the frame gets the smallest of the allowed
    sizes that holds the data at the requested quality, or the largest. *)
Theorem vbr_smallest_size `{R : Residue} {ROk : ResidueOk R} ctx tctx :
  compute_ready ctx tctx → EncParams.encoding_mode (Ctx.params ctx) = AFTEN_ENC_MODE_VBR →
  ∃ frame1 frame0 i tctx' r, compute_bit_allocation ctx tctx = Some (tctx', r) ∧
    start_done ctx (TCtx.frame tctx) frame1 ∧ prepared ctx frame1 frame0 ∧
    size_chosen ctx (Frame.frame_bits frame1 + Frame.exp_bits frame1 +
      offset_bits ctx frame0 (EncParams.quality (Ctx.params ctx))) i ∧
    (r = 0 → Frame.frmsizecod (TCtx.frame tctx') = i ∧
             16 * Frame.frame_size (TCtx.frame tctx') = a52_frame_size_tab.[i].[Ctx.fscod ctx]).
Proof.
  intros Hr Hm. pose proof (compute_bit_allocation_spec ctx tctx Hr) as Hw.
  apply wp_some in Hw as ([t' r] & Heq & f1 & f0 & Hd & Hp & Hout). rewrite Hm in Hout. simpl in Hout.
  destruct Hout as (i & Hsz & Hout). exists f1, f0, i, t', r. do 4 (split; [done|]). intros ->.
  destruct Hout as (f & s & [(bl & -> & _) _] & [(_ & _ & ->)|(? & _)]); [|done]. simpl. split; [done|].
  pose proof (st_fscod _ _ (co_start _ _ Hr)). destruct Hsz as (Hi & _). pose proof (co_frmsizecod _ _ Hr).
  destruct (frame_size_tab_ok i (Ctx.fscod ctx) ltac:(lia) ltac:(lia)) as (_ & Hrg & Hmod).
  rewrite Z.quot_div_nonneg by lia. pose proof (Z.div_mod a52_frame_size_tab.[i].[Ctx.fscod ctx] 16). lia.
Qed.

Definition example_vbr_ctx : Ctx.t := example_ctx <| Ctx.params := (Ctx.params example_ctx)
  <| EncParams.encoding_mode := AFTEN_ENC_MODE_VBR |> |> <| Ctx.frmsizecod := 36 |>.

Lemma vbr_smallest_size_witness :
  ∃ frame1 frame0 i tctx' r, @compute_bit_allocation trapping_residue example_vbr_ctx example_tctx = Some (tctx', r) ∧
    start_done example_vbr_ctx (TCtx.frame example_tctx) frame1 ∧ prepared example_vbr_ctx frame1 frame0 ∧
    size_chosen example_vbr_ctx (Frame.frame_bits frame1 + Frame.exp_bits frame1 +
      offset_bits example_vbr_ctx frame0 240) i ∧
    (r = 0 → Frame.frmsizecod (TCtx.frame tctx') = i ∧
             16 * Frame.frame_size (TCtx.frame tctx') = a52_frame_size_tab.[i].[0]).
Proof.
  apply (@vbr_smallest_size trapping_residue trapping_residue_ok example_vbr_ctx example_tctx); [|done].
  destruct example_compute_ready as [[] ? ? ? ? ? ? ? ?]. split; [split|..]; try assumption.
  - by destruct example_channels.
  - by right.
  - intros _. simpl. lia.
Defined.

(** A mono frame at 640 kbit/s. *)
Definition loud_exps : list Z :=
  map (λ i, Z.min 24 (2 * Z.abs ((Z.of_nat i + 11) mod 23 - 11))) (seq 0 256).
Definition loud_block (s : Z) : Block.t :=
  zero_block <| Block.exp_strategy := [s; 0; 0; 0; 0; 0] |> <| Block.exp_ := replicate 6 loud_exps |>.
Definition loud_tctx : TCtx.t := example_tctx <| TCtx.last_quality := 500 |>
  <| TCtx.frame := zero_frame <| Frame.ncoefs := replicate 6 229 |>
    <| Frame.blocks := loud_block EXP_D15 :: replicate 5 (loud_block EXP_REUSE) |>
    <| Frame.frame_size := 1280 |> <| Frame.exp_bits := 592 |>
    <| Frame.sdecaycod := 2 |> <| Frame.fdecaycod := 1 |> <| Frame.sgaincod := 1 |>
    <| Frame.dbkneecod := 2 |> <| Frame.floorcod := 7 |> |>.
Definition mono_ctx : Ctx.t :=
  example_ctx <| Ctx.n_channels := 1 |> <| Ctx.n_all_channels := 1 |> <| Ctx.acmod := A52_ACMOD_MONO |>.

(** The jumps of the search are not limited to 1023: on a mono frame of
    1280 words the accepted offset is 1032, whose coarse part 64 does not fit
    its field of 6 bits. *)
Theorem offset_exceeds_field :
  match @compute_bit_allocation trapping_residue mono_ctx loud_tctx with
  | Some (t, r) => r = 0 ∧ Frame.quality (TCtx.frame t) = 1032 ∧ Frame.csnroffst (TCtx.frame t) = 64
  | None => False
  end.
Proof. vm_compute. auto. Qed.
