(* ===== verification/Quant.v ===== *)
(** Mantissa quantisation of [libaften/a52enc.c]: [sym_quant], [asym_quant],
    [quant_mant_ch], [quantize_mantissas].  The theorems bound the codes and the
    quantisation error, and show that the grouped mantissas of a block can be
    taken apart again and that the marker 128 is no code. *)
From Stdlib Require Import ZArith Lia ZifyBool Bool.
From stdpp Require Import base option list numbers.
From coqutil Require Import Datatypes.RecordSettersUsingExistingGetters.
From S2P Require Import Prelude CMachine Float Tables Types Util A52 Exponent BitAlloc.
Local Open Scope Z_scope.
Local Open Scope carray_scope.

(** Symmetric quantisation on [levels] levels. *)
Definition sym_quant (c e levels : Z) : Z :=
  Z.shiftr (Z.shiftr (levels * c) (24 - e) + 1) 1 + Z.shiftr levels 1.

(** Asymmetric quantisation on [2^qbits] levels. *)
Definition asym_quant (c e qbits : Z) : Z :=
  let lshift := e + (qbits - 1) - 24 in
  let v := if lshift >=? 0 then Z.shiftl c lshift else Z.shiftr c (- lshift) in
  let m := Z.shiftl 1 (qbits - 1) in
  CLIP v (- m) (m - 1).

(** The mantissas of a block: [qmant[ch][i]], and the state that a block's
    channels share: [qmant_ptr] (the element a slot points to) and [mant_cnt]. *)
Definition qstate : Type := list (list Z) * list (option (Z * Z)) * list Z.

(** [*qmant_ptr[k] += v] *)
Definition ptr_add (qmant : list (list Z)) (ptr : list (option (Z * Z))) (k v : Z) : option (list (list Z)) :=
  p ← aget ptr k;
  p ← p;
  q ← aget2 qmant (fst p) (snd p);
  aset2 qmant (fst p) (snd p) (u16 (q + v)).

(** The cases 1, 2 and 4 of the switch, which differ in the slot, the weights
    of the first and second mantissa and the size of the groups. *)
Definition quant_grouped (k w0 w1 size v ch i : Z) '((qmant, ptr, cnt) : qstate) : option (qstate * Z) :=
  n ← aget cnt k;
  '(qmant, ptr, v) ←
    (if n =? 0 then
       ptr ← aset ptr k (Some (ch, i));
       Some (qmant, ptr, w0 * v)
     else if (size =? 3) && (n =? 1) then
       qmant ← ptr_add qmant ptr k (w1 * v);
       Some (qmant, ptr, 128)
     else
       qmant ← ptr_add qmant ptr k v;
       Some (qmant, ptr, 128));
  cnt ← aset cnt k (Z.rem (n + 1) size);
  Some (qmant, ptr, cnt, v).

Section quant.
Context `{FloatFormat}.

Definition quant_mant_ch (mdct_coef : list FLOAT) (exp_ bap : list Z) (ch ncoefs : Z) (st : qstate)
    : option qstate :=
  for_up 0 ncoefs (λ i st,
    x ← aget mdct_coef i;
    c ← F_to_int (F_mul x two24);
    e ← aget exp_ i;
    b ← aget bap i;
    '(st, v) ←
      (if b =? 0 then Some (st, 0)
       else if b =? 1 then quant_grouped 0 9 3 3 (sym_quant c e 3) ch i st
       else if b =? 2 then quant_grouped 1 25 5 3 (sym_quant c e 5) ch i st
       else if b =? 3 then Some (st, sym_quant c e 7)
       else if b =? 4 then quant_grouped 2 11 1 2 (sym_quant c e 11) ch i st
       else if b =? 5 then Some (st, sym_quant c e 15)
       else if b =? 14 then Some (st, asym_quant c e 14)
       else if b =? 15 then Some (st, asym_quant c e 16)
       else Some (st, asym_quant c e (b - 1)));
    let '(qmant, ptr, cnt) := (st : qstate) in
    qmant ← aset2 qmant ch i (u16 v);
    Some (qmant, ptr, cnt)) st.

Definition quantize_mantissas (ctx : Ctx.t) (frame : Frame.t) : option Frame.t :=
  for_up 0 A52_NUM_BLOCKS (λ blk frame,
    '(frame, _) ← with_block frame blk (λ b _,
      '(qmant, _, _) ← for_up 0 (Ctx.n_all_channels ctx) (λ ch st,
        m ← aget (Block.mdct_coef b) ch;
        e ← aget (Block.exp_ b) ch;
        p ← aget (Block.bap b) ch;
        nc ← aget (Frame.ncoefs frame) ch;
        quant_mant_ch m e p ch nc st) (Block.qmant b, [None; None; None], [0; 0; 0]);
      Some (b <| Block.qmant := qmant |>, ())) ();
    Some frame) frame.
End quant.

(** * One mantissa *)

Lemma sym_quant_range c e levels :
  0 ≤ e ≤ 24 → 0 < levels → Z.odd levels = true → Z.abs c < 2 ^ (24 - e) →
  0 ≤ sym_quant c e levels < levels.
Proof.
  intros He Hl Ho Hc. unfold sym_quant. rewrite !Z.shiftr_div_pow2 by lia. change (2 ^ 1) with 2.
  assert (Hp : 0 < 2 ^ (24 - e)) by (apply Z.pow_pos_nonneg; lia).
  rewrite Z.odd_spec in Ho. destruct Ho as [h Hh]. set (s := 2 ^ (24 - e)) in *.
  assert (Hh2 : levels / 2 = h) by (symmetry; apply (Z.div_unique _ _ _ 1); lia).
  assert (Hlo : - levels ≤ levels * c / s) by (apply Z.div_le_lower_bound; nia).
  assert (Hhi : levels * c / s < levels) by (apply Z.div_lt_upper_bound; nia).
  rewrite Hh2. pose proof (Z.div_le_lower_bound (levels * c / s + 1) 2 (- h) ltac:(lia) ltac:(lia)).
  pose proof (Z.div_lt_upper_bound (levels * c / s + 1) 2 (h + 1) ltac:(lia) ltac:(lia)). lia.
Qed.

(** The error of the reconstruction [2 * (v - levels / 2) / levels], scaled:
    at most half a step. *)
Lemma sym_quant_error c e levels :
  0 ≤ e ≤ 24 →
  Z.abs (levels * c - 2 * (sym_quant c e levels - Z.shiftr levels 1) * 2 ^ (24 - e)) ≤ 2 ^ (24 - e).
Proof.
  intros He. unfold sym_quant. rewrite Z.add_simpl_r, !Z.shiftr_div_pow2 by lia. change (2 ^ 1) with 2.
  assert (Hp : 0 < 2 ^ (24 - e)) by (apply Z.pow_pos_nonneg; lia). set (s := 2 ^ (24 - e)) in *.
  set (t := levels * c / s). set (u := (t + 1) / 2).
  assert (Ht : s * t ≤ levels * c < s * t + s)
    by (unfold t; pose proof (Z.div_mod (levels * c) s); pose proof (Z.mod_pos_bound (levels * c) s); lia).
  assert (Hu : 2 * u ≤ t + 1 < 2 * u + 2)
    by (unfold u; pose proof (Z.div_mod (t + 1) 2); pose proof (Z.mod_pos_bound (t + 1) 2); lia).
  nia.
Qed.

(** The bits of an asymmetric code: the clipping never changes it. *)
Lemma asym_quant_spec c e qbits :
  0 ≤ e ≤ 24 → 1 ≤ qbits ≤ 16 → Z.abs c < 2 ^ (24 - e) →
  - 2 ^ (qbits - 1) ≤ asym_quant c e qbits < 2 ^ (qbits - 1) ∧
  (if e + (qbits - 1) - 24 >=? 0 then asym_quant c e qbits = c * 2 ^ (e + (qbits - 1) - 24)
   else asym_quant c e qbits * 2 ^ (24 - e - (qbits - 1)) ≤ c
        < (asym_quant c e qbits + 1) * 2 ^ (24 - e - (qbits - 1))).
Proof.
  intros He Hq Hc. unfold asym_quant. cbv zeta. rewrite CLIP_clip, (Z.shiftl_mul_pow2 1), Z.mul_1_l by lia.
  set (m := 2 ^ (qbits - 1)).
  assert (Hm : 0 < m) by (apply Z.pow_pos_nonneg; lia).
  destruct (Z.geb_spec (e + (qbits - 1) - 24) 0) as [Hs|Hs].
  - rewrite Z.shiftl_mul_pow2 by lia. set (k := e + (qbits - 1) - 24) in *.
    assert (Hmk : m = 2 ^ (24 - e) * 2 ^ k) by (unfold m, k; rewrite <- Z.pow_add_r by lia; f_equal; lia).
    assert (0 < 2 ^ k) by (apply Z.pow_pos_nonneg; lia).
    assert (Hr : - m ≤ c * 2 ^ k ≤ m - 1) by nia. lia.
  - rewrite Z.shiftr_div_pow2 by lia. replace (- (e + (qbits - 1) - 24)) with (24 - e - (qbits - 1)) by lia.
    set (k := 24 - e - (qbits - 1)). assert (Hk : 0 < 2 ^ k) by (apply Z.pow_pos_nonneg; lia).
    assert (Hmk : 2 ^ (24 - e) = m * 2 ^ k) by (unfold m, k; rewrite <- Z.pow_add_r by lia; f_equal; lia).
    pose proof (Z.div_mod c (2 ^ k)). pose proof (Z.mod_pos_bound c (2 ^ k)).
    pose proof (Z.div_le_lower_bound c (2 ^ k) (- m) Hk ltac:(nia)).
    pose proof (Z.div_lt_upper_bound c (2 ^ k) m Hk ltac:(nia)). 
    rewrite Z.max_l by lia. rewrite Z.min_l by lia. nia.
Qed.

(** * Groups of mantissas *)

(** The code of a group of [n] mantissas of [l] levels, the first highest;
    missing ones count as 0. *)
Fixpoint pack (l : Z) (n : nat) (vs : list Z) : Z :=
  match n with
  | O => 0
  | S n' => hd 0 vs * l ^ Z.of_nat n' + pack l n' (tail vs)
  end.

(** Mantissa [r] of a group, as a decoder takes it from the code. *)
Definition digit (l len q r : Z) : Z := q / l ^ (len - 1 - r) mod l.

Lemma pack_snoc l n vs v :
  pack l n (vs ++ [v]) =
  pack l n vs + (if zlen vs <? Z.of_nat n then l ^ (Z.of_nat n - 1 - zlen vs) * v else 0).
Proof.
  revert vs. induction n as [|n IH]; intros vs; cbn [pack].
  - pose proof (zlen_nonneg vs). by replace (zlen vs <? Z.of_nat 0) with false by lia.
  - destruct vs as [|x vs]; cbn [hd tail app].
    + change (zlen (@nil Z)) with 0. replace (0 <? Z.of_nat (S n)) with true by lia.
      replace (Z.of_nat (S n) - 1 - 0) with (Z.of_nat n) by lia. lia.
    + rewrite IH, zlen_cons. pose proof (zlen_nonneg vs).
      replace (1 + zlen vs <? Z.of_nat (S n)) with (zlen vs <? Z.of_nat n) by lia.
      replace (Z.of_nat (S n) - 1 - (1 + zlen vs)) with (Z.of_nat n - 1 - zlen vs) by lia. lia.
Qed.

Lemma pack_range l n vs : 0 < l → (∀ v, v ∈ vs → 0 ≤ v < l) → 0 ≤ pack l n vs < l ^ Z.of_nat n.
Proof.
  intros Hl. revert vs. induction n as [|n IH]; intros vs Hv; cbn [pack]; [simpl; lia|].
  assert (Ht : ∀ v, v ∈ tail vs → 0 ≤ v < l) by (intros v Hin; apply Hv; destruct vs; [done|by constructor]).
  specialize (IH _ Ht). assert (0 ≤ hd 0 vs < l) by (destruct vs; simpl; [lia|apply Hv; by constructor]).
  rewrite Nat2Z.inj_succ, Z.pow_succ_r by lia. nia.
Qed.

(** The mantissas of a group are recovered from its code. *)
Lemma digit_pack l n vs r :
  0 < l → (∀ v, v ∈ vs → 0 ≤ v < l) → 0 ≤ r < Z.of_nat n → digit l (Z.of_nat n) (pack l n vs) r = nth (Z.to_nat r) vs 0.
Proof.
  intros Hl. revert vs r. induction n as [|n IH]; intros vs r Hv Hr; [lia|]. cbn [pack].
  assert (Ht : ∀ v, v ∈ tail vs → 0 ≤ v < l) by (intros v Hin; apply Hv; destruct vs; [done|by constructor]).
  pose proof (pack_range l n (tail vs) Hl Ht) as Hp.
  assert (Hh : 0 ≤ hd 0 vs < l) by (destruct vs; simpl; [lia|apply Hv; by constructor]).
  unfold digit in *. replace (Z.of_nat (S n) - 1 - r) with (Z.of_nat n - r) by lia.
  destruct (Z.eqb_spec r 0) as [-> |Hr0].
  - rewrite Z.sub_0_r, Z.add_comm, Z.div_add by lia. rewrite Z.div_small by done.
    rewrite Z.mod_small by lia. by destruct vs.
  - assert (Hw : l ^ Z.of_nat n = l ^ (r - 1) * l * l ^ (Z.of_nat n - r)).
    { replace (Z.of_nat n) with (r - 1 + 1 + (Z.of_nat n - r)) at 1 by lia.
      by rewrite !Z.pow_add_r, Z.pow_1_r by lia. }
    assert (0 < l ^ (Z.of_nat n - r)) by (apply Z.pow_pos_nonneg; lia).
    rewrite Hw, !Z.mul_assoc, Z.add_comm, Z.div_add, Z.mod_add by lia.
    replace (Z.of_nat n - r) with (Z.of_nat n - 1 - (r - 1)) by lia. rewrite IH by (done || lia).
    replace (Z.to_nat r) with (S (Z.to_nat (r - 1))) by lia. destruct vs; [|done]. by destruct (Z.to_nat (r - 1)).
Qed.

(** The three kinds of groups, by slot. *)
Definition kind_bap (k : Z) : Z := if k =? 0 then 1 else if k =? 1 then 2 else 4.
Definition kind_levels (k : Z) : Z := if k =? 0 then 3 else if k =? 1 then 5 else 11.
Definition kind_size (k : Z) : nat := if k =? 2 then 2 else 3.
Definition kind_of (b : Z) : Z := if b =? 1 then 0 else if b =? 2 then 1 else 2.
Definition is_grouped (b : Z) : bool := (b =? 1) || (b =? 2) || (b =? 4).
Definition code_bits (b : Z) : Z := if b =? 14 then 14 else if b =? 15 then 16 else b - 1.

(** A mantissa that is not grouped. *)
Definition plain_code (c e b : Z) : Z :=
  if b =? 0 then 0 else if b =? 3 then sym_quant c e 7 else if b =? 5 then sym_quant c e 15
  else asym_quant c e (code_bits b).

Section groups.
(** A block: the numbers of coefficients, the pointers, the scaled coefficients
    and the exponents. *)
Variables (ncoefs : list Z) (bap coef ex : Z → Z → Z).

Definition val (k c i : Z) : Z := sym_quant (coef c i) (ex c i) (kind_levels k).

(** The mantissas of kind [k] before bin [i] of channel [c], in order. *)
Definition row_seq (k c i : Z) : list Z := zcat (λ i, if bap c i =? kind_bap k then [val k c i] else []) i.
Definition kseq (k c i : Z) : list Z := zcat (λ c, row_seq k c ncoefs.[c]) c ++ row_seq k c i.

Definition before (p q : Z * Z) : Prop :=
  0 ≤ fst p ∧ 0 ≤ snd p < ncoefs.[fst p] ∧ (fst p < fst q ∨ fst p = fst q ∧ snd p < snd q).

(** The element [qmant[c][i]] that a block's mantissas [L] give: the first of
    a group carries the group's code, the others the marker 128. *)
Definition mant_code (L : Z → list Z) (c i : Z) : Z :=
  let b := bap c i in
  if is_grouped b then
    let k := kind_of b in
    let j := zlen (kseq k c i) in
    if j mod Z.of_nat (kind_size k) =? 0 then pack (kind_levels k) (kind_size k) (drop (Z.to_nat j) (L k))
    else 128
  else u16 (plain_code (coef c i) (ex c i) b).

Lemma kseq_start k : kseq k 0 0 = [].
Proof. done. Qed.

Lemma kseq_step k c i :
  0 ≤ i → kseq k c (i + 1) = kseq k c i ++ (if bap c i =? kind_bap k then [val k c i] else []).
Proof. intros Hi. unfold kseq, row_seq. by rewrite zcat_succ, app_assoc by lia. Qed.

Lemma kseq_next k c : 0 ≤ c → kseq k (c + 1) 0 = kseq k c ncoefs.[c].
Proof. intros Hc. unfold kseq. rewrite zcat_succ by lia. unfold row_seq at 3. by rewrite zcat_0, app_nil_r. Qed.

(** The sequence only grows along the block. *)
Lemma row_seq_mono k c a b : 0 ≤ a ≤ b → ∃ t, row_seq k c b = row_seq k c a ++ t.
Proof.
  intros Hab. replace b with (a + (b - a)) by lia.
  apply (zsum_ind (λ d, ∃ t, row_seq k c (a + d) = row_seq k c a ++ t) (b - a)); [lia| |].
  { exists []. by rewrite Z.add_0_r, app_nil_r. }
  intros d Hd [t Ht]. unfold row_seq in *. rewrite Z.add_assoc, zcat_succ, Ht by lia.
  eexists. by rewrite <- app_assoc.
Qed.

Lemma kseq_mono k c i c' i' :
  0 ≤ c → 0 ≤ i → 0 ≤ i' → (c < c' ∧ i ≤ ncoefs.[c] ∨ c = c' ∧ i ≤ i') → ∃ t, kseq k c' i' = kseq k c i ++ t.
Proof.
  intros Hc Hi Hi' [[Hlt Hn]|[<- Hle]].
  - assert (∃ t, zcat (λ c, row_seq k c ncoefs.[c]) c' = kseq k c i ++ t) as [t Ht].
    2: { unfold kseq at 1. rewrite Ht, <- app_assoc. eauto. }
    replace c' with (c + 1 + (c' - (c + 1))) by lia.
    apply (zsum_ind (λ d, ∃ t, zcat (λ c, row_seq k c ncoefs.[c]) (c + 1 + d) = kseq k c i ++ t)); [lia| |].
    + rewrite Z.add_0_r, zcat_succ by lia. destruct (row_seq_mono k c i ncoefs.[c]) as [t ->]; [lia|].
      unfold kseq. rewrite app_assoc. eauto.
    + intros d Hd [t Ht]. rewrite Z.add_assoc, zcat_succ, Ht, <- app_assoc by lia. eauto.
  - unfold kseq. destruct (row_seq_mono k c i i') as [t ->]; [lia|]. rewrite app_assoc. eauto.
Qed.

(** A mantissa's index is below those of the later mantissas of its kind. *)
Lemma kseq_before k p q :
  before p q → 0 ≤ snd q → bap (fst p) (snd p) = kind_bap k →
  zlen (kseq k (fst p) (snd p)) < zlen (kseq k (fst q) (snd q)).
Proof.
  intros (Hc & Hi & Hor) Hq Hb.
  destruct (kseq_mono k (fst p) (snd p + 1) (fst q) (snd q)) as [t ->]; [lia|lia|lia|lia|].
  rewrite kseq_step, Hb, Z.eqb_refl, !zlen_app by lia. pose proof (zlen_nonneg t).
  change (zlen [_]) with 1. lia.
Qed.

Lemma kseq_inj k p p' q :
  before p q → before p' q → bap (fst p) (snd p) = kind_bap k → bap (fst p') (snd p') = kind_bap k →
  zlen (kseq k (fst p) (snd p)) = zlen (kseq k (fst p') (snd p')) → p = p'.
Proof.
  intros Hp Hp' Hb Hb' He. destruct (decide (p = p')) as [|Hne]; [done|].
  assert (Hord : before p p' ∨ before p' p).
  { destruct p as [c i], p' as [c' i'], Hp as (? & ? & _), Hp' as (? & ? & _). unfold before. simpl in *.
    assert (c ≠ c' ∨ i ≠ i') by (destruct (Z.eq_dec c c') as [-> |]; [right; congruence|by left]). lia. }
  destruct Hord as [Ho|Ho].
  - pose proof (kseq_before k p p' Ho ltac:(apply Hp') Hb). lia.
  - pose proof (kseq_before k p' p Ho ltac:(apply Hp) Hb'). lia.
Qed.

Lemma kind_bap_of b : is_grouped b = true → kind_bap (kind_of b) = b ∧ 0 ≤ kind_of b < 3.
Proof. unfold is_grouped, kind_of, kind_bap. 
  destruct (Z.eqb_spec b 1), (Z.eqb_spec b 2), (Z.eqb_spec b 4); subst; simpl; try done.
Qed.

Lemma kind_of_bap k : 0 ≤ k < 3 → kind_of (kind_bap k) = k ∧ is_grouped (kind_bap k) = true.
Proof. intros Hk. assert (k = 0 ∨ k = 1 ∨ k = 2) as [-> |[-> | ->]] by lia; done. Qed.

Lemma kind_facts k : 0 < kind_levels k ∧ Z.odd (kind_levels k) = true ∧ 2 ≤ Z.of_nat (kind_size k) ≤ 3.
Proof. unfold kind_levels, kind_size. destruct (k =? 0), (k =? 1), (k =? 2); simpl; lia. Qed.

(** No code of a group reaches the marker. *)
Lemma kind_codes k : 0 ≤ k < 3 → kind_levels k ^ Z.of_nat (kind_size k) ≤ 125.
Proof. intros Hk. assert (k = 0 ∨ k = 1 ∨ k = 2) as [-> |[-> | ->]] by lia; vm_compute; done. Qed.

(** The state of a block's quantisation before bin [i] of channel [c]. *)
Record quant_inv (c i : Z) (st : qstate) : Prop := {
  qi_qmant : dim2 6 256 st.1.1;
  qi_len : zlen st.1.2 = 3 ∧ zlen st.2 = 3;
  qi_code : ∀ p, before p (c, i) → st.1.1.[fst p].[snd p] = mant_code (λ k, kseq k c i) (fst p) (snd p);
  qi_cnt : ∀ k, 0 ≤ k < 3 → st.2.[k] = zlen (kseq k c i) mod Z.of_nat (kind_size k);
  qi_ptr : ∀ k, 0 ≤ k < 3 → st.2.[k] ≠ 0 → ∃ p, st.1.2.[k] = Some p ∧ before p (c, i) ∧
    bap (fst p) (snd p) = kind_bap k ∧ zlen (kseq k (fst p) (snd p)) = zlen (kseq k c i) - st.2.[k]
}.

(** The exponents leave the coefficients in range. *)
Definition in_range (c i : Z) : Prop := 0 ≤ ex c i ≤ 24 ∧ Z.abs (coef c i) < 2 ^ (24 - ex c i).

Lemma val_range k c i : in_range c i → 0 ≤ val k c i < kind_levels k.
Proof. intros [He Hc]. pose proof (kind_facts k). apply sym_quant_range; lia. Qed.

Lemma kseq_range k c i v :
  0 ≤ c → 0 ≤ i → (i ≠ 0 → i ≤ ncoefs.[c]) → (∀ p, before p (c, i) → in_range (fst p) (snd p)) →
  v ∈ kseq k c i → 0 ≤ v < kind_levels k.
Proof.
  intros Hc Hi0 Hi Hr.
  assert (Hrow : ∀ c' n, (∀ j, 0 ≤ j < n → in_range c' j) → Forall (λ v, 0 ≤ v < kind_levels k) (row_seq k c' n)).
  { intros c' n Hn. apply Forall_zcat. intros j Hj. destruct (_ =? _); [|constructor].
    constructor; [|constructor]. apply val_range, Hn, Hj. }
  assert (Forall (λ v, 0 ≤ v < kind_levels k) (kseq k c i)) as Hall.
  2: { intros Hv%list_elem_of_In. rewrite List.Forall_forall in Hall. by apply Hall. }
  apply Forall_app. split; [apply Forall_zcat; intros c' Hc'|]; apply Hrow; intros j Hj.
  - apply (Hr (c', j)). unfold before. simpl. lia.
  - apply (Hr (c, j)). unfold before. simpl. lia.
Qed.

(** An ungrouped mantissa, or one of another kind, leaves a group alone. *)
Lemma mant_code_other k c i p :
  0 ≤ i → bap c i ≠ kind_bap k → kind_of (bap (fst p) (snd p)) = k →
  mant_code (λ k, kseq k c (i + 1)) (fst p) (snd p) = mant_code (λ k, kseq k c i) (fst p) (snd p).
Proof.
  intros Hi Hb Hk. unfold mant_code. cbv zeta. rewrite Hk, kseq_step by lia.
  by rewrite (proj2 (Z.eqb_neq (bap c i) (kind_bap k)) Hb), app_nil_r.
Qed.

(** A mantissa of kind [k] is added to its pending group, and to no other. *)
Lemma mant_code_same k c i p :
  0 ≤ k < 3 → 0 ≤ i → bap c i = kind_bap k → before p (c, i) → kind_of (bap (fst p) (snd p)) = k →
  let len := Z.of_nat (kind_size k) in
  let n := zlen (kseq k c i) mod len in
  mant_code (λ k, kseq k c (i + 1)) (fst p) (snd p) =
  mant_code (λ k, kseq k c i) (fst p) (snd p) +
    (if is_grouped (bap (fst p) (snd p)) && negb (n =? 0) && (zlen (kseq k (fst p) (snd p)) =? zlen (kseq k c i) - n)
     then kind_levels k ^ (len - 1 - n) * val k c i else 0).
Proof.
  intros Hk Hi Hb Hp Hpk len n. pose proof (kind_facts k) as (Hl & _ & Hs). fold len in Hs.
  unfold mant_code. cbv zeta. rewrite Hpk. destruct (is_grouped _) eqn:Hg; simpl; [|lia].
  apply kind_bap_of in Hg as [Hg _]. rewrite Hpk in Hg.
  pose proof (kseq_before k p (c, i) Hp Hi ltac:(done)) as Hlt. simpl in Hlt.
  rewrite kseq_step, Hb, Z.eqb_refl by lia. fold len.
  set (L := kseq k c i) in *. set (j := zlen (kseq k (fst p) (snd p))) in *.
  assert (Hj : 0 ≤ j) by apply zlen_nonneg.
  pose proof (Z.mod_pos_bound (zlen L) len ltac:(lia)) as Hn. fold n in Hn.
  pose proof (Z.div_mod (zlen L) len ltac:(lia)) as Hdm. fold n in Hdm.
  pose proof (Z.div_mod j len ltac:(lia)) as Hdj. pose proof (Z.mod_pos_bound j len ltac:(lia)) as Hmj.
  destruct (Z.eqb_spec (j mod len) 0) as [Hj0|Hj0].
  - rewrite drop_app_le by (unfold zlen in *; lia). rewrite pack_snoc. f_equal.
    assert (Hz : zlen (drop (Z.to_nat j) L) = zlen L - j) by (unfold zlen in *; rewrite length_drop; lia).
    rewrite Hz. fold len.
    assert (Hdist : j / len ≠ zlen L / len → len ≤ zlen L - n - j).
    { intros Hne. assert (j / len < zlen L / len) by (pose proof (Z.div_le_mono j (zlen L) len); lia).
      pose proof (Z.mul_le_mono_nonneg_l (j / len + 1) (zlen L / len) len). lia. }
    destruct (Z.eqb_spec n 0) as [Hn0|Hn0]; simpl.
    + replace (zlen L - j <? len) with false; [done|]. symmetry. apply Z.ltb_ge.
      assert (j / len ≠ zlen L / len) by (intros He; rewrite He in Hdj; lia). lia.
    + destruct (Z.eqb_spec j (zlen L - n)) as [Heq|Hne].
      * replace (zlen L - j) with n by lia. by replace (n <? len) with true by lia.
      * replace (zlen L - j <? len) with false; [done|]. symmetry. apply Z.ltb_ge.
        assert (j / len ≠ zlen L / len) by (intros He; rewrite He in Hdj; lia). lia.
  - destruct (Z.eqb_spec n 0); simpl; [lia|]. destruct (Z.eqb_spec j (zlen L - n)); [|lia].
    exfalso. apply Hj0. replace j with (zlen L / len * len) by lia. apply Z.mod_mul. lia.
Qed.

Lemma before_next p c i : 0 ≤ c → 0 ≤ i < ncoefs.[c] → before p (c, i + 1) ↔ before p (c, i) ∨ p = (c, i).
Proof.
  intros Hc Hi. destruct p as [a b]. unfold before. simpl. split.
  - intros (Ha & Hb & [?|[-> ?]]); [left; lia|]. destruct (Z.eq_dec b i) as [-> |]; [by right|left; lia].
  - intros [?|[= -> ->]]; lia.
Qed.

Lemma kind_bap_inj k k' : 0 ≤ k < 3 → 0 ≤ k' < 3 → kind_bap k = kind_bap k' → k = k'.
Proof. intros Hk Hk' He. apply (f_equal kind_of) in He. destruct (kind_of_bap k Hk), (kind_of_bap k' Hk'). congruence. Qed.

Lemma kind_of_range b : 0 ≤ kind_of b < 3.
Proof. unfold kind_of. destruct (b =? 1), (b =? 2); lia. Qed.

(** The codes of a group stay codes. *)
Lemma mant_code_bound L p :
  is_grouped (bap (fst p) (snd p)) = true →
  (∀ v, v ∈ L (kind_of (bap (fst p) (snd p))) → 0 ≤ v < kind_levels (kind_of (bap (fst p) (snd p)))) →
  0 ≤ mant_code L (fst p) (snd p) ≤ 128.
Proof.
  intros Hg Hv. unfold mant_code. cbv zeta. rewrite Hg. set (k := kind_of _) in *.
  destruct (_ =? 0); [|lia]. pose proof (kind_codes k (kind_of_range _)). pose proof (kind_facts k) as [Hl _].
  match goal with |- context [pack ?l ?n ?vs] => pose proof (pack_range l n vs Hl) as Hp end.
  assert (Hd : ∀ v, v ∈ drop (Z.to_nat (zlen (kseq k (fst p) (snd p)))) (L k) → 0 ≤ v < kind_levels k).
  { intros v Hin. apply Hv. rewrite <- (take_drop (Z.to_nat (zlen (kseq k (fst p) (snd p)))) (L k)).
    rewrite !list_elem_of_In, in_app_iff in *. by right. }
  specialize (Hp Hd). lia.
Qed.

(** What the step at [(c, i)] relies on. *)
Record step_ok (c i : Z) : Prop := {
  so_c : 0 ≤ c < 6;
  so_i : 0 ≤ i < ncoefs.[c];
  so_n : ∀ c', 0 ≤ c' ≤ c → ncoefs.[c'] ≤ 256;
  so_range : ∀ p, before p (c, i + 1) → in_range (fst p) (snd p)
}.

Lemma before_bounds c i p : step_ok c i → before p (c, i) → 0 ≤ fst p < 6 ∧ 0 ≤ snd p < 256.
Proof.
  intros [] Hp. unfold before in Hp. simpl in Hp.
  assert (0 ≤ fst p ≤ c) as Hf by lia. pose proof (so_n0 (fst p) Hf). lia.
Qed.

(** Storing the element of [(c, i)] when the earlier ones are up to date. *)
Lemma step_store c i q ptr' cnt' v :
  step_ok c i → dim2 6 256 q →
  (∀ p, before p (c, i) → q.[fst p].[snd p] = mant_code (λ k, kseq k c (i + 1)) (fst p) (snd p)) →
  u16 v = mant_code (λ k, kseq k c (i + 1)) c i →
  zlen ptr' = 3 → zlen cnt' = 3 →
  (∀ k, 0 ≤ k < 3 → cnt'.[k] = zlen (kseq k c (i + 1)) mod Z.of_nat (kind_size k)) →
  (∀ k, 0 ≤ k < 3 → cnt'.[k] ≠ 0 → ∃ p, ptr'.[k] = Some p ∧ before p (c, i + 1) ∧
    bap (fst p) (snd p) = kind_bap k ∧ zlen (kseq k (fst p) (snd p)) = zlen (kseq k c (i + 1)) - cnt'.[k]) →
  wp (aset2 q c i (u16 v)) (λ q, quant_inv c (i + 1) (q, ptr', cnt')).
Proof.
  intros Hok Hq Hcode Hv Hl1 Hl2 Hcnt Hptr. pose proof Hok as [Hc Hi Hn _].
  assert (i < 256) by (specialize (Hn c ltac:(lia)); lia).
  apply (wp_aset2 6 256); [apply Hq|by apply (dim2_row 6)|lia|lia|].
  pose proof (proj1 Hq) as Hl6. pose proof (dim2_row _ _ _ c Hq Hc) as Hl256.
  split; simpl; [|done| |done|done].
  { apply dim2_upd; [done|done|]. by rewrite zlen_upd. }
  intros p Hp. pose proof Hp as [Hp0 [Hp1 _]]. rewrite at_upd2 by lia.
  apply before_next in Hp as [Hp| ->]; [|simpl; by rewrite !Z.eqb_refl|lia|lia].
  rewrite Hcode by done. destruct (Z.eqb_spec (fst p) c), (Z.eqb_spec (snd p) i); simpl; try done.
  unfold before in Hp. simpl in Hp. lia.
Qed.

Lemma kseq_other k c i : 0 ≤ i → bap c i ≠ kind_bap k → kseq k c (i + 1) = kseq k c i.
Proof. intros Hi Hb. rewrite kseq_step by lia. by rewrite (proj2 (Z.eqb_neq _ _) Hb), app_nil_r. Qed.

(** A mantissa outside groups. *)
Lemma plain_step c i st :
  step_ok c i → quant_inv c i st → is_grouped (bap c i) = false →
  wp (aset2 st.1.1 c i (u16 (plain_code (coef c i) (ex c i) (bap c i))))
     (λ q, quant_inv c (i + 1) (q, st.1.2, st.2)).
Proof.
  intros Hok Hinv Hb. pose proof Hok as [Hc Hi _ _]. pose proof Hinv as [Hq [Hl1 Hl2] Hcode Hcnt Hptr].
  assert (Hno : ∀ k, 0 ≤ k < 3 → bap c i ≠ kind_bap k).
  { intros k Hk He. rewrite He, (proj2 (kind_of_bap k Hk)) in Hb. done. }
  apply step_store; [done|done| | |done|done| |].
  - intros p Hp. rewrite Hcode by done. symmetry.
    eapply mant_code_other; [lia| |reflexivity]. apply Hno, kind_of_range.
  - unfold mant_code. cbv zeta. by rewrite Hb.
  - intros k Hk. rewrite kseq_other by (auto || lia). by apply Hcnt.
  - intros k Hk Hk0. rewrite kseq_other by (auto || lia). destruct (Hptr k Hk Hk0) as (p & ? & Hp & ? & ?).
    exists p. split_and!; try done. apply before_next; [lia|lia|by left].
Qed.

(** How a mantissa of kind [k] changes the code of an earlier element [p]. *)
Lemma mant_code_step k c i p :
  0 ≤ k < 3 → 0 ≤ i → bap c i = kind_bap k → before p (c, i) →
  let len := Z.of_nat (kind_size k) in
  let n := zlen (kseq k c i) mod len in
  mant_code (λ k, kseq k c (i + 1)) (fst p) (snd p) =
  mant_code (λ k, kseq k c i) (fst p) (snd p) +
    (if (bap (fst p) (snd p) =? kind_bap k) && negb (n =? 0) && (zlen (kseq k (fst p) (snd p)) =? zlen (kseq k c i) - n)
     then kind_levels k ^ (len - 1 - n) * val k c i else 0).
Proof.
  intros Hk Hi Hb Hp len n. destruct (Z.eqb_spec (bap (fst p) (snd p)) (kind_bap k)) as [He|He].
  - rewrite (mant_code_same k) by (done || rewrite He; by apply kind_of_bap).
    by rewrite He, (proj2 (kind_of_bap k Hk)).
  - simpl. rewrite Z.add_0_r. destruct (is_grouped (bap (fst p) (snd p))) eqn:Hg.
    + apply (mant_code_other (kind_of (bap (fst p) (snd p)))); [done| |done].
      pose proof (kind_bap_of _ Hg) as [Hk' _]. rewrite Hk', Hb. done.
    + unfold mant_code. cbv zeta. by rewrite Hg.
Qed.

(** The element of a mantissa of kind [k] when it is stored. *)
Lemma mant_code_new k c i :
  0 ≤ k < 3 → 0 ≤ i → bap c i = kind_bap k →
  mant_code (λ k, kseq k c (i + 1)) c i =
  if zlen (kseq k c i) mod Z.of_nat (kind_size k) =? 0
  then kind_levels k ^ (Z.of_nat (kind_size k) - 1) * val k c i else 128.
Proof.
  intros Hk Hi Hb. destruct (kind_of_bap k Hk) as [Hkk Hg]. pose proof (kind_facts k) as (_ & _ & Hs).
  unfold mant_code. cbv zeta. rewrite Hb, Hg, Hkk. destruct (_ =? 0); [|done].
  rewrite kseq_step, Hb, Z.eqb_refl by lia.
  replace (drop _ _) with ([] ++ [val k c i]).
  - rewrite pack_snoc. change (zlen []) with 0. rewrite (proj2 (Z.ltb_lt _ _)), Z.sub_0_r by lia.
    assert (Hnil : ∀ m l, pack l m [] = 0) by (induction m as [|m IHm]; intros l; cbn [pack hd tail]; [done|rewrite IHm; lia]).
    rewrite Hnil. lia.
  - unfold zlen. rewrite Nat2Z.id. by rewrite drop_app_length.
Qed.

(** The counters and pointers after a mantissa of kind [k]. *)
Lemma counters_step k c i st :
  0 ≤ k < 3 → step_ok c i → quant_inv c i st → bap c i = kind_bap k →
  let len := Z.of_nat (kind_size k) in
  let n := st.2.[k] in
  let cnt' := upd st.2 k (Z.rem (n + 1) len) in
  let ptr' := if n =? 0 then upd st.1.2 k (Some (c, i)) else st.1.2 in
  (∀ k, 0 ≤ k < 3 → cnt'.[k] = zlen (kseq k c (i + 1)) mod Z.of_nat (kind_size k)) ∧
  (∀ k, 0 ≤ k < 3 → cnt'.[k] ≠ 0 → ∃ p, ptr'.[k] = Some p ∧ before p (c, i + 1) ∧
    bap (fst p) (snd p) = kind_bap k ∧ zlen (kseq k (fst p) (snd p)) = zlen (kseq k c (i + 1)) - cnt'.[k]).
Proof.
  intros Hk [Hc Hi _ _] [_ [Hl1 Hl2] _ Hcnt Hptr] Hb len n cnt' ptr'.
  pose proof (kind_facts k) as (_ & _ & Hs). fold len in Hs.
  pose proof (Hcnt k Hk) as Hn. fold n len in Hn.
  pose proof (Z.mod_pos_bound (zlen (kseq k c i)) len ltac:(lia)) as Hnb. rewrite <- Hn in Hnb.
  assert (Hnew : zlen (kseq k c (i + 1)) = zlen (kseq k c i) + 1)
    by (rewrite kseq_step, Hb, Z.eqb_refl, zlen_app by lia; done).
  assert (Hrem : Z.rem (n + 1) len = zlen (kseq k c (i + 1)) mod len).
  { by rewrite Z.rem_mod_nonneg, Hnew, Hn, Z.add_mod_idemp_l by lia. }
  assert (Hother : ∀ k', 0 ≤ k' < 3 → k' ≠ k → kseq k' c (i + 1) = kseq k' c i).
  { intros k' Hk' Hne. apply kseq_other; [lia|]. rewrite Hb. intros He. apply Hne. symmetry. by apply kind_bap_inj. }
  split; intros k' Hk'; unfold cnt'; rewrite at_upd by lia; (destruct (Z.eqb_spec k' k) as [-> |Hne]; [|rewrite Hother by done]).
  - done.
  - by apply Hcnt.
  - intros Hz. assert (Hlt : n + 1 < len).
    { destruct (Z.eq_dec (n + 1) len) as [He|]; [|lia]. rewrite He, Z.rem_same in Hz by lia. done. }
    rewrite Z.rem_small in * by lia. unfold ptr'. destruct (Z.eqb_spec n 0) as [Hn0|Hn0].
    + exists (c, i). rewrite at_upd_eq by lia. split; [done|]. split; [apply before_next; [lia|lia|by right]|].
      split; [done|]. simpl. lia.
    + destruct (Hptr k Hk Hn0) as (p & ? & ? & ? & ?). exists p. split_and!; [done| |done|fold n in H2; lia].
      apply before_next; [lia|lia|by left].
  - intros Hz. destruct (Hptr k' Hk' Hz) as (p & ? & ? & ? & ?). exists p. split_and!; [|apply before_next; [lia|lia|by left]|done|done].
    unfold ptr'. destruct (n =? 0); [|done]. by rewrite at_upd_ne by lia.
Qed.

Lemma step_code_bound c i p :
  step_ok c i → before p (c, i + 1) → is_grouped (bap (fst p) (snd p)) = true →
  0 ≤ mant_code (λ k, kseq k c (i + 1)) (fst p) (snd p) ≤ 128.
Proof.
  intros [Hc Hi _ Hr] Hp Hg. apply mant_code_bound; [done|]. intros v.
  apply kseq_range; [lia|lia|lia|done].
Qed.

(** Adding a mantissa to its pending group. *)
Lemma ptr_add_step k c i q ptr cnt v :
  0 ≤ k < 3 → step_ok c i → quant_inv c i (q, ptr, cnt) → bap c i = kind_bap k → cnt.[k] ≠ 0 →
  v = kind_levels k ^ (Z.of_nat (kind_size k) - 1 - cnt.[k]) * val k c i →
  wp (ptr_add q ptr k v) (λ q', dim2 6 256 q' ∧
    ∀ p, before p (c, i) → q'.[fst p].[snd p] = mant_code (λ k, kseq k c (i + 1)) (fst p) (snd p)).
Proof.
  intros Hk Hok Hinv Hb H0 ->. pose proof Hok as [Hc Hi _ _]. pose proof Hinv as [Hq [Hl1 Hl2] Hcode Hcnt Hptr].
  cbn [fst snd] in *. destruct (Hptr k Hk H0) as (p0 & Hp0 & Hbef & Hbap & Hidx).
  pose proof (before_bounds c i p0 Hok Hbef) as [Hf Hsn].
  pose proof (proj1 Hq) as Hl6. pose proof (dim2_row _ _ _ (fst p0) Hq Hf) as Hl256.
  assert (Hstep : ∀ p, before p (c, i) → mant_code (λ k, kseq k c (i + 1)) (fst p) (snd p) = q.[fst p].[snd p] +
    (if (bap (fst p) (snd p) =? kind_bap k) && (zlen (kseq k (fst p) (snd p)) =? zlen (kseq k c i) - cnt.[k])
     then kind_levels k ^ (Z.of_nat (kind_size k) - 1 - cnt.[k]) * val k c i else 0)).
  { intros p Hp. rewrite (mant_code_step k), Hcode, <- (Hcnt k Hk) by (done || lia).
    by rewrite (proj2 (Z.eqb_neq _ _) H0), andb_true_r. }
  pose proof (Hstep p0 Hbef) as Hnew. rewrite Hbap, Hidx, !Z.eqb_refl in Hnew. cbn [andb] in Hnew.
  unfold ptr_add. wp_step. wp_step. rewrite Hp0. cbn [mbind option_bind]. wp_step.
  apply (wp_aget2 6 256); [done|done|done|done|]. rewrite <- Hnew, u16_id.
  2: { pose proof (step_code_bound c i p0 Hok) as Hbd. rewrite Hbap in Hbd.
       specialize (Hbd ltac:(apply before_next; [lia|lia|by left]) (proj2 (kind_of_bap k Hk))). lia. }
  apply (wp_aset2 6 256); [done|done|done|done|].
  split; [apply dim2_upd; [done|done|]; by rewrite zlen_upd|]. intros p Hp.
  pose proof (before_bounds c i p Hok Hp) as [Hf' Hs'].
  rewrite at_upd2 by lia. destruct (decide (p = p0)) as [-> |Hne]; [by rewrite !Z.eqb_refl|].
  assert (He : (fst p =? fst p0) && (snd p =? snd p0) = false).
  { destruct p, p0. simpl. destruct (Z.eqb_spec z z1), (Z.eqb_spec z0 z2); simpl; try done. subst. done. }
  rewrite He, Hstep by done. destruct (Z.eqb_spec (bap (fst p) (snd p)) (kind_bap k)) as [Hpb|]; simpl; [|lia].
  destruct (Z.eqb_spec (zlen (kseq k (fst p) (snd p))) (zlen (kseq k c i) - cnt.[k])) as [Hpi|]; [|lia].
  exfalso. apply Hne. apply (kseq_inj k p p0 (c, i)); try done. lia.
Qed.

(** A mantissa of kind [k]. *)
Lemma grouped_step k w0 w1 c i st :
  0 ≤ k < 3 → step_ok c i → quant_inv c i st → bap c i = kind_bap k →
  w0 = kind_levels k ^ (Z.of_nat (kind_size k) - 1) → (kind_size k = 3%nat → w1 = kind_levels k) →
  wp (quant_grouped k w0 w1 (Z.of_nat (kind_size k)) (val k c i) c i st)
     (λ '(st', v), wp (aset2 st'.1.1 c i (u16 v)) (λ q, quant_inv c (i + 1) (q, st'.1.2, st'.2))).
Proof.
  intros Hk Hok Hinv Hb Hw0 Hw1. pose proof (counters_step k c i st Hk Hok Hinv Hb) as Hcs.
  pose proof Hok as [Hc Hi _ Hrange]. pose proof Hinv as [Hq [Hl1 Hl2] Hcode Hcnt Hptr].
  pose proof (mant_code_step k c i) as Hstep. pose proof (mant_code_new k c i Hk ltac:(lia) Hb) as Hnew.
  set (len := Z.of_nat (kind_size k)) in *. pose proof (kind_facts k) as (_ & _ & Hs). fold len in Hs.
  pose proof (Hcnt k Hk) as Hn. fold len in Hn.
  pose proof (Z.mod_pos_bound (zlen (kseq k c i)) len ltac:(lia)) as Hnb.
  cbv zeta in Hstep. fold len in Hstep. rewrite <- Hn in Hnew, Hstep, Hnb.
  destruct st as [[q ptr] cnt]. cbn [fst snd] in *. destruct Hcs as [Hcnt' Hptr'].
  unfold quant_grouped. wp_step. wp_step. apply wp_bind.
  destruct (Z.eqb_spec cnt.[k] 0) as [H0|H0].
  - do 6 wp_step. cbn [fst snd]. apply step_store; rewrite ?zlen_upd; try done.
    + intros p Hp. rewrite Hcode, Hstep by (done || lia). rewrite andb_false_r. simpl. lia.
    + subst w0. rewrite <- Hnew. apply u16_id.
      pose proof (step_code_bound c i (c, i) Hok) as Hbd. cbn [fst snd] in Hbd. rewrite Hb in Hbd.
      specialize (Hbd ltac:(apply before_next; [lia|lia|by right]) (proj2 (kind_of_bap k Hk))). lia.
  - assert (Hgo : ∀ w, w = kind_levels k ^ (len - 1 - cnt.[k]) * val k c i →
      wp (qmant ← ptr_add q ptr k w; Some (qmant, ptr, 128)) (λ r,
        wp (let '(qmant, ptr, v) := r in cnt ← aset cnt k (Z.rem (cnt.[k] + 1) len); Some ((qmant, ptr, cnt) : qstate, v))
          (λ '(st', v), wp (aset2 st'.1.1 c i (u16 v)) (λ q, quant_inv c (i + 1) (q, st'.1.2, st'.2))))).
    { intros w Hw. apply wp_bind. eapply wp_mono; [by apply (ptr_add_step k c i q ptr cnt w)|].
      intros q' [Hq' Hcode']. do 4 wp_step. cbn [fst snd].
      apply step_store; rewrite ?zlen_upd; try done. }
    destruct (Z.eqb_spec len 3) as [Hl3|Hl3]; simpl andb.
    + destruct (Z.eqb_spec cnt.[k] 1) as [H1|H1]; apply Hgo.
      * rewrite Hw1 by (unfold len in *; lia). replace (len - 1 - cnt.[k]) with 1 by lia. by rewrite Z.pow_1_r.
      * assert (len - 1 - cnt.[k] = 0) as -> by lia. rewrite Z.pow_0_r. lia.
    + apply Hgo. assert (len - 1 - cnt.[k] = 0) as -> by lia. rewrite Z.pow_0_r. lia.
Qed.

Lemma before_start p : ¬ before p (0, 0).
Proof. unfold before. simpl. lia. Qed.

Lemma quant_inv_start q : dim2 6 256 q → quant_inv 0 0 (q, [None; None; None], [0; 0; 0]).
Proof.
  intros Hq. split; simpl; [done|done| | |].
  - intros p Hp. by apply before_start in Hp.
  - intros k Hk. rewrite kseq_start. by assert (k = 0 ∨ k = 1 ∨ k = 2) as [-> |[-> | ->]] by lia.
  - intros k Hk Hne. by assert (k = 0 ∨ k = 1 ∨ k = 2) as [-> |[-> | ->]] by lia.
Qed.

Lemma before_row p c : 0 ≤ c → 0 ≤ ncoefs.[c] → before p (c + 1, 0) ↔ before p (c, ncoefs.[c]).
Proof.
  intros Hc Hn. destruct p as [a b]. unfold before. simpl. split; intros (Ha & Hb & Hor); split_and!; try lia.
  destruct (Z.eq_dec a c) as [-> |]; lia.
Qed.

(** The state at the end of a channel is that at the start of the next. *)
Lemma quant_inv_row c st : 0 ≤ c → 0 ≤ ncoefs.[c] → quant_inv c ncoefs.[c] st → quant_inv (c + 1) 0 st.
Proof.
  intros Hc Hn [Hq Hl Hcode Hcnt Hptr]. split; [done|done| | |].
  - intros p Hp%before_row; [|done|done]. rewrite Hcode by done.
    unfold mant_code. cbv zeta. by rewrite kseq_next.
  - intros k Hk. rewrite kseq_next by done. by apply Hcnt.
  - intros k Hk Hne. rewrite kseq_next by done. destruct (Hptr k Hk Hne) as (p & ? & ? & ? & ?).
    exists p. split_and!; try done. by apply before_row.
Qed.
End groups.

(** ** The code *)

Section quant_spec.
Context `{FloatFormat}.

(** A block that can be quantised: coefficients below 1, exponents that do not
    exceed theirs, and pointers. *)
Definition block_coef (b : Block.t) (c i : Z) : Z := scaled (Block.mdct_coef b).[c].[i].
Definition block_exp (b : Block.t) (c i : Z) : Z := (Block.exp_ b).[c].[i].
Definition block_bap (b : Block.t) (c i : Z) : Z := (Block.bap b).[c].[i].

Record quant_ready (n : Z) (ncoefs : list Z) (b : Block.t) : Prop := {
  qr_wf : block_wf b;
  qr_n : 0 ≤ n ≤ 6;
  qr_nlen : zlen ncoefs = 6;
  qr_ncoefs : ∀ c, 0 ≤ c < n → 0 ≤ ncoefs.[c] ≤ 256;
  qr_coef : ∀ c i, 0 ≤ c < n → 0 ≤ i < ncoefs.[c] → coef_ok (Block.mdct_coef b).[c].[i];
  qr_range : ∀ c i, 0 ≤ c < n → 0 ≤ i < ncoefs.[c] → in_range (block_coef b) (block_exp b) c i;
  qr_bap : ∀ c i, 0 ≤ c < n → 0 ≤ i < ncoefs.[c] → 0 ≤ block_bap b c i ≤ 15
}.

Definition block_inv (ncoefs : list Z) (b : Block.t) : Z → Z → qstate → Prop :=
  quant_inv ncoefs (block_bap b) (block_coef b) (block_exp b).

Section block.
Variables (n : Z) (ncoefs : list Z) (b : Block.t).
Hypothesis Hr : quant_ready n ncoefs b.

Lemma ready_step c i : 0 ≤ c < n → 0 ≤ i < ncoefs.[c] → step_ok ncoefs (block_coef b) (block_exp b) c i.
Proof.
  intros Hc Hi. destruct Hr as [_ Hn _ Hnc _ Hrange _]. split; [lia|done| |].
  - intros c' Hc'. apply Hnc. lia.
  - intros p (? & ? & ?). simpl in *. apply Hrange; lia.
Qed.

Lemma coef_int c i : 0 ≤ c < n → 0 ≤ i < ncoefs.[c] →
  F_to_int (F_mul (Block.mdct_coef b).[c].[i] two24) = Some (block_coef b c i).
Proof.
  intros Hc Hi. destruct (qr_coef _ _ _ Hr c i Hc Hi) as [Ht Hb]. unfold F_to_int. rewrite Ht. simpl.
  fold (block_coef b c i) in *.
  by replace ((- 2 ^ 31 <=? block_coef b c i) && (block_coef b c i <? 2 ^ 31)) with true by lia.
Qed.

Lemma quant_mant_ch_spec c st :
  0 ≤ c < n → block_inv ncoefs b c 0 st →
  wp (quant_mant_ch (Block.mdct_coef b).[c] (Block.exp_ b).[c] (Block.bap b).[c] c ncoefs.[c] st) (block_inv ncoefs b (c + 1) 0).
Proof.
  intros Hc Hst. pose proof Hr as [[] Hn _ Hnc _ Hrange Hbap]. pose proof (Hnc c Hc).
  unfold quant_mant_ch. apply (wp_for_up (λ i, block_inv ncoefs b c i)); [lia|done| |].
  2: { intros st'. apply quant_inv_row; lia. }
  intros i st' Hi Hinv. pose proof (ready_step c i Hc Hi) as Hok.
  pose proof (dim2_row _ _ _ c wf_mdct_coef ltac:(lia)). pose proof (dim2_row _ _ _ c wf_exp ltac:(lia)).
  pose proof (dim2_row _ _ _ c wf_bap ltac:(lia)). specialize (Hbap c i Hc Hi).
  do 2 wp_step. rewrite coef_int by done. do 6 wp_step.
  fold (block_exp b c i) (block_bap b c i).
  assert (Hfin : ∀ r, wp r (λ '(st2, v), wp (aset2 st2.1.1 c i (u16 v)) (λ q, block_inv ncoefs b c (i + 1) (q, st2.1.2, st2.2))) →
    wp ('(st2, v) ← r; let '(qmant, ptr, cnt) := (st2 : qstate) in
        qmant ← aset2 qmant c i (u16 v); Some (qmant, ptr, cnt)) (block_inv ncoefs b c (i + 1))).
  { intros r Hw. apply wp_bind. eapply wp_mono; [exact Hw|]. intros [[[q ptr] cnt] v] Hq. cbn [fst snd] in Hq.
    apply wp_bind. eapply wp_mono; [exact Hq|]. intros q' Hq'. by apply wp_ret. }
  apply Hfin. clear Hfin. assert (Hplain : ∀ v, is_grouped (block_bap b c i) = false →
    v = plain_code (block_coef b c i) (block_exp b c i) (block_bap b c i) →
    wp (Some (st', v)) (λ '(st2, v), wp (aset2 st2.1.1 c i (u16 v)) (λ q, block_inv ncoefs b c (i + 1) (q, st2.1.2, st2.2)))).
  { intros v Hg ->. apply wp_ret. by apply plain_step. }
  repeat (match goal with |- wp (if block_bap b c i =? ?v then _ else _) _ =>
    destruct (Z.eqb_spec (block_bap b c i) v) as [He|?];
    [try (apply Hplain; by rewrite He)|] end).
  - by apply (grouped_step _ _ _ _ 0).
  - by apply (grouped_step _ _ _ _ 1).
  - by apply (grouped_step _ _ _ _ 2).
  - apply Hplain; unfold is_grouped, plain_code, code_bits; by repeat rewrite (proj2 (Z.eqb_neq (block_bap b c i) _)) by lia.
Qed.
End block.

(** The element that quantisation leaves for bin [i] of channel [c]. *)
Definition quant_code (n : Z) (ncoefs : list Z) (b : Block.t) (c i : Z) : Z :=
  mant_code ncoefs (block_bap b) (block_coef b) (block_exp b)
    (λ k, kseq ncoefs (block_bap b) (block_coef b) (block_exp b) k n 0) c i.

Definition block_quantized (n : Z) (ncoefs : list Z) (b b' : Block.t) : Prop :=
  b' = b <| Block.qmant := Block.qmant b' |> ∧ dim2 6 256 (Block.qmant b') ∧
  ∀ c i, 0 ≤ c < n → 0 ≤ i < ncoefs.[c] → (Block.qmant b').[c].[i] = quant_code n ncoefs b c i.

Lemma block_quantized_wf n ncoefs b b' : block_wf b → block_quantized n ncoefs b b' → block_wf b'.
Proof. intros [] (-> & Hq & _). by split. Qed.

Lemma quantize_mantissas_spec ctx frame :
  let n := Ctx.n_all_channels ctx in
  blocks_wf (Frame.blocks frame) →
  (∀ k, 0 ≤ k < 6 → quant_ready n (Frame.ncoefs frame) (Frame.blocks frame).[k]) →
  wp (quantize_mantissas ctx frame) (λ frame', ∃ blocks, frame' = frame <| Frame.blocks := blocks |> ∧
    blocks_wf blocks ∧ ∀ k, 0 ≤ k < 6 →
      block_quantized n (Frame.ncoefs frame) (Frame.blocks frame).[k] blocks.[k]).
Proof.
  intros n Hw Hr. unfold quantize_mantissas, A52_NUM_BLOCKS.
  apply (wp_for_up (λ k f, ∃ blocks, f = frame <| Frame.blocks := blocks |> ∧ blocks_wf blocks ∧
    ∀ j, 0 ≤ j < 6 → if j <? k then block_quantized n (Frame.ncoefs frame) (Frame.blocks frame).[j] blocks.[j]
                     else blocks.[j] = (Frame.blocks frame).[j])).
  - lia.
  - exists (Frame.blocks frame). split; [by destruct frame|]. split; [done|]. intros j Hj.
    by replace (j <? 0) with false by lia.
  - intros k f Hk (blocks & -> & Hbl & Hb).
    pose proof (Hb k Hk) as Hbk. rewrite Z.ltb_irrefl in Hbk. pose proof (Hr k Hk) as Hrk.
    pose proof Hrk as [Hwf Hn Hnl Hnc _ _ _]. pose proof Hwf as [].
    apply wp_bind, wp_with_block; [done|done|]. change (Frame.blocks (frame <| Frame.blocks := blocks |>)) with blocks.
    change (Frame.ncoefs (frame <| Frame.blocks := blocks |>)) with (Frame.ncoefs frame).
    rewrite Hbk. set (b := (Frame.blocks frame).[k]) in *. apply wp_bind. fold n.
    apply (wp_for_up (λ c st, block_inv (Frame.ncoefs frame) b c 0 st)).
    + lia.
    + by apply quant_inv_start.
    + intros c st Hc Hst. pose proof (quant_mant_ch_spec n _ b Hrk c st Hc Hst) as Hch.
      pose proof (proj1 wf_mdct_coef). pose proof (proj1 wf_exp). pose proof (proj1 wf_bap).
      do 8 wp_step. exact Hch.
    + intros [[q ptr] cnt] [Hq _ Hcode _ _]. cbn [fst snd] in *. wp_steps.
      set (b' := b <| Block.qmant := q |>).
      assert (Hqd : block_quantized n (Frame.ncoefs frame) b b').
      { split; [by destruct b|]. split; [done|]. intros c i Hc Hi. unfold b'. simpl.
        apply (Hcode (c, i)). unfold before. simpl. lia. }
      exists (upd blocks k b'). split; [by destruct frame|].
      split; [apply blocks_wf_upd; [done|done|by apply (block_quantized_wf n (Frame.ncoefs frame) b)]|].
      intros j Hj. rewrite at_upd by (destruct Hbl; lia). specialize (Hb j Hj).
      destruct (Z.eqb_spec j k) as [-> |Hne].
      * by replace (k <? k + 1) with true by lia.
      * by replace (j <? k + 1) with (j <? k) by lia.
  - intros f (blocks & -> & Hbl & Hb). exists blocks. split; [done|]. split; [done|]. intros k Hk.
    specialize (Hb k Hk). by replace (k <? 6) with true in Hb by lia.
Qed.

(** ** The bits of the codes *)

(** The width with which an element is written; a marker is not. *)
Definition mant_width (b q : Z) : Z :=
  if b =? 0 then 0
  else if is_grouped b then (if q =? 128 then 0 else if b =? 1 then 5 else 7)
  else if b =? 3 then 3 else code_bits b.

Lemma zlen_row_seq bap coef ex k c i :
  zlen (row_seq bap coef ex k c i) = count_bap (kind_bap k) (bap c) i.
Proof. unfold row_seq, count_bap. rewrite zlen_zcat. apply zsum_ext. intros j _. by destruct (_ =? _). Qed.

Lemma zlen_kseq ncoefs bap coef ex k c i :
  zlen (kseq ncoefs bap coef ex k c i) = block_count (kind_bap k) bap ncoefs c + count_bap (kind_bap k) (bap c) i.
Proof.
  unfold kseq, block_count. rewrite zlen_app, zlen_row_seq, zlen_zcat. f_equal. apply zsum_ext. intros j _.
  apply zlen_row_seq.
Qed.

(** The bits written up to bin [i] of channel [c]: those of the ungrouped
    mantissas and of the groups begun. *)
Definition bits_to (ncoefs : list Z) (bap : Z → Z → Z) (c i : Z) : Z :=
  let m v := block_count v bap ncoefs c + count_bap v (bap c) i in
  block_plain bap ncoefs c + zsum (λ i, plain_bits (bap c i)) i +
  grouped_bits (2 + m 1) (2 + m 2) (m 3) (1 + m 4).

Lemma div_step a m : 0 < m → (m - 1 + (a + 1)) / m = (m - 1 + a) / m + Z.b2z (a mod m =? 0).
Proof.
  intros Hm. pose proof (Z.div_mod a m ltac:(lia)). pose proof (Z.mod_pos_bound a m Hm).
  replace (m - 1 + (a + 1)) with (a + 1 * m) by lia. rewrite Z.div_add by lia.
  destruct (Z.eqb_spec (a mod m) 0); simpl.
  - rewrite (Z.div_unique_pos (m - 1 + a) m (a / m) (m - 1)) at 1 by lia. lia.
  - rewrite (Z.div_unique_pos (m - 1 + a) m (a / m + 1) (a mod m - 1)) at 1 by lia. lia.
Qed.

Section widths.
Variables (n : Z) (ncoefs : list Z) (b : Block.t).
Hypothesis Hr : quant_ready n ncoefs b.
Definition count (v c i : Z) : Z := block_count v (block_bap b) ncoefs c + count_bap v (block_bap b c) i.

Lemma quant_code_marker c i :
  0 ≤ c < n → 0 ≤ i < ncoefs.[c] → is_grouped (block_bap b c i) = true →
  let k := kind_of (block_bap b c i) in
  (quant_code n ncoefs b c i =? 128) =
  negb (count (kind_bap k) c i mod Z.of_nat (kind_size k) =? 0).
Proof.
  intros Hc Hi Hg k. unfold quant_code, mant_code. cbv zeta. rewrite Hg, zlen_kseq.
  fold k (count (kind_bap k) c i). destruct (_ mod _ =? 0); [|done]. simpl negb.
  pose proof (kind_codes k (kind_of_range _)). pose proof (kind_facts k) as [Hl _].
  match goal with |- (pack ?l ?m (drop ?j ?vs) =? _) = _ =>
    pose proof (pack_range l m (drop j vs) Hl) as Hp; assert (Hd : ∀ v, v ∈ drop j vs → 0 ≤ v < l) end.
  { intros v Hin. pose proof Hr as [_ Hn _ Hnc _ Hrange _]. eapply (kseq_range ncoefs).
    5: { rewrite <- (take_drop (Z.to_nat (count (kind_bap k) c i)) (kseq _ _ _ _ _ _ _)).
         rewrite !list_elem_of_In, in_app_iff in *. by right; exact Hin. }
    - lia.
    - lia.
    - done.
    - intros [c' i'] (? & ? & ?). simpl in *. apply Hrange; lia. }
  specialize (Hp Hd). lia.
Qed.

Lemma count_step v c i : 0 ≤ i → count v c (i + 1) = count v c i + Z.b2z (block_bap b c i =? v).
Proof. intros Hi. unfold count, count_bap. rewrite zsum_succ by lia. lia. Qed.

(** Each element adds its width to the bits. *)
Lemma bits_to_step c i :
  0 ≤ c < n → 0 ≤ i < ncoefs.[c] →
  bits_to ncoefs (block_bap b) c (i + 1) =
  bits_to ncoefs (block_bap b) c i + mant_width (block_bap b c i) (quant_code n ncoefs b c i).
Proof.
  intros Hc Hi. pose proof (quant_code_marker c i Hc Hi) as Hm. pose proof (qr_bap _ _ _ Hr c i Hc Hi) as Hb.
  unfold bits_to. cbv zeta. fold (count 1 c i) (count 2 c i) (count 3 c i) (count 4 c i)
    (count 1 c (i + 1)) (count 2 c (i + 1)) (count 3 c (i + 1)) (count 4 c (i + 1)).
  rewrite !count_step, zsum_succ by lia. unfold grouped_bits, mant_width, plain_bits, code_bits.
  pose proof (div_step (count 1 c i) 3 ltac:(lia)) as H1. pose proof (div_step (count 2 c i) 3 ltac:(lia)) as H2.
  pose proof (div_step (count 4 c i) 2 ltac:(lia)) as H4.
  change (3 - 1) with 2 in *. change (2 - 1) with 1 in *. set (v := block_bap b c i) in *. set (S0 := zsum _ i).
  assert (Hcase : v = 1 ∨ v = 2 ∨ v = 4 ∨ is_grouped v = false).
  { unfold is_grouped. lia. }
  destruct Hcase as [-> |[-> |[-> |Hg]]].
  - specialize (Hm ltac:(done)). simpl in Hm. rewrite Hm. simpl Z.b2z.
    rewrite H1.
    change (kind_bap _) with 1. rewrite !Z.add_0_r. destruct (_ =? 0); cbn -[Z.mul Z.div]; lia.
  - specialize (Hm ltac:(done)). simpl in Hm. rewrite Hm. simpl Z.b2z.
    rewrite H2.
    change (kind_bap _) with 2. rewrite !Z.add_0_r. destruct (_ =? 0); cbn -[Z.mul Z.div]; lia.
  - specialize (Hm ltac:(done)). simpl in Hm. rewrite Hm. simpl Z.b2z.
    rewrite H4.
    change (kind_bap _) with 4. rewrite !Z.add_0_r. destruct (_ =? 0); cbn -[Z.mul Z.div]; lia.
  - rewrite Hg. unfold is_grouped in Hg.
    replace (v =? 1) with false by lia. replace (v =? 2) with false by lia. replace (v =? 4) with false by lia.
    simpl Z.b2z. rewrite !Z.add_0_r.
    destruct (Z.eqb_spec v 0), (Z.eqb_spec v 3), (Z.leb_spec v 4), (Z.leb_spec v 13), (Z.eqb_spec v 14), (Z.eqb_spec v 15); simpl; lia.
Qed.

(** What is written of a block's mantissas is what the allocation counted. *)
Lemma quant_bits :
  zsum (λ c, zsum (λ i, mant_width (block_bap b c i) (quant_code n ncoefs b c i)) ncoefs.[c]) n =
  block_mant_bits (block_bap b) ncoefs n.
Proof.
  pose proof Hr as [_ Hn _ Hnc _ _ _].
  cut (∀ c, 0 ≤ c ≤ n → zsum (λ c, zsum (λ i, mant_width (block_bap b c i) (quant_code n ncoefs b c i)) ncoefs.[c]) c =
    block_mant_bits (block_bap b) ncoefs c).
  { intros Hall. apply Hall. lia. }
  assert (Hrow0 : ∀ c, bits_to ncoefs (block_bap b) c 0 = block_mant_bits (block_bap b) ncoefs c).
  { intros c. unfold bits_to, block_mant_bits, count_bap. by rewrite !zsum_0, !Z.add_0_r. }
  intros c0 Hc0. apply (zsum_ind (λ c, zsum _ c = block_mant_bits (block_bap b) ncoefs c)); [lia|done|].
  intros c Hc IH. rewrite zsum_succ, IH, <- Hrow0 by lia. specialize (Hnc c ltac:(lia)).
  rewrite <- (Hrow0 (c + 1)).
  transitivity (bits_to ncoefs (block_bap b) c ncoefs.[c]).
  - apply (zsum_ind (λ i, bits_to ncoefs (block_bap b) c 0 + zsum _ i = bits_to ncoefs (block_bap b) c i)); [lia|rewrite zsum_0; lia|].
    intros i Hi IHi. rewrite zsum_succ, Z.add_assoc, IHi by lia. symmetry. apply bits_to_step; lia.
  - unfold bits_to, block_plain, block_count, count_bap. cbv zeta. rewrite !(zsum_succ _ c), !zsum_0 by lia.
    by rewrite !Z.add_0_r.
Qed.
End widths.
End quant_spec.

(** * Properties *)

(** A symmetric code is below the number of levels, and reconstructing the
    mantissa from it errs by at most half a step; an asymmetric code fits its
    bits without clipping and is the coefficient truncated to them. *)
Theorem quantisation_error c e :
  0 ≤ e ≤ 24 → Z.abs c < 2 ^ (24 - e) →
  (∀ levels, 0 < levels → Z.odd levels = true →
     0 ≤ sym_quant c e levels < levels ∧
     Z.abs (levels * c - 2 * (sym_quant c e levels - Z.shiftr levels 1) * 2 ^ (24 - e)) ≤ 2 ^ (24 - e)) ∧
  (∀ qbits, 1 ≤ qbits ≤ 16 →
     - 2 ^ (qbits - 1) ≤ asym_quant c e qbits < 2 ^ (qbits - 1) ∧
     (if e + (qbits - 1) - 24 >=? 0 then asym_quant c e qbits = c * 2 ^ (e + (qbits - 1) - 24)
      else asym_quant c e qbits * 2 ^ (24 - e - (qbits - 1)) ≤ c
           < (asym_quant c e qbits + 1) * 2 ^ (24 - e - (qbits - 1)))).
Proof.
  intros He Hc. split.
  - intros levels Hl Ho. split; [by apply sym_quant_range|by apply sym_quant_error].
  - intros qbits Hq. by apply asym_quant_spec.
Qed.

Lemma quantisation_error_witness :
  (0 ≤ 3 ≤ 24 ∧ Z.abs (-1000000) < 2 ^ (24 - 3)) ∧
  ((∀ levels, 0 < levels → Z.odd levels = true →
     0 ≤ sym_quant (-1000000) 3 levels < levels ∧
     Z.abs (levels * -1000000 - 2 * (sym_quant (-1000000) 3 levels - Z.shiftr levels 1) * 2 ^ (24 - 3)) ≤ 2 ^ (24 - 3)) ∧
  (∀ qbits, 1 ≤ qbits ≤ 16 →
     - 2 ^ (qbits - 1) ≤ asym_quant (-1000000) 3 qbits < 2 ^ (qbits - 1) ∧
     (if 3 + (qbits - 1) - 24 >=? 0 then asym_quant (-1000000) 3 qbits = -1000000 * 2 ^ (3 + (qbits - 1) - 24)
      else asym_quant (-1000000) 3 qbits * 2 ^ (24 - 3 - (qbits - 1)) ≤ -1000000
           < (asym_quant (-1000000) 3 qbits + 1) * 2 ^ (24 - 3 - (qbits - 1))))).
Proof. split; [lia|]. apply (quantisation_error (-1000000) 3); lia. Defined.

(** What a block's mantissas carry: [seq k] is the sequence of its quantised
    mantissas of kind [k]. *)
Record mantissas_ok `{FloatFormat} (n : Z) (ncoefs : list Z) (b b' : Block.t) : Prop := {
  mo_same : b' = b <| Block.qmant := Block.qmant b' |>;
  mo_plain : ∀ c i, 0 ≤ c < n → 0 ≤ i < ncoefs.[c] → is_grouped (block_bap b c i) = false →
    (Block.qmant b').[c].[i] = u16 (plain_code (block_coef b c i) (block_exp b c i) (block_bap b c i));
  mo_group : ∀ c i k, 0 ≤ c < n → 0 ≤ i < ncoefs.[c] → 0 ≤ k < 3 → block_bap b c i = kind_bap k →
    let seq c i := kseq ncoefs (block_bap b) (block_coef b) (block_exp b) k c i in
    let j := zlen (seq c i) in
    let len := Z.of_nat (kind_size k) in
    if j mod len =? 0 then
      0 ≤ (Block.qmant b').[c].[i] < 128 ∧
      ∀ r, 0 ≤ r < len → digit (kind_levels k) len (Block.qmant b').[c].[i] r = nth (Z.to_nat (j + r)) (seq n 0) 0
    else (Block.qmant b').[c].[i] = 128;
  mo_bits : zsum (λ c, zsum (λ i, mant_width (block_bap b c i) (Block.qmant b').[c].[i]) ncoefs.[c]) n =
            block_mant_bits (block_bap b) ncoefs n
}.

Lemma mantissas_ok_of `{FloatFormat} n ncoefs b b' :
  quant_ready n ncoefs b → block_quantized n ncoefs b b' → mantissas_ok n ncoefs b b'.
Proof.
  intros Hr (Hs & _ & Hq). split; [done| | |].
  - intros c i Hc Hi Hg. rewrite Hq by done. unfold quant_code, mant_code. cbv zeta. by rewrite Hg.
  - intros c i k Hc Hi Hk Hb seq j len. rewrite Hq by done. destruct (kind_of_bap k Hk) as [Hkk Hg].
    pose proof (kind_facts k) as (Hl & _ & Hs2). pose proof (kind_codes k Hk) as Hcodes.
    unfold quant_code, mant_code. cbv zeta. rewrite Hb, Hg, Hkk. fold (seq c i). fold j len.
    destruct (_ =? 0); [|done]. fold (seq n 0).
    assert (Hin : ∀ v, v ∈ drop (Z.to_nat j) (seq n 0) → 0 ≤ v < kind_levels k).
    { intros v Hv. pose proof Hr as [_ Hn _ _ _ Hrange _]. unfold seq in *. eapply (kseq_range ncoefs).
      5: { rewrite <- (take_drop (Z.to_nat j) (kseq _ _ _ _ _ _ _)).
           rewrite !list_elem_of_In, in_app_iff in *. right. exact Hv. }
      - lia.
      - lia.
      - done.
      - intros [c' i'] (? & ? & ?). simpl in *. apply Hrange; lia. }
    pose proof (pack_range (kind_levels k) (kind_size k) _ Hl Hin). split; [lia|].
    intros r Hr'. unfold len. rewrite digit_pack by done. rewrite nth_skipn.
    f_equal. pose proof (zlen_nonneg (seq c i)). lia.
  - rewrite <- (quant_bits n ncoefs b Hr). apply zsum_ext. intros c Hc. apply zsum_ext. intros i Hi.
    by rewrite Hq.
Qed.

(** C4: Quantising a frame of coefficients below 1 whose exponents do not
    exceed theirs terminates; every ungrouped element holds the mantissa's own
    code, the element that begins a group holds a code below the marker from
    which a decoder recovers the mantissas of the group in order, the others
    hold the marker, and what is written of a block is exactly what bit
    allocation counted. *)
Theorem quantize_mantissas_correct `{FloatFormat} ctx frame :
  let n := Ctx.n_all_channels ctx in
  blocks_wf (Frame.blocks frame) →
  (∀ k, 0 ≤ k < 6 → quant_ready n (Frame.ncoefs frame) (Frame.blocks frame).[k]) →
  ∃ blocks, quantize_mantissas ctx frame = Some (frame <| Frame.blocks := blocks |>) ∧ blocks_wf blocks ∧
    ∀ k, 0 ≤ k < 6 → mantissas_ok n (Frame.ncoefs frame) (Frame.blocks frame).[k] blocks.[k].
Proof.
  intros n Hw Hr. pose proof (quantize_mantissas_spec ctx frame Hw Hr) as Hspec.
  apply wp_some in Hspec as (f & Hf & blocks & -> & Hb & Hq). exists blocks. split; [done|]. split; [done|].
  intros k Hk. apply mantissas_ok_of; auto.
Qed.

(** A quarter everywhere, with exponent 1 and grouped pointers. *)
Definition quarter_block : Block.t := zero_block
  <| Block.mdct_coef := replicate 6 (replicate 256 (@F_const single_format 1 (-2))) |>
  <| Block.exp_ := replicate 6 (replicate 256 1) |>
  <| Block.bap := replicate 6 (replicate 256 1) |>.
Definition quarter_frame : Frame.t := zero_frame
  <| Frame.blocks := replicate 6 quarter_block |> <| Frame.ncoefs := replicate 6 253 |>.

Lemma quarter_block_wf : block_wf quarter_block.
Proof.
  split; lazymatch goal with
    | |- dim2 _ ?m _ => exact (dim2_replicate 6 (Z.to_nat m) _)
    | _ => reflexivity
    end.
Qed.

Lemma quarter_ready : @quant_ready single_format 2 (Frame.ncoefs quarter_frame) quarter_block.
Proof.
  assert (Hnc : ∀ c, 0 ≤ c < 2 → (Frame.ncoefs quarter_frame).[c] = 253).
  { intros c Hc. change (Frame.ncoefs quarter_frame) with (replicate 6 253). apply at_replicate. lia. }
  assert (Hat : ∀ A `{Inhabited A} (x : A) c i, 0 ≤ c < 2 → 0 ≤ i < 253 → (replicate 6 (replicate 256 x)).[c].[i] = x).
  { intros A HA x c i Hc Hi. rewrite (at_replicate 6) by lia. apply at_replicate. lia. }
  split.
  - apply quarter_block_wf.
  - lia.
  - done.
  - intros c Hc. rewrite Hnc; lia.
  - intros c i Hc Hi. rewrite Hnc in Hi by done.
    change (Block.mdct_coef quarter_block) with (replicate 6 (replicate 256 (@F_const single_format 1 (-2)))).
    rewrite Hat by done. by vm_compute.
  - intros c i Hc Hi. rewrite Hnc in Hi by done. unfold in_range, block_exp, block_coef.
    change (Block.mdct_coef quarter_block) with (replicate 6 (replicate 256 (@F_const single_format 1 (-2)))).
    change (Block.exp_ quarter_block) with (replicate 6 (replicate 256 1)).
    rewrite !Hat by done. vm_compute. by split; [split|].
  - intros c i Hc Hi. rewrite Hnc in Hi by done. unfold block_bap.
    change (Block.bap quarter_block) with (replicate 6 (replicate 256 1)). rewrite Hat by done. lia.
Qed.

Lemma quantize_mantissas_correct_witness :
  ∃ blocks, @quantize_mantissas single_format example_ctx quarter_frame =
      Some (quarter_frame <| Frame.blocks := blocks |>) ∧ blocks_wf blocks ∧
    ∀ k, 0 ≤ k < 6 → @mantissas_ok single_format 2 (Frame.ncoefs quarter_frame) (Frame.blocks quarter_frame).[k] blocks.[k].
Proof.
  apply (@quantize_mantissas_correct single_format example_ctx quarter_frame).
  - apply (blocks_wf_replicate quarter_block), quarter_block_wf.
  - intros k Hk. change (Frame.blocks quarter_frame) with (replicate 6 quarter_block).
    rewrite at_replicate by (simpl; lia). apply quarter_ready.
Defined.
