(* ===== verification/FrameOut.v ===== *)
(** Putting out a frame, of [libaften/a52enc.c]: [output_frame_header],
    [output_audio_blocks], [output_frame_end].  The theorems show that the
    frame is the fields of the syntax, that it has the size bit allocation
    counted, that it fits the frame and that both of its checksums hold. *)
From Stdlib Require Import ZArith Lia ZifyBool Bool.
From stdpp Require Import base option list numbers.
From coqutil Require Import Datatypes.RecordSettersUsingExistingGetters.
From S2P Require Import Prelude CMachine Float Bits BitIO Crc Tables Types Util A52 Exponent BitAlloc Quant.
Local Open Scope Z_scope.
Local Open Scope carray_scope.

(** * Writers

    The output functions are sequences of [bitwriter_writebits] calls on one
    writer: [put] is a call, [f ;;; g] runs [f] and then [g], [when_ c f] is
    [if (c) f], [for_each lo hi f] a loop, and [with_ m f] reads an operand. *)
Declare Scope writer_scope.
Definition writer : Type := BitWriter → option BitWriter.

Section combinators.
Context `{Target}.

Definition put (bits val : Z) : writer := λ bw, bitwriter_writebits bw bits val.
Definition skip : writer := Some.
Definition seq_ (f g : writer) : writer := λ bw, bw ← f bw; g bw.
Definition when_ (c : bool) (f : writer) : writer := if c then f else skip.
Definition for_each (lo hi : Z) (f : Z → writer) : writer := for_up lo hi f.
Definition with_ {A} (m : option A) (f : A → writer) : writer := λ bw, x ← m; f x bw.
End combinators.

Notation "f ;;; g" := (seq_ f g) (at level 100, right associativity) : writer_scope.
Notation "x ←r m ; f" := (with_ m (λ x, f)) (at level 20, m at level 100, f at level 200,
  format "x  ←r  m ;  f") : writer_scope.
Local Open Scope writer_scope.

Section output.
Context `{Target}.

(** [output_frame_header]: the fields, and the call that starts the writer. *)
Definition write_frame_header (ctx : Ctx.t) (f : Frame.t) : writer :=
  let meta := Ctx.meta ctx in
  let frmsizecod := Frame.frmsizecod f + (Frame.frame_size f - Frame.frame_size_min f) in
  put 16 0x0B77;;;
  put 16 0;;;
  put 2 (Ctx.fscod ctx);;;
  put 6 frmsizecod;;;
  put 5 (Ctx.bsid ctx);;;
  put 3 (Ctx.bsmod ctx);;;
  put 3 (Ctx.acmod ctx);;;
  when_ (negb (Z.land (Ctx.acmod ctx) 1 =? 0) && negb (Ctx.acmod ctx =? A52_ACMOD_MONO))
    (put 2 (Metadata.cmixlev meta));;;
  when_ (negb (Z.land (Ctx.acmod ctx) 4 =? 0)) (put 2 (Metadata.surmixlev meta));;;
  when_ (Ctx.acmod ctx =? A52_ACMOD_STEREO) (put 2 (Metadata.dsurmod meta));;;
  put 1 (Ctx.lfe ctx);;;
  put 5 (Metadata.dialnorm meta);;;
  put 1 0;;;
  put 1 0;;;
  put 1 0;;;
  when_ (Ctx.acmod ctx =? A52_ACMOD_DUAL_MONO)
    (put 5 (Metadata.dialnorm meta);;;
     put 1 0;;;
     put 1 0;;;
     put 1 0);;;
  put 1 0;;;
  put 1 1;;;
  (if Ctx.bsid ctx =? 6 then
     put 1 (Metadata.xbsi1e meta);;;
     when_ (negb (Metadata.xbsi1e meta =? 0))
       (put 2 (Metadata.dmixmod meta);;;
        put 3 (Metadata.ltrtcmixlev meta);;;
        put 3 (Metadata.ltrtsmixlev meta);;;
        put 3 (Metadata.lorocmixlev meta);;;
        put 3 (Metadata.lorosmixlev meta));;;
     put 1 (Metadata.xbsi2e meta);;;
     when_ (negb (Metadata.xbsi2e meta =? 0))
       (put 2 (Metadata.dsurexmod meta);;;
        put 2 (Metadata.dheadphonmod meta);;;
        put 1 (Metadata.adconvtyp meta);;;
        put 9 0)
   else
     put 1 0;;;
     put 1 0);;;
  put 1 0.

Definition output_frame_header (ctx : Ctx.t) (tctx : TCtx.t) (frame_buffer : list Z) : option TCtx.t :=
  bw ← write_frame_header ctx (TCtx.frame tctx) (bitwriter_init (Some frame_buffer) A52_MAX_CODED_FRAME_SIZE);
  Some (tctx <| TCtx.bw := bw |>).

(** The mantissa switch of [output_audio_blocks]. *)
Definition write_mantissa (b q : Z) : writer :=
  if b =? 0 then skip
  else if b =? 1 then when_ (negb (q =? 128)) (put 5 q)
  else if b =? 2 then when_ (negb (q =? 128)) (put 7 q)
  else if b =? 3 then put 3 q
  else if b =? 4 then when_ (negb (q =? 128)) (put 7 q)
  else if b =? 14 then put 14 q
  else if b =? 15 then put 16 q
  else put (b - 1) q.

Definition write_audio_block (ctx : Ctx.t) (frame : Frame.t) (blk : Z) (block : Block.t) : writer :=
  for_each 0 (Ctx.n_channels ctx) (λ ch, x ←r aget (Block.blksw block) ch; put 1 x);;;
  for_each 0 (Ctx.n_channels ctx) (λ ch, x ←r aget (Block.dithflag block) ch; put 1 x);;;
  (if EncParams.dynrng_profile (Ctx.params ctx) =? DYNRNG_PROFILE_NONE then
     put 1 0;;;
     when_ (Ctx.acmod ctx =? A52_ACMOD_DUAL_MONO) (put 1 0)
   else
     put 1 1;;;
     put 8 (Block.dynrng block);;;
     when_ (Ctx.acmod ctx =? A52_ACMOD_DUAL_MONO) (put 1 1;;; put 8 (Block.dynrng block)));;;
  (if Block.block_num block =? 0 then put 1 1;;; put 1 0 else put 1 0);;;
  when_ (Ctx.acmod ctx =? A52_ACMOD_STEREO)
    (let rematstr := Z.b2z (blk =? 0) in
     put 1 rematstr;;;
     when_ (negb (rematstr =? 0))
       (for_each 0 4 (λ rbnd, x ←r aget (Frame.rematflg frame) rbnd; put 1 x)));;;
  for_each 0 (Ctx.n_channels ctx) (λ ch, x ←r aget (Block.exp_strategy block) ch; put 2 x);;;
  when_ (negb (Ctx.lfe ctx =? 0)) (x ←r aget (Block.exp_strategy block) (Ctx.lfe_channel ctx); put 1 x);;;
  for_each 0 (Ctx.n_channels ctx) (λ ch,
    x ←r aget (Block.exp_strategy block) ch; when_ (negb (x =? EXP_REUSE)) (put 6 (Frame.bwcode frame)));;;
  for_each 0 (Ctx.n_all_channels ctx) (λ ch,
    x ←r aget (Block.exp_strategy block) ch;
    when_ (negb (x =? EXP_REUSE))
      (g ←r aget2 (Block.grp_exp block) ch 0;
       put 4 g;;;
       n ←r aget (Block.nexpgrps block) ch;
       for_each 1 (n + 1) (λ i, g ←r aget2 (Block.grp_exp block) ch i; put 7 g);;;
       when_ (negb (ch =? Ctx.lfe_channel ctx)) (put 2 0)));;;
  (let baie := Z.b2z (Block.block_num block =? 0) in
   put 1 baie;;;
   when_ (negb (baie =? 0))
     (put 2 (Frame.sdecaycod frame);;;
      put 2 (Frame.fdecaycod frame);;;
      put 2 (Frame.sgaincod frame);;;
      put 2 (Frame.dbkneecod frame);;;
      put 3 (Frame.floorcod frame)));;;
  put 1 (Block.write_snr block);;;
  when_ (negb (Block.write_snr block =? 0))
    (put 6 (Frame.csnroffst frame);;;
     for_each 0 (Ctx.n_all_channels ctx) (λ ch,
       put 4 (Frame.fsnroffst frame);;;
       x ←r aget (Block.fgaincod block) ch; put 3 x));;;
  put 1 0;;;
  put 1 0;;;
  for_each 0 (Ctx.n_all_channels ctx) (λ ch,
    nc ←r aget (Frame.ncoefs frame) ch;
    for_each 0 nc (λ i,
      q ←r aget2 (Block.qmant block) ch i;
      b ←r aget2 (Block.bap block) ch i;
      write_mantissa b q)).

Definition output_audio_blocks (ctx : Ctx.t) (tctx : TCtx.t) : option TCtx.t :=
  let frame := TCtx.frame tctx in
  bw ← for_each 0 A52_NUM_BLOCKS (λ blk,
         block ←r aget (Frame.blocks frame) blk; write_audio_block ctx frame blk block) (TCtx.bw tctx);
  Some (tctx <| TCtx.bw := bw |>).

(** [output_frame_end]; [crc16tab] is the table of [crc.c].  The checksums are
    filled in by [fill_crcs]; the last result tells whether its double-check
    printed [CRC ERROR]. *)
Definition fs58 (fs : Z) : Z := Z.shiftr fs 1 + Z.shiftr fs 3.

Definition fill_crcs (crc16tab : list Z) (fs : Z) (frame : list Z) : option (list Z * bool) :=
  crc1 ← calc_crc16 crc16tab frame 4 (Z.shiftl (fs58 fs) 1 - 4);
  crc1 ← crc16_zero crc1 (Z.shiftl (fs58 fs) 1 - 2);
  frame ← aset frame 2 (u8 (Z.shiftr crc1 8));
  frame ← aset frame 3 (u8 crc1);
  crc1 ← calc_crc16 crc16tab frame 2 (Z.shiftl (fs58 fs) 1 - 2);
  crc2 ← calc_crc16 crc16tab frame (Z.shiftl (fs58 fs) 1) (Z.shiftl (fs - fs58 fs) 1 - 2);
  frame ← aset frame (Z.shiftl fs 1 - 2) (u8 (Z.shiftr crc2 8));
  frame ← aset frame (Z.shiftl fs 1 - 1) (u8 crc2);
  Some (frame, negb (crc1 =? 0)).

Definition output_frame_end (crc16tab : list Z) (tctx : TCtx.t) : option (TCtx.t * Z * bool) :=
  let fs := Frame.frame_size (TCtx.frame tctx) in
  bw ← bitwriter_flushbits (TCtx.bw tctx);
  let bitcount := bitwriter_bitcount bw in
  let n := Z.shiftl fs 1 - 2 - Z.shiftr bitcount 3 in
  if n <? 0 then Some (tctx <| TCtx.bw := bw |>, -1, false) else
  frame ← buffer bw;
  frame ← (if n >? 0 then memset frame (Z.shiftr bitcount 3) 0 n else Some frame);
  '(frame, crc_error) ← fill_crcs crc16tab fs frame;
  Some (tctx <| TCtx.bw := bw <| buffer := Some frame |> |>, Z.shiftl fs 1, crc_error).
End output.

(** * The fields *)

Definition when_fields (c : bool) (fs : list (Z * Z)) : list (Z * Z) := if c then fs else [].

Definition header_fields (ctx : Ctx.t) (f : Frame.t) : list (Z * Z) :=
  let meta := Ctx.meta ctx in
  let acmod := Ctx.acmod ctx in
  [(16, 0x0B77); (16, 0); (2, Ctx.fscod ctx);
   (6, Frame.frmsizecod f + (Frame.frame_size f - Frame.frame_size_min f));
   (5, Ctx.bsid ctx); (3, Ctx.bsmod ctx); (3, acmod)]
  ++ when_fields (negb (Z.land acmod 1 =? 0) && negb (acmod =? A52_ACMOD_MONO)) [(2, Metadata.cmixlev meta)]
  ++ when_fields (negb (Z.land acmod 4 =? 0)) [(2, Metadata.surmixlev meta)]
  ++ when_fields (acmod =? A52_ACMOD_STEREO) [(2, Metadata.dsurmod meta)]
  ++ [(1, Ctx.lfe ctx); (5, Metadata.dialnorm meta); (1, 0); (1, 0); (1, 0)]
  ++ when_fields (acmod =? A52_ACMOD_DUAL_MONO) [(5, Metadata.dialnorm meta); (1, 0); (1, 0); (1, 0)]
  ++ [(1, 0); (1, 1)]
  ++ (if Ctx.bsid ctx =? 6 then
        [(1, Metadata.xbsi1e meta)]
        ++ when_fields (negb (Metadata.xbsi1e meta =? 0))
             [(2, Metadata.dmixmod meta); (3, Metadata.ltrtcmixlev meta); (3, Metadata.ltrtsmixlev meta);
              (3, Metadata.lorocmixlev meta); (3, Metadata.lorosmixlev meta)]
        ++ [(1, Metadata.xbsi2e meta)]
        ++ when_fields (negb (Metadata.xbsi2e meta =? 0))
             [(2, Metadata.dsurexmod meta); (2, Metadata.dheadphonmod meta); (1, Metadata.adconvtyp meta); (9, 0)]
      else [(1, 0); (1, 0)])
  ++ [(1, 0)].

(** The mantissa of pointer [b] and element [q]. *)
Definition mant_fields (b q : Z) : list (Z * Z) :=
  when_fields (negb (mant_width b q =? 0)) [(mant_width b q, q)].

Definition exps_fields (ctx : Ctx.t) (b : Block.t) (ch : Z) : list (Z * Z) :=
  when_fields (negb ((Block.exp_strategy b).[ch] =? EXP_REUSE))
    ([(4, (Block.grp_exp b).[ch].[0])]
     ++ zcat (λ i, [(7, (Block.grp_exp b).[ch].[1 + i])]) (Block.nexpgrps b).[ch]
     ++ when_fields (negb (ch =? Ctx.lfe_channel ctx)) [(2, 0)]).

Definition block_fields (ctx : Ctx.t) (frame : Frame.t) (blk : Z) (b : Block.t) : list (Z * Z) :=
  let n := Ctx.n_channels ctx in
  let dual := Ctx.acmod ctx =? A52_ACMOD_DUAL_MONO in
  zcat (λ ch, [(1, (Block.blksw b).[ch])]) n
  ++ zcat (λ ch, [(1, (Block.dithflag b).[ch])]) n
  ++ (if EncParams.dynrng_profile (Ctx.params ctx) =? DYNRNG_PROFILE_NONE
      then [(1, 0)] ++ when_fields dual [(1, 0)]
      else [(1, 1); (8, Block.dynrng b)] ++ when_fields dual [(1, 1); (8, Block.dynrng b)])
  ++ (if Block.block_num b =? 0 then [(1, 1); (1, 0)] else [(1, 0)])
  ++ when_fields (Ctx.acmod ctx =? A52_ACMOD_STEREO)
       ([(1, Z.b2z (blk =? 0))]
        ++ when_fields (negb (Z.b2z (blk =? 0) =? 0)) (zcat (λ r, [(1, (Frame.rematflg frame).[r])]) 4))
  ++ zcat (λ ch, [(2, (Block.exp_strategy b).[ch])]) n
  ++ when_fields (negb (Ctx.lfe ctx =? 0)) [(1, (Block.exp_strategy b).[Ctx.lfe_channel ctx])]
  ++ zcat (λ ch, when_fields (negb ((Block.exp_strategy b).[ch] =? EXP_REUSE)) [(6, Frame.bwcode frame)]) n
  ++ zcat (exps_fields ctx b) (Ctx.n_all_channels ctx)
  ++ ([(1, Z.b2z (Block.block_num b =? 0))]
      ++ when_fields (negb (Z.b2z (Block.block_num b =? 0) =? 0))
           [(2, Frame.sdecaycod frame); (2, Frame.fdecaycod frame); (2, Frame.sgaincod frame);
            (2, Frame.dbkneecod frame); (3, Frame.floorcod frame)])
  ++ [(1, Block.write_snr b)]
  ++ when_fields (negb (Block.write_snr b =? 0))
       ([(6, Frame.csnroffst frame)]
        ++ zcat (λ ch, [(4, Frame.fsnroffst frame); (3, (Block.fgaincod b).[ch])]) (Ctx.n_all_channels ctx))
  ++ [(1, 0); (1, 0)]
  ++ zcat (λ ch, zcat (λ i, mant_fields (Block.bap b).[ch].[i] (Block.qmant b).[ch].[i]) (Frame.ncoefs frame).[ch])
       (Ctx.n_all_channels ctx).

Definition audio_fields (ctx : Ctx.t) (frame : Frame.t) : list (Z * Z) :=
  zcat (λ blk, block_fields ctx frame blk (Frame.blocks frame).[blk]) 6.

Definition frame_fields (ctx : Ctx.t) (frame : Frame.t) : list (Z * Z) :=
  header_fields ctx frame ++ audio_fields ctx frame.

(** ** The code writes the fields *)

Section writes.
Context `{Target}.

Definition writes (w : writer) (fs : list (Z * Z)) : Prop := ∀ bw, w bw = write_fields bw fs.

Lemma writes_put n v : writes (put n v) [(n, v)].
Proof. intros bw. simpl. unfold put. by destruct (bitwriter_writebits bw n v). Qed.

Lemma writes_skip : writes skip [].
Proof. done. Qed.

Lemma writes_seq f g fs gs : writes f fs → writes g gs → writes (f ;;; g) (fs ++ gs).
Proof.
  intros Hf Hg bw. unfold seq_. rewrite Hf, write_fields_app.
  destruct (write_fields bw fs); simpl; [apply Hg|done].
Qed.

Lemma writes_cons n v g gs : writes g gs → writes (put n v ;;; g) ((n, v) :: gs).
Proof. intros Hg. apply (writes_seq _ _ [(n, v)]); [apply writes_put|done]. Qed.

Lemma writes_assoc f g h fs : writes (f ;;; g ;;; h) fs → writes ((f ;;; g) ;;; h) fs.
Proof. intros Hw bw. rewrite <- Hw. unfold seq_. by destruct (f bw). Qed.

Lemma writes_if (c : bool) f g fs gs :
  (c = true → writes f fs) → (c = false → writes g gs) → writes (if c then f else g) (if c then fs else gs).
Proof. destruct c; auto. Qed.

Lemma writes_when (c : bool) f fs : (c = true → writes f fs) → writes (when_ c f) (when_fields c fs).
Proof. intros Hf. apply writes_if; [done|]. intros _. apply writes_skip. Qed.

Lemma writes_with {A} (m : option A) x f fs : m = Some x → writes (f x) fs → writes (with_ m f) fs.
Proof. intros -> Hf bw. apply Hf. Qed.

Lemma writes_for lo n f fs :
  (∀ i, 0 ≤ i < n → writes (f (lo + i)) (fs i)) → writes (for_each lo (lo + n) f) (zcat fs n).
Proof.
  intros Hf. destruct (Z.leb_spec n 0) as [Hn|Hn].
  { intros bw. unfold for_each. rewrite for_up_done by lia. unfold zcat. by replace (Z.to_nat n) with 0%nat by lia. }
  cut (∀ m lo f fs, (∀ i, 0 ≤ i < Z.of_nat m → writes (f (lo + i)) (fs i)) →
         writes (for_each lo (lo + Z.of_nat m) f) (zcat fs (Z.of_nat m))).
  { intros Hc. specialize (Hc (Z.to_nat n) lo f fs). rewrite Z2Nat.id in Hc by lia. auto. }
  clear. induction m as [|m IH]; intros lo f fs Hf bw.
  { unfold for_each. by rewrite for_up_done by lia. }
  unfold for_each. rewrite for_up_step by lia.
  assert (Hcat : zcat fs (Z.of_nat (S m)) = fs 0 ++ zcat (λ i, fs (i + 1)) (Z.of_nat m)).
  { clear. rewrite Nat2Z.inj_succ, <- Z.add_1_l.
    apply (zsum_ind (λ k, zcat fs (1 + k) = fs 0 ++ zcat (λ i, fs (i + 1)) k)); [lia|by rewrite app_nil_r|].
    intros k Hk IH. rewrite Z.add_assoc, !zcat_succ, IH, <- app_assoc by lia. do 3 f_equal. lia. }
  rewrite Hcat, write_fields_app. specialize (Hf 0 ltac:(lia)) as H0. rewrite Z.add_0_r in H0. rewrite H0.
  destruct (write_fields bw (fs 0)) as [bw'|]; simpl; [|done].
  replace (lo + Z.of_nat (S m)) with (lo + 1 + Z.of_nat m) by lia.
  apply IH. intros i Hi. replace (lo + 1 + i) with (lo + (i + 1)) by lia. apply Hf. lia.
Qed.

Lemma writes_for0 n f fs : (∀ i, 0 ≤ i < n → writes (f i) (fs i)) → writes (for_each 0 n f) (zcat fs n).
Proof. intros Hf. apply (writes_for 0 n f fs). intros i Hi. by apply Hf. Qed.

Lemma write_mantissa_writes b q : 0 ≤ b ≤ 15 → writes (write_mantissa b q) (mant_fields b q).
Proof.
  intros Hb. unfold write_mantissa, mant_fields, mant_width, code_bits, is_grouped.
  assert (b = 0 ∨ b = 1 ∨ b = 2 ∨ b = 3 ∨ b = 4 ∨ b = 14 ∨ b = 15 ∨ 5 ≤ b ≤ 13)
    as [-> |[-> |[-> |[-> |[-> |[-> |[-> |Hb']]]]]]] by lia;
    [simpl; try (destruct (q =? 128)); first [apply writes_skip|apply writes_put]..|].
  repeat rewrite (proj2 (Z.eqb_neq b _)) by lia. simpl. rewrite (proj2 (Z.eqb_neq _ 0)) by lia. apply writes_put.
Qed.

(** One call, branch, loop or operand of a writer per step. *)
Ltac writes_step :=
  lazymatch goal with
  | |- writes ((_ ;;; _) ;;; _) _ => apply writes_assoc
  | |- writes (put _ _ ;;; _) _ => apply writes_cons
  | |- writes (put _ _) _ => apply writes_put
  | |- writes (when_ _ _) _ => apply writes_when; intros ?
  | |- writes (if _ then _ else _) _ => apply writes_if; intros ?
  | |- writes (for_each 0 _ _) _ => apply writes_for0; intros ? ?
  | |- writes (with_ (aget _ _) _) _ => eapply writes_with; [apply aget_at; try lia|cbv beta]
  | |- writes (with_ (aget2 _ _ _) _) _ => eapply writes_with; [eapply aget2_at; try eassumption; try lia|cbv beta]
  | |- writes (_ ;;; _) _ => apply writes_seq
  | |- writes (let _ := _ in _) _ => cbv zeta
  end.

Lemma write_frame_header_writes ctx f : writes (write_frame_header ctx f) (header_fields ctx f).
Proof. unfold write_frame_header, header_fields. cbv zeta. cbn [app]. repeat writes_step. Qed.

(** What the audio blocks' code reads is there. *)
Record block_out_ok (ctx : Ctx.t) (frame : Frame.t) (b : Block.t) : Prop := {
  bo_channels : channels_ok ctx;
  bo_wf : block_wf b;
  bo_remat : zlen (Frame.rematflg frame) = 4;
  bo_nlen : zlen (Frame.ncoefs frame) = 6;
  bo_nexp : ∀ c, 0 ≤ c < Ctx.n_all_channels ctx → (Block.exp_strategy b).[c] ≠ EXP_REUSE →
            0 ≤ (Block.nexpgrps b).[c] ≤ 84;
  bo_ncoefs : ∀ c, 0 ≤ c < Ctx.n_all_channels ctx → 0 ≤ (Frame.ncoefs frame).[c] ≤ 256;
  bo_bap : ∀ c i, 0 ≤ c < Ctx.n_all_channels ctx → 0 ≤ i < (Frame.ncoefs frame).[c] →
           0 ≤ (Block.bap b).[c].[i] ≤ 15
}.

Lemma write_audio_block_writes ctx frame blk b :
  block_out_ok ctx frame b → writes (write_audio_block ctx frame blk b) (block_fields ctx frame blk b).
Proof.
  intros [[Hn1 Hlfe Hall Hlc] [] Hremat Hnl Hnexp Hnc Hbap].
  unfold write_audio_block, block_fields, exps_fields. cbv zeta. cbn [app]. repeat writes_step.
  - rewrite Hlc. destruct (Ctx.lfe ctx =? 0); [done|lia].
  - assert (Hne : (Block.exp_strategy b).[i] ≠ EXP_REUSE) by lia.
    replace ((Block.nexpgrps b).[i] + 1) with (1 + (Block.nexpgrps b).[i]) by lia.
    specialize (Hnexp i ltac:(lia) Hne). apply writes_for. intros j Hj. writes_step. writes_step.
  - specialize (Hnc i ltac:(lia)). lia.
  - specialize (Hnc i ltac:(lia)). lia.
  - apply write_mantissa_writes. apply Hbap; lia.
Qed.

Lemma audio_blocks_writes ctx frame :
  zlen (Frame.blocks frame) = 6 → (∀ k, 0 ≤ k < 6 → block_out_ok ctx frame (Frame.blocks frame).[k]) →
  writes (for_each 0 A52_NUM_BLOCKS (λ blk, block ←r aget (Frame.blocks frame) blk; write_audio_block ctx frame blk block))
         (audio_fields ctx frame).
Proof.
  intros Hl Hb. unfold audio_fields, A52_NUM_BLOCKS. repeat writes_step.
  apply write_audio_block_writes, Hb. lia.
Qed.
End writes.

(** * Counting the fields *)

Section widths.
Variables (ctx : Ctx.t) (frame : Frame.t).
Hypothesis Hch : channels_ok ctx.

Lemma width_app fs gs : fields_width (fs ++ gs) = fields_width fs + fields_width gs.
Proof. unfold fields_width. induction fs as [|f fs IH]; simpl; [done|]. rewrite IH. lia. Qed.

Lemma width_when c fs : fields_width (when_fields c fs) = Z.b2z c * fields_width fs.
Proof. destruct c; simpl; [|done]. by destruct (fields_width fs). Qed.

Lemma width_zcat (f : Z → list (Z * Z)) n : fields_width (zcat f n) = zsum (λ i, fields_width (f i)) n.
Proof. apply zcat_sum; [done|]. intros. apply width_app. Qed.

Lemma zsum_const c n : 0 ≤ n → zsum (λ _, c) n = c * n.
Proof. intros Hn. apply (zsum_ind (λ k, zsum (λ _, c) k = c * k)); [done|rewrite zsum_0; lia|]. intros k Hk IH. rewrite zsum_succ by lia. lia. Qed.

(** The header takes the bits counted for it, or fewer: the extended
    information is counted for every [bsid] and sent only with 6. *)
Lemma header_width :
  0 ≤ Ctx.acmod ctx ≤ 7 →
  fields_width (header_fields ctx frame) =
  header_fixed_bits ctx - (if Ctx.bsid ctx =? 6 then 0 else
    14 * Z.b2z (negb (Metadata.xbsi1e (Ctx.meta ctx) =? 0)) + 14 * Z.b2z (negb (Metadata.xbsi2e (Ctx.meta ctx) =? 0))).
Proof.
  intros Ha. unfold header_fields, header_fixed_bits. cbv zeta. rewrite !width_app, !width_when.
  assert (Hinc : Z.b2z (negb (Z.land (Ctx.acmod ctx) 1 =? 0) && negb (Ctx.acmod ctx =? A52_ACMOD_MONO)) * 2
      + Z.b2z (negb (Z.land (Ctx.acmod ctx) 4 =? 0)) * 2 + Z.b2z (Ctx.acmod ctx =? A52_ACMOD_STEREO) * 2
      + Z.b2z (Ctx.acmod ctx =? A52_ACMOD_DUAL_MONO) * 8 = frame_bits_inc.[Ctx.acmod ctx]).
  { assert (Ctx.acmod ctx = 0 ∨ Ctx.acmod ctx = 1 ∨ Ctx.acmod ctx = 2 ∨ Ctx.acmod ctx = 3 ∨ Ctx.acmod ctx = 4 ∨
      Ctx.acmod ctx = 5 ∨ Ctx.acmod ctx = 6 ∨ Ctx.acmod ctx = 7) as [->|[->|[->|[->|[->|[->|[->| ->]]]]]]] by lia; done. }
  rewrite <- Hinc. unfold fields_width. cbn [foldr fst].
  destruct (Ctx.bsid ctx =? 6); [|cbn [foldr fst]; lia].
  fold fields_width. change (foldr (λ f w, fst f + w) 0) with fields_width.
  rewrite !width_app, !width_when. cbn [fields_width foldr fst]. lia.
Qed.

(** The blocks take the bits counted for them. *)
Lemma exps_width b c :
  0 ≤ (Block.nexpgrps b).[c] →
  fields_width (exps_fields ctx b c) =
  Z.b2z (negb ((Block.exp_strategy b).[c] =? EXP_REUSE)) *
    (4 + 7 * (Block.nexpgrps b).[c] + 2 * Z.b2z (negb (c =? Ctx.lfe_channel ctx))).
Proof.
  intros Hn. unfold exps_fields. rewrite width_when, !width_app, width_when, width_zcat.
  change (λ i, fields_width [(7, (Block.grp_exp b).[c].[1 + i])]) with (λ _ : Z, 7).
  rewrite zsum_const by done. cbn [fields_width foldr fst]. lia.
Qed.

Lemma mant_fields_width b q : fields_width (mant_fields b q) = mant_width b q.
Proof.
  unfold mant_fields. rewrite width_when. cbn [fields_width foldr fst].
  destruct (Z.eqb_spec (mant_width b q) 0); simpl; lia.
Qed.

Definition written_mant_bits (b : Block.t) : Z :=
  zsum (λ c, zsum (λ i, mant_width (Block.bap b).[c].[i] (Block.qmant b).[c].[i]) (Frame.ncoefs frame).[c])
       (Ctx.n_all_channels ctx).

Definition written_exp_bits (b : Block.t) : Z :=
  zsum (λ c, Z.b2z (negb ((Block.exp_strategy b).[c] =? EXP_REUSE)) * (4 + 7 * (Block.nexpgrps b).[c]))
       (Ctx.n_all_channels ctx).

Lemma block_width blk b :
  (∀ c, 0 ≤ c < Ctx.n_all_channels ctx → 0 ≤ (Block.nexpgrps b).[c]) → Block.block_num b = blk →
  fields_width (block_fields ctx frame blk b) =
  block_fixed_bits ctx blk b + written_exp_bits b + written_mant_bits b.
Proof.
  intros Hg Hblk. destruct Hch as [Hn Hlfe Hall Hlc].
  set (na := Ctx.n_all_channels ctx) in *. set (n := Ctx.n_channels ctx) in *.
  assert (Hexp : zsum (λ i, fields_width (exps_fields ctx b i)) na = written_exp_bits b +
    zsum (λ c, 2 * Z.b2z (negb ((Block.exp_strategy b).[c] =? EXP_REUSE))) n).
  { unfold written_exp_bits. fold na. rewrite (zsum_ext _ (λ c,
      Z.b2z (negb ((Block.exp_strategy b).[c] =? EXP_REUSE)) * (4 + 7 * (Block.nexpgrps b).[c]) +
      Z.b2z (negb ((Block.exp_strategy b).[c] =? EXP_REUSE)) * (2 * Z.b2z (negb (c =? Ctx.lfe_channel ctx)))))
      by (intros c Hc; rewrite exps_width by (by apply Hg); lia).
    rewrite zsum_add by lia. f_equal.
    assert (Hfull : zsum (λ c, Z.b2z (negb ((Block.exp_strategy b).[c] =? EXP_REUSE)) * (2 * Z.b2z (negb (c =? Ctx.lfe_channel ctx)))) n =
      zsum (λ c, 2 * Z.b2z (negb ((Block.exp_strategy b).[c] =? EXP_REUSE))) n).
    { apply zsum_ext. intros c Hc. replace (c =? Ctx.lfe_channel ctx) with false; [simpl; lia|].
      symmetry. apply Z.eqb_neq. rewrite Hlc. destruct (_ =? 0); lia. }
    destruct Hlfe as [H0|H1]; rewrite Hall; [by rewrite H0, Z.add_0_r|].
    rewrite H1, zsum_succ, Hfull, Hlc, H1 by lia. simpl Z.eqb. cbv iota. rewrite Z.eqb_refl. simpl. lia. }
  assert (Hstr : zsum (λ i, fields_width (when_fields (negb ((Block.exp_strategy b).[i] =? EXP_REUSE)) [(6, Frame.bwcode frame)])) n
    + zsum (λ c, 2 * Z.b2z (negb ((Block.exp_strategy b).[c] =? EXP_REUSE))) n =
    zsum (λ c, 8 * Z.b2z (negb ((Block.exp_strategy b).[c] =? EXP_REUSE))) n).
  { rewrite <- zsum_add by lia. apply zsum_ext. intros c Hc. rewrite width_when. cbn [fields_width foldr fst]. lia. }
  assert (Hmant : zsum (λ i, fields_width (zcat (λ i0, mant_fields (Block.bap b).[i].[i0] (Block.qmant b).[i].[i0])
      (Frame.ncoefs frame).[i])) na = written_mant_bits b).
  { apply zsum_ext. intros c Hc. rewrite width_zcat. apply zsum_ext. intros i Hi. apply mant_fields_width. }
  unfold block_fields, block_fixed_bits. cbv zeta. fold n na. rewrite Hblk.
  rewrite !width_app, !width_when, !width_app, !width_zcat, Hmant, Hexp, <- Hstr.
  rewrite width_when, width_zcat.
  change (λ i, fields_width [(1, (Block.blksw b).[i])]) with (λ _ : Z, 1).
  change (λ i, fields_width [(1, (Block.dithflag b).[i])]) with (λ _ : Z, 1).
  change (λ i, fields_width [(1, (Frame.rematflg frame).[i])]) with (λ _ : Z, 1).
  change (λ i, fields_width [(2, (Block.exp_strategy b).[i])]) with (λ _ : Z, 2).
  change (λ i, fields_width [(4, Frame.fsnroffst frame); (3, (Block.fgaincod b).[i])]) with (λ _ : Z, 7).
  rewrite !(zsum_const _ n), (zsum_const _ 4), (zsum_const _ na) by lia.
  set (We := written_exp_bits b). set (Wm := written_mant_bits b).
  set (S1 := zsum _ n). set (S2 := zsum _ n).
  destruct (EncParams.dynrng_profile _ =? _), (Ctx.acmod ctx =? A52_ACMOD_DUAL_MONO), (blk =? 0),
    (Ctx.acmod ctx =? A52_ACMOD_STEREO), (Ctx.lfe ctx =? 0), (Block.write_snr b =? 0);
    cbn [fields_width foldr fst app when_fields negb Z.b2z Z.eqb]; lia.
Qed.
End widths.

(** * Bytes *)

Definition byte (d : Z) : Prop := 0 ≤ d < 256.

Section bytes.
Context `{Target}.

Lemma Forall_upd (P : Z → Prop) l i v : Forall P l → P v → Forall P (upd l i v).
Proof. intros Hl Hv. by apply Forall_insert. Qed.

Lemma Forall_splice (P : Z → Prop) l d s : Forall P l → Forall P s → Forall P (splice l d s).
Proof. intros Hl Hs. unfold splice. rewrite !Forall_app. auto using Forall_take, Forall_drop. Qed.

Lemma host_bytes32_byte x : Forall byte (host_bytes32 x).
Proof.
  assert (Hb : Forall byte (be_bytes32 x)) by (repeat constructor; apply u8_range).
  unfold host_bytes32. destruct words_bigendian; [done|]. by apply Forall_rev.
Qed.

Definition buffer_bytes (bw : BitWriter) : Prop := ∀ m, buffer bw = Some m → Forall byte m.

Lemma put_word_bytes bw w r :
  buffer_bytes bw → put_word bw w = Some r → match r with inl b | inr b => buffer_bytes b end.
Proof.
  intros Hb. unfold put_word. destruct (buffer bw) as [m|] eqn:Hm; [|by intros [= <-]].
  destruct (negb _); [by intros [= <-]|]. destruct (_ <=? _).
  { intros [= <-] m' Hm'. simpl in Hm'. apply Hb. congruence. }
  unfold memcpy. destruct (_ && _); [|done]. simpl. intros [= <-] m' [= <-].
  apply Forall_splice; [by apply Hb|]. unfold slice. auto using Forall_take, Forall_drop, host_bytes32_byte.
Qed.

Lemma writebits_bytes bw n v bw' :
  buffer_bytes bw → bitwriter_writebits bw n v = Some bw' → buffer_bytes bw'.
Proof.
  intros Hb. unfold bitwriter_writebits. case_match; [by intros [= <-]|].
  destruct (shl32 1 n) as [o|]; [|done]. simpl. case_match.
  - destruct (shl32 (bit_buf bw) n); [|done]. by intros [= <-].
  - destruct (shl32 (bit_buf bw) (bit_left bw)) as [b1|]; [|done]. simpl.
    destruct (shr32 _ _) as [b2|]; [|done]. simpl.
    destruct (put_word bw _) as [r|] eqn:Hp; [|done]. simpl. apply put_word_bytes in Hp; [|done].
    destruct r; intros [= <-]; done.
Qed.

Lemma write_fields_bytes fs bw bw' :
  buffer_bytes bw → write_fields bw fs = Some bw' → buffer_bytes bw'.
Proof.
  revert bw. induction fs as [|[n v] fs IH]; intros bw Hb; simpl; [by intros [= <-]|].
  destruct (bitwriter_writebits bw n v) as [b|] eqn:Hw; [|done]. simpl. apply IH.
  by apply (writebits_bytes bw n v).
Qed.

Lemma flush_bytes bw bw' : buffer_bytes bw → bitwriter_flushbits bw = Some bw' → buffer_bytes bw'.
Proof.
  intros Hb. unfold bitwriter_flushbits. destruct (shl32 _ _) as [b|]; [|done]. cbn [mbind option_bind].
  generalize (Z.to_nat (32 - bit_left bw)). intros fuel.
  assert (Hb0 : buffer_bytes (bw <| bit_buf := b |>)) by done. revert Hb0. generalize (bw <| bit_buf := b |>).
  clear. induction fuel as [|fuel IH]; intros b0 Hb0.
  - destruct (bit_left b0 <? 32) eqn:Hc; [cbv beta iota delta [while_loop]; by rewrite Hc|].
    rewrite while_stop by done. simpl. by intros [= <-].
  - destruct (bit_left b0 <? 32) eqn:Hc; [|rewrite while_stop by done; simpl; by intros [= <-]].
    rewrite while_step by done. unfold put_byte. destruct (buffer b0) as [m|] eqn:Hm; [|done]. simpl.
    destruct (aset m (buf_ptr b0) _) as [m'|] eqn:Ha; [|done]. simpl. apply IH.
    intros m2 [= <-]. unfold aset in Ha. case_match; [|done]. injection Ha as <-.
    apply Forall_upd; [by apply Hb0|apply u8_range].
Qed.
End bytes.

(** * The end of a frame *)

(** The data followed by its checksum has checksum 0. *)
Lemma crc_ref_app l k : crc_ref (l ++ k) = Z.lxor (Nat.iter (length (bits_of_bytes k)) xtime (crc_ref l)) (crc_ref k).
Proof.
  unfold crc_ref at 1. rewrite bits_of_bytes_app, crc_bits_app. apply crc_bits_xor. apply crc_ref_is16.
Qed.

Lemma crc_ref_append l : crc_ref (l ++ [Z.shiftr (crc_ref l) 8; Z.land (crc_ref l) 255]) = 0.
Proof.
  rewrite crc_ref_app. pose proof (crc_ref_is16 l) as Hc. generalize dependent (crc_ref l). intros c Hc.
  rewrite (crc_ref_word c [] Hc). change (crc_ref []) with 0. rewrite Z.lxor_0_r. apply Z.lxor_nilpotent.
Qed.

Lemma word_bytes_bits c : bits_of_bytes [u8 (Z.shiftr c 8); u8 c] = bits_of 16 c.
Proof.
  unfold bits_of_bytes. cbn [flat_map]. rewrite !bits_of_8_u8, app_nil_r.
  change (Z.shiftr c 8) with (Z.shiftr c (Z.of_nat 8)). by rewrite <- bits_of_app.
Qed.

Lemma is16_bytes c : is16 c → u8 (Z.shiftr c 8) = Z.shiftr c 8 ∧ u8 c = Z.land c 255.
Proof.
  intros Hc. unfold is16 in Hc. split; [|symmetry; apply land255].
  apply u8_id. rewrite Z.shiftr_div_pow2 by lia. change (2 ^ 8) with 256.
  split; [apply Z.div_pos; lia|apply Z.div_lt_upper_bound; lia].
Qed.

Lemma bits_of_bytes_zeros n : bits_of_bytes (replicate n 0) = replicate (n * 8) false.
Proof.
  induction n as [|n IH]; [done|]. cbn [replicate]. change (?x :: ?l) with ([x] ++ l).
  rewrite bits_of_bytes_app, IH. done.
Qed.

Lemma fs58_bounds fs : 8 ≤ fs → 5 ≤ fs58 fs < fs ∧ fs58 fs + 1 ≤ fs.
Proof.
  intros Hf. unfold fs58. rewrite !Z.shiftr_div_pow2 by lia. change (2 ^ 1) with 2. change (2 ^ 3) with 8.
  pose proof (Z.div_mod fs 2 ltac:(lia)). pose proof (Z.mod_pos_bound fs 2 ltac:(lia)).
  pose proof (Z.div_mod fs 8 ltac:(lia)). pose proof (Z.mod_pos_bound fs 8 ltac:(lia)). lia.
Qed.

(** A frame of [fs] words: the data bits [bs] with [c1] for the first checksum,
    zeros, and the second checksum; both checksums hold. *)
Record frame_image (fs : Z) (bs : list bool) (m : list Z) : Prop := {
  fi_bits : ∃ c1 c2 pad, is16 c1 ∧ is16 c2 ∧
    bits_of_bytes (slice m 0 (2 * fs)) =
      take 16 bs ++ bits_of 16 c1 ++ drop 32 bs ++ replicate pad false ++ bits_of 16 c2;
  fi_crc1 : crc_ref (slice m 2 (2 * fs58 fs - 2)) = 0;
  fi_crc2 : crc_ref (slice m (2 * fs58 fs) (2 * (fs - fs58 fs))) = 0
}.

Section frame_end.
Context `{Target}.
Variable tab : list Z.
Hypothesis Htab : crc_init crc16tab_zero = Some tab.

(** The buffer before the checksums: the data bits, then zeros. *)
Record padded (fs : Z) (bs : list bool) (m0 m : list Z) : Prop := {
  pad_len : zlen m = zlen m0;
  pad_byte : Forall byte m;
  pad_rest : drop (Z.to_nat (2 * fs - 2)) m = drop (Z.to_nat (2 * fs - 2)) m0;
  pad_bits : ∃ pad, bits_of_bytes (slice m 0 (2 * fs - 2)) = bs ++ replicate pad false
}.

Lemma bits_split l a b : bits_of_bytes l = a ++ b → zlen a = 32 →
  ∀ w0 w1 w2 w3 r, l = w0 :: w1 :: w2 :: w3 :: r →
  bits_of_bytes [w0; w1] = take 16 a ∧ bits_of_bytes r = b.
Proof.
  intros Hl Ha w0 w1 w2 w3 r ->. change (w0 :: w1 :: w2 :: w3 :: r) with ([w0; w1] ++ [w2; w3] ++ r) in Hl.
  rewrite !bits_of_bytes_app in Hl. rewrite app_assoc in Hl.
  assert (Hlen : length (bits_of_bytes [w0; w1] ++ bits_of_bytes [w2; w3]) = length a).
  { rewrite length_app. pose proof (zlen_bits_of_bytes [w0; w1]). pose proof (zlen_bits_of_bytes [w2; w3]).
    unfold zlen in *. simpl length in *. lia. }
  apply app_inj_1 in Hl as [Hla ->]; [|done]. split; [|done]. rewrite <- Hla.
  symmetry. rewrite take_app_le by (pose proof (zlen_bits_of_bytes [w0; w1]); unfold zlen in *; simpl length in *; lia).
  apply take_ge. pose proof (zlen_bits_of_bytes [w0; w1]). unfold zlen in *. simpl length in *. lia.
Qed.

(** Its parts: the bytes up to the first checksum, the two ranges that are
    checked, the place of the second checksum, and what follows the frame. *)
Lemma padded_parts fs bs m0 m :
  8 ≤ fs → 2 * fs ≤ zlen m0 → 32 ≤ zlen bs → padded fs bs m0 m →
  ∃ w0 w1 w2 w3 R1 R2 x y Y, m = [w0; w1; w2; w3] ++ R1 ++ R2 ++ x :: y :: Y ∧
    zlen R1 = 2 * fs58 fs - 4 ∧ zlen R2 = 2 * (fs - fs58 fs) - 2 ∧ Y = drop (Z.to_nat (2 * fs)) m0 ∧
    bits_of_bytes [w0; w1] = take 16 bs ∧ ∃ pad, bits_of_bytes (R1 ++ R2) = drop 32 bs ++ replicate pad false.
Proof.
  intros Hfs Hl Hbs [Hlen _ Hrest [pad Hbits]]. destruct (fs58_bounds fs Hfs) as [H5 _].
  destruct (split_at m 4) as (W & m4 & -> & HW); [lia|]. rewrite zlen_app in Hlen.
  destruct (split_at m4 (2 * fs58 fs - 4)) as (R1 & m5 & -> & HR1); [lia|]. rewrite zlen_app in Hlen.
  destruct (split_at m5 (2 * (fs - fs58 fs) - 2)) as (R2 & m6 & -> & HR2); [lia|]. rewrite zlen_app in Hlen.
  destruct m6 as [|x [|y Y]]; [unfold zlen in *; simpl in *; lia..|].
  destruct W as [|w0 [|w1 [|w2 [|w3 [|]]]]]; try (unfold zlen in HW; simpl in HW; lia).
  exists w0, w1, w2, w3, R1, R2, x, y, Y. split; [done|]. split; [done|]. split; [done|].
  set (W := [w0; w1; w2; w3]) in *.
  assert (Hdrop : drop (Z.to_nat (2 * fs - 2)) (W ++ R1 ++ R2 ++ x :: y :: Y) = x :: y :: Y).
  { rewrite !app_assoc. apply drop_app_length'. rewrite !length_app. unfold zlen in *. lia. }
  split.
  - rewrite Hdrop in Hrest. replace (Z.to_nat (2 * fs)) with (Z.to_nat (2 * fs - 2) + 2)%nat by lia.
    by rewrite <- drop_drop, <- Hrest.
  - assert (Hs : slice (W ++ R1 ++ R2 ++ x :: y :: Y) 0 (2 * fs - 2) = w0 :: w1 :: w2 :: w3 :: R1 ++ R2).
    { change (w0 :: w1 :: w2 :: w3 :: R1 ++ R2) with (W ++ R1 ++ R2).
      pose proof (slice_mid [] (W ++ R1 ++ R2) (x :: y :: Y) 0 (2 * fs - 2) eq_refl) as Hm.
      rewrite <- Hm by (rewrite !zlen_app; lia). by rewrite <- !app_assoc. }
    rewrite Hs in Hbits. rewrite <- (take_drop 32 bs), <- app_assoc in Hbits.
    assert (H32 : zlen (take 32 bs) = 32) by (unfold zlen in *; rewrite length_take; lia).
    destruct (bits_split _ _ _ Hbits H32 _ _ _ _ _ eq_refl) as [H0 H1].
    rewrite take_take in H0. eauto.
Qed.

Lemma memset_pad m0 m p n bs k :
  zlen m = zlen m0 → Forall byte m → 0 ≤ p → 0 ≤ n → p + n ≤ zlen m0 →
  drop (Z.to_nat p) m = drop (Z.to_nat p) m0 →
  bits_of_bytes (take (Z.to_nat p) m) = bs ++ replicate k false →
  wp (if n >? 0 then memset m p 0 n else Some m) (λ m1, zlen m1 = zlen m0 ∧ Forall byte m1 ∧
    drop (Z.to_nat (p + n)) m1 = drop (Z.to_nat (p + n)) m0 ∧
    ∃ pad, bits_of_bytes (slice m1 0 (p + n)) = bs ++ replicate pad false).
Proof.
  intros Hl Hb Hp Hn Hfit Hrest Hbits.
  assert (Heq : (if n >? 0 then memset m p 0 n else Some m) = Some (splice m p (replicate (Z.to_nat n) 0))).
  { destruct (Z.gtb_spec n 0) as [Hg|Hg]; [by apply memset_in; lia|].
    replace (Z.to_nat n) with 0%nat by lia. simpl. by rewrite splice_nil. }
  rewrite Heq. apply wp_ret. assert (Hz : zlen (replicate (Z.to_nat n) 0) = n) by (rewrite zlen_replicate; lia).
  assert (Hz' : p + n = p + zlen (replicate (Z.to_nat n) 0)) by lia. split_and!.
  - by rewrite zlen_splice by lia.
  - apply Forall_splice; [done|]. apply Forall_replicate. unfold byte. lia.
  - rewrite Hz', drop_splice, Hz by lia. rewrite !Z2Nat.inj_add, <- !drop_drop by lia. by rewrite Hrest.
  - exists (k + Z.to_nat n * 8)%nat. unfold slice. rewrite drop_0, Hz', take_splice by lia.
    by rewrite bits_of_bytes_app, Hbits, bits_of_bytes_zeros, <- app_assoc, replicate_add.
Qed.

Lemma Forall_parts (a b : list Z) : Forall byte (a ++ b) ↔ Forall byte a ∧ Forall byte b.
Proof. apply Forall_app. Qed.

Lemma fill_crcs_spec fs bs m0 m :
  8 ≤ fs ≤ 1920 → 2 * fs ≤ zlen m0 → 32 ≤ zlen bs → padded fs bs m0 m →
  wp (fill_crcs tab fs m) (λ '(m', err), err = false ∧ zlen m' = zlen m0 ∧ Forall byte m' ∧
    drop (Z.to_nat (2 * fs)) m' = drop (Z.to_nat (2 * fs)) m0 ∧ frame_image fs bs m').
Proof.
  intros Hfs Hl Hbs Hpad. destruct (padded_parts fs bs m0 m ltac:(lia) Hl Hbs Hpad)
    as (w0 & w1 & w2 & w3 & R1 & R2 & x & y & Y & -> & HR1 & HR2 & HY & Hw & pad & Hr).
  destruct Hpad as [Hlen Hbyte _ _]. destruct (fs58_bounds fs ltac:(lia)) as [H5 _].
  pose proof Hbyte as Hb. apply Forall_parts in Hbyte as [HbW [Hb1 [Hb2 HbY]%Forall_parts]%Forall_parts].
  unfold fill_crcs. rewrite !Z.shiftl_mul_pow2 by lia. change (2 ^ 1) with 2.
  assert (Hlen' : 4 + zlen R1 + zlen R2 + 2 + zlen Y = zlen m0)
    by (rewrite <- Hlen, !zlen_app, !zlen_cons; change (zlen (@nil Z)) with 0; lia).
  rewrite (calc_crc16_ref tab _ 4 _ Htab) by (lia || exact Hb).
  cbn [mbind option_bind]. rewrite (slice_mid [w0; w1; w2; w3] R1) by (lia || reflexivity).
  apply wp_bind. eapply wp_mono.
  { apply (crc16_zero_spec (crc_ref R1) _ R1); [apply crc_ref_is16|done|lia|lia]. }
  intros c1 [Hc1 Hz1]. destruct (is16_bytes c1 Hc1) as [Hh1 Hlo1].
  rewrite aset_upd by lia. cbn [mbind option_bind].
  rewrite aset_upd by (rewrite zlen_upd; lia). cbn [mbind option_bind].
  change (upd (upd ([w0; w1; w2; w3] ++ R1 ++ R2 ++ x :: y :: Y) 2 (u8 (Z.shiftr c1 8))) 3 (u8 c1))
    with ([w0; w1] ++ (u8 (Z.shiftr c1 8) :: u8 c1 :: R1) ++ R2 ++ x :: y :: Y).
  assert (Hb' : Forall byte ([w0; w1] ++ (u8 (Z.shiftr c1 8) :: u8 c1 :: R1) ++ R2 ++ x :: y :: Y)).
  { apply Forall_cons_1 in HbW as [? [? _]%Forall_cons_1].
    apply Forall_parts; split; [constructor; [assumption|constructor; [assumption|constructor]]|].
    apply Forall_parts; split; [|apply Forall_parts; split; assumption].
    constructor; [apply u8_range|]. constructor; [apply u8_range|assumption]. }
  set (H1 := u8 (Z.shiftr c1 8) :: u8 c1 :: R1) in *.
  assert (HH1 : zlen H1 = 2 * fs58 fs - 2) by (unfold H1; rewrite !zlen_cons; lia).
  assert (Hl3 : zlen ([w0; w1] ++ H1 ++ R2 ++ x :: y :: Y) = zlen m0)
    by (rewrite !zlen_app, !zlen_cons; change (zlen (@nil Z)) with 0; lia).
  rewrite (calc_crc16_ref tab _ 2 _ Htab) by (lia || exact Hb'). cbn [mbind option_bind].
  rewrite (slice_mid [w0; w1] H1) by (lia || reflexivity).
  assert (HcH1 : crc_ref H1 = 0) by (unfold H1; rewrite Hh1, Hlo1; exact Hz1). rewrite HcH1.
  rewrite (calc_crc16_ref tab _ (fs58 fs * 2) _ Htab) by (lia || exact Hb'). cbn [mbind option_bind].
  assert (HS2 : slice ([w0; w1] ++ H1 ++ R2 ++ x :: y :: Y) (fs58 fs * 2) ((fs - fs58 fs) * 2 - 2) = R2).
  { rewrite (app_assoc [w0; w1]). apply slice_mid; [rewrite zlen_app, HH1; change (zlen [w0; w1]) with 2|]; lia. }
  rewrite HS2. pose proof (crc_ref_is16 R2) as Hc2. destruct (is16_bytes _ Hc2) as [Hh2 Hlo2].
  set (c2 := crc_ref R2) in *.
  rewrite aset_upd by lia. cbn [mbind option_bind]. rewrite aset_upd by (rewrite zlen_upd; lia). cbn [mbind option_bind].
  assert (Hup : upd (upd ([w0; w1] ++ H1 ++ R2 ++ x :: y :: Y) (fs * 2 - 2) (u8 (Z.shiftr c2 8))) (fs * 2 - 1) (u8 c2)
     = [w0; w1] ++ H1 ++ (R2 ++ [u8 (Z.shiftr c2 8); u8 c2]) ++ Y).
  { rewrite !app_assoc. set (A := ([w0; w1] ++ H1) ++ R2).
    assert (HA : zlen A = fs * 2 - 2) by (unfold A; rewrite !zlen_app, HH1; change (zlen [w0; w1]) with 2; lia).
    rewrite (upd_app_mid A) by done.
    replace (A ++ u8 (Z.shiftr c2 8) :: y :: Y) with ((A ++ [u8 (Z.shiftr c2 8)]) ++ y :: Y) by (by rewrite <- app_assoc).
    rewrite upd_app_mid by (rewrite zlen_app, HA; change (zlen [_]) with 1; lia). by rewrite <- !app_assoc. }
  rewrite Hup. apply wp_ret. set (T2 := R2 ++ [u8 (Z.shiftr c2 8); u8 c2]).
  assert (HT2 : zlen T2 = 2 * (fs - fs58 fs)) by (unfold T2; rewrite zlen_app, HR2; change (zlen [_; _]) with 2; lia).
  assert (Hall : zlen ([w0; w1] ++ H1 ++ T2) = 2 * fs)
    by (rewrite !zlen_app, HH1, HT2; change (zlen [w0; w1]) with 2; lia).
  split; [done|]. split_and!.
  - rewrite !zlen_app, HH1, HT2. change (zlen [w0; w1]) with 2. lia.
  - apply Forall_parts in Hb' as [Hw01 [HbH1 _]%Forall_parts]. do 2 (apply Forall_parts; split; [assumption|]).
    apply Forall_cons_1 in HbY as [_ [_ HbY]%Forall_cons_1].
    apply Forall_parts; split; [|assumption]. apply Forall_parts; split; [assumption|]. repeat constructor; apply u8_range.
  - rewrite <- HY, !(app_assoc _ _ Y). apply drop_app_length'. unfold zlen in Hall. lia.
  - split.
    + exists c1, c2, pad. split; [done|]. split; [done|].
      assert (HS : slice ([w0; w1] ++ H1 ++ T2 ++ Y) 0 (2 * fs) = [w0; w1] ++ H1 ++ T2).
      { rewrite !(app_assoc _ _ Y). by apply (slice_mid [] _ Y 0 (2 * fs)). }
      rewrite HS.
      unfold H1, T2. change (?a :: ?b :: R1) with ([a; b] ++ R1).
      rewrite !bits_of_bytes_app, Hw, !word_bytes_bits. rewrite !bits_of_bytes_app in Hr.
      rewrite <- !app_assoc. do 2 f_equal. by rewrite !(app_assoc _ _ (bits_of 16 c2)), <- Hr, <- !app_assoc.
    + rewrite (slice_mid [w0; w1] H1) by (lia || reflexivity). exact HcH1.
    + rewrite (app_assoc [w0; w1]), (slice_mid _ T2); [|rewrite zlen_app, HH1; change (zlen [w0; w1]) with 2; lia|lia].
      unfold T2. rewrite Hh2, Hlo2. apply crc_ref_append.
Qed.


Lemma output_frame_end_spec tctx m0 bs :
  let fs := Frame.frame_size (TCtx.frame tctx) in
  bw_repr m0 (TCtx.bw tctx) bs → buffer_bytes (TCtx.bw tctx) →
  8 ≤ fs ≤ 1920 → 2 * fs ≤ buf_end (TCtx.bw tctx) → 32 ≤ zlen bs ≤ 16 * fs - 18 →
  wp (output_frame_end tab tctx) (λ '(tctx', r, err), r = 2 * fs ∧ err = false ∧
    ∃ bw m, tctx' = tctx <| TCtx.bw := bw |> ∧ buffer bw = Some m ∧ zlen m = zlen m0 ∧ Forall byte m ∧
      drop (Z.to_nat (2 * fs)) m = drop (Z.to_nat (2 * fs)) m0 ∧ frame_image fs bs m).
Proof.
  intros fs Hrepr Hbytes Hfs Hend Hbs. destruct Hrepr as [m1 Hst]. pose proof Hst as [].
  unfold output_frame_end. fold fs. apply wp_bind.
  pose proof (bitwriter_flushbits_repr m0 (TCtx.bw tctx) bs) as Hflush.
  destruct (bitwriter_flushbits (TCtx.bw tctx)) as [bw|] eqn:Hfl.
  2: { apply Hflush; [by exists m1|intros ->; change (zlen (@nil bool)) with 0 in Hbs; lia|lia]. }
  apply flush_bytes in Hfl; [|done].
  destruct Hflush as (m & Hm & Hzl & Hl & _ & _ & He & Hp & Hbits & Hrest);
    [by exists m1|intros ->; change (zlen (@nil bool)) with 0 in Hbs; lia|lia|].
  assert (Hpad : 0 ≤ pad8 (zlen bs) < 8) by (unfold pad8; apply Z.mod_pos_bound; lia).
  cbn [wp]. cbv zeta.
  assert (Hc : Z.shiftr (bitwriter_bitcount bw) 3 = buf_ptr bw).
  { unfold bitwriter_bitcount. rewrite Z.shiftl_mul_pow2, Hl, u32_id by lia.
    replace (buf_ptr bw * 2 ^ 3 + 32 - 32) with (buf_ptr bw * 2 ^ 3) by lia.
    rewrite Z.shiftr_div_pow2 by lia. apply Z.div_mul. lia. }
  rewrite Hc, !Z.shiftl_mul_pow2 by lia. change (2 ^ 1) with 2.
  set (n := fs * 2 - 2 - buf_ptr bw). assert (Hn : 0 ≤ n) by lia.
  rewrite (proj2 (Z.ltb_ge n 0)) by lia. rewrite Hm. cbn [mbind option_bind]. apply wp_bind.
  eapply wp_mono.
  { eapply (memset_pad m0 m (buf_ptr bw) n bs); [done|by apply Hfl|lia|lia|lia|done|exact Hbits]. }
  replace (buf_ptr bw + n) with (2 * fs - 2) by lia. intros m2 (Hl2 & Hb2 & Hr2 & Hp2).
  apply wp_bind. eapply wp_mono.
  { apply (fill_crcs_spec fs bs m0 m2); [done|lia|lia|]. by split. }
  intros [m3 err] (-> & Hl3 & Hb3 & Hr3 & Himg). apply wp_ret. split; [lia|]. split; [done|].
  eexists _, m3. split; [reflexivity|]. by split_and!.
Qed.
End frame_end.

(** * A whole frame *)

(** A frame as exponent processing, bit allocation and quantisation leave it. *)
Record packable (ctx : Ctx.t) (f : Frame.t) : Prop := {
  pk_channels : channels_ok ctx;
  pk_acmod : 0 ≤ Ctx.acmod ctx ≤ 7;
  pk_wf : blocks_wf (Frame.blocks f);
  pk_remat : zlen (Frame.rematflg f) = 4;
  pk_nlen : zlen (Frame.ncoefs f) = 6;
  pk_ncoefs : ∀ c, 0 ≤ c < Ctx.n_all_channels ctx → ncoefs_ok (Frame.ncoefs f).[c];
  pk_num : ∀ k, 0 ≤ k < 6 → Block.block_num (Frame.blocks f).[k] = k;
  pk_str : ∀ k c, 0 ≤ k < 6 → 0 ≤ c < Ctx.n_all_channels ctx → 0 ≤ bstr (Frame.blocks f) k c ≤ 3;
  pk_groups : ∀ k c, 0 ≤ k < 6 → 0 ≤ c < Ctx.n_all_channels ctx →
    (Block.nexpgrps (Frame.blocks f).[k]).[c] =
    if bstr (Frame.blocks f) k c =? EXP_REUSE then 0 else nexpgrp (bstr (Frame.blocks f) k c) (Frame.ncoefs f).[c];
  pk_bap : ∀ k c i, 0 ≤ k < 6 → 0 ≤ c < Ctx.n_all_channels ctx → 0 ≤ i < (Frame.ncoefs f).[c] → 0 ≤ fbap f k c i ≤ 15;
  pk_mant : ∀ k, 0 ≤ k < 6 → written_mant_bits ctx f (Frame.blocks f).[k] =
    block_mant_bits (fbap f k) (Frame.ncoefs f) (Ctx.n_all_channels ctx);
  pk_exp_bits : Frame.exp_bits f = exp_bits_frame (Ctx.n_all_channels ctx) (Frame.ncoefs f) (Frame.blocks f);
  pk_frame_bits : Frame.frame_bits f = fixed_bits ctx (Frame.blocks f);
  pk_mant_bits : Frame.mant_bits f = frame_mant_bits (fbap f) (Frame.ncoefs f) (Ctx.n_all_channels ctx);
  pk_fits : Frame.frame_bits f + Frame.exp_bits f + Frame.mant_bits f ≤ 16 * Frame.frame_size f;
  pk_size : 8 ≤ Frame.frame_size f ≤ 1920
}.

(** The bits counted for extended information that is not sent. *)
Definition overcount (ctx : Ctx.t) : Z :=
  if Ctx.bsid ctx =? 6 then 0 else
    14 * Z.b2z (negb (Metadata.xbsi1e (Ctx.meta ctx) =? 0)) + 14 * Z.b2z (negb (Metadata.xbsi2e (Ctx.meta ctx) =? 0)).

Lemma overcount_nonneg ctx : 0 ≤ overcount ctx.
Proof.
  unfold overcount.
  destruct (Ctx.bsid ctx =? 6), (Metadata.xbsi1e (Ctx.meta ctx) =? 0), (Metadata.xbsi2e (Ctx.meta ctx) =? 0); simpl; lia.
Qed.

Section frame.
Variables (ctx : Ctx.t) (f : Frame.t).
Hypothesis Hpk : packable ctx f.

Lemma packable_nexp k c :
  0 ≤ k < 6 → 0 ≤ c < Ctx.n_all_channels ctx → 0 ≤ (Block.nexpgrps (Frame.blocks f).[k]).[c] ≤ 84.
Proof.
  intros Hk Hc. rewrite (pk_groups _ _ Hpk) by done. destruct (Z.eqb_spec (bstr (Frame.blocks f) k c) EXP_REUSE) as [|Hne]; [lia|].
  pose proof (pk_str _ _ Hpk k c Hk Hc). unfold EXP_REUSE in Hne.
  pose proof (ncoefs_ok_range _ (pk_ncoefs _ _ Hpk c Hc)).
  destruct (nexpgrp_range (bstr (Frame.blocks f) k c) (Frame.ncoefs f).[c]) as (_ & ? & _); lia.
Qed.

Lemma packable_out k : 0 ≤ k < 6 → block_out_ok ctx f (Frame.blocks f).[k].
Proof.
  intros Hk. pose proof Hpk as []. destruct pk_wf0 as [Hl Hb]. split; try done; [by apply Hb| | |].
  - intros c Hc _. by apply packable_nexp.
  - intros c Hc. pose proof (ncoefs_ok_range _ (pk_ncoefs0 c Hc)). lia.
  - intros c i Hc Hi. by apply pk_bap0.
Qed.

(** The fields of the frame take the bits bit allocation counted, less the
    second checksum, the auxiliary bits and what was overcounted. *)
Lemma frame_width :
  fields_width (frame_fields ctx f) = Frame.frame_bits f + Frame.exp_bits f + Frame.mant_bits f - 18 - overcount ctx.
Proof.
  pose proof Hpk as []. unfold frame_fields. rewrite width_app, header_width by done. fold (overcount ctx).
  rewrite pk_frame_bits0, pk_exp_bits0, pk_mant_bits0. unfold audio_fields. rewrite width_zcat.
  rewrite (zsum_ext _ (λ k, (block_fixed_bits ctx k (Frame.blocks f).[k] + written_exp_bits ctx (Frame.blocks f).[k]) +
     written_mant_bits ctx f (Frame.blocks f).[k])).
  2: { intros k Hk. apply block_width; [done| |by apply pk_num0]. intros c Hc. by apply packable_nexp. }
  rewrite !zsum_add by lia. unfold fixed_bits, exp_bits_frame, frame_mant_bits.
  rewrite (zsum_ext (λ k, written_exp_bits ctx (Frame.blocks f).[k])
    (λ k, zsum (λ c, exp_bits_ch (bstr (Frame.blocks f) k c) (Frame.ncoefs f).[c]) (Ctx.n_all_channels ctx))).
  2: { intros k Hk. apply zsum_ext. intros c Hc. rewrite pk_groups0 by done. unfold exp_bits_ch. fold (bstr (Frame.blocks f) k c).
       destruct (_ =? EXP_REUSE); cbn [negb Z.b2z]; lia. }
  rewrite (zsum_ext (λ k, written_mant_bits ctx f (Frame.blocks f).[k]) (λ k, block_mant_bits (fbap f k) (Frame.ncoefs f) (Ctx.n_all_channels ctx)))
    by (intros k Hk; by apply pk_mant0). lia.
Qed.

(** Every field is narrower than the writer's limit. *)
Lemma Forall_when (P : Z * Z → Prop) c fs : Forall P fs → Forall P (when_fields c fs).
Proof. by destruct c; [|constructor]. Qed.

Ltac fields_ok :=
  repeat lazymatch goal with
  | |- Forall _ (zcat _ _) => apply Forall_zcat; intros ? ?
  | |- Forall _ (when_fields _ _) => apply Forall_when
  | |- Forall _ (if ?c then _ else _) => destruct c
  | |- Forall _ (_ ++ _) => apply Forall_app; split
  | |- Forall _ (_ :: _) => constructor; [unfold field_ok; simpl; lia|]
  | |- Forall _ [] => constructor
  end.

Lemma header_fields_ok : Forall field_ok (header_fields ctx f).
Proof. unfold header_fields. cbv zeta. fields_ok. Qed.

Lemma mant_width_range b q : 0 ≤ b ≤ 15 → 0 ≤ mant_width b q ≤ 16.
Proof.
  intros Hb. unfold mant_width, code_bits, is_grouped.
  destruct (b =? 0) eqn:?, (b =? 1) eqn:?, (b =? 2) eqn:?, (b =? 4) eqn:?, (b =? 3) eqn:?, (b =? 14) eqn:?,
    (b =? 15) eqn:?, (q =? 128); simpl; lia.
Qed.

Lemma frame_fields_ok : Forall field_ok (frame_fields ctx f).
Proof.
  unfold frame_fields, audio_fields, block_fields, exps_fields, mant_fields. apply Forall_app. split; [apply header_fields_ok|].
  cbv zeta. fields_ok. constructor; [|constructor]. unfold field_ok. simpl fst.
  pose proof (pk_bap _ _ Hpk i i0 i1 ltac:(lia) ltac:(lia) ltac:(lia)) as Hb. unfold fbap in Hb.
  pose proof (mant_width_range _ (Block.qmant (Frame.blocks f).[i]).[i0].[i1] Hb). lia.
Qed.
End frame.

(** [output_frame_header], [output_audio_blocks] and [output_frame_end], as
    [process_frame] calls them. *)
Definition output_frame `{Target} (crc16tab : list Z) (ctx : Ctx.t) (tctx : TCtx.t) (frame_buffer : list Z)
    : option (TCtx.t * Z * bool) :=
  tctx ← output_frame_header ctx tctx frame_buffer;
  tctx ← output_audio_blocks ctx tctx;
  output_frame_end crc16tab tctx.

(** What [output_frame] leaves in the buffer [m] for the frame [f]. *)
Record frame_written (ctx : Ctx.t) (f : Frame.t) (m0 m : list Z) : Prop := {
  fw_bits : ∃ c1 c2 pad, is16 c1 ∧ is16 c2 ∧
    bits_of_bytes (slice m 0 (2 * Frame.frame_size f)) =
      fields_bits ((16, 0x0B77) :: (16, c1) :: drop 2 (frame_fields ctx f)) ++
      replicate pad false ++ bits_of 16 c2;
  fw_crc1 : crc_ref (slice m 2 (2 * fs58 (Frame.frame_size f) - 2)) = 0;
  fw_crc2 : crc_ref (slice m (2 * fs58 (Frame.frame_size f)) (2 * (Frame.frame_size f - fs58 (Frame.frame_size f)))) = 0;
  fw_len : zlen m = zlen m0;
  fw_bytes : Forall byte m;
  fw_rest : drop (Z.to_nat (2 * Frame.frame_size f)) m = drop (Z.to_nat (2 * Frame.frame_size f)) m0
}.

(** The header and the blocks write the fields of the frame. *)
Lemma output_fields `{Target} ctx tctx buf :
  packable ctx (TCtx.frame tctx) → A52_MAX_CODED_FRAME_SIZE ≤ zlen buf → Forall byte buf →
  wp (t ← output_frame_header ctx tctx buf; output_audio_blocks ctx t) (λ t, ∃ bw,
    t = tctx <| TCtx.bw := bw |> ∧ bw_repr buf bw (fields_bits (frame_fields ctx (TCtx.frame tctx))) ∧
    buf_end bw = A52_MAX_CODED_FRAME_SIZE ∧ buffer_bytes bw).
Proof.
  intros Hpk Hbuf Hbyte. set (f := TCtx.frame tctx) in *.
  pose proof (frame_fields_ok ctx f Hpk) as Hok. pose proof (frame_width ctx f Hpk) as Hwid.
  pose proof (overcount_nonneg ctx) as Hover. pose proof Hpk as []. unfold A52_MAX_CODED_FRAME_SIZE in *.
  rewrite <- fields_width_bits in Hwid by done.
  assert (Hrun : (t ← output_frame_header ctx tctx buf; output_audio_blocks ctx t) =
    (bw ← write_fields (bitwriter_init (Some buf) 3840) (frame_fields ctx f); Some (tctx <| TCtx.bw := bw |>))).
  { unfold output_frame_header, output_audio_blocks, frame_fields. fold f.
    rewrite write_frame_header_writes, write_fields_app.
    destruct (write_fields _ (header_fields ctx f)) as [bw|]; [|done]. cbn [mbind option_bind].
    change (TCtx.frame (tctx <| TCtx.bw := bw |>)) with f. change (TCtx.bw (tctx <| TCtx.bw := bw |>)) with bw.
    rewrite (audio_blocks_writes ctx f) by (first [apply pk_wf0|intros k Hk; by apply packable_out]).
    by destruct (write_fields bw (audio_fields ctx f)). }
  rewrite Hrun.
  pose proof (write_fields_repr buf (frame_fields ctx f) (bitwriter_init (Some buf) 3840) []
    (bitwriter_init_repr buf 3840 ltac:(lia)) Hok) as Hw.
  change (buf_end (bitwriter_init (Some buf) 3840)) with 3840 in Hw. change (zlen (@nil bool)) with 0 in Hw.
  specialize (Hw ltac:(lia)). apply wp_some in Hw as (bw & Hbw & Hrepr & Hend). rewrite Hbw. cbn [mbind option_bind].
  apply wp_ret. exists bw. split; [done|]. split; [exact Hrepr|]. split; [done|].
  apply (write_fields_bytes (frame_fields ctx f) (bitwriter_init (Some buf) 3840)); [|done]. by intros m [= <-].
Qed.

(** They are as many bits as were counted, by the writer's own count. *)
Lemma output_fields_count `{Target} ctx tctx buf :
  packable ctx (TCtx.frame tctx) → A52_MAX_CODED_FRAME_SIZE ≤ zlen buf → Forall byte buf →
  let f := TCtx.frame tctx in
  wp (t ← output_frame_header ctx tctx buf; output_audio_blocks ctx t) (λ t,
    bitwriter_bitcount (TCtx.bw t) =
      Frame.frame_bits f + Frame.exp_bits f + Frame.mant_bits f - 18 - overcount ctx).
Proof.
  intros Hpk Hbuf Hbyte f. eapply wp_mono; [by apply output_fields|].
  intros t (bw & -> & [m Hst] & Hend & _). cbn [TCtx.bw set const].
  pose proof (bw_state_len _ _ _ _ Hst) as Hlen. rewrite fields_width_bits, frame_width in Hlen by (done || by apply frame_fields_ok).
  fold f in Hlen. rewrite Hlen. destruct Hst. unfold A52_MAX_CODED_FRAME_SIZE in *.
  unfold bitwriter_bitcount. rewrite Z.shiftl_mul_pow2 by lia. rewrite u32_id; lia.
Qed.

Lemma output_frame_spec `{Target} tab ctx tctx buf :
  crc_init crc16tab_zero = Some tab → packable ctx (TCtx.frame tctx) →
  A52_MAX_CODED_FRAME_SIZE ≤ zlen buf → Forall byte buf →
  wp (output_frame tab ctx tctx buf) (λ '(tctx', r, err),
    r = 2 * Frame.frame_size (TCtx.frame tctx) ∧ err = false ∧
    ∃ bw m, tctx' = tctx <| TCtx.bw := bw |> ∧ buffer bw = Some m ∧ frame_written ctx (TCtx.frame tctx) buf m).
Proof.
  intros Htab Hpk Hbuf Hbyte. set (f := TCtx.frame tctx) in *.
  pose proof (frame_fields_ok ctx f Hpk) as Hok. pose proof (frame_width ctx f Hpk) as Hwid.
  pose proof (overcount_nonneg ctx) as Hover. pose proof Hpk as []. unfold A52_MAX_CODED_FRAME_SIZE in *.
  rewrite <- fields_width_bits in Hwid by done.
  pose proof (output_fields ctx tctx buf Hpk ltac:(done) Hbyte) as Hw. unfold output_frame.
  apply wp_bind. apply wp_bind_inv in Hw. eapply wp_mono; [exact Hw|]. clear Hw. intros t1 Hw.
  apply wp_bind. eapply wp_mono; [exact Hw|]. intros t2 (bw & -> & Hrepr & Hend & Hbb). fold f in Hrepr.
  unfold A52_MAX_CODED_FRAME_SIZE in Hend.
  pose proof (output_frame_end_spec tab Htab (tctx <| TCtx.bw := bw |>) buf _ Hrepr Hbb) as Hend'.
  change (Frame.frame_size (TCtx.frame (tctx <| TCtx.bw := bw |>))) with (Frame.frame_size f) in Hend'.
  change (TCtx.bw (tctx <| TCtx.bw := bw |>)) with bw in Hend'.
  assert (H32 : fields_bits (frame_fields ctx f) = bits_of 16 0x0B77 ++ bits_of 16 0 ++ fields_bits (drop 2 (frame_fields ctx f))) by done.
  eapply wp_mono; [apply Hend'; [lia|lia|]|].
  { split; [|lia]. rewrite H32, !zlen_app, !zlen_bits_of. pose proof (zlen_nonneg (fields_bits (drop 2 (frame_fields ctx f)))). lia. }
  intros [[t' r] err] (-> & -> & bw' & m & -> & Hm & Hlen & Hmb & Hrest & [(c1 & c2 & pad & Hc1 & Hc2 & Hbits) Hcrc1 Hcrc2]).
  split; [done|]. split; [done|]. exists bw', m. split; [done|]. split; [done|].
  split; [|exact Hcrc1|exact Hcrc2|exact Hlen|exact Hmb|exact Hrest].
  exists c1, c2, pad. split; [done|]. split; [done|]. rewrite Hbits, H32.
  rewrite take_app_length' by (by rewrite length_bits_of).
  assert (Hdrop : drop 32 (bits_of 16 0x0B77 ++ bits_of 16 0 ++ fields_bits (drop 2 (frame_fields ctx f))) =
    fields_bits (drop 2 (frame_fields ctx f))) by done.
  rewrite Hdrop.
  change (fields_bits ((16, 0x0B77) :: (16, c1) :: drop 2 (frame_fields ctx f))) with
    (bits_of 16 0x0B77 ++ bits_of 16 c1 ++ fields_bits (drop 2 (frame_fields ctx f))).
  by rewrite <- !app_assoc.
Qed.

(** * Decoding the header *)

(** The header of the syntax ([syncinfo] and [bsi] of the format), as a decoder
    reads it: which fields follow depends on those read before. *)
Record header := mk_header {
  hd_sync : Z; hd_crc1 : Z; hd_fscod : Z; hd_frmsizecod : Z; hd_bsid : Z; hd_bsmod : Z; hd_acmod : Z;
  hd_cmixlev : option Z; hd_surmixlev : option Z; hd_dsurmod : option Z;
  hd_lfeon : Z; hd_dialnorm : Z; hd_dialnorm2 : option Z;
  hd_xbsi1 : option (list Z); hd_xbsi2 : option (list Z)
}.

Definition parser (A : Type) : Type := list bool → A * list bool.
Definition get (n : Z) : parser Z := λ bs, (bits_val (take (Z.to_nat n) bs), drop (Z.to_nat n) bs).
Definition pret {A} (a : A) : parser A := λ bs, (a, bs).
Definition pbind {A B} (p : parser A) (f : A → parser B) : parser B := λ bs, let '(a, bs) := p bs in f a bs.
Notation "x ←p p ; f" := (pbind p (λ x, f)) (at level 20, p at level 100, f at level 200, format "x  ←p  p ;  '/' f").
Fixpoint get_all (ws : list Z) : parser (list Z) :=
  match ws with [] => pret [] | w :: ws => x ←p get w; xs ←p get_all ws; pret (x :: xs) end.
Definition get_if (c : bool) (n : Z) : parser (option Z) :=
  if c then x ←p get n; pret (Some x) else pret None.
Definition get_flagged (ws : list Z) : parser (option (list Z)) :=
  flag ←p get 1; if flag =? 0 then pret None else xs ←p get_all ws; pret (Some xs).

Definition parse_header : parser header :=
  sync ←p get 16; crc1 ←p get 16; fscod ←p get 2; frmsizecod ←p get 6;
  bsid ←p get 5; bsmod ←p get 3; acmod ←p get 3;
  cmixlev ←p get_if (negb (Z.land acmod 1 =? 0) && negb (acmod =? 1)) 2;
  surmixlev ←p get_if (negb (Z.land acmod 4 =? 0)) 2;
  dsurmod ←p get_if (acmod =? 2) 2;
  lfeon ←p get 1; dialnorm ←p get 5; _ ←p get_all [1; 1; 1];
  dialnorm2 ←p (if acmod =? 0 then x ←p get 5; _ ←p get_all [1; 1; 1]; pret (Some x) else pret None);
  _ ←p get_all [1; 1];
  xbsi ←p (if bsid =? 6 then x1 ←p get_flagged [2; 3; 3; 3; 3]; x2 ←p get_flagged [2; 2; 1; 9]; pret (x1, x2)
           else _ ←p get_all [1; 1]; pret (None, None));
  _ ←p get 1;
  pret (mk_header sync crc1 fscod frmsizecod bsid bsmod acmod cmixlev surmixlev dsurmod lfeon dialnorm dialnorm2
          (fst xbsi) (snd xbsi)).

(** What the encoder means to say in the header. *)
Definition header_of (ctx : Ctx.t) (f : Frame.t) (crc1 : Z) : header :=
  let meta := Ctx.meta ctx in
  let acmod := Ctx.acmod ctx in
  let opt (c : bool) (x : Z) := if c then Some x else None in
  {| hd_sync := 0x0B77; hd_crc1 := crc1; hd_fscod := Ctx.fscod ctx;
     hd_frmsizecod := Frame.frmsizecod f + (Frame.frame_size f - Frame.frame_size_min f);
     hd_bsid := Ctx.bsid ctx; hd_bsmod := Ctx.bsmod ctx; hd_acmod := acmod;
     hd_cmixlev := opt (bool_decide (acmod = 3 ∨ acmod = 5 ∨ acmod = 7)) (Metadata.cmixlev meta);
     hd_surmixlev := opt (bool_decide (4 ≤ acmod)) (Metadata.surmixlev meta);
     hd_dsurmod := opt (acmod =? A52_ACMOD_STEREO) (Metadata.dsurmod meta);
     hd_lfeon := Ctx.lfe ctx; hd_dialnorm := Metadata.dialnorm meta;
     hd_dialnorm2 := opt (acmod =? A52_ACMOD_DUAL_MONO) (Metadata.dialnorm meta);
     hd_xbsi1 := if (Ctx.bsid ctx =? 6) && negb (Metadata.xbsi1e meta =? 0) then
                   Some [Metadata.dmixmod meta; Metadata.ltrtcmixlev meta; Metadata.ltrtsmixlev meta;
                         Metadata.lorocmixlev meta; Metadata.lorosmixlev meta]
                 else None;
     hd_xbsi2 := if (Ctx.bsid ctx =? 6) && negb (Metadata.xbsi2e meta =? 0) then
                   Some [Metadata.dsurexmod meta; Metadata.dheadphonmod meta; Metadata.adconvtyp meta; 0]
                 else None |}.

(** The values fit their fields. *)
Record header_ok (ctx : Ctx.t) (f : Frame.t) : Prop := {
  ho_fscod : 0 ≤ Ctx.fscod ctx < 4;
  ho_frmsizecod : 0 ≤ Frame.frmsizecod f + (Frame.frame_size f - Frame.frame_size_min f) < 64;
  ho_bsid : 0 ≤ Ctx.bsid ctx < 32;
  ho_bsmod : 0 ≤ Ctx.bsmod ctx < 8;
  ho_acmod : 0 ≤ Ctx.acmod ctx ≤ 7;
  ho_lfe : 0 ≤ Ctx.lfe ctx < 2;
  ho_dialnorm : 0 ≤ Metadata.dialnorm (Ctx.meta ctx) < 32;
  ho_mix : 0 ≤ Metadata.cmixlev (Ctx.meta ctx) < 4 ∧ 0 ≤ Metadata.surmixlev (Ctx.meta ctx) < 4 ∧
           0 ≤ Metadata.dsurmod (Ctx.meta ctx) < 4;
  ho_xbsi : 0 ≤ Metadata.xbsi1e (Ctx.meta ctx) < 2 ∧ 0 ≤ Metadata.xbsi2e (Ctx.meta ctx) < 2;
  ho_xbsi1 : 0 ≤ Metadata.dmixmod (Ctx.meta ctx) < 4 ∧ 0 ≤ Metadata.ltrtcmixlev (Ctx.meta ctx) < 8 ∧
    0 ≤ Metadata.ltrtsmixlev (Ctx.meta ctx) < 8 ∧ 0 ≤ Metadata.lorocmixlev (Ctx.meta ctx) < 8 ∧
    0 ≤ Metadata.lorosmixlev (Ctx.meta ctx) < 8;
  ho_xbsi2 : 0 ≤ Metadata.dsurexmod (Ctx.meta ctx) < 4 ∧ 0 ≤ Metadata.dheadphonmod (Ctx.meta ctx) < 4 ∧
    0 ≤ Metadata.adconvtyp (Ctx.meta ctx) < 2
}.

(** Reading a field that was written. *)
Lemma get_field n v rest :
  0 ≤ n → 0 ≤ v < 2 ^ n → get n (fields_bits [(n, v)] ++ rest) = (v, rest).
Proof.
  intros Hn Hv. unfold get, fields_bits. cbn [flat_map]. rewrite app_nil_r. unfold field_bits. simpl fst. simpl snd.
  rewrite take_app_length', drop_app_length' by (by rewrite length_bits_of).
  rewrite bits_val_bits_of, Z2Nat.id, Z.mod_small by lia. done.
Qed.

Lemma get_cons n v fs rest :
  0 ≤ n → 0 ≤ v < 2 ^ n → get n (fields_bits ((n, v) :: fs) ++ rest) = (v, fields_bits fs ++ rest).
Proof.
  intros Hn Hv. change (fields_bits ((n, v) :: fs)) with (fields_bits ([(n, v)] ++ fs)).
  rewrite fields_bits_app, <- app_assoc. by apply get_field.
Qed.

(** The parser [p] reads the fields [fs] as [a], whatever follows. *)
Definition parses {A} (p : parser A) (fs : list (Z * Z)) (a : A) : Prop :=
  ∀ rest, p (fields_bits fs ++ rest) = (a, rest).

Lemma parses_ret {A} (a : A) : parses (pret a) [] a.
Proof. done. Qed.

Lemma parses_get n v : 0 ≤ n → 0 ≤ v < 2 ^ n → parses (get n) [(n, v)] v.
Proof. intros Hn Hv rest. by apply get_field. Qed.

Lemma parses_bind {A B} (p : parser A) (k : A → parser B) fs gs a b :
  parses p fs a → parses (k a) gs b → parses (pbind p k) (fs ++ gs) b.
Proof. intros Hp Hk rest. unfold pbind. by rewrite fields_bits_app, <- app_assoc, Hp, Hk. Qed.

Lemma parses_cons {B} n (k : Z → parser B) v gs b :
  0 ≤ n → 0 ≤ v < 2 ^ n → parses (k v) gs b → parses (pbind (get n) k) ((n, v) :: gs) b.
Proof. intros Hn Hv Hk. eapply (parses_bind _ _ [(n, v)]); [by apply parses_get|done]. Qed.

Lemma parses_map {A B} (p : parser A) (g : A → B) fs a : parses p fs a → parses (x ←p p; pret (g x)) fs (g a).
Proof. intros Hp rest. unfold pbind. by rewrite Hp. Qed.

Lemma parses_get_all fs :
  Forall (λ f, 0 ≤ fst f ∧ 0 ≤ snd f < 2 ^ fst f) fs → parses (get_all (map fst fs)) fs (map snd fs).
Proof.
  induction 1 as [|[n v] fs [Hn Hv] _ IH]; [done|]. cbn [map get_all]. apply parses_cons; [done|done|].
  by apply (parses_map _ (λ xs, v :: xs)).
Qed.

Lemma parses_get_if (c : bool) n v :
  0 ≤ n → (c = true → 0 ≤ v < 2 ^ n) →
  parses (get_if c n) (when_fields c [(n, v)]) (if c then Some v else None).
Proof. intros Hn Hv. destruct c; [|done]. apply parses_cons; [done|auto|done]. Qed.

Lemma parses_flagged x fs :
  0 ≤ x < 2 → Forall (λ f, 0 ≤ fst f ∧ 0 ≤ snd f < 2 ^ fst f) fs →
  parses (get_flagged (map fst fs)) ([(1, x)] ++ when_fields (negb (x =? 0)) fs)
    (if negb (x =? 0) then Some (map snd fs) else None).
Proof.
  intros Hx Hfs. apply parses_cons; [done|done|]. destruct (x =? 0); [done|]. simpl.
  by apply (parses_map _ Some), parses_get_all.
Qed.

Lemma parse_header_fields ctx f crc1 :
  header_ok ctx f → is16 crc1 →
  parses parse_header ((16, 0x0B77) :: (16, crc1) :: drop 2 (header_fields ctx f)) (header_of ctx f crc1).
Proof.
  intros [] Hcrc. unfold is16 in Hcrc. unfold parse_header, header_fields, A52_ACMOD_DUAL_MONO. cbv zeta. cbn [app drop].
  do 7 (apply parses_cons; [lia|lia|]).
  do 3 (eapply parses_bind; [apply parses_get_if; [lia|intros; lia]|]).
  do 2 (apply parses_cons; [lia|lia|]).
  assert (Hz : ∀ fs, Forall (λ f, fst f = 1 ∧ 0 ≤ snd f < 2) fs → parses (get_all (map fst fs)) fs (map snd fs)).
  { intros fs Hfs. apply parses_get_all. revert Hfs. apply List.Forall_impl. intros [n v]. simpl. intros [-> Hv]. lia. }
  eapply (parses_bind _ _ [(1, 0); (1, 0); (1, 0)]); [apply (Hz [(1, 0); (1, 0); (1, 0)]); repeat constructor; simpl; lia|].
  eapply (parses_bind _ _ (when_fields _ _) _ (if Ctx.acmod ctx =? 0 then Some (Metadata.dialnorm (Ctx.meta ctx)) else None)).
  { destruct (Ctx.acmod ctx =? 0); [|done]. apply parses_cons; [lia|lia|].
    eapply (parses_map _ (λ _, Some _)), (Hz [(1, 0); (1, 0); (1, 0)]). repeat constructor; simpl; lia. }
  eapply (parses_bind _ _ [(1, 0); (1, 1)]); [apply (Hz [(1, 0); (1, 1)]); repeat constructor; simpl; lia|].
  eapply (parses_bind _ _ (if Ctx.bsid ctx =? 6 then _ else _) _ (hd_xbsi1 (header_of ctx f crc1), hd_xbsi2 (header_of ctx f crc1))).
  { unfold header_of. simpl hd_xbsi1. simpl hd_xbsi2. destruct (Ctx.bsid ctx =? 6); simpl andb; cbv iota.
    - change ((1, ?x) :: ?l ++ ?r) with (([(1, x)] ++ l) ++ r).
      eapply parses_bind; [apply (parses_flagged _ [(2, _); (3, _); (3, _); (3, _); (3, _)]); [lia|repeat constructor; simpl; lia]|].
      eapply (parses_map _ (λ y, (_, y))), (parses_flagged _ [(2, _); (2, _); (1, _); (9, _)]); [lia|repeat constructor; simpl; lia].
    - eapply (parses_map _ (λ _, (None, None))), (Hz [(1, 0); (1, 0)]). repeat constructor; simpl; lia. }
  apply parses_cons; [lia|lia|]. intros rest. unfold pret, header_of. f_equal. simpl fst. simpl snd. cbv zeta.
  f_equal.
  all: assert (Ctx.acmod ctx = 0 ∨ Ctx.acmod ctx = 1 ∨ Ctx.acmod ctx = 2 ∨ Ctx.acmod ctx = 3 ∨ Ctx.acmod ctx = 4 ∨
      Ctx.acmod ctx = 5 ∨ Ctx.acmod ctx = 6 ∨ Ctx.acmod ctx = 7) as [->|[->|[->|[->|[->|[->|[->| ->]]]]]]] by lia; done.
Qed.

(** * Properties *)

(** C3: Putting out a frame whose bits fit its size, into a buffer of the
    maximal frame size, terminates and returns the frame's size in bytes;
    neither the size error nor the CRC error is reported.  The bytes are the
    header and audio fields, zeros and the second checksum; both checksums of
    the frame hold, and the buffer after the frame is untouched. *)
Theorem output_frame_correct `{Target} tab ctx tctx buf :
  crc_init crc16tab_zero = Some tab → packable ctx (TCtx.frame tctx) →
  A52_MAX_CODED_FRAME_SIZE ≤ zlen buf → Forall byte buf →
  ∃ bw m, output_frame tab ctx tctx buf =
      Some (tctx <| TCtx.bw := bw |>, 2 * Frame.frame_size (TCtx.frame tctx), false) ∧
    buffer bw = Some m ∧ frame_written ctx (TCtx.frame tctx) buf m.
Proof.
  intros Htab Hpk Hbuf Hb. pose proof (output_frame_spec tab ctx tctx buf Htab Hpk Hbuf Hb) as Hw.
  apply wp_some in Hw as ([[t r] err] & Heq & -> & -> & bw & m & -> & Hm & Hfw).
  exists bw, m. split; [exact Heq|]. split; [exact Hm|exact Hfw].
Qed.

(** From the bits of a written frame a decoder of the header syntax reads
    back every header parameter, for every channel mode and with or without
    the extended information. *)
Theorem header_roundtrip ctx f m0 m :
  header_ok ctx f → frame_written ctx f m0 m →
  ∃ crc1, fst (parse_header (bits_of_bytes (slice m 0 (2 * Frame.frame_size f)))) = header_of ctx f crc1.
Proof.
  intros Hho [(c1 & c2 & pad & Hc1 & _ & Hbits) _ _ _ _]. exists c1. rewrite Hbits.
  change ((16, 0x0B77) :: (16, c1) :: drop 2 (frame_fields ctx f)) with
    (((16, 0x0B77) :: (16, c1) :: drop 2 (header_fields ctx f)) ++ audio_fields ctx f).
  rewrite fields_bits_app, <- app_assoc. by rewrite (parse_header_fields ctx f c1 Hho Hc1).
Qed.

(** A frame without new exponents and mantissas. *)
Definition bare_blocks : list Block.t := map (λ k, zero_block <| Block.block_num := k |>) [0; 1; 2; 3; 4; 5].
Definition bare_frame : Frame.t := zero_frame
  <| Frame.blocks := bare_blocks |> <| Frame.ncoefs := replicate 6 223 |> <| Frame.frame_size := 384 |>
  <| Frame.frame_size_min := 384 |> <| Frame.frmsizecod := 20 |>
  <| Frame.frame_bits := fixed_bits example_ctx bare_blocks |>.
Definition bare_tctx : TCtx.t := example_tctx <| TCtx.frame := bare_frame |>.

Lemma bare_at k : 0 ≤ k < 6 → bare_blocks.[k] = zero_block <| Block.block_num := k |>.
Proof. intros Hk. by assert (k = 0 ∨ k = 1 ∨ k = 2 ∨ k = 3 ∨ k = 4 ∨ k = 5) as [->|[->|[->|[->|[->| ->]]]]] by lia. Qed.

Lemma bare_packable : packable example_ctx bare_frame.
Proof.
  assert (Hb : Frame.blocks bare_frame = bare_blocks) by done.
  assert (Hn : Frame.ncoefs bare_frame = replicate 6 223) by done.
  assert (Hat : ∀ A `{Inhabited A} (x : A) c i, 0 ≤ c < 6 → 0 ≤ i < 256 → (replicate 6 (replicate 256 x)).[c].[i] = x).
  { intros A HA x c i Hc Hi. rewrite (at_replicate 6) by lia. apply at_replicate. lia. }
  assert (Hbap : ∀ k c i, 0 ≤ k < 6 → 0 ≤ c < 6 → 0 ≤ i < 256 → fbap bare_frame k c i = 0).
  { intros k c i Hk Hc Hi. unfold fbap. rewrite Hb, bare_at by done. by apply (Hat Z). }
  assert (Hnc : ∀ c, 0 ≤ c < 6 → (Frame.ncoefs bare_frame).[c] = 223) by (intros; rewrite Hn; apply at_replicate; lia).
  assert (Hmant : ∀ k, 0 ≤ k < 6 → block_mant_bits (fbap bare_frame k) (Frame.ncoefs bare_frame) 2 = 0).
  { intros k Hk. unfold block_mant_bits, block_plain, block_count.
    assert (Hc0 : ∀ v, v ≠ 0 → zsum (λ c, count_bap v (fbap bare_frame k c) (Frame.ncoefs bare_frame).[c]) 2 = 0).
    { intros v Hv. apply zsum_zero. intros c Hc. apply zsum_zero. intros i Hi. rewrite Hnc in Hi by lia.
      rewrite Hbap by lia. by rewrite (proj2 (Z.eqb_neq 0 v)). }
    rewrite !Hc0 by done. rewrite zsum_zero; [done|]. intros c Hc. apply zsum_zero. intros i Hi.
    rewrite Hnc in Hi by lia. by rewrite Hbap by lia. }
  assert (Hstr : ∀ k c, 0 ≤ k < 6 → 0 ≤ c < 6 → bstr (Frame.blocks bare_frame) k c = 0).
  { intros k c Hk Hc. unfold bstr. rewrite Hb, bare_at by done. apply (at_replicate 6 0). lia. }
  split; change (Ctx.n_all_channels example_ctx) with 2.
  - apply example_channels.
  - done.
  - rewrite Hb. split; [done|]. intros k Hk. rewrite bare_at by done. by destruct zero_block_wf.
  - done.
  - done.
  - intros c Hc. rewrite Hnc by lia. right. exists 50. lia.
  - intros k Hk. rewrite Hb, bare_at by done. done.
  - intros k c Hk Hc. rewrite Hstr; lia.
  - intros k c Hk Hc. rewrite Hstr by lia. rewrite Hb, bare_at by done. apply (at_replicate 6 0). lia.
  - intros k c i Hk Hc Hi. rewrite Hnc in Hi by lia. rewrite Hbap; lia.
  - intros k Hk. rewrite Hmant by done. apply zsum_zero. intros c Hc. change (Ctx.n_all_channels example_ctx) with 2 in Hc.
    apply zsum_zero. intros i Hi. rewrite Hnc in Hi by lia. pose proof (Hbap k c i Hk ltac:(lia) ltac:(lia)) as Hz.
    unfold fbap in Hz. by rewrite Hz.
  - symmetry. apply zsum_zero. intros k Hk. apply zsum_zero. intros c Hc. by rewrite Hstr by lia.
  - done.
  - symmetry. apply zsum_zero. done.
  - vm_compute. discriminate.
  - vm_compute. by split.
Qed.

Lemma output_frame_correct_witness :
  ∃ bw m, output_frame (H := little_endian) tab_after_init example_ctx bare_tctx (replicate 3840 0) =
      Some (bare_tctx <| TCtx.bw := bw |>, 2 * 384, false) ∧
    buffer bw = Some m ∧ frame_written example_ctx bare_frame (replicate 3840 0) m.
Proof.
  apply (output_frame_correct (H := little_endian) tab_after_init example_ctx bare_tctx).
  - vm_compute. reflexivity.
  - apply bare_packable.
  - rewrite zlen_replicate. done.
  - apply Forall_replicate. unfold byte. lia.
Defined.

Lemma frame_written_exists `{Target} tab ctx tctx buf :
  crc_init crc16tab_zero = Some tab → packable ctx (TCtx.frame tctx) →
  A52_MAX_CODED_FRAME_SIZE ≤ zlen buf → Forall byte buf → ∃ m, frame_written ctx (TCtx.frame tctx) buf m.
Proof.
  intros Htab Hpk Hbuf Hb. pose proof (output_frame_spec tab ctx tctx buf Htab Hpk Hbuf Hb) as Hw.
  apply wp_some in Hw as ([[t r] err] & _ & _ & _ & bw & m & _ & _ & Hfw). by exists m.
Qed.

Lemma bare_written : ∃ m, frame_written example_ctx bare_frame (replicate 3840 0) m.
Proof.
  apply (frame_written_exists (H := little_endian) tab_after_init example_ctx bare_tctx).
  - vm_compute. reflexivity.
  - apply bare_packable.
  - rewrite zlen_replicate. done.
  - apply Forall_replicate. unfold byte. lia.
Qed.

Lemma header_roundtrip_witness :
  ∃ m, frame_written example_ctx bare_frame (replicate 3840 0) m ∧
  ∃ crc1, fst (parse_header (bits_of_bytes (slice m 0 (2 * Frame.frame_size bare_frame)))) = header_of example_ctx bare_frame crc1.
Proof.
  destruct bare_written as [m Hm]. exists m. split; [exact Hm|].
  apply (header_roundtrip example_ctx bare_frame (replicate 3840 0) m); [|exact Hm].
  split; repeat split; vm_compute; congruence.
Defined.
