(* ===== verification/Filter.v ===== *)
(** [libaften/filter.c]: the input filters.  A filter is the record of the C
    code with its private state; [filter_init] chooses the implementation and
    computes the coefficients, [filter_run] filters a block.  The theorems show
    that every output sample is clipped, that filtering a block in two parts is
    filtering it whole, and when the initialisation succeeds. *)
From Stdlib Require Import ZArith Lia ZifyBool Bool.
From stdpp Require Import base option list numbers.
From coqutil Require Import Datatypes.RecordSettersUsingExistingGetters.
From S2P Require Import Prelude CMachine Float Types.
Local Open Scope Z_scope.
Local Open Scope carray_scope.

(** * Data *)

Inductive FilterType := FILTER_TYPE_LOWPASS | FILTER_TYPE_HIGHPASS | FILTER_TYPE_BANDPASS
  | FILTER_TYPE_BANDSTOP | FILTER_TYPE_ALLPASS.

Inductive FilterID := FILTER_ID_BIQUAD_I | FILTER_ID_BIQUAD_II | FILTER_ID_BUTTERWORTH_I
  | FILTER_ID_BUTTERWORTH_II | FILTER_ID_ONEPOLE.

(** The private contexts of the implementations. *)
Record BiquadContext := mk_biquad { coefs : list FLOAT; state : list (list FLOAT) }.
Record OnePoleContext := mk_onepole { op_p : FLOAT; op_last : FLOAT }.

Inductive FilterPrivate :=
  | NoContext
  | Biquad (b : BiquadContext)
  | OnePole (o : OnePoleContext).

(** The table entry [filter] points to is named by its id. *)
Record FilterContext := mk_filter {
  f_filter : option FilterID;
  f_private : FilterPrivate;
  f_type : FilterType;
  f_cascaded : Z;
  f_cutoff : FLOAT;
  f_samplerate : FLOAT
}.

Definition zero : FLOAT := S754_zero false.

Section filters.
Context `{FloatFormat} `{LibM}.

(** * Coefficients *)

Definition biquad_generate_lowpass (f : BiquadContext) (fc : FLOAT) : BiquadContext :=
  let omega := F_mul (F_mul F_2 AFT_PI) fc in
  let alpha := F_div (AFT_SIN omega) F_2 in
  let cs := AFT_COS omega in
  let a0 := F_add F_1 alpha in
  let a1 := F_mul (F_neg F_2) cs in
  let a2 := F_sub F_1 alpha in
  let b0 := F_div (F_sub F_1 cs) F_2 in
  let b1 := F_sub F_1 cs in
  let b2 := F_div (F_sub F_1 cs) F_2 in
  f <| coefs := [F_div b0 a0; F_div b1 a0; F_div b2 a0; F_div a1 a0; F_div a2 a0] |>.

Definition biquad_generate_highpass (f : BiquadContext) (fc : FLOAT) : BiquadContext :=
  let omega := F_mul (F_mul F_2 AFT_PI) fc in
  let alpha := F_div (AFT_SIN omega) F_2 in
  let cs := AFT_COS omega in
  let a0 := F_add F_1 alpha in
  let a1 := F_mul (F_neg F_2) cs in
  let a2 := F_sub F_1 alpha in
  let b0 := F_div (F_add F_1 cs) F_2 in
  let b1 := F_neg (F_add F_1 cs) in
  let b2 := F_div (F_add F_1 cs) F_2 in
  f <| coefs := [F_div b0 a0; F_div b1 a0; F_div b2 a0; F_div a1 a0; F_div a2 a0] |>.

Definition butterworth_generate_lowpass (f : BiquadContext) (fc : FLOAT) : BiquadContext :=
  let c := F_div F_1 (AFT_TAN (F_mul AFT_PI fc)) in
  let c2 := F_mul c c in
  let k0 := F_div F_1 (F_add (F_add c2 (F_mul AFT_SQRT2 c)) F_1) in
  f <| coefs := [k0; F_mul F_2 k0; k0; F_mul (F_mul F_2 (F_sub F_1 c2)) k0;
                 F_mul (F_add (F_sub c2 (F_mul AFT_SQRT2 c)) F_1) k0] |>.

Definition butterworth_generate_highpass (f : BiquadContext) (fc : FLOAT) : BiquadContext :=
  let c := AFT_TAN (F_mul AFT_PI fc) in
  let c2 := F_mul c c in
  let k0 := F_div F_1 (F_add (F_add c2 (F_mul AFT_SQRT2 c)) F_1) in
  f <| coefs := [k0; F_mul (F_neg F_2) k0; k0; F_mul (F_mul F_2 (F_sub c2 F_1)) k0;
                 F_mul (F_add (F_sub c2 (F_mul AFT_SQRT2 c)) F_1) k0] |>.

Definition onepole_generate_lowpass (fc : FLOAT) : OnePoleContext :=
  let omega := F_mul (F_mul F_2 AFT_PI) fc in
  let cs := F_sub F_2 (AFT_COS omega) in
  mk_onepole (F_sub cs (AFT_SQRT (F_sub (F_mul cs cs) F_1))) zero.

Definition onepole_generate_highpass (fc : FLOAT) : OnePoleContext :=
  let omega := F_mul (F_mul F_2 AFT_PI) fc in
  let cs := F_add F_2 (AFT_COS omega) in
  mk_onepole (F_sub cs (AFT_SQRT (F_sub (F_mul cs cs) F_1))) zero.

(** * Initialisation *)

(** The frequency checks that all implementations share. *)
Definition bad_frequencies (f : FilterContext) : bool :=
  F_le (f_samplerate f) zero || F_lt (f_cutoff f) zero || F_lt (F_div (f_samplerate f) F_2) (f_cutoff f).

Definition zero_state : list (list FLOAT) := replicate 2 (replicate 5 zero).

Definition biquad_init (f : FilterContext) (b : BiquadContext) : FilterContext * Z :=
  if bad_frequencies f then (f, -1) else
  let fc := F_div (f_cutoff f) (f_samplerate f) in
  let run (b : BiquadContext) := (f <| f_private := Biquad (b <| state := zero_state |>) |>, 0) in
  match f_type f with
  | FILTER_TYPE_LOWPASS => run (biquad_generate_lowpass b fc)
  | FILTER_TYPE_HIGHPASS => run (biquad_generate_highpass b fc)
  | _ => (f, -1)
  end.

Definition butterworth_init (f : FilterContext) (b : BiquadContext) : FilterContext * Z :=
  if bad_frequencies f then (f, -1) else
  let fc := F_div (f_cutoff f) (f_samplerate f) in
  let run (b : BiquadContext) := (f <| f_private := Biquad (b <| state := zero_state |>) |>, 0) in
  match f_type f with
  | FILTER_TYPE_LOWPASS => run (butterworth_generate_lowpass b fc)
  | FILTER_TYPE_HIGHPASS => run (butterworth_generate_highpass b fc)
  | _ => (f, -1)
  end.

Definition onepole_init (f : FilterContext) : FilterContext * Z :=
  if negb (f_cascaded f =? 0) then (f, -1) else
  if bad_frequencies f then (f, -1) else
  let fc := F_div (f_cutoff f) (f_samplerate f) in
  match f_type f with
  | FILTER_TYPE_LOWPASS => (f <| f_private := OnePole (onepole_generate_lowpass fc) |>, 0)
  | FILTER_TYPE_HIGHPASS => (f <| f_private := OnePole (onepole_generate_highpass fc) |>, 0)
  | _ => (f, -1)
  end.

(** The private context is allocated zeroed. *)
Definition calloc_biquad : BiquadContext := mk_biquad (replicate 5 zero) zero_state.

Definition filter_init (f : FilterContext) (id : FilterID) : FilterContext * Z :=
  let f := f <| f_filter := Some id |> in
  match id with
  | FILTER_ID_BIQUAD_I | FILTER_ID_BIQUAD_II =>
      biquad_init (f <| f_private := Biquad calloc_biquad |>) calloc_biquad
  | FILTER_ID_BUTTERWORTH_I | FILTER_ID_BUTTERWORTH_II =>
      butterworth_init (f <| f_private := Biquad calloc_biquad |>) calloc_biquad
  | FILTER_ID_ONEPOLE => onepole_init (f <| f_private := OnePole (mk_onepole zero zero) |>)
  end.

Definition filter_close (f : FilterContext) : FilterContext :=
  f <| f_private := NoContext |> <| f_filter := None |>.

(** * Running *)

Definition clip1 (v : FLOAT) : FLOAT := F_CLIP v (F_neg F_1) F_1.

(** One sample of the direct forms I and II: the new state and the output
    before clipping. *)
Definition biquad_i_step (c s : list FLOAT) (x : FLOAT) : option (list FLOAT * FLOAT) :=
  s ← aset s 0 x;
  c0 ← aget c 0; c1 ← aget c 1; c2 ← aget c 2; c3 ← aget c 3; c4 ← aget c 4;
  s0 ← aget s 0; s1 ← aget s 1; s2 ← aget s 2; s3 ← aget s 3; s4 ← aget s 4;
  let v := zero in
  let v := F_add v (F_mul c0 s0) in
  let v := F_add v (F_mul c1 s1) in
  let v := F_add v (F_mul c2 s2) in
  let v := F_sub v (F_mul c3 s3) in
  let v := F_sub v (F_mul c4 s4) in
  s ← aset s 2 s1;
  s ← aset s 4 s3;
  s ← aset s 1 s0;
  s ← aset s 3 v;
  Some (s, v).

Definition biquad_ii_step (c s : list FLOAT) (x : FLOAT) : option (list FLOAT * FLOAT) :=
  s ← aset s 0 x;
  c0 ← aget c 0; c1 ← aget c 1; c2 ← aget c 2; c3 ← aget c 3; c4 ← aget c 4;
  s0 ← aget s 0; s1 ← aget s 1; s2 ← aget s 2;
  let v := F_add (F_mul c0 s0) s1 in
  s ← aset s 1 (F_add (F_sub (F_mul c1 s0) (F_mul c3 v)) s2);
  s ← aset s 2 (F_sub (F_mul c2 s0) (F_mul c4 v));
  Some (s, v).

(** The two runs over the block: the second filters the output in place. *)
Definition biquad_pass (step : list FLOAT → list FLOAT → FLOAT → option (list FLOAT * FLOAT)) (c : list FLOAT)
    (j n : Z) (tmp : option (list FLOAT)) (st : list (list FLOAT)) (out : list FLOAT)
    : option (list (list FLOAT) * list FLOAT) :=
  for_up 0 n (λ i '(st, out),
    x ← aget (default out tmp) i;
    s ← aget st j;
    '(s, v) ← step c s x;
    st ← aset st j s;
    out ← aset out i (clip1 v);
    Some (st, out)) (st, out).

Definition biquad_run_filter (step : list FLOAT → list FLOAT → FLOAT → option (list FLOAT * FLOAT))
    (f : FilterContext) (out in_ : list FLOAT) (n : Z) : option (FilterContext * list FLOAT) :=
  match f_private f with
  | Biquad b =>
      '(st, out, _) ← for_up 0 (1 + f_cascaded f) (λ j '(st, out, tmp),
        '(st, out) ← biquad_pass step (coefs b) j n tmp st out;
        Some (st, out, None)) (state b, out, Some in_);
      Some (f <| f_private := Biquad (b <| state := st |>) |>, out)
  | _ => None
  end.

Definition biquad_i_run_filter := biquad_run_filter biquad_i_step.
Definition biquad_ii_run_filter := biquad_run_filter biquad_ii_step.

Definition onepole_run_filter (f : FilterContext) (out in_ : list FLOAT) (n : Z) : option (FilterContext * list FLOAT) :=
  match f_private f with
  | OnePole o =>
      let p1 := match f_type f with
                | FILTER_TYPE_LOWPASS => F_sub F_1 (op_p o)
                | FILTER_TYPE_HIGHPASS => F_sub (op_p o) F_1
                | _ => zero
                end in
      '(last, out) ← for_up 0 n (λ i '(last, out),
        x ← aget in_ i;
        let v := F_add (F_mul p1 x) (F_mul (op_p o) last) in
        out ← aset out i (clip1 v);
        Some (clip1 v, out)) (op_last o, out);
      Some (f <| f_private := OnePole (o <| op_last := last |>) |>, out)
  | _ => None
  end.

Definition filter_run (f : FilterContext) (out in_ : list FLOAT) (n : Z) : option (FilterContext * list FLOAT) :=
  id ← f_filter f;
  match id with
  | FILTER_ID_BIQUAD_I | FILTER_ID_BUTTERWORTH_I => biquad_i_run_filter f out in_ n
  | FILTER_ID_BIQUAD_II | FILTER_ID_BUTTERWORTH_II => biquad_ii_run_filter f out in_ n
  | FILTER_ID_ONEPOLE => onepole_run_filter f out in_ n
  end.

(** * Specification: filters on signals *)

(** One stage on a signal: the state it ends in and the clipped output. *)
Fixpoint run_list (step : list FLOAT → list FLOAT → FLOAT → option (list FLOAT * FLOAT)) (c s : list FLOAT)
    (xs : list FLOAT) : option (list FLOAT * list FLOAT) :=
  match xs with
  | [] => Some (s, [])
  | x :: xs =>
      '(s, v) ← step c s x;
      '(s, ys) ← run_list step c s xs;
      Some (s, clip1 v :: ys)
  end.

Lemma run_list_app step c s xs ys :
  run_list step c s (xs ++ ys) =
  ('(s1, us) ← run_list step c s xs; '(s2, vs) ← run_list step c s1 ys; Some (s2, us ++ vs)).
Proof.
  revert s. induction xs as [|x xs IH]; intros s; simpl.
  - by destruct (run_list step c s ys) as [[]|].
  - destruct (step c s x) as [[s1 v]|]; simpl; [|done]. rewrite IH.
    destruct (run_list step c s1 xs) as [[s2 us]|]; simpl; [|done].
    by destruct (run_list step c s2 ys) as [[]|].
Qed.

Lemma run_list_unit `{!FloatOk _} step c s xs s' ys :
  run_list step c s xs = Some (s', ys) → length ys = length xs ∧ Forall F_unit ys.
Proof.
  revert s ys. induction xs as [|x xs IH]; intros s ys; simpl; [intros [= <- <-]; split; [done|constructor]|].
  destruct (step c s x) as [[s1 v]|]; simpl; [|done].
  destruct (run_list step c s1 xs) as [[s2 us]|] eqn:Hr; simpl; [|done]. intros [= <- <-].
  apply IH in Hr as [Hl Hu]. split; [simpl; congruence|]. constructor; [apply F_CLIP_unit|done].
Qed.

(** A step of five coefficients and five state variables. *)
Definition step_total (step : list FLOAT → list FLOAT → FLOAT → option (list FLOAT * FLOAT)) : Prop :=
  ∀ c s x, zlen c = 5 → zlen s = 5 → ∃ s' v, step c s x = Some (s', v) ∧ zlen s' = 5.

Lemma biquad_i_total : step_total biquad_i_step.
Proof.
  intros c s x Hc Hs. cut (wp (biquad_i_step c s x) (λ '(s', v), zlen s' = 5)).
  { intros Hw. apply wp_some in Hw as ([s' v] & ? & ?). eauto. }
  unfold biquad_i_step. wp_steps. by rewrite !zlen_upd.
Qed.

Lemma biquad_ii_total : step_total biquad_ii_step.
Proof.
  intros c s x Hc Hs. cut (wp (biquad_ii_step c s x) (λ '(s', v), zlen s' = 5)).
  { intros Hw. apply wp_some in Hw as ([s' v] & ? & ?). eauto. }
  unfold biquad_ii_step. wp_steps. by rewrite !zlen_upd.
Qed.

Lemma run_list_total step c s xs :
  step_total step → zlen c = 5 → zlen s = 5 → ∃ s' ys, run_list step c s xs = Some (s', ys) ∧ zlen s' = 5.
Proof.
  intros Ht Hc. revert s. induction xs as [|x xs IH]; intros s Hs; simpl; [eauto|].
  destruct (Ht c s x Hc Hs) as (s1 & v & -> & Hs1). simpl.
  destruct (IH s1 Hs1) as (s2 & ys & -> & Hs2). simpl. eauto.
Qed.

(** The replaced beginning of an array. *)
Lemma overwrite_at (ys out : list FLOAT) i v :
  zlen ys = i → i < zlen out → upd (ys ++ drop (Z.to_nat i) out) i v = (ys ++ [v]) ++ drop (Z.to_nat (i + 1)) out.
Proof.
  intros Hi Hl. destruct (drop (Z.to_nat i) out) as [|y t] eqn:Hd.
  { apply (f_equal length) in Hd. rewrite length_drop in Hd. unfold zlen in *. simpl in Hd. lia. }
  rewrite upd_app_mid by done. rewrite <- app_assoc. do 2 f_equal.
  replace (Z.to_nat (i + 1)) with (Z.to_nat i + 1)%nat by (unfold zlen in *; lia). by rewrite <- drop_drop, Hd.
Qed.

(** A pass over the block runs the stage on it. *)
Lemma biquad_pass_spec step c j n tmp st out :
  step_total step → zlen c = 5 → 0 ≤ j < zlen st → zlen st.[j] = 5 →
  let src := default out tmp in
  0 ≤ n ≤ zlen src → n ≤ zlen out →
  ∃ s ys, run_list step c st.[j] (take (Z.to_nat n) src) = Some (s, ys) ∧ zlen s = 5 ∧
    biquad_pass step c j n tmp st out = Some (upd st j s, ys ++ drop (Z.to_nat n) out).
Proof.
  intros Ht Hc Hj Hs src Hn Ho.
  cut (wp (biquad_pass step c j n tmp st out) (λ r, ∃ s ys,
    run_list step c st.[j] (take (Z.to_nat n) src) = Some (s, ys) ∧ zlen s = 5 ∧
    r = (upd st j s, ys ++ drop (Z.to_nat n) out))).
  { intros Hw. apply wp_some in Hw as (r & Hr & s & ys & H1 & H2 & ->). eauto. }
  unfold biquad_pass. apply (wp_for_up (λ i r, ∃ s ys,
    run_list step c st.[j] (take (Z.to_nat i) src) = Some (s, ys) ∧ zlen s = 5 ∧
    r = (upd st j s, ys ++ drop (Z.to_nat i) out))); [lia| | |done].
  - exists st.[j], []. split; [done|]. split; [done|]. f_equal.
    apply array_ext; [by rewrite zlen_upd|]. intros k Hk. rewrite at_upd by lia. by destruct (Z.eqb_spec k j) as [-> |].
  - intros i r Hi (s & ys & Hr & Hs5 & ->).
    assert (Hys : zlen ys = i).
    { assert (Hl : ∀ xs s s' ys, run_list step c s xs = Some (s', ys) → length ys = length xs).
      { induction xs as [|x xs IH]; intros s0 s' ys0; simpl; [by intros [= <- <-]|].
        destruct (step c s0 x) as [[s1 v]|]; simpl; [|done].
        destruct (run_list step c s1 xs) as [[s2 us]|] eqn:Hr'; simpl; [|done]. intros [= <- <-].
        simpl. f_equal. by apply (IH s1 s2). }
      apply Hl in Hr. unfold zlen in *. rewrite length_take in Hr. lia. }
    assert (Hx : (default (ys ++ drop (Z.to_nat i) out) tmp).[i] = src.[i] ∧
                 i < zlen (default (ys ++ drop (Z.to_nat i) out) tmp)).
    { unfold src in *. destruct tmp as [t|]; simpl in *; [split; [done|lia]|]. rewrite at_app_r by lia.
      split; [|unfold zlen in *; rewrite length_app, length_drop; lia].
      unfold at_. rewrite lookup_total_drop. f_equal. lia. }
    destruct Hx as [Hx Hl]. wp_step. wp_step. rewrite Hx.
    wp_step. wp_step. rewrite at_upd_eq by lia. wp_step.
    destruct (Ht c s src.[i] Hc Hs5) as (s' & v & Hst & Hs'). rewrite Hst. simpl. wp_step. wp_step. wp_step.
    apply wp_aset; [unfold zlen in *; rewrite length_app, length_drop; lia|]. wp_steps.
    exists s', (ys ++ [clip1 v]). split; [|split; [done|]].
    + replace (Z.to_nat (i + 1)) with (S (Z.to_nat i)) by lia.
      rewrite (take_S_r _ _ src.[i]), run_list_app, Hr; [simpl; by rewrite Hst|].
      unfold at_. apply list_lookup_lookup_total_lt. unfold zlen in *. lia.
    + rewrite overwrite_at by lia. f_equal. unfold upd. by rewrite list_insert_insert_eq.
Qed.

(** A filter that has been initialised. *)
Definition filter_ok (f : FilterContext) : Prop :=
  match f_filter f, f_private f with
  | Some FILTER_ID_ONEPOLE, OnePole _ => True
  | Some FILTER_ID_ONEPOLE, _ | None, _ => False
  | Some _, Biquad b => zlen (coefs b) = 5 ∧ dim2 2 5 (state b) ∧ (f_cascaded f = 0 ∨ f_cascaded f = 1)
  | _, _ => False
  end.

Definition onepole_p1 (f : FilterContext) (o : OnePoleContext) : FLOAT :=
  match f_type f with
  | FILTER_TYPE_LOWPASS => F_sub F_1 (op_p o)
  | FILTER_TYPE_HIGHPASS => F_sub (op_p o) F_1
  | _ => zero
  end.

Fixpoint onepole_list (p1 p last : FLOAT) (xs : list FLOAT) : FLOAT * list FLOAT :=
  match xs with
  | [] => (last, [])
  | x :: xs =>
      let y := clip1 (F_add (F_mul p1 x) (F_mul p last)) in
      let '(last, ys) := onepole_list p1 p y xs in (last, y :: ys)
  end.

(** One or two stages. *)
Definition biquad_list (step : list FLOAT → list FLOAT → FLOAT → option (list FLOAT * FLOAT))
    (f : FilterContext) (b : BiquadContext) (xs : list FLOAT) : option (FilterContext * list FLOAT) :=
  '(s0, ys) ← run_list step (coefs b) (state b).[0] xs;
  if f_cascaded f =? 0 then Some (f <| f_private := Biquad (b <| state := upd (state b) 0 s0 |>) |>, ys) else
  '(s1, zs) ← run_list step (coefs b) (state b).[1] ys;
  Some (f <| f_private := Biquad (b <| state := upd (upd (state b) 0 s0) 1 s1 |>) |>, zs).

(** What a filter does to a signal. *)
Definition filter_list (f : FilterContext) (xs : list FLOAT) : option (FilterContext * list FLOAT) :=
  match f_filter f, f_private f with
  | Some (FILTER_ID_BIQUAD_I | FILTER_ID_BUTTERWORTH_I), Biquad b => biquad_list biquad_i_step f b xs
  | Some (FILTER_ID_BIQUAD_II | FILTER_ID_BUTTERWORTH_II), Biquad b => biquad_list biquad_ii_step f b xs
  | Some FILTER_ID_ONEPOLE, OnePole o =>
      let '(last, ys) := onepole_list (onepole_p1 f o) (op_p o) (op_last o) xs in
      Some (f <| f_private := OnePole (o <| op_last := last |>) |>, ys)
  | _, _ => None
  end.

Lemma run_list_length step c s xs s' ys : run_list step c s xs = Some (s', ys) → length ys = length xs.
Proof.
  revert s ys. induction xs as [|x xs IH]; intros s ys; simpl; [by intros [= <- <-]|].
  destruct (step c s x) as [[s1 v]|]; simpl; [|done].
  destruct (run_list step c s1 xs) as [[s2 us]|] eqn:Hr; simpl; [|done]. intros [= <- <-].
  simpl. f_equal. by apply (IH s1).
Qed.

Lemma take_app_drop {A} (ys out : list A) n :
  length ys = n → take n (ys ++ drop n out) = ys ∧ drop n (ys ++ drop n out) = drop n out.
Proof. intros <-. by rewrite take_app_length, drop_app_length. Qed.

(** Running a biquad filter over a block. *)
Lemma biquad_run_spec step f b out in_ n :
  step_total step → zlen (coefs b) = 5 → dim2 2 5 (state b) → f_cascaded f = 0 ∨ f_cascaded f = 1 →
  f_private f = Biquad b → 0 ≤ n ≤ zlen in_ → n ≤ zlen out →
  ∃ f' ys, biquad_list step f b (take (Z.to_nat n) in_) = Some (f', ys) ∧
    biquad_run_filter step f out in_ n = Some (f', ys ++ drop (Z.to_nat n) out) ∧ length ys = Z.to_nat n ∧
    ∃ st, f' = f <| f_private := Biquad (b <| state := st |>) |> ∧ dim2 2 5 st.
Proof.
  intros Ht Hc Hd Hcas Hp Hn Ho. unfold biquad_run_filter, biquad_list. rewrite Hp.
  pose proof (proj1 Hd) as Hl2. pose proof (dim2_row _ _ _ 0 Hd ltac:(lia)) as Hst0. pose proof (dim2_row _ _ _ 1 Hd ltac:(lia)) as Hst1.
  destruct (biquad_pass_spec step (coefs b) 0 n (Some in_) (state b) out Ht Hc ltac:(lia) Hst0 ltac:(simpl; lia) Ho)
    as (s0 & ys & Hr0 & Hs0 & Hp0). simpl in Hr0.
  assert (Hlys : length ys = Z.to_nat n)
    by (apply run_list_length in Hr0; rewrite Hr0, length_take; unfold zlen in *; lia).
  rewrite Hr0. cbn [mbind option_bind]. rewrite for_up_step by lia. cbn [mbind option_bind]. rewrite Hp0.
  cbn [mbind option_bind].
  destruct Hcas as [Hz|Hz]; rewrite Hz.
  - rewrite for_up_done by lia. cbn [mbind option_bind]. simpl Z.eqb. cbv iota.
    eexists _, ys. split_and!; [reflexivity|reflexivity|done|]. eexists. split; [reflexivity|]. apply dim2_upd; [done|lia|done].
  - simpl Z.eqb. cbv iota.
    destruct (biquad_pass_spec step (coefs b) 1 n None (upd (state b) 0 s0) (ys ++ drop (Z.to_nat n) out) Ht Hc)
      as (s1 & zs & Hr1 & Hs1 & Hp1); simpl default.
    { rewrite zlen_upd. lia. }
    { by rewrite at_upd_ne by lia. }
    { unfold zlen in *. rewrite length_app, length_drop. lia. }
    { unfold zlen in *. rewrite length_app, length_drop. lia. }
    simpl default in Hr1. destruct (take_app_drop ys out (Z.to_nat n) Hlys) as [Htk Hdr].
    rewrite Htk, at_upd_ne in Hr1 by lia. rewrite Hr1. cbn [mbind option_bind].
    change (0 + 1) with 1. rewrite for_up_step by lia. cbn [mbind option_bind]. rewrite Hp1, Hdr. cbn [mbind option_bind].
    rewrite for_up_done by lia. cbn [mbind option_bind].
    assert (Hlzs : length zs = Z.to_nat n) by (apply run_list_length in Hr1; congruence).
    eexists _, zs. split_and!; [reflexivity|reflexivity|done|]. eexists. split; [reflexivity|].
    apply dim2_upd; [apply dim2_upd; [done|lia|done]|lia|done].
Qed.

Lemma onepole_list_length p1 p last xs : length (snd (onepole_list p1 p last xs)) = length xs.
Proof.
  revert last. induction xs as [|x xs IH]; intros last; [done|]. simpl.
  specialize (IH (clip1 (F_add (F_mul p1 x) (F_mul p last)))). destruct (onepole_list _ _ _ xs). simpl in *. congruence.
Qed.

Lemma onepole_list_app p1 p last xs ys :
  onepole_list p1 p last (xs ++ ys) =
  (let '(l1, us) := onepole_list p1 p last xs in
   let '(l2, vs) := onepole_list p1 p l1 ys in (l2, us ++ vs)).
Proof.
  revert last. induction xs as [|x xs IH]; intros last; simpl.
  - by destruct (onepole_list p1 p last ys).
  - rewrite IH. destruct (onepole_list p1 p _ xs) as [l1 us]. by destruct (onepole_list p1 p l1 ys).
Qed.

Lemma onepole_list_unit `{!FloatOk _} p1 p last xs : Forall F_unit (snd (onepole_list p1 p last xs)).
Proof.
  revert last. induction xs as [|x xs IH]; intros last; simpl; [constructor|].
  specialize (IH (clip1 (F_add (F_mul p1 x) (F_mul p last)))). destruct (onepole_list _ _ _ xs). simpl in *.
  constructor; [apply F_CLIP_unit|done].
Qed.

Lemma onepole_run_spec f o out in_ n :
  f_private f = OnePole o → 0 ≤ n ≤ zlen in_ → n ≤ zlen out →
  let r := onepole_list (onepole_p1 f o) (op_p o) (op_last o) (take (Z.to_nat n) in_) in
  onepole_run_filter f out in_ n =
    Some (f <| f_private := OnePole (o <| op_last := fst r |>) |>, snd r ++ drop (Z.to_nat n) out).
Proof.
  intros Hp Hn Ho r. unfold onepole_run_filter. rewrite Hp. fold (onepole_p1 f o). set (p1 := onepole_p1 f o) in *.
  match goal with |- (?m ≫= _) = _ => cut (wp m (λ r', r' = (fst r, snd r ++ drop (Z.to_nat n) out))) end.
  { intros Hw. apply wp_some in Hw as (r' & -> & ->). done. }
  apply (wp_for_up (λ i r', r' = (let q := onepole_list p1 (op_p o) (op_last o) (take (Z.to_nat i) in_) in
    (fst q, snd q ++ drop (Z.to_nat i) out)))); [lia|done| |done].
  intros i r' Hi ->. cbv zeta.
  pose proof (onepole_list_length p1 (op_p o) (op_last o) (take (Z.to_nat i) in_)) as Hq.
  destruct (onepole_list p1 (op_p o) (op_last o) (take (Z.to_nat i) in_)) as [l us] eqn:Hus. cbn [fst snd] in *.
  assert (Hlen : zlen us = i) by (unfold zlen in *; rewrite length_take in Hq; lia).
  wp_step. wp_step. cbv zeta.
  wp_step. apply wp_aset; [unfold zlen in *; rewrite length_app, length_drop; lia|]. wp_steps.
  replace (Z.to_nat (i + 1)) with (S (Z.to_nat i)) at 1 2 by lia.
  rewrite (take_S_r _ _ in_.[i]) by (unfold at_; apply list_lookup_lookup_total_lt; unfold zlen in *; lia).
  rewrite onepole_list_app, Hus. cbn [fst snd onepole_list]. by rewrite overwrite_at by (done || lia).
Qed.

(** Every implementation refines [filter_list]. *)
Lemma filter_run_list f out in_ n :
  filter_ok f → 0 ≤ n ≤ zlen in_ → n ≤ zlen out →
  ∃ f' ys, filter_list f (take (Z.to_nat n) in_) = Some (f', ys) ∧
    filter_run f out in_ n = Some (f', ys ++ drop (Z.to_nat n) out) ∧ length ys = Z.to_nat n ∧ filter_ok f' ∧
    f_cascaded f' = f_cascaded f ∧ f_type f' = f_type f ∧ f_filter f' = f_filter f.
Proof.
  intros Hok Hn Ho. unfold filter_ok in Hok. destruct (f_filter f) as [id|] eqn:Hid; [|done].
  assert (Hbi : ∀ step b, step_total step → f_private f = Biquad b → id ≠ FILTER_ID_ONEPOLE →
    zlen (coefs b) = 5 ∧ dim2 2 5 (state b) ∧ (f_cascaded f = 0 ∨ f_cascaded f = 1) →
    ∃ f' ys, biquad_list step f b (take (Z.to_nat n) in_) = Some (f', ys) ∧
      biquad_run_filter step f out in_ n = Some (f', ys ++ drop (Z.to_nat n) out) ∧ length ys = Z.to_nat n ∧ filter_ok f' ∧
      f_cascaded f' = f_cascaded f ∧ f_type f' = f_type f ∧ f_filter f' = f_filter f).
  { intros step b Ht Hp Hne (Hc & Hd & Hcas).
    destruct (biquad_run_spec step f b out in_ n Ht Hc Hd Hcas Hp Hn Ho) as (f' & ys & H1 & H2 & H3 & st & -> & Hst).
    eexists _, ys. split; [exact H1|]. split; [exact H2|]. split; [done|]. simpl. split; [|done].
    unfold filter_ok. simpl. rewrite Hid. by destruct id. }
  unfold filter_list, filter_run, biquad_i_run_filter, biquad_ii_run_filter. rewrite Hid in Hbi |- *. cbn [mbind option_bind].
  destruct id; (destruct (f_private f) as [|b|o] eqn:Hp; [done|..]; try done).
  - by apply (Hbi biquad_i_step b biquad_i_total).
  - by apply (Hbi biquad_ii_step b biquad_ii_total).
  - by apply (Hbi biquad_i_step b biquad_i_total).
  - by apply (Hbi biquad_ii_step b biquad_ii_total).
  - pose proof (onepole_run_spec f o out in_ n Hp Hn Ho) as Hr. cbv zeta in Hr.
    pose proof (onepole_list_length (onepole_p1 f o) (op_p o) (op_last o) (take (Z.to_nat n) in_)) as Hlen.
    destruct (onepole_list _ _ _ _) as [last ys]. simpl in Hr, Hlen.
    eexists _, ys. split; [reflexivity|]. split; [exact Hr|].
    split; [rewrite Hlen, length_take; unfold zlen in *; lia|]. simpl. unfold filter_ok. simpl. by rewrite Hid.
Qed.

Lemma biquad_list_app step f b xs ys f1 us :
  dim2 2 5 (state b) → biquad_list step f b xs = Some (f1, us) →
  ∃ b1, f1 = f <| f_private := Biquad b1 |> ∧ coefs b1 = coefs b ∧
    biquad_list step f b (xs ++ ys) = ('(f2, vs) ← biquad_list step f1 b1 ys; Some (f2, us ++ vs)).
Proof.
  intros [Hl _]. unfold biquad_list. rewrite run_list_app.
  destruct (run_list step (coefs b) (state b).[0] xs) as [[s0 zs0]|]; cbn [mbind option_bind]; [|done].
  destruct (f_cascaded f =? 0) eqn:Hz.
  - intros [= <- <-]. eexists. split; [reflexivity|]. simpl. split; [done|]. rewrite Hz.
    rewrite at_upd_eq by lia. destruct (run_list step (coefs b) s0 ys) as [[s1 zs1]|]; cbn [mbind option_bind]; [|done].
    unfold upd. by rewrite list_insert_insert_eq.
  - destruct (run_list step (coefs b) (state b).[1] zs0) as [[s1 zs1]|] eqn:H1; cbn [mbind option_bind]; [|done].
    intros [= <- <-]. eexists. split; [reflexivity|]. simpl. split; [done|]. rewrite Hz.
    rewrite !at_upd by (rewrite ?zlen_upd; lia). simpl Z.eqb. cbv iota.
    destruct (run_list step (coefs b) s0 ys) as [[s2 zs2]|]; cbn [mbind option_bind]; [|done].
    rewrite run_list_app, H1. cbn [mbind option_bind].
    destruct (run_list step (coefs b) s1 zs2) as [[s3 zs3]|]; cbn [mbind option_bind]; [|done].
    do 2 f_equal. unfold set. simpl. do 3 f_equal.
    apply array_ext; [by rewrite !zlen_upd|]. rewrite !zlen_upd. intros k Hk.
    rewrite !at_upd by (rewrite ?zlen_upd; lia). by destruct (k =? 1), (k =? 0).
Qed.

Lemma filter_list_app f xs ys f1 us :
  filter_ok f → filter_list f xs = Some (f1, us) →
  filter_list f (xs ++ ys) = ('(f2, vs) ← filter_list f1 ys; Some (f2, us ++ vs)).
Proof.
  intros Hok. unfold filter_ok, filter_list in *. destruct (f_filter f) as [id|] eqn:Hid; [|done].
  destruct (f_private f) as [|b|o] eqn:Hp; [by destruct id| |].
  - assert (Hgo : ∀ step, dim2 2 5 (state b) → biquad_list step f b xs = Some (f1, us) →
      ∃ b1, f_filter f1 = Some id ∧ f_private f1 = Biquad b1 ∧
      biquad_list step f b (xs ++ ys) = ('(f2, vs) ← biquad_list step f1 b1 ys; Some (f2, us ++ vs))).
    { intros step Hd Hl. destruct (biquad_list_app step f b xs ys f1 us Hd Hl) as (b1 & -> & _ & Ha). eauto. }
    destruct id; try done; intros Hl; destruct Hok as (_ & Hd & _); destruct (Hgo _ Hd Hl) as (b1 & -> & -> & ->); done.
  - destruct id; try done. destruct (onepole_list (onepole_p1 f o) (op_p o) (op_last o) xs) as [l us'] eqn:Hl.
    intros [= <- <-]. simpl. rewrite Hid. change (onepole_p1 (f <| f_private := _ |>)) with (onepole_p1 f).
    rewrite onepole_list_app, Hl. unfold onepole_p1. simpl.
    by destruct (onepole_list _ _ l ys).
Qed.

Lemma filter_list_unit `{!FloatOk _} f xs f' ys : filter_list f xs = Some (f', ys) → Forall F_unit ys.
Proof.
  unfold filter_list.
  assert (Hbi : ∀ step b, biquad_list step f b xs = Some (f', ys) → Forall F_unit ys).
  { intros step b. unfold biquad_list. destruct (run_list _ _ _ xs) as [[s0 zs]|] eqn:H1; cbn [mbind option_bind]; [|done].
    destruct (f_cascaded f =? 0); [intros [= _ <-]; by apply run_list_unit in H1 as [_ ?]|].
    destruct (run_list _ _ _ zs) as [[s1 ws]|] eqn:H2; cbn [mbind option_bind]; [|done].
    intros [= _ <-]. by apply run_list_unit in H2 as [_ ?]. }
  destruct (f_filter f) as [[]|], (f_private f) as [|b|o]; try done; try apply Hbi.
  pose proof (onepole_list_unit (onepole_p1 f o) (op_p o) (op_last o) xs) as Hu.
  destruct (onepole_list _ _ _ _). by intros [= _ <-].
Qed.

Lemma zero_state_dim : dim2 2 5 zero_state.
Proof. exact (dim2_replicate 2 5 zero). Qed.

(** * Properties *)

(** Filtering a block of [n] samples, in any of the implementations, is
    defined, writes the filtered signal over the first [n] samples of the
    output and nothing else; every sample written lies between -1 and 1,
    infinite and NaN intermediate values included. *)
Theorem filter_run_correct `{!FloatOk _} f out in_ n :
  filter_ok f → 0 ≤ n ≤ zlen in_ → n ≤ zlen out →
  ∃ f' ys, filter_run f out in_ n = Some (f', ys ++ drop (Z.to_nat n) out) ∧
    filter_list f (take (Z.to_nat n) in_) = Some (f', ys) ∧ zlen ys = n ∧ Forall F_unit ys ∧ filter_ok f'.
Proof.
  intros Hok Hn Ho. destruct (filter_run_list f out in_ n Hok Hn Ho) as (f' & ys & Hl & Hr & Hlen & Hok' & _).
  exists f', ys. split_and!; [done|done|unfold zlen; lia|by eapply filter_list_unit|done].
Qed.

(** Filtering two consecutive blocks gives what filtering them as one block
    gives: the state carries everything over a block boundary. *)
Theorem filter_blocks f out1 in1 n1 out2 in2 n2 out f1 o1 f2 o2 :
  filter_ok f → 0 ≤ n1 ≤ zlen in1 → n1 ≤ zlen out1 → 0 ≤ n2 ≤ zlen in2 → n2 ≤ zlen out2 → n1 + n2 ≤ zlen out →
  filter_run f out1 in1 n1 = Some (f1, o1) → filter_run f1 out2 in2 n2 = Some (f2, o2) →
  filter_run f out (take (Z.to_nat n1) in1 ++ take (Z.to_nat n2) in2) (n1 + n2) =
    Some (f2, take (Z.to_nat n1) o1 ++ take (Z.to_nat n2) o2 ++ drop (Z.to_nat (n1 + n2)) out).
Proof.
  intros Hok Hn1 Ho1 Hn2 Ho2 Ho Hr1 Hr2.
  destruct (filter_run_list f out1 in1 n1 Hok Hn1 Ho1) as (g1 & ys1 & Hl1 & Hr1' & Hlen1 & Hok1 & _).
  rewrite Hr1' in Hr1. injection Hr1 as <- <-.
  destruct (filter_run_list g1 out2 in2 n2 Hok1 Hn2 Ho2) as (g2 & ys2 & Hl2 & Hr2' & Hlen2 & Hok2 & _).
  rewrite Hr2' in Hr2. injection Hr2 as <- <-.
  set (in_ := take (Z.to_nat n1) in1 ++ take (Z.to_nat n2) in2).
  assert (Hin : length in_ = Z.to_nat (n1 + n2)) by (unfold in_, zlen in *; rewrite length_app, !length_take; lia).
  destruct (filter_run_list f out in_ (n1 + n2) Hok) as (g & ys & Hl & Hr & Hlen & _); [unfold zlen; lia|lia|].
  rewrite Hr. rewrite take_ge in Hl by lia. unfold in_ in Hl.
  rewrite (filter_list_app f _ _ _ _ Hok Hl1), Hl2 in Hl. cbn [mbind option_bind] in Hl. injection Hl as <- <-.
  destruct (take_app_drop ys1 out1 _ Hlen1) as [-> _], (take_app_drop ys2 out2 _ Hlen2) as [-> _].
  by rewrite <- app_assoc.
Qed.

(** [filter_init] fails exactly for a sample rate that is not positive, a
    cutoff outside the band, a type other than low- and high-pass, or a
    cascaded one-pole filter; otherwise the filter can run. *)
Theorem filter_init_result f id :
  f_cascaded f = 0 ∨ f_cascaded f = 1 →
  let '(f', r) := filter_init f id in
  let ok := negb (bad_frequencies f) && (match f_type f with FILTER_TYPE_LOWPASS | FILTER_TYPE_HIGHPASS => true | _ => false end)
            && (match id with FILTER_ID_ONEPOLE => f_cascaded f =? 0 | _ => true end) in
  (r = if ok then 0 else -1) ∧ (ok = true → filter_ok f' ∧ f_filter f' = Some id).
Proof.
  intros Hcas. pose proof zero_state_dim as Hd.
  assert (Hbad : ∀ g, f_cutoff g = f_cutoff f → f_samplerate g = f_samplerate f → bad_frequencies g = bad_frequencies f)
    by (intros g Hc Hs; unfold bad_frequencies; by rewrite Hc, Hs).
  destruct id; unfold filter_init, biquad_init, butterworth_init, onepole_init; cbv zeta; rewrite Hbad by done; simpl;
    destruct (bad_frequencies f), (f_type f) eqn:Ht, (Z.eqb_spec (f_cascaded f) 0); simpl; rewrite ?Ht; simpl;
    (split; [done|intros ?; split; [|done]]); unfold filter_ok; simpl; try done; split_and!; try done; lia.
Qed.
End filters.

(** * Witnesses *)

(** A machine whose library functions are the constant 1/2, a one-pole filter
    and a cascaded biquad filter on it. *)
Definition half : FLOAT := F_dec (H := single_format) 1 2.
Definition half_libm : LibM := {|
  AFT_SIN := λ _, half; AFT_COS := λ _, half; AFT_TAN := λ _, half; AFT_LOG10 := λ _, half; AFT_EXP := λ _, half |}.

Definition example_request (cascaded : Z) : FilterContext :=
  mk_filter None NoContext FILTER_TYPE_HIGHPASS cascaded (F_of_Z (H := single_format) 3) (F_of_Z (H := single_format) 48000).
Definition example_onepole : FilterContext :=
  fst (filter_init (H := single_format) (H0 := half_libm) (example_request 0) FILTER_ID_ONEPOLE).
Definition example_biquad : FilterContext :=
  fst (filter_init (H := single_format) (H0 := half_libm) (example_request 1) FILTER_ID_BUTTERWORTH_II).
Definition example_input : list FLOAT := [half; F_of_Z (H := single_format) 3; S754_infinity true; S754_nan].
Definition example_output : list FLOAT := replicate 4 zero.

Lemma example_biquad_ok : filter_ok example_biquad.
Proof.
  split_and!; [reflexivity| |by right]. split; [reflexivity|]. intros i Hi.
  by destruct (decide (i = 0)) as [-> |]; [|replace i with 1 by lia].
Qed.

Lemma filter_run_correct_witness :
  ∃ f' ys, filter_run (H := single_format) example_biquad example_output example_input 4 = Some (f', ys ++ []) ∧
    zlen ys = 4 ∧ Forall (F_unit (H := single_format)) ys.
Proof.
  destruct (filter_run_correct (H := single_format) example_biquad example_output example_input 4 example_biquad_ok
    ltac:(split; vm_compute; discriminate) ltac:(vm_compute; discriminate)) as (f' & ys & Hr & _ & Hl & Hu & _).
  exists f', ys. split; [exact Hr|]. split; [exact Hl|exact Hu].
Defined.

(** The state and output of a filter run of the example, computed. *)
Definition ran (f : FilterContext) (out in_ : list FLOAT) (n : Z) : FilterContext * list FLOAT :=
  default (f, out) (filter_run (H := single_format) f out in_ n).

Lemma filter_blocks_witness :
  let r1 := ran example_onepole example_output example_input 2 in
  let r2 := ran (fst r1) example_output (drop 2 example_input) 2 in
  filter_run (H := single_format) example_onepole example_output example_input 4 =
    Some (fst r2, take 2 (snd r1) ++ take 2 (snd r2)).
Proof.
  exact (filter_blocks (H := single_format) example_onepole example_output example_input 2 example_output
    (drop 2 example_input) 2 example_output _ _ _ _ I
    ltac:(split; vm_compute; discriminate) ltac:(vm_compute; discriminate) ltac:(split; vm_compute; discriminate)
    ltac:(vm_compute; discriminate) ltac:(vm_compute; discriminate) eq_refl eq_refl).
Defined.

Lemma filter_init_result_witness :
  snd (filter_init (H := single_format) (H0 := half_libm) (example_request 1) FILTER_ID_BIQUAD_I) = 0.
Proof.
  pose proof (filter_init_result (H := single_format) (H0 := half_libm) (example_request 1) FILTER_ID_BIQUAD_I
    ltac:(right; reflexivity)) as Hr.
  destruct (filter_init (example_request 1) FILTER_ID_BIQUAD_I) as [f' r] eqn:Hf. destruct Hr as [Hr _].
  exact Hr.
Defined.
