(* ===== verification/Convert.v ===== *)
(** [libaften/convert.c]: the conversion of interleaved samples of any format
    to [FLOAT], one array per channel.  The source is a block of bytes in the
    host's byte order, as the pointer [vsrc] of the C code sees it.  The
    theorems show where every sample goes and which samples are converted
    without loss. *)
From Stdlib Require Import ZArith Lia ZifyBool Bool.
From stdpp Require Import base option list numbers.
From S2P Require Import Prelude CMachine Float FloatExact Types.
Local Open Scope Z_scope.
Local Open Scope carray_scope.

(** * Loads of machine words *)

(** The value of bytes, least significant first. *)
Fixpoint le_value (bs : list Z) : Z :=
  match bs with [] => 0 | b :: bs => b + 2 ^ 8 * le_value bs end.

(** The bytes of [v], least significant first. *)
Fixpoint le_bytes (n : nat) (v : Z) : list Z :=
  match n with O => [] | S n => u8 v :: le_bytes n (Z.shiftr v 8) end.

(** The number that the bits of an IEEE value of [mw] significand bits and
    [ew] exponent bits stand for. *)
Definition ieee_decode (mw ew x : Z) : spec_float :=
  let s := Z.testbit x (mw + ew) in
  let e := Z.shiftr x mw mod 2 ^ ew in
  let m := x mod 2 ^ mw in
  let bias := 2 ^ (ew - 1) - 1 in
  if e =? 0 then
    match m with Zpos p => S754_finite s p (1 - bias - mw) | _ => S754_zero s end
  else if e =? 2 ^ ew - 1 then (if m =? 0 then S754_infinity s else S754_nan)
  else match m + 2 ^ mw with Zpos p => S754_finite s p (e - bias - mw) | _ => S754_nan end.

Section convert.
Context `{Target} `{FloatFormat}.

(** Element [j] of an array of words of [w] bytes. *)
Definition load (w : Z) (m : list Z) (j : Z) : option Z :=
  if (0 <=? j) && ((j + 1) * w <=? zlen m) then
    let bs := slice m (j * w) w in Some (le_value (if words_bigendian then rev bs else bs))
  else None.

Definition host_bytes (w : Z) (v : Z) : list Z :=
  let bs := le_bytes (Z.to_nat w) v in if words_bigendian then rev bs else bs.

(** A [float] or [double] as a [FLOAT]. *)
Definition F_round (x : spec_float) : FLOAT :=
  match x with
  | S754_finite s m e => binary_normalize F_prec F_emax (if s then Zneg m else Zpos m) e s
  | _ => x
  end.

(** * The converters *)

(** The loops all converters share; [rd j] is the converted element [j] of the
    source, and [src_ch = src + ch]. *)
Definition convert_loop (rd : Z → option FLOAT) (dest : list (list FLOAT)) (nch n : Z) : option (list (list FLOAT)) :=
  for_up 0 nch (λ ch dest,
    dest_ch ← aget dest ch;
    '(dest_ch, _) ← for_up 0 n (λ i '(dest_ch, j),
      x ← rd (ch + j);
      dest_ch ← aset dest_ch i x;
      Some (dest_ch, j + nch)) (dest_ch, 0);
    aset dest ch dest_ch) dest.

Definition fmt_convert_from_u8 (dest : list (list FLOAT)) (src : list Z) (nch n : Z) : option (list (list FLOAT)) :=
  convert_loop (λ j, v ← load 1 src j; Some (F_div (F_sub (F_of_Z v) (F_of_Z 128)) (F_of_Z 128))) dest nch n.
Definition fmt_convert_from_s8 (dest : list (list FLOAT)) (src : list Z) (nch n : Z) : option (list (list FLOAT)) :=
  convert_loop (λ j, v ← load 1 src j; Some (F_div (F_of_Z (sext 8 v)) (F_of_Z 128))) dest nch n.
Definition fmt_convert_from_s16 (dest : list (list FLOAT)) (src : list Z) (nch n : Z) : option (list (list FLOAT)) :=
  convert_loop (λ j, v ← load 2 src j; Some (F_div (F_of_Z (i16 v)) (F_of_Z 32768))) dest nch n.
Definition fmt_convert_from_s20 (dest : list (list FLOAT)) (src : list Z) (nch n : Z) : option (list (list FLOAT)) :=
  convert_loop (λ j, v ← load 4 src j; Some (F_div (F_of_Z (i32 v)) (F_of_Z 524288))) dest nch n.
Definition fmt_convert_from_s24 (dest : list (list FLOAT)) (src : list Z) (nch n : Z) : option (list (list FLOAT)) :=
  convert_loop (λ j, v ← load 4 src j; Some (F_div (F_of_Z (i32 v)) (F_of_Z 8388608))) dest nch n.
Definition fmt_convert_from_s32 (dest : list (list FLOAT)) (src : list Z) (nch n : Z) : option (list (list FLOAT)) :=
  convert_loop (λ j, v ← load 4 src j; Some (F_div (F_of_Z (i32 v)) (F_of_Z 2147483648))) dest nch n.
Definition fmt_convert_from_float (dest : list (list FLOAT)) (src : list Z) (nch n : Z) : option (list (list FLOAT)) :=
  convert_loop (λ j, v ← load 4 src j; Some (F_round (ieee_decode 23 8 v))) dest nch n.
Definition fmt_convert_from_double (dest : list (list FLOAT)) (src : list Z) (nch n : Z) : option (list (list FLOAT)) :=
  convert_loop (λ j, v ← load 8 src j; Some (F_round (ieee_decode 52 11 v))) dest nch n.

Definition converter : Type := list (list FLOAT) → list Z → Z → Z → option (list (list FLOAT)).

(** The function pointer [fmt_convert_from_src], [None] being NULL; an unknown
    format leaves it as it is. *)
Definition set_converter (fmt_convert_from_src : option converter) (sample_format : Z) : option converter :=
  if sample_format =? A52_SAMPLE_FMT_U8 then Some fmt_convert_from_u8
  else if sample_format =? A52_SAMPLE_FMT_S8 then Some fmt_convert_from_s8
  else if sample_format =? A52_SAMPLE_FMT_S16 then Some fmt_convert_from_s16
  else if sample_format =? A52_SAMPLE_FMT_S20 then Some fmt_convert_from_s20
  else if sample_format =? A52_SAMPLE_FMT_S24 then Some fmt_convert_from_s24
  else if sample_format =? A52_SAMPLE_FMT_S32 then Some fmt_convert_from_s32
  else if sample_format =? A52_SAMPLE_FMT_FLT then Some fmt_convert_from_float
  else if sample_format =? A52_SAMPLE_FMT_DBL then Some fmt_convert_from_double
  else fmt_convert_from_src.

(** * Specification *)

(** The width of a sample in bytes, and the number a word stands for. *)
Definition sample_width (fmt : Z) : Z :=
  if (fmt =? A52_SAMPLE_FMT_U8) || (fmt =? A52_SAMPLE_FMT_S8) then 1
  else if fmt =? A52_SAMPLE_FMT_S16 then 2
  else if fmt =? A52_SAMPLE_FMT_DBL then 8 else 4.

Definition sample_of (fmt v : Z) : FLOAT :=
  if fmt =? A52_SAMPLE_FMT_U8 then F_div (F_sub (F_of_Z v) (F_of_Z 128)) (F_of_Z 128)
  else if fmt =? A52_SAMPLE_FMT_S8 then F_div (F_of_Z (sext 8 v)) (F_of_Z 128)
  else if fmt =? A52_SAMPLE_FMT_S16 then F_div (F_of_Z (i16 v)) (F_of_Z 32768)
  else if fmt =? A52_SAMPLE_FMT_S20 then F_div (F_of_Z (i32 v)) (F_of_Z 524288)
  else if fmt =? A52_SAMPLE_FMT_S24 then F_div (F_of_Z (i32 v)) (F_of_Z 8388608)
  else if fmt =? A52_SAMPLE_FMT_S32 then F_div (F_of_Z (i32 v)) (F_of_Z 2147483648)
  else if fmt =? A52_SAMPLE_FMT_FLT then F_round (ieee_decode 23 8 v)
  else F_round (ieee_decode 52 11 v).

Definition sample_at (fmt : Z) (src : list Z) (j : Z) : FLOAT :=
  sample_of fmt (default 0 (load (sample_width fmt) src j)).

Lemma load_some w m j : 0 < w → 0 ≤ j → (j + 1) * w ≤ zlen m → ∃ v, load w m j = Some v.
Proof.
  intros Hw Hj Hm. unfold load. replace ((0 <=? j) && ((j + 1) * w <=? zlen m)) with true by lia. eauto.
Qed.

Lemma convert_loop_spec rd (f : Z → FLOAT) dest nch n :
  dim2 6 1536 dest → 0 ≤ nch ≤ 6 → 0 ≤ n ≤ 1536 →
  (∀ j, 0 ≤ j < nch * n → rd j = Some (f j)) →
  wp (convert_loop rd dest nch n) (λ d, dim2 6 1536 d ∧ ∀ ch i, 0 ≤ ch < 6 → 0 ≤ i < 1536 →
    d.[ch].[i] = if (ch <? nch) && (i <? n) then f (i * nch + ch) else dest.[ch].[i]).
Proof.
  intros Hd Hnch Hn Hrd. unfold convert_loop.
  apply (wp_for_up (λ c d, dim2 6 1536 d ∧ ∀ ch i, 0 ≤ ch < 6 → 0 ≤ i < 1536 →
    d.[ch].[i] = if (ch <? c) && (i <? n) then f (i * nch + ch) else dest.[ch].[i])); [lia| | |done].
  - split; [done|]. intros ch i Hch Hi. by replace (ch <? 0) with false by lia.
  - intros c d Hc [Hdd Hat]. pose proof (proj1 Hdd) as Hl. pose proof (dim2_row _ _ _ c Hdd ltac:(lia)) as Hrow.
    wp_step. wp_step. wp_step.
    apply (wp_for_up (λ i '(row, j), j = i * nch ∧ zlen row = 1536 ∧ ∀ k, 0 ≤ k < 1536 →
      row.[k] = if k <? i then f (k * nch + c) else dest.[c].[k])); [lia| | |].
    + split; [lia|]. split; [done|]. intros k Hk. replace (k <? 0) with false by lia. rewrite Hat by lia.
      by replace (c <? c) with false by lia.
    + intros i [row j] Hi (-> & Hlr & Hr). rewrite (Hrd (c + i * nch)) by nia. wp_steps.
      split; [lia|]. split; [by rewrite zlen_upd|]. intros k Hk. rewrite at_upd by lia. rewrite Hr by done.
      destruct (Z.eqb_spec k i) as [-> |Hne].
      * replace (i <? i + 1) with true by lia. f_equal. lia.
      * by replace (k <? i + 1) with (k <? i) by lia.
    + intros [row j] (_ & Hlr & Hr). wp_steps. split; [by apply dim2_upd; [|lia|]|].
      intros ch i Hch Hi. rewrite at_upd by lia. destruct (Z.eqb_spec ch c) as [-> |Hne].
      * replace (c <? c + 1) with true by lia. by rewrite Hr.
      * rewrite Hat by done. by replace (ch <? c + 1) with (ch <? c) by lia.
Qed.

(** Every known format has a converter, which is the loop over its samples. *)
Lemma set_converter_loop old fmt :
  0 ≤ fmt ≤ 7 → ∃ f, set_converter old fmt = Some f ∧
    ∀ dest src nch n, f dest src nch n = convert_loop (λ j, v ← load (sample_width fmt) src j; Some (sample_of fmt v)) dest nch n.
Proof.
  intros Hf. assert (fmt = 0 ∨ fmt = 1 ∨ fmt = 2 ∨ fmt = 3 ∨ fmt = 4 ∨ fmt = 5 ∨ fmt = 6 ∨ fmt = 7)
    as [->|[->|[->|[->|[->|[->|[->| ->]]]]]]] by lia; by eexists.
Qed.

Lemma converter_spec old fmt dest src nch n :
  0 ≤ fmt ≤ 7 → dim2 6 1536 dest → 0 ≤ nch ≤ 6 → 0 ≤ n ≤ 1536 → nch * n * sample_width fmt ≤ zlen src →
  ∃ f, set_converter old fmt = Some f ∧
  wp (f dest src nch n) (λ d, dim2 6 1536 d ∧ ∀ ch i, 0 ≤ ch < 6 → 0 ≤ i < 1536 →
    d.[ch].[i] = if (ch <? nch) && (i <? n) then sample_at fmt src (i * nch + ch) else dest.[ch].[i]).
Proof.
  intros Hf Hd Hnch Hn Hsrc. destruct (set_converter_loop old fmt Hf) as (f & Hset & Hloop).
  exists f. split; [done|]. rewrite Hloop. apply convert_loop_spec; [done|done|done|].
  intros j Hj. assert (Hw : 0 < sample_width fmt).
  { unfold sample_width. by destruct (_ || _), (fmt =? A52_SAMPLE_FMT_S16), (fmt =? A52_SAMPLE_FMT_DBL). }
  unfold sample_at. destruct (load_some (sample_width fmt) src j Hw ltac:(lia) ltac:(nia)) as [v ->]. done.
Qed.

(** * Bytes and words *)

Lemma le_value_bytes n v : 0 ≤ v < 2 ^ (8 * Z.of_nat n) → le_value (le_bytes n v) = v.
Proof.
  revert v. induction n as [|n IH]; intros v Hv; simpl; [simpl in Hv; lia|].
  rewrite IH.
  - unfold u8. rewrite Z.shiftr_div_pow2 by lia. pose proof (Z.div_mod v (2 ^ 8)). lia.
  - rewrite Z.shiftr_div_pow2 by lia. replace (8 * Z.of_nat (S n)) with (8 + 8 * Z.of_nat n) in Hv by lia.
    rewrite Z.pow_add_r in Hv by lia. split; [apply Z.div_pos; lia|]. apply Z.div_lt_upper_bound; lia.
Qed.

Lemma length_le_bytes n v : length (le_bytes n v) = n.
Proof. revert v. induction n as [|n IH]; intros v; simpl; [done|]. by rewrite IH. Qed.

Lemma le_bytes_mod n v : le_bytes n (v mod 2 ^ (8 * Z.of_nat n)) = le_bytes n v.
Proof.
  revert v. induction n as [|n IH]; intros v; [done|]. cbn [le_bytes].
  replace (8 * Z.of_nat (S n)) with (8 + 8 * Z.of_nat n) by lia. f_equal.
  - unfold u8. bits_eq.
  - rewrite <- (IH (Z.shiftr v 8)), <- (IH (Z.shiftr _ 8)). f_equal. bits_eq.
Qed.

Lemma host_bytes_len w v : 0 ≤ w → zlen (host_bytes w v) = w.
Proof.
  intros Hw. unfold host_bytes, zlen. destruct words_bigendian; rewrite ?length_rev, length_le_bytes; lia.
Qed.

Lemma zlen_concat w (vs : list Z) : 0 ≤ w → zlen (concat (map (host_bytes w) vs)) = w * zlen vs.
Proof.
  intros Hw. induction vs as [|v vs IH]; [by rewrite Z.mul_0_r|]. simpl.
  rewrite zlen_app, zlen_cons, host_bytes_len, IH by done. lia.
Qed.

(** An array of words in memory is loaded as it was stored. *)
Lemma load_stored w (vs : list Z) j :
  0 < w → 0 ≤ j < zlen vs → load w (concat (map (host_bytes w) vs)) j = Some (vs.[j] mod 2 ^ (8 * w)).
Proof.
  intros Hw Hj. unfold load. rewrite zlen_concat by lia.
  replace ((0 <=? j) && ((j + 1) * w <=? w * zlen vs)) with true by (unfold zlen in *; nia). f_equal.
  assert (Hsl : slice (concat (map (host_bytes w) vs)) (j * w) w = host_bytes w vs.[j]).
  { assert (Hx : ∃ x, vs !! Z.to_nat j = Some x) by (apply lookup_lt_is_Some; unfold zlen in *; lia).
    destruct Hx as [x Hx]. unfold at_. rewrite (list_lookup_total_correct _ _ _ Hx).
    rewrite <- (take_drop_middle _ _ _ Hx), map_app, concat_app. simpl.
    apply slice_mid; [|apply host_bytes_len; lia]. rewrite zlen_concat by lia. unfold zlen in *. rewrite length_take. lia. }
  rewrite Hsl. unfold host_bytes. assert (Hm : le_value (le_bytes (Z.to_nat w) vs.[j]) = vs.[j] mod 2 ^ (8 * w)).
  { rewrite <- le_bytes_mod. rewrite Z2Nat.id by lia. apply le_value_bytes. rewrite Z2Nat.id by lia.
    apply Z.mod_pos_bound. apply Z.pow_pos_nonneg; lia. }
  destruct words_bigendian; [by rewrite rev_involutive|done].
Qed.
End convert.

(** * Exactness *)

(** The integer formats: the full scale, as a power of two, and the integer a
    word stands for. *)
Definition scale_bits (fmt : Z) : Z :=
  if fmt =? A52_SAMPLE_FMT_S16 then 15 else if fmt =? A52_SAMPLE_FMT_S20 then 19
  else if fmt =? A52_SAMPLE_FMT_S24 then 23 else if fmt =? A52_SAMPLE_FMT_S32 then 31 else 7.
Definition sample_int (fmt v : Z) : Z :=
  if fmt =? A52_SAMPLE_FMT_U8 then v - 128 else if fmt =? A52_SAMPLE_FMT_S8 then sext 8 v
  else if fmt =? A52_SAMPLE_FMT_S16 then i16 v else i32 v.

Definition number_eqb (x y : FLOAT) : bool :=
  match x, y with
  | S754_zero s, S754_zero s' => Bool.eqb s s'
  | S754_finite s m e, S754_finite s' m' e' => Bool.eqb s s' && Pos.eqb m m' && (e =? e')
  | _, _ => false
  end.

Lemma number_eqb_eq x y : number_eqb x y = true → x = y.
Proof.
  destruct x as [s|s| |s m e], y as [s'|s'| |s' m' e']; try done; simpl.
  - by intros ->%eqb_prop.
  - intros [[Hs Hm]%andb_true_iff He]%andb_true_iff. apply eqb_prop in Hs as ->. apply Pos.eqb_eq in Hm as ->.
    by apply Z.eqb_eq in He as ->.
Qed.

Lemma u8_centered `{!FloatOk F} v : 0 ≤ v < 256 → F_sub (F_of_Z v) (F_of_Z 128) = F_of_Z (v - 128).
Proof.
  intros Hv. apply number_eqb_eq. destruct FloatOk0 as [-> | ->].
  - by table_check (λ v, number_eqb (@F_sub single_format (@F_of_Z single_format v) (@F_of_Z single_format 128))
      (@F_of_Z single_format (v - 128))) 256 Hv.
  - by table_check (λ v, number_eqb (@F_sub double_format (@F_of_Z double_format v) (@F_of_Z double_format 128))
      (@F_of_Z double_format (v - 128))) 256 Hv.
Qed.

(** The converted word is the integer over the full scale. *)
Lemma sample_of_int `{!FloatOk F} fmt v :
  0 ≤ fmt ≤ 7 → fmt ≠ A52_SAMPLE_FMT_FLT → fmt ≠ A52_SAMPLE_FMT_DBL → 0 ≤ v < 2 ^ (8 * sample_width fmt) →
  sample_of fmt v = F_div (F_of_Z (sample_int fmt v)) (F_of_Z (2 ^ scale_bits fmt)).
Proof.
  unfold A52_SAMPLE_FMT_FLT, A52_SAMPLE_FMT_DBL. intros Hf H5 H6 Hv.
  assert (fmt = 0 ∨ fmt = 1 ∨ fmt = 2 ∨ fmt = 3 ∨ fmt = 4 ∨ fmt = 7) as [->|[->|[->|[->|[->| ->]]]]] by lia; try done.
  change (2 ^ (8 * sample_width 0)) with 256 in Hv.
  change (sample_of 0 v) with (F_div (F_sub (F_of_Z v) (F_of_Z 128)) (F_of_Z 128)). by rewrite u8_centered.
Qed.

(** * Properties *)

(** Converting [n] samples of each of [nch] channels from any known format,
    of a source that holds them, is defined: sample [i] of channel [ch] is the
    converted element [i * nch + ch] of the source, and all other elements of
    the destination stay. *)
Theorem convert_deinterleaves `{Target} `{FloatFormat} old fmt dest src nch n :
  0 ≤ fmt ≤ 7 → dim2 6 1536 dest → 0 ≤ nch ≤ 6 → 0 ≤ n ≤ 1536 → nch * n * sample_width fmt ≤ zlen src →
  ∃ f d, set_converter old fmt = Some f ∧ f dest src nch n = Some d ∧ dim2 6 1536 d ∧
    ∀ ch i, 0 ≤ ch < 6 → 0 ≤ i < 1536 →
      d.[ch].[i] = if (ch <? nch) && (i <? n) then sample_at fmt src (i * nch + ch) else dest.[ch].[i].
Proof.
  intros Hf Hd Hnch Hn Hsrc. destruct (converter_spec old fmt dest src nch n Hf Hd Hnch Hn Hsrc) as (f & Hset & Hw).
  apply wp_some in Hw as (d & Hr & Hdd & Hat). by exists f, d.
Qed.

(** C37: Interleaved integer samples in the range of their format, stored in
    memory in the host's byte order, are converted without loss when the
    significand holds them (always but for 32 bits in single precision): each
    lies between -1 and 1, and scaling it up gives the integer back. *)
Theorem conversion_exact `{Target} F `{!FloatOk F} fmt dest vs nch n :
  0 ≤ fmt ≤ 7 → fmt ≠ A52_SAMPLE_FMT_FLT → fmt ≠ A52_SAMPLE_FMT_DBL → scale_bits fmt < F_prec →
  dim2 6 1536 dest → 1 ≤ nch ≤ 6 → 0 ≤ n ≤ 1536 → zlen vs = nch * n →
  let w := sample_width fmt in
  let int j := sample_int fmt (vs.[j] mod 2 ^ (8 * w)) in
  (∀ j, 0 ≤ j < nch * n → Z.abs (int j) ≤ 2 ^ scale_bits fmt) →
  ∃ f d, set_converter None fmt = Some f ∧ f dest (concat (map (host_bytes w) vs)) nch n = Some d ∧
    ∀ ch i, 0 ≤ ch < nch → 0 ≤ i < n →
      F_trunc (F_mul d.[ch].[i] (F_of_Z (2 ^ scale_bits fmt))) = Some (int (i * nch + ch)) ∧ F_unit d.[ch].[i].
Proof.
  intros Hf H5 H6 Hprec Hd Hnch Hn Hvs w int Hint.
  assert (Hw : 0 < w ∧ 0 ≤ scale_bits fmt).
  { unfold w. assert (fmt = 0 ∨ fmt = 1 ∨ fmt = 2 ∨ fmt = 3 ∨ fmt = 4 ∨ fmt = 5 ∨ fmt = 6 ∨ fmt = 7)
      as [->|[->|[->|[->|[->|[->|[->| ->]]]]]]] by lia; by vm_compute. }
  destruct (converter_spec None fmt dest (concat (map (host_bytes w) vs)) nch n) as (f & Hset & Hr);
    [lia|done|lia|done|rewrite zlen_concat by lia; fold w; lia|].
  apply wp_some in Hr as (d & Hr & _ & Hat). exists f, d. split; [done|]. split; [done|]. intros ch i Hch Hi.
  rewrite Hat by lia. replace ((ch <? nch) && (i <? n)) with true by lia.
  assert (Hj : 0 ≤ i * nch + ch < nch * n) by nia. specialize (Hint _ Hj).
  unfold sample_at. fold w. rewrite load_stored by lia. simpl default.
  rewrite sample_of_int by (try done; apply Z.mod_pos_bound, Z.pow_pos_nonneg; lia). fold (int (i * nch + ch)).
  destruct (scale_exact _ _ Hint (conj (proj2 Hw) Hprec)) as [Hback Hu]. rewrite Hback. split; [|done].
  apply F_trunc_of_Z. pose proof (Z.pow_lt_mono_r 2 (scale_bits fmt) F_prec). lia.
Qed.

(** Two stereo frames of 16-bit samples. *)
Definition example_words : list Z := [1; -32768; 32767; -2].
Definition example_dest : list (list FLOAT) := replicate 6 (replicate 1536 zero_float).

Lemma convert_deinterleaves_witness :
  ∃ f d, set_converter (H := {| words_bigendian := false |}) (H0 := single_format) None A52_SAMPLE_FMT_S24 = Some f ∧
    f example_dest (replicate 16 255) 2 2 = Some d ∧ dim2 6 1536 d.
Proof.
  destruct (convert_deinterleaves (H := {| words_bigendian := false |}) (H0 := single_format) None A52_SAMPLE_FMT_S24
    example_dest (replicate 16 255) 2 2 ltac:(split; vm_compute; discriminate) (dim2_replicate 6 1536 zero_float)
    ltac:(lia) ltac:(lia) ltac:(vm_compute; discriminate)) as (f & d & Hf & Hd & Hdim & _).
  exists f, d. split; [exact Hf|]. split; [exact Hd|exact Hdim].
Defined.

Lemma conversion_exact_witness :
  ∃ f d, set_converter (H := {| words_bigendian := true |}) (H0 := double_format) None A52_SAMPLE_FMT_S16 = Some f ∧
    f example_dest (concat (map (host_bytes (H := {| words_bigendian := true |}) 2) example_words)) 2 2 = Some d ∧
    F_trunc (F_mul (H := double_format) d.[1].[0] (F_of_Z (H := double_format) 32768)) = Some (-32768).
Proof.
  assert (Hr : ∀ j, 0 ≤ j < 2 * 2 → Z.abs (sample_int 1 (example_words.[j] mod 2 ^ (8 * 2))) ≤ 2 ^ 15).
  { intros j Hj. assert (j = 0 ∨ j = 1 ∨ j = 2 ∨ j = 3) as [->|[->|[->| ->]]] by lia; vm_compute; discriminate. }
  destruct (conversion_exact (H := {| words_bigendian := true |}) double_format A52_SAMPLE_FMT_S16
    example_dest example_words 2 2 ltac:(split; vm_compute; discriminate) ltac:(discriminate) ltac:(discriminate)
    ltac:(reflexivity) (dim2_replicate 6 1536 zero_float)
    ltac:(lia) ltac:(lia) ltac:(reflexivity) Hr) as (f & d & Hf & Hd & Hat).
  exists f, d. split; [exact Hf|]. split; [exact Hd|]. exact (proj1 (Hat 1 0 ltac:(lia) ltac:(lia))).
Defined.
