(* ===== verification/Dynrng.v ===== *)
(** [libaften/dynrng.c]: the dynamic range control words.  The gain for a block
    follows the loudness of the left and right channels along a profile, is
    limited so that nothing clips, and is coded in 8 bits.  The theorems show
    that the code is the largest one whose gain does not exceed the wanted one,
    that coding the gain of a code gives the code back, and that the word of a
    block is defined and limited by its peak. *)
From Stdlib Require Import ZArith Lia ZifyBool Bool.
From stdpp Require Import base option list numbers.
From S2P Require Import Prelude CMachine Float FloatExact Types Util.
Local Open Scope Z_scope.
Local Open Scope carray_scope.

(** * Profiles *)

Record DRCProfile := mk_profile {
  boost_start : Z;
  null_start : Z;
  early_cut_start : Z;
  cut_start : Z;
  cut_end : Z;
  boost_ratio : FLOAT;
  early_cut_ratio : FLOAT;
  cut_ratio : FLOAT
}.
#[global] Instance profile_inhabited : Inhabited DRCProfile :=
  populate (mk_profile 0 0 0 0 0 zero_float zero_float zero_float).

Section dynrng.
Context `{FloatFormat}.

Definition drc_profiles : list DRCProfile := [
  mk_profile (-22) (-10) 10 20 35 (F_dec 1 2) (F_dec 1 2) (F_dec 1 20);
  mk_profile (-12)    0  5 15 35 (F_dec 1 2) (F_dec 1 2) (F_dec 1 20);
  mk_profile (-34) (-10) 10 10 40 (F_dec 1 2) (F_dec 1 2) (F_dec 1 2);
  mk_profile (-24)    0  5 15 35 (F_dec 1 2) (F_dec 1 2) (F_dec 1 20);
  mk_profile (-19)    0  5 15 35 (F_dec 1 5) (F_dec 1 2) (F_dec 1 20)
].

(** * Codes *)

Definition scale_to_dynrng (scale : FLOAT) : option Z :=
  scale512 ← F_to_int (F_mul (AFT_FABS scale) (F_of_Z 512));
  let scale512 := CLIP scale512 32 8064 in
  l ← log2i scale512;
  let logscale := l - 5 in
  Some (Z.shiftl (Z.land (logscale + 4) 7) 5 + Z.shiftr (scale512 - Z.shiftl 1 (logscale + 5)) logscale).

(** * Gains *)

Definition calculate_gain_from_profile (rms : FLOAT) (dialnorm profile : Z) : option FLOAT :=
  ps ← aget drc_profiles profile;
  let b := boost_start ps + dialnorm in
  let nl := null_start ps + dialnorm in
  let e := early_cut_start ps + dialnorm in
  let c := cut_start ps + dialnorm in
  let ce := cut_end ps + dialnorm in
  let max_ecut := F_add (F_of_Z e) (F_mul (F_of_Z (c - e)) (early_cut_ratio ps)) in
  Some (
    if F_le rms (F_of_Z b) then F_mul (F_of_Z (nl - b)) (boost_ratio ps)
    else if F_le rms (F_of_Z nl) then F_mul (F_sub (F_of_Z nl) rms) (boost_ratio ps)
    else if F_le rms (F_of_Z e) then F_of_Z 0
    else if F_le rms (F_of_Z c) then
      let target := F_add (F_of_Z e) (F_mul (F_sub rms (F_of_Z e)) (early_cut_ratio ps)) in F_sub target rms
    else if F_le rms (F_of_Z ce) then
      let target := F_add max_ecut (F_mul (F_sub rms (F_of_Z c)) (cut_ratio ps)) in F_sub target rms
    else
      let target := F_add max_ecut (F_mul (F_of_Z (ce - c)) (cut_ratio ps)) in F_sub target rms).

Context `{LibM}.

Definition DB_TO_SCALE (db : FLOAT) : FLOAT := AFT_EXP (F_mul (F_mul db (F_dec 1 20)) AFT_LN10).
Definition SCALE_TO_DB (scale : FLOAT) : FLOAT := F_mul (F_of_Z 20) (AFT_LOG10 scale).

Definition calculate_rms (samples : list (list FLOAT)) (ch n : Z) : option FLOAT :=
  rms_all ← (if ch =? 1 then
      s0 ← aget samples 0;
      rms_all ← for_up 0 n (λ i rms_all, x ← aget s0 i; Some (F_add rms_all (F_mul x x))) zero_float;
      Some (F_div rms_all (F_of_Z n))
    else
      s0 ← aget samples 0;
      s1 ← aget samples 1;
      '(rms_left, rms_right) ← for_up 0 n (λ i '(rms_left, rms_right),
        x ← aget s0 i; y ← aget s1 i;
        Some (F_add rms_left (F_mul x x), F_add rms_right (F_mul y y))) (zero_float, zero_float);
      Some (F_div (F_add rms_left rms_right) (F_mul (F_of_Z 2) (F_of_Z n))));
  Some (F_mul (F_of_Z 10) (AFT_LOG10 (F_add rms_all (F_dec 1 (10 ^ 10))))).

(** The greatest magnitude of 256 samples of each channel. *)
Definition peak (samples : list (list FLOAT)) (num_ch : Z) : option FLOAT :=
  for_up 0 num_ch (λ ch max_gain,
    s ← aget samples ch;
    for_up 0 256 (λ i max_gain, x ← aget s i; Some (F_MAX (AFT_FABS x) max_gain)) max_gain) zero_float.

Definition calculate_block_dynrng (samples : list (list FLOAT)) (num_ch dialnorm profile : Z) : option Z :=
  if profile =? DYNRNG_PROFILE_NONE then Some 0 else
  max_gain ← peak samples num_ch;
  let max_gain := SCALE_TO_DB (F_div F_1 max_gain) in
  rms ← calculate_rms samples num_ch 256;
  gain ← calculate_gain_from_profile rms dialnorm profile;
  let gain := F_MIN gain max_gain in
  scale_to_dynrng (DB_TO_SCALE gain).

(** * Specification *)

(** The gain a decoder applies for a code, in units of 1/512: the upper three
    bits are a signed exponent of two, the lower five the fraction. *)
Definition code_scale512 (code : Z) : Z :=
  (32 + Z.land code 31) * 2 ^ (sext 3 (Z.shiftr code 5) + 4).

Lemma code_of_scale512 s :
  32 ≤ s ≤ 8064 →
  let logscale := Z.log2 s - 5 in
  let code := Z.shiftl (Z.land (logscale + 4) 7) 5 + Z.shiftr (s - Z.shiftl 1 (logscale + 5)) logscale in
  0 ≤ code < 256 ∧ code_scale512 code ≤ s < code_scale512 code + 2 ^ logscale ∧ 2 ^ Z.log2 s ≤ code_scale512 code.
Proof.
  intros Hs. assert (Hl : ∃ k, Z.log2 s = 5 + k ∧ (k = 0 ∨ k = 1 ∨ k = 2 ∨ k = 3 ∨ k = 4 ∨ k = 5 ∨ k = 6 ∨ k = 7) ∧
    2 ^ (5 + k) ≤ s < 2 ^ (6 + k)).
  { pose proof (Z.log2_spec s ltac:(lia)) as Hsp. pose proof (Z.log2_le_mono 32 s ltac:(lia)) as Hlo.
    pose proof (Z.log2_le_mono s 8064 ltac:(lia)) as Hhi. change (Z.log2 32) with 5 in Hlo. change (Z.log2 8064) with 12 in Hhi.
    exists (Z.log2 s - 5). split; [lia|]. split; [lia|].
    replace (5 + (Z.log2 s - 5)) with (Z.log2 s) by lia. by replace (6 + (Z.log2 s - 5)) with (Z.succ (Z.log2 s)) by lia. }
  destruct Hl as (k & -> & Hk & Hb). replace (5 + k - 5) with k by lia. cbv zeta.
  assert (Hy : 0 ≤ Z.shiftr (s - Z.shiftl 1 (k + 5)) k < 32 ∧
    (32 + Z.shiftr (s - Z.shiftl 1 (k + 5)) k) * 2 ^ k ≤ s < (32 + Z.shiftr (s - Z.shiftl 1 (k + 5)) k) * 2 ^ k + 2 ^ k ∧
    2 ^ (5 + k) ≤ (32 + Z.shiftr (s - Z.shiftl 1 (k + 5)) k) * 2 ^ k).
  { rewrite Z.shiftr_div_pow2, Z.shiftl_1_l by lia. replace (k + 5) with (5 + k) by lia.
    pose proof (Z.pow_pos_nonneg 2 k ltac:(lia) ltac:(lia)) as Hp. rewrite !Z.pow_add_r in * by lia.
    change (2 ^ 5) with 32 in *. change (2 ^ 6) with 64 in *.
    pose proof (Z.div_mod (s - 32 * 2 ^ k) (2 ^ k) ltac:(lia)) as Hdm.
    pose proof (Z.mod_pos_bound (s - 32 * 2 ^ k) (2 ^ k) Hp).
    assert (0 ≤ (s - 32 * 2 ^ k) / 2 ^ k < 32) by (split; [apply Z.div_pos; lia|apply Z.div_lt_upper_bound; lia]).
    split; [lia|]. split; nia. }
  destruct Hy as [Hy Hsy]. set (y := Z.shiftr _ k) in *. clearbody y.
  assert (Hcode : ∀ t, 0 ≤ t < 8 → Z.land (t * 32 + y) 31 = y ∧ Z.shiftr (t * 32 + y) 5 = t).
  { intros t Ht. change 31 with (Z.ones 5). rewrite Z.land_ones, Z.shiftr_div_pow2 by lia. change (2 ^ 5) with 32.
    split; [symmetry; apply (Z.mod_unique_pos _ _ t)|symmetry; apply (Z.div_unique_pos _ _ _ y)]; lia. }
  rewrite Z.shiftl_mul_pow2 by lia. change (2 ^ 5) with 32 in *. unfold code_scale512.
  destruct Hk as [->|[->|[->|[->|[->|[->|[->| ->]]]]]]];
    match goal with |- context [Z.land (?a + 4) 7] => let t := eval vm_compute in (Z.land (a + 4) 7) in
      change (Z.land (a + 4) 7) with t; destruct (Hcode t ltac:(lia)) as [-> ->]; 
      let x := eval vm_compute in (sext 3 t) in change (sext 3 t) with x end;
    (split; [lia|exact Hsy]).
Qed.

(** Different codes have different gains. *)
Lemma code_scale512_inj c d : 0 ≤ c < 256 → 0 ≤ d < 256 → code_scale512 c = code_scale512 d → c = d.
Proof.
  set (inv s := let l := Z.log2 s - 5 in Z.shiftl (Z.land (l + 4) 7) 5 + (Z.shiftr s l - 32)).
  assert (Hinv : ∀ c, 0 ≤ c < 256 → inv (code_scale512 c) = c).
  { intros e He. table_check (λ e, inv (code_scale512 e) =? e) 256 He. lia. }
  intros Hc Hd Heq. by rewrite <- (Hinv c Hc), Heq, Hinv.
Qed.

Lemma code_scale512_range c : 0 ≤ c < 256 → 32 ≤ code_scale512 c ≤ 8064.
Proof. intros Hc. table_check (λ c, (32 <=? code_scale512 c) && (code_scale512 c <=? 8064)) 256 Hc. lia. Qed.
(** Neighbouring gains are a step of their octave apart. *)
Lemma code_scale512_gap c d :
  0 ≤ c < 256 → 0 ≤ d < 256 → code_scale512 c < code_scale512 d →
  code_scale512 c + 2 ^ (Z.log2 (code_scale512 c) - 5) ≤ code_scale512 d.
Proof.
  assert (Hdiv : ∀ e, 0 ≤ e < 256 → 5 ≤ Z.log2 (code_scale512 e) ∧ (2 ^ (Z.log2 (code_scale512 e) - 5) | code_scale512 e)).
  { intros e He. table_check (λ e, let s := code_scale512 e in (5 <=? Z.log2 s) && (s mod 2 ^ (Z.log2 s - 5) =? 0)) 256 He.
    cbv zeta in He. apply andb_true_iff in He as [H5%Z.leb_le Hm%Z.eqb_eq]. split; [done|].
    apply Z.mod_divide; [apply Z.pow_nonzero; lia|done]. }
  intros Hc Hd Hlt. destruct (Hdiv c Hc) as [H5 [p Hp]], (Hdiv d Hd) as [_ [q Hq]].
  pose proof (Z.log2_le_mono (code_scale512 c) (code_scale512 d) ltac:(lia)) as Hle.
  replace (Z.log2 (code_scale512 d) - 5) with (Z.log2 (code_scale512 d) - Z.log2 (code_scale512 c) + (Z.log2 (code_scale512 c) - 5))
    in Hq by lia.
  rewrite Z.pow_add_r in Hq by lia. set (g := 2 ^ (Z.log2 (code_scale512 c) - 5)) in *.
  assert (0 < g) by (apply Z.pow_pos_nonneg; lia). rewrite Z.mul_assoc in Hq. set (q' := q * _) in Hq. clearbody g q'.
  rewrite Hp, Hq in *. assert (p < q') by nia. nia.
Qed.

(** The code of a scale is the greatest that does not exceed it. *)
Lemma scale_to_dynrng_spec scale z :
  F_to_int (F_mul (AFT_FABS scale) (F_of_Z 512)) = Some z →
  ∃ code, scale_to_dynrng scale = Some code ∧ 0 ≤ code < 256 ∧
    let s := Z.max 32 (Z.min z 8064) in
    code_scale512 code ≤ s ∧ ∀ d, 0 ≤ d < 256 → code_scale512 d ≤ s → code_scale512 d ≤ code_scale512 code.
Proof.
  intros Hz. unfold scale_to_dynrng. rewrite Hz. cbn [mbind option_bind]. rewrite CLIP_clip.
  replace (Z.max (Z.min z 8064) 32) with (Z.max 32 (Z.min z 8064)) by lia.
  set (s := Z.max 32 (Z.min z 8064)). assert (Hs : 32 ≤ s ≤ 8064) by lia.
  rewrite log2i_spec by lia. cbn [mbind option_bind].
  destruct (code_of_scale512 s Hs) as (Hc & Hb & Hl). eexists. split; [reflexivity|]. split; [exact Hc|]. cbv zeta in *.
  set (code := Z.shiftl _ 5 + _) in *. split; [lia|]. intros d Hd Hds.
  destruct (Z.le_gt_cases (code_scale512 d) (code_scale512 code)) as [|Hgt]; [done|].
  pose proof (code_scale512_gap code d Hc Hd ltac:(lia)) as Hgap.
  replace (Z.log2 (code_scale512 code)) with (Z.log2 s) in Hgap; [lia|]. symmetry. apply Z.log2_unique; [apply Z.log2_nonneg|].
  pose proof (Z.log2_spec s ltac:(lia)). lia.
Qed.

(** * Loudness *)

(** Room for 256 samples of the channels that are looked at. *)
Definition samples_ok (samples : list (list FLOAT)) (num_ch : Z) : Prop :=
  num_ch ≤ zlen samples ∧ ∀ ch, 0 ≤ ch < num_ch → 256 ≤ zlen samples.[ch].

Definition is_nan (x : FLOAT) : bool := match x with S754_nan => true | _ => false end.

Lemma F_le_refl x : is_nan x = false → F_le x x = true.
Proof.
  destruct x as [s|s| |s m e]; try done; intros _; unfold F_le, SFleb, SFcompare; destruct s; try done;
    rewrite Z.compare_refl; change (Pos.compare_cont Eq m m) with (Pos.compare m m); by rewrite Pos.compare_refl.
Qed.

Lemma F_le_total x y : is_nan x = false → is_nan y = false → F_lt x y = false → F_le y x = true.
Proof.
  intros Hx Hy. unfold F_lt, F_le, SFltb, SFleb. rewrite (SFcompare_swap x y).
  destruct (SFcompare x y) as [[]|] eqn:Hc; try done. by destruct x as [|[]| |[]], y as [|[]| |[]].
Qed.

Lemma F_le_trans x y z : F_le x y = true → F_le y z = true → F_le x z = true.
Proof.
  unfold F_le, SFleb.
  destruct x as [sx|sx| |sx mx ex], y as [sy|sy| |sy my ey], z as [sz|sz| |sz mz ez]; try done;
    try (by destruct sx, sy, sz); try (by destruct sx, sy); try (by destruct sy, sz); try (by destruct sx, sz);
    try (by destruct sx); try (by destruct sy); try (by destruct sz).
  unfold SFcompare. change (Pos.compare_cont Eq ?a ?b) with (Pos.compare a b).
  destruct sx, sy, sz; try done;
    destruct (Z.compare_spec ex ey), (Z.compare_spec ey ez), (Z.compare_spec ex ez); try done; try lia;
    destruct (Pos.compare_spec mx my), (Pos.compare_spec my mz), (Pos.compare_spec mx mz); try done; lia.
Qed.

(** A magnitude no smaller than those of a sample and of the rest. *)
Lemma F_MAX_abs x m :
  is_nan m = false → is_nan (F_MAX (AFT_FABS x) m) = false ∧ F_le m (F_MAX (AFT_FABS x) m) = true ∧
  (is_nan x = false → F_le (AFT_FABS x) (F_MAX (AFT_FABS x) m) = true).
Proof.
  intros Hm. unfold F_MAX. destruct (F_lt m (AFT_FABS x)) eqn:Hlt.
  - assert (Hx : is_nan (AFT_FABS x) = false) by (destruct x; try done; by destruct m).
    split; [done|]. split; [by apply F_lt_le|]. intros _. by apply F_le_refl.
  - split; [done|]. split; [by apply F_le_refl|]. intros Hx. apply F_le_total; [done| |done]. by destruct x.
Qed.

Lemma peak_spec samples num_ch :
  samples_ok samples num_ch → 0 ≤ num_ch →
  wp (peak samples num_ch) (λ p, is_nan p = false ∧ ∀ ch i, 0 ≤ ch < num_ch → 0 ≤ i < 256 →
    is_nan samples.[ch].[i] = false → F_le (AFT_FABS samples.[ch].[i]) p = true).
Proof.
  intros [Hl Hs] Hn. unfold peak.
  apply (wp_for_up (λ c p, is_nan p = false ∧ ∀ ch i, 0 ≤ ch < c → 0 ≤ i < 256 →
    is_nan samples.[ch].[i] = false → F_le (AFT_FABS samples.[ch].[i]) p = true)); [lia|split; [done|lia]| |done].
  intros c p Hc [Hp Hat]. specialize (Hs c Hc). wp_steps.
  apply (wp_for_up (λ k q, is_nan q = false ∧ F_le p q = true ∧ ∀ i, 0 ≤ i < k →
    is_nan samples.[c].[i] = false → F_le (AFT_FABS samples.[c].[i]) q = true)).
  - lia.
  - split; [done|]. split; [by apply F_le_refl|lia].
  - intros k q Hk (Hq & Hpq & Hqat). wp_steps. destruct (F_MAX_abs samples.[c].[k] q Hq) as (Hn1 & Hle & Hx).
    split; [done|]. split; [by apply (F_le_trans _ q)|]. intros i Hi Hni.
    destruct (Z.eq_dec i k) as [-> |]; [by apply Hx|]. apply (F_le_trans _ q); [|done]. apply Hqat; [lia|done].
  - intros q (Hq & Hpq & Hqat). split; [done|]. intros ch i Hch Hi Hni.
    destruct (Z.eq_dec ch c) as [-> |]; [by apply Hqat|]. apply (F_le_trans _ p); [|done]. apply Hat; [lia|done|done].
Qed.

Lemma calculate_rms_total samples num_ch :
  samples_ok samples num_ch → 1 ≤ num_ch → ∃ rms, calculate_rms samples num_ch 256 = Some rms.
Proof.
  intros [Hl Hs] Hn. cut (wp (calculate_rms samples num_ch 256) (λ _, True)).
  { intros Hw. apply wp_some in Hw as (rms & Hr & _). by exists rms. }
  pose proof (Hs 0 ltac:(lia)). unfold calculate_rms. wp_step. apply wp_if; intros Hc.
  - wp_steps. apply (wp_for_up (λ _ _, True)); [lia|done| |].
    + intros i r Hi _. by wp_steps.
    + intros r _. by wp_steps.
  - pose proof (Hs 1 ltac:(lia)). wp_steps. apply (wp_for_up (λ _ _, True)); [lia|done| |].
    + intros i [r1 r2] Hi _. by wp_steps.
    + intros [r1 r2] _. by wp_steps.
Qed.

Lemma gain_total rms dialnorm profile :
  0 ≤ profile < 5 → ∃ g, calculate_gain_from_profile rms dialnorm profile = Some g.
Proof.
  intros Hp. unfold calculate_gain_from_profile.
  assert (Hl : zlen drc_profiles = 5) by done. rewrite aget_at by lia. cbn [mbind option_bind]. eauto.
Qed.

(** * Properties *)

(** The code of a scale (whose 512-fold is an [int]) is the greatest 8-bit
    code whose gain, as a decoder applies it, does not exceed the scale clipped
    to the range of the codes; so the code of a code's own gain is that code. *)
Theorem dynrng_code_greatest scale z :
  F_to_int (F_mul (AFT_FABS scale) (F_of_Z 512)) = Some z →
  ∃ code, scale_to_dynrng scale = Some code ∧ 0 ≤ code < 256 ∧
    code_scale512 code ≤ Z.max 32 (Z.min z 8064) ∧
    (∀ d, 0 ≤ d < 256 → code_scale512 d ≤ Z.max 32 (Z.min z 8064) → code_scale512 d ≤ code_scale512 code) ∧
    ∀ d, 0 ≤ d < 256 → z = code_scale512 d → code = d.
Proof.
  intros Hz. destruct (scale_to_dynrng_spec scale z Hz) as (code & Hc & Hr & Hle & Hmax). exists code.
  split; [done|]. split; [done|]. split; [done|]. split; [done|]. intros d Hd ->.
  pose proof (code_scale512_range d Hd). specialize (Hmax d Hd ltac:(lia)). apply code_scale512_inj; [done|done|lia].
Qed.

(** The control word of a block is defined whenever the wanted scale is in
    the range of an [int]: it is an 8-bit code, computed from the gain of the
    profile limited by the gain that brings the peak, which bounds the
    magnitude of every sample of the channels, to full scale. *)
Theorem block_dynrng_total samples num_ch dialnorm profile :
  1 ≤ num_ch → samples_ok samples num_ch → 0 ≤ profile < DYNRNG_PROFILE_NONE →
  ∃ p gain, peak samples num_ch = Some p ∧
    (∀ ch i, 0 ≤ ch < num_ch → 0 ≤ i < 256 → is_nan samples.[ch].[i] = false → F_le (AFT_FABS samples.[ch].[i]) p = true) ∧
    let scale := DB_TO_SCALE (F_MIN gain (SCALE_TO_DB (F_div F_1 p))) in
    calculate_block_dynrng samples num_ch dialnorm profile = scale_to_dynrng scale ∧
    (F_to_int (F_mul (AFT_FABS scale) (F_of_Z 512)) ≠ None →
     ∃ code, calculate_block_dynrng samples num_ch dialnorm profile = Some code ∧ 0 ≤ code < 256).
Proof.
  unfold DYNRNG_PROFILE_NONE. intros Hn Hs Hp. pose proof (peak_spec samples num_ch Hs ltac:(lia)) as Hw.
  apply wp_some in Hw as (p & Hpk & _ & Hat). destruct (calculate_rms_total samples num_ch Hs Hn) as [rms Hrms].
  destruct (gain_total rms dialnorm profile Hp) as [gain Hg]. exists p, gain. split; [done|]. split; [done|].
  cbv zeta. assert (Heq : calculate_block_dynrng samples num_ch dialnorm profile =
    scale_to_dynrng (DB_TO_SCALE (F_MIN gain (SCALE_TO_DB (F_div F_1 p))))).
  { unfold calculate_block_dynrng, DYNRNG_PROFILE_NONE. rewrite (proj2 (Z.eqb_neq _ _)) by lia.
    rewrite Hpk. cbn [mbind option_bind]. cbv zeta. rewrite Hrms. cbn [mbind option_bind]. by rewrite Hg. }
  split; [done|]. intros Hd. destruct (F_to_int _) as [z|] eqn:Hz; [|done].
  destruct (scale_to_dynrng_spec _ z Hz) as (code & Hc & Hr & _). exists code. by rewrite Heq.
Qed.
End dynrng.

(** One and a half, twice: code 16. *)
Lemma dynrng_code_greatest_witness :
  ∃ code, scale_to_dynrng (H := single_format) (F_dec (H := single_format) 3 2) = Some code ∧ 0 ≤ code < 256 ∧ code = 16.
Proof.
  destruct (dynrng_code_greatest (H := single_format) (F_dec (H := single_format) 3 2) 768 ltac:(vm_compute; reflexivity))
    as (code & Hc & Hr & _ & _ & Hd).
  exists code. split; [exact Hc|]. split; [exact Hr|]. apply Hd; [lia|reflexivity].
Defined.

Definition quiet : LibM := {|
  AFT_SIN := λ x, x; AFT_COS := λ x, x; AFT_TAN := λ x, x; AFT_LOG10 := λ _, F_of_Z (H := single_format) (-2);
  AFT_EXP := λ _, F_of_Z (H := single_format) 1 |}.

Lemma block_dynrng_total_witness :
  ∃ code, calculate_block_dynrng (H := single_format) (H0 := quiet) (replicate 2 (replicate 512 zero_float)) 2 (-31) 0 = Some code ∧
    0 ≤ code < 256.
Proof.
  destruct (block_dynrng_total (H := single_format) (H0 := quiet) (replicate 2 (replicate 512 zero_float)) 2 (-31) 0)
    as (p & gain & Hp & _ & Heq & Hcode).
  - lia.
  - split; [vm_compute; discriminate|]. intros ch Hch. rewrite at_replicate by (simpl; lia). vm_compute. discriminate.
  - split; vm_compute; congruence.
  - apply Hcode. unfold DB_TO_SCALE. vm_compute. discriminate.
Defined.
