(* ===== verification/Window.v ===== *)
(** [libaften/window.c]: the Kaiser-Bessel derived window.  The window is a
    function of its parameters; [a52_window] is the table that
    [a52_window_init] fills.  The theorems show that the window is symmetric
    and made of running sums of the kernel, that it satisfies the condition for
    perfect reconstruction up to rounding, and what applying it does. *)
From Stdlib Require Import ZArith Lia ZifyBool Bool.
From stdpp Require Import base option list numbers.
From S2P Require Import Prelude CMachine Float FloatExact Types.
Local Open Scope Z_scope.
Local Open Scope carray_scope.

Section window.
Context `{FloatFormat}.

(** [static ALIGN16(FLOAT) a52_window[512] = {0}] *)
Definition a52_window_zero : list FLOAT := replicate 512 zero_float.

(** Two samples per iteration. *)
Definition apply_a52_window (a52_window samples : list FLOAT) : option (list FLOAT) :=
  for_up 0 256 (λ k samples,
    let i := 2 * k in
    s0 ← aget samples i; w0 ← aget a52_window i;
    samples ← aset samples i (F_mul s0 w0);
    s1 ← aget samples (i + 1); w1 ← aget a52_window (i + 1);
    aset samples (i + 1) (F_mul s1 w1)) samples.

(** [for (j = iter; j > 0; j--)]: the Bessel function of [x]. *)
Definition bessel_i0 (x : FLOAT) (iter : Z) : option FLOAT :=
  for_down iter 1 (λ j bessel, Some (F_add (F_div (F_mul bessel x) (F_of_Z (j * j))) F_1)) F_1.

Definition kbd_window_init (alpha : FLOAT) (window : list FLOAT) (n iter : Z) : option (list FLOAT) :=
  let n2 := Z.shiftr n 1 in
  let a := F_div (F_mul alpha AFT_PI) (F_of_Z n2) in
  let a := F_mul a a in
  '(window, sum) ← for_up 0 n2 (λ i '(window, sum),
    let x := F_mul (F_of_Z (i * (n2 - i))) a in
    bessel ← bessel_i0 x iter;
    let sum := F_add sum bessel in
    window ← aset window i sum;
    Some (window, sum)) (window, zero_float);
  let sum := F_add sum F_1 in
  for_up 0 n2 (λ i window,
    w ← aget window i;
    window ← aset window i (AFT_SQRT (F_div w sum));
    w ← aget window i;
    aset window (n - 1 - i) w) window.

(** [kbd_window_init(5.0, a52_window, 512, 50)]; the function pointer it also
    sets is [apply_a52_window], or its SSE version. *)
Definition a52_window_init : option (list FLOAT) := kbd_window_init (F_of_Z 5) a52_window_zero 512 50.

(** * Specification *)

Fixpoint bessel_from (x : FLOAT) (n : nat) (b : FLOAT) : FLOAT :=
  match n with
  | O => b
  | S n' => bessel_from x n' (F_add (F_div (F_mul b x) (F_of_Z (Z.of_nat n * Z.of_nat n))) F_1)
  end.

Section kbd.
Variables (alpha : FLOAT) (n2 iter : Z).

Definition kernel (i : Z) : FLOAT :=
  let a := F_div (F_mul alpha AFT_PI) (F_of_Z n2) in
  bessel_from (F_mul (F_of_Z (i * (n2 - i))) (F_mul a a)) (Z.to_nat iter) F_1.

(** The running sum of the kernel up to [i - 1]. *)
Fixpoint kernel_sum (i : nat) : FLOAT :=
  match i with O => zero_float | S i' => F_add (kernel_sum i') (kernel (Z.of_nat i')) end.

Definition half_window (i : Z) : FLOAT :=
  AFT_SQRT (F_div (kernel_sum (Z.to_nat (i + 1))) (F_add (kernel_sum (Z.to_nat n2)) F_1)).
End kbd.

Lemma bessel_spec x iter : 0 ≤ iter → bessel_i0 x iter = Some (bessel_from x (Z.to_nat iter) F_1).
Proof.
  intros Hi. cut (wp (bessel_i0 x iter) (λ b, b = bessel_from x (Z.to_nat iter) F_1)).
  { intros Hw. by apply wp_some in Hw as (b & -> & ->). }
  apply (wp_for_down (λ j b, 0 ≤ j ∧ bessel_from x (Z.to_nat j) b = bessel_from x (Z.to_nat iter) F_1)).
  - lia.
  - done.
  - intros j b Hj [_ Hb]. apply wp_ret. split; [lia|]. rewrite <- Hb.
    replace (Z.to_nat j) with (S (Z.to_nat (j - 1))) by lia. cbn [bessel_from].
    by replace (Z.of_nat (S (Z.to_nat (j - 1)))) with j by lia.
  - intros b [_ Hb]. exact Hb.
Qed.

Lemma kbd_window_spec alpha window m iter :
  0 ≤ iter → 0 ≤ m → zlen window = 2 * m →
  wp (kbd_window_init alpha window (2 * m) iter) (λ w, zlen w = 2 * m ∧
    ∀ i, 0 ≤ i < m → w.[i] = half_window alpha m iter i ∧ w.[2 * m - 1 - i] = half_window alpha m iter i).
Proof.
  intros Hit Hm Hlen. unfold kbd_window_init. rewrite Z.shiftr_div_pow2 by lia. change (2 ^ 1) with 2.
  replace (2 * m / 2) with m by (rewrite Z.mul_comm, Z.div_mul; lia). cbv zeta. wp_step.
  apply (wp_for_up (λ k '(w, sum), zlen w = 2 * m ∧ sum = kernel_sum alpha m iter (Z.to_nat k) ∧
    ∀ i, 0 ≤ i < k → w.[i] = kernel_sum alpha m iter (Z.to_nat (i + 1)))); [lia|split; [done|split; [done|lia]]| |].
  - intros k [w sum] Hk (Hl & -> & Hat). rewrite bessel_spec by done.
    assert (Hs : ∀ q, Z.to_nat (q + 1) = S (Z.to_nat q) ∨ q < 0) by lia. destruct (Hs k) as [Hk1|]; [|lia].
    do 2 wp_step. cbv zeta. wp_steps. split; [by rewrite zlen_upd|].
    assert (Hsum : F_add (kernel_sum alpha m iter (Z.to_nat k))
      (bessel_from (F_mul (F_of_Z (k * (m - k))) (F_mul (F_div (F_mul alpha AFT_PI) (F_of_Z m)) (F_div (F_mul alpha AFT_PI) (F_of_Z m))))
         (Z.to_nat iter) F_1) = kernel_sum alpha m iter (Z.to_nat (k + 1))).
    { rewrite Hk1. cbn [kernel_sum]. unfold kernel. by rewrite Z2Nat.id by lia. }
    split; [done|]. intros i Hi. rewrite at_upd by lia. destruct (Z.eqb_spec i k) as [-> |]; [done|]. apply Hat. lia.
  - intros [w sum] (Hl & -> & Hat). set (sum1 := F_add (kernel_sum alpha m iter (Z.to_nat m)) F_1).
    apply (wp_for_up (λ k w', zlen w' = 2 * m ∧ (∀ i, 0 ≤ i < k → w'.[i] = half_window alpha m iter i ∧
        w'.[2 * m - 1 - i] = half_window alpha m iter i) ∧
      ∀ i, k ≤ i < m → w'.[i] = kernel_sum alpha m iter (Z.to_nat (i + 1)))).
    + lia.
    + split; [done|]. split; [lia|]. intros i Hi. apply Hat. lia.
    + intros k w' Hk (Hl' & Hdone & Htodo). wp_steps. split; [by rewrite !zlen_upd|].
      rewrite at_upd_eq by lia. rewrite Htodo by lia. fold (half_window alpha m iter k). split.
      * intros i Hi. rewrite !at_upd by (rewrite ?zlen_upd; lia).
        destruct (Z.eqb_spec (2 * m - 1 - i) (2 * m - 1 - k)) as [He|Hne].
        { replace i with k by lia. rewrite Z.eqb_refl. by replace (k =? 2 * m - 1 - k) with false by lia. }
        replace (i =? 2 * m - 1 - k) with false by lia. replace (i =? k) with false by lia.
        replace (2 * m - 1 - i =? k) with false by lia. apply Hdone. lia.
      * intros i Hi. rewrite !at_upd by (rewrite ?zlen_upd; lia).
        replace (i =? 2 * m - 1 - k) with false by lia. replace (i =? k) with false by lia. apply Htodo. lia.
    + intros w' (Hl' & Hdone & _). by split.
Qed.

Lemma apply_window_spec w samples :
  zlen w = 512 → 512 ≤ zlen samples →
  wp (apply_a52_window w samples) (λ s, zlen s = zlen samples ∧
    ∀ i, 0 ≤ i < zlen samples → s.[i] = if i <? 512 then F_mul samples.[i] w.[i] else samples.[i]).
Proof.
  intros Hw Hs. unfold apply_a52_window.
  apply (wp_for_up (λ k s, zlen s = zlen samples ∧
    ∀ i, 0 ≤ i < zlen samples → s.[i] = if i <? 2 * k then F_mul samples.[i] w.[i] else samples.[i])).
  - lia.
  - split; [done|]. intros i Hi. by replace (i <? 2 * 0) with false by lia.
  - intros k s Hk [Hl Hat]. wp_steps. split; [by rewrite !zlen_upd|]. intros i Hi.
    rewrite !at_upd by (rewrite ?zlen_upd; lia). rewrite !Hat by lia.
    destruct (Z.eqb_spec i (2 * k + 1)) as [-> |].
    { replace (2 * k + 1 <? 2 * (k + 1)) with true by lia. replace (2 * k + 1 =? 2 * k) with false by lia.
      by replace (2 * k + 1 <? 2 * k) with false by lia. }
    destruct (Z.eqb_spec i (2 * k)) as [-> |].
    { replace (2 * k <? 2 * (k + 1)) with true by lia. by replace (2 * k <? 2 * k) with false by lia. }
    by replace (i <? 2 * (k + 1)) with (i <? 2 * k) by lia.
  - intros s [Hl Hat]. split; [done|]. intros i Hi. rewrite Hat by done. done.
Qed.

(** The table after initialisation. *)
Lemma a52_window_init_spec : wp a52_window_init (λ w, zlen w = 512 ∧
  ∀ i, 0 ≤ i < 256 → w.[i] = half_window (F_of_Z 5) 256 50 i ∧ w.[511 - i] = half_window (F_of_Z 5) 256 50 i).
Proof. apply (kbd_window_spec _ a52_window_zero 256 50); [lia|lia|done]. Qed.

Lemma a52_window_init_some : ∃ w, a52_window_init = Some w ∧ zlen w = 512 ∧
  ∀ i, 0 ≤ i < 256 → w.[i] = half_window (F_of_Z 5) 256 50 i ∧ w.[511 - i] = half_window (F_of_Z 5) 256 50 i.
Proof. exact (proj1 (wp_some _ _) a52_window_init_spec). Qed.
End window.

(** * Perfect reconstruction *)

(** The value of a number between 0 and 1, in units of [2 ^ -60]. *)
Definition fixed60 (x : FLOAT) : option Z :=
  match x with
  | S754_zero _ => Some 0
  | S754_finite false m e => if (-60 <=? e) && (e <=? 0) then Some (Zpos m * 2 ^ (e + 60)) else None
  | _ => None
  end.

(** Both halves at index [i]: between 0 and 1, and their squares sum to 1 up to
    [2 ^ -20]. *)
Definition reconstructs (w : list FLOAT) (i : Z) : bool :=
  match fixed60 w.[i], fixed60 w.[255 - i] with
  | Some a, Some b => (a <=? 2 ^ 60) && (b <=? 2 ^ 60) && (Z.abs (a * a + b * b - 2 ^ 120) <=? 2 ^ 100)
  | _, _ => false
  end.

Lemma fixed60_nonneg x a : fixed60 x = Some a → 0 ≤ a.
Proof.
  destruct x as [s|s| |[] m e]; simpl; try done; [by intros [= <-]|].
  destruct (_ && _); [|done]. intros [= <-]. apply Z.mul_nonneg_nonneg; [lia|apply Z.pow_nonneg; lia].
Qed.

Lemma single_window_check :
  match a52_window_init (H := single_format) with
  | Some w => forallb (reconstructs w) (map Z.of_nat (seq 0 256))
  | None => false
  end = true.
Proof. vm_cast_no_check (eq_refl true). Qed.

(** The window of the single-precision build: it is computed, symmetric,
    every value lies between 0 and 1, and the squares of the two values that
    weigh a sample in overlapping blocks sum to 1 up to [2 ^ -20]. *)
Theorem a52_window_reconstructs :
  ∃ w, a52_window_init (H := single_format) = Some w ∧ zlen w = 512 ∧
    (∀ i, 0 ≤ i < 256 → w.[511 - i] = w.[i]) ∧
    ∀ i, 0 ≤ i < 256 → ∃ a b, fixed60 w.[i] = Some a ∧ fixed60 w.[256 + i] = Some b ∧
      0 ≤ a ≤ 2 ^ 60 ∧ 0 ≤ b ≤ 2 ^ 60 ∧ Z.abs (a * a + b * b - 2 ^ 120) ≤ 2 ^ 100.
Proof.
  pose proof single_window_check as Hc. destruct (a52_window_init_some (H := single_format)) as (w & Hi & Hl & Hsym).
  rewrite Hi in Hc. exists w. split; [exact Hi|]. clear Hi. split; [exact Hl|].
  split; [intros i Hi; destruct (Hsym i Hi) as [E1 E2]; exact (eq_trans E2 (eq_sym E1))|].
  intros i Hi. apply (check_range _ 256 i Hc) in Hi as Hr. unfold reconstructs in Hr.
  replace (256 + i) with (511 - (255 - i)) by lia.
  assert (Hi' : 0 ≤ 255 - i < 256) by lia.
  destruct (Hsym (255 - i) Hi') as [E1 E2]. rewrite E2, <- E1. clear - Hr.
  destruct (fixed60 w.[i]) as [a|] eqn:Ha; [|discriminate Hr]. destruct (fixed60 w.[255 - i]) as [b|] eqn:Hb; [|discriminate Hr].
  exists a, b. apply fixed60_nonneg in Ha, Hb. split; [reflexivity|]. split; [reflexivity|]. lia.
Qed.

(** Windowing multiplies each of the 512 samples by its weight, and leaves
    the rest of the buffer alone. *)
Theorem apply_a52_window_correct `{FloatFormat} w samples :
  zlen w = 512 → 512 ≤ zlen samples →
  ∃ s, apply_a52_window w samples = Some s ∧ zlen s = zlen samples ∧
    ∀ i, 0 ≤ i < zlen samples → s.[i] = if i <? 512 then F_mul samples.[i] w.[i] else samples.[i].
Proof.
  intros Hw Hs. pose proof (apply_window_spec w samples Hw Hs) as H1. apply wp_some in H1 as (s & Hr & Hl & Hat).
  by exists s.
Qed.

Lemma apply_a52_window_correct_witness :
  ∃ s, apply_a52_window (H := double_format) (replicate 512 (S754_zero true)) (replicate 514 S754_nan) = Some s ∧ zlen s = 514.
Proof.
  destruct (apply_a52_window_correct (H := double_format) (replicate 512 (S754_zero true)) (replicate 514 S754_nan)
    ltac:(reflexivity) ltac:(vm_compute; discriminate)) as (s & Hr & Hl & _).
  exists s. split; [exact Hr|exact Hl].
Defined.
