(* ===== verification/Samples.v ===== *)
(** [copy_samples] of [libaften/a52enc.c]: a frame of input samples is passed
    through the filters in use and cut into blocks of 512 samples that overlap
    by half, across frames too.  The specification describes the arrays after
    the loop over the channels by the streams they are windows of. *)
From Stdlib Require Import ZArith Lia ZifyBool Bool.
From stdpp Require Import base option list numbers.
From coqutil Require Import Datatypes.RecordSettersUsingExistingGetters.
From S2P Require Import Prelude CMachine Float Types Filter Convert.
Local Open Scope Z_scope.
Local Open Scope carray_scope.

#[global] Instance filter_inhabited : Inhabited FilterContext :=
  populate (mk_filter None NoContext FILTER_TYPE_LOWPASS 0 zero zero).

(** The fields of [A52Context] that a frame's samples change: the input filters
    and the ends of the previous frame; and the sample converter. *)
Module Audio.
Record t := mk {
  fmt_convert_from_src : option converter;
  bs_filter : list FilterContext;
  dc_filter : list FilterContext;
  bw_filter : list FilterContext;
  lfe_filter : FilterContext;
  last_samples : list (list FLOAT);
  last_transient_samples : list (list FLOAT)
}.
End Audio.

Section samples.
Context `{FloatFormat}.

(** * Copying the samples *)

(** [filter_run(&fs[ch], out, in, A52_SAMPLES_PER_FRAME)] *)
Definition run_filter (fs : list FilterContext) (ch : Z) (out in_ : list FLOAT) : option (list FilterContext * list FLOAT) :=
  f ← aget fs ch;
  '(f, out) ← filter_run f out in_ A52_SAMPLES_PER_FRAME;
  fs ← aset fs ch f;
  Some (fs, out).

(** [in_audio] and [out_audio] point to the frame's input buffer and the local
    one; [swapped] says which is which. *)
Definition buffers : Type := list FLOAT * list FLOAT * bool.

(** Run a filter and [SWAP_BUFFERS]. *)
Definition run_swap (fs : list FilterContext) (ch : Z) '((in_audio, out_audio, swapped) : buffers)
    : option (list FilterContext * buffers) :=
  '(fs, out_audio) ← run_filter fs ch out_audio in_audio;
  Some (fs, (out_audio, in_audio, negb swapped)).

(** The copies of 256 old and 256 new samples into block 0 and of 512 samples
    into each later block, for the rows [rows] of the blocks. *)
Definition copy_overlap (rows : Block.t → list (list FLOAT)) (put : list (list FLOAT) → Block.t → Block.t) (ch : Z)
    (last audio : list FLOAT) (blocks : list Block.t) : option (list Block.t) :=
  b ← aget blocks 0;
  row ← aget (rows b) ch;
  row ← memcpy row 0 last 0 256;
  row ← memcpy row 256 audio 0 256;
  rs ← aset (rows b) ch row;
  blocks ← aset blocks 0 (put rs b);
  for_up 1 A52_NUM_BLOCKS (λ blk blocks,
    b ← aget blocks blk;
    row ← aget (rows b) ch;
    row ← memcpy row 0 audio (256 * (blk - 1)) 512;
    rs ← aset (rows b) ch row;
    aset blocks blk (put rs b)) blocks.

Definition put_input (rs : list (list FLOAT)) (b : Block.t) : Block.t := b <| Block.input_samples := rs |>.
Definition put_transient (rs : list (list FLOAT)) (b : Block.t) : Block.t := b <| Block.transient_samples := rs |>.

(** [memcpy(lasts[ch], &audio[256*5], 256 * sizeof(FLOAT))] *)
Definition copy_last (lasts : list (list FLOAT)) (ch : Z) (audio : list FLOAT) : option (list (list FLOAT)) :=
  row ← aget lasts ch;
  row ← memcpy row 0 audio (256 * 5) 256;
  aset lasts ch row.

(** A filter of channel [ch] that the parameters may turn off. *)
Definition when_filter (on : Z) (get : Audio.t → list FilterContext) (put : list FilterContext → Audio.t → Audio.t) (ch : Z)
    '((au, b) : Audio.t * buffers) : option (Audio.t * buffers) :=
  if negb (on =? 0) then '(fs, b) ← run_swap (get au) ch b; Some (put fs au, b) else Some (au, b).

Definition put_dc (fs : list FilterContext) (au : Audio.t) : Audio.t := au <| Audio.dc_filter := fs |>.
Definition put_bw (fs : list FilterContext) (au : Audio.t) : Audio.t := au <| Audio.bw_filter := fs |>.
Definition put_lfe (f : FilterContext) (au : Audio.t) : Audio.t := au <| Audio.lfe_filter := f |>.

(** The block-switching high-pass filter, whose output goes to the transient
    samples only. *)
Definition copy_transients (ch : Z) '((au, frame, b) : Audio.t * Frame.t * buffers) : option (Audio.t * Frame.t * buffers) :=
  let '(in_audio, out_audio, swapped) := b in
  '(fs, out_audio) ← run_filter (Audio.bs_filter au) ch out_audio in_audio;
  last ← aget (Audio.last_transient_samples au) ch;
  blocks ← copy_overlap Block.transient_samples put_transient ch last out_audio (Frame.blocks frame);
  lasts ← copy_last (Audio.last_transient_samples au) ch out_audio;
  Some (au <| Audio.bs_filter := fs |> <| Audio.last_transient_samples := lasts |>,
        frame <| Frame.blocks := blocks |>, (in_audio, out_audio, swapped)).

(** The LFE filter, after [assert(ch == ctx->lfe_channel)]. *)
Definition filter_lfe (ctx : Ctx.t) (ch : Z) '((au, b) : Audio.t * buffers) : option (Audio.t * buffers) :=
  if ch =? Ctx.lfe_channel ctx then
    '(fs, b) ← run_swap [Audio.lfe_filter au] 0 b;
    f ← aget fs 0;
    Some (put_lfe f au, b)
  else None.

(** The copies to the blocks; then what the two arrays hold. *)
Definition copy_inputs (ch : Z) '((au, frame, b) : Audio.t * Frame.t * buffers) : option (Audio.t * Frame.t * list FLOAT) :=
  let '(in_audio, out_audio, swapped) := b in
  last ← aget (Audio.last_samples au) ch;
  blocks ← copy_overlap Block.input_samples put_input ch last in_audio (Frame.blocks frame);
  lasts ← copy_last (Audio.last_samples au) ch in_audio;
  audios ← aset (Frame.input_audio frame) ch (if swapped : bool then out_audio else in_audio);
  Some (au <| Audio.last_samples := lasts |>,
        frame <| Frame.blocks := blocks |> <| Frame.input_audio := audios |>,
        if swapped : bool then in_audio else out_audio).

(** The filters of channel [ch]. *)
Definition filter_channel (ctx : Ctx.t) (ch : Z) '((au, frame, b) : Audio.t * Frame.t * buffers)
    : option (Audio.t * Frame.t * buffers) :=
  let p := Ctx.params ctx in
  '(au, b) ← when_filter (EncParams.use_dc_filter p) Audio.dc_filter put_dc ch (au, b);
  if ch <? Ctx.n_channels ctx then
    '(au, b) ← when_filter (EncParams.use_bw_filter p) Audio.bw_filter put_bw ch (au, b);
    if negb (EncParams.use_block_switching p =? 0) then copy_transients ch (au, frame, b) else Some (au, frame, b)
  else if negb (EncParams.use_lfe_filter p =? 0) then
    '(au, b) ← filter_lfe ctx ch (au, b); Some (au, frame, b)
  else Some (au, frame, b).

(** The body of the loop over the channels; [buffer] is the local array. *)
Definition copy_channel (ctx : Ctx.t) (ch : Z) '((au, frame, buffer) : Audio.t * Frame.t * list FLOAT)
    : option (Audio.t * Frame.t * list FLOAT) :=
  audio ← aget (Frame.input_audio frame) ch;
  '(au, frame, b) ← filter_channel ctx ch (au, frame, (audio, buffer, false));
  copy_inputs ch (au, frame, b).

Definition copy_samples (ctx : Ctx.t) (au : Audio.t) (frame : Frame.t) (buffer : list FLOAT)
    : option (Audio.t * Frame.t) :=
  '(au, frame, _) ← for_up 0 (Ctx.n_all_channels ctx) (copy_channel ctx) (au, frame, buffer);
  Some (au, frame).
End samples.

(** * Specification of the copies *)

Section copies.
Context `{FloatFormat}.

(** A filter that is on or off, on a whole frame: its output and its new state. *)
Definition stage (on : Z) (f : FilterContext) (xs : list FLOAT) : list FLOAT :=
  if on =? 0 then xs else snd (default (f, xs) (filter_list f xs)).

(** The state the filter is left in. *)
Definition stage_state (on : Z) (f : FilterContext) (xs : list FLOAT) : FilterContext :=
  if on =? 0 then f else fst (default (f, xs) (filter_list f xs)).

(** The 512 samples of block [k], from the 256 that precede the frame and the frame. *)
Definition overlap (last audio : list FLOAT) (k : Z) : list FLOAT := slice (take 256 last ++ audio) (256 * k) 512.

Lemma zlen_take_256 (last : list FLOAT) : 256 ≤ zlen last → zlen (take 256 last) = 256.
Proof. unfold zlen. rewrite length_take. lia. Qed.

Lemma zlen_overlap last audio k : 256 ≤ zlen last → zlen audio = 1536 → 0 ≤ k < 6 → zlen (overlap last audio k) = 512.
Proof.
  intros Hl Ha Hk. apply zlen_slice; [lia|lia|]. rewrite zlen_app, zlen_take_256 by done. lia.
Qed.

Lemma at_overlap last audio k i :
  256 ≤ zlen last → 0 ≤ k < 6 → 0 ≤ i < 512 →
  (overlap last audio k).[i] = if 256 * k + i <? 256 then last.[256 * k + i] else audio.[256 * k + i - 256].
Proof.
  intros Hl Hk Hi. unfold overlap. rewrite at_slice by lia. destruct (Z.ltb_spec (256 * k + i) 256) as [Hlt|Hge].
  - rewrite at_app_l by (rewrite zlen_take_256; lia). unfold at_. apply lookup_total_take_lt. lia.
  - rewrite at_app_r by (rewrite zlen_take_256; lia). by rewrite zlen_take_256.
Qed.

Section rows.
Variables (rows : Block.t → list (list FLOAT)) (put : list (list FLOAT) → Block.t → Block.t).

Lemma copy_overlap_spec ch last audio blocks :
  zlen blocks = 6 → (∀ k, 0 ≤ k < 6 → dim2 6 512 (rows blocks.[k])) → 0 ≤ ch < 6 → 256 ≤ zlen last → zlen audio = 1536 →
  wp (copy_overlap rows put ch last audio blocks) (λ bs, zlen bs = 6 ∧ ∀ k, 0 ≤ k < 6 →
    bs.[k] = put (upd (rows blocks.[k]) ch (overlap last audio k)) blocks.[k]).
Proof.
  intros Hl Hd Hch Hlast Haud. unfold copy_overlap, A52_NUM_BLOCKS.
  pose proof (proj1 (Hd 0 ltac:(lia))) as Hd0. pose proof (dim2_row _ _ _ ch (Hd 0 ltac:(lia)) Hch) as Hr0.
  assert (Hs1 : zlen (slice last 0 256) = 256) by (apply zlen_slice; lia).
  assert (Hs2 : zlen (slice audio 0 256) = 256) by (apply zlen_slice; lia).
  assert (Hz1 : zlen (splice (rows blocks.[0]).[ch] 0 (slice last 0 256)) = 512) by (rewrite zlen_splice; lia).
  assert (H0 : splice (splice (rows blocks.[0]).[ch] 0 (slice last 0 256)) 256 (slice audio 0 256) = overlap last audio 0).
  { apply array_ext; [rewrite zlen_splice, zlen_overlap by lia; lia|]. rewrite zlen_splice by lia. rewrite Hz1. intros i Hi.
    rewrite at_splice, at_splice, at_overlap by lia. rewrite Hs1, Hs2.
    destruct (Z.ltb_spec (256 * 0 + i) 256).
    - replace ((256 <=? i) && (i <? 256 + 256)) with false by lia. replace ((0 <=? i) && (i <? 0 + 256)) with true by lia.
      rewrite at_slice by lia. f_equal; lia.
    - replace ((256 <=? i) && (i <? 256 + 256)) with true by lia. rewrite at_slice by lia. f_equal; lia. }
  wp_step. wp_step. wp_step. wp_step. wp_step. rewrite memcpy_in by lia. wp_step. wp_step.
  rewrite memcpy_in by lia. wp_step. rewrite H0.
  wp_step. wp_step. wp_step. wp_step.
  apply (wp_for_up (λ k bs, zlen bs = 6 ∧ ∀ j, 0 ≤ j < 6 →
    bs.[j] = if j <? k then put (upd (rows blocks.[j]) ch (overlap last audio j)) blocks.[j] else blocks.[j])).
  - lia.
  - split; [by rewrite zlen_upd|]. intros j Hj. rewrite at_upd by lia.
    destruct (Z.eqb_spec j 0) as [-> |]; [done|]. by replace (j <? 1) with false by lia.
  - intros k bs Hk [Hbl Hbs]. pose proof (Hbs k ltac:(lia)) as Hbk. rewrite Z.ltb_irrefl in Hbk.
    pose proof (proj1 (Hd k ltac:(lia))) as Hdk. pose proof (dim2_row _ _ _ ch (Hd k ltac:(lia)) Hch) as Hrk.
    do 2 wp_step. rewrite Hbk. do 3 wp_step. rewrite memcpy_in by lia. wp_step.
    assert (Hk1 : splice (rows blocks.[k]).[ch] 0 (slice audio (256 * (k - 1)) 512) = overlap last audio k).
    { assert (Hs3 : zlen (slice audio (256 * (k - 1)) 512) = 512) by (apply zlen_slice; lia).
      apply array_ext; [rewrite zlen_splice, zlen_overlap by lia; lia|]. rewrite zlen_splice by lia. intros i Hi.
      rewrite at_splice, at_overlap by lia. rewrite Hs3. replace ((0 <=? i) && (i <? 0 + 512)) with true by lia.
      replace (256 * k + i <? 256) with false by lia. rewrite at_slice by lia. f_equal; lia. }
    rewrite Hk1. wp_steps. split; [by rewrite zlen_upd|]. intros j Hj. rewrite at_upd by lia.
    destruct (Z.eqb_spec j k) as [-> |]; [by replace (k <? k + 1) with true by lia|].
    rewrite Hbs by done. by replace (j <? k + 1) with (j <? k) by lia.
  - intros bs [Hbl Hbs]. split; [done|]. intros k Hk. rewrite Hbs by done. by replace (k <? 6) with true by lia.
Qed.
End rows.

(** The end of a frame, kept at the beginning of the row. *)
Definition kept (old audio : list FLOAT) : list FLOAT := splice old 0 (slice audio 1280 256).

Lemma copy_last_spec lasts ch audio :
  0 ≤ ch < zlen lasts → 256 ≤ zlen lasts.[ch] → zlen audio = 1536 →
  wp (copy_last lasts ch audio) (λ l, l = upd lasts ch (kept lasts.[ch] audio)).
Proof. intros Hch Hl Ha. unfold copy_last. wp_step. wp_step. wp_step. rewrite memcpy_in by lia. by wp_steps. Qed.

Lemma zlen_kept old audio : 256 ≤ zlen old → zlen audio = 1536 → zlen (kept old audio) = zlen old.
Proof. intros Ho Ha. apply zlen_splice; [lia|]. rewrite zlen_slice by lia. lia. Qed.

Lemma take_kept old audio :
  256 ≤ zlen old → zlen audio = 1536 → take 256 (kept old audio) = slice audio 1280 256.
Proof.
  intros Ho Ha. pose proof (take_splice old 0 (slice audio 1280 256) ltac:(lia)) as Ht.
  rewrite zlen_slice in Ht by lia. exact Ht.
Qed.

Lemma run_filter_spec fs ch out in_ :
  0 ≤ ch < zlen fs → filter_ok fs.[ch] → zlen in_ = 1536 → zlen out = 1536 →
  wp (run_filter fs ch out in_) (λ '(fs', ys), ys = stage 1 fs.[ch] in_ ∧ zlen ys = 1536 ∧
    ∃ f', fs' = upd fs ch f' ∧ filter_ok f' ∧ f' = stage_state 1 fs.[ch] in_).
Proof.
  intros Hch Hok Hin Hout. unfold run_filter, A52_SAMPLES_PER_FRAME. wp_step. wp_step.
  destruct (filter_run_list fs.[ch] out in_ 1536 Hok ltac:(lia) ltac:(lia)) as (f' & ys & Hlist & Hrun & Hlen & Hok' & _).
  rewrite Hrun. do 4 wp_step. wp_step.
  assert (Htake : take (Z.to_nat 1536) in_ = in_) by (apply take_ge; unfold zlen in *; lia). rewrite Htake in Hlist.
  assert (Hdrop : drop (Z.to_nat 1536) out = []) by (apply drop_ge; unfold zlen in *; lia). rewrite Hdrop, app_nil_r.
  split; [unfold stage; simpl Z.eqb; cbv iota; by rewrite Hlist|]. split; [unfold zlen; lia|]. exists f'.
  split; [done|]. split; [done|]. unfold stage_state. simpl Z.eqb. cbv iota. by rewrite Hlist.
Qed.

Lemma when_filter_spec on get put ch au in_ out sw :
  (∀ fs a, get (put fs a) = fs) → (∀ a, put (get a) a = a) → 0 ≤ ch < zlen (get au) →
  (on ≠ 0 → filter_ok (get au).[ch]) → zlen in_ = 1536 → zlen out = 1536 →
  wp (when_filter on get put ch (au, (in_, out, sw))) (λ '(au', (in', out', sw')), in' = stage on (get au).[ch] in_ ∧
    zlen in' = 1536 ∧ zlen out' = 1536 ∧ ∃ f', au' = put (upd (get au) ch f') au ∧ (on ≠ 0 → filter_ok f') ∧ f' = stage_state on (get au).[ch] in_).
Proof.
  intros Hgp Hpg Hch Hok Hin Hout. unfold when_filter. destruct (Z.eqb_spec on 0) as [-> |Hne]; simpl negb; cbv iota.
  - apply wp_ret. split; [done|]. split; [done|]. split; [done|]. exists (get au).[ch]. split; [|by split].
    rewrite <- (Hpg au) at 1. f_equal. apply array_ext; [by rewrite zlen_upd|]. intros i Hi.
    rewrite at_upd by lia. by destruct (Z.eqb_spec i ch) as [-> |].
  - unfold run_swap. wp_step. wp_step. eapply wp_mono; [by apply run_filter_spec; [|apply Hok|..]|].
    intros [fs ys] (-> & Hl & f' & -> & Hf & Hst). wp_steps. split.
    + unfold stage. by rewrite (proj2 (Z.eqb_neq on 0)).
    + split; [done|]. split; [done|]. exists f'. split; [done|]. split; [done|]. rewrite Hst. unfold stage_state. by rewrite (proj2 (Z.eqb_neq on 0)).
Qed.

(** * A frame copied *)

(** The signal of channel [ch] after the input filters, and its high-passed
    version. *)
Definition channel_audio (ctx : Ctx.t) (au : Audio.t) (ch : Z) (xs : list FLOAT) : list FLOAT :=
  let p := Ctx.params ctx in
  let ys := stage (EncParams.use_dc_filter p) (Audio.dc_filter au).[ch] xs in
  if ch <? Ctx.n_channels ctx then stage (EncParams.use_bw_filter p) (Audio.bw_filter au).[ch] ys
  else stage (EncParams.use_lfe_filter p) (Audio.lfe_filter au) ys.
Definition channel_transients (ctx : Ctx.t) (au : Audio.t) (ch : Z) (xs : list FLOAT) : list FLOAT :=
  stage 1 (Audio.bs_filter au).[ch] (channel_audio ctx au ch xs).

(** The filters of channel [ch] in [au'] are those of [au] after the frame [xs]. *)
Record filters_run (ctx : Ctx.t) (au : Audio.t) (ch : Z) (xs : list FLOAT) (au' : Audio.t) : Prop := {
  fr_dc : (Audio.dc_filter au').[ch] = stage_state (EncParams.use_dc_filter (Ctx.params ctx)) (Audio.dc_filter au).[ch] xs;
  fr_bw : (Audio.bw_filter au').[ch] = if ch <? Ctx.n_channels ctx
    then stage_state (EncParams.use_bw_filter (Ctx.params ctx)) (Audio.bw_filter au).[ch]
      (stage (EncParams.use_dc_filter (Ctx.params ctx)) (Audio.dc_filter au).[ch] xs)
    else (Audio.bw_filter au).[ch];
  fr_bs : (Audio.bs_filter au').[ch] = if ch <? Ctx.n_channels ctx
    then stage_state (EncParams.use_block_switching (Ctx.params ctx)) (Audio.bs_filter au).[ch] (channel_audio ctx au ch xs)
    else (Audio.bs_filter au).[ch];
  fr_lfe : Ctx.n_channels ctx ≤ ch → Audio.lfe_filter au' = stage_state (EncParams.use_lfe_filter (Ctx.params ctx)) (Audio.lfe_filter au)
    (stage (EncParams.use_dc_filter (Ctx.params ctx)) (Audio.dc_filter au).[ch] xs)
}.

(** The filters in use can run; rows of the right sizes. *)
Record audio_ok (ctx : Ctx.t) (au : Audio.t) : Prop := {
  au_dc_len : zlen (Audio.dc_filter au) = 6;
  au_bw_len : zlen (Audio.bw_filter au) = 6;
  au_bs_len : zlen (Audio.bs_filter au) = 6;
  au_dc : EncParams.use_dc_filter (Ctx.params ctx) ≠ 0 → ∀ c, 0 ≤ c < Ctx.n_all_channels ctx → filter_ok (Audio.dc_filter au).[c];
  au_bw : EncParams.use_bw_filter (Ctx.params ctx) ≠ 0 → ∀ c, 0 ≤ c < Ctx.n_channels ctx → filter_ok (Audio.bw_filter au).[c];
  au_bs : EncParams.use_block_switching (Ctx.params ctx) ≠ 0 → ∀ c, 0 ≤ c < Ctx.n_channels ctx → filter_ok (Audio.bs_filter au).[c];
  au_lfe : EncParams.use_lfe_filter (Ctx.params ctx) ≠ 0 → filter_ok (Audio.lfe_filter au);
  au_last : dim2 6 1536 (Audio.last_samples au);
  au_last_t : dim2 6 256 (Audio.last_transient_samples au)
}.

Record samples_wf (frame : Frame.t) : Prop := {
  sw_blocks : zlen (Frame.blocks frame) = 6;
  sw_input : ∀ k, 0 ≤ k < 6 → dim2 6 512 (Block.input_samples (Frame.blocks frame).[k]);
  sw_transient : ∀ k, 0 ≤ k < 6 → dim2 6 512 (Block.transient_samples (Frame.blocks frame).[k]);
  sw_audio : dim2 6 1536 (Frame.input_audio frame)
}.

Definition with_samples (b b' : Block.t) : Block.t :=
  b <| Block.input_samples := Block.input_samples b' |> <| Block.transient_samples := Block.transient_samples b' |>.

(** Whether channel [ch] may use the short transform. *)
Definition switching (ctx : Ctx.t) (ch : Z) : bool :=
  (ch <? Ctx.n_channels ctx) && negb (EncParams.use_block_switching (Ctx.params ctx) =? 0).

(** The first [c] channels are copied, the others as they were. *)
Record copied (ctx : Ctx.t) (au : Audio.t) (frame : Frame.t) (c : Z) (au' : Audio.t) (frame' : Frame.t) : Prop := {
  cp_frame : frame' = frame <| Frame.blocks := Frame.blocks frame' |> <| Frame.input_audio := Frame.input_audio frame' |>;
  cp_block : ∀ k, 0 ≤ k < 6 → (Frame.blocks frame').[k] = with_samples (Frame.blocks frame).[k] (Frame.blocks frame').[k];
  cp_wf : samples_wf frame';
  cp_ok : audio_ok ctx au';
  cp_converter : Audio.fmt_convert_from_src au' = Audio.fmt_convert_from_src au;
  cp_todo : ∀ ch, c ≤ ch < 6 → (Frame.input_audio frame').[ch] = (Frame.input_audio frame).[ch] ∧
    (Audio.dc_filter au').[ch] = (Audio.dc_filter au).[ch] ∧ (Audio.bw_filter au').[ch] = (Audio.bw_filter au).[ch] ∧
    (Audio.bs_filter au').[ch] = (Audio.bs_filter au).[ch];
  cp_todo_lfe : c ≤ Ctx.n_channels ctx → Audio.lfe_filter au' = Audio.lfe_filter au;
  cp_filters : ∀ ch, 0 ≤ ch < c → filters_run ctx au ch (Frame.input_audio frame).[ch] au';
  cp_input : ∀ k ch, 0 ≤ k < 6 → 0 ≤ ch < 6 → (Block.input_samples (Frame.blocks frame').[k]).[ch] =
    if ch <? c then overlap (Audio.last_samples au).[ch] (channel_audio ctx au ch (Frame.input_audio frame).[ch]) k
    else (Block.input_samples (Frame.blocks frame).[k]).[ch];
  cp_last : ∀ ch, 0 ≤ ch < 6 → (Audio.last_samples au').[ch] =
    if ch <? c then kept (Audio.last_samples au).[ch] (channel_audio ctx au ch (Frame.input_audio frame).[ch])
    else (Audio.last_samples au).[ch];
  cp_transient : ∀ k ch, 0 ≤ k < 6 → 0 ≤ ch < 6 → (Block.transient_samples (Frame.blocks frame').[k]).[ch] =
    if (ch <? c) && switching ctx ch
    then overlap (Audio.last_transient_samples au).[ch] (channel_transients ctx au ch (Frame.input_audio frame).[ch]) k
    else (Block.transient_samples (Frame.blocks frame).[k]).[ch];
  cp_last_t : ∀ ch, 0 ≤ ch < 6 → (Audio.last_transient_samples au').[ch] =
    if (ch <? c) && switching ctx ch
    then kept (Audio.last_transient_samples au).[ch] (channel_transients ctx au ch (Frame.input_audio frame).[ch])
    else (Audio.last_transient_samples au).[ch]
}.

(** Updates of one channel keep [audio_ok]. *)
Lemma filters_upd (P : Prop) n fs ch f :
  zlen fs = 6 → 0 ≤ ch < 6 → n ≤ 6 → (P → ∀ c, 0 ≤ c < n → filter_ok fs.[c]) → (P → filter_ok f) →
  P → ∀ c, 0 ≤ c < n → filter_ok (upd fs ch f).[c].
Proof.
  intros Hl Hch Hn Hfs Hf HP c Hc. rewrite at_upd by lia. destruct (Z.eqb_spec c ch) as [-> |]; [by apply Hf|by apply Hfs].
Qed.

Section updates.
Variables (ctx : Ctx.t) (au : Audio.t) (ch : Z).
Hypothesis Hch : channels_ok ctx.
Hypothesis Hr : 0 ≤ ch < 6.
Hypothesis Hau : audio_ok ctx au.

Ltac audio_upd :=
  destruct Hau, Hch; split; simpl; rewrite ?zlen_upd; try done;
  try (apply filters_upd; [done|done|lia|done|done]); try (apply dim2_upd; [done|lia|done]).

Lemma audio_ok_dc f : (EncParams.use_dc_filter (Ctx.params ctx) ≠ 0 → filter_ok f) →
  audio_ok ctx (put_dc (upd (Audio.dc_filter au) ch f) au).
Proof. intros Hf. audio_upd. Qed.
Lemma audio_ok_bw f : (EncParams.use_bw_filter (Ctx.params ctx) ≠ 0 → filter_ok f) →
  audio_ok ctx (put_bw (upd (Audio.bw_filter au) ch f) au).
Proof. intros Hf. audio_upd. Qed.
Lemma audio_ok_bs f row : filter_ok f → zlen row = 256 →
  audio_ok ctx (au <| Audio.bs_filter := upd (Audio.bs_filter au) ch f |>
                   <| Audio.last_transient_samples := upd (Audio.last_transient_samples au) ch row |>).
Proof. intros Hf Hrow. audio_upd. Qed.
Lemma audio_ok_lfe f : filter_ok f → audio_ok ctx (put_lfe f au).
Proof. intros Hf. audio_upd. Qed.
Lemma audio_ok_last row : zlen row = 1536 →
  audio_ok ctx (au <| Audio.last_samples := upd (Audio.last_samples au) ch row |>).
Proof. intros Hrow. audio_upd. Qed.
End updates.

(** ** One channel: the filters and the transient samples *)

Record channel_filtered (ctx : Ctx.t) (ch : Z) (x : list FLOAT) (au : Audio.t) (frame : Frame.t) (au2 : Audio.t) (frame2 : Frame.t) : Prop := {
  cf_frame : frame2 = frame <| Frame.blocks := Frame.blocks frame2 |>;
  cf_len : zlen (Frame.blocks frame2) = 6;
  cf_block : ∀ k, 0 ≤ k < 6 → (Frame.blocks frame2).[k] = put_transient
    (if switching ctx ch then upd (Block.transient_samples (Frame.blocks frame).[k]) ch
       (overlap (Audio.last_transient_samples au).[ch] (channel_transients ctx au ch x) k)
     else Block.transient_samples (Frame.blocks frame).[k]) (Frame.blocks frame).[k];
  cf_ok : audio_ok ctx au2;
  cf_last : Audio.last_samples au2 = Audio.last_samples au;
  cf_conv : Audio.fmt_convert_from_src au2 = Audio.fmt_convert_from_src au;
  cf_last_t : Audio.last_transient_samples au2 =
    if switching ctx ch then upd (Audio.last_transient_samples au) ch
      (kept (Audio.last_transient_samples au).[ch] (channel_transients ctx au ch x))
    else Audio.last_transient_samples au;
  cf_states : filters_run ctx au ch x au2;
  cf_dc : ∀ j, j ≠ ch → 0 ≤ j → (Audio.dc_filter au2).[j] = (Audio.dc_filter au).[j];
  cf_bw : ∀ j, j ≠ ch → 0 ≤ j → (Audio.bw_filter au2).[j] = (Audio.bw_filter au).[j];
  cf_bs : ∀ j, j ≠ ch → 0 ≤ j → (Audio.bs_filter au2).[j] = (Audio.bs_filter au).[j];
  cf_lfe : ch < Ctx.n_channels ctx → Audio.lfe_filter au2 = Audio.lfe_filter au
}.

Lemma put_transient_same b : put_transient (Block.transient_samples b) b = b.
Proof. by destruct b. Qed.

Lemma stage_nonzero on f xs : on ≠ 0 → stage on f xs = stage 1 f xs.
Proof. intros Hon. unfold stage. by rewrite (proj2 (Z.eqb_neq on 0)). Qed.

Section one_channel.
Variables (ctx : Ctx.t) (ch : Z) (au : Audio.t) (frame : Frame.t) (x : list FLOAT).
Hypothesis Hch : channels_ok ctx.
Hypothesis Hr : 0 ≤ ch < Ctx.n_all_channels ctx.
Hypothesis Hau : audio_ok ctx au.
Hypothesis Hsw : samples_wf frame.
Let p := Ctx.params ctx.

Local Lemma channel_range : 0 ≤ ch < 6.
Proof. destruct Hch. lia. Qed.

(** After the DC filter. *)
Record dc_done (au1 : Audio.t) (in1 : list FLOAT) : Prop := {
  dd_in : in1 = stage (EncParams.use_dc_filter p) (Audio.dc_filter au).[ch] x;
  dd_len : zlen in1 = 1536;
  dd_au : au1 = put_dc (upd (Audio.dc_filter au) ch (stage_state (EncParams.use_dc_filter p) (Audio.dc_filter au).[ch] x)) au;
  dd_ok : audio_ok ctx au1
}.

Lemma dc_filtered out : zlen x = 1536 → zlen out = 1536 →
  wp (when_filter (EncParams.use_dc_filter p) Audio.dc_filter put_dc ch (au, (x, out, false)))
    (λ '(au1, (in1, out1, _)), dc_done au1 in1 ∧ zlen out1 = 1536).
Proof.
  intros Hx Ho. pose proof channel_range as Hr6.
  eapply wp_mono; [apply when_filter_spec; try done; [by intros []|destruct Hau; lia|by intros; apply Hau]|].
  intros [au1 [[in1 out1] sw1]] (Hin1 & Hl1 & Ho1 & f1 & -> & Hf1 & ->). split; [|done]. split; [done|done|done|by apply audio_ok_dc].
Qed.

(** The filters of a full-bandwidth channel. *)
Lemma full_filters_run au2 :
  ch < Ctx.n_channels ctx →
  Audio.dc_filter au2 = upd (Audio.dc_filter au) ch (stage_state (EncParams.use_dc_filter p) (Audio.dc_filter au).[ch] x) →
  Audio.bw_filter au2 = upd (Audio.bw_filter au) ch (stage_state (EncParams.use_bw_filter p) (Audio.bw_filter au).[ch]
    (stage (EncParams.use_dc_filter p) (Audio.dc_filter au).[ch] x)) →
  (Audio.bs_filter au2).[ch] = stage_state (EncParams.use_block_switching p) (Audio.bs_filter au).[ch] (channel_audio ctx au ch x) →
  filters_run ctx au ch x au2.
Proof.
  intros Hlt Hdc Hbw Hbs. pose proof channel_range as Hr6. pose proof Hau as [Hl1 Hl2 _ _ _ _ _ _ _].
  split; rewrite ?Hdc, ?Hbw, ?(proj2 (Z.ltb_lt ch (Ctx.n_channels ctx)) Hlt); [by apply at_upd_eq; lia|by apply at_upd_eq; lia|done|lia].
Qed.

(** The transient samples, after the filters left [au2] and the signal [in2]. *)
Lemma copy_transients_spec au1 in1 au2 in2 out2 sw2 :
  dc_done au1 in1 → ch < Ctx.n_channels ctx → EncParams.use_block_switching p ≠ 0 →
  in2 = channel_audio ctx au ch x → zlen in2 = 1536 → zlen out2 = 1536 → audio_ok ctx au2 →
  au2 = put_bw (upd (Audio.bw_filter au1) ch (stage_state (EncParams.use_bw_filter p) (Audio.bw_filter au1).[ch] in1)) au1 →
  wp (copy_transients ch (au2, frame, (in2, out2, sw2))) (λ '(au3, frame3, (in3, out3, _)),
    in3 = channel_audio ctx au ch x ∧ zlen in3 = 1536 ∧ zlen out3 = 1536 ∧ channel_filtered ctx ch x au frame au3 frame3).
Proof.
  intros [Hin1 _ Hau1 _] Hlt Hnz Hin2 Hl2 Ho2 Hok2 Hau2. pose proof channel_range as Hr6.
  destruct Hsw as [Hbl Hin Htr Haud]. pose proof Hok2 as [_ _ Hbsl _ _ Hbs _ _ Hlt2].
  pose proof (dim2_row _ _ _ ch Hlt2 Hr6) as Hrow. pose proof (proj1 Hlt2) as Hl6.
  assert (Hsw' : switching ctx ch = true).
  { unfold switching. rewrite (proj2 (Z.ltb_lt _ _)) by lia. by rewrite (proj2 (Z.eqb_neq _ _)). }
  unfold copy_transients. wp_step. eapply wp_mono; [apply run_filter_spec; [lia|apply Hbs; [done|lia]|done|done]|].
  intros [fs ys] (Hys & Hly & f3 & -> & Hf3 & Hst3). cbv beta iota.
  assert (Htrans : ys = channel_transients ctx au ch x)
    by (unfold channel_transients; rewrite Hys, <- Hin2, Hau2, Hau1; done).
  wp_step. wp_step. wp_step.
  eapply wp_mono; [apply (copy_overlap_spec _ put_transient); [done|done|done|lia|done]|].
  intros bs [Hbsl' Hbs']. cbv beta. wp_step. eapply wp_mono; [apply copy_last_spec; [lia|lia|done]|].
  intros lasts ->. apply wp_ret. split; [done|]. split; [done|]. split; [done|].
  pose proof (audio_ok_bs ctx au2 ch Hch Hr6 Hok2 f3 (kept (Audio.last_transient_samples au2).[ch] ys) Hf3
    ltac:(rewrite zlen_kept; lia)) as Hok3.
  rewrite Hau2, Hau1 in *. split; rewrite ?Hsw'; simpl; try done.
  - intros k Hk. rewrite Hbs' by done. by rewrite <- Htrans.
  - by rewrite <- Htrans.
  - apply full_filters_run; simpl; [done|done|by rewrite Hin1|]. rewrite at_upd_eq by (simpl in Hbsl; lia). rewrite Hst3, <- Hin2. simpl. unfold stage_state. by rewrite (proj2 (Z.eqb_neq _ 0) Hnz).
  - intros j Hj Hj0. by rewrite at_upd_ne by lia.
  - intros j Hj Hj0. by rewrite at_upd_ne by lia.
  - intros j Hj Hj0. by rewrite at_upd_ne by lia.
Qed.

(** A full-bandwidth channel. *)
Lemma fbw_filtered au1 in1 out1 sw1 : dc_done au1 in1 → zlen out1 = 1536 → ch < Ctx.n_channels ctx →
  wp ('(au, b) ← when_filter (EncParams.use_bw_filter p) Audio.bw_filter put_bw ch (au1, (in1, out1, sw1));
      if negb (EncParams.use_block_switching p =? 0) then copy_transients ch (au, frame, b) else Some (au, frame, b))
    (λ '(au2, frame2, (in2, out2, _)), in2 = channel_audio ctx au ch x ∧ zlen in2 = 1536 ∧ zlen out2 = 1536 ∧
      channel_filtered ctx ch x au frame au2 frame2).
Proof.
  intros Hdd Ho1 Hlt. pose proof Hdd as [Hin1 Hl1 Hau1 Hok1]. pose proof channel_range as Hr6.
  wp_step. eapply wp_mono; [apply when_filter_spec; try done; [by intros []|destruct Hok1; lia|intros; by apply Hok1; [|lia]]|].
  intros [au2 [[in2 out2] sw2]] (Hin2 & Hl2 & Ho2 & f2 & Hau2 & Hf2 & Hst2). subst f2.
  pose proof (audio_ok_bw ctx au1 ch Hch Hr6 Hok1 _ Hf2) as Hok2. rewrite <- Hau2 in Hok2.
  assert (Haudio : in2 = channel_audio ctx au ch x).
  { unfold channel_audio. rewrite (proj2 (Z.ltb_lt _ _)) by lia. rewrite Hin2, Hin1. by rewrite Hau1. }
  apply wp_if; intros Hnz.
  - by apply (copy_transients_spec au1 in1); [| |lia|..].
  - apply wp_ret. split; [done|]. split; [done|]. split; [done|].
    assert (Hsw' : switching ctx ch = false) by (unfold switching; fold p; by rewrite Hnz, andb_false_r).
    rewrite Hau2, Hau1 in *.
    split; rewrite ?Hsw'; simpl; try done; [by destruct frame|by destruct Hsw|by intros; rewrite put_transient_same| |by intros; rewrite at_upd_ne by lia..].
    apply full_filters_run; simpl; [done|done|by rewrite Hin1|]. unfold stage_state. apply negb_false_iff in Hnz. by rewrite Hnz.
Qed.

(** The LFE channel. *)
Lemma lfe_filtered au1 in1 out1 sw1 : dc_done au1 in1 → zlen out1 = 1536 → Ctx.n_channels ctx ≤ ch →
  wp (if negb (EncParams.use_lfe_filter p =? 0)
      then '(au, b) ← filter_lfe ctx ch (au1, (in1, out1, sw1)); Some (au, frame, b)
      else Some (au1, frame, (in1, out1, sw1)))
    (λ '(au2, frame2, (in2, out2, _)), in2 = channel_audio ctx au ch x ∧ zlen in2 = 1536 ∧ zlen out2 = 1536 ∧
      channel_filtered ctx ch x au frame au2 frame2).
Proof.
  intros [Hin1 Hl1 Hau1 Hok1] Ho1 Hge. pose proof Hch as [Hn Hlfe Hall Hlc].
  assert (Hsw' : switching ctx ch = false) by (unfold switching; by rewrite (proj2 (Z.ltb_ge _ _)) by lia).
  assert (Hfin : audio_ok ctx (put_lfe (stage_state (EncParams.use_lfe_filter p) (Audio.lfe_filter au) in1) au1) →
    channel_filtered ctx ch x au frame (put_lfe (stage_state (EncParams.use_lfe_filter p) (Audio.lfe_filter au) in1) au1) frame).
  { intros Hok. rewrite Hau1 in *. pose proof channel_range as Hr6.
    split; rewrite ?Hsw'; simpl; try done; [by destruct frame|by destruct Hsw|by intros; rewrite put_transient_same| |by intros; rewrite at_upd_ne by lia|lia].
    split; simpl; rewrite ?(proj2 (Z.ltb_ge ch (Ctx.n_channels ctx)) Hge); try done; [|by rewrite Hin1].
    apply at_upd_eq. destruct Hau. lia. }
  assert (Haudio : stage (EncParams.use_lfe_filter p) (Audio.lfe_filter au) in1 = channel_audio ctx au ch x).
  { unfold channel_audio. rewrite (proj2 (Z.ltb_ge _ _)) by lia. by rewrite Hin1. }
  destruct (Z.eqb_spec (EncParams.use_lfe_filter p) 0) as [Hz|Hnz]; simpl negb; cbv iota.
  - apply wp_ret. split; [by rewrite <- Haudio, Hz|]. split; [done|]. split; [done|].
    assert (Hsame : au1 = put_lfe (stage_state (EncParams.use_lfe_filter p) (Audio.lfe_filter au) in1) au1)
      by (unfold stage_state; rewrite Hz, Hau1; by destruct au).
    rewrite Hsame. apply Hfin. by rewrite <- Hsame.
  - unfold filter_lfe. assert (Hlc' : Ctx.lfe_channel ctx = ch) by (rewrite Hlc; destruct (Z.eqb_spec (Ctx.lfe ctx) 0); lia).
    rewrite Hlc', Z.eqb_refl. wp_step. wp_step. unfold run_swap. wp_step.
    assert (Hf1l : filter_ok [Audio.lfe_filter au1].[0]) by (by apply Hok1).
    eapply wp_mono; [apply run_filter_spec; [by rewrite zlen_cons|exact Hf1l|done|done]|].
    intros [fs ys] (Hys & Hly & f3 & -> & Hf3 & Hst). cbv beta iota. do 3 wp_step. cbv beta iota. wp_step.
    assert (Hst' : f3 = stage_state (EncParams.use_lfe_filter p) (Audio.lfe_filter au) in1)
      by (rewrite Hst, Hau1; unfold stage_state; by rewrite (proj2 (Z.eqb_neq _ 0) Hnz)).
    apply wp_ret. split.
    { rewrite <- Haudio, stage_nonzero by done. rewrite Hys, Hau1. done. }
    split; [done|]. split; [done|]. change (upd [Audio.lfe_filter au1] 0 f3).[0] with f3. rewrite Hst' in *. apply Hfin. by apply audio_ok_lfe.
Qed.

Lemma filter_channel_spec out :
  zlen x = 1536 → zlen out = 1536 →
  wp (filter_channel ctx ch (au, frame, (x, out, false))) (λ '(au2, frame2, (in2, out2, _)),
    in2 = channel_audio ctx au ch x ∧ zlen in2 = 1536 ∧ zlen out2 = 1536 ∧ channel_filtered ctx ch x au frame au2 frame2).
Proof.
  intros Hx Ho. unfold filter_channel. wp_step. eapply wp_mono; [by apply dc_filtered|].
  intros [au1 [[in1 out1] sw1]] [Hdd Ho1]. destruct (Z.ltb_spec ch (Ctx.n_channels ctx)).
  - by apply fbw_filtered.
  - by apply lfe_filtered.
Qed.
End one_channel.
(** ** One channel: the copies *)

Section copied_step.
Variables (ctx : Ctx.t) (au : Audio.t) (frame : Frame.t) (c : Z) (au1 : Audio.t) (frame1 : Frame.t) (xs : list FLOAT).
Hypothesis Hch : channels_ok ctx.
Hypothesis Hc : 0 ≤ c < Ctx.n_all_channels ctx.
Hypothesis Hau : audio_ok ctx au.
Hypothesis Hcopied : copied ctx au frame c au1 frame1.
Hypothesis Hx : xs = (Frame.input_audio frame).[c].

Local Lemma copied_channel_audio : channel_audio ctx au1 c xs = channel_audio ctx au c xs.
Proof.
  destruct Hcopied as [_ _ _ _ _ Htodo Hlfe _ _ _ _ _]. destruct Hch as [Hn Hlf Hall _].
  destruct (Htodo c ltac:(lia)) as (_ & Hdc & Hbw & _). unfold channel_audio. rewrite Hdc, Hbw.
  destruct (Z.ltb_spec c (Ctx.n_channels ctx)) as [|Hge]; [done|]. by rewrite Hlfe by lia.
Qed.
Local Lemma copied_channel_transients : channel_transients ctx au1 c xs = channel_transients ctx au c xs.
Proof.
  destruct Hcopied as [_ _ _ _ _ Htodo _ _ _ _ _ _]. destruct Hch as [Hn Hlf Hall _].
  destruct (Htodo c ltac:(lia)) as (_ & _ & _ & Hbs). unfold channel_transients. by rewrite Hbs, copied_channel_audio.
Qed.

(** The filters of the channels before, and of this one. *)
Local Lemma copied_filters au2 ch ys lasts :
  (ch < c ∧ filters_run ctx au ch ys au2) ∨ (ch = c ∧ ys = xs ∧ filters_run ctx au1 c xs au2) →
  filters_run ctx au ch ys (Audio.mk (Audio.fmt_convert_from_src au2) (Audio.bs_filter au2) (Audio.dc_filter au2) (Audio.bw_filter au2)
    (Audio.lfe_filter au2) lasts (Audio.last_transient_samples au2)).
Proof.
  intros [[_ [H1 H2 H3 H4]]|(-> & -> & [H1 H2 H3 H4])]; [by split|].
  rewrite copied_channel_audio in H3. destruct Hcopied as [_ _ _ _ _ Htodo Hlfe _ _ _ _ _]. destruct Hch as [Hn Hlf Hall _].
  destruct (Htodo c ltac:(lia)) as (_ & Hdc & Hbw & Hbs). rewrite Hdc, ?Hbw, ?Hbs in *.
  split; simpl; try done. intros Hge. rewrite H4 by done. by rewrite Hlfe by lia.
Qed.

Lemma copied_step au2 frame2 bs y :
  channel_filtered ctx c xs au1 frame1 au2 frame2 → zlen bs = 6 → zlen y = 1536 →
  (∀ k, 0 ≤ k < 6 → bs.[k] = put_input (upd (Block.input_samples (Frame.blocks frame2).[k]) c
     (overlap (Audio.last_samples au2).[c] (channel_audio ctx au c xs) k)) (Frame.blocks frame2).[k]) →
  zlen (channel_audio ctx au c xs) = 1536 →
  (switching ctx c = true → zlen (channel_transients ctx au c xs) = 1536) →
  copied ctx au frame (c + 1)
    (au2 <| Audio.last_samples := upd (Audio.last_samples au2) c (kept (Audio.last_samples au2).[c] (channel_audio ctx au c xs)) |>)
    (frame2 <| Frame.blocks := bs |> <| Frame.input_audio := upd (Frame.input_audio frame2) c y |>).
Proof.
  intros [Hf2 Hl2 Hb2 Hok2 Hla2 Hcv2 Hlt2 Hst2 Hdc2 Hbw2 Hbs2 Hlfe2] Hlbs Hly Hbs Hla Hlt.
  rewrite copied_channel_transients in *.
  assert (Hc6 : 0 ≤ c < 6) by (destruct Hch; lia).
  destruct Hcopied as [Hf1 Hb1 [Hw1 Hw2 Hw3 Hw4] Hok1 Hcv1 Htodo1 Hlfe1 Hst1 Hin1 Hlast1 Htr1 Hltr1].
  rewrite Hla2 in *.
  assert (Hlastc : (Audio.last_samples au1).[c] = (Audio.last_samples au).[c]) by (rewrite Hlast1, Z.ltb_irrefl by lia; done).
  assert (Hltc : (Audio.last_transient_samples au1).[c] = (Audio.last_transient_samples au).[c])
    by (rewrite Hltr1, Z.ltb_irrefl by lia; done).
  pose proof (au_last _ _ Hau) as Hlast. pose proof (au_last_t _ _ Hau) as Hlastt.
  assert (Hin2 : Frame.input_audio frame2 = Frame.input_audio frame1) by (by rewrite Hf2).
  assert (Hl1 : dim2 6 1536 (Audio.last_samples au1)) by (destruct Hok1; done).
  assert (Hlt1 : dim2 6 256 (Audio.last_transient_samples au1)) by (destruct Hok1; done).
  split; simpl.
  - by rewrite Hf2, Hf1.
  - intros k Hk. rewrite Hbs, Hb2 by done. rewrite (Hb1 k Hk). by destruct (Frame.blocks frame).[k].
  - split; simpl; [done| | |by rewrite Hin2; apply dim2_upd].
    + intros k Hk. rewrite Hbs, Hb2 by done. simpl. apply dim2_upd; [by apply Hw2|done|].
      apply zlen_overlap; [|done|done]. rewrite Hlastc, (dim2_row _ _ _ c Hlast); lia.
    + intros k Hk. rewrite Hbs, Hb2 by done. simpl. destruct (switching ctx c); [|by apply Hw3]. specialize (Hlt eq_refl).
      apply dim2_upd; [by apply Hw3|done|]. apply zlen_overlap; [|done|done]. rewrite Hltc, (dim2_row _ _ _ c Hlastt); lia.
  - rewrite <- Hla2. apply audio_ok_last; [done|done|done|]. pose proof (dim2_row _ _ _ c Hl1 Hc6). rewrite Hla2, zlen_kept; lia.
  - by rewrite Hcv2.
  - intros ch Hchr. rewrite Hin2, at_upd_ne, Hdc2, Hbw2, Hbs2 by lia. apply Htodo1. lia.
  - intros Hle. rewrite Hlfe2 by lia. apply Hlfe1. lia.
  - intros ch Hchr. apply copied_filters. destruct (Z.eq_dec ch c) as [-> |Hne]; [rewrite <- Hx; right; by split|left]. split; [lia|].
    destruct (Hst1 ch ltac:(lia)) as [H1 H2 H3 H4]. split; [by rewrite Hdc2 by lia|by rewrite Hbw2 by lia|by rewrite Hbs2 by lia|].
    intros Hge. exfalso. destruct Hch as [_ [] Hall _]; lia.
  - intros k ch Hk Hchr. rewrite Hbs, Hb2 by done. simpl.
    apply (row_done _ (λ ch, overlap (Audio.last_samples au).[ch] (channel_audio ctx au ch (Frame.input_audio frame).[ch]) k) (λ ch, _)); [rewrite (proj1 (Hw2 k Hk)); lia|lia|by apply Hin1|].
    by rewrite Hlastc, Hx.
  - intros ch Hchr. apply (row_done _ (λ ch, kept (Audio.last_samples au).[ch] (channel_audio ctx au ch (Frame.input_audio frame).[ch])) (λ ch, _)); [rewrite (proj1 Hl1); lia|lia|by apply Hlast1|].
    by rewrite Hlastc, Hx.
  - intros k ch Hk Hchr. rewrite Hbs, Hb2 by done. simpl.
    apply (row_done_if (switching ctx) _ (λ ch, overlap (Audio.last_transient_samples au).[ch] (channel_transients ctx au ch (Frame.input_audio frame).[ch]) k) (λ ch, _));
      [rewrite (proj1 (Hw3 k Hk)); lia|lia|by apply Htr1|]. by rewrite Hltc, Hx.
  - intros ch Hchr. rewrite Hlt2.
    apply (row_done_if (switching ctx) _ (λ ch, kept (Audio.last_transient_samples au).[ch] (channel_transients ctx au ch (Frame.input_audio frame).[ch])) (λ ch, _));
      [rewrite (proj1 Hlt1); lia|lia|by apply Hltr1|]. by rewrite Hltc, Hx.
Qed.
End copied_step.

Lemma zlen_stage on f xs : (on ≠ 0 → filter_ok f) → zlen xs = 1536 → zlen (stage on f xs) = 1536.
Proof.
  intros Hf Hl. unfold stage. destruct (Z.eqb_spec on 0); [done|].
  destruct (filter_run_list f xs xs 1536 (Hf ltac:(done)) ltac:(lia) ltac:(lia)) as (f' & ys & Hlist & _ & Hlen & _).
  rewrite (take_ge xs) in Hlist by (unfold zlen in *; lia). rewrite Hlist. simpl. unfold zlen. lia.
Qed.

Lemma copy_inputs_spec ch au frame in_ out sw :
  0 ≤ ch < 6 → zlen (Frame.blocks frame) = 6 → (∀ k, 0 ≤ k < 6 → dim2 6 512 (Block.input_samples (Frame.blocks frame).[k])) →
  zlen (Frame.input_audio frame) = 6 → dim2 6 1536 (Audio.last_samples au) → zlen in_ = 1536 → zlen out = 1536 →
  wp (copy_inputs ch (au, frame, (in_, out, sw))) (λ '(au', frame', buffer), zlen buffer = 1536 ∧ ∃ bs y,
    au' = au <| Audio.last_samples := upd (Audio.last_samples au) ch (kept (Audio.last_samples au).[ch] in_) |> ∧
    frame' = frame <| Frame.blocks := bs |> <| Frame.input_audio := upd (Frame.input_audio frame) ch y |> ∧
    zlen bs = 6 ∧ zlen y = 1536 ∧ ∀ k, 0 ≤ k < 6 → bs.[k] = put_input (upd (Block.input_samples (Frame.blocks frame).[k]) ch
      (overlap (Audio.last_samples au).[ch] in_ k)) (Frame.blocks frame).[k]).
Proof.
  intros Hch Hbl Hin Hal Hlast Hi Ho. pose proof (dim2_row _ _ _ ch Hlast Hch) as Hrow. pose proof (proj1 Hlast) as Hl6.
  unfold copy_inputs. wp_step. wp_step. wp_step.
  eapply wp_mono; [apply (copy_overlap_spec _ put_input); [done|done|done|lia|done]|]. intros bs [Hbsl Hbs]. cbv beta.
  wp_step. eapply wp_mono; [apply copy_last_spec; [lia|lia|done]|]. intros lasts ->. wp_step. wp_step.
  apply wp_ret. split; [by destruct sw|]. exists bs. eexists. repeat split; [done|by destruct sw|done].
Qed.

Lemma copy_channel_spec ctx au frame c au1 frame1 buffer :
  channels_ok ctx → 0 ≤ c < Ctx.n_all_channels ctx → audio_ok ctx au → zlen (Frame.input_audio frame).[c] = 1536 →
  copied ctx au frame c au1 frame1 → zlen buffer = 1536 →
  wp (copy_channel ctx c (au1, frame1, buffer)) (λ '(au2, frame2, buffer2), copied ctx au frame (c + 1) au2 frame2 ∧ zlen buffer2 = 1536).
Proof.
  intros Hch Hc Hau Hx Hcp Hbuf. assert (Hc6 : 0 ≤ c < 6) by (destruct Hch; lia).
  pose proof Hcp as [_ _ Hwf Hok1 _ Htodo _ _ _ _ _ _]. destruct (Htodo c ltac:(lia)) as (Hxc & _).
  pose proof Hwf as [_ _ _ Haud]. pose proof (proj1 Haud) as Haud6.
  unfold copy_channel. wp_step. wp_step. rewrite Hxc. wp_step.
  eapply wp_mono; [apply (filter_channel_spec ctx c au1 frame1 (Frame.input_audio frame).[c]); done|].
  intros [[au2 frame2] [[in2 out2] sw2]] (Hin2 & Hl2 & Ho2 & Hcf). pose proof Hcf as [Hf2 Hbl2 Hb2 Hok2 _ _ _ _ _ _ _ _].
  eapply wp_mono; [apply copy_inputs_spec|]; try done.
  - intros k Hk. rewrite Hb2 by done. simpl. by apply (sw_input _ Hwf).
  - by rewrite Hf2.
  - by destruct Hok2.
  - intros [[au3 frame3] buf] (Hbuf' & bs & y & -> & -> & Hlbs & Hly & Hbs). split; [|done].
    rewrite (copied_channel_audio ctx au frame c au1 frame1 _ Hch Hc Hcp) in Hin2. subst in2.
    apply (copied_step ctx au frame c au1 frame1 (Frame.input_audio frame).[c]); try done.
    intros Hsw. unfold channel_transients. apply zlen_stage; [|done]. intros _. apply (au_bs _ _ Hau).
    + unfold switching in Hsw. intros Hz. by rewrite Hz, andb_false_r in Hsw.
    + unfold switching in Hsw. lia.
Qed.

Lemma copy_samples_spec ctx au frame buffer :
  channels_ok ctx → audio_ok ctx au → samples_wf frame → zlen buffer = 1536 →
  wp (copy_samples ctx au frame buffer) (λ '(au', frame'), copied ctx au frame (Ctx.n_all_channels ctx) au' frame').
Proof.
  intros Hch Hau Hwf Hbuf. unfold copy_samples. wp_step.
  apply (wp_for_up (λ c '(au1, frame1, buf), copied ctx au frame c au1 frame1 ∧ zlen buf = 1536)).
  - destruct Hch. lia.
  - split; [|done]. pose proof Hwf as [? ? ? ?]. split; try done.
    + by destruct frame.
    + intros k Hk. by destruct (Frame.blocks frame).[k].
    + lia.
    + intros k ch Hk Hr. by replace (ch <? 0) with false by lia.
    + intros ch Hr. by replace (ch <? 0) with false by lia.
    + intros k ch Hk Hr. by replace (ch <? 0) with false by lia.
    + intros ch Hr. by replace (ch <? 0) with false by lia.
  - intros c [[au1 frame1] buf] Hc [Hcp Hb]. apply copy_channel_spec; try done.
    apply (dim2_row _ _ _ c (sw_audio _ Hwf)). destruct Hch. lia.
  - intros [[au1 frame1] buf] [Hcp _]. by apply wp_ret.
Qed.

(** C32: [copy_samples] never reads or writes outside an array, and leaves every
    channel cut into six windows of 512 samples that overlap by half: window
    [k] holds samples [256 k .. 256 k + 511] of the last 256 filtered samples
    of the previous frame followed by this frame's, where the signal is the
    input passed through the filters in use; the same for the high-passed
    signal of the channels that may switch blocks; the filters are left in the
    states this frame leads to, the last 256 samples are kept for the next
    frame, and nothing else of the frame changes. *)
Theorem copy_samples_correct ctx au frame buffer :
  channels_ok ctx → audio_ok ctx au → samples_wf frame → zlen buffer = 1536 →
  ∃ au' frame', copy_samples ctx au frame buffer = Some (au', frame') ∧
    copied ctx au frame (Ctx.n_all_channels ctx) au' frame'.
Proof.
  intros Hch Hau Hwf Hbuf. pose proof (copy_samples_spec ctx au frame buffer Hch Hau Hwf Hbuf) as Hw.
  apply wp_some in Hw as ([au' frame'] & Heq & Hcp). by exists au', frame'.
Qed.
End copies.

(** * Witness *)

(** A stereo context with the DC and the transient filters on. *)
Definition filtering_ctx : Ctx.t := {|
  Ctx.params := EncParams.mk 0 1 1 1 0 0 192 240 (-2) 0 8 5 0 60;
  Ctx.meta := Metadata.mk 0 0 0 31 0 0 4 4 4 4 0 0 0 0;
  Ctx.n_threads := 1; Ctx.last_samples_count := 0;
  Ctx.n_channels := 2; Ctx.n_all_channels := 2; Ctx.acmod := 2; Ctx.lfe := 0;
  Ctx.lfe_channel := -1; Ctx.sample_rate := 48000; Ctx.halfratecod := 0; Ctx.bsid := 8; Ctx.fscod := 0;
  Ctx.bsmod := 0; Ctx.target_bitrate := 192; Ctx.frmsizecod := 20; Ctx.fixed_bwcode := 50
|}.
Definition filtering_audio : Audio.t := {|
  Audio.fmt_convert_from_src := None;
  Audio.bs_filter := replicate 6 example_biquad; Audio.dc_filter := replicate 6 example_biquad;
  Audio.bw_filter := replicate 6 filter_inhabited.(inhabitant); Audio.lfe_filter := filter_inhabited.(inhabitant);
  Audio.last_samples := replicate 6 (replicate 1536 zero_float);
  Audio.last_transient_samples := replicate 6 (replicate 256 zero_float)
|}.

Lemma filtering_audio_ok : audio_ok filtering_ctx filtering_audio.
Proof.
  split; try done; try exact (dim2_replicate 6 _ _); intros _ c Hc; change (0 ≤ c < 2) in Hc;
    change (filter_ok (replicate 6 example_biquad).[c]); rewrite at_replicate by lia; exact example_biquad_ok.
Qed.

Lemma zero_frame_samples : samples_wf zero_frame.
Proof.
  split; [done|..|exact (dim2_replicate 6 1536 _)]; intros k Hk;
    change (Frame.blocks zero_frame) with (replicate 6 zero_block); rewrite at_replicate by lia; exact (dim2_replicate 6 512 _).
Qed.

Lemma copy_samples_correct_witness :
  ∃ au' frame', copy_samples (H := single_format) filtering_ctx filtering_audio zero_frame (replicate 1536 zero_float) = Some (au', frame') ∧
    copied (H := single_format) filtering_ctx filtering_audio zero_frame 2 au' frame'.
Proof.
  apply (copy_samples_correct (H := single_format) filtering_ctx filtering_audio zero_frame (replicate 1536 zero_float)).
  - split; simpl; lia.
  - exact filtering_audio_ok.
  - exact zero_frame_samples.
  - reflexivity.
Defined.
