(* ===== verification/Coefs.v ===== *)
(** The coefficients of a frame, [libaften/a52enc.c]: [detect_transient]
    chooses the transform, [generate_coefs] windows and transforms, and
    [calc_rematrixing], [compute_dither_strategy] and [calculate_dynrng] derive
    the flags of the frame.  The window and the two transforms are function
    pointers of the context and a class here; its laws are what the other
    stages rely on. *)
From Stdlib Require Import ZArith Lia ZifyBool Bool.
From stdpp Require Import base option list numbers.
From coqutil Require Import Datatypes.RecordSettersUsingExistingGetters.
From S2P Require Import Prelude CMachine Float FloatExact Types Exponent Dynrng Window.
Local Open Scope Z_scope.
Local Open Scope carray_scope.

(** [winf.apply_a52_window], [mdct_ctx_256.mdct] and [mdct_ctx_512.mdct]: the
    window works in place; a transform writes [out] and may overwrite [in]. *)
Class Kernels := {
  k_apply_window : list FLOAT → option (list FLOAT);
  k_mdct_256 : list FLOAT → list FLOAT → option (list FLOAT * list FLOAT);
  k_mdct_512 : list FLOAT → list FLOAT → option (list FLOAT * list FLOAT)
}.

Section transform.
Context `{FloatFormat}.

(** * Transients *)

(** The greatest magnitude of [xx[off]], ..., [xx[off + n - 1]]. *)
Definition level (xx : list FLOAT) (off n : Z) : option FLOAT :=
  for_up 0 n (λ j l, x ← aget xx (off + j); Some (F_MAX (AFT_FABS x) l)) zero_float.

(** One of the three loops: the levels of the sections [lo .. hi - 1] of
    [width] samples; [Some r] is [return r]. *)
Definition detect_level (xx : list FLOAT) (lo hi width : Z) (t : FLOAT) (quiet : FLOAT → bool) : option (option Z) :=
  '(_, ret) ← for_break lo hi (λ i '(prev, ret),
    l ← level xx (i * width) width;
    if quiet l then Some (inl (l, Some 0))
    else if (i >? lo) && F_lt prev (F_mul l t) then Some (inl (l, Some 1))
    else Some (inr (l, ret))) (zero_float, None);
  Some ret.

Definition detect_transient (in_ : list FLOAT) : option Z :=
  let tmax := F_div (F_of_Z 100) (F_of_Z 32768) in
  let t1 := F_dec 1 10 in
  let t2 := F_dec 3 40 in
  let t3 := F_dec 1 20 in
  r1 ← detect_level in_ 0 2 256 t1 (λ l, F_lt l tmax);
  match r1 with Some r => Some r | None =>
    r2 ← detect_level in_ 1 4 128 t2 (λ _, false);
    match r2 with Some r => Some r | None =>
      r3 ← detect_level in_ 3 8 64 t3 (λ _, false);
      match r3 with Some r => Some r | None => Some 0 end
    end
  end.

(** * Coefficients *)

Context `{Kernels}.

Definition generate_coefs_block (ctx : Ctx.t) (ncoefs : list Z) (ch : Z) (block : Block.t) : option Block.t :=
  blksw ← (if negb (EncParams.use_block_switching (Ctx.params ctx) =? 0)
    then row ← aget (Block.transient_samples block) ch; v ← detect_transient row; aset (Block.blksw block) ch v
    else aset (Block.blksw block) ch 0);
  samples ← aget (Block.input_samples block) ch;
  samples ← k_apply_window samples;
  sw ← aget blksw ch;
  coef ← aget (Block.mdct_coef block) ch;
  '(coef, samples) ← (if negb (sw =? 0) then k_mdct_256 coef samples else k_mdct_512 coef samples);
  nc ← aget ncoefs ch;
  coef ← for_up nc 256 (λ i coef, aset coef i zero_float) coef;
  inputs ← aset (Block.input_samples block) ch samples;
  coefs ← aset (Block.mdct_coef block) ch coef;
  Some (block <| Block.blksw := blksw |> <| Block.input_samples := inputs |> <| Block.mdct_coef := coefs |>).

Definition generate_coefs (ctx : Ctx.t) (frame : Frame.t) : option Frame.t :=
  for_up 0 (Ctx.n_all_channels ctx) (λ ch frame, for_up 0 A52_NUM_BLOCKS (λ blk frame,
    '(frame, _) ← with_block frame blk (λ b (_ : unit),
      b ← generate_coefs_block ctx (Frame.ncoefs frame) ch b; Some (b, tt)) tt;
    Some frame) frame) frame.

(** * Rematrixing *)

Definition rematbndtab : list Z := [13; 25; 37; 61; 252].

(** [for (i = lo; i < hi; i++) { if (i == nc) break; ... }] *)
Definition for_bins {S} (lo hi nc : Z) (body : Z → S → option S) (s : S) : option S :=
  for_break lo hi (λ i s, if i =? nc then Some (inl s) else s ← body i s; Some (inr s)) s.

Definition remat_sums (block : Block.t) (lo hi nc : Z) (sum : FLOAT * FLOAT * FLOAT * FLOAT)
    : option (FLOAT * FLOAT * FLOAT * FLOAT) :=
  for_bins lo hi nc (λ i '(s0, s1, s2, s3),
    lt ← aget2 (Block.mdct_coef block) 0 i;
    rt ← aget2 (Block.mdct_coef block) 1 i;
    Some (F_add s0 (F_mul lt lt), F_add s1 (F_mul rt rt),
          F_add s2 (F_mul (F_add lt rt) (F_add lt rt)), F_add s3 (F_mul (F_sub lt rt) (F_sub lt rt)))) sum.

Definition remat_apply (block : Block.t) (lo hi nc : Z) : option Block.t :=
  coef ← for_bins lo hi nc (λ i coef,
    l ← aget2 coef 0 i; r ← aget2 coef 1 i;
    let ctmp1 := F_mul l (F_dec 1 2) in
    let ctmp2 := F_mul r (F_dec 1 2) in
    coef ← aset2 coef 0 i (F_add ctmp1 ctmp2);
    aset2 coef 1 i (F_sub ctmp1 ctmp2)) (Block.mdct_coef block);
  Some (block <| Block.mdct_coef := coef |>).

Definition calc_rematrixing (ctx : Ctx.t) (frame : Frame.t) : option Frame.t :=
  flags ← for_up 0 4 (λ bnd flags, aset flags bnd 0) (Frame.rematflg frame);
  let frame := frame <| Frame.rematflg := flags |> in
  if EncParams.use_rematrixing (Ctx.params ctx) =? 0 then Some frame else
  for_up 0 4 (λ bnd frame,
    lo ← aget rematbndtab bnd; hi ← aget rematbndtab (bnd + 1);
    nc ← aget (Frame.ncoefs frame) 0;
    '(s0, s1, s2, s3) ← for_up 0 A52_NUM_BLOCKS (λ blk sum,
      b ← aget (Frame.blocks frame) blk; remat_sums b lo hi nc sum) (zero_float, zero_float, zero_float, zero_float);
    if F_lt (F_MIN s2 s3) (F_MIN s0 s1) then
      flags ← aset (Frame.rematflg frame) bnd 1;
      for_up 0 A52_NUM_BLOCKS (λ blk frame,
        '(frame, _) ← with_block frame blk (λ b (_ : unit), b ← remat_apply b lo hi nc; Some (b, tt)) tt;
        Some frame) (frame <| Frame.rematflg := flags |>)
    else Some frame) frame.

(** * Dither and dynamic range *)

Definition compute_dither_strategy (ctx : Ctx.t) (frame : Frame.t) : option Frame.t :=
  '(frame, _) ← for_up 0 A52_NUM_BLOCKS (λ blk '(frame, block0),
    block1 ← aget (Frame.blocks frame) blk;
    dith ← for_up 0 (Ctx.n_channels ctx) (λ ch dith,
      sw1 ← aget (Block.blksw block1) ch;
      sw ← (if negb (sw1 =? 0) then Some true
            else if blk >? 0 then (b0 ← block0; sw0 ← aget (Block.blksw b0) ch; Some (negb (sw0 =? 0)))
            else Some false);
      aset dith ch (if sw : bool then 0 else 1)) (Block.dithflag block1);
    let block1 := block1 <| Block.dithflag := dith |> in
    blocks ← aset (Frame.blocks frame) blk block1;
    Some (frame <| Frame.blocks := blocks |>, Some block1)) (frame, None);
  Some frame.

Context `{LibM}.

Definition calculate_dynrng (ctx : Ctx.t) (frame : Frame.t) : option Frame.t :=
  if EncParams.dynrng_profile (Ctx.params ctx) =? DYNRNG_PROFILE_NONE then Some frame else
  for_up 0 A52_NUM_BLOCKS (λ blk frame,
    '(frame, _) ← with_block frame blk (λ b (_ : unit),
      d ← calculate_block_dynrng (Block.input_samples b) (Ctx.n_all_channels ctx)
            (- Metadata.dialnorm (Ctx.meta ctx)) (EncParams.dynrng_profile (Ctx.params ctx));
      Some (b <| Block.dynrng := d |>, tt)) tt;
    Some frame) frame.
End transform.


(** * Transients: a reference definition *)

Section detect.
Context `{FloatFormat}.

Definition peak_of (xs : list FLOAT) : FLOAT := foldl (λ l x, F_MAX (AFT_FABS x) l) zero_float xs.

(** The peak of section [i] of [width] samples, and whether it exceeds the one
    before by a factor [1 / t]. *)
Definition section_peak (xs : list FLOAT) (width i : Z) : FLOAT := peak_of (slice xs (i * width) width).
Definition rises (xs : list FLOAT) (width : Z) (t : FLOAT) (i : Z) : bool :=
  F_lt (section_peak xs width (i - 1)) (F_mul (section_peak xs width i) t).

(** A block is a transient when both halves are loud enough and the peak of a
    section of 256, 128 or 64 samples jumps. *)
Definition is_transient (xs : list FLOAT) : bool :=
  let quiet i := F_lt (section_peak xs 256 i) (F_div (F_of_Z 100) (F_of_Z 32768)) in
  negb (quiet 0) && negb (quiet 1) &&
  (rises xs 256 (F_dec 1 10) 1 || existsb (rises xs 128 (F_dec 3 40)) [2; 3] || existsb (rises xs 64 (F_dec 1 20)) [4; 5; 6; 7]).

Lemma level_peak xs off n : 0 ≤ off → 0 ≤ n → off + n ≤ zlen xs → level xs off n = Some (peak_of (slice xs off n)).
Proof.
  intros Ho Hn Hl. cut (wp (level xs off n) (λ l, l = peak_of (slice xs off n))); [intros Hw; by apply wp_some in Hw as (l & -> & ->)|].
  unfold level. apply (wp_for_up (λ j l, l = peak_of (slice xs off j))); [done|by rewrite slice_0| |done].
  intros j l Hj ->. wp_steps. rewrite slice_snoc by lia. unfold peak_of. by rewrite foldl_app.
Qed.

(** One of the loops; only the first one asks for quiet sections. *)
Lemma detect_level_spec xs lo hi width t quiet :
  0 < width → 0 ≤ lo < hi → hi * width ≤ zlen xs →
  wp (detect_level xs lo hi width t quiet) (λ r,
    match r with
    | None => ∀ i, lo ≤ i < hi → quiet (section_peak xs width i) = false ∧ (lo < i → rises xs width t i = false)
    | Some v => ∃ i, lo ≤ i < hi ∧ (∀ j, lo ≤ j < i → quiet (section_peak xs width j) = false ∧ (lo < j → rises xs width t j = false)) ∧
        (if quiet (section_peak xs width i) then v = 0 else lo < i ∧ rises xs width t i = true ∧ v = 1)
    end).
Proof.
  intros Hw Hlo Hhi. unfold detect_level. wp_step.
  apply (wp_for_break (λ i '(prev, ret), ret = None ∧ (lo < i → prev = section_peak xs width (i - 1)) ∧
    ∀ j, lo ≤ j < i → quiet (section_peak xs width j) = false ∧ (lo < j → rises xs width t j = false))).
  - lia.
  - split; [done|]. split; [lia|]. intros j Hj. lia.
  - intros i [prev ret] Hi (-> & Hprev & Hall). rewrite level_peak by nia. wp_step. fold (section_peak xs width i). apply wp_ret.
    destruct (quiet (section_peak xs width i)) eqn:Hq; [simpl; exists i; by rewrite Hq|].
    destruct (i >? lo) eqn:Hgt; simpl.
    + rewrite Hprev by lia. fold (rises xs width t i). destruct (rises xs width t i) eqn:Hr.
      * exists i. rewrite Hq. split; [lia|]. split; [done|]. split; [lia|done].
      * split; [done|]. split; [intros; f_equal; lia|]. intros j Hj. destruct (Z.eq_dec j i) as [-> |]; [done|]. apply Hall. lia.
    + split; [done|]. split; [intros; f_equal; lia|]. intros j Hj. assert (j = i) as -> by lia. split; [done|lia].
  - intros [prev ret] (-> & _ & Hall). by apply wp_ret.
Qed.

(** The later loops ask only for a jump. *)
Lemma detect_rises xs lo hi width t js :
  0 < width → 0 ≤ lo < hi → hi * width ≤ zlen xs → (∀ i, In i js ↔ lo < i < hi) →
  wp (detect_level xs lo hi width t (λ _, false)) (λ r, r = if existsb (rises xs width t) js then Some 1 else None).
Proof.
  intros Hw Hlo Hhi Hjs. eapply wp_mono; [by apply detect_level_spec|]. cbv beta. intros [v|].
  - intros (i & Hi & _ & Hlt & Hr & ->). replace (existsb _ js) with true; [done|]. symmetry.
    apply existsb_exists. exists i. split; [apply Hjs; lia|done].
  - intros Hall. replace (existsb _ js) with false; [done|]. symmetry. apply not_true_is_false. intros (i & Hi & Hr)%existsb_exists.
    apply Hjs in Hi. destruct (Hall i ltac:(lia)) as [_ Hf]. rewrite Hf in Hr; [done|lia].
Qed.

(** [detect_transient] stays inside the block and returns 1 exactly when
    neither half of the block is quieter than 100/32768 and the peak of the
    second half, of one of the last two quarters or of one of the last four
    eighths exceeds the peak of the section before it by the factor of its level. *)
Theorem detect_transient_correct xs : zlen xs = 512 → detect_transient xs = Some (if is_transient xs then 1 else 0).
Proof.
  intros Hl. cut (wp (detect_transient xs) (λ r, r = if is_transient xs then 1 else 0)).
  { intros Hw. by apply wp_some in Hw as (r & -> & ->). }
  unfold detect_transient, is_transient. wp_step.
  eapply wp_mono; [apply detect_level_spec; lia|]. cbv beta. intros [v|].
  - intros (i & Hi & Hbefore & Hv). apply wp_ret. assert (i = 0 ∨ i = 1) as [-> | ->] by lia.
    + destruct (F_lt (section_peak xs 256 0) _); [done|lia].
    + destruct (Hbefore 0 ltac:(lia)) as [-> _]. destruct (F_lt (section_peak xs 256 1) _); [done|].
      by destruct Hv as (_ & -> & ->).
  - intros Hall. destruct (Hall 0 ltac:(lia)) as [-> _]. destruct (Hall 1 ltac:(lia)) as [-> Hr]. rewrite Hr by lia. cbn [negb andb orb].
    wp_step. eapply wp_mono; [apply (detect_rises _ _ _ _ _ [2; 3]); [lia..|simpl; lia]|].
    cbv beta. intros r2 ->. destruct (existsb (rises xs 128 _) _); [by apply wp_ret|]. cbn [orb]. wp_step.
    eapply wp_mono; [apply (detect_rises _ _ _ _ _ [4; 5; 6; 7]); [lia..|simpl; lia]|].
    cbv beta. intros r3 ->. by destruct (existsb (rises xs 64 _) _).
Qed.
End detect.

(** * The transforms *)

(** What the window and the transforms promise: they stay inside their arrays. *)
Class KernelsOk `{Kernels} : Prop := {
  kernel_window : ∀ xs, zlen xs = 512 → ∃ ys, k_apply_window xs = Some ys ∧ zlen ys = 512;
  kernel_256 : ∀ out xs, zlen out = 256 → zlen xs = 512 → ∃ out' xs', k_mdct_256 out xs = Some (out', xs') ∧ zlen out' = 256 ∧ zlen xs' = 512;
  kernel_512 : ∀ out xs, zlen out = 256 → zlen xs = 512 → ∃ out' xs', k_mdct_512 out xs = Some (out', xs') ∧ zlen out' = 256 ∧ zlen xs' = 512
}.

Section generate.
Context `{FF : FloatFormat} `{K : Kernels} `{KOk : !KernelsOk}.

(** The switch, the windowed samples, and the transform of channel [ch] of the
    block [b]: the coefficients and what is left of the samples. *)
Definition switch_of (ctx : Ctx.t) (b : Block.t) (ch : Z) : Z :=
  if EncParams.use_block_switching (Ctx.params ctx) =? 0 then 0 else if is_transient (Block.transient_samples b).[ch] then 1 else 0.
Definition transform_of (ctx : Ctx.t) (b : Block.t) (ch : Z) : list FLOAT * list FLOAT :=
  let xs := default [] (k_apply_window (Block.input_samples b).[ch]) in
  let coef := (Block.mdct_coef b).[ch] in
  default ([], []) (if switch_of ctx b ch =? 0 then k_mdct_512 coef xs else k_mdct_256 coef xs).
Definition bandlimited (nc : Z) (coef : list FLOAT) : list FLOAT := take (Z.to_nat nc) coef ++ replicate (Z.to_nat (256 - nc)) zero_float.

(** The block [b] is [b0] with its first [m] channels transformed. *)
Record generated (ctx : Ctx.t) (ncoefs : list Z) (m : Z) (b0 b : Block.t) : Prop := {
  ge_same : b = b0 <| Block.blksw := Block.blksw b |> <| Block.input_samples := Block.input_samples b |>
                   <| Block.mdct_coef := Block.mdct_coef b |>;
  ge_blksw_len : zlen (Block.blksw b) = 6;
  ge_input_dim : dim2 6 512 (Block.input_samples b);
  ge_coef_dim : dim2 6 256 (Block.mdct_coef b);
  ge_blksw : ∀ ch, 0 ≤ ch < 6 → (Block.blksw b).[ch] = if ch <? m then switch_of ctx b0 ch else (Block.blksw b0).[ch];
  ge_coef : ∀ ch, 0 ≤ ch < 6 → (Block.mdct_coef b).[ch] =
    if ch <? m then bandlimited ncoefs.[ch] (fst (transform_of ctx b0 ch)) else (Block.mdct_coef b0).[ch];
  ge_input : ∀ ch, 0 ≤ ch < 6 → (Block.input_samples b).[ch] =
    if ch <? m then snd (transform_of ctx b0 ch) else (Block.input_samples b0).[ch]
}.

Lemma zlen_bandlimited nc coef : 0 ≤ nc ≤ 256 → zlen coef = 256 → zlen (bandlimited nc coef) = 256.
Proof. intros Hn Hl. unfold bandlimited, zlen in *. rewrite length_app, length_take, length_replicate. lia. Qed.

Lemma zero_tail nc coef :
  0 ≤ nc ≤ 256 → zlen coef = 256 → wp (for_up nc 256 (λ i coef, aset coef i zero_float) coef) (λ c, c = bandlimited nc coef).
Proof.
  intros Hn Hl.
  assert (Ht : take (Z.to_nat 256) coef = coef) by (apply take_ge; unfold zlen in *; lia).
  apply (wp_for_up (λ i c, zlen c = 256 ∧ ∀ j, 0 ≤ j < 256 → c.[j] = if (nc <=? j) && (j <? i) then zero_float else coef.[j])).
  - lia.
  - split; [done|]. intros j Hj. by replace ((nc <=? j) && (j <? nc)) with false by lia.
  - intros i c Hi [Hlc Hc]. wp_step. split; [by rewrite zlen_upd|]. intros j Hj. rewrite at_upd by lia.
    destruct (Z.eqb_spec j i) as [-> |]; [by replace ((nc <=? i) && (i <? i + 1)) with true by lia|].
    rewrite Hc by done. by replace (j <? i + 1) with (j <? i) by lia.
  - intros c [Hlc Hc]. apply array_ext; [by rewrite zlen_bandlimited|]. intros i Hi. rewrite Hc by lia. unfold bandlimited.
    assert (Hlt : zlen (take (Z.to_nat nc) coef) = nc) by (unfold zlen in *; rewrite length_take; lia).
    destruct (Z.leb_spec nc i).
    + rewrite at_app_r, Hlt by lia. replace (i <? 256) with true by lia. simpl. symmetry. apply at_replicate. lia.
    + rewrite at_app_l by lia. simpl. unfold at_. symmetry. apply lookup_total_take_lt. lia.
Qed.

(** The transform of one channel. *)
Lemma transform_total ctx b ch :
  zlen (Block.input_samples b).[ch] = 512 → zlen (Block.mdct_coef b).[ch] = 256 →
  ∃ ys, k_apply_window (Block.input_samples b).[ch] = Some ys ∧
    (if switch_of ctx b ch =? 0 then k_mdct_512 (Block.mdct_coef b).[ch] ys else k_mdct_256 (Block.mdct_coef b).[ch] ys) =
      Some (transform_of ctx b ch) ∧
    zlen (fst (transform_of ctx b ch)) = 256 ∧ zlen (snd (transform_of ctx b ch)) = 512.
Proof.
  intros Hi Hc. destruct (kernel_window _ Hi) as (ys & Hys & Hl). exists ys. split; [done|].
  unfold transform_of. rewrite Hys. simpl default. destruct (switch_of ctx b ch =? 0).
  - by destruct (kernel_512 _ _ Hc Hl) as (o & i & -> & ? & ?).
  - by destruct (kernel_256 _ _ Hc Hl) as (o & i & -> & ? & ?).
Qed.

Lemma generate_coefs_block_spec ctx ncoefs ch b0 b :
  0 ≤ ch < 6 → zlen ncoefs = 6 → 0 ≤ ncoefs.[ch] ≤ 256 → dim2 6 512 (Block.transient_samples b0) → generated ctx ncoefs ch b0 b →
  wp (generate_coefs_block ctx ncoefs ch b) (generated ctx ncoefs (ch + 1) b0).
Proof.
  intros Hch Hnl Hnc Htr Hg. pose proof Hg as [Hsame Hbl Hin Hco Hgb Hgc Hgi].
  assert (Htrans : Block.transient_samples b = Block.transient_samples b0) by (by rewrite Hsame).
  assert (Hi0 : (Block.input_samples b).[ch] = (Block.input_samples b0).[ch]) by (rewrite Hgi, Z.ltb_irrefl by lia; done).
  assert (Hc0 : (Block.mdct_coef b).[ch] = (Block.mdct_coef b0).[ch]) by (rewrite Hgc, Z.ltb_irrefl by lia; done).
  pose proof (dim2_row _ _ _ ch Hin Hch) as Hir. pose proof (dim2_row _ _ _ ch Hco Hch) as Hcr. pose proof (dim2_row _ _ _ ch Htr Hch) as Htrr.
  pose proof (proj1 Hin) as Hi6. pose proof (proj1 Hco) as Hc6. pose proof (proj1 Htr) as Ht6.
  rewrite Hi0 in Hir. rewrite Hc0 in Hcr. destruct (transform_total ctx b0 ch Hir Hcr) as (ys & Hw & Hk & Hlc & Hli).
  unfold generate_coefs_block. wp_step.
  apply (wp_mono _ (λ s, s = upd (Block.blksw b) ch (switch_of ctx b0 ch))).
  { unfold switch_of. rewrite Htrans. destruct (Z.eqb_spec (EncParams.use_block_switching (Ctx.params ctx)) 0); simpl negb; cbv iota; [by wp_steps|].
    wp_step. wp_step. wp_step. rewrite detect_transient_correct by done. by wp_steps. }
  intros blksw ->. wp_step. wp_step. wp_step. rewrite Hi0, Hw. wp_step. wp_step. wp_step. rewrite at_upd_eq by lia.
  wp_step. wp_step. wp_step. rewrite Hc0.
  replace (if negb (switch_of ctx b0 ch =? 0) then k_mdct_256 (Block.mdct_coef b0).[ch] ys else k_mdct_512 (Block.mdct_coef b0).[ch] ys)
    with (Some (transform_of ctx b0 ch)) by (by destruct (switch_of ctx b0 ch =? 0)).
  destruct (transform_of ctx b0 ch) as [coef xs] eqn:Htf. simpl in Hlc, Hli. wp_step. cbv beta iota. wp_step. wp_step. wp_step.
  eapply wp_mono; [by apply zero_tail|]. intros c ->. cbv beta. wp_steps.
  split; simpl; rewrite ?zlen_upd; try done.
  - by rewrite Hsame.
  - by apply dim2_upd.
  - apply dim2_upd; [done|done|by apply zlen_bandlimited].
  - intros c Hc. apply (row_done _ (switch_of ctx b0) (λ c, (Block.blksw b0).[c])); [lia|lia|by apply Hgb|done].
  - intros c Hc. apply (row_done _ (λ c, bandlimited ncoefs.[c] (fst (transform_of ctx b0 c))) (λ c, (Block.mdct_coef b0).[c]));
      [lia|lia|by apply Hgc|by rewrite Htf].
  - intros c Hc. apply (row_done _ (λ c, snd (transform_of ctx b0 c)) (λ c, (Block.input_samples b0).[c]));
      [lia|lia|by apply Hgi|by rewrite Htf].
Qed.

Record coefs_ready (ctx : Ctx.t) (frame : Frame.t) : Prop := {
  cr_channels : channels_ok ctx;
  cr_blocks : zlen (Frame.blocks frame) = 6;
  cr_nlen : zlen (Frame.ncoefs frame) = 6;
  cr_ncoefs : ∀ c, 0 ≤ c < Ctx.n_all_channels ctx → 0 ≤ (Frame.ncoefs frame).[c] ≤ 256;
  cr_block : ∀ k, 0 ≤ k < 6 → let b := (Frame.blocks frame).[k] in
    zlen (Block.blksw b) = 6 ∧ dim2 6 512 (Block.input_samples b) ∧ dim2 6 512 (Block.transient_samples b) ∧ dim2 6 256 (Block.mdct_coef b)
}.

Lemma generate_coefs_spec ctx frame :
  coefs_ready ctx frame →
  wp (generate_coefs ctx frame) (λ frame', ∃ blocks, frame' = frame <| Frame.blocks := blocks |> ∧ zlen blocks = 6 ∧
    ∀ k, 0 ≤ k < 6 → generated ctx (Frame.ncoefs frame) (Ctx.n_all_channels ctx) (Frame.blocks frame).[k] blocks.[k]).
Proof.
  intros [Hch Hbl Hnl Hnc Hb]. set (nc := Frame.ncoefs frame) in *. set (bs0 := Frame.blocks frame) in *.
  assert (Hn : 1 ≤ Ctx.n_all_channels ctx ≤ 6) by (destruct Hch; lia). unfold generate_coefs, A52_NUM_BLOCKS.
  apply (wp_for_up (λ ch f, ∃ blocks, f = frame <| Frame.blocks := blocks |> ∧ zlen blocks = 6 ∧
    ∀ k, 0 ≤ k < 6 → generated ctx nc ch bs0.[k] blocks.[k])); [lia| | |done].
  - exists bs0. split; [by destruct frame|]. split; [done|]. intros k Hk. destruct (Hb k Hk) as (Hbw & Hi & Ht & Hm).
    split; try done; [by destruct bs0.[k]|..]; intros c Hc; by replace (c <? 0) with false by lia.
  - intros ch f Hc (blocks & -> & Hl & Hg).
    apply (wp_for_up (λ k f, ∃ blocks, f = frame <| Frame.blocks := blocks |> ∧ zlen blocks = 6 ∧
      ∀ j, 0 ≤ j < 6 → generated ctx nc (if j <? k then ch + 1 else ch) bs0.[j] blocks.[j])); [lia| | |].
    + exists blocks. split; [done|]. split; [done|]. intros j Hj. replace (j <? 0) with false by lia. by apply Hg.
    + intros k f Hk (bs & -> & Hlb & Hgb). apply wp_bind. apply wp_with_block_len; [done|done|]. apply wp_bind. simpl.
      pose proof (Hgb k Hk) as Hgk. rewrite Z.ltb_irrefl in Hgk.
      eapply wp_mono; [apply (generate_coefs_block_spec ctx nc ch bs0.[k]); [lia|done|by apply Hnc|by apply Hb|exact Hgk]|].
      intros b Hgb'. apply wp_ret. cbv beta iota. apply wp_ret. eexists. split; [reflexivity|]. split; [by rewrite zlen_upd|].
      intros j Hj. rewrite at_upd by lia. destruct (Z.eqb_spec j k) as [-> |]; [by replace (k <? k + 1) with true by lia|].
      replace (j <? k + 1) with (j <? k) by lia. by apply Hgb.
    + intros f' (bs & -> & Hlb & Hgb). exists bs. split; [done|]. split; [done|]. intros k Hk.
      specialize (Hgb k Hk). by replace (k <? 6) with true in Hgb by lia.
Qed.

(** C34: [generate_coefs] stays inside the arrays; it sets the switch of every
    channel of every block by [detect_transient], if block switching is in use,
    and its coefficients to the transform of the windowed samples that the
    switch selects, with zeros from the channel's number of coefficients on. *)
Theorem generate_coefs_correct ctx frame :
  coefs_ready ctx frame →
  ∃ blocks, generate_coefs ctx frame = Some (frame <| Frame.blocks := blocks |>) ∧ zlen blocks = 6 ∧
    ∀ k, 0 ≤ k < 6 → generated ctx (Frame.ncoefs frame) (Ctx.n_all_channels ctx) (Frame.blocks frame).[k] blocks.[k].
Proof.
  intros Hr. pose proof (generate_coefs_spec ctx frame Hr) as Hw.
  apply wp_some in Hw as (f & Hf & blocks & -> & Hl & Hg). by exists blocks.
Qed.
End generate.

(** * Rematrixing: what is decided and what it does *)

Section rematrix.
Context `{FF : FloatFormat}.

(** The bins of band [bnd], given the number of coefficients. *)
Definition band_end (nc bnd : Z) : Z :=
  let lo := rematbndtab.[bnd] in let hi := rematbndtab.[bnd + 1] in if (lo <=? nc) && (nc <? hi) then nc else hi.
Definition in_band (nc bnd i : Z) : bool := (rematbndtab.[bnd] <=? i) && (i <? band_end nc bnd).

(** Energies of left, right, sum and difference over a list of bins. *)
Definition add_energies '((s0, s1, s2, s3) : FLOAT * FLOAT * FLOAT * FLOAT) '((lt, rt) : FLOAT * FLOAT) : FLOAT * FLOAT * FLOAT * FLOAT :=
  (F_add s0 (F_mul lt lt), F_add s1 (F_mul rt rt),
   F_add s2 (F_mul (F_add lt rt) (F_add lt rt)), F_add s3 (F_mul (F_sub lt rt) (F_sub lt rt))).
Definition band_pairs (b : Block.t) (lo e : Z) : list (FLOAT * FLOAT) :=
  map (λ i, ((Block.mdct_coef b).[0].[i], (Block.mdct_coef b).[1].[i])) (seqZ lo (e - lo)).
Definition band_energies (blocks : list Block.t) (lo e n : Z) : FLOAT * FLOAT * FLOAT * FLOAT :=
  foldl (λ s k, foldl add_energies s (band_pairs blocks.[k] lo e)) (zero_float, zero_float, zero_float, zero_float) (seqZ 0 n).

(** Whether sum and difference take less than left and right. *)
Definition remat_band (frame : Frame.t) (bnd : Z) : bool :=
  let '(s0, s1, s2, s3) := band_energies (Frame.blocks frame) rematbndtab.[bnd] (band_end (Frame.ncoefs frame).[0] bnd) 6 in
  F_lt (F_MIN s2 s3) (F_MIN s0 s1).

(** Bin [i] is rematrixed by one of the first [m] bands. *)
Definition remixed (frame : Frame.t) (m i : Z) : bool :=
  existsb (λ bnd, in_band (Frame.ncoefs frame).[0] bnd i && remat_band frame bnd) (seqZ 0 m).
Definition half (x : FLOAT) : FLOAT := F_mul x (F_dec 1 2).
Definition remix (coef : list (list FLOAT)) (c i : Z) : FLOAT :=
  if c =? 0 then F_add (half coef.[0].[i]) (half coef.[1].[i])
  else if c =? 1 then F_sub (half coef.[0].[i]) (half coef.[1].[i])
  else coef.[c].[i].

Lemma wp_for_bins {S} (I : Z → S → Prop) lo hi nc (body : Z → S → option S) s (Q : S → Prop) :
  lo ≤ hi → I lo s → (∀ i s, lo ≤ i < hi → i ≠ nc → I i s → wp (body i s) (I (i + 1))) →
  (∀ s, I (if (lo <=? nc) && (nc <? hi) then nc else hi) s → Q s) → wp (for_bins lo hi nc body s) Q.
Proof.
  intros Hle HI Hbody HQ. unfold for_bins.
  apply (wp_for_break (λ i s, I i s ∧ (nc < lo ∨ i ≤ nc ∨ hi ≤ nc))); [done|split; [done|lia]| |].
  - intros i t Hi [Ht Hnc]. destruct (Z.eqb_spec i nc) as [-> |Hne].
    + apply wp_ret. apply HQ. by replace ((lo <=? nc) && (nc <? hi)) with true by lia.
    + apply wp_bind. eapply wp_mono; [by apply Hbody|]. intros t' Ht'. apply wp_ret. split; [done|lia].
  - intros t [Ht Hnc]. apply HQ. replace ((lo <=? nc) && (nc <? hi)) with false by lia. done.
Qed.

Lemma remat_sums_spec b lo hi nc s :
  0 ≤ lo ≤ hi → hi ≤ 256 → dim2 6 256 (Block.mdct_coef b) →
  wp (remat_sums b lo hi nc s) (λ r, r = foldl add_energies s (band_pairs b lo (if (lo <=? nc) && (nc <? hi) then nc else hi))).
Proof.
  intros Hlo Hhi Hd. unfold remat_sums.
  apply (wp_for_bins (λ e r, r = foldl add_energies s (band_pairs b lo e))); [lia| | |done].
  - unfold band_pairs. by rewrite Z.sub_diag.
  - intros i [[[s0 s1] s2] s3] Hi _ Hs.
    wp_step. erewrite aget2_at; [|exact Hd|lia|lia]. wp_step. wp_step. erewrite aget2_at; [|exact Hd|lia|lia]. wp_step. apply wp_ret.
    unfold band_pairs. replace (i + 1 - lo) with ((i - lo) + 1) by lia. rewrite seqZ_app by lia.
    rewrite map_app, foldl_app. fold (band_pairs b lo i). rewrite <- Hs. simpl. by replace (lo + (i - lo)) with i by lia.
Qed.

Lemma remat_apply_spec b lo hi nc :
  0 ≤ lo ≤ hi → hi ≤ 256 → dim2 6 256 (Block.mdct_coef b) →
  wp (remat_apply b lo hi nc) (λ b', b' = b <| Block.mdct_coef := Block.mdct_coef b' |> ∧ dim2 6 256 (Block.mdct_coef b') ∧
    ∀ c i, 0 ≤ c < 6 → 0 ≤ i < 256 → (Block.mdct_coef b').[c].[i] =
      if (lo <=? i) && (i <? if (lo <=? nc) && (nc <? hi) then nc else hi) then remix (Block.mdct_coef b) c i
      else (Block.mdct_coef b).[c].[i]).
Proof.
  intros Hlo Hhi Hd. unfold remat_apply. apply wp_bind.
  apply (wp_for_bins (λ e coef, dim2 6 256 coef ∧ ∀ c i, 0 ≤ c < 6 → 0 ≤ i < 256 → coef.[c].[i] =
    if (lo <=? i) && (i <? e) then remix (Block.mdct_coef b) c i else (Block.mdct_coef b).[c].[i])); [lia| | |].
  - split; [done|]. intros c i Hc Hi. by replace ((lo <=? i) && (i <? lo)) with false by lia.
  - intros i coef Hi _ [Hdc Hc]. wp_step. rewrite (aget2_at 6 256) by (done || lia). wp_step. wp_step.
    rewrite (aget2_at 6 256) by (done || lia). wp_step. cbv zeta. wp_step.
    rewrite !Hc by lia. replace ((lo <=? i) && (i <? i)) with false by lia.
    apply (wp_aset2 6 256); [apply Hdc|apply (dim2_row _ _ _ 0 Hdc); lia|lia|lia|].
    set (x := F_add _ _). assert (Hd1 : dim2 6 256 (upd2 coef 0 i x)).
    { apply dim2_upd; [done|lia|]. rewrite zlen_upd. apply (dim2_row _ _ _ 0 Hdc). lia. }
    apply (wp_aset2 6 256); [apply Hd1|apply (dim2_row _ _ _ 1 Hd1); lia|lia|lia|].
    split.
    { apply dim2_upd; [done|lia|]. rewrite zlen_upd. apply (dim2_row _ _ _ 1 Hd1). lia. }
    intros c j Hcc Hj. pose proof (proj1 Hdc) as H6. pose proof (proj1 Hd1) as H6'.
    rewrite at_upd2 by (rewrite ?(dim2_row _ _ _ 1 Hd1); lia). rewrite at_upd2 by (rewrite ?(dim2_row _ _ _ 0 Hdc); lia).
    unfold x. destruct (Z.eqb_spec j i) as [-> |].
    + rewrite !andb_true_r. replace ((lo <=? i) && (i <? i + 1)) with true by lia. unfold remix, half.
      destruct (Z.eqb_spec c 1) as [-> |]; [done|]. destruct (Z.eqb_spec c 0) as [-> |]; [done|].
      rewrite Hc by lia. by replace ((lo <=? i) && (i <? i)) with false by lia.
    + rewrite !andb_false_r, Hc by lia. by replace (j <? i + 1) with (j <? i) by lia.
  - intros coef [Hdc Hc]. apply wp_ret. by split.
Qed.

(** Bands are disjoint intervals below 252. *)
Lemma band_bounds nc bnd : 0 ≤ bnd < 4 →
  13 ≤ rematbndtab.[bnd] ≤ band_end nc bnd ∧ band_end nc bnd ≤ rematbndtab.[bnd + 1] ≤ 252.
Proof.
  intros Hb. unfold band_end. assert (bnd = 0 ∨ bnd = 1 ∨ bnd = 2 ∨ bnd = 3) as Hcase by lia.
  destruct Hcase as [-> |[-> |[-> | ->]]]; cbv [rematbndtab at_]; simpl; destruct (_ && _) eqn:Hc; lia.
Qed.
Lemma bands_sorted a b : 0 ≤ a → a < b → b < 4 → rematbndtab.[a + 1] ≤ rematbndtab.[b].
Proof.
  intros Ha Hab Hb. assert (b = 1 ∨ b = 2 ∨ b = 3) as Hcase by lia.
  assert (a = 0 ∨ a = 1 ∨ a = 2) as Hcase' by lia.
  destruct Hcase as [-> |[-> | ->]], Hcase' as [-> |[-> | ->]]; cbv [rematbndtab at_]; simpl; lia.
Qed.

Lemma remixed_step frame m i : 0 ≤ m →
  remixed frame (m + 1) i = remixed frame m i || (in_band (Frame.ncoefs frame).[0] m i && remat_band frame m).
Proof.
  intros Hm. unfold remixed. rewrite seqZ_app by lia. rewrite existsb_app. simpl. by rewrite Z.add_0_l, orb_false_r.
Qed.
Lemma remixed_later frame m i : 0 ≤ m < 4 → rematbndtab.[m] ≤ i → remixed frame m i = false.
Proof.
  intros Hm Hi. unfold remixed. apply not_true_is_false. intros (b & Hb & Hin)%existsb_exists.
  apply list_elem_of_In, elem_of_seqZ in Hb. pose proof (band_bounds (Frame.ncoefs frame).[0] b ltac:(lia)) as Hbb.
  pose proof (bands_sorted b m ltac:(lia) ltac:(lia) ltac:(lia)). unfold in_band in Hin. lia.
Qed.

(** The first [m] bands are done. *)
Record rematrixed (frame : Frame.t) (m : Z) (flags : list Z) (blocks : list Block.t) : Prop := {
  re_flags_len : zlen flags = 4;
  re_flags : ∀ bnd, 0 ≤ bnd < 4 → flags.[bnd] = if (bnd <? m) && remat_band frame bnd then 1 else 0;
  re_len : zlen blocks = 6;
  re_same : ∀ k, 0 ≤ k < 6 → blocks.[k] = (Frame.blocks frame).[k] <| Block.mdct_coef := Block.mdct_coef blocks.[k] |>;
  re_dim : ∀ k, 0 ≤ k < 6 → dim2 6 256 (Block.mdct_coef blocks.[k]);
  re_coef : ∀ k c i, 0 ≤ k < 6 → 0 ≤ c < 6 → 0 ≤ i < 256 → (Block.mdct_coef blocks.[k]).[c].[i] =
    if remixed frame m i then remix (Block.mdct_coef (Frame.blocks frame).[k]) c i
    else (Block.mdct_coef (Frame.blocks frame).[k]).[c].[i]
}.

(** The energies of band [m] are those of the given coefficients. *)
Lemma energies_done frame m flags blocks :
  0 ≤ m < 4 → rematrixed frame m flags blocks →
  wp (for_up 0 A52_NUM_BLOCKS (λ blk sum, b ← aget blocks blk; remat_sums b rematbndtab.[m] rematbndtab.[m + 1] (Frame.ncoefs frame).[0] sum)
    (zero_float, zero_float, zero_float, zero_float))
    (λ s, s = band_energies (Frame.blocks frame) rematbndtab.[m] (band_end (Frame.ncoefs frame).[0] m) 6).
Proof.
  intros Hm [_ _ Hl _ Hd Hc]. pose proof (band_bounds (Frame.ncoefs frame).[0] m Hm) as Hb. unfold A52_NUM_BLOCKS.
  apply (wp_for_up (λ k s, s = band_energies (Frame.blocks frame) rematbndtab.[m] (band_end (Frame.ncoefs frame).[0] m) k)); [lia|done| |done].
  intros k s Hk ->. wp_step. wp_step. eapply wp_mono; [apply remat_sums_spec; [lia|lia|by apply Hd]|].
  intros r ->. fold (band_end (Frame.ncoefs frame).[0] m). unfold band_energies. rewrite seqZ_app by lia. rewrite foldl_app. simpl.
  f_equal. unfold band_pairs. apply map_ext_in. intros i Hi%list_elem_of_In%elem_of_seqZ.
  rewrite !Hc by lia. by rewrite !remixed_later by lia.
Qed.

Lemma remat_band_step frame m flags blocks :
  0 ≤ m < 4 → rematrixed frame m flags blocks → remat_band frame m = true →
  wp (for_up 0 A52_NUM_BLOCKS (λ blk f,
        '(f, _) ← with_block f blk (λ b (_ : unit), b ← remat_apply b rematbndtab.[m] rematbndtab.[m + 1] (Frame.ncoefs frame).[0]; Some (b, tt)) tt;
        Some f) (frame <| Frame.blocks := blocks |> <| Frame.rematflg := upd flags m 1 |>))
    (λ f, ∃ blocks', f = frame <| Frame.blocks := blocks' |> <| Frame.rematflg := upd flags m 1 |> ∧
      rematrixed frame (m + 1) (upd flags m 1) blocks').
Proof.
  intros Hm [Hfl Hf Hl Hs Hd Hc] Hdec. pose proof (band_bounds (Frame.ncoefs frame).[0] m Hm) as Hb. unfold A52_NUM_BLOCKS.
  apply (wp_for_up (λ k f, ∃ bs, f = frame <| Frame.blocks := bs |> <| Frame.rematflg := upd flags m 1 |> ∧ zlen bs = 6 ∧
    ∀ j, 0 ≤ j < 6 → bs.[j] = (Frame.blocks frame).[j] <| Block.mdct_coef := Block.mdct_coef bs.[j] |> ∧ dim2 6 256 (Block.mdct_coef bs.[j]) ∧
      ∀ c i, 0 ≤ c < 6 → 0 ≤ i < 256 → (Block.mdct_coef bs.[j]).[c].[i] =
        if remixed frame (if j <? k then m + 1 else m) i then remix (Block.mdct_coef (Frame.blocks frame).[j]) c i
        else (Block.mdct_coef (Frame.blocks frame).[j]).[c].[i])); [lia| | |].
  - exists blocks. split; [done|]. split; [done|]. intros j Hj. replace (j <? 0) with false by lia. auto.
  - intros k f Hk (bs & -> & Hlb & Hbs). apply wp_bind. apply wp_with_block_len; [done|done|]. apply wp_bind. simpl.
    destruct (Hbs k Hk) as (Hsk & Hdk & Hck). rewrite Z.ltb_irrefl in Hck.
    eapply wp_mono; [apply remat_apply_spec; [lia|lia|exact Hdk]|]. fold (band_end (Frame.ncoefs frame).[0] m).
    intros b (Hb1 & Hb2 & Hb3). apply wp_ret. cbv beta iota. apply wp_ret. eexists. split; [reflexivity|]. split; [by rewrite zlen_upd|].
    intros j Hj. rewrite at_upd by lia. destruct (Z.eqb_spec j k) as [-> |].
    + split; [by rewrite Hb1, Hsk|]. split; [done|]. intros c i Hcc Hi. rewrite Hb3 by done.
      replace (k <? k + 1) with true by lia. rewrite remixed_step, Hdec, andb_true_r by lia.
      fold (in_band (Frame.ncoefs frame).[0] m i). destruct (in_band (Frame.ncoefs frame).[0] m i) eqn:Hin.
      * rewrite orb_true_r. unfold in_band in Hin. unfold remix. rewrite !Hck by lia. by rewrite !remixed_later by lia.
      * rewrite orb_false_r. by apply Hck.
    + replace (j <? k + 1) with (j <? k) by lia. by apply Hbs.
  - intros f (bs & -> & Hlb & Hbs). exists bs. split; [done|]. split; try done.
    + by rewrite zlen_upd.
    + intros bnd Hbnd. rewrite at_upd by lia. destruct (Z.eqb_spec bnd m) as [-> |].
      * by replace (m <? m + 1) with true by lia; rewrite Hdec.
      * rewrite Hf by done. by replace (bnd <? m + 1) with (bnd <? m) by lia.
    + intros k Hk. by apply Hbs.
    + intros k Hk. by apply Hbs.
    + intros k c i Hk. destruct (Hbs k Hk) as (_ & _ & Hck). replace (k <? 6) with true in Hck by lia. apply Hck.
Qed.

Lemma rematrixed_0 frame flags :
  zlen (Frame.blocks frame) = 6 → (∀ k, 0 ≤ k < 6 → dim2 6 256 (Block.mdct_coef (Frame.blocks frame).[k])) →
  zlen flags = 4 → (∀ b, 0 ≤ b < 4 → flags.[b] = 0) → rematrixed frame 0 flags (Frame.blocks frame).
Proof.
  intros Hl Hd Hfl Hf. split; try done.
  - intros b Hb. rewrite Hf by done. by replace (b <? 0) with false by lia.
  - intros k Hk. by destruct (Frame.blocks frame).[k].
Qed.

Lemma calc_rematrixing_spec ctx frame :
  zlen (Frame.blocks frame) = 6 → (∀ k, 0 ≤ k < 6 → dim2 6 256 (Block.mdct_coef (Frame.blocks frame).[k])) →
  zlen (Frame.rematflg frame) = 4 → zlen (Frame.ncoefs frame) = 6 →
  wp (calc_rematrixing ctx frame) (λ frame', ∃ flags blocks,
    frame' = frame <| Frame.blocks := blocks |> <| Frame.rematflg := flags |> ∧
    rematrixed frame (if EncParams.use_rematrixing (Ctx.params ctx) =? 0 then 0 else 4) flags blocks).
Proof.
  intros Hl Hd Hfl Hnl. unfold calc_rematrixing. wp_step.
  apply (wp_for_up (λ i fl, zlen fl = 4 ∧ ∀ b, 0 ≤ b < i → fl.[b] = 0)); [lia|split; [done|lia]| |].
  { intros i fl Hi [Hlf Hf]. wp_step. split; [by rewrite zlen_upd|]. intros b Hb. rewrite at_upd by lia.
    destruct (Z.eqb_spec b i); [done|]. apply Hf. lia. }
  intros flags [Hlf Hf]. cbv zeta. pose proof (rematrixed_0 frame flags Hl Hd Hlf Hf) as H0.
  destruct (EncParams.use_rematrixing (Ctx.params ctx) =? 0).
  { apply wp_ret. exists flags, (Frame.blocks frame). split; [by destruct frame|done]. }
  apply (wp_for_up (λ m f, ∃ flags blocks, f = frame <| Frame.blocks := blocks |> <| Frame.rematflg := flags |> ∧
    rematrixed frame m flags blocks)); [lia| | |done].
  { exists flags, (Frame.blocks frame). split; [by destruct frame|done]. }
  intros m f Hm (fl & blocks & -> & Hr). assert (Htab : zlen rematbndtab = 5) by done.
  wp_step. wp_step. wp_step. wp_step. simpl. wp_step. wp_step. wp_step.
  eapply wp_mono; [by apply (energies_done frame m fl)|]. intros s Hs.
  destruct s as [[[s0 s1] s2] s3]. cbv beta iota.
  assert (Hdec : remat_band frame m = F_lt (F_MIN s2 s3) (F_MIN s0 s1)) by (unfold remat_band; by rewrite <- Hs).
  rewrite <- Hdec. destruct (remat_band frame m) eqn:Hdm.
  - pose proof (re_flags_len _ _ _ _ Hr). wp_step. wp_step. simpl.
    eapply wp_mono; [by apply (remat_band_step frame m fl)|]. intros f (bs & -> & Hrs). eauto.
  - apply wp_ret. exists fl, blocks. split; [done|]. destruct Hr as [Hr1 Hr2 Hr3 Hr4 Hr5 Hr6]. split; try done.
    + intros b Hb. rewrite Hr2 by done. destruct (Z.eqb_spec b m) as [-> |].
      * by rewrite Hdm, !andb_false_r.
      * by replace (b <? m + 1) with (b <? m) by lia.
    + intros k c i Hk Hc Hi. rewrite remixed_step, Hdm, andb_false_r, orb_false_r by lia. by apply Hr6.
Qed.

(** [calc_rematrixing] stays inside the arrays.  A band's flag is 1 exactly
    when rematrixing is in use and, over the six blocks, the smaller of the
    energies of sum and difference is below the smaller of those of left and
    right; in those bands, below the number of coefficients, left and right
    become half the sum and half the difference of all blocks' coefficients, and
    every other coefficient is kept. *)
Theorem calc_rematrixing_correct ctx frame :
  zlen (Frame.blocks frame) = 6 → (∀ k, 0 ≤ k < 6 → dim2 6 256 (Block.mdct_coef (Frame.blocks frame).[k])) →
  zlen (Frame.rematflg frame) = 4 → zlen (Frame.ncoefs frame) = 6 →
  ∃ flags blocks, calc_rematrixing ctx frame = Some (frame <| Frame.blocks := blocks |> <| Frame.rematflg := flags |>) ∧
    rematrixed frame (if EncParams.use_rematrixing (Ctx.params ctx) =? 0 then 0 else 4) flags blocks.
Proof.
  intros Hl Hd Hfl Hnl. pose proof (calc_rematrixing_spec ctx frame Hl Hd Hfl Hnl) as Hw.
  apply wp_some in Hw as (f & Hf & flags & blocks & -> & Hr). by exists flags, blocks.
Qed.
End rematrix.

(** * The range of the coefficients *)

Section range.
Context `{FF : FloatFormat} {Ok : FloatOk FF}.

Lemma two24_of_Z : two24 = F_of_Z (2 ^ 24).
Proof. by destruct Ok as [-> | ->]. Qed.

(** Coefficients below 1 are what the exponent stage expects. *)
Lemma within_coef_ok x : within 0 x → coef_ok x.
Proof.
  intros Hx. destruct (F_scale24_within x Hx) as (z & Hz & Hb). unfold coef_ok, scaled. rewrite two24_of_Z, Hz. done.
Qed.

Lemma remix_within coef c i : within 0 coef.[0].[i] → within 0 coef.[1].[i] → within 0 coef.[c].[i] → within 0 (remix coef c i).
Proof.
  intros Hl Hr Hc. unfold remix, half.
  pose proof (F_half_within 0 _ ltac:(lia) Hl) as Hl'. pose proof (F_half_within 0 _ ltac:(lia) Hr) as Hr'.
  destruct (c =? 0); [by apply (F_add_within (-1))|]. destruct (c =? 1); [by apply (F_sub_within (-1))|done].
Qed.

(** The first [n] channels of every block. *)
Definition coefs_within (n : Z) (blocks : list Block.t) : Prop :=
  ∀ k c i, 0 ≤ k < 6 → 0 ≤ c < n → 0 ≤ i < 256 → within 0 (Block.mdct_coef blocks.[k]).[c].[i].

Lemma rematrixed_within n frame m flags blocks :
  2 ≤ n ≤ 6 → rematrixed frame m flags blocks → coefs_within n (Frame.blocks frame) → coefs_within n blocks.
Proof.
  intros Hn [_ _ _ _ _ Hc] Hin k c i Hk Hcc Hi. rewrite Hc by (done || lia).
  destruct (remixed _ _ i); [|by apply Hin]. apply remix_within; apply Hin; lia.
Qed.

(** Rematrixing keeps coefficients below 1 in magnitude, whatever the bands
    it chooses, rounding included; so the fixed-point stages that follow find
    every coefficient in the range of their 24 bits. *)
Theorem rematrixing_keeps_range n ctx frame :
  2 ≤ n ≤ 6 → zlen (Frame.blocks frame) = 6 → (∀ k, 0 ≤ k < 6 → dim2 6 256 (Block.mdct_coef (Frame.blocks frame).[k])) →
  zlen (Frame.rematflg frame) = 4 → zlen (Frame.ncoefs frame) = 6 → coefs_within n (Frame.blocks frame) →
  ∃ frame', calc_rematrixing ctx frame = Some frame' ∧ coefs_within n (Frame.blocks frame') ∧
    ∀ k c i, 0 ≤ k < 6 → 0 ≤ c < n → 0 ≤ i < 256 → coef_ok (Block.mdct_coef (Frame.blocks frame').[k]).[c].[i].
Proof.
  intros Hn Hl Hd Hfl Hnl Hin. pose proof (calc_rematrixing_spec ctx frame Hl Hd Hfl Hnl) as Hw.
  apply wp_some in Hw as (f & Hf & flags & blocks & -> & Hr). eexists. split; [exact Hf|].
  pose proof (rematrixed_within n frame _ flags blocks Hn Hr Hin) as Hall.
  split; [exact Hall|]. intros k c i Hk Hcc Hi. by apply within_coef_ok, Hall.
Qed.
End range.

(** * Dither and dynamic range *)

Section flags.
Context `{FF : FloatFormat}.

(** Dither is off for a channel that uses the short transform in this block or
    the one before. *)
Definition dither_of (blocks : list Block.t) (k ch : Z) : Z :=
  if negb ((Block.blksw blocks.[k]).[ch] =? 0) || ((0 <? k) && negb ((Block.blksw blocks.[k - 1]).[ch] =? 0)) then 0 else 1.

Lemma compute_dither_spec ctx frame :
  channels_ok ctx → zlen (Frame.blocks frame) = 6 →
  (∀ k, 0 ≤ k < 6 → zlen (Block.blksw (Frame.blocks frame).[k]) = 6 ∧ zlen (Block.dithflag (Frame.blocks frame).[k]) = 6) →
  wp (compute_dither_strategy ctx frame) (λ frame', ∃ blocks, frame' = frame <| Frame.blocks := blocks |> ∧ zlen blocks = 6 ∧
    ∀ k, 0 ≤ k < 6 → blocks.[k] = (Frame.blocks frame).[k] <| Block.dithflag := Block.dithflag blocks.[k] |> ∧
      zlen (Block.dithflag blocks.[k]) = 6 ∧
      ∀ ch, 0 ≤ ch < Ctx.n_channels ctx → (Block.dithflag blocks.[k]).[ch] = dither_of (Frame.blocks frame) k ch).
Proof.
  intros [Hn _ _ _] Hl Hb. unfold compute_dither_strategy, A52_NUM_BLOCKS. set (bs0 := Frame.blocks frame) in *. wp_step.
  apply (wp_for_up (λ k '(f, b0), (0 < k → ∃ b, b0 = Some b ∧ Block.blksw b = Block.blksw bs0.[k - 1]) ∧
    ∃ bs, f = frame <| Frame.blocks := bs |> ∧ zlen bs = 6 ∧ ∀ j, 0 ≤ j < 6 →
      bs.[j] = bs0.[j] <| Block.dithflag := Block.dithflag bs.[j] |> ∧ zlen (Block.dithflag bs.[j]) = 6 ∧
      ∀ ch, 0 ≤ ch < Ctx.n_channels ctx → j < k → (Block.dithflag bs.[j]).[ch] = dither_of bs0 j ch)); [lia| | |].
  - split; [lia|]. exists bs0. split; [by destruct frame|]. split; [done|]. intros j Hj. split; [by destruct bs0.[j]|].
    split; [by apply Hb|]. lia.
  - intros k [f b0] Hk (Hprev & bs & -> & Hlb & Hbs). destruct (Hbs k Hk) as (Hsk & Hdk & _).
    destruct (Hb k Hk) as [Hsw6 _]. assert (Hswk : Block.blksw bs.[k] = Block.blksw bs0.[k]) by (by rewrite Hsk).
    wp_step. simpl. wp_step. wp_step.
    apply (wp_for_up (λ m d, zlen d = 6 ∧ ∀ ch, 0 ≤ ch < m → d.[ch] = dither_of bs0 k ch)); [lia|split; [done|lia]| |].
    + intros m d Hm [Hld Hd]. wp_step. rewrite Hswk. wp_step. wp_step.
      apply (wp_mono _ (λ sw : bool, (if sw then 0 else 1) = dither_of bs0 k m)).
      { unfold dither_of. destruct (Z.eqb_spec (Block.blksw bs0.[k]).[m] 0); simpl negb; cbv iota; [|by apply wp_ret].
        destruct (k >? 0) eqn:Hk0.
        - destruct (Hprev ltac:(lia)) as (b & -> & Hsb). wp_step. wp_step. rewrite Hsb. destruct (Hb (k - 1) ltac:(lia)) as [Hp6 _].
          wp_step. wp_step. by replace (0 <? k) with true by lia.
        - wp_step. by replace (0 <? k) with false by lia. }
      intros sw Hsw. wp_step. rewrite Hsw. split; [by rewrite zlen_upd|]. intros ch Hch. rewrite at_upd by lia.
      destruct (Z.eqb_spec ch m) as [-> |]; [done|]. apply Hd. lia.
    + intros d [Hld Hd]. cbv zeta. wp_step. wp_step. wp_step. split.
      * intros _. eexists. split; [reflexivity|]. simpl. rewrite Hswk. do 2 f_equal. lia.
      * eexists. split; [reflexivity|]. split; [by rewrite zlen_upd|]. intros j Hj. rewrite at_upd by lia.
        destruct (Z.eqb_spec j k) as [-> |].
        { split; [by rewrite Hsk|]. split; [done|]. intros ch Hch _. apply Hd. lia. }
        destruct (Hbs j Hj) as (? & ? & Hdj). split; [done|]. split; [done|]. intros ch Hch Hlt. apply Hdj; lia.
  - intros [f b0] (_ & bs & -> & Hlb & Hbs). apply wp_ret. exists bs. split; [done|]. split; [done|].
    intros k Hk. destruct (Hbs k Hk) as (? & ? & Hd). split; [done|]. split; [done|]. intros ch Hch. apply Hd; lia.
Qed.

(** [compute_dither_strategy] turns dither off exactly for the channels and
    blocks in which the channel switched to the short transform in the block or
    in the one before it in the frame. *)
Theorem compute_dither_correct ctx frame :
  channels_ok ctx → zlen (Frame.blocks frame) = 6 →
  (∀ k, 0 ≤ k < 6 → zlen (Block.blksw (Frame.blocks frame).[k]) = 6 ∧ zlen (Block.dithflag (Frame.blocks frame).[k]) = 6) →
  ∃ blocks, compute_dither_strategy ctx frame = Some (frame <| Frame.blocks := blocks |>) ∧
    ∀ k ch, 0 ≤ k < 6 → 0 ≤ ch < Ctx.n_channels ctx → (Block.dithflag blocks.[k]).[ch] = dither_of (Frame.blocks frame) k ch.
Proof.
  intros Hch Hl Hb. pose proof (compute_dither_spec ctx frame Hch Hl Hb) as Hw.
  apply wp_some in Hw as (f & Hf & blocks & -> & _ & Hd). exists blocks. split; [done|]. intros k ch Hk Hc. by apply Hd.
Qed.

(** Without a profile the control words stay; with one, every block's is
    computed from its samples, if it is defined. *)
Lemma calculate_dynrng_spec `{LibM} ctx frame :
  zlen (Frame.blocks frame) = 6 →
  (EncParams.dynrng_profile (Ctx.params ctx) = DYNRNG_PROFILE_NONE ∨
   ∀ k, 0 ≤ k < 6 → calculate_block_dynrng (Block.input_samples (Frame.blocks frame).[k]) (Ctx.n_all_channels ctx)
     (- Metadata.dialnorm (Ctx.meta ctx)) (EncParams.dynrng_profile (Ctx.params ctx)) ≠ None) →
  wp (calculate_dynrng ctx frame) (λ frame', ∃ blocks, frame' = frame <| Frame.blocks := blocks |> ∧ zlen blocks = 6 ∧
    ∀ k, 0 ≤ k < 6 → blocks.[k] = (Frame.blocks frame).[k] <| Block.dynrng := Block.dynrng blocks.[k] |>).
Proof.
  intros Hl Hd. unfold calculate_dynrng, A52_NUM_BLOCKS.
  destruct (Z.eqb_spec (EncParams.dynrng_profile (Ctx.params ctx)) DYNRNG_PROFILE_NONE) as [|Hne].
  { apply wp_ret. exists (Frame.blocks frame). split; [by destruct frame|]. split; [done|]. intros k Hk. by destruct (Frame.blocks frame).[k]. }
  destruct Hd as [|Hd]; [done|].
  apply (wp_for_up (λ m f, ∃ bs, f = frame <| Frame.blocks := bs |> ∧ zlen bs = 6 ∧ ∀ k, 0 ≤ k < 6 →
    bs.[k] = (Frame.blocks frame).[k] <| Block.dynrng := Block.dynrng bs.[k] |>)); [lia| | |done].
  - exists (Frame.blocks frame). split; [by destruct frame|]. split; [done|]. intros k Hk. by destruct (Frame.blocks frame).[k].
  - intros m f Hm (bs & -> & Hlb & Hbs). apply wp_bind. apply wp_with_block_len; [done|done|]. apply wp_bind. simpl.
    assert (Hin : Block.input_samples bs.[m] = Block.input_samples (Frame.blocks frame).[m]) by (by rewrite (Hbs m Hm)).
    rewrite Hin. specialize (Hd m Hm). destruct (calculate_block_dynrng _ _ _ _) as [d|]; [|done].
    apply wp_ret, wp_ret. cbv beta iota. apply wp_ret. eexists. split; [reflexivity|]. split; [by rewrite zlen_upd|].
    intros k Hk. rewrite at_upd by lia. destruct (Z.eqb_spec k m) as [-> |]; [by rewrite (Hbs m Hm)|by apply Hbs].
Qed.
End flags.

(** * Witnesses *)

(** A quiet half followed by a loud one. *)
Definition attack : list FLOAT :=
  replicate 256 (F_dec (H := single_format) 1 100) ++ replicate 256 (F_dec (H := single_format) 9 10).

Lemma detect_transient_correct_witness : detect_transient (H := single_format) attack = Some 1.
Proof. exact (detect_transient_correct (H := single_format) attack eq_refl). Defined.

(** Kernels that leave their arrays alone. *)
Definition idle_kernels : Kernels := {|
  k_apply_window := Some; k_mdct_256 := λ out xs, Some (out, xs); k_mdct_512 := λ out xs, Some (out, xs) |}.
Lemma idle_kernels_ok : KernelsOk (H := idle_kernels).
Proof. split; simpl; intros; repeat eexists; done. Qed.

Lemma zero_frame_coefs_ready : coefs_ready example_ctx zero_frame.
Proof.
  split; [by split; simpl; lia|done|done| |].
  - intros c Hc. change (0 ≤ c < 2) in Hc. change (Frame.ncoefs zero_frame) with (replicate 6 0). rewrite at_replicate by lia. lia.
  - intros k Hk. change (Frame.blocks zero_frame) with (replicate 6 zero_block). rewrite at_replicate by lia.
    split; [done|]. split; [exact (dim2_replicate 6 512 _)|]. split; [exact (dim2_replicate 6 512 _)|exact (dim2_replicate 6 256 _)].
Qed.

Lemma generate_coefs_correct_witness :
  ∃ blocks, generate_coefs (H := single_format) (H0 := idle_kernels) example_ctx zero_frame = Some (zero_frame <| Frame.blocks := blocks |>) ∧
    zlen blocks = 6 ∧ ∀ k, 0 ≤ k < 6 →
    generated (FF := single_format) (K := idle_kernels) example_ctx (replicate 6 0) 2 (Frame.blocks zero_frame).[k] blocks.[k].
Proof.
  exact (generate_coefs_correct (FF := single_format) (K := idle_kernels) (KOk := idle_kernels_ok) example_ctx zero_frame
    zero_frame_coefs_ready).
Defined.

Lemma zero_frame_coef_dims k : 0 ≤ k < 6 → dim2 6 256 (Block.mdct_coef (Frame.blocks zero_frame).[k]).
Proof.
  intros Hk. change (Frame.blocks zero_frame) with (replicate 6 zero_block). rewrite at_replicate by lia. exact (dim2_replicate 6 256 _).
Qed.

Lemma calc_rematrixing_correct_witness :
  ∃ flags blocks, calc_rematrixing (H := single_format) example_ctx zero_frame =
      Some (zero_frame <| Frame.blocks := blocks |> <| Frame.rematflg := flags |>) ∧
    rematrixed (FF := single_format) zero_frame 4 flags blocks.
Proof.
  exact (calc_rematrixing_correct (FF := single_format) example_ctx zero_frame eq_refl zero_frame_coef_dims eq_refl eq_refl).
Defined.

Lemma zero_coefs_within n : n ≤ 6 → coefs_within (FF := single_format) n (Frame.blocks zero_frame).
Proof.
  intros Hn k c i Hk Hc Hi. change (Frame.blocks zero_frame) with (replicate 6 zero_block). rewrite at_replicate by lia.
  change (Block.mdct_coef zero_block) with (replicate 6 (replicate 256 zero_float)). by rewrite !at_replicate by lia.
Qed.

Lemma rematrixing_keeps_range_witness :
  ∃ frame', calc_rematrixing (H := single_format) example_ctx zero_frame = Some frame' ∧ coefs_within (FF := single_format) 2 (Frame.blocks frame') ∧
    ∀ k c i, 0 ≤ k < 6 → 0 ≤ c < 2 → 0 ≤ i < 256 → @coef_ok single_format (Block.mdct_coef (Frame.blocks frame').[k]).[c].[i].
Proof.
  exact (rematrixing_keeps_range (FF := single_format) 2 example_ctx zero_frame ltac:(lia) eq_refl zero_frame_coef_dims eq_refl eq_refl
    (zero_coefs_within 2 ltac:(lia))).
Defined.

Lemma compute_dither_correct_witness :
  ∃ blocks, compute_dither_strategy example_ctx zero_frame = Some (zero_frame <| Frame.blocks := blocks |>) ∧
    ∀ k ch, 0 ≤ k < 6 → 0 ≤ ch < 2 → (Block.dithflag blocks.[k]).[ch] = dither_of (Frame.blocks zero_frame) k ch.
Proof.
  refine (compute_dither_correct example_ctx zero_frame _ eq_refl _); [by split; simpl; lia|].
  intros k Hk. change (Frame.blocks zero_frame) with (replicate 6 zero_block). by rewrite at_replicate by lia.
Defined.
