(* ===== verification/Mdct.v ===== *)
(** The MDCT, [libaften/mdct.c] (the C version, derived from libvorbis), with
    the buffers of a thread.  Memory that [aligned_malloc] returns is a list of
    cells without value: reading one that was not written is undefined, so that
    a transform that is defined for empty buffers depends on nothing that a
    previous one left there.  Pointers into a buffer are offsets.  The theorems
    show that the transforms of 512 and 256 samples are defined, stay inside
    their arrays, and write all 256 coefficients; that the blocks' buffers are
    disjoint; and what the tables hold. *)
From Stdlib Require Import ZArith Lia ZifyBool Bool.
From stdpp Require Import base option list numbers.
From S2P Require Import Prelude CMachine Float Types Util Window Coefs.
Local Open Scope Z_scope.
Local Open Scope carray_scope.

(** * Memory cells *)

Definition cells (A : Type) : Type := list (option A).
Definition fresh {A} (n : Z) : cells A := replicate (Z.to_nat n) None.
Definition rd {A} (m : cells A) (i : Z) : option A := c ← aget m i; c.
Definition wr {A} (m : cells A) (i : Z) (v : A) : option (cells A) := aset m i (Some v).

Local Infix "⊕" := F_add (at level 50, left associativity).
Local Infix "⊖" := F_sub (at level 50, left associativity).
Local Infix "⊗" := F_mul (at level 40, left associativity).

(** [MDCTContext] *)
Record MDCTContext := mk_mdct {
  trig : cells FLOAT;
  bitrev : cells Z;
  scale : FLOAT;
  mdct_n : Z;
  log2n : Z
}.

Section mdct.
Context `{FloatFormat} `{LibM}.

Definition AFT_PI3_8 : FLOAT := F_const 14118526676175099534 (-65).
Definition AFT_PI2_8 : FLOAT := F_const 13043817825332782213 (-64).
Definition AFT_PI1_8 : FLOAT := F_const 17042569291174129990 (-64).

(** ** Tables *)

Definition trig_init (trig : cells FLOAT) (n : Z) : option (cells FLOAT) :=
  let n2 := Z.shiftr n 1 in
  trig ← for_up 0 (Z.quot n 4) (λ i trig,
    trig ← wr trig (i * 2) (AFT_COS (F_div AFT_PI (F_of_Z n) ⊗ F_of_Z (4 * i)));
    trig ← wr trig (i * 2 + 1) (F_neg (AFT_SIN (F_div AFT_PI (F_of_Z n) ⊗ F_of_Z (4 * i))));
    trig ← wr trig (n2 + i * 2) (AFT_COS (F_div AFT_PI (F_of_Z (2 * n)) ⊗ F_of_Z (2 * i + 1)));
    wr trig (n2 + i * 2 + 1) (AFT_SIN (F_div AFT_PI (F_of_Z (2 * n)) ⊗ F_of_Z (2 * i + 1)))) trig;
  for_up 0 (Z.quot n 8) (λ i trig,
    trig ← wr trig (n + i * 2) (AFT_COS (F_div AFT_PI (F_of_Z n) ⊗ F_of_Z (4 * i + 2)) ⊗ F_dec 1 2);
    wr trig (n + i * 2 + 1) (F_neg (AFT_SIN (F_div AFT_PI (F_of_Z n) ⊗ F_of_Z (4 * i + 2))) ⊗ F_dec 1 2)) trig.

Definition bitrev_init (bitrev : cells Z) (n log2n : Z) : option (cells Z) :=
  let mask := Z.shiftl 1 (log2n - 1) - 1 in
  let msb := Z.shiftl 1 (log2n - 2) in
  for_up 0 (Z.quot n 8) (λ i bitrev,
    '(_, acc) ← while_loop 32 (λ '(j, _), negb (Z.shiftr msb j =? 0)) (λ '(j, acc),
      Some (j + 1, if negb (Z.land (Z.shiftr msb j) i =? 0) then Z.lor acc (Z.shiftl 1 j) else acc)) (0, 0);
    bitrev ← wr bitrev (i * 2) (Z.land (Z.lnot acc) mask - 1);
    wr bitrev (i * 2 + 1) acc) bitrev.

Definition mdct_ctx_init (n : Z) : option MDCTContext :=
  l ← log2i n;
  t ← trig_init (fresh (n + Z.quot n 4)) n;
  b ← bitrev_init (fresh (Z.quot n 4)) n l;
  Some (mk_mdct t b (F_div (F_of_Z (-2)) (F_of_Z n)) n l).

(** ** Butterflies, in place at offset [x] *)

Definition mdct_butterfly_8 (m : cells FLOAT) (x : Z) : option (cells FLOAT) :=
  a ← rd m (x + 6); b ← rd m (x + 2); let r0 := a ⊕ b in let r1 := a ⊖ b in
  c ← rd m (x + 4); d ← rd m (x + 0); let r2 := c ⊕ d in let r3 := c ⊖ d in
  m ← wr m (x + 6) (r0 ⊕ r2);
  m ← wr m (x + 4) (r0 ⊖ r2);
  a ← rd m (x + 5); b ← rd m (x + 1); let r0 := a ⊖ b in
  c ← rd m (x + 7); d ← rd m (x + 3); let r2 := c ⊖ d in
  m ← wr m (x + 0) (r1 ⊕ r0);
  m ← wr m (x + 2) (r1 ⊖ r0);
  a ← rd m (x + 5); b ← rd m (x + 1); let r0 := a ⊕ b in
  c ← rd m (x + 7); d ← rd m (x + 3); let r1 := c ⊕ d in
  m ← wr m (x + 3) (r2 ⊕ r3);
  m ← wr m (x + 1) (r2 ⊖ r3);
  m ← wr m (x + 7) (r1 ⊕ r0);
  wr m (x + 5) (r1 ⊖ r0).

(** One group of statements: [r0 = x[a] - x[b]; r1 = x[c] - x[d];
    x[p] += x[q]; x[p+1] += x[q+1]; x[q] = f r0 r1; x[q+1] = g r0 r1]. *)
Definition cross (m : cells FLOAT) (a b c d p q : Z) (f g : FLOAT → FLOAT → FLOAT) : option (cells FLOAT) :=
  xa ← rd m a; xb ← rd m b; let r0 := xa ⊖ xb in
  xc ← rd m c; xd ← rd m d; let r1 := xc ⊖ xd in
  xp ← rd m p; xq ← rd m q; m ← wr m p (xp ⊕ xq);
  xp ← rd m (p + 1); xq ← rd m (q + 1); m ← wr m (p + 1) (xp ⊕ xq);
  m ← wr m q (f r0 r1);
  wr m (q + 1) (g r0 r1).

Definition mdct_butterfly_16 (m : cells FLOAT) (x : Z) : option (cells FLOAT) :=
  m ← cross m (x + 1) (x + 9) (x + 0) (x + 8) (x + 8) (x + 0)
    (λ r0 r1, (r0 ⊕ r1) ⊗ AFT_PI2_8) (λ r0 r1, (r0 ⊖ r1) ⊗ AFT_PI2_8);
  m ← cross m (x + 3) (x + 11) (x + 10) (x + 2) (x + 10) (x + 2) (λ r0 _, r0) (λ _ r1, r1);
  m ← cross m (x + 12) (x + 4) (x + 13) (x + 5) (x + 12) (x + 4)
    (λ r0 r1, (r0 ⊖ r1) ⊗ AFT_PI2_8) (λ r0 r1, (r0 ⊕ r1) ⊗ AFT_PI2_8);
  m ← cross m (x + 14) (x + 6) (x + 15) (x + 7) (x + 14) (x + 6) (λ r0 _, r0) (λ _ r1, r1);
  m ← mdct_butterfly_8 m x;
  mdct_butterfly_8 m (x + 8).

Definition mdct_butterfly_32 (m : cells FLOAT) (x : Z) : option (cells FLOAT) :=
  m ← cross m (x + 30) (x + 14) (x + 31) (x + 15) (x + 30) (x + 14) (λ r0 _, r0) (λ _ r1, r1);
  m ← cross m (x + 28) (x + 12) (x + 29) (x + 13) (x + 28) (x + 12)
    (λ r0 r1, r0 ⊗ AFT_PI1_8 ⊖ r1 ⊗ AFT_PI3_8) (λ r0 r1, r0 ⊗ AFT_PI3_8 ⊕ r1 ⊗ AFT_PI1_8);
  m ← cross m (x + 26) (x + 10) (x + 27) (x + 11) (x + 26) (x + 10)
    (λ r0 r1, (r0 ⊖ r1) ⊗ AFT_PI2_8) (λ r0 r1, (r0 ⊕ r1) ⊗ AFT_PI2_8);
  m ← cross m (x + 24) (x + 8) (x + 25) (x + 9) (x + 24) (x + 8)
    (λ r0 r1, r0 ⊗ AFT_PI3_8 ⊖ r1 ⊗ AFT_PI1_8) (λ r0 r1, r1 ⊗ AFT_PI3_8 ⊕ r0 ⊗ AFT_PI1_8);
  m ← cross m (x + 22) (x + 6) (x + 7) (x + 23) (x + 22) (x + 6) (λ _ r1, r1) (λ r0 _, r0);
  m ← cross m (x + 4) (x + 20) (x + 5) (x + 21) (x + 20) (x + 4)
    (λ r0 r1, r1 ⊗ AFT_PI1_8 ⊕ r0 ⊗ AFT_PI3_8) (λ r0 r1, r1 ⊗ AFT_PI3_8 ⊖ r0 ⊗ AFT_PI1_8);
  m ← cross m (x + 2) (x + 18) (x + 3) (x + 19) (x + 18) (x + 2)
    (λ r0 r1, (r1 ⊕ r0) ⊗ AFT_PI2_8) (λ r0 r1, (r1 ⊖ r0) ⊗ AFT_PI2_8);
  m ← cross m (x + 0) (x + 16) (x + 1) (x + 17) (x + 16) (x + 0)
    (λ r0 r1, r1 ⊗ AFT_PI3_8 ⊕ r0 ⊗ AFT_PI1_8) (λ r0 r1, r1 ⊗ AFT_PI1_8 ⊖ r0 ⊗ AFT_PI3_8);
  m ← mdct_butterfly_16 m x;
  mdct_butterfly_16 m (x + 16).

(** A group of the first and the generic stage: the twiddle factors at [t]. *)
Definition rotate (trig : cells FLOAT) (t : Z) (m : cells FLOAT) (x1 x2 : Z) : option (cells FLOAT) :=
  t0 ← rd trig t; t1 ← rd trig (t + 1);
  cross m x1 x2 (x1 + 1) (x2 + 1) x1 x2 (λ r0 r1, r1 ⊗ t1 ⊕ r0 ⊗ t0) (λ r0 r1, r1 ⊗ t0 ⊖ r0 ⊗ t1).

Definition mdct_butterfly_first (trig : cells FLOAT) (m : cells FLOAT) (x points : Z) : option (cells FLOAT) :=
  '(m, _, _, _) ← do_while (Z.to_nat points) (λ '(m, x1, x2, t),
    m ← rotate trig t m (x1 + 6) (x2 + 6);
    m ← rotate trig (t + 4) m (x1 + 4) (x2 + 4);
    m ← rotate trig (t + 8) m (x1 + 2) (x2 + 2);
    m ← rotate trig (t + 12) m (x1 + 0) (x2 + 0);
    let x1 := x1 - 8 in let x2 := x2 - 8 in let t := t + 16 in
    Some ((m, x1, x2, t), x2 >=? x)) (m, x + points - 8, x + Z.shiftr points 1 - 8, 0);
  Some m.

Definition mdct_butterfly_generic (trig : cells FLOAT) (m : cells FLOAT) (x points trigint : Z) : option (cells FLOAT) :=
  '(m, _, _, _) ← do_while (Z.to_nat points) (λ '(m, x1, x2, t),
    m ← rotate trig t m (x1 + 6) (x2 + 6); let t := t + trigint in
    m ← rotate trig t m (x1 + 4) (x2 + 4); let t := t + trigint in
    m ← rotate trig t m (x1 + 2) (x2 + 2); let t := t + trigint in
    m ← rotate trig t m (x1 + 0) (x2 + 0); let t := t + trigint in
    let x1 := x1 - 8 in let x2 := x2 - 8 in
    Some ((m, x1, x2, t), x2 >=? x)) (m, x + points - 8, x + Z.shiftr points 1 - 8, 0);
  Some m.

Definition mdct_butterflies (c : MDCTContext) (m : cells FLOAT) (x points : Z) : option (cells FLOAT) :=
  let stages := log2n c - 5 - 1 in
  m ← (if stages >? 0 then mdct_butterfly_first (trig c) m x points else Some m);
  '(_, _, m) ← while_loop (Z.to_nat (log2n c)) (λ '(i, stages, m), stages - 1 >? 0) (λ '(i, stages, m),
    m ← for_up 0 (Z.shiftl 1 i) (λ j m,
      mdct_butterfly_generic (trig c) m (x + Z.shiftr points i * j) (Z.shiftr points i) (Z.shiftl 4 i)) m;
    Some (i + 1, stages - 1, m)) (1, stages, m);
  for_up 0 (Z.quot (points + 31) 32) (λ j m, mdct_butterfly_32 m (x + 32 * j)) m.

Definition mdct_bitreverse (c : MDCTContext) (m : cells FLOAT) : option (cells FLOAT) :=
  let x := Z.shiftr (mdct_n c) 1 in
  '(m, _, _, _, _) ← do_while (Z.to_nat (mdct_n c)) (λ '(m, w0, w1, t, bit),
    b0 ← rd (bitrev c) bit; b1 ← rd (bitrev c) (bit + 1);
    let x0 := x + b0 in let x1 := x + b1 in
    p0 ← rd m x0; p1 ← rd m (x0 + 1); q0 ← rd m x1; q1 ← rd m (x1 + 1);
    t0 ← rd (trig c) t; t1 ← rd (trig c) (t + 1);
    let r0 := p1 ⊖ q1 in let r1 := p0 ⊕ q0 in
    let r2 := r1 ⊗ t0 ⊕ r0 ⊗ t1 in let r3 := r1 ⊗ t1 ⊖ r0 ⊗ t0 in
    let w1 := w1 - 4 in
    let r0 := (p1 ⊕ q1) ⊗ F_dec 1 2 in let r1 := (p0 ⊖ q0) ⊗ F_dec 1 2 in
    m ← wr m w0 (r0 ⊕ r2);
    m ← wr m (w1 + 2) (r0 ⊖ r2);
    m ← wr m (w0 + 1) (r1 ⊕ r3);
    m ← wr m (w1 + 3) (r3 ⊖ r1);
    b2 ← rd (bitrev c) (bit + 2); b3 ← rd (bitrev c) (bit + 3);
    let x0 := x + b2 in let x1 := x + b3 in
    p0 ← rd m x0; p1 ← rd m (x0 + 1); q0 ← rd m x1; q1 ← rd m (x1 + 1);
    t2 ← rd (trig c) (t + 2); t3 ← rd (trig c) (t + 3);
    let r0 := p1 ⊖ q1 in let r1 := p0 ⊕ q0 in
    let r2 := r1 ⊗ t2 ⊕ r0 ⊗ t3 in let r3 := r1 ⊗ t3 ⊖ r0 ⊗ t2 in
    let r0 := (p1 ⊕ q1) ⊗ F_dec 1 2 in let r1 := (p0 ⊖ q0) ⊗ F_dec 1 2 in
    m ← wr m (w0 + 2) (r0 ⊕ r2);
    m ← wr m w1 (r0 ⊖ r2);
    m ← wr m (w0 + 3) (r1 ⊕ r3);
    m ← wr m (w1 + 1) (r3 ⊖ r1);
    let t := t + 4 in let bit := bit + 4 in let w0 := w0 + 4 in
    Some ((m, w0, w1, t, bit), w0 <? w1)) (m, 0, x, mdct_n c, 0);
  Some m.

(** ** The transform *)

(** One of the three loops that fold the input into [w2 = w + n2]; [s0] and
    [s1] give the two sums. *)
Definition mdct_fold (c : MDCTContext) (in_ : cells FLOAT) (n2 hi : Z) (s : FLOAT → FLOAT → FLOAT)
    : cells FLOAT * Z * Z * Z * Z → option (cells FLOAT * Z * Z * Z * Z) :=
  while_loop (Z.to_nat (mdct_n c)) (λ '(w, i, x0, x1, t), i <? hi) (λ '(w, i, x0, x1, t),
    let x0 := x0 - 4 in let t := t - 2 in
    a ← rd in_ (x0 + 2); b ← rd in_ (x1 + 0); let r0 := s a b in
    a ← rd in_ (x0 + 0); b ← rd in_ (x1 + 2); let r1 := s a b in
    t0 ← rd (trig c) t; t1 ← rd (trig c) (t + 1);
    w ← wr w (n2 + i) (r1 ⊗ t1 ⊕ r0 ⊗ t0);
    w ← wr w (n2 + i + 1) (r1 ⊗ t0 ⊖ r0 ⊗ t1);
    Some (w, i + 2, x0, x1 + 4, t)).

(** The folded, rotated and bit-reversed buffer. *)
Definition mdct_core (c : MDCTContext) (buffer in_ : cells FLOAT) : option (cells FLOAT) :=
  let n := mdct_n c in
  let n2 := Z.shiftr n 1 in let n4 := Z.shiftr n 2 in let n8 := Z.shiftr n 3 in
  '(w, i, x0, x1, t) ← mdct_fold c in_ n2 n8 (λ a b, a ⊕ b) (buffer, 0, n2 + n4, n2 + n4 + 1, n2);
  '(w, i, x0, x1, t) ← mdct_fold c in_ n2 (n2 - n8) (λ a b, a ⊖ b) (w, i, x0, 1, t);
  '(w, i, x0, x1, t) ← mdct_fold c in_ n2 n2 (λ a b, F_neg a ⊖ b) (w, i, n, x1, t);
  w ← mdct_butterflies c w n2 n2;
  mdct_bitreverse c w.

(** The last loop, to [out] at offset [o]. *)
Definition mdct_out (c : MDCTContext) (w : cells FLOAT) (out : list FLOAT) (o : Z) : option (list FLOAT) :=
  let n2 := Z.shiftr (mdct_n c) 1 in
  for_up 0 (Z.shiftr (mdct_n c) 2) (λ i out,
    w0 ← rd w (2 * i); w1 ← rd w (2 * i + 1);
    t0 ← rd (trig c) (n2 + 2 * i); t1 ← rd (trig c) (n2 + 2 * i + 1);
    out ← aset out (o + i) ((w0 ⊗ t0 ⊕ w1 ⊗ t1) ⊗ scale c);
    aset out (o + n2 - 1 - i) ((w0 ⊗ t1 ⊖ w1 ⊗ t0) ⊗ scale c)) out.

Definition mdct (c : MDCTContext) (buffer : cells FLOAT) (out : list FLOAT) (o : Z) (in_ : cells FLOAT) : option (list FLOAT) :=
  w ← mdct_core c buffer in_; mdct_out c w out o.

(** [mdct_tctx_init]: the two buffers of a transform. *)
Definition mdct_tctx_init (n : Z) : cells FLOAT * cells FLOAT := (fresh (n + 2), fresh n).

Definition mdct_512 (c : MDCTContext) (out in_ : list FLOAT) : option (list FLOAT * list FLOAT) :=
  out ← mdct c (fst (mdct_tctx_init 512)) out 0 (map Some in_);
  Some (out, in_).

(** [xx[d + i] = -in[s + i]] for 64 samples. *)
Definition copy_neg (xx : cells FLOAT) (d : Z) (in_ : list FLOAT) (s : Z) : option (cells FLOAT) :=
  for_up 0 64 (λ i xx, a ← aget in_ (i + s); wr xx (i + d) (F_neg a)) xx.

Definition mdct_256 (c : MDCTContext) (out in_ : list FLOAT) : option (list FLOAT * list FLOAT) :=
  let '(buffer, xx) := mdct_tctx_init 256 in
  xx ← memcpy xx 0 (map Some in_) 64 192;
  xx ← copy_neg xx 192 in_ 0;
  in_ ← mdct c buffer in_ 0 xx;
  xx ← copy_neg xx 0 in_ (256 + 192);
  xx ← memcpy xx 64 (map Some in_) 256 128;
  xx ← copy_neg xx 192 in_ (256 + 128);
  in_ ← mdct c buffer in_ 128 xx;
  out ← for_up 0 128 (λ i out,
    a ← aget in_ i; b ← aget in_ (128 + i);
    out ← aset out (2 * i) a;
    aset out (2 * i + 1) b) out;
  Some (out, in_).

(** [mdct_init]: the contexts of both transforms. *)
Definition mdct_init : option (MDCTContext * MDCTContext) :=
  c512 ← mdct_ctx_init 512; c256 ← mdct_ctx_init 256; Some (c512, c256).
End mdct.

(** ** The buffers of the blocks *)

(** [alloc_block_buffers]: the offsets of [input_samples] and [mdct_coef] of
    every block and channel in the one allocation of [mdct_thread_init]. *)
Definition alloc_block_buffers (inp coef : list (list Z)) : option (list (list Z) * list (list Z)) :=
  for_up 0 A52_NUM_BLOCKS (λ i '(inp, coef),
    inp ← (if negb (i =? 0) then
      p ← aget2 inp (i - 1) (A52_MAX_CHANNELS - 1); aset2 inp i 0 (p + 512 + 256) else Some inp);
    p ← aget2 inp i 0;
    coef ← aset2 coef i 0 (p + 512);
    for_up 1 A52_MAX_CHANNELS (λ j '(inp, coef),
      p ← aget2 inp i (j - 1); inp ← aset2 inp i j (p + 512 + 256);
      q ← aget2 coef i (j - 1); coef ← aset2 coef i j (q + 512 + 256);
      Some (inp, coef)) (inp, coef)) (inp, coef).

(** * Definedness *)

(** Every cell from [lo] to [hi - 1] has a value. *)
Definition filled {A} (m : cells A) (lo hi : Z) : Prop := ∀ i, lo ≤ i < hi → ∃ v, m.[i] = Some v.
(** Memory after some writes. *)
Definition grows {A} (m m' : cells A) : Prop := zlen m' = zlen m ∧ ∀ i, 0 ≤ i → m.[i] ≠ None → m'.[i] ≠ None.

Section cells.
Context {A : Type}.
Implicit Types m : cells A.

Lemma grows_refl m : grows m m. Proof. by split. Qed.
Lemma grows_trans m1 m2 m3 : grows m1 m2 → grows m2 m3 → grows m1 m3.
Proof. intros [H1 H2] [H3 H4]. split; [lia|]. intros i Hi Hm. by apply H4, H2. Qed.

Lemma filled_grows m m' lo hi : 0 ≤ lo → grows m m' → filled m lo hi → filled m' lo hi.
Proof.
  intros Hlo [_ Hg] Hf i Hi. destruct (Hf i Hi) as [v Hv]. specialize (Hg i ltac:(lia)). rewrite Hv in Hg.
  destruct m'.[i] as [v'|]; [by exists v'|]. by destruct Hg.
Qed.
Lemma filled_join m lo mid hi : filled m lo mid → filled m mid hi → filled m lo hi.
Proof. intros H1 H2 i Hi. destruct (Z.ltb_spec i mid); [apply H1|apply H2]; lia. Qed.
Lemma filled_sub m lo hi lo' hi' : filled m lo hi → lo ≤ lo' → hi' ≤ hi → filled m lo' hi'.
Proof. intros Hf ? ? i Hi. apply Hf. lia. Qed.
Lemma filled_one m i v : 0 ≤ i < zlen m → filled (upd m i (Some v)) i (i + 1).
Proof. intros Hi j Hj. replace j with i by lia. exists v. by apply at_upd_eq. Qed.

Lemma grows_upd m i v : 0 ≤ i < zlen m → grows m (upd m i (Some v)).
Proof. intros Hi. split; [by rewrite zlen_upd|]. intros j Hj Hm. rewrite at_upd by lia. by destruct (j =? i). Qed.

Lemma wp_rd m lo hi i (Q : A → Prop) :
  filled m lo hi → lo ≤ i < hi → 0 ≤ i < zlen m → (∀ v, m.[i] = Some v → Q v) → wp (rd m i) Q.
Proof.
  intros Hf Hi Hl HQ. unfold rd. wp_step. wp_step. destruct (Hf i Hi) as [v Hv]. rewrite Hv. apply wp_ret. by apply HQ.
Qed.

Lemma wp_wr m i v (Q : cells A → Prop) : 0 ≤ i < zlen m → Q (upd m i (Some v)) → wp (wr m i v) Q.
Proof. intros Hi HQ. unfold wr. by wp_step. Qed.

Lemma filled_map (l : list A) : filled (map Some l) 0 (zlen l).
Proof.
  intros i Hi. unfold at_, zlen in *. assert (Hl : (Z.to_nat i < length l)%nat) by lia.
  destruct (lookup_lt_is_Some_2 l (Z.to_nat i) Hl) as [v Hv]. exists v.
  apply list_lookup_total_correct. change (map Some l) with (Some <$> l). by rewrite list_lookup_fmap, Hv.
Qed.
Lemma zlen_fresh n : 0 ≤ n → zlen (@fresh A n) = n.
Proof. intros Hn. unfold fresh, zlen. rewrite length_replicate. lia. Qed.
End cells.

(** A window of cells that are read and written: the state [m] of the memory
    [m0], whose cells from [lo] to [hi - 1] have values. *)
Record inside {A} (m0 : cells A) (lo hi : Z) (m : cells A) : Prop := {
  in_grows : grows m0 m;
  in_filled : filled m0 lo hi;
  in_lo : 0 ≤ lo;
  in_hi : hi ≤ zlen m0
}.

Section inside.
Context {A : Type}.
Implicit Types m : cells A.

Lemma wp_rd_in m0 lo hi m i (Q : A → Prop) : inside m0 lo hi m → lo ≤ i < hi → (∀ v, Q v) → wp (rd m i) Q.
Proof.
  intros [Hg Hf Hlo Hhi] Hi HQ. pose proof (proj1 Hg). apply (wp_rd m lo hi); [by apply (filled_grows m0)|done|lia|done].
Qed.
Lemma wp_wr_in m0 lo hi m i v (Q : cells A → Prop) :
  inside m0 lo hi m → lo ≤ i < hi → (∀ m', inside m0 lo hi m' → Q m') → wp (wr m i v) Q.
Proof.
  intros [Hg Hf Hlo Hhi] Hi HQ. pose proof (proj1 Hg). apply wp_wr; [lia|]. apply HQ. split; try done.
  eapply grows_trans; [exact Hg|]. apply grows_upd. lia.
Qed.
Lemma inside_refl m lo hi : filled m lo hi → 0 ≤ lo → hi ≤ zlen m → inside m lo hi m.
Proof. by intros. Qed.
Lemma inside_sub m0 lo hi m lo' hi' : inside m0 lo hi m → lo ≤ lo' → hi' ≤ hi → inside m lo' hi' m.
Proof.
  intros [Hg Hf Hlo Hhi] ? ?. pose proof (proj1 Hg). apply inside_refl; [|lia|lia].
  eapply filled_sub; [by apply (filled_grows m0)|done|done].
Qed.
Lemma inside_trans m0 lo hi m lo' hi' m' : inside m0 lo hi m → inside m lo' hi' m' → inside m0 lo hi m'.
Proof. intros [Hg Hf Hlo Hhi] [Hg2 _ _ _]. split; [|done..]. by eapply grows_trans. Qed.
End inside.

Ltac cell_step :=
  lazymatch goal with
  | |- wp (_ ≫= _) _ => apply wp_bind
  | |- wp (let _ := _ in _) _ => cbv zeta
  | |- wp (rd _ _) _ => eapply wp_rd_in; [eassumption|lia|intros ?]
  | |- wp (wr _ _ _) _ => eapply wp_wr_in; [eassumption|lia|intros ? ?]
  end.

Section bounds.
Context `{FloatFormat} `{LibM}.

Lemma butterfly_8_inside m0 lo hi m x :
  inside m0 lo hi m → lo ≤ x → x + 8 ≤ hi → wp (mdct_butterfly_8 m x) (inside m0 lo hi).
Proof. intros Hin Hx Hx'. unfold mdct_butterfly_8. repeat cell_step. done. Qed.

Lemma cross_inside m0 lo hi m a b c d p q f g :
  inside m0 lo hi m → lo ≤ a < hi → lo ≤ b < hi → lo ≤ c < hi → lo ≤ d < hi → lo ≤ p < hi - 1 → lo ≤ q < hi - 1 →
  wp (cross m a b c d p q f g) (inside m0 lo hi).
Proof. intros. unfold cross. repeat cell_step. done. Qed.

Ltac stage_step :=
  first [ cell_step
        | lazymatch goal with
          | |- wp (cross _ _ _ _ _ _ _ _ _) _ =>
              eapply wp_mono; [eapply cross_inside; [eassumption|lia..]|]; cbv beta; intros ? ?
          end ].

Lemma butterfly_16_inside m0 lo hi m x :
  inside m0 lo hi m → lo ≤ x → x + 16 ≤ hi → wp (mdct_butterfly_16 m x) (inside m0 lo hi).
Proof.
  intros Hin Hx Hx'. unfold mdct_butterfly_16. repeat stage_step.
  eapply wp_mono; [eapply butterfly_8_inside; [eassumption|lia..]|]. intros m1 Hm1.
  eapply butterfly_8_inside; [eassumption|lia..].
Qed.

Lemma butterfly_32_inside m0 lo hi m x :
  inside m0 lo hi m → lo ≤ x → x + 32 ≤ hi → wp (mdct_butterfly_32 m x) (inside m0 lo hi).
Proof.
  intros Hin Hx Hx'. unfold mdct_butterfly_32. repeat stage_step.
  eapply wp_mono; [eapply butterfly_16_inside; [eassumption|lia..]|]. intros m1 Hm1.
  eapply butterfly_16_inside; [eassumption|lia..].
Qed.

(** The twiddle factors are a memory of their own. *)
Definition table (t : cells FLOAT) (n : Z) : Prop := filled t 0 n ∧ n ≤ zlen t.

Lemma wp_table t n i (Q : FLOAT → Prop) : table t n → 0 ≤ i < n → (∀ v, Q v) → wp (rd t i) Q.
Proof. intros [Hf Hl] Hi HQ. apply (wp_rd t 0 n); [done|done|lia|done]. Qed.

Lemma rotate_inside tr N t m0 lo hi m x1 x2 :
  table tr N → 0 ≤ t < N - 1 → inside m0 lo hi m → lo ≤ x1 < hi - 1 → lo ≤ x2 < hi - 1 →
  wp (rotate tr t m x1 x2) (inside m0 lo hi).
Proof.
  intros Ht Hi Hm H1 H2. unfold rotate. apply wp_bind. eapply wp_table; [done|lia|]. intros t0.
  apply wp_bind. eapply wp_table; [done|lia|]. intros t1. eapply cross_inside; [done|lia..].
Qed.

Ltac rotate_step :=
  first [ cell_step
        | lazymatch goal with
          | |- wp (rotate _ _ _ _ _) _ =>
              eapply wp_mono; [eapply rotate_inside; [eassumption|lia|eassumption|lia..]|]; cbv beta; intros ? ?
          end ].

(** A stage of [16 k] points walks down both halves by 8. *)
Lemma half_points k : Z.shiftr (16 * k) 1 = 8 * k.
Proof. rewrite Z.shiftr_div_pow2 by lia. change (2 ^ 1) with 2. replace (16 * k) with (8 * k * 2) by lia. by apply Z.div_mul. Qed.

Lemma butterfly_first_inside tr N m0 lo hi m x k :
  table tr N → inside m0 lo hi m → lo ≤ x → 1 ≤ k → x + 16 * k ≤ hi → 16 * k < N →
  wp (mdct_butterfly_first tr m x (16 * k)) (inside m0 lo hi).
Proof.
  intros Ht Hin Hx Hk Hhi HN. unfold mdct_butterfly_first. apply wp_bind. rewrite half_points.
  apply (wp_do_while (λ '(m, x1, x2, t), inside m0 lo hi m ∧ ∃ j, 0 ≤ j < k ∧
    x1 = x + 16 * k - 8 - 8 * j ∧ x2 = x + 8 * k - 8 - 8 * j ∧ t = 16 * j) (λ '(_, _, x2, _), Z.to_nat (x2 - x + 8))).
  - split; [done|]. exists 0. lia.
  - lia.
  - intros [[[m1 x1] x2] t] (Hm1 & j & Hj & -> & -> & ->). repeat rotate_step. apply wp_ret. cbn [fst snd].
    destruct (Z.geb_spec (x + 8 * k - 8 - 8 * j - 8) x); [|by apply wp_ret].
    split; [split; [done|exists (j + 1); lia]|lia].
Qed.

Lemma butterfly_generic_inside tr N m0 lo hi m x k d :
  table tr N → inside m0 lo hi m → lo ≤ x → 1 ≤ k → 2 ≤ d → x + 16 * k ≤ hi → 4 * k * d ≤ N →
  wp (mdct_butterfly_generic tr m x (16 * k) d) (inside m0 lo hi).
Proof.
  intros Ht Hin Hx Hk Hd Hhi HN. unfold mdct_butterfly_generic. apply wp_bind. rewrite half_points.
  apply (wp_do_while (λ '(m, x1, x2, t), inside m0 lo hi m ∧ ∃ j, 0 ≤ j < k ∧
    x1 = x + 16 * k - 8 - 8 * j ∧ x2 = x + 8 * k - 8 - 8 * j ∧ t = 4 * j * d) (λ '(_, _, x2, _), Z.to_nat (x2 - x + 8))).
  - split; [done|]. exists 0. lia.
  - lia.
  - intros [[[m1 x1] x2] t] (Hm1 & j & Hj & -> & -> & ->). assert (0 ≤ 4 * j * d ∧ 4 * j * d + 4 * d ≤ N) by nia.
    repeat rotate_step. apply wp_ret. cbn [fst snd].
    destruct (Z.geb_spec (x + 8 * k - 8 - 8 * j - 8) x); [|by apply wp_ret].
    split; [split; [done|exists (j + 1); lia]|lia].
Qed.

Lemma stage_inside tr N m0 m x points i k :
  table tr N → inside m0 x (x + points) m → 0 ≤ i → 1 ≤ k → points = 16 * k * 2 ^ i → points ≤ N →
  wp (for_up 0 (Z.shiftl 1 i) (λ j m, mdct_butterfly_generic tr m (x + Z.shiftr points i * j) (Z.shiftr points i) (Z.shiftl 4 i)) m)
     (inside m0 x (x + points)).
Proof.
  intros Ht Hin Hi Hk Hp HN. assert (H2 : 0 < 2 ^ i) by (apply Z.pow_pos_nonneg; lia).
  assert (Hs : Z.shiftr points i = 16 * k) by (rewrite Z.shiftr_div_pow2, Hp by lia; apply Z.div_mul; lia).
  rewrite Hs, !Z.shiftl_mul_pow2 by lia.
  apply (wp_for_up (λ _ m, inside m0 x (x + points) m)); [lia|done| |done].
  intros j m1 Hj Hm1. eapply butterfly_generic_inside; [done|done|nia|done|nia|nia|lia].
Qed.

(** What [mdct_ctx_init] leaves in a context for [n] samples. *)
Record context_ok (c : MDCTContext) (n : Z) : Prop := {
  co_n : mdct_n c = n;
  co_log2 : n = 2 ^ log2n c ∧ (n = 256 ∧ log2n c = 8 ∨ n = 512 ∧ log2n c = 9);
  co_trig : table (trig c) (n + n / 4);
  co_bitrev_len : zlen (bitrev c) = n / 4;
  co_bitrev : ∀ i, 0 ≤ i < n / 4 → ∃ v, (bitrev c).[i] = Some v ∧ 0 ≤ v < n / 2 - 1
}.

Lemma butterflies_inside c n m0 m x :
  context_ok c n → inside m0 x (x + n / 2) m → wp (mdct_butterflies c m x (n / 2)) (inside m0 x (x + n / 2)).
Proof.
  intros [Hn [_ Hcase] Htr _ _] Hin. unfold mdct_butterflies. apply wp_bind.
  assert (Hfirst : ∀ k, n / 2 = 16 * k → 1 ≤ k → 16 * k < n + n / 4 → (log2n c - 5 - 1 >? 0) = true →
    wp (if log2n c - 5 - 1 >? 0 then mdct_butterfly_first (trig c) m x (n / 2) else Some m) (inside m0 x (x + n / 2))).
  { intros k Hk0 Hk Hk' ->. rewrite Hk0 in *. eapply butterfly_first_inside; [done|done|lia..]. }
  assert (Hlast : ∀ m1, inside m0 x (x + n / 2) m1 →
    wp (for_up 0 (Z.quot (n / 2 + 31) 32) (λ j m, mdct_butterfly_32 m (x + 32 * j)) m1) (inside m0 x (x + n / 2))).
  { intros m1 Hm1. apply (wp_for_up (λ _ m, inside m0 x (x + n / 2) m)); [|done| |done].
    - destruct Hcase as [[-> _]|[-> _]]; by vm_compute.
    - intros j m2 Hj Hm2. eapply butterfly_32_inside; [done|lia|].
      assert (32 * Z.quot (n / 2 + 31) 32 ≤ n / 2) by (destruct Hcase as [[-> _]|[-> _]]; by vm_compute). lia. }
  destruct Hcase as [[Heq Hlog]|[Heq Hlog]]; rewrite Hlog, Heq in *;
    (eapply wp_mono; [first [apply (Hfirst 8); by vm_compute|apply (Hfirst 16); by vm_compute]|]; clear Hfirst; intros m1 Hm1; apply wp_bind).
  - change (Z.to_nat 8) with 8%nat. rewrite while_step by done. apply wp_bind. apply wp_bind.
    eapply wp_mono; [apply (stage_inside _ _ m0 _ _ _ _ 4 Htr Hm1); done|]. intros m2 Hm2. apply wp_ret.
    rewrite while_stop by done. apply wp_ret. by apply Hlast.
  - change (Z.to_nat 9) with 9%nat. rewrite while_step by done. apply wp_bind. apply wp_bind.
    eapply wp_mono; [apply (stage_inside _ _ m0 _ _ _ _ 8 Htr Hm1); done|]. intros m2 Hm2. apply wp_ret.
    rewrite while_step by done. apply wp_bind. apply wp_bind.
    eapply wp_mono; [apply (stage_inside _ _ m0 _ _ _ _ 4 Htr Hm2); done|]. intros m3 Hm3. apply wp_ret.
    rewrite while_stop by done. apply wp_ret. by apply Hlast.
Qed.
Lemma wp_bitrev c n i (Q : Z → Prop) :
  context_ok c n → 0 ≤ i < n / 4 → (∀ v, 0 ≤ v < n / 2 - 1 → Q v) → wp (rd (bitrev c) i) Q.
Proof.
  intros [_ _ _ Hl Hb] Hi HQ. destruct (Hb i Hi) as (v & Hv & Hr). unfold rd. wp_step. wp_step. rewrite Hv. apply wp_ret. by apply HQ.
Qed.

(** The state [m] after writes at [ws], beside the window that is read. *)
Definition writing (m0 : cells FLOAT) (lo hi : Z) (ws : list Z) (m : cells FLOAT) : Prop :=
  inside m0 lo hi m ∧ ∀ i, i ∈ ws → m.[i] ≠ None.

Lemma wp_wr_out m0 lo hi ws m i v (Q : cells FLOAT → Prop) :
  writing m0 lo hi ws m → (∀ j, j ∈ ws → 0 ≤ j) → 0 ≤ i < zlen m0 → (∀ m', writing m0 lo hi (i :: ws) m' → Q m') → wp (wr m i v) Q.
Proof.
  intros [[Hg Hf Hlo Hhi] Hw] Hws Hi HQ. pose proof (proj1 Hg). apply wp_wr; [lia|]. apply HQ.
  pose proof (grows_upd m i v ltac:(lia)) as Hg2. split.
  - split; try done. by eapply grows_trans.
  - intros j [-> |Hj]%elem_of_cons; [by rewrite at_upd_eq by lia|]. apply Hg2; [by apply Hws|by apply Hw].
Qed.

Lemma wp_rd_out m0 lo hi ws m i (Q : FLOAT → Prop) : writing m0 lo hi ws m → lo ≤ i < hi → (∀ v, Q v) → wp (rd m i) Q.
Proof. intros [Hin _]. by apply (wp_rd_in m0 lo hi). Qed.

Ltac nonneg :=
  let j := fresh "j" in let Hj := fresh "Hj" in
  intros j Hj; repeat (apply elem_of_cons in Hj as [-> |Hj]; [lia|]); by apply elem_of_nil in Hj.

Ltac brev_step :=
  lazymatch goal with
  | |- wp (_ ≫= _) _ => apply wp_bind
  | |- wp (let _ := _ in _) _ => cbv zeta
  | |- wp (rd (bitrev _) _) _ => eapply wp_bitrev; [eassumption|lia|intros ? ?]
  | |- wp (rd (trig _) _) _ => eapply wp_table; [eassumption|lia|intros ?]
  | |- wp (rd _ _) _ => eapply wp_rd_out; [eassumption|lia|intros ?]
  | |- wp (wr _ _ _) _ => eapply wp_wr_out; [eassumption|nonneg|lia|];
      let m := fresh "m" in let H := fresh "Hm" in intros m H;
      match goal with Hp : writing _ _ _ _ ?m' |- _ => lazymatch m' with m => fail | _ => clear Hp end end
  end.

Lemma bitreverse_filled c n m :
  context_ok c n → n ≤ zlen m → filled m (n / 2) n →
  wp (mdct_bitreverse c m) (λ m', grows m m' ∧ filled m' 0 (n / 2)).
Proof.
  intros Hc Hl Hf. pose proof Hc as [Hn [_ Hcase] Htr Hbl _]. unfold mdct_bitreverse. rewrite Hn. cbv zeta.
  assert (Hs : Z.shiftr n 1 = n / 2) by (by rewrite Z.shiftr_div_pow2 by lia). rewrite Hs.
  assert (Hn16 : ∃ q, n = 16 * q ∧ n / 2 = 8 * q ∧ n / 4 = 4 * q ∧ 16 ≤ q)
    by (destruct Hcase as [[-> _]|[-> _]]; [exists 16|exists 32]; by vm_compute).
  destruct Hn16 as (q & Hq1 & Hq2 & Hq4 & Hq). clear Hs Hcase. rewrite Hq2, Hq4 in *.
  apply wp_bind. apply (wp_do_while (λ '(m1, w0, w1, t, bit), grows m m1 ∧ ∃ k, 0 ≤ k < q ∧ w0 = 4 * k ∧ w1 = 8 * q - 4 * k ∧
    t = n + 4 * k ∧ bit = 4 * k ∧ filled m1 0 (4 * k) ∧ filled m1 (8 * q - 4 * k) (8 * q))
    (λ '(_, w0, w1, _, _), Z.to_nat (w1 - w0))).
  - split; [apply grows_refl|]. exists 0. split_and!; try lia; intros i Hi; lia.
  - lia.
  - intros [[[[m1 w0] w1] t] bit] (Hg & k & Hk & -> & -> & -> & -> & Hlo & Hhi).
    assert (Hin : writing m1 (8 * q) n [] m1).
    { split; [|by intros i Hi%elem_of_nil]. pose proof (proj1 Hg). apply inside_refl; [|lia|lia]. by apply (filled_grows m); [lia|..]. }
    pose proof (proj1 Hg) as Hlg.
    repeat brev_step. destruct Hm0 as [[Hg8 _ _ _] Hw8]. apply wp_ret. cbn [fst snd].
    pose proof (grows_trans _ _ _ Hg Hg8) as Hgm.
    assert (Hdef : ∀ i, 0 ≤ i → m8.[i] ≠ None → ∃ v, m8.[i] = Some v) by (intros i _ Hi; destruct m8.[i] as [w|]; [by exists w|done]).
    assert (Hlo8 : filled m8 0 (4 * k + 4)).
    { apply (filled_join _ _ (4 * k)); [by apply (filled_grows m1)|]. intros i Hi. apply Hdef; [lia|]. apply Hw8.
      assert (i = 4 * k ∨ i = 4 * k + 1 ∨ i = 4 * k + 2 ∨ i = 4 * k + 3) as [-> |[-> |[-> | ->]]] by lia; rewrite !elem_of_cons; auto 20. }
    assert (Hhi8 : filled m8 (8 * q - 4 * k - 4) (8 * q)).
    { apply (filled_join _ _ (8 * q - 4 * k)); [|apply (filled_grows m1); [lia|done|done]]. intros i Hi. apply Hdef; [lia|]. apply Hw8.
      assert (i = 8 * q - 4 * k - 4 ∨ i = 8 * q - 4 * k - 4 + 1 ∨ i = 8 * q - 4 * k - 4 + 2 ∨ i = 8 * q - 4 * k - 4 + 3)
        as [-> |[-> |[-> | ->]]] by lia; rewrite !elem_of_cons; auto 20. }
    destruct (Z.ltb_spec (4 * k + 4) (8 * q - 4 * k - 4)).
    + split; [|lia]. split; [done|]. exists (k + 1). replace (4 * (k + 1)) with (4 * k + 4) by lia.
      replace (8 * q - (4 * k + 4)) with (8 * q - 4 * k - 4) by lia. split_and!; try lia; done.
    + apply wp_ret. split; [done|]. eapply filled_join; [exact Hlo8|]. eapply filled_sub; [exact Hhi8|lia|lia].
Qed.
(** One of the folding loops, from bin pair [a] to [b]. *)
Lemma fold_filled c in_ n n2 N s w a b x0 x1 t :
  table (trig c) N → filled in_ 0 n → n ≤ zlen in_ → 0 ≤ n2 → n2 + 2 * b ≤ zlen w → 0 ≤ a ≤ b → b - a ≤ mdct_n c →
  4 * (b - a) ≤ x0 ≤ n → 0 ≤ x1 → x1 + 4 * (b - a) ≤ n + 1 → 2 * (b - a) ≤ t ≤ N → filled w n2 (n2 + 2 * a) →
  wp (mdct_fold c in_ n2 (2 * b) s (w, 2 * a, x0, x1, t)) (λ '(w', i, x0', x1', t'), grows w w' ∧ filled w' n2 (n2 + 2 * b) ∧
    i = 2 * b ∧ x0' = x0 - 4 * (b - a) ∧ x1' = x1 + 4 * (b - a) ∧ t' = t - 2 * (b - a)).
Proof.
  intros Ht Hin Hl Hn2 Hw Hab Hfuel Hx0 Hx1 Hx1' Hti Hf. unfold mdct_fold.
  apply (wp_while (λ '(w', i, x0', x1', t'), grows w w' ∧ ∃ k, a ≤ k ≤ b ∧ filled w' n2 (n2 + 2 * k) ∧
    i = 2 * k ∧ x0' = x0 - 4 * (k - a) ∧ x1' = x1 + 4 * (k - a) ∧ t' = t - 2 * (k - a)) (λ '(_, i, _, _, _), Z.to_nat (b - i / 2))).
  - split; [apply grows_refl|]. exists a. split_and!; try lia; done.
  - rewrite (Z.mul_comm 2 a), Z.div_mul by lia. lia.
  - intros [[[[w1 i] y0] y1] t1] (Hg & k & Hk & Hfk & -> & -> & -> & ->) Hlt. pose proof (proj1 Hg) as Hlg. cbv zeta.
    assert (Hkb : k < b) by lia.
    do 4 (apply wp_bind; eapply (wp_rd in_ 0 n); [done|lia|lia|]; intros ? _; cbv zeta).
    do 2 (apply wp_bind; eapply wp_table; [done|lia|]; intros ?).
    apply wp_bind, wp_wr; [lia|]. apply wp_bind, wp_wr; [rewrite zlen_upd; lia|]. apply wp_ret.
    set (e := Some _). set (w2 := upd w1 _ e). set (e' := Some _). set (w3 := upd w2 _ e').
    assert (Hg2 : grows w1 w2) by (apply grows_upd; lia). assert (Hl2 : zlen w2 = zlen w1) by apply zlen_upd.
    assert (Hg3 : grows w2 w3) by (apply grows_upd; lia).
    split; [split; [by eapply grows_trans; [|eapply grows_trans]|]|].
    + exists (k + 1). split; [lia|]. split; [|split_and!; lia].
      apply (filled_join _ _ (n2 + 2 * k)); [apply (filled_grows w2); [lia|done|]; by apply (filled_grows w1)|].
      apply (filled_join _ _ (n2 + 2 * k + 1)).
      * apply (filled_grows w2); [lia|done|]. apply filled_one. lia.
      * eapply filled_sub; [apply filled_one; lia|lia|lia].
    + rewrite (Z.mul_comm 2 k), Z.div_mul by lia. replace (k * 2 + 2) with ((k + 1) * 2) by lia. rewrite Z.div_mul by lia. lia.
  - intros [[[[w1 i] y0] y1] t1] (Hg & k & Hk & Hfk & -> & -> & -> & ->) Hge. assert (k = b) as -> by lia. done.
Qed.

Lemma core_filled c n w in_ :
  context_ok c n → zlen w = n + 2 → zlen in_ = n → filled in_ 0 n →
  wp (mdct_core c w in_) (λ w', zlen w' = n + 2 ∧ filled w' 0 (n / 2)).
Proof.
  intros Hc Hw Hli Hin. pose proof Hc as [Hn [_ Hcase] Htr _ _].
  assert (Hq : ∃ q, n = 16 * q ∧ n / 2 = 8 * q ∧ n / 4 = 4 * q ∧ Z.shiftr n 1 = 8 * q ∧ Z.shiftr n 2 = 4 * q ∧ Z.shiftr n 3 = 2 * q ∧ 16 ≤ q)
    by (destruct Hcase as [[-> _]|[-> _]]; [exists 16|exists 32]; by vm_compute).
  destruct Hq as (q & Hq0 & Hq2 & Hq4 & Hs1 & Hs2 & Hs3 & Hq). clear Hcase. unfold mdct_core. rewrite Hn. cbv zeta. rewrite Hs1, Hs2, Hs3.
  rewrite Hq4 in Htr. apply wp_bind. change 0 with (2 * 0) at 1.
  eapply wp_mono; [apply (fold_filled c in_ n (8 * q) (n + 4 * q) _ w 0 q); try done; try lia; intros i Hi; lia|].
  intros [[[[w1 i1] y1] z1] t1] (Hg1 & Hf1 & -> & -> & -> & ->). pose proof (proj1 Hg1). apply wp_bind.
  replace (8 * q - 2 * q) with (2 * (3 * q)) by lia.
  eapply wp_mono; [apply (fold_filled c in_ n (8 * q) (n + 4 * q) _ w1 q (3 * q)); try done; lia|].
  intros [[[[w2 i2] y2] z2] t2] (Hg2 & Hf2 & -> & -> & -> & ->). pose proof (proj1 Hg2). apply wp_bind.
  replace (8 * q) with (2 * (4 * q)) at 2 by lia.
  eapply wp_mono; [apply (fold_filled c in_ n (8 * q) (n + 4 * q) _ w2 (3 * q) (4 * q)); try done; lia|].
  intros [[[[w3 i3] y3] z3] t3] (Hg3 & Hf3 & _ & _ & _ & _). pose proof (proj1 Hg3). apply wp_bind.
  replace (8 * q + 2 * (4 * q)) with (8 * q + n / 2) in Hf3 by lia.
  assert (Hi3 : inside w3 (8 * q) (8 * q + n / 2) w3) by (apply inside_refl; [done|lia|lia]).
  rewrite <- Hq2 at 2. eapply wp_mono; [by apply (butterflies_inside c n w3 w3 (8 * q))|].
  intros w4 [Hg4 _ _ _]. pose proof (proj1 Hg4).
  eapply wp_mono; [apply (bitreverse_filled c n w4); [done|lia|]|].
  { replace n with (8 * q + n / 2) at 2 by lia. rewrite Hq2 at 1. apply (filled_grows w3); [lia|done|done]. }
  intros w5 [Hg5 Hf5]. pose proof (proj1 Hg5). split; [lia|done].
Qed.

(** The outputs, from the two halves of the loop. *)
Definition mdct_value (c : MDCTContext) (w : cells FLOAT) (k : Z) : FLOAT :=
  let n2 := mdct_n c / 2 in
  let get (m : cells FLOAT) i := default (S754_zero false) m.[i] in
  let val i (f : FLOAT → FLOAT → FLOAT → FLOAT → FLOAT) := f (get w (2 * i)) (get w (2 * i + 1)) (get (trig c) (n2 + 2 * i)) (get (trig c) (n2 + 2 * i + 1)) in
  if k <? n2 / 2 then val k (λ w0 w1 t0 t1, (w0 ⊗ t0 ⊕ w1 ⊗ t1) ⊗ scale c)
  else val (n2 - 1 - k) (λ w0 w1 t0 t1, (w0 ⊗ t1 ⊖ w1 ⊗ t0) ⊗ scale c).
Definition mdct_values (c : MDCTContext) (w : cells FLOAT) : list FLOAT := map (mdct_value c w) (seqZ 0 (mdct_n c / 2)).

Lemma at_map_seqZ {A} `{Inhabited A} (f : Z → A) n i : 0 ≤ i < n → (map f (seqZ 0 n)).[i] = f i.
Proof.
  intros Hi. unfold at_. apply list_lookup_total_correct. change (map f (seqZ 0 n)) with (f <$> seqZ 0 n).
  rewrite list_lookup_fmap, lookup_seqZ_lt by lia. simpl. f_equal. f_equal. lia.
Qed.
Lemma zlen_map_seqZ {A} (f : Z → A) n : 0 ≤ n → zlen (map f (seqZ 0 n)) = n.
Proof. intros Hn. unfold zlen. rewrite length_map, length_seqZ. lia. Qed.

Lemma out_values c n w out o :
  context_ok c n → zlen w = n + 2 → filled w 0 (n / 2) → 0 ≤ o → o + n / 2 ≤ zlen out →
  wp (mdct_out c w out o) (λ out', out' = splice out o (mdct_values c w)).
Proof.
  intros [Hn [_ Hcase] Htr _ _] Hw Hf Ho Hout.
  assert (Hq : ∃ q, n = 4 * q ∧ n / 2 = 2 * q ∧ Z.shiftr n 1 = 2 * q ∧ Z.shiftr n 2 = q ∧ n / 2 / 2 = q ∧ 1 ≤ q ∧ 4 * q ≤ n + n / 4)
    by (destruct Hcase as [[-> _]|[-> _]]; [exists 64|exists 128]; by vm_compute).
  destruct Hq as (q & Hq0 & Hq2 & Hs1 & Hs2 & Hqq & Hq & Htab). unfold mdct_out. rewrite Hn, Hs1, Hs2. cbv zeta.
  assert (Hlv : zlen (mdct_values c w) = 2 * q) by (unfold mdct_values; rewrite Hn, zlen_map_seqZ by lia; lia).
  apply (wp_for_up (λ i out', zlen out' = zlen out ∧ ∀ j, 0 ≤ j < zlen out → out'.[j] =
    if (o <=? j) && (j <? o + i) || (o + 2 * q - i <=? j) && (j <? o + 2 * q) then mdct_value c w (j - o) else out.[j])); [lia| | |].
  - split; [done|]. intros j Hj. by replace ((o <=? j) && (j <? o + 0) || (o + 2 * q - 0 <=? j) && (j <? o + 2 * q)) with false by lia.
  - intros i out1 Hi [Hlo Hat].
    apply wp_bind; eapply (wp_rd w 0 (n / 2)); [done|lia|lia|]; intros w0 Hw0.
    apply wp_bind; eapply (wp_rd w 0 (n / 2)); [done|lia|lia|]; intros w1 Hw1. destruct Htr as [Hft Hlt].
    apply wp_bind; eapply (wp_rd (trig c) 0 (n + n / 4)); [done|lia|lia|]; intros t0 Ht0.
    apply wp_bind; eapply (wp_rd (trig c) 0 (n + n / 4)); [done|lia|lia|]; intros t1 Ht1.
    apply wp_bind, wp_aset; [lia|]. apply wp_aset; [rewrite zlen_upd; lia|]. split; [by rewrite !zlen_upd|].
    assert (Hlow : mdct_value c w i = (w0 ⊗ t0 ⊕ w1 ⊗ t1) ⊗ scale c).
    { unfold mdct_value. rewrite Hn. cbv zeta. rewrite Hqq. replace (i <? q) with true by lia. by rewrite Hq2, Hw0, Hw1, Ht0, Ht1. }
    assert (Hhigh : mdct_value c w (2 * q - 1 - i) = (w0 ⊗ t1 ⊖ w1 ⊗ t0) ⊗ scale c).
    { unfold mdct_value. rewrite Hn. cbv zeta. rewrite Hqq. replace (2 * q - 1 - i <? q) with false by lia.
      rewrite Hq2. replace (2 * q - 1 - (2 * q - 1 - i)) with i by lia. by rewrite Hw0, Hw1, Ht0, Ht1. }
    intros j Hj. rewrite at_upd by (rewrite ?zlen_upd; lia). destruct (Z.eqb_spec j (o + 2 * q - 1 - i)) as [-> |Hne].
    { replace (_ || _) with true by lia. rewrite <- Hhigh. f_equal. lia. }
    rewrite at_upd by lia. destruct (Z.eqb_spec j (o + i)) as [-> |Hne'].
    { replace (_ || _) with true by lia. rewrite <- Hlow. f_equal. lia. }
    rewrite Hat by done. replace ((o <=? j) && (j <? o + (i + 1)) || (o + 2 * q - (i + 1) <=? j) && (j <? o + 2 * q))
      with ((o <=? j) && (j <? o + i) || (o + 2 * q - i <=? j) && (j <? o + 2 * q)) by lia. done.
  - intros out' [Hlo Hat]. apply array_ext; [rewrite zlen_splice by lia; done|]. intros j Hj. rewrite Hat by lia.
    rewrite at_splice by lia. rewrite Hlv. destruct ((o <=? j) && (j <? o + 2 * q)) eqn:Hin.
    + replace (_ || _) with true by lia. unfold mdct_values. by rewrite at_map_seqZ by (rewrite Hn; lia).
    + by replace ((o <=? j) && (j <? o + q) || (o + 2 * q - q <=? j) && (j <? o + 2 * q)) with false by lia.
Qed.

(** The transform writes the same values whatever was in [out], at [o]. *)
Lemma mdct_total c n w in_ :
  context_ok c n → zlen w = n + 2 → zlen in_ = n → filled in_ 0 n →
  ∃ ys, zlen ys = n / 2 ∧ ∀ out o, 0 ≤ o → o + n / 2 ≤ zlen out → mdct c w out o in_ = Some (splice out o ys).
Proof.
  intros Hc Hw Hli Hin. pose proof (core_filled c n w in_ Hc Hw Hli Hin) as Hwp. apply wp_some in Hwp as (w' & Heq & Hlw & Hf).
  exists (mdct_values c w'). pose proof (co_n _ _ Hc) as Hn. split.
  { unfold mdct_values. rewrite Hn, zlen_map_seqZ; [done|]. destruct (co_log2 _ _ Hc) as [_ [[-> _]|[-> _]]]; by vm_compute. }
  intros out o Ho Hout. unfold mdct. rewrite Heq. cbn [mbind option_bind].
  pose proof (out_values c n w' out o Hc Hlw Hf Ho Hout) as Hv. by apply wp_some in Hv as (out' & -> & ->).
Qed.

(** ** The transform of 512 samples *)

Lemma splice_whole (out ys : list FLOAT) : zlen ys = zlen out → splice out 0 ys = ys.
Proof.
  intros Hl. unfold splice. simpl. rewrite drop_ge, app_nil_r by (unfold zlen in *; lia). done.
Qed.

Lemma mdct_512_values c in_ :
  context_ok c 512 → zlen in_ = 512 → ∃ ys, zlen ys = 256 ∧ ∀ out, zlen out = 256 → mdct_512 c out in_ = Some (ys, in_).
Proof.
  intros Hc Hl. destruct (mdct_total c 512 (fst (mdct_tctx_init 512)) (map Some in_) Hc) as (ys & Hly & Hys).
  - simpl fst. by rewrite zlen_fresh.
  - by rewrite zlen_map.
  - rewrite <- Hl. apply filled_map.
  - exists ys. split; [done|]. intros out Hout. unfold mdct_512. rewrite Hys by (change (512 / 2) with 256; lia).
    cbn [mbind option_bind]. by rewrite splice_whole by (rewrite Hly, Hout; done).
Qed.

(** ** Two transforms of 256 samples *)

Lemma memcpy_cells (xx : cells FLOAT) d l s k :
  0 ≤ d → 0 ≤ s → 0 ≤ k → d + k ≤ zlen xx → s + k ≤ zlen l →
  wp (memcpy xx d (map Some l) s k) (λ xx', grows xx xx' ∧ filled xx' d (d + k)).
Proof.
  intros Hd Hs Hk Hx Hl. rewrite memcpy_in by (rewrite ?zlen_map; lia). apply wp_ret.
  assert (Hsl : zlen (slice (map Some l) s k) = k) by (apply zlen_slice; rewrite ?zlen_map; lia).
  assert (Hat : ∀ i, 0 ≤ i → (splice xx d (slice (map Some l) s k)).[i] = if (d <=? i) && (i <? d + k) then (map Some l).[s + (i - d)] else xx.[i]).
  { intros i Hi. rewrite at_splice by lia. rewrite Hsl. destruct (_ && _) eqn:Hc; [|done]. by rewrite at_slice by lia. }
  assert (Hval : ∀ i, d ≤ i < d + k → ∃ v, (splice xx d (slice (map Some l) s k)).[i] = Some v).
  { intros i Hi. rewrite Hat by lia. replace ((d <=? i) && (i <? d + k)) with true by lia. apply (filled_map l). lia. }
  split; [split|done].
  - apply zlen_splice; lia.
  - intros i Hi Hn. destruct ((d <=? i) && (i <? d + k)) eqn:Hc.
    + destruct (Hval i ltac:(lia)) as [v ->]. done.
    + by rewrite Hat, Hc by lia.
Qed.

Lemma copy_neg_cells (xx : cells FLOAT) d l s :
  0 ≤ d → 0 ≤ s → d + 64 ≤ zlen xx → s + 64 ≤ zlen l → wp (copy_neg xx d l s) (λ xx', grows xx xx' ∧ filled xx' d (d + 64)).
Proof.
  intros Hd Hs Hx Hl. unfold copy_neg.
  apply (wp_for_up (λ i xx', grows xx xx' ∧ filled xx' d (d + i))); [lia|split; [apply grows_refl|intros i Hi; lia]| |done].
  intros i x1 Hi [Hg Hf]. pose proof (proj1 Hg). wp_step. wp_step. apply wp_wr; [lia|].
  assert (Hg2 : grows x1 (upd x1 (i + d) (Some (F_neg l.[i + s])))) by (apply grows_upd; lia).
  split; [by eapply grows_trans|]. apply (filled_join _ _ (d + i)); [by apply (filled_grows x1)|].
  replace (d + i) with (i + d) by lia. replace (d + (i + 1)) with (i + d + 1) by lia. apply filled_one. lia.
Qed.

(** The argument of a short transform: three pieces fill the buffer. *)
Lemma interleave_spec (a : list FLOAT) (out : list FLOAT) :
  256 ≤ zlen a → zlen out = 256 →
  wp (for_up 0 128 (λ i out, x ← aget a i; y ← aget a (128 + i); out ← aset out (2 * i) x; aset out (2 * i + 1) y) out)
    (λ out', zlen out' = 256 ∧ ∀ i, 0 ≤ i < 128 → out'.[2 * i] = a.[i] ∧ out'.[2 * i + 1] = a.[128 + i]).
Proof.
  intros Ha Ho.
  apply (wp_for_up (λ k out', zlen out' = 256 ∧ ∀ i, 0 ≤ i < k → out'.[2 * i] = a.[i] ∧ out'.[2 * i + 1] = a.[128 + i])); [lia|split; [done|lia]| |done].
  intros k o1 Hk [Hlo Hat]. do 4 wp_step. wp_step. wp_step. wp_step. split; [by rewrite !zlen_upd|].
  intros i Hi. destruct (Z.eq_dec i k) as [-> |].
  - split; [rewrite at_upd_ne, at_upd_eq by lia; done|by rewrite at_upd_eq by (rewrite zlen_upd; lia)].
  - rewrite !at_upd_ne by lia. apply Hat. lia.
Qed.

Lemma mdct_256_values c in_ :
  context_ok c 256 → zlen in_ = 512 →
  ∃ ya yb, zlen ya = 128 ∧ zlen yb = 128 ∧ ∀ out, zlen out = 256 →
    ∃ out', mdct_256 c out in_ = Some (out', splice (splice in_ 0 ya) 128 yb) ∧ zlen out' = 256 ∧
      ∀ i, 0 ≤ i < 128 → out'.[2 * i] = ya.[i] ∧ out'.[2 * i + 1] = yb.[i].
Proof.
  intros Hc Hl.
  assert (H1 : wp (xx ← memcpy (fresh 256) 0 (map Some in_) 64 192; copy_neg xx 192 in_ 0) (λ xx, zlen xx = 256 ∧ filled xx 0 256)).
  { assert (Hlf : zlen (@fresh FLOAT 256) = 256) by (by rewrite zlen_fresh).
    apply wp_bind. eapply wp_mono; [apply memcpy_cells; lia|]. intros x1 [Hg1 Hf1]. pose proof (proj1 Hg1).
    eapply wp_mono; [apply copy_neg_cells; lia|]. intros x2 [Hg2 Hf2]. pose proof (proj1 Hg2). split; [lia|].
    apply (filled_join _ _ 192); [by apply (filled_grows x1)|done]. }
  apply wp_some in H1 as (x1 & Hx1 & Hl1 & Hf1).
  destruct (mdct_total c 256 (fst (mdct_tctx_init 256)) x1 Hc) as (ya & Hya & Hma); [simpl fst; by rewrite zlen_fresh|done|done|].
  change (256 / 2) with 128 in *. set (in1 := splice in_ 0 ya).
  assert (Hli1 : zlen in1 = 512) by (unfold in1; rewrite zlen_splice; lia).
  assert (H2 : wp (xx ← copy_neg x1 0 in1 448; xx ← memcpy xx 64 (map Some in1) 256 128; copy_neg xx 192 in1 384)
    (λ xx, zlen xx = 256 ∧ filled xx 0 256)).
  { apply wp_bind. eapply wp_mono; [apply copy_neg_cells; lia|]. intros x2 [Hg2 Hf2]. pose proof (proj1 Hg2).
    apply wp_bind. eapply wp_mono; [apply memcpy_cells; lia|]. intros x3 [Hg3 Hf3]. pose proof (proj1 Hg3).
    eapply wp_mono; [apply copy_neg_cells; lia|]. intros x4 [Hg4 Hf4]. pose proof (proj1 Hg4). split; [lia|].
    apply (filled_grows x1); [lia| |done]. eapply grows_trans; [done|]. by eapply grows_trans. }
  apply wp_some in H2 as (x2 & Hx2 & Hl2 & Hf2).
  destruct (mdct_total c 256 (fst (mdct_tctx_init 256)) x2 Hc) as (yb & Hyb & Hmb); [simpl fst; by rewrite zlen_fresh|done|done|].
  change (256 / 2) with 128 in *. exists ya, yb. split; [done|]. split; [done|]. intros out Hout.
  assert (Hli2 : zlen (splice in1 128 yb) = 512) by (rewrite zlen_splice; lia).
  pose proof (interleave_spec (splice in1 128 yb) out ltac:(lia) Hout) as Hi. apply wp_some in Hi as (out' & Hi & Hlo & Hat).
  exists out'. split; [|split; [done|]].
  - unfold mdct_256. cbv zeta beta iota. destruct (mdct_tctx_init 256) as [buf xx] eqn:Hb.
    assert (buf = fst (mdct_tctx_init 256) ∧ xx = fresh 256) as [-> ->] by (by rewrite Hb; inversion Hb).
    destruct (memcpy (fresh 256) 0 (map Some in_) 64 192) as [y|]; [|done]. cbn [mbind option_bind] in Hx1 |- *. rewrite Hx1.
    cbn [mbind option_bind]. rewrite Hma by lia. cbn [mbind option_bind]. fold in1.
    change (256 + 192) with 448. change (256 + 128) with 384.
    destruct (copy_neg x1 0 in1 448) as [y2|]; [|done]. cbn [mbind option_bind] in Hx2 |- *.
    destruct (memcpy y2 64 (map Some in1) 256 128) as [y3|]; [|done]. cbn [mbind option_bind] in Hx2 |- *. rewrite Hx2.
    cbn [mbind option_bind]. rewrite Hmb by lia. cbn [mbind option_bind]. by rewrite Hi.
  - intros i Hi'. destruct (Hat i Hi') as [-> ->]. split.
    + rewrite at_splice by lia. replace ((128 <=? i) && (i <? 128 + zlen yb)) with false by lia. unfold in1. rewrite at_splice by lia.
      replace ((0 <=? i) && (i <? 0 + zlen ya)) with true by lia. f_equal. lia.
    + rewrite at_splice by lia. replace ((128 <=? 128 + i) && (128 + i <? 128 + zlen yb)) with true by lia. f_equal. lia.
Qed.
End bounds.

(** * The tables *)

(** The reversal of the [b] low bits of [i]. *)
Definition bit_reverse (b i : Z) : Z := foldr (λ j acc, if Z.testbit i (Z.of_nat j) then acc + 2 ^ (b - 1 - Z.of_nat j) else acc) 0 (seq 0 (Z.to_nat b)).

Definition bitrev_entry_ok (b : Z) (m : cells Z) (i : Z) : bool :=
  match m.[2 * i], m.[2 * i + 1] with
  | Some u, Some v => (v =? bit_reverse b i) && (u =? 2 ^ b - 2 - v) && (0 <=? u) && (u <? 2 ^ b - 1) && (0 <=? v) && (v <? 2 ^ b - 1)
  | _, _ => false
  end.
Definition bitrev_ok (n b : Z) : bool :=
  match bitrev_init (fresh (n / 4)) n (b + 1) with
  | Some m => (zlen m =? n / 4) && forallb (bitrev_entry_ok b m) (seqZ 0 (n / 8))
  | None => false
  end.

Lemma bitrev_checked : bitrev_ok 512 8 && bitrev_ok 256 7 = true.
Proof. vm_compute. reflexivity. Qed.

Lemma bitrev_facts n b : n = 512 ∧ b = 8 ∨ n = 256 ∧ b = 7 →
  ∃ m, bitrev_init (fresh (Z.quot n 4)) n (b + 1) = Some m ∧ zlen m = n / 4 ∧
    ∀ i, 0 ≤ i < n / 8 → bitrev_entry_ok b m i = true.
Proof.
  intros Hcase. pose proof bitrev_checked as Hc. apply andb_prop in Hc as [H5 H2].
  assert (Hok : bitrev_ok n b = true ∧ Z.quot n 4 = n / 4) by (destruct Hcase as [[-> ->]|[-> ->]]; (split; [assumption|reflexivity])).
  clear H5 H2 Hcase. destruct Hok as [Hok ->]. unfold bitrev_ok in Hok. destruct (bitrev_init _ n (b + 1)) as [m|]; [|done].
  apply andb_prop in Hok as [Hl Hall]. exists m. split; [done|]. split; [lia|]. intros i Hi.
  rewrite forallb_forall in Hall. apply Hall. apply list_elem_of_In, elem_of_seqZ. lia.
Qed.

Section init.
Context `{FloatFormat} `{LibM}.

(** A write that extends the values. *)
Lemma filled_wr {A} (m : cells A) lo i v : filled m lo i → 0 ≤ lo → lo ≤ i → i < zlen m → filled (upd m i (Some v)) lo (i + 1).
Proof.
  intros Hf Hlo Hi Hl. apply (filled_join _ _ i); [|apply filled_one; lia].
  apply (filled_grows m); [lia|apply grows_upd; lia|done].
Qed.
Lemma filled_wr_other {A} (m : cells A) lo hi i v : filled m lo hi → 0 ≤ lo → 0 ≤ i < zlen m → filled (upd m i (Some v)) lo hi.
Proof. intros Hf Hlo Hi. apply (filled_grows m); [lia|by apply grows_upd|done]. Qed.

Lemma trig_init_filled n k tr :
  n = 8 * k → 0 < k → zlen tr = 10 * k → wp (trig_init tr n) (λ tr', zlen tr' = 10 * k ∧ filled tr' 0 (10 * k)).
Proof.
  intros Hn Hk Hl. unfold trig_init. cbv zeta.
  assert (Hs : Z.shiftr n 1 = 4 * k) by (rewrite Z.shiftr_div_pow2 by lia; rewrite Hn; change (2 ^ 1) with 2; replace (8 * k) with (4 * k * 2) by lia; by apply Z.div_mul).
  assert (Hq4 : Z.quot n 4 = 2 * k) by (rewrite Hn; replace (8 * k) with (2 * k * 4) by lia; by apply Z.quot_mul).
  assert (Hq8 : Z.quot n 8 = k) by (rewrite Hn, Z.mul_comm; by apply Z.quot_mul).
  rewrite Hs, Hq4, Hq8. apply wp_bind.
  apply (wp_for_up (λ i t, zlen t = 10 * k ∧ filled t 0 (i * 2) ∧ filled t (4 * k) (4 * k + i * 2))); [lia|split; [exact Hl|]; split; intros j Hj; lia| |].
  - intros i t Hi (Hlt & Hf1 & Hf2).
    apply wp_bind, wp_wr; [lia|]. apply wp_bind, wp_wr; [rewrite zlen_upd; lia|]. apply wp_bind, wp_wr; [rewrite !zlen_upd; lia|].
    apply wp_wr; [rewrite !zlen_upd; lia|]. split; [by rewrite !zlen_upd|]. split.
    + replace ((i + 1) * 2) with (i * 2 + 1 + 1) by lia. do 2 (apply filled_wr_other; [|lia|rewrite ?zlen_upd; lia]).
      do 2 (apply filled_wr; [|lia|lia|rewrite ?zlen_upd; lia]). done.
    + replace (4 * k + (i + 1) * 2) with (4 * k + i * 2 + 1 + 1) by lia. do 2 (apply filled_wr; [|lia|lia|rewrite ?zlen_upd; lia]).
      do 2 (apply filled_wr_other; [|lia|rewrite ?zlen_upd; lia]). done.
  - intros t (Hlt & Hf1 & Hf2).
    apply (wp_for_up (λ i t, zlen t = 10 * k ∧ filled t 0 (n + i * 2))); [lia| | |].
    + split; [done|]. apply (filled_join _ _ (4 * k)); [eapply filled_sub; [exact Hf1|lia|lia]|eapply filled_sub; [exact Hf2|lia|lia]].
    + intros i t1 Hi (Hlt1 & Hf). apply wp_bind, wp_wr; [lia|]. apply wp_wr; [rewrite zlen_upd; lia|]. split; [by rewrite !zlen_upd|].
      replace (n + (i + 1) * 2) with (n + i * 2 + 1 + 1) by lia. do 2 (apply filled_wr; [|lia|lia|rewrite ?zlen_upd; lia]). done.
    + intros t1 (Hlt1 & Hf). split; [done|]. eapply filled_sub; [exact Hf|lia|lia].
Qed.

Lemma ctx_init_ok n b : n = 512 ∧ b = 8 ∨ n = 256 ∧ b = 7 →
  ∃ c, mdct_ctx_init n = Some c ∧ context_ok c n ∧
    (∀ i, 0 ≤ i < n / 8 → bitrev_entry_ok b (bitrev c) i = true) ∧ scale c = F_div (F_of_Z (-2)) (F_of_Z n).
Proof.
  intros Hcase.
  assert (Hk : ∃ k, n = 8 * k ∧ 0 < k ∧ n + Z.quot n 4 = 10 * k ∧ n / 8 = k ∧ n / 4 = 2 * k ∧ n / 2 = 4 * k ∧ 2 ^ b = n / 2)
    by (destruct Hcase as [[-> ->]|[-> ->]]; [exists 64|exists 32]; by vm_compute).
  assert (Hlog : log2i n = Some (b + 1) ∧ n = 2 ^ (b + 1) ∧ (n = 256 ∧ b + 1 = 8 ∨ n = 512 ∧ b + 1 = 9))
    by (destruct Hcase as [[-> ->]|[-> ->]]; (split; [by vm_compute|]; split; [done|]); lia).
  destruct (bitrev_facts n b Hcase) as (m & Hm & Hlm & Hent).
  clear Hcase. destruct Hk as (k & Hn & Hk0 & Hq & Hd8 & Hd4 & Hd2 & Hb). destruct Hlog as (Hlog & Hpow & Hcase).
  pose proof (trig_init_filled n k (fresh (n + Z.quot n 4)) Hn Hk0 ltac:(rewrite Hq, zlen_fresh; lia)) as Hw.
  apply wp_some in Hw as (t & Ht & Hlt & Hft). eexists. split.
  { unfold mdct_ctx_init. rewrite Hlog. cbn [mbind option_bind]. rewrite Ht. cbn [mbind option_bind]. rewrite Hm. reflexivity. }
  split; [|by split]. split; simpl; try done.
  - split; [eapply filled_sub; [exact Hft|lia|lia]|lia].
  - intros i Hi. rewrite Hd8 in Hent. pose proof (Z.div_mod i 2 ltac:(lia)) as Hdm.
    pose proof (Z.mod_pos_bound i 2 ltac:(lia)) as Hmb. specialize (Hent (i / 2) ltac:(lia)). unfold bitrev_entry_ok in Hent. rewrite Hb in Hent.
    destruct m.[2 * (i / 2)] as [u|] eqn:Hu; [|done]. destruct m.[2 * (i / 2) + 1] as [v|] eqn:Hv; [|done].
    destruct (Z.eq_dec (i mod 2) 0).
    + exists u. replace i with (2 * (i / 2)) at 1 by lia. split; [done|]. lia.
    + exists v. replace i with (2 * (i / 2) + 1) at 1 by lia. split; [done|]. lia.
Qed.
End init.

(** * Properties *)

(** [mdct_ctx_init] succeeds for both transforms.  The index table holds, for
    every eighth of the length, the reversal of the index's bits and its
    complement less one, so that every table index is inside the half buffer;
    all twiddle factors are set, and the scale is the A/52 one, -2 / n. *)
Theorem mdct_ctx_init_tables `{FloatFormat} `{LibM} n b :
  n = 512 ∧ b = 8 ∨ n = 256 ∧ b = 7 →
  ∃ c, mdct_ctx_init n = Some c ∧ mdct_n c = n ∧ log2n c = b + 1 ∧ scale c = F_div (F_of_Z (-2)) (F_of_Z n) ∧
    filled (trig c) 0 (n + n / 4) ∧
    ∀ i, 0 ≤ i < n / 8 → (bitrev c).[2 * i + 1] = Some (bit_reverse b i) ∧
      (bitrev c).[2 * i] = Some (2 ^ b - 2 - bit_reverse b i) ∧ 0 ≤ bit_reverse b i < 2 ^ b - 1.
Proof.
  intros Hcase. destruct (ctx_init_ok n b Hcase) as (c & Hc & [Hn [_ Hlog] [Htr _] _ _] & Hent & Hs).
  exists c. split; [exact Hc|]. split; [exact Hn|]. split; [lia|]. split; [exact Hs|]. split; [exact Htr|].
  intros i Hi. specialize (Hent i Hi). clear - Hent. unfold bitrev_entry_ok in Hent.
  destruct (bitrev c).[2 * i] as [u|]; [|discriminate Hent]. destruct (bitrev c).[2 * i + 1] as [v|]; [|discriminate Hent].
  assert (v = bit_reverse b i) as -> by lia. assert (u = 2 ^ b - 2 - bit_reverse b i) as -> by lia.
  split; [reflexivity|]. split; [reflexivity|]. lia.
Qed.

(** C35: Both transforms are defined for every block of 512 samples, in fresh
    buffers and with any earlier contents of the coefficients: no table or buffer
    is left, nothing is read before it is written, and all 256 coefficients are
    replaced by values that only the samples determine.  The long transform
    keeps the samples; the short one interleaves two transforms of 128
    coefficients, which it leaves in the first half of the samples. *)
Theorem mdct_total_both `{FloatFormat} `{LibM} (samples : list FLOAT) :
  zlen samples = 512 →
  ∃ c512 c256, mdct_init = Some (c512, c256) ∧
    (∃ ys, zlen ys = 256 ∧ ∀ out, zlen out = 256 → mdct_512 c512 out samples = Some (ys, samples)) ∧
    (∃ ya yb, zlen ya = 128 ∧ zlen yb = 128 ∧ ∀ out, zlen out = 256 →
       ∃ out', mdct_256 c256 out samples = Some (out', splice (splice samples 0 ya) 128 yb) ∧ zlen out' = 256 ∧
         ∀ i, 0 ≤ i < 128 → out'.[2 * i] = ya.[i] ∧ out'.[2 * i + 1] = yb.[i]).
Proof.
  intros Hl. destruct (ctx_init_ok 512 8 (or_introl (conj eq_refl eq_refl))) as (c5 & Hc5 & Hok5 & _).
  destruct (ctx_init_ok 256 7 (or_intror (conj eq_refl eq_refl))) as (c2 & Hc2 & Hok2 & _).
  exists c5, c2. split; [unfold mdct_init; rewrite Hc5; cbn [mbind option_bind]; rewrite Hc2; reflexivity|].
  split; [exact (mdct_512_values c5 samples Hok5 Hl)|exact (mdct_256_values c2 samples Hok2 Hl)].
Qed.

Definition block_rows : list (list Z) := replicate 6 (replicate 6 0).

(** [alloc_block_buffers] gives every block and channel 512 samples and 256
    coefficients of the one allocation: the regions lie inside it, one after the
    other, and no two overlap. *)
Theorem block_buffers_disjoint :
  ∃ inp coef, alloc_block_buffers block_rows block_rows = Some (inp, coef) ∧
    (∀ i j, 0 ≤ i < 6 → 0 ≤ j < 6 →
       0 ≤ inp.[i].[j] ∧ coef.[i].[j] = inp.[i].[j] + 512 ∧ coef.[i].[j] + 256 ≤ 6 * 6 * (256 + 512)) ∧
    (∀ i j i' j', 0 ≤ i < 6 → 0 ≤ j < 6 → 0 ≤ i' < 6 → 0 ≤ j' < 6 → (i, j) ≠ (i', j') →
       coef.[i].[j] + 256 ≤ inp.[i'].[j'] ∨ coef.[i'].[j'] + 256 ≤ inp.[i].[j]).
Proof.
  set (inp := map (λ i, map (λ j, 768 * (6 * i + j)) (seqZ 0 6)) (seqZ 0 6)).
  set (coef := map (λ i, map (λ j, 768 * (6 * i + j) + 512) (seqZ 0 6)) (seqZ 0 6)).
  exists inp, coef. split; [vm_compute; reflexivity|].
  assert (Hat : ∀ i j, 0 ≤ i < 6 → 0 ≤ j < 6 → inp.[i].[j] = 768 * (6 * i + j) ∧ coef.[i].[j] = 768 * (6 * i + j) + 512).
  { intros i j Hi Hj. assert (Hi' : i = 0 ∨ i = 1 ∨ i = 2 ∨ i = 3 ∨ i = 4 ∨ i = 5) by lia.
    assert (Hj' : j = 0 ∨ j = 1 ∨ j = 2 ∨ j = 3 ∨ j = 4 ∨ j = 5) by lia.
    destruct Hi' as [-> |[-> |[-> |[-> |[-> | ->]]]]], Hj' as [-> |[-> |[-> |[-> |[-> | ->]]]]]; by vm_compute. }
  split; [intros i j Hi Hj; destruct (Hat i j Hi Hj) as [-> ->]; lia|].
  intros i j i' j' Hi Hj Hi' Hj' Hne. destruct (Hat i j Hi Hj) as [-> ->], (Hat i' j' Hi' Hj') as [-> ->].
  assert (6 * i + j ≠ 6 * i' + j') by (intros Heq; apply Hne; f_equal; lia). lia.
Qed.

(** ** The kernels of the encoder *)

(** The C functions behind the function pointers. *)
Definition c_kernels `{FloatFormat} (window : list FLOAT) (c512 c256 : MDCTContext) : Kernels := {|
  k_apply_window := apply_a52_window window; k_mdct_256 := mdct_256 c256; k_mdct_512 := mdct_512 c512 |}.

Lemma c_kernels_ok `{FloatFormat} window c512 c256 :
  zlen window = 512 → context_ok c512 512 → context_ok c256 256 → KernelsOk (H := c_kernels window c512 c256).
Proof.
  intros Hw H5 H2. split; simpl.
  - intros xs Hxs. pose proof (apply_window_spec window xs ltac:(lia) ltac:(lia)) as Hwp.
    apply wp_some in Hwp as (ys & Hys & Hl & _). exists ys. split; [done|lia].
  - intros out xs Ho Hxs. destruct (mdct_256_values c256 xs H2 Hxs) as (ya & yb & Ha & Hb & Hv).
    destruct (Hv out Ho) as (o' & Heq & Hlo & _). exists o', (splice (splice xs 0 ya) 128 yb). split; [done|]. split; [done|].
    assert (Hl1 : zlen (splice xs 0 ya) = 512) by (rewrite zlen_splice; lia). rewrite zlen_splice; lia.
  - intros out xs Ho Hxs. destruct (mdct_512_values c512 xs H5 Hxs) as (ys & Hl & Hv). exists ys, xs. split; [by apply Hv|done].
Qed.

(** * Witnesses *)

Definition still : LibM := {|
  AFT_SIN := λ x, x; AFT_COS := λ x, x; AFT_TAN := λ x, x; AFT_LOG10 := λ x, x; AFT_EXP := λ x, x |}.

Lemma mdct_ctx_init_tables_witness :
  ∃ c, mdct_ctx_init (H := single_format) (H0 := still) 512 = Some c ∧ mdct_n c = 512 ∧ log2n c = 9 ∧
    (bitrev c).[2 * 1 + 1] = Some 128 ∧ (bitrev c).[2 * 1] = Some 126.
Proof.
  destruct (mdct_ctx_init_tables (H := single_format) (H0 := still) 512 8 ltac:(left; split; reflexivity))
    as (c & Hc & Hn & Hl & _ & _ & Hb).
  exists c. split; [exact Hc|]. split; [exact Hn|]. split; [exact Hl|].
  destruct (Hb 1 ltac:(split; reflexivity || discriminate)) as (Hv & Hu & _). split; [exact Hv|exact Hu].
Defined.

Lemma mdct_total_both_witness :
  ∃ c512 c256, mdct_init (H := single_format) (H0 := still) = Some (c512, c256) ∧
    ∃ ys, zlen ys = 256 ∧ ∀ out, zlen out = 256 →
      mdct_512 (H := single_format) c512 out (replicate 512 zero_float) = Some (ys, replicate 512 zero_float).
Proof.
  destruct (mdct_total_both (H := single_format) (H0 := still) (replicate 512 zero_float) eq_refl) as (c5 & c2 & Hi & Hlong & _).
  exists c5, c2. split; [exact Hi|exact Hlong].
Defined.
