(* ===== verification/Rate.v ===== *)
(** The constant bit rate at sample rates that are not a multiple of the frame
    rate, [adjust_frame_size] of [libaften/a52enc.c]: counters of the bits and the
    samples so far decide whether a frame gets one word more.  The products
    that are compared are 32 bits wide and wrap around.  The theorems show that
    the loop ends and keeps the drift between the counters and that the
    products do not always wrap around together; [Process] adds the counting of
    the frame and bounds the drift. *)
From Stdlib Require Import ZArith Lia ZifyBool Bool.
From stdpp Require Import base option list numbers.
From coqutil Require Import Datatypes.RecordSettersUsingExistingGetters.
From S2P Require Import Prelude CMachine Float BitIO Tables Types.
Local Open Scope Z_scope.
Local Open Scope carray_scope.

(** The loop on [tctx->bit_cnt] and [tctx->sample_cnt]. *)
Definition reduce_counters (kbps srate : Z) (cnt : Z * Z) : option (Z * Z) :=
  while_loop (Z.to_nat (fst cnt / kbps)) (λ '(b, s), (kbps <=? b) && (srate <=? s))
    (λ '(b, s), Some (u32 (b - kbps), u32 (s - srate))) cnt.

Definition behind (kbps srate : Z) '((b, s) : Z * Z) : bool := u32 (b * srate) <? u32 (s * kbps).

Definition adjust_frame_size (ctx : Ctx.t) (tctx : TCtx.t) : option TCtx.t :=
  let f := TCtx.frame tctx in
  let kbps := u32 (Frame.bit_rate f * 1000) in
  let srate := u32 (Ctx.sample_rate ctx) in
  '(b, s) ← reduce_counters kbps srate (TCtx.bit_cnt tctx, TCtx.sample_cnt tctx);
  let add := Z.b2z (behind kbps srate (b, s)) in
  Some (tctx <| TCtx.bit_cnt := b |> <| TCtx.sample_cnt := s |>
             <| TCtx.frame := f <| Frame.frame_size := u32 (Frame.frame_size_min f + add) |> |>).

(** * The loop *)

Section rate.
Variables (kbps srate : Z).
Hypothesis Hk : 0 < kbps < 2 ^ 32.
Hypothesis Hs : 0 < srate < 2 ^ 32.

(** How far the bits are ahead of the samples, times both rates. *)
Definition drift '((b, s) : Z * Z) : Z := b * srate - s * kbps.

Definition is_counter (x : Z) : Prop := 0 ≤ x < 2 ^ 32.

Lemma reduce_counters_spec b s :
  is_counter b → is_counter s →
  wp (reduce_counters kbps srate (b, s)) (λ '(b', s'), ∃ q, 0 ≤ q ∧ b' = b - q * kbps ∧ s' = s - q * srate ∧
    is_counter b' ∧ is_counter s' ∧ (b' < kbps ∨ s' < srate) ∧ drift (b', s') = drift (b, s)).
Proof.
  unfold is_counter. intros Hb Hsm. unfold reduce_counters. simpl fst.
  apply (wp_while (λ '(b', s'), 0 ≤ b' < 2 ^ 32 ∧ 0 ≤ s' < 2 ^ 32 ∧ ∃ q, 0 ≤ q ∧ b' = b - q * kbps ∧ s' = s - q * srate)
    (λ '(b', _), Z.to_nat (b' / kbps))).
  - split; [done|]. split; [done|]. exists 0. lia.
  - lia.
  - intros [b' s'] (Hb' & Hs' & q & Hq & Heb & Hes) Hc. apply wp_ret. unfold u32. rewrite !Z.mod_small by lia.
    split; [split; [lia|]; split; [lia|]; exists (q + 1); nia|].
    assert (Hd : (b' - kbps) / kbps = b' / kbps - 1).
    { replace (b' - kbps) with (b' + (-1) * kbps) by lia. rewrite Z.div_add by lia. lia. }
    rewrite Hd. assert (1 ≤ b' / kbps) by (apply Z.div_le_lower_bound; lia). lia.
  - intros [b' s'] (Hb' & Hs' & q & Hq & Heb & Hes) Hc. exists q. split_and!; try done; try lia. unfold drift. nia.
Qed.

(** The comparison is the true one when both products have wrapped around
    equally often. *)
Lemma behind_true b s :
  (b * srate) / 2 ^ 32 = (s * kbps) / 2 ^ 32 → behind kbps srate (b, s) = (drift (b, s) <? 0).
Proof.
  intros He. unfold behind, drift, u32. pose proof (Z.div_mod (b * srate) (2 ^ 32) ltac:(lia)).
  pose proof (Z.div_mod (s * kbps) (2 ^ 32) ltac:(lia)). lia.
Qed.
(** Without drift nothing is added, however often they have. *)
Lemma behind_exact b s : drift (b, s) = 0 → behind kbps srate (b, s) = false.
Proof. unfold drift, behind. intros Hd. replace (b * srate) with (s * kbps) by lia. apply Z.ltb_irrefl. Qed.
End rate.

(** The function, given the rates in their types. *)
Lemma adjust_frame_size_spec ctx tctx :
  let f := TCtx.frame tctx in
  let kbps := Frame.bit_rate f * 1000 in let srate := Ctx.sample_rate ctx in
  0 < kbps < 2 ^ 32 → 0 < srate < 2 ^ 32 → is_counter (TCtx.bit_cnt tctx) → is_counter (TCtx.sample_cnt tctx) →
  0 ≤ Frame.frame_size_min f < 2 ^ 31 →
  wp (adjust_frame_size ctx tctx) (λ tctx', ∃ q b s, 0 ≤ q ∧ b = TCtx.bit_cnt tctx - q * kbps ∧ s = TCtx.sample_cnt tctx - q * srate ∧
    is_counter b ∧ is_counter s ∧ (b < kbps ∨ s < srate) ∧
    drift kbps srate (b, s) = drift kbps srate (TCtx.bit_cnt tctx, TCtx.sample_cnt tctx) ∧
    let add := Z.b2z (behind kbps srate (b, s)) in
    tctx' = tctx <| TCtx.bit_cnt := b |> <| TCtx.sample_cnt := s |>
      <| TCtx.frame := f <| Frame.frame_size := Frame.frame_size_min f + add |> |>).
Proof.
  intros f kbps srate Hk Hs Hb Hsc Hm. unfold adjust_frame_size. cbv zeta. fold f.
  assert (Hk32 : u32 (Frame.bit_rate f * 1000) = kbps) by (apply Z.mod_small; unfold kbps in *; lia).
  assert (Hs32 : u32 (Ctx.sample_rate ctx) = srate) by (apply Z.mod_small; unfold srate in *; lia).
  rewrite Hk32, Hs32. apply wp_bind. eapply wp_mono; [by apply reduce_counters_spec|].
  intros [b s] (q & Hq & Heb & Hes & Hb' & Hs' & Hlt & Hd). cbv beta iota zeta. apply wp_ret.
  exists q, b, s. split_and!; try done.
  assert (Ha : u32 (Frame.frame_size_min f + Z.b2z (behind kbps srate (b, s))) = Frame.frame_size_min f + Z.b2z (behind kbps srate (b, s))).
  { apply Z.mod_small. destruct (behind kbps srate (b, s)); simpl; lia. }
  by rewrite Ha.
Qed.

(** The counters after a frame of [size] words. *)
Definition count_frame (size : Z) '((b, s) : Z * Z) : Z * Z := (b + 16 * size, s + A52_SAMPLES_PER_FRAME).

(** A frame of the minimal size lets the bits fall behind by a part of a word,
    a word more puts them ahead. *)
Lemma drift_count_frame bit_rate srate add b s :
  0 < bit_rate → 0 < srate →
  drift (bit_rate * 1000) srate (count_frame (Z.quot (bit_rate * 96000) srate + add) (b, s)) =
    drift (bit_rate * 1000) srate (b, s) - 16 * ((bit_rate * 96000) mod srate) + 16 * srate * add.
Proof.
  intros Hb Hs. rewrite Z.quot_div_nonneg by lia. unfold count_frame, drift, A52_SAMPLES_PER_FRAME.
  pose proof (Z.div_mod (bit_rate * 96000) srate ltac:(lia)) as Hdm.
  set (m := (bit_rate * 96000) / srate) in *. set (r := (bit_rate * 96000) mod srate) in *. clearbody m r.
  assert (Hm : (b + 16 * (m + add)) * srate = b * srate + 16 * (srate * m) + 16 * srate * add) by ring.
  rewrite Hm. replace (srate * m) with (bit_rate * 96000 - r) by lia. ring.
Qed.

(** Reduced counters that are close to each other are small. *)
Lemma reduced_small kbps srate word b s :
  1000 ≤ kbps ≤ 640000 → 0 < srate ≤ 48000 → word ≤ 16 * srate → 0 ≤ b → 0 ≤ s → b < kbps ∨ s < srate →
  - word ≤ drift kbps srate (b, s) ≤ word → b < kbps + 16 ∧ s < srate + 16 * srate.
Proof.
  unfold drift. intros Hk Hs Hw Hb Hsm [Hlt|Hlt] Hd; split; nia.
Qed.

(** * Properties *)

(** [adjust_frame_size] always ends; it takes the same number of seconds off
    both counters, so that one of them is below its second and the drift is
    kept, and the frame gets its minimal size or one word more, as the wrapped
    comparison of the reduced counters says. *)
Theorem adjust_frame_size_correct ctx tctx :
  let kbps := Frame.bit_rate (TCtx.frame tctx) * 1000 in let srate := Ctx.sample_rate ctx in
  0 < kbps < 2 ^ 32 → 0 < srate < 2 ^ 32 → is_counter (TCtx.bit_cnt tctx) → is_counter (TCtx.sample_cnt tctx) →
  0 ≤ Frame.frame_size_min (TCtx.frame tctx) < 2 ^ 31 →
  ∃ q b s, 0 ≤ q ∧ b = TCtx.bit_cnt tctx - q * kbps ∧ s = TCtx.sample_cnt tctx - q * srate ∧
    is_counter b ∧ is_counter s ∧ (b < kbps ∨ s < srate) ∧
    drift kbps srate (b, s) = drift kbps srate (TCtx.bit_cnt tctx, TCtx.sample_cnt tctx) ∧
    let add := Z.b2z (behind kbps srate (b, s)) in
    adjust_frame_size ctx tctx = Some (tctx <| TCtx.bit_cnt := b |> <| TCtx.sample_cnt := s |>
      <| TCtx.frame := (TCtx.frame tctx) <| Frame.frame_size := Frame.frame_size_min (TCtx.frame tctx) + add |> |>).
Proof.
  intros kbps srate Hk Hs Hb Hsc Hm. pose proof (adjust_frame_size_spec ctx tctx Hk Hs Hb Hsc Hm) as Hw.
  apply wp_some in Hw as (t & Heq & q & b & s & ? & ? & ? & ? & ? & ? & ? & ->). exists q, b, s. by split_and!.
Qed.

(** The counters before the comparison of frame [n], from the start. *)
Fixpoint rate_run (bit_rate srate : Z) (n : nat) (cnt : Z * Z) : option (Z * Z) :=
  let kbps := bit_rate * 1000 in
  cnt ← reduce_counters kbps srate cnt;
  match n with
  | O => Some cnt
  | S n => rate_run bit_rate srate n
             (count_frame (Z.quot (bit_rate * 96000) srate + Z.b2z (behind kbps srate cnt)) cnt)
  end.

(** The comparison does go wrong: at 256 kbit/s and 44100 Hz, frame 1791
    (counted from 0; about a minute into the stream) finds the bits ahead of the
    samples, but the product of the bits has wrapped around twice and the other
    only once, and the frame gets a word that it should not have. *)
Theorem rate_comparison_wraps :
  rate_run 256 44100 1791 (0, 0) = Some (97392, 16776) ∧
  0 < drift 256000 44100 (97392, 16776) ∧ behind 256000 44100 (97392, 16776) = true ∧
  16 * 44100 < drift 256000 44100 (count_frame (Z.quot (256 * 96000) 44100 + 1) (97392, 16776)).
Proof. split; [vm_compute; reflexivity|]. split_and!; by vm_compute. Qed.

(** * Witnesses *)

Definition rate_ctx : Ctx.t := {|
  Ctx.params := EncParams.mk AFTEN_ENC_MODE_CBR 0 0 0 0 0 256 240 (-1) 0 1 DYNRNG_PROFILE_NONE 0 60;
  Ctx.meta := Metadata.mk 0 0 0 31 0 0 0 0 0 0 0 0 0 0;
  Ctx.n_threads := 1; Ctx.last_samples_count := -1; Ctx.n_channels := 2; Ctx.n_all_channels := 2;
  Ctx.acmod := A52_ACMOD_STEREO; Ctx.lfe := 0; Ctx.lfe_channel := -1; Ctx.sample_rate := 44100;
  Ctx.halfratecod := 0; Ctx.bsid := 8; Ctx.fscod := 1; Ctx.bsmod := 0; Ctx.target_bitrate := 256;
  Ctx.frmsizecod := 26; Ctx.fixed_bwcode := 60 |}.
Definition rate_tctx : TCtx.t := {|
  TCtx.thread_num := 0; TCtx.framesize := 1114; TCtx.status := Status.mk 0 0 0;
  TCtx.frame := zero_frame <| Frame.bit_rate := 256 |> <| Frame.frame_size_min := 557 |> <| Frame.frame_size := 557 |>;
  TCtx.bw := bitwriter_init None 0; TCtx.bit_cnt := 1024880; TCtx.sample_cnt := 176640; TCtx.last_quality := 240 |}.

Lemma adjust_frame_size_correct_witness :
  ∃ q b s, 0 ≤ q ∧ b = 1024880 - q * 256000 ∧ s = 176640 - q * 44100 ∧
    is_counter b ∧ is_counter s ∧ (b < 256000 ∨ s < 44100) ∧
    drift 256000 44100 (b, s) = drift 256000 44100 (1024880, 176640) ∧
    let add := Z.b2z (behind 256000 44100 (b, s)) in
    adjust_frame_size rate_ctx rate_tctx = Some (rate_tctx <| TCtx.bit_cnt := b |> <| TCtx.sample_cnt := s |>
      <| TCtx.frame := (TCtx.frame rate_tctx) <| Frame.frame_size := 557 + add |> |>).
Proof.
  refine (adjust_frame_size_correct rate_ctx rate_tctx _ _ _ _ _); unfold is_counter; simpl; lia.
Defined.
