(* ===== verification/Process.v ===== *)
(** One frame, [process_frame] of [libaften/a52enc.c]: [frame_init], the stages
    in the order of the C code, and the counters and the status afterwards.  The
    theorems show that from any state the encoder can be in a frame is either
    refused by bit allocation or written completely into the output buffer, and
    that the state is again one the encoder can be in. *)
From Stdlib Require Import ZArith Lia ZifyBool Bool.
From stdpp Require Import base option list numbers.
From coqutil Require Import Datatypes.RecordSettersUsingExistingGetters.
From S2P Require Import Prelude CMachine Float FloatExact BitIO Crc Tables Types A52 Exponent BitAlloc Quant FrameOut.
From S2P Require Import Filter Convert Dynrng Window Samples Coefs Rate.
Local Open Scope Z_scope.
Local Open Scope carray_scope.

(** * The frame's parameters *)

(** One channel of the first loop of [frame_init]; an empty row stands for the
    NULL pointer of a context without buffers. *)
Definition frame_init_ch (ch : Z) (block : Block.t) : option (Block.t * bool) :=
  blksw ← aset (Block.blksw block) ch 0;
  dithflag ← aset (Block.dithflag block) ch 1;
  input ← aget (Block.input_samples block) ch;
  Some (block <| Block.blksw := blksw |> <| Block.dithflag := dithflag |>, match input with [] => false | _ => true end).

(** The first loop; [false] is the early [return -1]. *)
Definition frame_init_blocks (ctx : Ctx.t) (frame : Frame.t) : option (Frame.t * bool) :=
  for_break 0 A52_NUM_BLOCKS (λ blk '(frame, _),
    '(frame, ok) ← with_block frame blk (λ b _,
      for_break 0 (Ctx.n_channels ctx) (λ ch '(b, _),
        '(b, ok) ← frame_init_ch ch b;
        Some (if ok : bool then inr (b, true) else inl (b, false))) (b <| Block.block_num := blk |>, true)) true;
    Some (if ok : bool then inr (frame, true) else inl (frame, false))) (frame, true).

Definition frame_init_rate (ctx : Ctx.t) (frame : Frame.t) : option Frame.t :=
  if EncParams.encoding_mode (Ctx.params ctx) =? AFTEN_ENC_MODE_CBR then
    if Ctx.sample_rate ctx =? 0 then None else
    let size := Z.quot (Ctx.target_bitrate ctx * 96000) (Ctx.sample_rate ctx) in
    Some (frame <| Frame.bit_rate := Ctx.target_bitrate ctx |> <| Frame.frmsizecod := Ctx.frmsizecod ctx |>
                <| Frame.frame_size_min := size |> <| Frame.frame_size := size |>)
  else Some frame.

Definition frame_init_bandwidth (ctx : Ctx.t) (frame : Frame.t) : option Frame.t :=
  let bwcode := if EncParams.bwcode (Ctx.params ctx) =? -2 then 60 else Ctx.fixed_bwcode ctx in
  ncoefs ← for_up 0 (Ctx.n_channels ctx) (λ ch ncoefs, aset ncoefs ch (bwcode * 3 + 73)) (Frame.ncoefs frame);
  ncoefs ← (if negb (Ctx.lfe ctx =? 0) then aset ncoefs (Ctx.lfe_channel ctx) 7 else Some ncoefs);
  Some (frame <| Frame.bwcode := bwcode |> <| Frame.ncoefs := ncoefs |>).

Definition frame_init (ctx : Ctx.t) (frame : Frame.t) : option (Frame.t * Z) :=
  '(frame, ok) ← frame_init_blocks ctx frame;
  if negb ok then Some (frame, -1) else
  frame ← frame_init_rate ctx frame;
  frame ← frame_init_bandwidth ctx frame;
  Some (frame <| Frame.frame_bits := 0 |> <| Frame.exp_bits := 0 |> <| Frame.mant_bits := 0 |>
              <| Frame.sdecaycod := 2 |> <| Frame.fdecaycod := 1 |> <| Frame.sgaincod := 1 |>
              <| Frame.dbkneecod := 2 |> <| Frame.floorcod := 7 |>, 0).

(** * The frame *)

(** Updates of the thread context. *)
Definition put_frame (f : Frame.t) (tctx : TCtx.t) : TCtx.t := tctx <| TCtx.frame := f |>.
Definition on_frame (g : Frame.t → option Frame.t) (tctx : TCtx.t) : option TCtx.t :=
  f ← g (TCtx.frame tctx); Some (put_frame f tctx).

(** The counters and the status after quantisation. *)
Definition count_and_report (tctx : TCtx.t) : TCtx.t :=
  let frame := TCtx.frame tctx in
  tctx <| TCtx.bit_cnt := u32 (TCtx.bit_cnt tctx + Frame.frame_size frame * 16) |>
       <| TCtx.sample_cnt := u32 (TCtx.sample_cnt tctx + A52_SAMPLES_PER_FRAME) |>
       <| TCtx.status := Status.mk (Frame.quality frame) (Frame.bit_rate frame) (Frame.bwcode frame) |>.

Section process.
Context `{T : Target} `{FF : FloatFormat} `{K : Kernels} `{LM : LibM} `{R : Residue}.

(** [begin_encode_frame]; [buffer] is the uninitialised local array of
    [copy_samples]. *)
Definition begin_encode_frame (ctx : Ctx.t) (buffer : list FLOAT) (au : Audio.t) (tctx : TCtx.t)
    : option (Audio.t * TCtx.t * Z) :=
  '(au, frame) ← copy_samples ctx au (TCtx.frame tctx) buffer;
  frame ← calculate_dynrng ctx frame;
  frame ← generate_coefs ctx frame;
  Some (au, put_frame frame tctx, 0).

(** From the coefficients to the bit allocation. *)
Definition code_frame (ctx : Ctx.t) (tctx : TCtx.t) : option (TCtx.t * Z) :=
  tctx ← on_frame (compute_dither_strategy ctx) tctx;
  tctx ← (if Ctx.acmod ctx =? A52_ACMOD_STEREO then on_frame (calc_rematrixing ctx) tctx else Some tctx);
  tctx ← (if EncParams.bwcode (Ctx.params ctx) =? -2 then
            tctx ← on_frame (a52_process_exponents ctx) tctx;
            vbw_bit_allocation ctx tctx
          else Some tctx);
  tctx ← on_frame (a52_process_exponents ctx) tctx;
  tctx ← (if EncParams.encoding_mode (Ctx.params ctx) =? AFTEN_ENC_MODE_CBR then adjust_frame_size ctx tctx else Some tctx);
  compute_bit_allocation ctx tctx.

(** From the bit allocation to the packed frame. *)
Definition pack_frame (crc16tab : list Z) (ctx : Ctx.t) (tctx : TCtx.t) (output_frame_buffer : list Z)
    : option (TCtx.t * list Z) :=
  tctx ← on_frame (quantize_mantissas ctx) tctx;
  '(tctx, framesize, _) ← output_frame crc16tab ctx (count_and_report tctx) output_frame_buffer;
  m ← buffer (TCtx.bw tctx);
  Some (tctx <| TCtx.framesize := framesize |>, m).

(** The result is the return value, with the contexts and the output buffer;
    [begin_process_frame] is the function pointer of the context. *)
Definition process_frame (crc16tab : list Z) (begin_process_frame : Audio.t → TCtx.t → option (Audio.t * TCtx.t * Z))
    (ctx : Ctx.t) (au : Audio.t) (tctx : TCtx.t) (output_frame_buffer : list Z)
    : option (Audio.t * TCtx.t * list Z * Z) :=
  '(frame, r) ← frame_init ctx (TCtx.frame tctx);
  let tctx := put_frame frame tctx in
  if negb (r =? 0) then Some (au, tctx, output_frame_buffer, -1) else
  '(au, tctx, r) ← begin_process_frame au tctx;
  if negb (r =? 0) then Some (au, tctx, output_frame_buffer, -1) else
  '(tctx, r) ← code_frame ctx tctx;
  if negb (r =? 0) then Some (au, tctx <| TCtx.framesize := 0 |>, output_frame_buffer, -1) else
  '(tctx, m) ← pack_frame crc16tab ctx tctx output_frame_buffer;
  Some (au, tctx, m, 0).
End process.

#[global] Instance TCtx_inhabited : Inhabited TCtx.t :=
  populate (TCtx.mk 0 0 (Status.mk 0 0 0) zero_frame (bitwriter_init None 0) 0 0 0).

(** [convert_samples_from_src]: the samples of the call, and silence to the end
    of the frame. *)
Definition convert_samples_from_src (conv : option converter) (ctx : Ctx.t) (vsrc : list Z) (count : Z) (input_audio : list (list FLOAT))
    : option (list (list FLOAT)) :=
  f ← conv;
  dest ← f input_audio vsrc (Ctx.n_all_channels ctx) count;
  if count <? A52_SAMPLES_PER_FRAME then
    for_up 0 (Ctx.n_all_channels ctx) (λ ch dest,
      row ← aget dest ch; row ← memset row count zero_float (A52_SAMPLES_PER_FRAME - count); aset dest ch row) dest
  else Some dest.

(** * The state the encoder can be in *)

Record block_ok (b : Block.t) : Prop := {
  bo_wf : block_wf b;
  bo_input : dim2 6 512 (Block.input_samples b);
  bo_transient : dim2 6 512 (Block.transient_samples b)
}.
Definition blocks_ok (bs : list Block.t) : Prop := zlen bs = 6 ∧ ∀ k, 0 ≤ k < 6 → block_ok bs.[k].

(** The arrays of a frame have the dimensions of their declarations. *)
Record frame_ok (f : Frame.t) : Prop := {
  fo_blocks : blocks_ok (Frame.blocks f);
  fo_audio : dim2 6 1536 (Frame.input_audio f);
  fo_remat : zlen (Frame.rematflg f) = 4;
  fo_nlen : zlen (Frame.ncoefs f) = 6;
  fo_setlen : zlen (Frame.expstr_set f) = 6;
  fo_fgain : dim2 6 6 (BitAllocParams.fgain (Frame.bit_alloc f))
}.

Lemma blocks_ok_wf bs : blocks_ok bs → blocks_wf bs.
Proof. intros [Hl Hb]. split; [done|]. intros k Hk. by destruct (Hb k Hk). Qed.

Lemma blocks_ok_upd bs k b : blocks_ok bs → 0 ≤ k < 6 → block_ok b → blocks_ok (upd bs k b).
Proof.
  intros [Hl Hb] Hk Ho. split; [by rewrite zlen_upd|]. intros j Hj. rewrite at_upd by lia.
  destruct (Z.eqb_spec j k); [done|by apply Hb].
Qed.

(** Blocks whose samples did not change. *)
Lemma blocks_ok_kept bs0 bs :
  blocks_ok bs0 → blocks_wf bs →
  (∀ k, 0 ≤ k < 6 → Block.input_samples bs.[k] = Block.input_samples bs0.[k] ∧
     Block.transient_samples bs.[k] = Block.transient_samples bs0.[k]) → blocks_ok bs.
Proof.
  intros [_ H0] [Hl Hw] Hs. split; [done|]. intros k Hk. destruct (Hs k Hk) as [Hi Ht], (H0 k Hk) as [_ H1 H2].
  split; [by apply Hw|by rewrite Hi|by rewrite Ht].
Qed.

Lemma frame_ok_samples f : frame_ok f → samples_wf f.
Proof. intros [[Hl Hb] Ha _ _ _ _]. split; try done; intros k Hk; by destruct (Hb k Hk). Qed.

(** What [encode_init] makes sure of in the encoder's context. *)
Record ctx_ok (ctx : Ctx.t) : Prop := {
  cx_channels : channels_ok ctx;
  cx_acmod : 0 ≤ Ctx.acmod ctx ≤ 7;
  cx_stereo : Ctx.acmod ctx = A52_ACMOD_STEREO → 2 ≤ Ctx.n_channels ctx;
  cx_fscod : 0 ≤ Ctx.fscod ctx ≤ 2;
  cx_halfrate : 0 ≤ Ctx.halfratecod ctx ≤ 2;
  cx_mode : EncParams.encoding_mode (Ctx.params ctx) = AFTEN_ENC_MODE_CBR ∨
            EncParams.encoding_mode (Ctx.params ctx) = AFTEN_ENC_MODE_VBR;
  cx_quality : EncParams.encoding_mode (Ctx.params ctx) = AFTEN_ENC_MODE_VBR → 0 ≤ EncParams.quality (Ctx.params ctx) ≤ 1023;
  cx_search : EncParams.expstr_search (Ctx.params ctx) ≤ 32;
  cx_frmsizecod : 0 ≤ Ctx.frmsizecod ctx ≤ 37;
  cx_bwcode : 0 ≤ Ctx.fixed_bwcode ctx ≤ 60;
  cx_rate : EncParams.encoding_mode (Ctx.params ctx) = AFTEN_ENC_MODE_CBR →
    0 < Ctx.target_bitrate ctx ≤ 640 ∧ 0 < Ctx.sample_rate ctx ≤ 48000 ∧
    8 ≤ Ctx.target_bitrate ctx * 96000 / Ctx.sample_rate ctx ≤ 1920 ∧
    (Ctx.target_bitrate ctx * 96000 / Ctx.sample_rate ctx = 1920 → (Ctx.target_bitrate ctx * 96000) mod Ctx.sample_rate ctx = 0)
}.

(** * [frame_init] *)

Lemma frame_init_block_spec ctx b blk :
  1 ≤ Ctx.n_channels ctx ≤ 5 → block_ok b →
  wp (for_break 0 (Ctx.n_channels ctx) (λ ch '(b, _),
        '(b, ok) ← frame_init_ch ch b;
        Some (if ok : bool then inr (b, true) else inl (b, false))) (b <| Block.block_num := blk |>, true))
    (λ '(b', ok), ok = true ∧ block_ok b' ∧ Block.block_num b' = blk).
Proof.
  intros Hn Hb. apply (wp_for_break (λ _ '(b', ok), ok = true ∧ block_ok b' ∧ Block.block_num b' = blk)); [lia| | |done].
  - split; [done|]. split; [|done]. destruct Hb as [[] ? ?]. by split.
  - intros ch [b' ok] Hch (-> & Hb' & Hnum). pose proof Hb' as [[] Hin Htr]. destruct Hin as [Hil Hir].
    unfold frame_init_ch. repeat (apply wp_bind). wp_steps.
    assert (Hrow : (match (Block.input_samples b').[ch] with [] => false | _ => true end) = true).
    { specialize (Hir ch ltac:(lia)). by destruct (Block.input_samples b').[ch]. }
    rewrite Hrow. simpl. split; [done|]. split; [|done]. split; [split; simpl; try done; by rewrite zlen_upd|done|done].
Qed.

Lemma frame_init_blocks_spec ctx frame :
  1 ≤ Ctx.n_channels ctx ≤ 5 → blocks_ok (Frame.blocks frame) →
  wp (frame_init_blocks ctx frame) (λ '(f, ok), ok = true ∧ ∃ bs, f = frame <| Frame.blocks := bs |> ∧
    blocks_ok bs ∧ ∀ k, 0 ≤ k < 6 → Block.block_num bs.[k] = k).
Proof.
  intros Hn Hb. unfold frame_init_blocks, A52_NUM_BLOCKS.
  apply (wp_for_break (λ m '(f, ok), ok = true ∧ ∃ bs, f = frame <| Frame.blocks := bs |> ∧
    blocks_ok bs ∧ ∀ k, 0 ≤ k < m → Block.block_num bs.[k] = k)); [lia| | |done].
  - split; [done|]. exists (Frame.blocks frame). split; [by destruct frame|]. split; [done|]. lia.
  - intros m [f ok] Hm (-> & bs & -> & Hbs & Hnum). pose proof Hbs as [Hl Hbk]. apply wp_bind.
    apply wp_with_block_len; [done|done|]. eapply wp_mono; [apply frame_init_block_spec; [done|by apply Hbk]|].
    intros [b ok] (-> & Hb' & Hnb). apply wp_ret. split; [done|]. exists (upd bs m b). split; [done|].
    split; [by apply blocks_ok_upd|]. intros k Hk. rewrite at_upd by lia. destruct (Z.eqb_spec k m) as [-> |]; [done|].
    apply Hnum. lia.
Qed.

(** The frame that [frame_init] starts. *)
Record started (ctx : Ctx.t) (f : Frame.t) : Prop := {
  si_ok : frame_ok f;
  si_num : ∀ k, 0 ≤ k < 6 → Block.block_num (Frame.blocks f).[k] = k;
  si_ncoefs : ∀ c, 0 ≤ c < Ctx.n_all_channels ctx →
    (Frame.ncoefs f).[c] = if c <? Ctx.n_channels ctx then 3 * Frame.bwcode f + 73 else 7;
  si_bwcode : Frame.bwcode f = if EncParams.bwcode (Ctx.params ctx) =? -2 then 60 else Ctx.fixed_bwcode ctx;
  si_codes : Frame.sdecaycod f = 2 ∧ Frame.fdecaycod f = 1 ∧ Frame.sgaincod f = 1 ∧ Frame.dbkneecod f = 2 ∧ Frame.floorcod f = 7;
  si_rate : EncParams.encoding_mode (Ctx.params ctx) = AFTEN_ENC_MODE_CBR →
    Frame.bit_rate f = Ctx.target_bitrate ctx ∧ Frame.frmsizecod f = Ctx.frmsizecod ctx ∧
    Frame.frame_size_min f = Ctx.target_bitrate ctx * 96000 / Ctx.sample_rate ctx ∧
    Frame.frame_size f = Frame.frame_size_min f
}.

Lemma frame_init_bandwidth_spec ctx frame :
  channels_ok ctx → zlen (Frame.ncoefs frame) = 6 →
  wp (frame_init_bandwidth ctx frame) (λ f, ∃ ncoefs bwcode, f = frame <| Frame.bwcode := bwcode |> <| Frame.ncoefs := ncoefs |> ∧
    bwcode = (if EncParams.bwcode (Ctx.params ctx) =? -2 then 60 else Ctx.fixed_bwcode ctx) ∧ zlen ncoefs = 6 ∧
    ∀ c, 0 ≤ c < Ctx.n_all_channels ctx → ncoefs.[c] = if c <? Ctx.n_channels ctx then 3 * bwcode + 73 else 7).
Proof.
  intros [Hn Hlfe Hall Hlc] Hl. unfold frame_init_bandwidth. cbv zeta.
  set (bw := if _ =? -2 then 60 else _). apply wp_bind.
  apply (wp_for_up (λ m nc, zlen nc = 6 ∧ ∀ c, 0 ≤ c < m → nc.[c] = bw * 3 + 73)); [lia|split; [done|lia]| |].
  - intros m nc Hm [Hnl Hnc]. wp_step. split; [by rewrite zlen_upd|]. intros c Hc. rewrite at_upd by lia.
    destruct (Z.eqb_spec c m); [done|]. apply Hnc. lia.
  - intros nc [Hnl Hnc]. apply wp_bind.
    apply (wp_mono _ (λ nc', zlen nc' = 6 ∧ ∀ c, 0 ≤ c < Ctx.n_all_channels ctx → nc'.[c] = if c <? Ctx.n_channels ctx then 3 * bw + 73 else 7)).
    + destruct (Z.eqb_spec (Ctx.lfe ctx) 0) as [H0|H0]; simpl negb; cbv iota.
      * apply wp_ret. split; [done|]. intros c Hc. replace (c <? Ctx.n_channels ctx) with true by lia. rewrite Hnc by lia. lia.
      * rewrite Hlc. replace (Ctx.lfe ctx =? 0) with false by lia. wp_step. split; [by rewrite zlen_upd|].
        intros c Hc. rewrite at_upd by lia. destruct (Z.eqb_spec c (Ctx.n_channels ctx)) as [-> |].
        { by rewrite Z.ltb_irrefl. }
        replace (c <? Ctx.n_channels ctx) with true by lia. rewrite Hnc by lia. lia.
    + intros nc' [Hl' Hc']. apply wp_ret. by exists nc', bw.
Qed.

Lemma frame_init_spec ctx frame :
  ctx_ok ctx → frame_ok frame → wp (frame_init ctx frame) (λ '(f, r), r = 0 ∧ started ctx f ∧ Frame.input_audio f = Frame.input_audio frame).
Proof.
  intros Hcx [Hb Ha Hrm Hnl Hsl Hfg]. pose proof (cx_channels _ Hcx) as Hch. pose proof (cx_rate _ Hcx) as Hrate.
  pose proof Hch as [Hn _ _ _]. unfold frame_init. apply wp_bind.
  eapply wp_mono; [by apply frame_init_blocks_spec|]. intros [f ok] (-> & bs & -> & Hbs & Hnum). cbv beta iota. simpl negb. cbv iota.
  apply wp_bind. unfold frame_init_rate.
  apply (wp_mono _ (λ f, frame_ok f ∧ Frame.blocks f = bs ∧ Frame.input_audio f = Frame.input_audio frame ∧
    (EncParams.encoding_mode (Ctx.params ctx) = AFTEN_ENC_MODE_CBR →
    Frame.bit_rate f = Ctx.target_bitrate ctx ∧ Frame.frmsizecod f = Ctx.frmsizecod ctx ∧
    Frame.frame_size_min f = Ctx.target_bitrate ctx * 96000 / Ctx.sample_rate ctx ∧
    Frame.frame_size f = Frame.frame_size_min f))).
  - destruct (Z.eqb_spec (EncParams.encoding_mode (Ctx.params ctx)) AFTEN_ENC_MODE_CBR) as [Hm|Hm].
    + destruct (Hrate Hm) as (Hbr & Hsr & _). replace (Ctx.sample_rate ctx =? 0) with false by lia. cbv zeta.
      apply wp_ret. rewrite Z.quot_div_nonneg by lia. split; [by split|]. done.
    + apply wp_ret. split; [by split|]. done.
  - intros f1 (Hf1 & Hb1 & Ha1 & Hr1). apply wp_bind.
    eapply wp_mono; [apply frame_init_bandwidth_spec; [done|by destruct Hf1]|].
    intros f2 (nc & bw & -> & -> & Hl2 & Hnc). apply wp_ret. split; [done|].
    split; [|done]. destruct Hf1 as [? ? ? ? ? ?]. split; simpl; try done; try (by rewrite Hb1).
Qed.

(** * [begin_encode_frame] *)

Section begin.
Context `{FF : FloatFormat} {Ok : FloatOk FF} `{K : Kernels} `{KOk : !KernelsOk} `{LM : LibM}.
Variable ctx : Ctx.t.
#[local] Abbreviation n := (Ctx.n_all_channels ctx).

(** The blocks hold the overlapping windows of the filtered signal. *)
Definition windowed (au : Audio.t) (audio : list (list FLOAT)) (bs : list Block.t) : Prop :=
  ∀ k ch, 0 ≤ k < 6 → 0 ≤ ch < n →
    (Block.input_samples bs.[k]).[ch] = overlap (Audio.last_samples au).[ch] (channel_audio ctx au ch audio.[ch]) k ∧
    (switching ctx ch = true → (Block.transient_samples bs.[k]).[ch] =
       overlap (Audio.last_transient_samples au).[ch] (channel_transients ctx au ch audio.[ch]) k).

(** The blocks before the transform; the signal is tame if, on all blocks that
    hold it, the gain control words are defined and the transforms stay below
    full scale. *)
Definition signal_ok (au : Audio.t) (audio : list (list FLOAT)) : Prop :=
  ∀ bs, blocks_ok bs → windowed au audio bs →
    (EncParams.dynrng_profile (Ctx.params ctx) = DYNRNG_PROFILE_NONE ∨
     ∀ k, 0 ≤ k < 6 → calculate_block_dynrng (Block.input_samples bs.[k]) n
       (- Metadata.dialnorm (Ctx.meta ctx)) (EncParams.dynrng_profile (Ctx.params ctx)) ≠ None) ∧
    ∀ k c i, 0 ≤ k < 6 → 0 ≤ c < n → 0 ≤ i < 256 → within 0 (fst (transform_of ctx bs.[k] c)).[i].

(** The frame [f] has the coefficients of the samples in [au] and [audio], and
    [au'] is what these samples leave of [au]. *)
Record begun (au : Audio.t) (audio : list (list FLOAT)) (au' : Audio.t) (f : Frame.t) : Prop := {
  bg_started : started ctx f;
  bg_audio : audio_ok ctx au';
  bg_copied : ∃ f0 f1, Frame.input_audio f0 = audio ∧ copied ctx au f0 n au' f1;
  bg_blocks : ∃ bs, blocks_ok bs ∧ windowed au audio bs ∧
    ∀ k, 0 ≤ k < 6 → generated ctx (Frame.ncoefs f) n bs.[k] (Frame.blocks f).[k];
  bg_within : coefs_within n (Frame.blocks f);
  bg_converter : Audio.fmt_convert_from_src au' = Audio.fmt_convert_from_src au
}.

Lemma bandlimited_at nc coef i :
  0 ≤ nc ≤ 256 → zlen coef = 256 → 0 ≤ i < 256 → (bandlimited nc coef).[i] = if i <? nc then coef.[i] else zero_float.
Proof.
  intros Hn Hl Hi. unfold bandlimited. assert (Ht : zlen (take (Z.to_nat nc) coef) = nc).
  { unfold zlen in *. rewrite length_take. lia. }
  destruct (Z.ltb_spec i nc).
  - rewrite at_app_l by lia. unfold at_. apply lookup_total_take_lt. lia.
  - rewrite at_app_r by lia. rewrite Ht. apply at_replicate. lia.
Qed.

Lemma started_ncoefs f : channels_ok ctx → 0 ≤ Frame.bwcode f ≤ 60 → started ctx f → ∀ c, 0 ≤ c < n → ncoefs_ok (Frame.ncoefs f).[c].
Proof.
  intros [Hn Hlfe Hall _] Hbw Hs c Hc. rewrite (si_ncoefs _ _ Hs) by done. destruct (c <? Ctx.n_channels ctx); [right|by left].
  exists (Frame.bwcode f). lia.
Qed.

Lemma started_bwcode f : ctx_ok ctx → started ctx f → 0 ≤ Frame.bwcode f ≤ 60.
Proof. intros Hcx Hs. rewrite (si_bwcode _ _ Hs). destruct (_ =? -2); [lia|]. by destruct Hcx. Qed.

(** A frame that differs from a started one in blocks, samples, flags and
    exponent data. *)
Lemma started_kept f f' :
  started ctx f → frame_ok f' → (∀ k, 0 ≤ k < 6 → Block.block_num (Frame.blocks f').[k] = k) →
  f' = f <| Frame.blocks := Frame.blocks f' |> <| Frame.input_audio := Frame.input_audio f' |>
         <| Frame.rematflg := Frame.rematflg f' |> <| Frame.expstr_set := Frame.expstr_set f' |>
         <| Frame.exp_bits := Frame.exp_bits f' |> → started ctx f'.
Proof. intros [H1 H2 H3 H4 H5 H6] Hf Hn He. split; try done; by rewrite He. Qed.

Lemma copied_windowed au f au' f' :
  n ≤ 6 → copied ctx au f n au' f' → windowed au (Frame.input_audio f) (Frame.blocks f').
Proof.
  intros Hn Hcp k ch Hk Hc. rewrite (cp_input _ _ _ _ _ _ Hcp) by lia. replace (ch <? n) with true by lia. split; [done|].
  intros Hsw. rewrite (cp_transient _ _ _ _ _ _ Hcp) by lia. rewrite Hsw. by replace (ch <? n) with true by lia.
Qed.

Lemma copied_started au f au' f' : started ctx f → copied ctx au f n au' f' → started ctx f'.
Proof.
  intros Hs Hcp. pose proof Hcp as [Hf Hb [? ? ? ?] _ _ _ _ _ _ _ _ _]. pose proof (si_ok _ _ Hs) as [[_ H0] ? ? ? ? ?].
  apply (started_kept f); [done| |..].
  - rewrite Hf. split; simpl; try done. split; [done|]. intros k Hk. split; [|auto|auto].
    rewrite Hb by done. destruct (H0 k Hk) as [[] _ _]. by split.
  - intros k Hk. rewrite Hb by done. simpl. by apply (si_num _ _ Hs).
  - by rewrite Hf.
Qed.

Lemma begin_encode_frame_spec buffer au tctx :
  ctx_ok ctx → audio_ok ctx au → zlen buffer = 1536 → started ctx (TCtx.frame tctx) →
  signal_ok au (Frame.input_audio (TCtx.frame tctx)) →
  wp (begin_encode_frame ctx buffer au tctx) (λ '(au', tctx', r), r = 0 ∧ ∃ f,
    tctx' = put_frame f tctx ∧ begun au (Frame.input_audio (TCtx.frame tctx)) au' f).
Proof.
  intros Hcx Hau Hbuf Hst Hsig. pose proof (cx_channels _ Hcx) as Hch. assert (Hn : 1 ≤ n ≤ 6) by (destruct Hch; lia).
  set (f0 := TCtx.frame tctx) in *. unfold begin_encode_frame. apply wp_bind. eapply wp_mono.
  { apply copy_samples_spec; [done|done| |done]. by apply frame_ok_samples, (si_ok _ _ Hst). }
  intros [au1 f1] Hcp. pose proof (copied_started _ _ _ _ Hst Hcp) as Hs1. pose proof (si_ok _ _ Hs1) as Hok1.
  pose proof (copied_windowed _ _ _ _ ltac:(lia) Hcp) as Hwin. destruct (Hsig _ (fo_blocks _ Hok1) Hwin) as [Hdyn Hwith].
  pose proof (fo_blocks _ Hok1) as [Hl1 Hb1]. apply wp_bind. eapply wp_mono; [by apply calculate_dynrng_spec|].
  intros f2 (bs & -> & Hl2 & Hb2). apply wp_bind.
  assert (Hbs : blocks_ok bs).
  { split; [done|]. intros k Hk. rewrite (Hb2 k Hk). destruct (Hb1 k Hk) as [[] ? ?]. by split. }
  assert (Hwin2 : windowed au (Frame.input_audio f0) bs).
  { intros k ch Hk Hc. rewrite (Hb2 k Hk). by apply Hwin. }
  eapply wp_mono.
  { apply generate_coefs_spec. split; simpl; try done; [by destruct Hok1| |].
    - intros c Hc. pose proof (ncoefs_ok_range _ (started_ncoefs f1 Hch (started_bwcode _ Hcx Hs1) Hs1 c Hc)). lia.
    - intros k Hk. destruct Hbs as [_ Hbk]. by destruct (Hbk k Hk) as [[] ? ?]. }
  simpl. intros f3 (bs3 & -> & Hl3 & Hg). apply wp_ret. split; [done|]. eexists. split; [reflexivity|].
  assert (Hnc : Frame.ncoefs f1 = Frame.ncoefs f0) by (by rewrite (cp_frame _ _ _ _ _ _ Hcp)). rewrite Hnc in Hg.
  split.
  - apply (started_kept f1); [done| |..|by destruct f1].
    + destruct Hok1. split; simpl; try done. split; [done|]. intros k Hk. destruct (Hg k Hk) as [He ? ? ? _ _ _].
      destruct (proj2 Hbs k Hk) as [[] ? ?]. rewrite He. split; simpl; done.
    + simpl. intros k Hk. rewrite (ge_same _ _ _ _ _ (Hg k Hk)). simpl. rewrite (Hb2 k Hk). by apply (si_num _ _ Hs1).
  - by apply (cp_ok _ _ _ _ _ _ Hcp).
  - by exists f0, f1.
  - exists bs. simpl. rewrite Hnc. done.
  - simpl. intros k c i Hk Hc Hi. rewrite (ge_coef _ _ _ _ _ (Hg k Hk)) by lia. replace (c <? n) with true by lia.
    pose proof (ncoefs_ok_range _ (started_ncoefs f1 Hch (started_bwcode _ Hcx Hs1) Hs1 c Hc)) as Hr. rewrite Hnc in Hr.
    rewrite bandlimited_at; [|lia| |done].
    + destruct (i <? _); [|done]. by apply (proj2 (Hsig bs Hbs Hwin2)).
    + destruct Hbs as [_ Hbk]. destruct (Hbk k Hk) as [[] Hin _].
      destruct (transform_total ctx bs.[k] c) as (_ & _ & _ & Hlen & _); [| |done].
      * apply (dim2_row 6); [done|lia].
      * apply (dim2_row 6); [done|lia].
  - apply (cp_converter _ _ _ _ _ _ Hcp).
Qed.
End begin.

(** * [code_frame] *)

(** Equal exponents and strategies. *)
Definition same_exps (b b' : Block.t) : Prop :=
  Block.exp_ b' = Block.exp_ b ∧ Block.exp_strategy b' = Block.exp_strategy b ∧
  Block.nexpgrps b' = Block.nexpgrps b ∧ Block.grp_exp b' = Block.grp_exp b.

Lemma channel_exponents_same `{FloatFormat} ncoefs blocks0 bs bs' k c :
  0 ≤ k < 6 → (∀ j, 0 ≤ j < 6 → same_exps bs.[j] bs'.[j]) →
  channel_exponents ncoefs blocks0 bs k c → channel_exponents ncoefs blocks0 bs' k c.
Proof.
  intros Hk Hs [H1 H2 H3 H4 H5 H6 H7 H8].
  assert (He : ∀ j, 0 ≤ j < 6 → bexp bs' j c = bexp bs j c ∧ bstr bs' j c = bstr bs j c)
    by (intros j Hj; unfold bexp, bstr; by destruct (Hs j Hj) as (-> & -> & _)).
  destruct (He k Hk) as [E1 E2]. destruct (Hs k Hk) as (_ & _ & E3 & E4).
  split; rewrite ?E1, ?E2, ?E3, ?E4; try done. intros Hr t Ht.
  assert (k ≠ 0) by (intros ->; by apply H5). rewrite (proj1 (He (k - 1) ltac:(lia))). by apply H7.
Qed.

Lemma exp_bits_same m ncoefs bs bs' :
  (∀ j, 0 ≤ j < 6 → same_exps bs.[j] bs'.[j]) → exp_bits_frame m ncoefs bs' = exp_bits_frame m ncoefs bs.
Proof.
  intros Hs. unfold exp_bits_frame. apply zsum_ext. intros k Hk. apply zsum_ext. intros c Hc.
  unfold bstr. by destruct (Hs k Hk) as (_ & -> & _).
Qed.

(** A frame [f] whose exponents and pointers code the coefficients of [fc]: a
    decoder that is given the exponents, the offsets and the gains finds the
    pointers, and all data fits the frame. *)
Record frame_coded `{FloatFormat} (ctx : Ctx.t) (fc f : Frame.t) : Prop := {
  fc_ok : frame_ok f;
  fc_num : ∀ k, 0 ≤ k < 6 → Block.block_num (Frame.blocks f).[k] = k;
  fc_ncoefs : ∀ c, 0 ≤ c < Ctx.n_all_channels ctx → ncoefs_ok (Frame.ncoefs f).[c];
  fc_coef : ∀ k, 0 ≤ k < 6 → Block.mdct_coef (Frame.blocks f).[k] = Block.mdct_coef (Frame.blocks fc).[k];
  fc_within : coefs_within (Ctx.n_all_channels ctx) (Frame.blocks fc);
  fc_exps : ∀ k c, 0 ≤ k < 6 → 0 ≤ c < Ctx.n_all_channels ctx →
    channel_exponents (Frame.ncoefs f) (Frame.blocks fc) (Frame.blocks f) k c;
  fc_exp_bits : Frame.exp_bits f = exp_bits_frame (Ctx.n_all_channels ctx) (Frame.ncoefs f) (Frame.blocks f);
  fc_frame_bits : Frame.frame_bits f = fixed_bits ctx (Frame.blocks f);
  fc_mant_bits : Frame.mant_bits f = frame_mant_bits (fbap f) (Frame.ncoefs f) (Ctx.n_all_channels ctx);
  fc_fits : Frame.frame_bits f + Frame.exp_bits f + Frame.mant_bits f ≤ 16 * Frame.frame_size f;
  fc_size : 8 ≤ Frame.frame_size f ≤ 1920;
  fc_bap : ∀ k c i, 0 ≤ k < 6 → 0 ≤ c < Ctx.n_all_channels ctx → 0 ≤ i < (Frame.ncoefs f).[c] → fbap f k c i =
    alloc_bap (Frame.blocks f) a52_floor_tab.[Frame.floorcod f] (Frame.quality f) k c i;
  fc_quality : 0 ≤ Frame.quality f ∧ Frame.quality f = 16 * Frame.csnroffst f + Frame.fsnroffst f ∧ 0 ≤ Frame.fsnroffst f < 16;
  fc_gains : ∀ k, 0 ≤ k < 6 → gains_done ctx (Frame.blocks f) k
}.

(** The counters of the rate control; without a fraction of a word per frame
    they do not drift. *)
Record clock_ok (ctx : Ctx.t) (tctx : TCtx.t) : Prop := {
  ck_bits : is_counter (TCtx.bit_cnt tctx);
  ck_samples : is_counter (TCtx.sample_cnt tctx);
  ck_exact : EncParams.encoding_mode (Ctx.params ctx) = AFTEN_ENC_MODE_CBR →
    (Ctx.target_bitrate ctx * 96000) mod Ctx.sample_rate ctx = 0 →
    drift (Ctx.target_bitrate ctx * 1000) (Ctx.sample_rate ctx) (TCtx.bit_cnt tctx, TCtx.sample_cnt tctx) = 0
}.

Definition quality_ok (ctx : Ctx.t) (tctx : TCtx.t) : Prop :=
  EncParams.bitalloc_fast (Ctx.params ctx) ≠ 0 → 0 ≤ TCtx.last_quality tctx < 1040.

Section code.
Context `{FF : FloatFormat} {Ok : FloatOk FF} `{R : Residue} {ROk : ResidueOk R}.
Variable ctx : Ctx.t.
#[local] Abbreviation n := (Ctx.n_all_channels ctx).
Hypothesis Hcx : ctx_ok ctx.

Lemma n_range : 1 ≤ n ≤ 6.
Proof. destruct (cx_channels _ Hcx). lia. Qed.

(** ** The flags *)

Lemma dither_step f :
  started ctx f → coefs_within n (Frame.blocks f) →
  wp (compute_dither_strategy ctx f) (λ f', started ctx f' ∧ coefs_within n (Frame.blocks f') ∧
    Frame.ncoefs f' = Frame.ncoefs f ∧
    ∀ k, 0 ≤ k < 6 → Block.mdct_coef (Frame.blocks f').[k] = Block.mdct_coef (Frame.blocks f).[k]).
Proof.
  intros Hs Hw. pose proof (si_ok _ _ Hs) as Hok. pose proof (fo_blocks _ Hok) as [Hl Hb].
  eapply wp_mono.
  { apply compute_dither_spec; [by apply cx_channels|done|]. intros k Hk. by destruct (Hb k Hk) as [[] _ _]. }
  intros f' (bs & -> & Hl' & Hbs).
  assert (Hmd : ∀ k, 0 ≤ k < 6 → Block.mdct_coef bs.[k] = Block.mdct_coef (Frame.blocks f).[k]).
  { intros k Hk. destruct (Hbs k Hk) as [-> _]. done. }
  split_and!; [|intros k c i Hk Hc Hi; simpl; rewrite Hmd by done; by apply Hw|done|done].
  apply (started_kept ctx f); [done| |..|by destruct f].
  - destruct Hok. split; simpl; try done. split; [done|]. intros k Hk. destruct (Hbs k Hk) as (He & Hd & _).
    destruct (Hb k Hk) as [[] ? ?]. rewrite He. split; simpl; done.
  - simpl. intros k Hk. rewrite (proj1 (Hbs k Hk)). by apply (si_num _ _ Hs).
Qed.

Lemma remat_step f :
  started ctx f → coefs_within n (Frame.blocks f) → 2 ≤ Ctx.n_channels ctx →
  wp (calc_rematrixing ctx f) (λ f', started ctx f' ∧ coefs_within n (Frame.blocks f') ∧ Frame.ncoefs f' = Frame.ncoefs f ∧
    rematrixed f (if EncParams.use_rematrixing (Ctx.params ctx) =? 0 then 0 else 4) (Frame.rematflg f') (Frame.blocks f')).
Proof.
  intros Hs Hw H2. pose proof (si_ok _ _ Hs) as Hok. pose proof (fo_blocks _ Hok) as [Hl Hb].
  assert (Hd : ∀ k, 0 ≤ k < 6 → dim2 6 256 (Block.mdct_coef (Frame.blocks f).[k]))
    by (intros k Hk; by destruct (Hb k Hk) as [[] _ _]).
  eapply wp_mono; [by apply calc_rematrixing_spec; [done|done|destruct Hok..]|].
  intros f' (flags & bs & -> & Hr). pose proof Hr as [Hfl _ Hl' Hsame Hdim _]. split_and!; [| |done|done].
  - apply (started_kept ctx f); [done| |..|by destruct f].
    + destruct Hok. split; simpl; try done. split; [done|]. intros k Hk. specialize (Hsame k Hk). specialize (Hdim k Hk).
      destruct (Hb k Hk) as [[] ? ?]. rewrite Hsame. split; simpl; done.
    + simpl. intros k Hk. rewrite (Hsame k Hk). by apply (si_num _ _ Hs).
  - eapply rematrixed_within; [|exact Hr|exact Hw]. pose proof n_range. destruct (cx_channels _ Hcx). lia.
Qed.

(** ** The exponents *)

Hypothesis Hvbw : EncParams.bwcode (Ctx.params ctx) ≠ -2.

(** The frame [f'] has exponents for the coefficients of [f]. *)
Record exps_done (f f' : Frame.t) : Prop := {
  xd_started : started ctx f';
  xd_coef : ∀ k, 0 ≤ k < 6 → Block.mdct_coef (Frame.blocks f').[k] = Block.mdct_coef (Frame.blocks f).[k];
  xd_exps : ∀ k c, 0 ≤ k < 6 → 0 ≤ c < n → channel_exponents (Frame.ncoefs f) (Frame.blocks f) (Frame.blocks f') k c;
  xd_bits : Frame.exp_bits f' = exp_bits_frame n (Frame.ncoefs f) (Frame.blocks f');
  xd_ncoefs : Frame.ncoefs f' = Frame.ncoefs f
}.

Lemma exps_step f :
  started ctx f → coefs_within n (Frame.blocks f) → wp (a52_process_exponents ctx f) (exps_done f).
Proof.
  intros Hs Hw. pose proof (si_ok _ _ Hs) as Hok. pose proof (fo_blocks _ Hok) as Hb.
  eapply wp_mono.
  { apply a52_process_exponents_spec. destruct Hok. split; try done; [by apply cx_channels|by apply blocks_ok_wf| |by apply cx_search|].
    - apply started_ncoefs; [by apply cx_channels|by apply (started_bwcode ctx)|done].
    - intros k c t Hk Hc Ht. by apply within_coef_ok, Hw. }
  intros f' (bs & sets & -> & [Hwf Hsame Hch Hsl _ _]).
  assert (Hbs : blocks_ok bs).
  { apply (blocks_ok_kept (Frame.blocks f)); [done|done|]. intros k Hk. by rewrite (Hsame k Hk). }
  split; simpl; try done.
  - apply (started_kept ctx f); [done| |..|by destruct f].
    + destruct Hok. by split.
    + simpl. intros k Hk. rewrite (Hsame k Hk). by apply (si_num _ _ Hs).
  - intros k Hk. by rewrite (Hsame k Hk).
Qed.

(** ** Rate and allocation *)

(** The counters of a frame whose size has been chosen. *)
Definition paced (tctx : TCtx.t) : Prop :=
  EncParams.encoding_mode (Ctx.params ctx) = AFTEN_ENC_MODE_CBR →
  (Ctx.target_bitrate ctx * 96000) mod Ctx.sample_rate ctx = 0 →
  Frame.frame_size (TCtx.frame tctx) = Ctx.target_bitrate ctx * 96000 / Ctx.sample_rate ctx ∧
  TCtx.bit_cnt tctx < Ctx.target_bitrate ctx * 1000 ∧ TCtx.sample_cnt tctx < Ctx.sample_rate ctx.

(** The state [t'] after choosing the frame size in [t]. *)
Record sized_frame (t t' : TCtx.t) : Prop := {
  sf_tctx : t' = t <| TCtx.bit_cnt := TCtx.bit_cnt t' |> <| TCtx.sample_cnt := TCtx.sample_cnt t' |> <| TCtx.frame := TCtx.frame t' |>;
  sf_frame : TCtx.frame t' = (TCtx.frame t) <| Frame.frame_size := Frame.frame_size (TCtx.frame t') |>;
  sf_clock : clock_ok ctx t';
  sf_paced : paced t';
  sf_size : EncParams.encoding_mode (Ctx.params ctx) = AFTEN_ENC_MODE_CBR → 8 ≤ Frame.frame_size (TCtx.frame t') ≤ 1920
}.

Lemma adjust_step t :
  EncParams.encoding_mode (Ctx.params ctx) = AFTEN_ENC_MODE_CBR → started ctx (TCtx.frame t) → clock_ok ctx t →
  wp (adjust_frame_size ctx t) (sized_frame t).
Proof.
  intros Hm Hs [Hb Hsc Hex]. destruct (cx_rate _ Hcx Hm) as (Hbr & Hsr & Hsz & Hmax).
  destruct (si_rate _ _ Hs Hm) as (Hrate & _ & Hmin & _).
  set (size := Ctx.target_bitrate ctx * 96000 / Ctx.sample_rate ctx) in *.
  eapply wp_mono; [apply adjust_frame_size_spec; try done; rewrite ?Hrate, ?Hmin; lia|].
  cbv zeta. rewrite Hrate, Hmin. intros t' (q & b & s & Hq & Heb & Hes & Hcb & Hcs & Hlt & Hd & ->).
  set (add := Z.b2z _).
  assert (Hzero : (Ctx.target_bitrate ctx * 96000) mod Ctx.sample_rate ctx = 0 →
    drift (Ctx.target_bitrate ctx * 1000) (Ctx.sample_rate ctx) (b, s) = 0 ∧ add = 0 ∧
    b < Ctx.target_bitrate ctx * 1000 ∧ s < Ctx.sample_rate ctx).
  { intros Hz. rewrite (Hex Hm Hz) in Hd. split; [done|]. split; [unfold add; by rewrite behind_exact|].
    unfold drift in Hd. unfold is_counter in *. nia. }
  split; simpl; try done.
  - split; simpl; try done. intros _ Hz. by apply Hzero.
  - intros _ Hz. simpl. destruct (Hzero Hz) as (_ & -> & ? & ?). split; [lia|done].
  - intros _. assert (0 ≤ add ≤ 1) by (unfold add; destruct (behind _ _ _); simpl; lia).
    destruct (Z.eq_dec size 1920) as [He|]; [|lia]. destruct (Hzero (Hmax He)) as (_ & -> & _). lia.
Qed.

Lemma size_step t :
  started ctx (TCtx.frame t) → clock_ok ctx t →
  wp (if EncParams.encoding_mode (Ctx.params ctx) =? AFTEN_ENC_MODE_CBR then adjust_frame_size ctx t else Some t) (sized_frame t).
Proof.
  intros Hs Hc. destruct (Z.eqb_spec (EncParams.encoding_mode (Ctx.params ctx)) AFTEN_ENC_MODE_CBR) as [Hm|Hm].
  - by apply adjust_step.
  - apply wp_ret. split; try done; [by destruct t|by destruct (TCtx.frame t)].
Qed.

Hypothesis Hres : residue_readable (Ctx.fixed_bwcode ctx * 3 + 73).

Lemma ncoefs_readable f c : started ctx f → 0 ≤ c < n → residue_readable (Frame.ncoefs f).[c].
Proof.
  intros Hs Hc. rewrite (si_ncoefs _ _ Hs) by done. destruct (c <? _).
  - rewrite (si_bwcode _ _ Hs). replace (EncParams.bwcode (Ctx.params ctx) =? -2) with false by lia.
    replace (3 * Ctx.fixed_bwcode ctx + 73) with (Ctx.fixed_bwcode ctx * 3 + 73) by lia. by apply Hres.
  - left. by vm_compute.
Qed.

Lemma channel_exps_24 fc bs k c i :
  channel_exponents (Frame.ncoefs fc) (Frame.blocks fc) bs k c → coefs_within n (Frame.blocks fc) →
  0 ≤ k < 6 → 0 ≤ c < n → (Frame.ncoefs fc).[c] ≤ 256 → 0 ≤ i < (Frame.ncoefs fc).[c] →
  0 ≤ (bexp bs k c).[i] ≤ 24.
Proof.
  intros Hch Hw Hk Hc Hn Hi. pose proof (ce_below _ _ _ _ _ Hch i Hi) as Hb. pose proof (ce_u8 _ _ _ _ _ Hch i ltac:(lia)) as H8.
  assert (Hok : coef_ok (bcoef (Frame.blocks fc) k c).[i]) by (apply within_coef_ok, Hw; [done|done|lia]).
  pose proof (exponent_of_bounds _ (proj2 Hok)) as [He _]. lia.
Qed.

Lemma frame_size_range i :
  0 ≤ i ≤ 37 → 8 ≤ Z.quot a52_frame_size_tab.[i].[Ctx.fscod ctx] 16 ≤ 1920.
Proof.
  intros Hi. pose proof (cx_fscod _ Hcx) as Hf. destruct (frame_size_tab_ok i (Ctx.fscod ctx) ltac:(lia) ltac:(lia)) as (_ & Hr & Hm).
  rewrite Z.quot_div_nonneg by lia. split; [|apply Z.div_le_upper_bound; lia]. apply Z.div_le_lower_bound; [lia|].
  assert (H38 : 0 ≤ i < 38) by lia. table_check (λ i, forallb (λ f, 128 <=? a52_frame_size_tab.[i].[Z.of_nat f]) (seq 0 3)) 38 H38.
  rewrite forallb_forall in H38. specialize (H38 (Z.to_nat (Ctx.fscod ctx)) ltac:(apply in_seq; lia)).
  rewrite Z2Nat.id in H38 by lia. cbv beta in H38. lia.
Qed.

Lemma ready_to_allocate fc t :
  exps_done fc (TCtx.frame t) → started ctx fc → coefs_within n (Frame.blocks fc) → quality_ok ctx t →
  ∀ t', sized_frame t t' → compute_ready ctx t'.
Proof.
  intros Hx Hsc Hw Hq t' [Htt Hff _ _ _]. pose proof Hx as [Hs _ Hch Hbits Hnc]. pose proof (si_ok _ _ Hs) as Hok.
  pose proof (si_codes _ _ Hs) as (H1 & H2 & H3 & H4 & H5). pose proof n_range as Hn.
  assert (Hncs : ∀ c, 0 ≤ c < n → ncoefs_ok (Frame.ncoefs (TCtx.frame t)).[c])
    by (apply started_ncoefs; [by apply cx_channels|by apply (started_bwcode ctx)|done]).
  assert (Hlq : TCtx.last_quality t' = TCtx.last_quality t) by (by rewrite Htt).
  remember (Frame.frame_size (TCtx.frame t')) as sz eqn:Hsz. clear Hsz.
  destruct Hcx as [? ? ? ? ? ? ? ? ? ? ?]. destruct Hok as [? ? ? ? ? ?]. split; rewrite ?Hff, ?Hlq.
  - split; cbn [Frame.blocks Frame.sdecaycod Frame.fdecaycod Frame.sgaincod Frame.dbkneecod Frame.floorcod Frame.bit_alloc set const];
      rewrite ?H1, ?H2, ?H3, ?H4, ?H5; try assumption; try lia; [by apply blocks_ok_wf|..].
    + intros k c Hk Hc. by apply (Hch k c).
    + intros c Hc. by apply (Hch 0 c ltac:(lia) Hc).
  - assumption.
  - exact Hncs.
  - intros k c i Hk Hc Hi. cbn in Hi |- *. rewrite Hnc in Hi. apply (channel_exps_24 fc); try assumption; [by apply Hch|].
    rewrite <- Hnc. pose proof (ncoefs_ok_range _ (Hncs c Hc)). lia.
  - intros c Hc. by apply (ncoefs_readable (TCtx.frame t)).
  - assumption.
  - assumption.
  - exact Hq.
  - assumption.
Qed.

Lemma kept_frame_ok t t1 t2 r :
  frame_ok (TCtx.frame t) → sized_frame t t1 → compute_kept ctx t1 t2 r → frame_ok (TCtx.frame t2).
Proof.
  intros [] [_ Hff _ _ _] [_ _ Hf Hwf Hsame Hfg _ _]. cbv zeta in Hf.
  assert (Hb1 : Frame.blocks (TCtx.frame t1) = Frame.blocks (TCtx.frame t)) by (by rewrite Hff).
  rewrite Hb1 in Hsame. split; [|rewrite Hf, Hff; done..|done].
  apply (blocks_ok_kept (Frame.blocks (TCtx.frame t))); [done|done|]. intros k Hk. by rewrite (Hsame k Hk).
Qed.

Lemma allocated_coded fc t t1 t2 :
  exps_done fc (TCtx.frame t) → started ctx fc → coefs_within n (Frame.blocks fc) → sized_frame t t1 →
  compute_kept ctx t1 t2 0 → allocation_ok ctx (TCtx.frame t1) (TCtx.frame t2) → frame_coded ctx fc (TCtx.frame t2).
Proof.
  intros Hx Hsc Hw Hsf Hck [Hwf _ (Hnc2 & Hxb & Hrf & _ & _ & _ & _ & _ & Hfl) Hfix Hmant Hfits Hbap Hq Hg].
  pose proof Hsf as [_ Hff _ _ Hsz]. pose proof Hck as [_ _ Hf _ Hsame Hfg Hsize _].
  pose proof Hx as [Hs Hcoef Hch Hbits Hnc]. set (f2 := TCtx.frame t2) in *. cbv zeta in Hf.
  assert (Hb1 : Frame.blocks (TCtx.frame t1) = Frame.blocks (TCtx.frame t)) by (by rewrite Hff).
  assert (Hn1 : Frame.ncoefs (TCtx.frame t1) = Frame.ncoefs fc) by (by rewrite Hff).
  rewrite Hb1 in Hsame. rewrite Hn1 in Hnc2.
  assert (Hse : ∀ j, 0 ≤ j < 6 → same_exps (Frame.blocks (TCtx.frame t)).[j] (Frame.blocks f2).[j])
    by (intros j Hj; unfold same_exps; by rewrite (Hsame j Hj)).
  split; try done.
  - by apply (kept_frame_ok t t1 t2 0); [apply (si_ok _ _ Hs)|..].
  - intros k Hk. rewrite (Hsame k Hk). simpl. by apply (si_num _ _ Hs).
  - rewrite Hnc2. apply started_ncoefs; [by apply cx_channels|by apply (started_bwcode ctx)|done].
  - intros k Hk. rewrite (Hsame k Hk). simpl. by apply Hcoef.
  - intros k c Hk Hc. rewrite Hnc2. eapply channel_exponents_same; [done|exact Hse|by apply Hch].
  - rewrite Hxb, Hff. simpl. rewrite Hbits, Hnc2. symmetry. by apply exp_bits_same.
  - destruct (cx_mode _ Hcx) as [Hm|Hm]; rewrite Hm in Hsize; simpl in Hsize.
    + rewrite Hsize. by apply Hsz.
    + destruct Hsize as (i & Hi & ->). pose proof (cx_frmsizecod _ Hcx). apply frame_size_range. lia.
  - intros k c i Hk Hc Hi. rewrite Hbap by done. by rewrite Hfl.
Qed.

(** ** All of it *)

(** The coefficients of [fc] are those of [f], rematrixed in stereo. *)
Definition remixed_from (f fc : Frame.t) : Prop :=
  ∃ fd, Frame.ncoefs fd = Frame.ncoefs f ∧
    (∀ k, 0 ≤ k < 6 → Block.mdct_coef (Frame.blocks fd).[k] = Block.mdct_coef (Frame.blocks f).[k]) ∧
    if Ctx.acmod ctx =? A52_ACMOD_STEREO
    then rematrixed fd (if EncParams.use_rematrixing (Ctx.params ctx) =? 0 then 0 else 4) (Frame.rematflg fc) (Frame.blocks fc)
    else fc = fd.

Lemma flags_step t :
  started ctx (TCtx.frame t) → coefs_within n (Frame.blocks (TCtx.frame t)) →
  wp (t ← on_frame (compute_dither_strategy ctx) t;
      if Ctx.acmod ctx =? A52_ACMOD_STEREO then on_frame (calc_rematrixing ctx) t else Some t)
     (λ t', ∃ fc, t' = put_frame fc t ∧ started ctx fc ∧ coefs_within n (Frame.blocks fc) ∧
        Frame.ncoefs fc = Frame.ncoefs (TCtx.frame t) ∧ remixed_from (TCtx.frame t) fc).
Proof.
  intros Hs Hw. apply wp_bind. unfold on_frame at 1. apply wp_bind. eapply wp_mono; [by apply dither_step|].
  intros fd (Hsd & Hwd & Hnd & Hcd). apply wp_ret. unfold remixed_from.
  destruct (Z.eqb_spec (Ctx.acmod ctx) A52_ACMOD_STEREO) as [Hst|Hst].
  - unfold on_frame. apply wp_bind. simpl TCtx.frame. eapply wp_mono; [apply remat_step; [done|done|by apply cx_stereo]|].
    intros fc (Hsc & Hwc & Hnc & Hr). apply wp_ret. exists fc. split; [done|]. do 2 (split; [done|]).
    split; [by rewrite Hnc|]. by exists fd.
  - apply wp_ret. exists fd. split; [done|]. do 3 (split; [done|]). by exists fd.
Qed.

Lemma code_frame_spec t :
  started ctx (TCtx.frame t) → coefs_within n (Frame.blocks (TCtx.frame t)) → clock_ok ctx t → quality_ok ctx t →
  wp (code_frame ctx t) (λ '(t', r), (r = 0 ∨ r = -1) ∧ frame_ok (TCtx.frame t') ∧ clock_ok ctx t' ∧ quality_ok ctx t' ∧
    (r = 0 → paced t' ∧ ∃ fc, remixed_from (TCtx.frame t) fc ∧ frame_coded ctx fc (TCtx.frame t') ∧
                              Frame.ncoefs (TCtx.frame t') = Frame.ncoefs (TCtx.frame t))).
Proof.
  intros Hs Hw Hcl Hq. unfold code_frame. pose proof (wp_bind_inv _ _ _ (flags_step t Hs Hw)) as Hflags.
  apply wp_bind. eapply wp_mono; [exact Hflags|]. clear Hflags. cbv beta. intros t1 Hf1. apply wp_bind.
  eapply wp_mono; [exact Hf1|]. clear Hf1. cbv beta. intros t2 (fc & -> & Hsc & Hwc & Hncc & Hrem).
  replace (EncParams.bwcode (Ctx.params ctx) =? -2) with false by lia. apply wp_bind, wp_ret.
  apply wp_bind. unfold on_frame. apply wp_bind. simpl TCtx.frame. eapply wp_mono; [by apply exps_step|].
  intros fx Hx. apply wp_ret. set (t3 := put_frame fx (put_frame fc t)).
  assert (Hx' : exps_done fc (TCtx.frame t3)) by done.
  apply wp_bind. eapply wp_mono.
  { apply (size_step t3); [by destruct Hx|]. by destruct Hcl. }
  intros t4 Hsf. pose proof (ready_to_allocate fc t3 Hx' Hsc Hwc Hq t4 Hsf) as Hrdy.
  eapply wp_mono; [by apply compute_bit_allocation_spec|]. intros [t5 r] Hout.
  pose proof (compute_keeps ctx t4 t5 r Hrdy Hout) as Hk. split; [by destruct Hk|].
  assert (Hcnt : TCtx.bit_cnt t5 = TCtx.bit_cnt t4 ∧ TCtx.sample_cnt t5 = TCtx.sample_cnt t4)
    by (by rewrite (ck_tctx _ _ _ _ Hk)). destruct Hcnt as [Hbc Hsc5].
  split; [apply (kept_frame_ok t3 t4 t5 r); [by destruct Hx' as [[] _ _ _ _]|done|done]|].
  split; [destruct (sf_clock _ _ Hsf); split; by rewrite ?Hbc, ?Hsc5|].
  split.
  { intros Hf. apply (ck_last _ _ _ _ Hk Hf). rewrite (sf_tctx _ _ Hsf). by apply Hq. }
  intros ->. split.
  - intros Hm Hz. rewrite Hbc, Hsc5. pose proof (ck_size _ _ _ _ Hk) as Hsz. rewrite Hm in Hsz. simpl in Hsz. rewrite Hsz.
    by apply (sf_paced _ _ Hsf).
  - exists fc. split; [done|]. destruct (compute_success ctx t4 t5 Hrdy Hout) as [Hao _]. split.
    + by apply (allocated_coded fc t3 t4 t5).
    + destruct (ao_frame _ _ _ Hao) as [-> _]. rewrite (sf_frame _ _ Hsf). simpl. by rewrite (xd_ncoefs _ _ Hx).
Qed.
End code.

(** * [pack_frame] *)

Section pack.
Context `{T : Target} `{FF : FloatFormat} {Ok : FloatOk FF}.
Variables (ctx : Ctx.t) (tab : list Z).
#[local] Abbreviation n := (Ctx.n_all_channels ctx).
Hypothesis Hcx : ctx_ok ctx.

Lemma coded_ready fc f :
  frame_coded ctx fc f → ∀ k, 0 ≤ k < 6 → quant_ready n (Frame.ncoefs f) (Frame.blocks f).[k].
Proof.
  intros Hc k Hk. pose proof Hc as []. pose proof fc_ok0 as [Hb _ _ Hnl _ _].
  assert (Hr : ∀ c, 0 ≤ c < n → 7 ≤ (Frame.ncoefs f).[c] ≤ 253) by (intros; by apply ncoefs_ok_range, fc_ncoefs0).
  assert (Hcoef : ∀ c i, 0 ≤ c < n → 0 ≤ i < (Frame.ncoefs f).[c] → coef_ok (bcoef (Frame.blocks fc) k c).[i]).
  { intros c i Hcc Hi. apply within_coef_ok, fc_within0; [done|done|]. specialize (Hr c Hcc). lia. }
  split.
  - by apply (proj2 (blocks_ok_wf _ Hb)).
  - by apply n_range in Hcx; lia.
  - done.
  - intros c Hcc. specialize (Hr c Hcc). lia.
  - intros c i Hcc Hi. rewrite fc_coef0 by done. by apply Hcoef.
  - intros c i Hcc Hi. pose proof (fc_exps0 k c Hk Hcc) as Hch. unfold in_range, block_coef, block_exp. rewrite fc_coef0 by done.
    split; [|by apply (ce_mantissa _ _ _ _ _ Hch)].
    pose proof (ce_below _ _ _ _ _ Hch i Hi) as Hbel. specialize (Hr c Hcc). pose proof (ce_u8 _ _ _ _ _ Hch i ltac:(lia)) as H8.
    pose proof (exponent_of_bounds _ (proj2 (Hcoef c i Hcc Hi))) as [He _]. unfold bexp in *. lia.
  - intros c i Hcc Hi. pose proof (fc_bap0 k c i Hk Hcc Hi) as Hb'. unfold fbap in Hb'. unfold block_bap. rewrite Hb'. apply alloc_bap_range.
Qed.

(** The mantissas change nothing that allocation set. *)
Lemma quantized_coded fc f bs :
  frame_coded ctx fc f → blocks_wf bs →
  (∀ k, 0 ≤ k < 6 → bs.[k] = (Frame.blocks f).[k] <| Block.qmant := Block.qmant bs.[k] |>) →
  frame_coded ctx fc (f <| Frame.blocks := bs |>).
Proof.
  intros [] Hwf Hs.
  assert (Hse : ∀ j, 0 ≤ j < 6 → same_exps (Frame.blocks f).[j] bs.[j]) by (intros j Hj; unfold same_exps; by rewrite (Hs j Hj)).
  assert (Hfb : ∀ k c i, 0 ≤ k < 6 → fbap (f <| Frame.blocks := bs |>) k c i = fbap f k c i)
    by (intros k c i Hk; unfold fbap; simpl; by rewrite (Hs k Hk)).
  split; simpl; try done.
  - destruct fc_ok0. split; try done. apply (blocks_ok_kept (Frame.blocks f)); [done|done|]. intros k Hk. simpl. by rewrite (Hs k Hk).
  - intros k Hk. rewrite (Hs k Hk). by apply fc_num0.
  - intros k Hk. rewrite (Hs k Hk). by apply fc_coef0.
  - intros k c Hk Hc. eapply channel_exponents_same; [done|exact Hse|by apply fc_exps0].
  - rewrite fc_exp_bits0. symmetry. by apply exp_bits_same.
  - rewrite fc_frame_bits0. symmetry. apply fixed_bits_ext. intros k Hk. by rewrite (Hs k Hk).
  - rewrite fc_mant_bits0. symmetry. apply frame_mant_bits_ext. intros k c i Hk Hc Hi. by apply Hfb.
  - intros k c i Hk Hc Hi. rewrite Hfb, fc_bap0 by done. symmetry. apply alloc_bap_ext; [done|].
    intros j Hj. unfold bstr. by rewrite (Hs j Hj).
  - intros k Hk. apply (gains_done_ext ctx (Frame.blocks f)); [done| |by apply fc_gains0]. intros j Hj. by rewrite (Hs j Hj).
Qed.

(** The mantissas of a block, by its own pointers and exponents. *)
Definition mantissas_coded (f : Frame.t) : Prop :=
  ∀ k, 0 ≤ k < 6 → mantissas_ok n (Frame.ncoefs f) (Frame.blocks f).[k] (Frame.blocks f).[k].

Lemma mantissas_ok_self nc b b' : mantissas_ok n nc b b' → mantissas_ok n nc b' b'.
Proof.
  intros [Hs Hp Hg Hb].
  assert (Hbap : block_bap b' = block_bap b) by (unfold block_bap; by rewrite Hs).
  assert (Hco : block_coef b' = block_coef b) by (unfold block_coef; by rewrite Hs).
  assert (Hex : block_exp b' = block_exp b) by (unfold block_exp; by rewrite Hs).
  split; rewrite ?Hbap, ?Hco, ?Hex; try done. by destruct b'.
Qed.

Lemma coded_packable fc f : frame_coded ctx fc f → mantissas_coded f → packable ctx f.
Proof.
  intros [] Hm. pose proof fc_ok0 as [Hb _ Hrm Hnl _ _]. destruct Hcx. split; try assumption; [by apply blocks_ok_wf|..].
  - intros k c Hk Hc. by apply (fc_exps0 k c).
  - intros k c Hk Hc. pose proof (ce_groups _ _ _ _ _ (fc_exps0 k c Hk Hc)) as [Hnew Hre].
    destruct (Z.eqb_spec (bstr (Frame.blocks f) k c) EXP_REUSE) as [He|He]; [by apply Hre|by apply Hnew].
  - intros k c i Hk Hc Hi. rewrite fc_bap0 by done. apply alloc_bap_range.
  - intros k Hk. exact (mo_bits _ _ _ _ (Hm k Hk)).
Qed.

Lemma quantize_step fc tctx :
  frame_coded ctx fc (TCtx.frame tctx) →
  wp (on_frame (quantize_mantissas ctx) tctx) (λ t, ∃ bs, t = put_frame ((TCtx.frame tctx) <| Frame.blocks := bs |>) tctx ∧
    frame_coded ctx fc (TCtx.frame t) ∧ mantissas_coded (TCtx.frame t)).
Proof.
  intros Hc. unfold on_frame. apply wp_bind.
  eapply wp_mono; [apply quantize_mantissas_spec; [by apply blocks_ok_wf, fo_blocks, (fc_ok _ _ _ Hc)|by apply (coded_ready fc)]|].
  intros f' (bs & -> & Hwf & Hq). apply wp_ret. exists bs. split; [done|]. split.
  - apply (quantized_coded fc (TCtx.frame tctx) bs); [done|done|]. intros k Hk. by destruct (Hq k Hk).
  - intros k Hk. change (mantissas_ok n (Frame.ncoefs (TCtx.frame tctx)) bs.[k] bs.[k]).
    apply (mantissas_ok_self _ (Frame.blocks (TCtx.frame tctx)).[k]), mantissas_ok_of; [by apply (coded_ready fc)|by apply Hq].
Qed.

Lemma pack_frame_spec fc tctx buf :
  crc_init crc16tab_zero = Some tab →
  frame_coded ctx fc (TCtx.frame tctx) → A52_MAX_CODED_FRAME_SIZE ≤ zlen buf → Forall byte buf →
  wp (pack_frame tab ctx tctx buf) (λ '(tctx', m), let f := TCtx.frame tctx' in
    frame_coded ctx fc f ∧ mantissas_coded f ∧ frame_written ctx f buf m ∧
    Frame.ncoefs f = Frame.ncoefs (TCtx.frame tctx) ∧ Frame.frame_size f = Frame.frame_size (TCtx.frame tctx) ∧
    TCtx.framesize tctx' = 2 * Frame.frame_size f ∧
    TCtx.bit_cnt tctx' = u32 (TCtx.bit_cnt tctx + Frame.frame_size f * 16) ∧
    TCtx.sample_cnt tctx' = u32 (TCtx.sample_cnt tctx + 1536) ∧
    TCtx.last_quality tctx' = TCtx.last_quality tctx ∧
    TCtx.status tctx' = Status.mk (Frame.quality f) (Frame.bit_rate f) (Frame.bwcode f)).
Proof.
  intros Htab Hc Hlen Hbyte. unfold pack_frame. apply wp_bind. eapply wp_mono; [exact (quantize_step fc tctx Hc)|].
  intros t0 (bs & -> & Hcf & Hm). pose proof (coded_packable fc _ Hcf Hm) as Hpk.
  pose proof (output_frame_spec tab ctx (count_and_report (put_frame ((TCtx.frame tctx) <| Frame.blocks := bs |>) tctx)) buf
    Htab Hpk Hlen Hbyte) as Hout.
  clear Htab. apply wp_bind. eapply wp_mono; [exact Hout|].
  intros [[t' r] err] (-> & -> & bw & m & -> & Hbw & Hwr). cbn [TCtx.bw set const]. rewrite Hbw. apply wp_ret. cbv zeta.
  split; [exact Hcf|]. split; [exact Hm|]. split; [exact Hwr|]. done.
Qed.
End pack.

(** * The whole frame *)

(** A thread context between two frames. *)
Record tctx_ok (ctx : Ctx.t) (tctx : TCtx.t) : Prop := {
  tx_frame : frame_ok (TCtx.frame tctx);
  tx_clock : clock_ok ctx tctx;
  tx_quality : quality_ok ctx tctx
}.

(** What a successful call leaves. *)
Record frame_output `{FloatFormat} (ctx : Ctx.t) (fc : Frame.t) (buf : list Z) (tctx' : TCtx.t) (m : list Z) : Prop := {
  fx_coded : frame_coded ctx fc (TCtx.frame tctx');
  fx_mantissas : mantissas_coded ctx (TCtx.frame tctx');
  fx_written : frame_written ctx (TCtx.frame tctx') buf m;
  fx_framesize : TCtx.framesize tctx' = 2 * Frame.frame_size (TCtx.frame tctx');
  fx_status : TCtx.status tctx' = Status.mk (Frame.quality (TCtx.frame tctx')) (Frame.bit_rate (TCtx.frame tctx')) (Frame.bwcode (TCtx.frame tctx'))
}.

Section whole.
Context `{T : Target} `{FF : FloatFormat} {Ok : FloatOk FF} `{K : Kernels} `{KOk : !KernelsOk} `{LM : LibM} `{R : Residue} {ROk : ResidueOk R}.
Variable ctx : Ctx.t.
Hypothesis Hcx : ctx_ok ctx.
#[local] Abbreviation n := (Ctx.n_all_channels ctx).

Lemma counted_clock t t' :
  clock_ok ctx t → paced ctx t → TCtx.bit_cnt t' = u32 (TCtx.bit_cnt t + Frame.frame_size (TCtx.frame t) * 16) →
  TCtx.sample_cnt t' = u32 (TCtx.sample_cnt t + 1536) → clock_ok ctx t'.
Proof.
  intros [Hb Hs Hd] Hp Hb' Hs'. unfold is_counter in *. split; unfold is_counter.
  - rewrite Hb'. apply Z.mod_pos_bound. lia.
  - rewrite Hs'. apply Z.mod_pos_bound. lia.
  - intros Hm Hz. specialize (Hd Hm Hz). destruct (Hp Hm Hz) as (Hsz & Hlb & Hls). destruct (cx_rate _ Hcx Hm) as (Hbr & Hsr & Hmax & _).
    pose proof (Z.div_mod (Ctx.target_bitrate ctx * 96000) (Ctx.sample_rate ctx) ltac:(lia)) as Hdm. rewrite Hz in Hdm.
    rewrite Hb', Hs', Hsz. set (m := Ctx.target_bitrate ctx * 96000 / Ctx.sample_rate ctx) in *. unfold u32. rewrite !Z.mod_small by lia.
    unfold drift in *. nia.
Qed.

(** The stages after [begin_process_frame], whatever that is. *)
Lemma coded_frame_spec tab t buf :
  crc_init crc16tab_zero = Some tab → EncParams.bwcode (Ctx.params ctx) ≠ -2 → residue_readable (Ctx.fixed_bwcode ctx * 3 + 73) →
  started ctx (TCtx.frame t) → coefs_within n (Frame.blocks (TCtx.frame t)) → clock_ok ctx t → quality_ok ctx t →
  A52_MAX_CODED_FRAME_SIZE ≤ zlen buf → Forall byte buf →
  wp ('(t, r) ← code_frame ctx t;
      if negb (r =? 0) then Some (t <| TCtx.framesize := 0 |>, buf, -1) else
      '(t, m) ← pack_frame tab ctx t buf; Some (t, m, 0))
     (λ '(t', m, r), tctx_ok ctx t' ∧
       ((r = -1 ∧ m = buf ∧ TCtx.framesize t' = 0) ∨
        (r = 0 ∧ ∃ fc, remixed_from ctx (TCtx.frame t) fc ∧ frame_output ctx fc buf t' m))).
Proof.
  intros Htab Hbw Hres Hs Hw Hcl Hq Hlen Hbyte. apply wp_bind. eapply wp_mono.
  { by apply (code_frame_spec ctx Hcx Hbw Hres t). }
  intros [t1 r] (Hr & Hok & Hcl1 & Hq1 & Hgood). cbv beta iota. destruct Hr as [-> | ->].
  - destruct (Hgood eq_refl) as (Hp & fc & Hrem & Hc & _). simpl negb. cbv iota. apply wp_bind.
    eapply wp_mono; [exact (pack_frame_spec ctx tab Hcx fc t1 buf Htab Hc Hlen Hbyte)|]. clear Htab.
    intros [t2 m] (Hc2 & Hm2 & Hwr & _ & Hsz & Hfs & Hb2 & Hs2 & Hl2 & Hst). cbv beta iota. apply wp_ret. split.
    + split; [apply (fc_ok _ _ _ Hc2)| |].
      * apply (counted_clock t1); [done|done|by rewrite <- Hsz|done].
      * unfold quality_ok. rewrite Hl2. exact Hq1.
    + right. split; [done|]. exists fc. split; [done|]. by split.
  - simpl negb. cbv iota. apply wp_ret. clear Htab. split; [|by left]. destruct Hcl1. split; [exact Hok| |exact Hq1]. by split.
Qed.

Lemma process_frame_spec tab buffer au t buf :
  crc_init crc16tab_zero = Some tab → EncParams.bwcode (Ctx.params ctx) ≠ -2 → residue_readable (Ctx.fixed_bwcode ctx * 3 + 73) →
  tctx_ok ctx t → audio_ok ctx au → zlen buffer = 1536 → signal_ok ctx au (Frame.input_audio (TCtx.frame t)) →
  A52_MAX_CODED_FRAME_SIZE ≤ zlen buf → Forall byte buf →
  wp (process_frame tab (begin_encode_frame ctx buffer) ctx au t buf) (λ '(au', t', m, r),
    tctx_ok ctx t' ∧ ∃ fb, begun ctx au (Frame.input_audio (TCtx.frame t)) au' fb ∧
    ((r = -1 ∧ m = buf ∧ TCtx.framesize t' = 0) ∨ (r = 0 ∧ ∃ fc, remixed_from ctx fb fc ∧ frame_output ctx fc buf t' m))).
Proof.
  intros Htab Hbw Hres [Hok [Hc1 Hc2 Hc3] Hq] Hau Hbuf Hsig Hlen Hbyte. unfold process_frame. apply wp_bind.
  eapply wp_mono; [by apply frame_init_spec; [exact Hcx|exact Hok]|]. intros [f0 r0] (-> & Hst & Hia). simpl negb. cbv beta iota zeta.
  apply wp_bind. eapply wp_mono.
  { apply (begin_encode_frame_spec ctx buffer au (put_frame f0 t) Hcx Hau Hbuf Hst). simpl. by rewrite Hia. }
  intros [[au1 t1] r1] (-> & f1 & -> & Hbg). simpl negb. cbv iota. simpl in Hbg. rewrite Hia in Hbg.
  pose proof (coded_frame_spec tab (put_frame f1 (put_frame f0 t)) buf Htab Hbw Hres (bg_started _ _ _ _ _ Hbg)
    (bg_within _ _ _ _ _ Hbg) ltac:(by split) Hq Hlen Hbyte) as Hcd. clear Htab.
  apply wp_bind_inv in Hcd. apply wp_bind. eapply wp_mono; [exact Hcd|]. clear Hcd. intros [t2 r2] Hcd. cbv beta iota in *.
  destruct (negb (r2 =? 0)).
  - apply wp_ret. destruct Hcd as [Htx Hout]. split; [exact Htx|]. exists f1. by split.
  - apply wp_bind_inv in Hcd. apply wp_bind. eapply wp_mono; [exact Hcd|]. intros [t3 m] [Htx Hout]. apply wp_ret.
    split; [exact Htx|]. exists f1. by split.
Qed.

(** The counts of a coded frame. *)
Lemma output_counts fc t buf :
  frame_coded ctx fc (TCtx.frame t) → mantissas_coded ctx (TCtx.frame t) →
  A52_MAX_CODED_FRAME_SIZE ≤ zlen buf → Forall byte buf →
  let f := TCtx.frame t in
  let counted := Frame.frame_bits f + Frame.exp_bits f + Frame.mant_bits f - 18 - overcount ctx in
  count_frame_bits ctx f = Some f ∧ counted ≤ 16 * Frame.frame_size f - 18 ∧
  ∃ t1 t2, output_frame_header ctx t buf = Some t1 ∧ output_audio_blocks ctx t1 = Some t2 ∧
    bitwriter_bitcount (TCtx.bw t2) = counted.
Proof.
  intros Hc Hm Hlen Hbyte f counted. pose proof (coded_packable ctx Hcx fc f Hc Hm) as Hpk.
  pose proof (output_fields_count ctx t buf Hpk Hlen Hbyte) as Hw. fold f counted in Hw.
  pose proof (overcount_nonneg ctx). split; [|split].
  - destruct (cx_channels _ Hcx). rewrite count_frame_bits_spec, <- (pk_frame_bits _ _ Hpk) by (apply Hpk || lia). by destruct f.
  - pose proof (pk_fits _ _ Hpk). unfold counted. lia.
  - apply wp_some in Hw as (t2 & Heq & Hcnt).
    destruct (output_frame_header ctx t buf) as [t1|] eqn:Ht1; [|done]. by exists t1, t2.
Qed.
End whole.

(** * Properties *)

(** C1: A call of [process_frame] on a thread context between two frames, with
    the signal below full scale and a bandwidth that is not searched for
    ([bwcode] is not -2), always ends and stays inside its arrays, and
    leaves a thread context between two frames.  Either bit allocation refuses
    the frame: the return value is -1, the frame size 0 and the output buffer
    as it was; or the output buffer holds a whole frame of the reported size:
    its fields, both checksums zero, where the exponents and mantissas code the
    rematrixed transforms of the filtered samples, the pointers are those a
    decoder computes, and the status reports the frame's quality, rate and
    bandwidth. *)
Theorem process_frame_correct `{T : Target} `{FF : FloatFormat} {Ok : FloatOk FF} `{K : Kernels} `{KOk : !KernelsOk} `{LM : LibM}
    `{R : Residue} {ROk : ResidueOk R} tab ctx buffer au tctx buf :
  crc_init crc16tab_zero = Some tab → ctx_ok ctx →
  EncParams.bwcode (Ctx.params ctx) ≠ -2 → residue_readable (Ctx.fixed_bwcode ctx * 3 + 73) →
  tctx_ok ctx tctx → audio_ok ctx au → zlen buffer = 1536 → signal_ok ctx au (Frame.input_audio (TCtx.frame tctx)) →
  A52_MAX_CODED_FRAME_SIZE ≤ zlen buf → Forall byte buf →
  ∃ au' tctx' m r, process_frame tab (begin_encode_frame ctx buffer) ctx au tctx buf = Some (au', tctx', m, r) ∧
    tctx_ok ctx tctx' ∧ ∃ fb, begun ctx au (Frame.input_audio (TCtx.frame tctx)) au' fb ∧
    ((r = -1 ∧ m = buf ∧ TCtx.framesize tctx' = 0) ∨
     (r = 0 ∧ ∃ fc, remixed_from ctx fb fc ∧ frame_output ctx fc buf tctx' m)).
Proof.
  intros Htab Hcx Hbw Hres Htx Hau Hbuf Hsig Hlen Hbyte.
  pose proof (process_frame_spec ctx Hcx tab buffer au tctx buf Htab Hbw Hres Htx Hau Hbuf Hsig Hlen Hbyte) as Hw. clear Htab.
  apply wp_some in Hw as ([[[au' t'] m] r] & Heq & Hout). exists au', t', m, r. split; [exact Heq|exact Hout].
Qed.

(** C31: Bit allocation counts the bits that are written.  When a call of
    [process_frame] succeeds, the frame's count of fixed bits is the one
    [count_frame_bits] gives for it, and putting out its header and its blocks
    takes, by the bit writer's own count, exactly the bits counted for the
    fixed fields, the exponents and the mantissas, less the 18 bits of the end
    of the frame and, without the alternate syntax, the extended information
    that is counted and not sent; that is within the frame's size. *)
Theorem counted_bits_are_written `{T : Target} `{FF : FloatFormat} {Ok : FloatOk FF} `{K : Kernels} `{KOk : !KernelsOk} `{LM : LibM}
    `{R : Residue} {ROk : ResidueOk R} tab ctx buffer au tctx buf :
  crc_init crc16tab_zero = Some tab → ctx_ok ctx →
  EncParams.bwcode (Ctx.params ctx) ≠ -2 → residue_readable (Ctx.fixed_bwcode ctx * 3 + 73) →
  tctx_ok ctx tctx → audio_ok ctx au → zlen buffer = 1536 → signal_ok ctx au (Frame.input_audio (TCtx.frame tctx)) →
  A52_MAX_CODED_FRAME_SIZE ≤ zlen buf → Forall byte buf →
  ∃ au' tctx' m r, process_frame tab (begin_encode_frame ctx buffer) ctx au tctx buf = Some (au', tctx', m, r) ∧
    (r = 0 →
     let f := TCtx.frame tctx' in
     let counted := Frame.frame_bits f + Frame.exp_bits f + Frame.mant_bits f - 18 - overcount ctx in
     count_frame_bits ctx f = Some f ∧ counted ≤ 16 * Frame.frame_size f - 18 ∧
     ∃ t1 t2, output_frame_header ctx tctx' buf = Some t1 ∧ output_audio_blocks ctx t1 = Some t2 ∧
       bitwriter_bitcount (TCtx.bw t2) = counted).
Proof.
  intros Htab Hcx Hbw Hres Htx Hau Hbuf Hsig Hlen Hbyte.
  pose proof (process_frame_spec ctx Hcx tab buffer au tctx buf Htab Hbw Hres Htx Hau Hbuf Hsig Hlen Hbyte) as Hw. clear Htab.
  apply wp_some in Hw as ([[[au' t'] m] r] & Heq & _ & fb & _ & Hout). exists au', t', m, r. split; [exact Heq|].
  intros ->. destruct Hout as [[? _]|(_ & fc & _ & [Hc Hm _ _ _])]; [done|]. exact (output_counts ctx Hcx fc t' buf Hc Hm Hlen Hbyte).
Qed.

(** C36: Constant bit rate.  From counters whose drift (bits ahead of samples)
    is within one word, in either direction, and with the minimal size that the
    start of a frame sets, [adjust_frame_size] ends and gives the frame its
    minimal size or one word more; it changes the counters without changing
    their drift.  After the frame is counted the drift is within two words; and
    when the two 32-bit products that are compared have wrapped around equally
    often, the word was added exactly when the bits were behind, and the drift
    is again within one word. *)
Theorem rate_control_invariant ctx tctx :
  let f := TCtx.frame tctx in
  let kbps := Frame.bit_rate f * 1000 in let srate := Ctx.sample_rate ctx in let word := 16 * srate in
  0 < Frame.bit_rate f ≤ 640 → 0 < srate ≤ 48000 →
  is_counter (TCtx.bit_cnt tctx) → is_counter (TCtx.sample_cnt tctx) →
  Frame.frame_size_min f = Z.quot (Frame.bit_rate f * 96000) srate →
  let drift_of t := drift kbps srate (TCtx.bit_cnt t, TCtx.sample_cnt t) in
  - word ≤ drift_of tctx ≤ word →
  ∃ t, adjust_frame_size ctx tctx = Some t ∧ drift_of t = drift_of tctx ∧
    let size := Frame.frame_size (TCtx.frame t) in let t' := count_and_report t in
    Frame.frame_size_min f ≤ size ≤ Frame.frame_size_min f + 1 ∧
    - (2 * word) ≤ drift_of t' ≤ 2 * word ∧
    ((TCtx.bit_cnt t * srate) / 2 ^ 32 = (TCtx.sample_cnt t * kbps) / 2 ^ 32 →
     (size = Frame.frame_size_min f + 1 ↔ drift_of t < 0) ∧ - word ≤ drift_of t' ≤ word).
Proof.
  intros f kbps srate word Hbr Hsr Hb Hs Hmin drift_of Hd.
  assert (Hm : 0 ≤ Frame.frame_size_min f ≤ 61440000).
  { rewrite Hmin, Z.quot_div_nonneg by lia. split; [apply Z.div_pos; lia|]. apply Z.div_le_upper_bound; unfold srate in *; nia. }
  pose proof (adjust_frame_size_spec ctx tctx) as Hw. cbv zeta in Hw. fold f kbps srate in Hw.
  specialize (Hw ltac:(lia) ltac:(lia) Hb Hs ltac:(lia)).
  apply wp_some in Hw as (t & Heq & q & b & s & Hq & _ & _ & Hcb & Hcs & Hlt & Hdr & Ht).
  exists t. split; [exact Heq|].
  assert (Hdt : drift_of t = drift kbps srate (b, s)) by (unfold drift_of; by rewrite Ht).
  rewrite Hdr in Hdt. change (drift_of t = drift_of tctx) in Hdt. split; [exact Hdt|]. unfold is_counter in *.
  destruct (reduced_small kbps srate word b s) as [Hsb Hss]; [lia|lia|lia|lia|lia|done|by rewrite Hdr|].
  pose proof (behind_true kbps srate b s) as Htrue. rewrite Hdr in Htrue. fold (drift_of tctx) in Htrue, Hdr.
  set (add := Z.b2z (behind kbps srate (b, s))) in *.
  assert (Hadd : 0 ≤ add ≤ 1) by (unfold add; destruct (behind _ _ _); simpl; lia).
  assert (Hdt' : drift_of (count_and_report t) = drift_of tctx - 16 * ((Frame.bit_rate f * 96000) mod srate) + word * add).
  { unfold word. rewrite <- Hdr. unfold kbps. rewrite <- (drift_count_frame (Frame.bit_rate f) srate add b s), <- Hmin by lia.
    unfold drift_of, count_and_report, count_frame, A52_SAMPLES_PER_FRAME. rewrite Ht.
    cbn [TCtx.bit_cnt TCtx.sample_cnt TCtx.frame Frame.frame_size set const]. unfold u32.
    rewrite !Z.mod_small by lia. f_equal. f_equal. lia. }
  pose proof (Z.mod_pos_bound (Frame.bit_rate f * 96000) srate ltac:(lia)) as Hmod.
  assert (Hsize : Frame.frame_size (TCtx.frame t) = Frame.frame_size_min f + add) by (by rewrite Ht).
  cbv zeta. rewrite Hdt', Hsize, Hdt. split; [lia|]. split; [unfold word in *; nia|].
  replace (TCtx.bit_cnt t) with b by (by rewrite Ht). replace (TCtx.sample_cnt t) with s by (by rewrite Ht).
  intros Hwrap. specialize (Htrue Hwrap). unfold add in *. rewrite Htrue in *.
  destruct (Z.ltb_spec (drift_of tctx) 0); cbn [Z.b2z] in *; unfold word in *; split; lia.
Qed.

(** * Witnesses *)

(** A stereo context at 192 kbit/s without filters, and a silent frame. *)
Definition silent_ctx : Ctx.t := filtering_ctx <| Ctx.params := EncParams.mk 0 1 0 0 0 0 192 240 (-1) 0 8 5 0 60 |>.
Definition silent_audio : Audio.t := filtering_audio.
Definition silent_tctx : TCtx.t := {|
  TCtx.thread_num := 0; TCtx.framesize := 0; TCtx.status := Status.mk 0 0 0; TCtx.frame := zero_frame;
  TCtx.bw := bitwriter_init None 0; TCtx.bit_cnt := 0; TCtx.sample_cnt := 0; TCtx.last_quality := 240 |}.
(** A window that leaves the samples alone and transforms of silence. *)
Definition silent_kernels : Kernels := {|
  k_apply_window := Some; k_mdct_256 := λ _ xs, Some (replicate 256 zero_float, xs); k_mdct_512 := λ _ xs, Some (replicate 256 zero_float, xs) |}.
Lemma silent_kernels_ok : KernelsOk (H := silent_kernels).
Proof. split; simpl; intros; repeat eexists; done. Qed.

Lemma silent_ctx_ok : ctx_ok silent_ctx.
Proof.
  split; [by split; simpl; lia|simpl; lia|intros _; simpl; lia|simpl; lia|simpl; lia|by left|simpl; lia|simpl; lia|simpl; lia|simpl; lia|].
  intros _. vm_compute. intuition congruence.
Qed.

Lemma zero_frame_ok : frame_ok zero_frame.
Proof.
  split; try reflexivity; [|exact (dim2_replicate 6 1536 _)|exact (dim2_replicate 6 6 _)].
  split; [reflexivity|]. intros k Hk. change (Frame.blocks zero_frame) with (replicate 6 zero_block). rewrite at_replicate by lia.
  split; [exact zero_block_wf|exact (dim2_replicate 6 512 _)|exact (dim2_replicate 6 512 _)].
Qed.

Lemma silent_tctx_ok : tctx_ok silent_ctx silent_tctx.
Proof.
  split; [exact zero_frame_ok| |].
  - split; [by vm_compute|by vm_compute|by intros _ _].
  - intros _. simpl. lia.
Qed.

Lemma silent_audio_ok : audio_ok silent_ctx silent_audio.
Proof. split; try done; try exact (dim2_replicate 6 _ _). Qed.

Lemma silent_signal au audio : signal_ok (FF := single_format) (K := silent_kernels) (LM := quiet) silent_ctx au audio.
Proof.
  intros bs _ _. split; [by left|]. intros k c i Hk Hc Hi.
  assert (Hz : fst (transform_of (FF := single_format) (K := silent_kernels) silent_ctx bs.[k] c) = replicate 256 zero_float)
    by (unfold transform_of; by destruct (_ =? 0)).
  rewrite Hz, at_replicate by lia. done.
Qed.

Lemma process_frame_correct_witness :
  ∃ tab au' tctx' m r, process_frame (T := little_endian) (FF := single_format) (R := trapping_residue) tab
      (begin_encode_frame (FF := single_format) (K := silent_kernels) (LM := quiet) silent_ctx (replicate 1536 zero_float))
      silent_ctx silent_audio silent_tctx (replicate 3840 0) = Some (au', tctx', m, r) ∧ tctx_ok silent_ctx tctx'.
Proof.
  destruct (process_frame_correct (T := little_endian) (FF := single_format) (Ok := single_ok) (K := silent_kernels) (KOk := silent_kernels_ok)
    (LM := quiet) (R := trapping_residue) (ROk := trapping_residue_ok) tab_after_init silent_ctx (replicate 1536 zero_float) silent_audio silent_tctx
    (replicate 3840 0)) as (au' & t' & m & r & Heq & Htx & _).
  - vm_compute. reflexivity.
  - exact silent_ctx_ok.
  - discriminate.
  - left. vm_compute. discriminate.
  - exact silent_tctx_ok.
  - exact silent_audio_ok.
  - reflexivity.
  - exact (silent_signal _ _).
  - discriminate.
  - apply Forall_replicate. unfold byte. lia.
  - exists tab_after_init, au', t', m, r. split; [exact Heq|exact Htx].
Defined.

Lemma counted_bits_are_written_witness :
  ∃ tab au' tctx' m r, process_frame (T := little_endian) (FF := single_format) (R := trapping_residue) tab
      (begin_encode_frame (FF := single_format) (K := silent_kernels) (LM := quiet) silent_ctx (replicate 1536 zero_float))
      silent_ctx silent_audio silent_tctx (replicate 3840 0) = Some (au', tctx', m, r) ∧
    (r = 0 → count_frame_bits silent_ctx (TCtx.frame tctx') = Some (TCtx.frame tctx')).
Proof.
  destruct (counted_bits_are_written (T := little_endian) (FF := single_format) (Ok := single_ok) (K := silent_kernels) (KOk := silent_kernels_ok)
    (LM := quiet) (R := trapping_residue) (ROk := trapping_residue_ok) tab_after_init silent_ctx (replicate 1536 zero_float) silent_audio silent_tctx
    (replicate 3840 0)) as (au' & t' & m & r & Heq & Hcnt).
  - vm_compute. reflexivity.
  - exact silent_ctx_ok.
  - discriminate.
  - left. vm_compute. discriminate.
  - exact silent_tctx_ok.
  - exact silent_audio_ok.
  - reflexivity.
  - exact (silent_signal _ _).
  - discriminate.
  - apply Forall_replicate. unfold byte. lia.
  - exists tab_after_init, au', t', m, r. split; [exact Heq|]. intros Hr. exact (proj1 (Hcnt Hr)).
Defined.

(** A second and a frame into a stream at 44100 Hz and 256 kbit/s. *)
Definition second_tctx : TCtx.t := rate_tctx <| TCtx.bit_cnt := 264912 |> <| TCtx.sample_cnt := 45636 |>.

Lemma rate_control_invariant_witness :
  let drift_of t := drift 256000 44100 (TCtx.bit_cnt t, TCtx.sample_cnt t) in
  drift_of second_tctx < 0 ∧
  ∃ t, adjust_frame_size rate_ctx second_tctx = Some t ∧ drift_of t = drift_of second_tctx ∧
    - (2 * 705600) ≤ drift_of (count_and_report t) ≤ 2 * 705600.
Proof.
  split; [by vm_compute|].
  destruct (rate_control_invariant rate_ctx second_tctx) as (t & Heq & Hd & _ & Hd2 & _); unfold is_counter; simpl; try lia.
  - vm_compute. split; discriminate.
  - exists t. split; [exact Heq|]. split; [exact Hd|exact Hd2].
Defined.
