(* ===== verification/Init.v ===== *)
(** [aften_set_defaults] and [aften_encode_init] of [libaften/a52enc.c]: the
    checks of the parameters, the encoder's context, its filters and tables and
    the contexts of the threads.  The theorems say which parameters are
    accepted, that every accepted set of consistent parameters gives an encoder
    that is ready for frames, and which inconsistent ones are accepted too. *)
From Stdlib Require Import ZArith Lia ZifyBool Bool.
From stdpp Require Import base option list numbers.
From coqutil Require Import Datatypes.RecordSettersUsingExistingGetters.
From S2P Require Import Prelude CMachine Float FloatExact BitIO Crc Tables Types A52 Exponent.
From S2P Require Import Filter Convert Window Samples Coefs Mdct Rate Process.
Local Open Scope Z_scope.
Local Open Scope carray_scope.

(** * Defaults *)

(** [aften_set_defaults], without the detection of the processor; the fields
    that must be set afterwards are -1. *)
Definition aften_set_defaults : AftenContext.t := {|
  AftenContext.params := {|
    EncParams.encoding_mode := AFTEN_ENC_MODE_CBR; EncParams.use_rematrixing := 1; EncParams.use_block_switching := 0;
    EncParams.use_dc_filter := 0; EncParams.use_bw_filter := 0; EncParams.use_lfe_filter := 0;
    EncParams.bitrate := 0; EncParams.quality := 240; EncParams.bwcode := -1; EncParams.bitalloc_fast := 0;
    EncParams.expstr_search := 8; EncParams.dynrng_profile := DYNRNG_PROFILE_NONE;
    EncParams.min_bwcode := 0; EncParams.max_bwcode := 60 |};
  AftenContext.meta := {|
    Metadata.cmixlev := 0; Metadata.surmixlev := 0; Metadata.dsurmod := 0; Metadata.dialnorm := 31;
    Metadata.xbsi1e := 0; Metadata.dmixmod := 0; Metadata.ltrtcmixlev := 4; Metadata.ltrtsmixlev := 4;
    Metadata.lorocmixlev := 4; Metadata.lorosmixlev := 4; Metadata.xbsi2e := 0; Metadata.dsurexmod := 0;
    Metadata.dheadphonmod := 0; Metadata.adconvtyp := 0 |};
  AftenContext.status := Status.mk 0 0 0;
  AftenContext.n_threads := 0; AftenContext.mode := AFTEN_ENCODE; AftenContext.verbose := 1;
  AftenContext.channels := -1; AftenContext.acmod := -1; AftenContext.lfe := -1; AftenContext.samplerate := -1;
  AftenContext.sample_format := A52_SAMPLE_FMT_S16 |}.

(** * The checks

    [None] is undefined behaviour, [inl r] an early [return r]. *)

Abbreviation result A := (option (Z + A)).
Definition ok {A : Type} (a : A) : result A := Some (inr a).
Definition refuse {A : Type} : result A := Some (inl (-1)).
Definition rbind {A B : Type} (m : result A) (f : A → result B) : result B :=
  match m with None => None | Some (inl r) => Some (inl r) | Some (inr a) => f a end.
Notation "x ←r m ; k" := (rbind m (λ x, k)) (at level 20, m at level 100, k at level 200, format "x  ←r  m ;  '/' k").
Notation "' x ←r m ; k" := (rbind m (λ x : _, k)) (at level 20, x pattern, m at level 100, k at level 200, only parsing).

(** The zeroed context with the parameters. *)
Definition calloc_ctx (s : AftenContext.t) : Ctx.t := {|
  Ctx.params := AftenContext.params s; Ctx.meta := AftenContext.meta s; Ctx.n_threads := 0;
  Ctx.last_samples_count := 0; Ctx.n_channels := 0; Ctx.n_all_channels := 0; Ctx.acmod := 0; Ctx.lfe := 0;
  Ctx.lfe_channel := 0; Ctx.sample_rate := 0; Ctx.halfratecod := 0; Ctx.bsid := 0; Ctx.fscod := 0; Ctx.bsmod := 0;
  Ctx.target_bitrate := 0; Ctx.frmsizecod := 0; Ctx.fixed_bwcode := 0 |}.

Definition set_channels (s : AftenContext.t) (ctx : Ctx.t) : result Ctx.t :=
  let channels := AftenContext.channels s in
  let lfe := AftenContext.lfe s in
  if (channels <? 1) || (channels >? 6) then refuse else
  if (AftenContext.acmod s <? 0) || (AftenContext.acmod s >? 7) then refuse else
  if (channels =? 6) && (lfe =? 0) then refuse else
  if (channels =? 1) && negb (lfe =? 0) then refuse else
  ok (ctx <| Ctx.acmod := AftenContext.acmod s |> <| Ctx.lfe := lfe |> <| Ctx.n_all_channels := channels |>
          <| Ctx.n_channels := channels - lfe |> <| Ctx.lfe_channel := if lfe =? 0 then -1 else channels - 1 |>).

(** The loops that look for the sample rate; [goto found] leaves both. *)
Definition find_rate (samplerate : Z) : option (option (Z * Z)) :=
  for_break 0 3 (λ i _,
    found ← for_break 0 3 (λ j _,
      r ← aget a52_sample_rate_tab j;
      Some (if Z.shiftr r i =? samplerate then inl (Some (i, j)) else inr None)) None;
    Some (match found with Some _ => inl found | None => inr None end)) None.

Definition set_rate (s : AftenContext.t) (ctx : Ctx.t) : result Ctx.t :=
  found ← find_rate (AftenContext.samplerate s);
  match found with
  | None => refuse
  | Some (i, j) =>
      let bsid := if negb (i =? 0) then 8 + i
        else if negb (Metadata.xbsi1e (Ctx.meta ctx) =? 0) || negb (Metadata.xbsi2e (Ctx.meta ctx) =? 0) then 6 else 8 in
      ok (ctx <| Ctx.sample_rate := AftenContext.samplerate s |> <| Ctx.halfratecod := i |> <| Ctx.fscod := j |>
              <| Ctx.bsid := bsid |> <| Ctx.bsmod := 0 |>)
  end.

Definition default_bitrate (n_channels brate : Z) : Z :=
  if n_channels =? 1 then 96 else if n_channels =? 2 then 192 else if n_channels =? 3 then 256
  else if n_channels =? 4 then 384 else if n_channels =? 5 then 448 else brate.

(** The first entry of the table with the bit rate, or 19. *)
Definition find_bitrate (halfratecod brate : Z) : option Z :=
  for_break 0 19 (λ i _,
    r ← aget a52_bitrate_tab i; Some (if Z.shiftr r halfratecod =? brate then inl i else inr (i + 1))) 0.

Definition set_bitrate (s : AftenContext.t) (ctx : Ctx.t) : result Ctx.t :=
  let mode := EncParams.encoding_mode (Ctx.params ctx) in
  let brate := EncParams.bitrate (AftenContext.params s) in
  let quality := EncParams.quality (AftenContext.params s) in
  brate ←r (if mode =? AFTEN_ENC_MODE_CBR then ok (if brate =? 0 then default_bitrate (Ctx.n_channels ctx) brate else brate)
            else if mode =? AFTEN_ENC_MODE_VBR then (if (quality <? 0) || (quality >? 1023) then refuse else ok brate)
            else refuse);
  i ← find_bitrate (Ctx.halfratecod ctx) brate;
  if (i =? 19) && (mode =? AFTEN_ENC_MODE_CBR) then refuse else
  let i := if i =? 19 then 18 else i in
  r ← aget a52_bitrate_tab i;
  ok (ctx <| Ctx.frmsizecod := i * 2 |> <| Ctx.target_bitrate := Z.shiftr r (Ctx.halfratecod ctx) |>).

Definition check_search (ctx : Ctx.t) : result Ctx.t :=
  let search := EncParams.expstr_search (Ctx.params ctx) in
  if (search <? 1) || (search >? 32) then refuse else ok ctx.

(** The quality at which the first frame's bit allocation starts. *)
Definition initial_quality (ctx : Ctx.t) : option Z :=
  let mode := EncParams.encoding_mode (Ctx.params ctx) in
  if mode =? AFTEN_ENC_MODE_VBR then Some (EncParams.quality (Ctx.params ctx))
  else if mode =? AFTEN_ENC_MODE_CBR then
    if Ctx.n_channels ctx =? 0 then None else
    Some (Z.quot (Z.quot (Ctx.target_bitrate ctx) (Ctx.n_channels ctx) * 35) 24 + 95 + 25 * Ctx.halfratecod ctx)
  else Some 240.

Definition bad_bwcode_range (p : EncParams.t) : bool :=
  (EncParams.min_bwcode p <? 0) || (EncParams.min_bwcode p >? 60) || (EncParams.max_bwcode p <? 0) || (EncParams.max_bwcode p >? 60)
  || (EncParams.min_bwcode p >? EncParams.max_bwcode p).

Definition set_bandwidth (s : AftenContext.t) (last_quality : Z) (ctx : Ctx.t) : result Ctx.t :=
  let p := Ctx.params ctx in
  if (EncParams.bwcode (AftenContext.params s) <? -2) || (EncParams.bwcode (AftenContext.params s) >? 60) then refuse else
  if EncParams.bwcode p <? 0 then
    let cutoff := (last_quality - 120) * 120 + 4000 in
    if Ctx.sample_rate ctx =? 0 then None else
    let bw := Z.quot (Z.quot (cutoff * 512) (Ctx.sample_rate ctx) - 73) 3 in
    if (EncParams.bwcode p =? -2) && (bad_bwcode_range p || (EncParams.encoding_mode p =? AFTEN_ENC_MODE_VBR)) then refuse else
    ok (ctx <| Ctx.fixed_bwcode := CLIP bw (EncParams.min_bwcode p) (EncParams.max_bwcode p) |>)
  else ok (ctx <| Ctx.fixed_bwcode := EncParams.bwcode p |>).

(** Everything up to the filters: the context and the initial quality. *)
Definition configure (s : AftenContext.t) : result (Ctx.t * Z) :=
  if negb (AftenContext.mode s =? AFTEN_ENCODE) then refuse else
  ctx ←r set_channels s (calloc_ctx s);
  ctx ←r set_rate s ctx;
  ctx ←r set_bitrate s (ctx <| Ctx.last_samples_count := -1 |>);
  ctx ←r check_search ctx;
  last_quality ← initial_quality ctx;
  ctx ←r set_bandwidth s last_quality ctx;
  ok (ctx, last_quality).

(** * Filters, tables and threads *)

Module Encoder.
(** What [private_context] points to, with the tables the initialisation
    fills. *)
Record t := mk {
  ctx : Ctx.t;
  audio : Audio.t;
  tctxs : list TCtx.t;
  crc16tab : list Z;
  window : list FLOAT;
  mdct_ctx_512 : MDCTContext;
  mdct_ctx_256 : MDCTContext
}.
End Encoder.

Definition calloc_filter : FilterContext := mk_filter None NoContext FILTER_TYPE_LOWPASS 0 zero zero.
Definition calloc_audio (conv : option converter) : Audio.t := {|
  Audio.fmt_convert_from_src := conv;
  Audio.bs_filter := replicate 6 calloc_filter; Audio.dc_filter := replicate 6 calloc_filter;
  Audio.bw_filter := replicate 6 calloc_filter; Audio.lfe_filter := calloc_filter;
  Audio.last_samples := replicate 6 (replicate 1536 zero_float);
  Audio.last_transient_samples := replicate 6 (replicate 256 zero_float) |}.

Definition MAX_NUM_THREADS : Z := 32.

(** The number of threads; [ncpus] is the result of [get_ncpus]. *)
Definition thread_count (n_threads ncpus : Z) : Z := MIN (if n_threads >? 0 then n_threads else ncpus) MAX_NUM_THREADS.

(** A thread's context: zeroed, but for the buffers of the blocks, which are
    allocated with [heap] in them. *)
Definition thread_context (heap : Z → list (list FLOAT) * list (list FLOAT)) (last_quality j : Z) : TCtx.t := {|
  TCtx.thread_num := j; TCtx.framesize := 0; TCtx.status := Status.mk 0 0 0;
  TCtx.frame := zero_frame <| Frame.blocks := map (λ k, zero_block <| Block.input_samples := fst (heap k) |>
                                                                 <| Block.mdct_coef := snd (heap k) |>) (seqZ 0 6) |>;
  TCtx.bw := bitwriter_init None 0; TCtx.bit_cnt := 0; TCtx.sample_cnt := 0; TCtx.last_quality := last_quality |}.

Section init.
Context `{T : Target} `{FF : FloatFormat} `{LM : LibM}.

Definition request (type : FilterType) (cascaded : Z) (cutoff samplerate : Z) (f : FilterContext) : FilterContext :=
  f <| f_type := type |> <| f_cascaded := cascaded |> <| f_cutoff := F_of_Z cutoff |> <| f_samplerate := F_of_Z samplerate |>.

(** [filter_init] on the first [n] filters of [fs]. *)
Definition init_filters (n : Z) (req : FilterContext → FilterContext) (id : FilterID) (fs : list FilterContext) : result (list FilterContext) :=
  '(fs, failed) ← for_break 0 n (λ i '(fs, _),
    f ← aget fs i;
    let '(f, r) := filter_init (req f) id in
    fs ← aset fs i f;
    Some (if negb (r =? 0) then inl (fs, true) else inr (fs, false))) (fs, false);
  if failed : bool then refuse else ok fs.

Definition no_block_switching (ctx : Ctx.t) : Ctx.t :=
  if Ctx.sample_rate ctx <=? 16000 then ctx <| Ctx.params := (Ctx.params ctx) <| EncParams.use_block_switching := 0 |> |> else ctx.

Definition init_bs (ctx : Ctx.t) (au : Audio.t) : result Audio.t :=
  if EncParams.use_block_switching (Ctx.params ctx) =? 0 then ok au else
  fs ←r init_filters (Ctx.n_all_channels ctx) (request FILTER_TYPE_HIGHPASS 1 8000 (Ctx.sample_rate ctx)) FILTER_ID_BIQUAD_I (Audio.bs_filter au);
  ok (au <| Audio.bs_filter := fs |>).

Definition init_dc (ctx : Ctx.t) (au : Audio.t) : result Audio.t :=
  if EncParams.use_dc_filter (Ctx.params ctx) =? 0 then ok au else
  fs ←r init_filters (Ctx.n_all_channels ctx) (request FILTER_TYPE_HIGHPASS 0 3 (Ctx.sample_rate ctx)) FILTER_ID_ONEPOLE (Audio.dc_filter au);
  ok (au <| Audio.dc_filter := fs |>).

Definition bw_cutoff (ctx : Ctx.t) : Z :=
  let bwcode := if EncParams.bwcode (Ctx.params ctx) =? -2 then EncParams.max_bwcode (Ctx.params ctx) else Ctx.fixed_bwcode ctx in
  Z.quot ((bwcode * 3 + 73) * Ctx.sample_rate ctx) 512.

Definition init_bw (ctx : Ctx.t) (au : Audio.t) : result (Ctx.t * Audio.t) :=
  if EncParams.use_bw_filter (Ctx.params ctx) =? 0 then ok (ctx, au) else
  if bw_cutoff ctx <? 4000 then ok (ctx <| Ctx.params := (Ctx.params ctx) <| EncParams.use_bw_filter := 0 |> |>, au) else
  fs ←r init_filters (Ctx.n_channels ctx) (request FILTER_TYPE_LOWPASS 1 (bw_cutoff ctx) (Ctx.sample_rate ctx)) FILTER_ID_BUTTERWORTH_II (Audio.bw_filter au);
  ok (ctx, au <| Audio.bw_filter := fs |>).

Definition init_lfe (ctx : Ctx.t) (au : Audio.t) : result Audio.t :=
  if EncParams.use_lfe_filter (Ctx.params ctx) =? 0 then ok au else
  if Ctx.lfe ctx =? 0 then refuse else
  let '(f, r) := filter_init (request FILTER_TYPE_LOWPASS 1 120 (Ctx.sample_rate ctx) (Audio.lfe_filter au)) FILTER_ID_BUTTERWORTH_II in
  if negb (r =? 0) then refuse else ok (au <| Audio.lfe_filter := f |>).

Definition init_audio (ctx : Ctx.t) (au : Audio.t) : result (Ctx.t * Audio.t) :=
  let ctx := no_block_switching ctx in
  au ←r init_bs ctx au;
  au ←r init_dc ctx au;
  '(ctx, au) ←r init_bw ctx au;
  au ←r init_lfe ctx au;
  ok (ctx, au).

Definition sizeof_FLOAT : Z := if F_prec =? 24 then 4 else 8.

(** The block of memory that is converted for the samples before the first
    frame: [initial_samples] after silence. *)
Definition initial_block (n_all_channels : Z) (initial_samples : list Z) : option (list Z) :=
  let room := 256 * n_all_channels * sizeof_FLOAT in
  if room <=? zlen initial_samples
  then Some (replicate (Z.to_nat ((A52_SAMPLES_PER_FRAME - 256) * n_all_channels * sizeof_FLOAT)) 0 ++ take (Z.to_nat room) initial_samples)
  else None.

Definition load_initial (ctx : Ctx.t) (buffer : list FLOAT) (initial_samples : list Z) (au : Audio.t) (frame : Frame.t) : option (Audio.t * Frame.t) :=
  samples ← initial_block (Ctx.n_all_channels ctx) initial_samples;
  audio ← convert_samples_from_src (Audio.fmt_convert_from_src au) ctx samples A52_SAMPLES_PER_FRAME (Frame.input_audio frame);
  copy_samples ctx au (frame <| Frame.input_audio := audio |>) buffer.

Definition init_samples (ctx : Ctx.t) (buffer : list FLOAT) (initial_samples : option (list Z)) (au : Audio.t) (tctxs : list TCtx.t)
    : option (Audio.t * list TCtx.t) :=
  match initial_samples with
  | None => Some (au, tctxs)
  | Some samples =>
      t0 ← aget tctxs 0;
      '(au, frame) ← load_initial ctx buffer samples au (TCtx.frame t0);
      tctxs ← aset tctxs 0 (put_frame frame t0);
      Some (au, tctxs)
  end.

(** [aften_encode_init], for a user's context that is not NULL; [heap j] is
    what the memory allocated for thread [j] contains, [buffer] the
    uninitialised array of [copy_samples]. *)
Definition aften_encode_init (s : option AftenContext.t) (ncpus : Z) (heap : Z → Z → list (list FLOAT) * list (list FLOAT))
    (buffer : list FLOAT) (initial_samples : option (list Z)) : result (AftenContext.t * Encoder.t) :=
  match s with None => refuse | Some s =>
  '(mdct512, mdct256) ← mdct_init;
  '(ctx, last_quality) ←r configure s;
  tab ← crc_init crc16tab_zero;
  window ← a52_window_init;
  '(ctx, au) ←r init_audio ctx (calloc_audio (set_converter None (AftenContext.sample_format s)));
  let n := thread_count (AftenContext.n_threads s) ncpus in
  let ctx := ctx <| Ctx.n_threads := n |> in
  let s := s <| AftenContext.n_threads := n |> in
  let tctxs := map (λ j, thread_context (heap j) last_quality j) (seqZ 0 n) in
  '(au, tctxs) ← init_samples ctx buffer initial_samples au tctxs;
  ok (s, Encoder.mk ctx au tctxs tab window mdct512 mdct256)
  end.
End init.

(** * What is accepted *)

(** Total correctness with an early return: [-1] exactly if [E]. *)
Definition wpr {A : Type} (m : result A) (E : Prop) (Q : A → Prop) : Prop :=
  match m with None => False | Some (inl r) => r = -1 ∧ E | Some (inr a) => Q a end.

Lemma wpr_bind {A B : Type} (m : result A) (f : A → result B) E Q :
  wpr m E (λ a, wpr (f a) E Q) → wpr (rbind m f) E Q.
Proof. by destruct m as [[r|a]|]. Qed.
Lemma wpr_mono {A : Type} (m : result A) (E E' : Prop) (P Q : A → Prop) :
  wpr m E P → (E → E') → (∀ a, P a → Q a) → wpr m E' Q.
Proof. destruct m as [[r|a]|]; simpl; [intros [? ?]; auto|auto|done]. Qed.
Lemma wpr_option {A B : Type} (m : option A) (f : A → result B) E Q : wp m (λ a, wpr (f a) E Q) → wpr (m ≫= f) E Q.
Proof. by destruct m. Qed.
Lemma wpr_ok {A : Type} (a : A) E (Q : A → Prop) : Q a → wpr (ok a) E Q.
Proof. done. Qed.
Lemma wpr_refuse {A : Type} (E : Prop) (Q : A → Prop) : E → wpr refuse E Q.
Proof. done. Qed.

Lemma wpr_cases {A : Type} (m : result A) E Q : wpr m E Q → (m = Some (inl (-1)) ∧ E) ∨ ∃ a, m = Some (inr a) ∧ Q a.
Proof. destruct m as [[r|a]|]; simpl; [intros [-> ?]; by left|intros; right; by exists a|done]. Qed.

(** The sample rates, and how often the first one in the search is halved. *)
Definition has_rate (i r : Z) : bool := existsb (λ j, Z.shiftr a52_sample_rate_tab.[j] i =? r) [0; 1; 2].
Definition halvings (r : Z) : Z := if has_rate 0 r then 0 else if has_rate 1 r then 1 else 2.
Definition known_rate (r : Z) : bool := has_rate 0 r || has_rate 1 r || has_rate 2 r.

Lemma has_rate_true i r : has_rate i r = true → ∃ j, 0 ≤ j < 3 ∧ Z.shiftr a52_sample_rate_tab.[j] i = r.
Proof.
  unfold has_rate. rewrite existsb_exists. intros (j & Hj & He). exists j. split; [|lia].
  simpl in Hj. lia.
Qed.
Lemma has_rate_false i r j : has_rate i r = false → 0 ≤ j < 3 → Z.shiftr a52_sample_rate_tab.[j] i ≠ r.
Proof.
  intros Hf Hj He. assert (Ht : has_rate i r = true); [|congruence]. unfold has_rate. apply existsb_exists. exists j.
  split; [|lia]. assert (j = 0 ∨ j = 1 ∨ j = 2) as [-> |[-> | ->]] by lia; simpl; auto.
Qed.

Lemma find_rate_spec r :
  wp (find_rate r) (λ o, match o with
    | Some (i, j) => known_rate r = true ∧ i = halvings r ∧ 0 ≤ j < 3 ∧ Z.shiftr a52_sample_rate_tab.[j] i = r
    | None => known_rate r = false end).
Proof.
  unfold find_rate.
  apply (wp_for_break (λ i o, o = None ∧ ∀ k, 0 ≤ k < i → has_rate k r = false)); [lia|split; [done|lia]| |].
  - intros i o Hi (-> & Hno). apply wp_bind.
    apply (wp_mono _ (λ o, match o with Some (i', j) => i' = i ∧ 0 ≤ j < 3 ∧ Z.shiftr a52_sample_rate_tab.[j] i = r
                                      | None => has_rate i r = false end)).
    + apply (wp_for_break (λ j o, o = None ∧ ∀ k, 0 ≤ k < j → Z.shiftr a52_sample_rate_tab.[k] i ≠ r)); [lia|split; [done|lia]| |].
      * intros j o Hj (-> & Hk). apply wp_bind, wp_aget; [change (zlen a52_sample_rate_tab) with 3; lia|]. apply wp_ret.
        destruct (Z.eqb_spec (Z.shiftr a52_sample_rate_tab.[j] i) r) as [He|He]; [done|]. split; [done|].
        intros k Hk'. destruct (Z.eq_dec k j) as [-> |]; [done|]. apply Hk. lia.
      * intros o (-> & Hk). destruct (has_rate i r) eqn:Hh; [|done]. apply has_rate_true in Hh as (j & Hj & He).
        by destruct (Hk j Hj).
    + intros [[i' j]|] Ho; apply wp_ret.
      * destruct Ho as (-> & Hj & He).
        assert (Hh : has_rate i r = true).
        { destruct (has_rate i r) eqn:Hf; [done|]. by destruct (has_rate_false i r j Hf Hj). }
        assert (Hi' : i = 0 ∨ i = 1 ∨ i = 2) by lia. unfold known_rate, halvings. destruct Hi' as [-> |[-> | ->]].
        -- by rewrite Hh.
        -- by rewrite (Hno 0 ltac:(lia)), Hh.
        -- by rewrite (Hno 0 ltac:(lia)), (Hno 1 ltac:(lia)), Hh.
      * split; [done|]. intros k Hk. destruct (Z.eq_dec k i) as [-> |]; [done|]. apply Hno. lia.
  - intros o (-> & Hno). unfold known_rate. by rewrite !Hno by lia.
Qed.

(** The bit rates of the table at a halved sample rate. *)
Definition known_bitrate (h b : Z) : bool := existsb (λ i, Z.shiftr a52_bitrate_tab.[i] h =? b) (seqZ 0 19).

Lemma find_bitrate_spec h b :
  wp (find_bitrate h b) (λ i, 0 ≤ i ≤ 19 ∧ (i = 19 ↔ known_bitrate h b = false) ∧ (i < 19 → Z.shiftr a52_bitrate_tab.[i] h = b)).
Proof.
  unfold find_bitrate, known_bitrate.
  apply (wp_for_break (λ i i', i' = i ∧ ∀ k, 0 ≤ k < i → Z.shiftr a52_bitrate_tab.[k] h ≠ b)); [lia|split; [done|lia]| |].
  - intros i i' Hi (-> & Hno). apply wp_bind, wp_aget; [change (zlen a52_bitrate_tab) with 19; lia|]. apply wp_ret.
    destruct (Z.eqb_spec (Z.shiftr a52_bitrate_tab.[i] h) b) as [He|He].
    + split; [lia|]. split; [|done]. split; [lia|]. intros Hf.
      assert (Ht : existsb (λ i, Z.shiftr a52_bitrate_tab.[i] h =? b) (seqZ 0 19) = true); [|congruence].
      apply existsb_exists. exists i. split; [|lia]. apply list_elem_of_In, elem_of_seqZ. lia.
    + split; [done|]. intros k Hk. destruct (Z.eq_dec k i) as [-> |]; [done|]. apply Hno. lia.
  - intros i (-> & Hno). split; [lia|]. split; [|lia]. split; [|done]. intros _.
    destruct (existsb _ _) eqn:He; [|done]. apply existsb_exists in He as (k & Hk & He).
    apply list_elem_of_In, elem_of_seqZ in Hk. destruct (Hno k); lia.
Qed.

(** ** The checks as one condition *)

Definition good_channels (s : AftenContext.t) : bool :=
  let channels := AftenContext.channels s in let lfe := AftenContext.lfe s in
  (1 <=? channels) && (channels <=? 6) && (0 <=? AftenContext.acmod s) && (AftenContext.acmod s <=? 7) &&
  negb ((channels =? 6) && (lfe =? 0)) && negb ((channels =? 1) && negb (lfe =? 0)).

(** The bit rate asked for, or the default. *)
Definition wanted_bitrate (s : AftenContext.t) : Z :=
  let b := EncParams.bitrate (AftenContext.params s) in
  if b =? 0 then default_bitrate (AftenContext.channels s - AftenContext.lfe s) b else b.

Definition good_mode (s : AftenContext.t) : bool :=
  let p := AftenContext.params s in
  if EncParams.encoding_mode p =? AFTEN_ENC_MODE_CBR then known_bitrate (halvings (AftenContext.samplerate s)) (wanted_bitrate s)
  else (EncParams.encoding_mode p =? AFTEN_ENC_MODE_VBR) && (0 <=? EncParams.quality p) && (EncParams.quality p <=? 1023).

Definition good_bandwidth (s : AftenContext.t) : bool :=
  let p := AftenContext.params s in
  (-2 <=? EncParams.bwcode p) && (EncParams.bwcode p <=? 60) &&
  negb ((EncParams.bwcode p =? -2) && (bad_bwcode_range p || (EncParams.encoding_mode p =? AFTEN_ENC_MODE_VBR))).

Definition accepted (s : AftenContext.t) : bool :=
  (AftenContext.mode s =? AFTEN_ENCODE) && good_channels s && known_rate (AftenContext.samplerate s) && good_mode s &&
  (1 <=? EncParams.expstr_search (AftenContext.params s)) && (EncParams.expstr_search (AftenContext.params s) <=? 32) && good_bandwidth s.

(** The context of accepted parameters. *)
Record configured (s : AftenContext.t) (ctx : Ctx.t) (last_quality : Z) : Prop := {
  cf_params : Ctx.params ctx = AftenContext.params s;
  cf_meta : Ctx.meta ctx = AftenContext.meta s;
  cf_last : Ctx.last_samples_count ctx = -1;
  cf_acmod : Ctx.acmod ctx = AftenContext.acmod s;
  cf_lfe : Ctx.lfe ctx = AftenContext.lfe s;
  cf_channels : Ctx.n_all_channels ctx = AftenContext.channels s ∧ Ctx.n_channels ctx = AftenContext.channels s - AftenContext.lfe s ∧
    Ctx.lfe_channel ctx = if AftenContext.lfe s =? 0 then -1 else AftenContext.channels s - 1;
  cf_rate : Ctx.sample_rate ctx = AftenContext.samplerate s ∧ Ctx.halfratecod ctx = halvings (AftenContext.samplerate s) ∧
    0 ≤ Ctx.fscod ctx < 3 ∧ Z.shiftr a52_sample_rate_tab.[Ctx.fscod ctx] (Ctx.halfratecod ctx) = Ctx.sample_rate ctx;
  cf_bsid : Ctx.bsid ctx = if negb (Ctx.halfratecod ctx =? 0) then 8 + Ctx.halfratecod ctx
    else if negb (Metadata.xbsi1e (Ctx.meta ctx) =? 0) || negb (Metadata.xbsi2e (Ctx.meta ctx) =? 0) then 6 else 8;
  cf_bitrate : ∃ i, 0 ≤ i < 19 ∧ Ctx.frmsizecod ctx = 2 * i ∧ Ctx.target_bitrate ctx = Z.shiftr a52_bitrate_tab.[i] (halvings (AftenContext.samplerate s)) ∧
    (EncParams.encoding_mode (AftenContext.params s) = AFTEN_ENC_MODE_CBR → Ctx.target_bitrate ctx = wanted_bitrate s);
  cf_quality : initial_quality ctx = Some last_quality;
  cf_bwcode : let p := AftenContext.params s in Ctx.fixed_bwcode ctx = if EncParams.bwcode p <? 0
    then CLIP (Z.quot (Z.quot (((last_quality - 120) * 120 + 4000) * 512) (AftenContext.samplerate s) - 73) 3) (EncParams.min_bwcode p) (EncParams.max_bwcode p)
    else EncParams.bwcode p
}.

Lemma set_bitrate_spec s ctx :
  Ctx.params ctx = AftenContext.params s → Ctx.halfratecod ctx = halvings (AftenContext.samplerate s) →
  Ctx.n_channels ctx = AftenContext.channels s - AftenContext.lfe s →
  wpr (set_bitrate s ctx) (good_mode s = false) (λ ctx', good_mode s = true ∧ ∃ i b,
    ctx' = ctx <| Ctx.frmsizecod := i * 2 |> <| Ctx.target_bitrate := b |> ∧ 0 ≤ i < 19 ∧
    b = Z.shiftr a52_bitrate_tab.[i] (halvings (AftenContext.samplerate s)) ∧
    (EncParams.encoding_mode (AftenContext.params s) = AFTEN_ENC_MODE_CBR → b = wanted_bitrate s)).
Proof.
  intros Hp Hh Hn. unfold set_bitrate. cbv zeta. rewrite Hp, Hh, Hn. unfold good_mode, wanted_bitrate. cbv zeta.
  set (p := AftenContext.params s). set (h := halvings _). set (d := default_bitrate _ _).
  assert (Hend : ∀ i, 0 ≤ i < 19 → ∀ (Q : Ctx.t → Prop) E, Q (ctx <| Ctx.frmsizecod := i * 2 |> <| Ctx.target_bitrate := Z.shiftr a52_bitrate_tab.[i] h |>) →
    wpr (r ← aget a52_bitrate_tab i; ok (ctx <| Ctx.frmsizecod := i * 2 |> <| Ctx.target_bitrate := Z.shiftr r h |>)) E Q).
  { intros i Hi Q E HQ. rewrite aget_at by (change (zlen a52_bitrate_tab) with 19; lia). exact HQ. }
  destruct (Z.eqb_spec (EncParams.encoding_mode p) AFTEN_ENC_MODE_CBR) as [Hm|Hm].
  - cbn [rbind ok]. apply wpr_option. eapply wp_mono; [apply find_bitrate_spec|]. intros i (Hi & Hk & Hb). fold h.
    destruct (Z.eqb_spec i 19) as [-> |Hne]; cbn [andb]; [apply wpr_refuse; by apply Hk|].
    apply Hend; [lia|]. split; [destruct (known_bitrate _ _); [done|]; destruct Hne; by apply Hk|].
    exists i, (Z.shiftr a52_bitrate_tab.[i] h). split; [done|]. split; [lia|]. split; [done|]. intros _. apply Hb. lia.
  - destruct (Z.eqb_spec (EncParams.encoding_mode p) AFTEN_ENC_MODE_VBR) as [Hv|Hv]; cbn [andb rbind refuse]; [|done].
    destruct ((EncParams.quality p <? 0) || (EncParams.quality p >? 1023)) eqn:Hq; cbn [rbind refuse ok]; [apply wpr_refuse; lia|].
    apply wpr_option. eapply wp_mono; [apply find_bitrate_spec|]. intros i (Hi & Hk & Hb). fold h.
    rewrite andb_false_r. apply Hend; [destruct (i =? 19) eqn:?; lia|]. split; [lia|].
    eexists _, _. split; [reflexivity|]. split; [destruct (i =? 19) eqn:?; lia|]. done.
Qed.

Lemma set_channels_spec s ctx :
  wpr (set_channels s ctx) (good_channels s = false) (λ ctx', good_channels s = true ∧
    ctx' = ctx <| Ctx.acmod := AftenContext.acmod s |> <| Ctx.lfe := AftenContext.lfe s |> <| Ctx.n_all_channels := AftenContext.channels s |>
      <| Ctx.n_channels := AftenContext.channels s - AftenContext.lfe s |>
      <| Ctx.lfe_channel := if AftenContext.lfe s =? 0 then -1 else AftenContext.channels s - 1 |>).
Proof.
  unfold set_channels, good_channels. cbv zeta. set (c := AftenContext.channels s). set (a := AftenContext.acmod s). set (l := AftenContext.lfe s).
  destruct ((c <? 1) || (c >? 6)) eqn:H1; [apply wpr_refuse; lia|].
  destruct ((a <? 0) || (a >? 7)) eqn:H2; [apply wpr_refuse; lia|].
  destruct ((c =? 6) && (l =? 0)) eqn:H3; [apply wpr_refuse; lia|].
  destruct ((c =? 1) && negb (l =? 0)) eqn:H4; [apply wpr_refuse; lia|]. apply wpr_ok. split; [lia|done].
Qed.

Lemma set_rate_spec s ctx :
  wpr (set_rate s ctx) (known_rate (AftenContext.samplerate s) = false) (λ ctx', known_rate (AftenContext.samplerate s) = true ∧ ∃ j,
    0 ≤ j < 3 ∧ let i := halvings (AftenContext.samplerate s) in Z.shiftr a52_sample_rate_tab.[j] i = AftenContext.samplerate s ∧
    ctx' = ctx <| Ctx.sample_rate := AftenContext.samplerate s |> <| Ctx.halfratecod := i |> <| Ctx.fscod := j |>
      <| Ctx.bsid := if negb (i =? 0) then 8 + i
         else if negb (Metadata.xbsi1e (Ctx.meta ctx) =? 0) || negb (Metadata.xbsi2e (Ctx.meta ctx) =? 0) then 6 else 8 |> <| Ctx.bsmod := 0 |>).
Proof.
  unfold set_rate. apply wpr_option. eapply wp_mono; [apply find_rate_spec|]. intros [[i j]|] Ho; [|by apply wpr_refuse].
  destruct Ho as (Hk & -> & Hj & He). apply wpr_ok. split; [done|]. by exists j.
Qed.

Lemma set_bandwidth_spec s q ctx :
  Ctx.params ctx = AftenContext.params s → Ctx.sample_rate ctx = AftenContext.samplerate s → AftenContext.samplerate s ≠ 0 →
  wpr (set_bandwidth s q ctx) (good_bandwidth s = false) (λ ctx', good_bandwidth s = true ∧ ∃ bw, ctx' = ctx <| Ctx.fixed_bwcode := bw |> ∧
    let p := AftenContext.params s in bw = if EncParams.bwcode p <? 0
      then CLIP (Z.quot (Z.quot (((q - 120) * 120 + 4000) * 512) (AftenContext.samplerate s) - 73) 3) (EncParams.min_bwcode p) (EncParams.max_bwcode p)
      else EncParams.bwcode p).
Proof.
  intros Hp Hsr Hs. unfold set_bandwidth, good_bandwidth. cbv zeta. rewrite Hp, Hsr. set (p := AftenContext.params s).
  destruct ((EncParams.bwcode p <? -2) || (EncParams.bwcode p >? 60)) eqn:H1; [apply wpr_refuse; lia|].
  destruct (EncParams.bwcode p <? 0) eqn:H2; [|apply wpr_ok; split; [lia|by eexists]].
  replace (AftenContext.samplerate s =? 0) with false by lia.
  destruct ((EncParams.bwcode p =? -2) && _) eqn:H3; [apply wpr_refuse; lia|]. apply wpr_ok. split; [lia|]. by eexists.
Qed.

Lemma halvings_range r : 0 ≤ halvings r ≤ 2.
Proof. unfold halvings. destruct (has_rate 0 r), (has_rate 1 r); lia. Qed.

Lemma rate_positive s j : 0 ≤ j < 3 → 8000 ≤ Z.shiftr a52_sample_rate_tab.[j] (halvings s) ≤ 48000.
Proof.
  intros Hj. pose proof (halvings_range s). assert (Hj' : j = 0 ∨ j = 1 ∨ j = 2) by lia.
  assert (Hh : halvings s = 0 ∨ halvings s = 1 ∨ halvings s = 2) by lia.
  destruct Hj' as [-> |[-> | ->]], Hh as [-> |[-> | ->]]; vm_compute; intuition congruence.
Qed.

Lemma initial_quality_bwcode c bw : initial_quality (c <| Ctx.fixed_bwcode := bw |>) = initial_quality c.
Proof. done. Qed.

(** [configure] refuses exactly the parameters that are not accepted; only
    the initial quality divides, by the number of channels. *)
Lemma configure_spec s :
  AftenContext.lfe s = 0 ∨ AftenContext.lfe s = 1 →
  wpr (configure s) (accepted s = false) (λ '(ctx, q), accepted s = true ∧ configured s ctx q).
Proof.
  intros Hlfe. unfold configure. destruct (AftenContext.mode s =? AFTEN_ENCODE) eqn:Hmode; [|apply wpr_refuse; unfold accepted; by rewrite Hmode].
  simpl negb. cbv iota. apply wpr_bind. eapply wpr_mono; [apply set_channels_spec|intros He; unfold accepted; rewrite He; lia|].
  intros c1 (G1 & ->). apply wpr_bind. eapply wpr_mono; [apply set_rate_spec|intros He; unfold accepted; rewrite He; lia|].
  intros c2 (G2 & j & Hj & Hr & ->). pose proof (rate_positive (AftenContext.samplerate s) j Hj) as Hpos. rewrite Hr in Hpos.
  apply wpr_bind. eapply wpr_mono; [apply set_bitrate_spec; done|intros He; unfold accepted; rewrite He; lia|].
  intros c3 (G3 & i & b & -> & Hi & Hb & Hw). apply wpr_bind. unfold check_search. cbv zeta.
  destruct ((_ <? 1) || (_ >? 32)) eqn:G4; [apply wpr_refuse; cbn in G4; unfold accepted; lia|]. apply wpr_ok. apply wpr_option.
  set (c3 := _ <| Ctx.target_bitrate := b |>).
  assert (Hq : ∃ q, initial_quality c3 = Some q).
  { unfold initial_quality. cbv zeta. destruct (_ =? AFTEN_ENC_MODE_VBR); [eauto|]. destruct (_ =? AFTEN_ENC_MODE_CBR); [|eauto].
    change (Ctx.n_channels c3) with (AftenContext.channels s - AftenContext.lfe s). unfold good_channels in G1.
    replace (AftenContext.channels s - AftenContext.lfe s =? 0) with false by lia. eauto. }
  destruct Hq as [q Hq]. rewrite Hq. cbn [wp]. apply wpr_bind.
  eapply wpr_mono; [apply set_bandwidth_spec; [reflexivity|reflexivity|lia]|intros He; unfold accepted; rewrite He; lia|].
  intros c4 (G5 & bw & -> & Hbw). apply wpr_ok. split; [unfold accepted; rewrite G1, G2, G3, G5, Hmode; cbn in G4 |- *; lia|].
  split; [reflexivity..| | | | |rewrite initial_quality_bwcode; exact Hq|exact Hbw].
  - repeat split.
  - split; [reflexivity|]. split; [reflexivity|]. split; [exact Hj|exact Hr].
  - reflexivity.
  - exists i. split; [exact Hi|]. split; [change (i * 2 = 2 * i); lia|]. split; [exact Hb|exact Hw].
Qed.

(** ** Consistent parameters *)

(** What the checks leave to the user: a stereo mode with two channels and, if
    the bandwidth is computed, a range for it. *)
Record consistent (s : AftenContext.t) : Prop := {
  cs_lfe : AftenContext.lfe s = 0 ∨ AftenContext.lfe s = 1;
  cs_stereo : AftenContext.acmod s = A52_ACMOD_STEREO → 2 ≤ AftenContext.channels s - AftenContext.lfe s;
  cs_range : EncParams.bwcode (AftenContext.params s) < 0 →
    0 ≤ EncParams.min_bwcode (AftenContext.params s) ≤ 60 ∧ 0 ≤ EncParams.max_bwcode (AftenContext.params s) ≤ 60
}.

(** The words of a frame at a constant bit rate. *)
Lemma table_rates i j h :
  0 ≤ i < 19 → 0 ≤ j < 3 → 0 ≤ h ≤ 2 →
  let b := Z.shiftr a52_bitrate_tab.[i] h in let r := Z.shiftr a52_sample_rate_tab.[j] h in
  0 < b ≤ 640 ∧ 0 < r ≤ 48000 ∧ 8 ≤ b * 96000 / r ≤ 1920 ∧ (b * 96000 / r = 1920 → (b * 96000) mod r = 0).
Proof.
  intros Hi Hj Hh b r. subst b r.
  assert (Hall : forallb (λ i, forallb (λ j, forallb (λ h,
     let b := Z.shiftr a52_bitrate_tab.[i] h in let r := Z.shiftr a52_sample_rate_tab.[j] h in
     (0 <? b) && (b <=? 640) && (0 <? r) && (r <=? 48000) && (8 <=? b * 96000 / r) && (b * 96000 / r <=? 1920) &&
     (negb (b * 96000 / r =? 1920) || ((b * 96000) mod r =? 0))) (seqZ 0 3)) (seqZ 0 3)) (seqZ 0 19) = true) by by vm_compute.
  rewrite forallb_forall in Hall. specialize (Hall i ltac:(apply list_elem_of_In, elem_of_seqZ; lia)).
  rewrite forallb_forall in Hall. specialize (Hall j ltac:(apply list_elem_of_In, elem_of_seqZ; lia)).
  rewrite forallb_forall in Hall. specialize (Hall h ltac:(apply list_elem_of_In, elem_of_seqZ; lia)). cbv beta zeta in Hall.
  set (b := Z.shiftr a52_bitrate_tab.[i] h) in *. set (r := Z.shiftr a52_sample_rate_tab.[j] h) in *.
  set (q := b * 96000 / r) in *. set (m := (b * 96000) mod r) in *. lia.
Qed.

Lemma configured_ok s ctx q : accepted s = true → consistent s → configured s ctx q → ctx_ok ctx.
Proof.
  intros Hacc [Hlfe Hst Hrange] [Hp Hm Hl Ha Hlf (Hall & Hn & Hlc) (Hr & Hh & Hf & Hrt) _ (i & Hi & Hfz & Hb & _) Hq Hbw].
  unfold accepted in Hacc. rewrite !andb_true_iff in Hacc. destruct Hacc as ((((((_ & Gc) & _) & Gm) & Gs1) & Gs2) & Gb).
  unfold good_channels in Gc. unfold good_mode in Gm. unfold good_bandwidth in Gb. cbv zeta in *.
  pose proof (halvings_range (AftenContext.samplerate s)). split; rewrite ?Hp; try lia.
  - split; rewrite ?Hn, ?Hlf, ?Hall, ?Hlc; try lia. destruct Hlfe as [-> | ->]; simpl; lia.
  - destruct (Z.eqb_spec (EncParams.encoding_mode (AftenContext.params s)) AFTEN_ENC_MODE_CBR); [by left|]. right. lia.
  - intros Hv. replace (EncParams.encoding_mode (AftenContext.params s) =? AFTEN_ENC_MODE_CBR) with false in Gm by (unfold AFTEN_ENC_MODE_CBR, AFTEN_ENC_MODE_VBR in *; lia). lia.
  - rewrite Hbw, CLIP_clip. destruct (Z.ltb_spec (EncParams.bwcode (AftenContext.params s)) 0) as [Hneg|]; [|lia].
    specialize (Hrange Hneg). lia.
  - intros _. rewrite Hb, <- Hrt, Hh. apply table_rates; lia.
Qed.

(** ** The filters *)

Definition known_rates : list Z := [48000; 44100; 32000; 24000; 22050; 16000; 12000; 11025; 8000].

Lemma known_rate_in r : known_rate r = true → In r known_rates.
Proof.
  unfold known_rate. intros Hk. assert (∃ i j, 0 ≤ i < 3 ∧ 0 ≤ j < 3 ∧ Z.shiftr a52_sample_rate_tab.[j] i = r) as (i & j & Hi & Hj & <-).
  { rewrite !orb_true_iff in Hk. destruct Hk as [[Hk|Hk]|Hk]; apply has_rate_true in Hk as (j & Hj & He); [exists 0, j|exists 1, j|exists 2, j]; auto with lia. }
  assert (Hi' : i = 0 ∨ i = 1 ∨ i = 2) by lia. assert (Hj' : j = 0 ∨ j = 1 ∨ j = 2) by lia.
  destruct Hi' as [-> |[-> | ->]], Hj' as [-> |[-> | ->]]; vm_compute; tauto.
Qed.

(** No request of the encoder has frequencies that [filter_init] refuses. *)
Definition bad_request `{FloatFormat} (cutoff rate : Z) : bool :=
  bad_frequencies (mk_filter None NoContext FILTER_TYPE_LOWPASS 0 (F_of_Z cutoff) (F_of_Z rate)).
Definition bandwidth_cutoff (rate bwcode : Z) : Z := Z.quot ((bwcode * 3 + 73) * rate) 512.

Lemma good_requests `{FF : FloatFormat} {Ok : FloatOk FF} rate :
  In rate known_rates →
  bad_request 3 rate = false ∧ bad_request 120 rate = false ∧ (16000 < rate → bad_request 8000 rate = false) ∧
  (∀ bwcode, 0 ≤ bwcode ≤ 60 → bad_request (bandwidth_cutoff rate bwcode) rate = false).
Proof.
  intros Hin.
  assert (Hall : forallb (λ r, negb (bad_request 3 r) && negb (bad_request 120 r) && ((r <=? 16000) || negb (bad_request 8000 r)) &&
    forallb (λ b, negb (bad_request (bandwidth_cutoff r b) r)) (seqZ 0 61)) known_rates = true) by (destruct Ok as [-> | ->]; by vm_compute).
  rewrite forallb_forall in Hall. specialize (Hall rate Hin). rewrite !andb_true_iff, !orb_true_iff, !negb_true_iff, forallb_forall in Hall.
  destruct Hall as (((H3 & H120) & H8) & Hb). split; [exact H3|]. split; [exact H120|]. split; [intros; destruct H8 as [H8|]; [lia|done]|].
  intros b Hr. apply negb_true_iff. apply Hb. apply list_elem_of_In, elem_of_seqZ. lia.
Qed.

Section filters.
Context `{FF : FloatFormat} {Ok : FloatOk FF} `{LM : LibM}.

Lemma request_accepted type cascaded cutoff rate f id :
  bad_request cutoff rate = false → type = FILTER_TYPE_LOWPASS ∨ type = FILTER_TYPE_HIGHPASS → cascaded = 0 ∨ cascaded = 1 →
  (id = FILTER_ID_ONEPOLE → cascaded = 0) →
  ∃ f', filter_init (request type cascaded cutoff rate f) id = (f', 0) ∧ filter_ok f'.
Proof.
  intros Hbad Ht Hc Hid. pose proof (filter_init_result (request type cascaded cutoff rate f) id Hc) as Hr.
  destruct (filter_init _ id) as [f' r]. cbv zeta in Hr. destruct Hr as [Hr Hok].
  assert (Hb : bad_frequencies (request type cascaded cutoff rate f) = false) by exact Hbad. rewrite Hb in Hr, Hok. clear Hb Hbad.
  enough (Hgood : r = 0 ∧ filter_ok f') by (exists f'; destruct Hgood as [-> ?]; done).
  destruct id; [..|rewrite (Hid eq_refl) in *]; destruct Ht as [-> | ->]; (split; [exact Hr|exact (proj1 (Hok eq_refl))]).
Qed.

Lemma init_filters_spec n req id fs E :
  0 ≤ n ≤ 6 → zlen fs = 6 → (∀ f, ∃ f', filter_init (req f) id = (f', 0) ∧ filter_ok f') →
  wpr (init_filters n req id fs) E (λ fs', zlen fs' = 6 ∧ ∀ c, 0 ≤ c < n → filter_ok fs'.[c]).
Proof.
  intros Hn Hl Hreq. unfold init_filters. apply wpr_option.
  apply (wp_for_break (λ i '(fs', failed), failed = false ∧ zlen fs' = 6 ∧ ∀ c, 0 ≤ c < i → filter_ok fs'.[c])); [lia|split_and!; [done|done|lia]| |].
  - intros i [fs' failed] Hi (-> & Hl' & Hok). destruct (Hreq fs'.[i]) as (f' & Hf & Hok').
    apply wp_bind, wp_aget; [lia|]. rewrite Hf. apply wp_bind, wp_aset; [lia|]. apply wp_ret. simpl. split; [done|]. rewrite zlen_upd. split; [done|].
    intros c Hc. rewrite at_upd by lia. destruct (Z.eqb_spec c i); [done|]. apply Hok. lia.
  - intros [fs' failed] (-> & Hl' & Hok). by apply wpr_ok.
Qed.

(** What the initialisation of the audio changes in the parameters. *)
Definition audio_params (ctx : Ctx.t) : EncParams.t :=
  let p := Ctx.params ctx in
  p <| EncParams.use_block_switching := if Ctx.sample_rate ctx <=? 16000 then 0 else EncParams.use_block_switching p |>
    <| EncParams.use_bw_filter := if bw_cutoff ctx <? 4000 then 0 else EncParams.use_bw_filter p |>.

(** The filters' part of the context is what is needed to run them. *)
Variable ctx : Ctx.t.
Hypothesis Hrate : known_rate (Ctx.sample_rate ctx) = true.
Hypothesis Hch : 0 ≤ Ctx.n_all_channels ctx ≤ 6.
Hypothesis Hnc : 0 ≤ Ctx.n_channels ctx ≤ 6.

Lemma no_block_switching_eq c :
  no_block_switching c = c <| Ctx.params := (Ctx.params c) <| EncParams.use_block_switching :=
    if Ctx.sample_rate c <=? 16000 then 0 else EncParams.use_block_switching (Ctx.params c) |> |>.
Proof. unfold no_block_switching. destruct c as [[]]; simpl. by destruct (_ <=? 16000). Qed.

Lemma init_bs_spec au E :
  (EncParams.use_block_switching (Ctx.params ctx) ≠ 0 → 16000 < Ctx.sample_rate ctx) → zlen (Audio.bs_filter au) = 6 →
  wpr (init_bs ctx au) E (λ au', ∃ fs, au' = au <| Audio.bs_filter := fs |> ∧ zlen fs = 6 ∧
    (EncParams.use_block_switching (Ctx.params ctx) ≠ 0 → ∀ c, 0 ≤ c < Ctx.n_all_channels ctx → filter_ok fs.[c])).
Proof.
  intros Hbs Hl. unfold init_bs. destruct (Z.eqb_spec (EncParams.use_block_switching (Ctx.params ctx)) 0) as [H0|H0].
  - apply wpr_ok. exists (Audio.bs_filter au). split; [by destruct au|]. split; [done|]. by intros.
  - apply wpr_bind. eapply wpr_mono; [apply (init_filters_spec _ _ _ _ E Hch Hl)|done|].
    + intros f. apply request_accepted; [apply good_requests; [by apply known_rate_in|by apply Hbs]|by right|by right|done].
    + intros fs (Hl' & Hok). apply wpr_ok. by exists fs.
Qed.

Lemma init_dc_spec au E :
  zlen (Audio.dc_filter au) = 6 →
  wpr (init_dc ctx au) E (λ au', ∃ fs, au' = au <| Audio.dc_filter := fs |> ∧ zlen fs = 6 ∧
    (EncParams.use_dc_filter (Ctx.params ctx) ≠ 0 → ∀ c, 0 ≤ c < Ctx.n_all_channels ctx → filter_ok fs.[c])).
Proof.
  intros Hl. unfold init_dc. destruct (Z.eqb_spec (EncParams.use_dc_filter (Ctx.params ctx)) 0) as [H0|H0].
  - apply wpr_ok. exists (Audio.dc_filter au). split; [by destruct au|]. split; [done|]. by intros.
  - apply wpr_bind. eapply wpr_mono; [apply (init_filters_spec _ _ _ _ E Hch Hl)|done|].
    + intros f. apply request_accepted; [apply good_requests; by apply known_rate_in|by right|by left|done].
    + intros fs (Hl' & Hok). apply wpr_ok. by exists fs.
Qed.

(** The bandwidth code the cutoff is computed from. *)
Definition widest_bwcode (ctx : Ctx.t) : Z :=
  if EncParams.bwcode (Ctx.params ctx) =? -2 then EncParams.max_bwcode (Ctx.params ctx) else Ctx.fixed_bwcode ctx.

Lemma init_bw_spec au E :
  0 ≤ widest_bwcode ctx ≤ 60 → zlen (Audio.bw_filter au) = 6 →
  wpr (init_bw ctx au) E (λ '(ctx', au'), ∃ fs, au' = au <| Audio.bw_filter := fs |> ∧ zlen fs = 6 ∧
    ctx' = ctx <| Ctx.params := (Ctx.params ctx) <| EncParams.use_bw_filter :=
      if bw_cutoff ctx <? 4000 then 0 else EncParams.use_bw_filter (Ctx.params ctx) |> |> ∧
    (EncParams.use_bw_filter (Ctx.params ctx') ≠ 0 → ∀ c, 0 ≤ c < Ctx.n_channels ctx → filter_ok fs.[c])).
Proof.
  intros Hbw Hl. unfold init_bw. destruct (Z.eqb_spec (EncParams.use_bw_filter (Ctx.params ctx)) 0) as [H0|H0].
  - apply wpr_ok. exists (Audio.bw_filter au). split; [by destruct au|]. split; [done|]. split; [|by intros].
    destruct ctx as [[]]; simpl in *. rewrite H0. by destruct (_ <? 4000).
  - destruct (bw_cutoff ctx <? 4000).
    { apply wpr_ok. exists (Audio.bw_filter au). split; [by destruct au|]. split; [done|]. split; [done|]. simpl. by intros. }
    apply wpr_bind. eapply wpr_mono; [apply (init_filters_spec _ _ _ _ E Hnc Hl)|done|].
    + intros f. apply request_accepted; [|by left|by right|done]. by apply (good_requests (Ctx.sample_rate ctx) (known_rate_in _ Hrate)).
    + intros fs (Hl' & Hok). apply wpr_ok. exists fs. split; [done|]. split; [done|]. split; [by destruct ctx as [[]]|]. intros _. exact Hok.
Qed.

Lemma init_lfe_spec au :
  wpr (init_lfe ctx au) (EncParams.use_lfe_filter (Ctx.params ctx) ≠ 0 ∧ Ctx.lfe ctx = 0) (λ au',
    ¬ (EncParams.use_lfe_filter (Ctx.params ctx) ≠ 0 ∧ Ctx.lfe ctx = 0) ∧ ∃ f, au' = au <| Audio.lfe_filter := f |> ∧
    (EncParams.use_lfe_filter (Ctx.params ctx) ≠ 0 → filter_ok f)).
Proof.
  unfold init_lfe. destruct (Z.eqb_spec (EncParams.use_lfe_filter (Ctx.params ctx)) 0) as [H0|H0].
  - apply wpr_ok. split; [by intros []|]. exists (Audio.lfe_filter au). split; [by destruct au|]. by intros.
  - destruct (Z.eqb_spec (Ctx.lfe ctx) 0) as [Hl|Hl]; [by apply wpr_refuse|].
    destruct (request_accepted FILTER_TYPE_LOWPASS 1 120 (Ctx.sample_rate ctx) (Audio.lfe_filter au) FILTER_ID_BUTTERWORTH_II) as (f & Hf & Hok);
      [apply good_requests; by apply known_rate_in|by left|by right|done|].
    rewrite Hf. simpl negb. cbv iota. apply wpr_ok. split; [by intros []|]. by exists f.
Qed.
End filters.

Lemma ctx_ok_params ctx p :
  EncParams.encoding_mode p = EncParams.encoding_mode (Ctx.params ctx) → EncParams.quality p = EncParams.quality (Ctx.params ctx) →
  EncParams.expstr_search p = EncParams.expstr_search (Ctx.params ctx) → ctx_ok ctx → ctx_ok (ctx <| Ctx.params := p |>).
Proof.
  intros Hm Hq Hs [[] H2 H3 H4 H5 H6 H7 H8 H9 H10 H11]. destruct ctx; simpl in *. split; simpl; rewrite ?Hm, ?Hq, ?Hs; try done.
Qed.

(** The audio of an initialised context: the filters it uses can run.  Only
    an LFE filter without an LFE channel is refused. *)
Lemma init_audio_spec `{FF : FloatFormat} {Ok : FloatOk FF} `{LM : LibM} ctx conv :
  ctx_ok ctx → known_rate (Ctx.sample_rate ctx) = true → 0 ≤ widest_bwcode ctx ≤ 60 →
  wpr (init_audio ctx (calloc_audio conv)) (EncParams.use_lfe_filter (Ctx.params ctx) ≠ 0 ∧ Ctx.lfe ctx = 0) (λ '(ctx', au),
    ¬ (EncParams.use_lfe_filter (Ctx.params ctx) ≠ 0 ∧ Ctx.lfe ctx = 0) ∧
    ctx' = ctx <| Ctx.params := audio_params ctx |> ∧ ctx_ok ctx' ∧ audio_ok ctx' au ∧ Audio.fmt_convert_from_src au = conv).
Proof.
  intros Hcx Hr Hbw. destruct (cx_channels _ Hcx) as [Hl0 Hn Hall Hlc]. unfold init_audio. cbv zeta.
  rewrite no_block_switching_eq. set (c1 := ctx <| Ctx.params := _ |>).
  assert (Hc1 : 16000 < Ctx.sample_rate c1 ∨ EncParams.use_block_switching (Ctx.params c1) = 0)
    by (simpl; destruct (Z.leb_spec (Ctx.sample_rate ctx) 16000); [by right|by left]).
  apply wpr_bind. eapply (wpr_mono _ False); [|done|].
  { apply (init_bs_spec c1 Hr); [simpl; lia|intros Hb; destruct Hc1 as [Hc1|Hc1]; [exact Hc1|done]|done]. }
  intros a1 (bs & -> & Hbs & Hbsok). apply wpr_bind. eapply (wpr_mono _ False); [|done|].
  { apply (init_dc_spec c1 Hr); [simpl; lia|done]. }
  intros a2 (dc & -> & Hdc & Hdcok). apply wpr_bind. eapply (wpr_mono _ False); [|done|].
  { apply (init_bw_spec c1 Hr ltac:(simpl; lia) ltac:(simpl; lia)); [exact Hbw|done]. }
  intros [c2 a3] (bw & -> & Hbw6 & Hc2 & Hbwok). cbv beta iota.
  assert (Hceq : c2 = ctx <| Ctx.params := audio_params ctx |>).
  { rewrite Hc2. unfold audio_params, c1, bw_cutoff. by destruct ctx as [[]]. }
  assert (Hlfe2 : EncParams.use_lfe_filter (Ctx.params c2) = EncParams.use_lfe_filter (Ctx.params ctx)) by (rewrite Hceq; reflexivity).
  assert (Hlfe3 : Ctx.lfe c2 = Ctx.lfe ctx) by (rewrite Hceq; reflexivity).
  apply wpr_bind. eapply wpr_mono; [apply (init_lfe_spec c2); rewrite Hceq; exact Hr|by rewrite Hlfe2, Hlfe3|].
  intros a4 (Hno & f & -> & Hf). apply wpr_ok. rewrite Hlfe2, Hlfe3 in Hno. split; [exact Hno|]. split; [exact Hceq|].
  split; [rewrite Hceq; by apply ctx_ok_params|]. split; [|reflexivity].
  split; [exact Hdc|exact Hbw6|exact Hbs| | | |exact Hf|exact (dim2_replicate 6 1536 _)|exact (dim2_replicate 6 256 _)].
  - intros Hu. rewrite Hceq in Hu |- *. by apply Hdcok.
  - intros Hu. specialize (Hbwok Hu). rewrite Hceq. exact Hbwok.
  - intros Hu. rewrite Hceq in Hu |- *. intros c Hc. apply Hbsok; [exact Hu|simpl in *; lia].
Qed.

(** ** The conversion of the samples of a call *)

Lemma convert_samples_from_src_spec `{Target} `{FloatFormat} old fmt ctx src count audio :
  0 ≤ fmt ≤ 7 → 0 ≤ Ctx.n_all_channels ctx ≤ 6 → 0 ≤ count ≤ 1536 → dim2 6 1536 audio →
  Ctx.n_all_channels ctx * count * sample_width fmt ≤ zlen src →
  wp (convert_samples_from_src (set_converter old fmt) ctx src count audio) (λ d, dim2 6 1536 d ∧
    ∀ ch i, 0 ≤ ch < Ctx.n_all_channels ctx → 0 ≤ i < 1536 →
      d.[ch].[i] = if i <? count then sample_at fmt src (i * Ctx.n_all_channels ctx + ch) else zero_float).
Proof.
  intros Hf Hn Hc Hd Hsrc. set (n := Ctx.n_all_channels ctx) in *.
  destruct (converter_spec old fmt audio src n count Hf Hd Hn Hc Hsrc) as (f & Hset & Hwp).
  unfold convert_samples_from_src. rewrite Hset. cbn [mbind option_bind]. fold n. apply wp_bind. eapply wp_mono; [exact Hwp|].
  intros d (Hdd & Hat). cbv beta. destruct (Z.ltb_spec count A52_SAMPLES_PER_FRAME) as [Hlt|Hge].
  - apply (wp_for_up (λ c d', dim2 6 1536 d' ∧ ∀ ch i, 0 ≤ ch < n → 0 ≤ i < 1536 →
      d'.[ch].[i] = if i <? count then sample_at fmt src (i * n + ch) else if ch <? c then zero_float else d.[ch].[i])); [lia| | |].
    + split; [done|]. intros ch i Hch Hi. rewrite Hat by lia. replace (ch <? n) with true by lia. replace (ch <? 0) with false by lia.
      simpl. by destruct (i <? count).
    + intros c d' Hcn (Hdd' & Hat'). pose proof (proj1 Hdd') as Hl. pose proof (dim2_row _ _ _ c Hdd' ltac:(lia)) as Hrow.
      apply wp_bind, wp_aget; [lia|]. rewrite memset_in by (unfold A52_SAMPLES_PER_FRAME in *; lia).
      cbn [mbind option_bind]. apply wp_aset; [lia|].
      assert (Hz : zlen (replicate (Z.to_nat (A52_SAMPLES_PER_FRAME - count)) zero_float) = A52_SAMPLES_PER_FRAME - count)
        by (unfold zlen; rewrite length_replicate; lia).
      unfold A52_SAMPLES_PER_FRAME in *. split.
      * apply dim2_upd; [done|lia|]. rewrite zlen_splice; lia.
      * intros ch i Hch Hi. rewrite at_upd by lia. destruct (Z.eqb_spec ch c) as [-> |Hne].
        -- rewrite at_splice by lia. rewrite Hz. destruct (Z.ltb_spec i count) as [Hi'|Hi'].
           ++ replace (count <=? i) with false by lia. simpl. rewrite Hat' by lia. by replace (i <? count) with true by lia.
           ++ replace (count <=? i) with true by lia. replace (i <? count + (1536 - count)) with true by lia. simpl.
              replace (c <? c + 1) with true by lia. by rewrite at_replicate by lia.
        -- rewrite Hat' by done. by replace (ch <? c + 1) with (ch <? c) by lia.
    + intros d' (Hdd' & Hat'). split; [done|]. intros ch i Hch Hi. rewrite Hat' by done.
      by replace (ch <? n) with true by lia.
  - apply wp_ret. unfold A52_SAMPLES_PER_FRAME in *. split; [done|]. intros ch i Hch Hi. rewrite Hat by lia.
    replace (ch <? n) with true by lia. by replace (i <? count) with true by lia.
Qed.

(** ** The threads' contexts *)

(** The initial quality of accepted parameters; at 640 kbit/s in mono it is
    beyond the last offset, 1023. *)
Lemma initial_quality_range s ctx q :
  accepted s = true → consistent s → configured s ctx q → 0 ≤ q ≤ 1028.
Proof.
  intros Hacc Hcons Hcf. pose proof (cx_channels _ (configured_ok s ctx q Hacc Hcons Hcf)) as [Hn _ _ _].
  pose proof (cf_quality _ _ _ Hcf) as Hq. destruct (cf_bitrate _ _ _ Hcf) as (i & Hi & _ & Hb & _). destruct (cf_rate _ _ _ Hcf) as (_ & Hh & _).
  pose proof (halvings_range (AftenContext.samplerate s)) as Hhr. rewrite <- Hh in Hhr. rewrite <- Hh in Hb.
  pose proof (cf_params _ _ _ Hcf) as Hp. unfold initial_quality in Hq. cbv zeta in Hq. rewrite Hp in Hq.
  unfold accepted in Hacc. rewrite !andb_true_iff in Hacc. destruct Hacc as ((((((_ & _) & _) & Gm) & _) & _) & _). unfold good_mode in Gm. cbv zeta in Gm.
  destruct (EncParams.encoding_mode (AftenContext.params s) =? AFTEN_ENC_MODE_VBR) eqn:Hv.
  { replace (EncParams.encoding_mode (AftenContext.params s) =? AFTEN_ENC_MODE_CBR) with false in Gm by (unfold AFTEN_ENC_MODE_CBR, AFTEN_ENC_MODE_VBR in *; lia).
    injection Hq as <-. lia. }
  destruct (EncParams.encoding_mode (AftenContext.params s) =? AFTEN_ENC_MODE_CBR); [|done].
  destruct (Ctx.n_channels ctx =? 0); [done|]. injection Hq as <-. rewrite Hb.
  assert (Hall : forallb (λ i, forallb (λ h, forallb (λ n,
     let q := Z.quot (Z.quot (Z.shiftr a52_bitrate_tab.[i] h) n * 35) 24 + 95 + 25 * h in (0 <=? q) && (q <=? 1028))
     (seqZ 1 5)) (seqZ 0 3)) (seqZ 0 19) = true) by by vm_compute.
  rewrite forallb_forall in Hall. specialize (Hall i ltac:(apply list_elem_of_In, elem_of_seqZ; lia)).
  rewrite forallb_forall in Hall. specialize (Hall (Ctx.halfratecod ctx) ltac:(apply list_elem_of_In, elem_of_seqZ; lia)).
  rewrite forallb_forall in Hall. specialize (Hall (Ctx.n_channels ctx) ltac:(apply list_elem_of_In, elem_of_seqZ; lia)). cbv beta zeta in Hall. lia.
Qed.

(** The memory that [alloc_block_buffers] hands out. *)
Definition heap_ok (heap : Z → Z → list (list FLOAT) * list (list FLOAT)) : Prop :=
  ∀ j k, dim2 6 512 (fst (heap j k)) ∧ dim2 6 256 (snd (heap j k)).

Lemma thread_context_ok ctx heap q j :
  (∀ k, dim2 6 512 (fst (heap k)) ∧ dim2 6 256 (snd (heap k))) → 0 ≤ q < 1040 → tctx_ok ctx (thread_context heap q j).
Proof.
  intros Hh Hq. split.
  - destruct zero_frame_ok as [[_ Hb] Ha Hr Hn Hs Hg]. split; try done. split; [reflexivity|]. intros k Hk.
    assert (Hat : (Frame.blocks (TCtx.frame (thread_context heap q j))).[k] =
      zero_block <| Block.input_samples := fst (heap k) |> <| Block.mdct_coef := snd (heap k) |>).
    { assert (Hk' : k = 0 ∨ k = 1 ∨ k = 2 ∨ k = 3 ∨ k = 4 ∨ k = 5) by lia. by destruct Hk' as [-> |[-> |[-> |[-> |[-> | ->]]]]]. }
    rewrite Hat. destruct (Hh k) as [Hi Hc]. destruct zero_block_wf. split; [by split|done|exact (dim2_replicate 6 512 _)].
  - split; [by vm_compute|by vm_compute|by intros _ _].
  - intros _. exact Hq.
Qed.

Lemma thread_count_range n ncpus : 1 ≤ ncpus → 1 ≤ thread_count n ncpus ≤ 32.
Proof. intros Hc. unfold thread_count, MIN, MAX_NUM_THREADS. destruct (Z.gtb_spec n 0); destruct (_ >? 32) eqn:?; lia. Qed.

(** ** An initialised encoder *)

(** What the calls of the encoder keep between two frames. *)
Record encoder_ok `{FloatFormat} (enc : Encoder.t) : Prop := {
  en_ctx : ctx_ok (Encoder.ctx enc);
  en_audio : audio_ok (Encoder.ctx enc) (Encoder.audio enc);
  en_threads : zlen (Encoder.tctxs enc) = Ctx.n_threads (Encoder.ctx enc) ∧ 1 ≤ Ctx.n_threads (Encoder.ctx enc) ≤ 32;
  en_tctx : ∀ j, 0 ≤ j < Ctx.n_threads (Encoder.ctx enc) → tctx_ok (Encoder.ctx enc) (Encoder.tctxs enc).[j] ∧
    TCtx.framesize (Encoder.tctxs enc).[j] = 0;
  en_tab : crc_init crc16tab_zero = Some (Encoder.crc16tab enc);
  en_window : zlen (Encoder.window enc) = 512;
  en_mdct : context_ok (Encoder.mdct_ctx_512 enc) 512 ∧ context_ok (Encoder.mdct_ctx_256 enc) 256
}.

Lemma same_settings_ok ctx ctx' au :
  Ctx.params ctx' = Ctx.params ctx → Ctx.n_channels ctx' = Ctx.n_channels ctx → Ctx.n_all_channels ctx' = Ctx.n_all_channels ctx →
  audio_ok ctx au → audio_ok ctx' au.
Proof. intros Hp Hn Ha []. split; rewrite ?Hp, ?Hn, ?Ha; assumption. Qed.

Lemma ctx_ok_threads ctx n : ctx_ok ctx → ctx_ok (ctx <| Ctx.n_threads := n |>).
Proof. intros [[] H2 H3 H4 H5 H6 H7 H8 H9 H10 H11]. destruct ctx. split; try assumption. by split. Qed.

Lemma tctx_ok_settings ctx ctx' t :
  Ctx.params ctx' = Ctx.params ctx → Ctx.target_bitrate ctx' = Ctx.target_bitrate ctx → Ctx.sample_rate ctx' = Ctx.sample_rate ctx →
  tctx_ok ctx t → tctx_ok ctx' t.
Proof.
  intros Hp Hb Hs [Hf [Hc1 Hc2 Hc3] Hq]. split; [exact Hf| |unfold quality_ok in *; rewrite Hp; exact Hq].
  split; [exact Hc1|exact Hc2|]. rewrite Hp, Hb, Hs. exact Hc3.
Qed.

(** Samples before the first frame that the initialisation can read: their
    format is no wider than the floating point type the memory is sized for. *)
Definition initial_ok `{FloatFormat} (s : AftenContext.t) (initial : option (list Z)) : Prop :=
  match initial with
  | None => True
  | Some samples => 0 ≤ AftenContext.sample_format s ≤ 7 ∧ sample_width (AftenContext.sample_format s) ≤ sizeof_FLOAT ∧
      256 * AftenContext.channels s * sizeof_FLOAT ≤ zlen samples
  end.

(** An LFE filter needs an LFE channel. *)
Definition bad_lfe_filter (s : AftenContext.t) : Prop :=
  EncParams.use_lfe_filter (AftenContext.params s) ≠ 0 ∧ AftenContext.lfe s = 0.

Lemma copied_frame_ok `{FloatFormat} `{LibM} ctx au f n au' f' : frame_ok f → copied ctx au f n au' f' → frame_ok f'.
Proof.
  intros [[_ Hblk] ? ? ? ? ?] Hcp. pose proof Hcp as [Hf Hb [? ? ? ?] _ _ _ _ _ _ _ _].
  rewrite Hf. split; simpl; try done. split; [done|]. intros k Hk. split; [|auto|auto].
  rewrite Hb by done. destruct (Hblk k Hk) as [[] _ _]. by split.
Qed.

Section whole.
Context `{T : Target} `{FF : FloatFormat} {Ok : FloatOk FF} `{LM : LibM}.

Lemma initial_block_some n initial :
  0 ≤ n → 256 * n * sizeof_FLOAT ≤ zlen initial →
  ∃ m, initial_block n initial = Some m ∧ zlen m = A52_SAMPLES_PER_FRAME * n * sizeof_FLOAT.
Proof.
  intros Hn Hl. unfold initial_block. cbv zeta. rewrite (proj2 (Z.leb_le _ _)) by lia. eexists. split; [done|].
  assert (0 < sizeof_FLOAT) by (unfold sizeof_FLOAT; by destruct (_ =? 24)).
  rewrite zlen_app. unfold zlen in *. rewrite length_replicate, length_take. unfold A52_SAMPLES_PER_FRAME. nia.
Qed.

Lemma init_samples_spec s ctx buffer initial old au tctxs :
  ctx_ok ctx → Ctx.n_all_channels ctx = AftenContext.channels s → audio_ok ctx au →
  Audio.fmt_convert_from_src au = set_converter old (AftenContext.sample_format s) →
  zlen buffer = 1536 → initial_ok s initial → 1 ≤ zlen tctxs → (∀ j, 0 ≤ j < zlen tctxs → tctx_ok ctx tctxs.[j]) →
  wp (init_samples ctx buffer initial au tctxs) (λ '(au', tctxs'), audio_ok ctx au' ∧
    Audio.fmt_convert_from_src au' = Audio.fmt_convert_from_src au ∧ zlen tctxs' = zlen tctxs ∧
    ∀ j, 0 ≤ j < zlen tctxs → tctx_ok ctx tctxs'.[j] ∧ TCtx.framesize tctxs'.[j] = TCtx.framesize tctxs.[j]).
Proof.
  intros Hcx Hn Hau Hconv Hbuf Hinit Hlen Htx. unfold init_samples. destruct initial as [samples|];
    [|apply wp_ret; split; [done|]; split; [done|]; split; [done|]; intros j Hj; split; [by apply Htx|done]].
  destruct Hinit as (Hf & Hw & Hl). pose proof (n_range _ Hcx) as Hnr. rewrite Hn in Hnr.
  pose proof (Htx 0 ltac:(lia)) as [Hok0 Hcl0 Hq0]. pose proof (frame_ok_samples _ Hok0) as Hwf.
  apply wp_bind, wp_aget; [lia|]. set (t0 := tctxs.[0]) in *. unfold load_initial. rewrite Hn, Hconv.
  destruct (initial_block_some (AftenContext.channels s) samples ltac:(lia) Hl) as (m & Hm & Hml). rewrite Hm. cbn [mbind option_bind].
  apply wp_bind, wp_bind. eapply wp_mono.
  { apply (convert_samples_from_src_spec old _ ctx m A52_SAMPLES_PER_FRAME); [exact Hf|rewrite Hn; lia|unfold A52_SAMPLES_PER_FRAME; lia|apply (sw_audio _ Hwf)|].
    rewrite Hn, Hml. unfold A52_SAMPLES_PER_FRAME. nia. }
  intros d (Hd & _). cbv beta. eapply wp_mono; [apply (copy_samples_spec ctx au ((TCtx.frame t0) <| Frame.input_audio := d |>) buffer)|].
  - apply (cx_channels _ Hcx).
  - exact Hau.
  - destruct Hwf. by split.
  - exact Hbuf.
  - intros [au' frame'] Hcp. cbv beta iota. apply wp_bind, wp_aset; [lia|]. apply wp_ret. split; [apply (cp_ok _ _ _ _ _ _ Hcp)|].
    split; [rewrite <- Hconv; apply (cp_converter _ _ _ _ _ _ Hcp)|]. rewrite zlen_upd. split; [done|]. intros j Hj. rewrite at_upd by lia.
    destruct (Z.eqb_spec j 0) as [-> |Hne]; [|split; [by apply Htx|done]]. split; [|done].
    split; [|destruct Hcl0; by split|exact Hq0].
    refine (copied_frame_ok _ _ _ _ _ _ _ Hcp). destruct Hok0. by split.
Qed.

(** From the configured context to the encoder, with the tables given. *)
Lemma finish_init s ncpus heap buffer initial ctx q tab window c512 c256 :
  consistent s → heap_ok heap → zlen buffer = 1536 → initial_ok s initial → 1 ≤ ncpus → accepted s = true → configured s ctx q →
  zlen window = 512 → context_ok c512 512 → context_ok c256 256 →
  wpr ('(ctx, au) ←r init_audio ctx (calloc_audio (set_converter None (AftenContext.sample_format s)));
       let n := thread_count (AftenContext.n_threads s) ncpus in
       let ctx := ctx <| Ctx.n_threads := n |> in
       let s := s <| AftenContext.n_threads := n |> in
       let tctxs := map (λ j, thread_context (heap j) q j) (seqZ 0 n) in
       '(au, tctxs) ← init_samples ctx buffer initial au tctxs;
       ok (s, Encoder.mk ctx au tctxs tab window c512 c256))
    (bad_lfe_filter s) (λ '(s', enc),
    ¬ bad_lfe_filter s ∧ (crc_init crc16tab_zero = Some tab → encoder_ok enc) ∧
    s' = s <| AftenContext.n_threads := thread_count (AftenContext.n_threads s) ncpus |> ∧
    Audio.fmt_convert_from_src (Encoder.audio enc) = set_converter None (AftenContext.sample_format s) ∧
    Encoder.ctx enc = ctx <| Ctx.params := audio_params ctx |> <| Ctx.n_threads := AftenContext.n_threads s' |>).
Proof.
  intros Hcons Hheap Hbuf Hinit Hcpu Hacc Hcf Hwin H5 H2. pose proof (configured_ok s ctx q Hacc Hcons Hcf) as Hcx.
  pose proof (initial_quality_range s ctx q Hacc Hcons Hcf) as Hq. destruct (cf_rate _ _ _ Hcf) as (Hr & _).
  pose proof Hacc as Hacc'. unfold accepted in Hacc'. rewrite !andb_true_iff in Hacc'. destruct Hacc' as ((((((_ & _) & Gr) & _) & _) & _) & _).
  assert (Hbw : 0 ≤ widest_bwcode ctx ≤ 60).
  { unfold widest_bwcode. rewrite (cf_params _ _ _ Hcf). destruct (Z.eqb_spec (EncParams.bwcode (AftenContext.params s)) (-2)) as [Hb|];
      [apply (cs_range _ Hcons); lia|apply (cx_bwcode _ Hcx)]. }
  apply wpr_bind. eapply wpr_mono; [by apply (init_audio_spec ctx _ Hcx); [rewrite Hr|]|rewrite (cf_params _ _ _ Hcf), (cf_lfe _ _ _ Hcf); by intros|].
  intros [c1 au] (Hlfe & Hc1 & Hcx1 & Hau & Hconv). cbv beta iota zeta. rewrite (cf_params _ _ _ Hcf), (cf_lfe _ _ _ Hcf) in Hlfe.
  pose proof (thread_count_range (AftenContext.n_threads s) ncpus Hcpu) as Hn. set (n := thread_count _ _) in *.
  set (c2 := c1 <| Ctx.n_threads := n |>). assert (Hcx2 : ctx_ok c2) by by apply ctx_ok_threads.
  set (tctxs := map _ (seqZ 0 n)). assert (Hlen : zlen tctxs = n) by (apply zlen_map_seqZ; lia).
  apply wpr_option. eapply wp_mono; [apply (init_samples_spec s c2 buffer initial None)|].
  - exact Hcx2.
  - change (Ctx.n_all_channels c2) with (Ctx.n_all_channels c1). rewrite Hc1. apply (cf_channels _ _ _ Hcf).
  - by apply (same_settings_ok c1).
  - exact Hconv.
  - exact Hbuf.
  - exact Hinit.
  - lia.
  - intros j Hj. unfold tctxs. rewrite (at_map_seqZ (λ j, thread_context (heap j) q j) n j) by lia.
    apply thread_context_ok; [apply Hheap|lia].
  - intros [au' tctxs'] (Hau' & Hconv' & Hlen' & Htx'). apply wpr_ok. split; [exact Hlfe|].
    split; [|split; [reflexivity|split; [exact (eq_trans Hconv' Hconv)|exact (f_equal (λ c, c <| Ctx.n_threads := n |>) Hc1)]]].
    intros Htab. split; [exact Hcx2|exact Hau'|exact (conj (eq_trans Hlen' Hlen) Hn)| |exact Htab|exact Hwin|exact (conj H5 H2)].
    intros j Hj. destruct (Htx' j) as [H1 H3]; [rewrite Hlen; exact Hj|]. split; [exact H1|]. etrans; [exact H3|].
    unfold tctxs. rewrite (at_map_seqZ (λ j, thread_context (heap j) q j) n j) by exact Hj. reflexivity.
Qed.

(** The encoder that accepted and consistent parameters give. *)
Lemma aften_encode_init_spec s ncpus heap buffer initial :
  consistent s → heap_ok heap → zlen buffer = 1536 → initial_ok s initial → 1 ≤ ncpus →
  wpr (aften_encode_init (Some s) ncpus heap buffer initial) (accepted s = false ∨ bad_lfe_filter s) (λ '(s', enc),
    accepted s = true ∧ ¬ bad_lfe_filter s ∧ encoder_ok enc ∧
    s' = s <| AftenContext.n_threads := thread_count (AftenContext.n_threads s) ncpus |> ∧
    Audio.fmt_convert_from_src (Encoder.audio enc) = set_converter None (AftenContext.sample_format s) ∧
    ∃ c q, configured s c q ∧
      Encoder.ctx enc = c <| Ctx.params := audio_params c |> <| Ctx.n_threads := AftenContext.n_threads s' |>).
Proof.
  intros Hcons Hheap Hbuf Hinit Hcpu. unfold aften_encode_init.
  destruct (ctx_init_ok 512 8 (or_introl (conj eq_refl eq_refl))) as (c5 & Hc5 & Hok5 & _).
  destruct (ctx_init_ok 256 7 (or_intror (conj eq_refl eq_refl))) as (c2 & Hc2 & Hok2 & _).
  assert (Hmdct : mdct_init = Some (c5, c2)) by (unfold mdct_init; rewrite Hc5; cbn [mbind option_bind]; rewrite Hc2; reflexivity).
  rewrite Hmdct. clear Hmdct Hc5 Hc2. cbn [mbind option_bind]. cbv beta iota.
  apply wpr_bind. eapply wpr_mono; [apply configure_spec, (cs_lfe _ Hcons)|by left|].
  intros [ctx q] (Hacc & Hcf). cbv beta iota. destruct a52_window_init_some as (w & Hw & Hlw & _).
  pose proof (λ tab, finish_init s ncpus heap buffer initial ctx q tab w c5 c2 Hcons Hheap Hbuf Hinit Hcpu Hacc Hcf Hlw Hok5 Hok2) as Hfin.
  rewrite Hw. clear Hw. destruct crc_table_spec as (tab & Htab & _). rewrite Htab. cbn [mbind option_bind]. cbv zeta.
  eapply wpr_mono; [exact (Hfin tab)|by right|]. intros [s' enc] (Hl & Henc & Hs' & Hconv & Hctx).
  split; [exact Hacc|]. split; [exact Hl|]. split; [exact (Henc Htab)|]. clear Htab. split; [exact Hs'|]. split; [exact Hconv|].
  exists ctx, q. by split.
Qed.
End whole.

(** ** Samples before the first frame *)

(** Words of memory that begins with zeros. *)
Lemma load_zeros `{Target} w n rest rest' j :
  0 < w → 0 ≤ j → (j + 1) * w ≤ n →
  load w (replicate (Z.to_nat n) 0 ++ rest) j = load w (replicate (Z.to_nat n) 0 ++ rest') j.
Proof.
  intros Hw Hj Hn. unfold load. assert (Hz : ∀ l : list Z, ((j + 1) * w <=? zlen (replicate (Z.to_nat n) 0 ++ l)) = true).
  { intros l. rewrite zlen_app. unfold zlen. rewrite length_replicate. lia. }
  rewrite !Hz. replace (0 <=? j) with true by lia. simpl. do 2 f_equal.
  assert (Hs : ∀ l : list Z, slice (replicate (Z.to_nat n) 0 ++ l) (j * w) w = slice (replicate (Z.to_nat n) 0) (j * w) w).
  { intros l. unfold slice. rewrite drop_app_le by (rewrite length_replicate; lia).
    apply take_app_le. rewrite length_drop, length_replicate. lia. }
  by rewrite !Hs.
Qed.

(** In a format so narrow that the memory sized for floating point samples
    holds the whole frame before the user's samples, their values do not
    matter. *)
Lemma load_initial_lost `{Target} `{FF : FloatFormat} {Ok : FloatOk FF} `{LibM} old fmt ctx buffer samples samples' au frame :
  0 ≤ fmt ≤ 7 → 1536 * sample_width fmt ≤ 1280 * sizeof_FLOAT → 0 ≤ Ctx.n_all_channels ctx ≤ 6 →
  Audio.fmt_convert_from_src au = set_converter old fmt → dim2 6 1536 (Frame.input_audio frame) →
  256 * Ctx.n_all_channels ctx * sizeof_FLOAT ≤ zlen samples → 256 * Ctx.n_all_channels ctx * sizeof_FLOAT ≤ zlen samples' →
  load_initial ctx buffer samples au frame = load_initial ctx buffer samples' au frame.
Proof.
  intros Hf Hw Hn Hconv Hd Hl Hl'. set (n := Ctx.n_all_channels ctx) in *.
  assert (Hsz : 4 ≤ sizeof_FLOAT ≤ 8) by (unfold sizeof_FLOAT; by destruct (_ =? 24)).
  assert (Hpos : 0 < sample_width fmt).
  { unfold sample_width. by destruct (_ || _), (fmt =? A52_SAMPLE_FMT_S16), (fmt =? A52_SAMPLE_FMT_DBL). }
  assert (Hprod : n * (1536 * sample_width fmt) ≤ n * (1280 * sizeof_FLOAT)) by (apply Z.mul_le_mono_nonneg_l; lia).
  unfold load_initial. fold n. rewrite Hconv. set (z := (A52_SAMPLES_PER_FRAME - 256) * n * sizeof_FLOAT).
  assert (Hb : ∀ l, 256 * n * sizeof_FLOAT ≤ zlen l → initial_block n l = Some (replicate (Z.to_nat z) 0 ++ take (Z.to_nat (256 * n * sizeof_FLOAT)) l))
    by (intros l Hll; unfold initial_block; cbv zeta; by rewrite (proj2 (Z.leb_le _ _)) by lia).
  assert (Hz : n * (1536 * sample_width fmt) ≤ z) by (unfold z, A52_SAMPLES_PER_FRAME; lia). clear Hprod.
  rewrite !Hb by done. cbn [mbind option_bind].
  assert (Hc : ∀ l, ∃ d, convert_samples_from_src (set_converter old fmt) ctx (replicate (Z.to_nat z) 0 ++ l) A52_SAMPLES_PER_FRAME (Frame.input_audio frame) = Some d ∧
    dim2 6 1536 d ∧ ∀ ch i, 0 ≤ ch < 6 → 0 ≤ i < 1536 →
      d.[ch].[i] = if (ch <? n) && (i <? 1536) then sample_at fmt (replicate (Z.to_nat z) 0 ++ l) (i * n + ch) else (Frame.input_audio frame).[ch].[i]).
  { intros l. destruct (converter_spec old fmt (Frame.input_audio frame) (replicate (Z.to_nat z) 0 ++ l) n A52_SAMPLES_PER_FRAME Hf Hd Hn) as (f & Hset & Hwp).
    - unfold A52_SAMPLES_PER_FRAME. lia.
    - rewrite zlen_app. unfold zlen. rewrite length_replicate. unfold A52_SAMPLES_PER_FRAME. lia.
    - apply wp_some in Hwp as (d & Heq & Hd' & Hat). exists d. unfold convert_samples_from_src. rewrite Hset. cbn [mbind option_bind]. fold n.
      rewrite Heq. split; [done|]. split; [exact Hd'|exact Hat]. }
  destruct (Hc (take (Z.to_nat (256 * n * sizeof_FLOAT)) samples)) as (d & -> & Hdd & Hat).
  destruct (Hc (take (Z.to_nat (256 * n * sizeof_FLOAT)) samples')) as (d' & -> & Hdd' & Hat'). cbn [mbind option_bind].
  assert (Heq : d = d'); [|by rewrite Heq].
  apply array_ext; [by rewrite (proj1 Hdd), (proj1 Hdd')|]. intros ch Hch. rewrite (proj1 Hdd) in Hch.
  apply array_ext; [by rewrite (proj2 Hdd), (proj2 Hdd')|]. intros i Hi. rewrite (proj2 Hdd ch Hch) in Hi.
  rewrite Hat, Hat' by lia. destruct (Z.ltb_spec ch n); [|done]. simpl. destruct (i <? 1536); [|done]. unfold sample_at. do 2 f_equal.
  apply load_zeros; [done|nia|]. etrans; [|exact Hz].
  transitivity (1536 * n * sample_width fmt); [|lia]. apply Z.mul_le_mono_nonneg_r; [lia|nia].
Qed.

(** * Properties *)

(** C6: [aften_encode_init] with a flag of 0 or 1 for the LFE channel and
    otherwise consistent parameters ends without undefined behaviour.  It
    returns -1 exactly if a check of the parameters fails: the mode, channels,
    sample rate, bit rate or quality, exponent search and bandwidth, or an LFE
    filter without an LFE channel.  Otherwise the encoder is ready for frames:
    its context, filters, tables and one context per thread satisfy what
    [process_frame] needs, and its settings are those of the user. *)
Theorem aften_encode_init_correct `{T : Target} `{FF : FloatFormat} {Ok : FloatOk FF} `{LM : LibM} s ncpus heap buffer initial :
  consistent s → heap_ok heap → zlen buffer = 1536 → initial_ok s initial → 1 ≤ ncpus →
  (accepted s = false ∨ bad_lfe_filter s → aften_encode_init (Some s) ncpus heap buffer initial = Some (inl (-1))) ∧
  (accepted s = true ∧ ¬ bad_lfe_filter s → ∃ enc, encoder_ok enc ∧
     let n := thread_count (AftenContext.n_threads s) ncpus in
     aften_encode_init (Some s) ncpus heap buffer initial = Some (inr (s <| AftenContext.n_threads := n |>, enc)) ∧
     ∃ c q, configured s c q ∧ Encoder.ctx enc = c <| Ctx.params := audio_params c |> <| Ctx.n_threads := n |>).
Proof.
  intros Hcons Hheap Hbuf Hinit Hcpu. pose proof (aften_encode_init_spec s ncpus heap buffer initial Hcons Hheap Hbuf Hinit Hcpu) as Hw.
  apply wpr_cases in Hw as [[Heq Hbad]|([s' enc] & Heq & Hacc & Hlfe & Henc & Hs' & _ & c & q & Hcf & Hctx)].
  - split; [intros _; exact Heq|]. intros [Hacc Hlfe]. destruct Hbad as [Hbad|Hbad]; [rewrite Hbad in Hacc; discriminate Hacc|contradiction].
  - split; [intros [Hbad|Hbad]; [rewrite Hbad in Hacc; discriminate Hacc|contradiction]|].
    intros _. exists enc. split; [exact Henc|]. split; [rewrite <- Hs'; exact Heq|]. exists c, q. rewrite Hs' in Hctx. split; [exact Hcf|exact Hctx].
Qed.

(** In a format whose samples are narrower than 5/6 of the floating point type
    - all but 32 and 64-bit ones, or all but [double] in a double precision
    build - the samples given for before the first frame have no influence: the
    memory that is converted was sized and filled for floating point samples,
    and the conversion ends before it reaches them. *)
Theorem initial_samples_lost `{T : Target} `{FF : FloatFormat} {Ok : FloatOk FF} `{LM : LibM} fmt ctx buffer samples samples' tctx :
  0 ≤ fmt ≤ 7 → 1536 * sample_width fmt ≤ 1280 * sizeof_FLOAT → ctx_ok ctx → tctx_ok ctx tctx →
  256 * Ctx.n_all_channels ctx * sizeof_FLOAT ≤ zlen samples → 256 * Ctx.n_all_channels ctx * sizeof_FLOAT ≤ zlen samples' →
  init_samples ctx buffer (Some samples) (calloc_audio (set_converter None fmt)) [tctx] =
  init_samples ctx buffer (Some samples') (calloc_audio (set_converter None fmt)) [tctx].
Proof.
  intros Hf Hw Hcx [Hok _ _] Hl Hl'. pose proof (n_range _ Hcx) as Hn. unfold init_samples. cbn [mbind option_bind aget].
  change (aget [tctx] 0) with (Some tctx). cbn [mbind option_bind].
  rewrite (load_initial_lost None fmt ctx buffer samples samples' (calloc_audio (set_converter None fmt)) (TCtx.frame tctx) Hf Hw ltac:(lia));
    [reflexivity|reflexivity|apply (sw_audio _ (frame_ok_samples _ Hok))|exact Hl|exact Hl'].
Qed.

(** Parameters for the examples: the defaults with the fields that have none. *)
Definition defaults_with (channels acmod lfe samplerate : Z) : AftenContext.t :=
  aften_set_defaults <| AftenContext.channels := channels |> <| AftenContext.acmod := acmod |>
    <| AftenContext.lfe := lfe |> <| AftenContext.samplerate := samplerate |>.

(** The checks of [aften_encode_init] leave gaps.  With the LFE flag at its
    default of -1 a stereo stream is accepted, and encoded as three channels of
    which only two exist; the stereo mode is accepted for one channel; a
    bandwidth code above 60, the last one, results from an unchecked maximum
    when the code is computed; and the default bit rate is refused for four and
    five channels at a halved and for two and more at a quartered sample rate,
    where it is not in the table. *)
Theorem configure_gaps :
  (∃ c q, configure (defaults_with 2 2 (-1) 48000) = Some (inr (c, q)) ∧ Ctx.n_channels c = 3 ∧ Ctx.n_all_channels c = 2) ∧
  (∃ c q, configure (defaults_with 1 2 0 48000) = Some (inr (c, q)) ∧ Ctx.acmod c = A52_ACMOD_STEREO ∧ Ctx.n_channels c = 1) ∧
  (∃ c q, let s := defaults_with 2 2 0 48000 in
     configure (s <| AftenContext.params := (AftenContext.params s) <| EncParams.max_bwcode := 300 |> <| EncParams.bitrate := 640 |> |>) = Some (inr (c, q)) ∧
     60 < Ctx.fixed_bwcode c) ∧
  (∀ c, 1 ≤ c ≤ 5 → known_bitrate 0 (default_bitrate c 0) = true ∧ known_bitrate 1 (default_bitrate c 0) = (c <? 4) ∧
     known_bitrate 2 (default_bitrate c 0) = (c <? 2)) ∧
  configure (defaults_with 5 7 0 24000) = Some (inl (-1)) ∧ configure (defaults_with 2 2 0 12000) = Some (inl (-1)).
Proof.
  split; [vm_compute; eexists _, _; split; [reflexivity|split; reflexivity]|].
  split; [vm_compute; eexists _, _; split; [reflexivity|split; reflexivity]|].
  split; [vm_compute; eexists _, _; split; reflexivity|].
  split; [|split; vm_compute; reflexivity]. intros c Hc.
  assert (Hc' : c = 1 ∨ c = 2 ∨ c = 3 ∨ c = 4 ∨ c = 5) by lia.
  destruct Hc' as [-> |[-> |[-> |[-> | ->]]]]; vm_compute; repeat split.
Qed.

(** * Witnesses *)

Definition example_heap (j k : Z) : list (list FLOAT) * list (list FLOAT) :=
  (replicate 6 (replicate 512 zero_float), replicate 6 (replicate 256 zero_float)).

Lemma example_consistent : consistent (defaults_with 2 2 0 48000).
Proof. split; simpl; [by left|lia|lia]. Qed.

Lemma example_heap_ok : heap_ok example_heap.
Proof. intros j k. split; [exact (dim2_replicate 6 512 _)|exact (dim2_replicate 6 256 _)]. Qed.

(** Four threads asked for on one processor. *)
Lemma aften_encode_init_correct_witness :
  accepted (defaults_with 2 2 0 48000) = true ∧ ∃ enc, encoder_ok (H := single_format) enc ∧
    aften_encode_init (T := little_endian) (FF := single_format) (LM := still) (Some ((defaults_with 2 2 0 48000) <| AftenContext.n_threads := 4 |>)) 1
      example_heap (replicate 1536 zero_float) None = Some (inr ((defaults_with 2 2 0 48000) <| AftenContext.n_threads := 4 |>, enc)).
Proof.
  split; [vm_compute; reflexivity|].
  destruct (aften_encode_init_correct (T := little_endian) (FF := single_format) (LM := still) ((defaults_with 2 2 0 48000) <| AftenContext.n_threads := 4 |>) 1
    example_heap (replicate 1536 zero_float) None ltac:(destruct example_consistent as [H1 H2 H3]; split; assumption) example_heap_ok ltac:(reflexivity) I ltac:(lia)) as [_ Hgood].
  destruct Hgood as (enc & Henc & Heq & _).
  { split; [vm_compute; reflexivity|intros [Hu _]; apply Hu; reflexivity]. }
  exists enc. split; [exact Henc|exact Heq].
Defined.

Lemma initial_samples_lost_witness :
  init_samples (FF := single_format) silent_ctx (replicate 1536 zero_float) (Some (replicate 2048 255))
    (calloc_audio (set_converter (H0 := single_format) (H := little_endian) None A52_SAMPLE_FMT_S16)) [silent_tctx] =
  init_samples (FF := single_format) silent_ctx (replicate 1536 zero_float) (Some (replicate 2048 0))
    (calloc_audio (set_converter (H0 := single_format) (H := little_endian) None A52_SAMPLE_FMT_S16)) [silent_tctx].
Proof.
  apply (initial_samples_lost (T := little_endian) (FF := single_format) (LM := still) A52_SAMPLE_FMT_S16 silent_ctx (replicate 1536 zero_float)
    (replicate 2048 255) (replicate 2048 0) silent_tctx); [split; vm_compute; discriminate|vm_compute; discriminate|exact silent_ctx_ok|exact silent_tctx_ok|vm_compute; discriminate|vm_compute; discriminate].
Defined.
