(* ===== verification/SampleRing.v ===== *)
(** The order of the samples: the part of [copy_samples] in
    [libaften/a52enc.c] that is synchronised by [samples_mutex],
    [samples_thread_num] and the [samples_cond] of the threads, with POSIX
    threads, as a step relation in which the workers and the caller interleave
    in any way.  A condition variable wakes a thread that sleeps on it when it
    is signalled; a signal without a sleeper is lost, and a thread may wake up
    without a signal. *)
From Stdlib Require Import ZArith Lia ZifyBool Bool.
From stdpp Require Import base option list numbers.
From S2P Require Import Prelude CMachine.
Local Open Scope Z_scope.
Local Open Scope carray_scope.

(** Two of [n] numbers in a row with the same remainder are the same. *)
Lemma mod_window n a i j : 0 < n → a ≤ i < a + n → a ≤ j < a + n → i mod n = j mod n → i = j.
Proof.
  intros Hn Hi Hj He. rewrite !Z.mod_eq in He by lia. generalize dependent (i / n). generalize dependent (j / n).
  intros y x He. assert (Hn' : n * (x - y) = i - j) by lia. assert (x - y < 1) by nia. assert (-1 < x - y) by nia. nia.
Qed.

Module Ring.

(** Where a worker with a job is: before [posix_mutex_lock], at the test of
    the loop, in [posix_cond_wait], woken there but without the mutex, at the
    samples, before [posix_cond_signal], before [posix_mutex_unlock], behind
    it. *)
Inductive place := Arrived | Testing | Asleep | Awake | Copying | Signalling | Unlocking | Coding.

Inductive phase := Idle | At (p : place) (job : Z).

(** The jobs handed out so far, the turn, the owner of the mutex, the thread
    whose condition each thread signals, the workers, and the jobs in the order
    in which their samples were taken. *)
Record t := mk {
  given : Z;
  samples_thread_num : Z;
  samples_mutex : option Z;
  next_samples_cond : list Z;
  workers : list phase;
  copied : list Z
}.

#[global] Instance phase_inhabited : Inhabited phase := populate Idle.

(** A signal on the condition of thread [k] *)
Definition posix_cond_signal (ws : list phase) (k : Z) : list phase :=
  match ws.[k] with At Asleep j => upd ws k (At Awake j) | _ => ws end.

(** A step of worker [k] with job [j]. *)
Inductive worker_step (n : Z) : t → t → Prop :=
  | lock g turn next ws c k j :
      0 ≤ k < n → ws.[k] = At Arrived j →
      worker_step n (mk g turn None next ws c) (mk g turn (Some k) next (upd ws k (At Testing j)) c)
  | wait g turn m next ws c k j :
      0 ≤ k < n → ws.[k] = At Testing j → turn ≠ k →
      worker_step n (mk g turn m next ws c) (mk g turn None next (upd ws k (At Asleep j)) c)
  | relock g turn next ws c k j :
      0 ≤ k < n → ws.[k] = At Awake j →
      worker_step n (mk g turn None next ws c) (mk g turn (Some k) next (upd ws k (At Testing j)) c)
  | enter g turn m next ws c k j :
      0 ≤ k < n → ws.[k] = At Testing j → turn = k →
      worker_step n (mk g turn m next ws c) (mk g turn m next (upd ws k (At Copying j)) c)
  | copy g turn m next ws c k j :
      0 ≤ k < n → ws.[k] = At Copying j →
      worker_step n (mk g turn m next ws c) (mk g (Z.rem (turn + 1) n) m next (upd ws k (At Signalling j)) (c ++ [j]))
  | signal g turn m next ws c k j :
      0 ≤ k < n → ws.[k] = At Signalling j →
      worker_step n (mk g turn m next ws c) (mk g turn m next (upd (posix_cond_signal ws next.[k]) k (At Unlocking j)) c)
  | unlock g turn m next ws c k j :
      0 ≤ k < n → ws.[k] = At Unlocking j →
      worker_step n (mk g turn m next ws c) (mk g turn None next (upd ws k (At Coding j)) c)
  | finish g turn m next ws c k j :
      0 ≤ k < n → ws.[k] = At Coding j →
      worker_step n (mk g turn m next ws c) (mk g turn m next (upd ws k Idle) c).

(** The caller gives job [given] to worker [given mod n] when that one waits
    for it. *)
Inductive caller_step (n : Z) : t → t → Prop :=
  | give g turn m next ws c :
      ws.[g mod n] = Idle →
      caller_step n (mk g turn m next ws c) (mk (g + 1) turn m next (upd ws (g mod n) (At Arrived g)) c).

(** [posix_cond_wait] may return without a signal. *)
Inductive spurious_step (n : Z) : t → t → Prop :=
  | spurious g turn m next ws c k j :
      0 ≤ k < n → ws.[k] = At Asleep j →
      spurious_step n (mk g turn m next ws c) (mk g turn m next (upd ws k (At Awake j)) c).

Definition step (n : Z) (s s' : t) : Prop := worker_step n s s' ∨ caller_step n s s' ∨ spurious_step n s s'.

(** The threads of [aften_encode_init]. *)
Definition start (n : Z) : t :=
  mk 0 0 None (map (λ j, Z.rem (j + 1) n) (seqZ 0 n)) (replicate (Z.to_nat n) Idle) [].

Inductive reachable (n : Z) : t → Prop :=
  | reach_start : reachable n (start n)
  | reach_step s s' : reachable n s → step n s s' → reachable n s'.

(** [m] steps of workers, with [u] wake-ups without a signal in between. *)
Inductive run (n : Z) : Z → Z → t → t → Prop :=
  | run_here s : run n 0 0 s s
  | run_worker m u s s' s'' : run n m u s s' → worker_step n s' s'' → run n (m + 1) u s s''
  | run_spurious m u s s' s'' : run n m u s s' → spurious_step n s' s'' → run n m (u + 1) s s''.

(** ** The jobs *)

Definition pending (p : place) : bool :=
  match p with Arrived | Testing | Asleep | Awake | Copying => true | _ => false end.

Definition critical (p : place) : bool :=
  match p with Testing | Copying | Signalling | Unlocking => true | _ => false end.

(** Samples are taken in the order in which jobs are handed out; the jobs whose
    samples were not are with their workers. *)
Record jobs_ok (n : Z) (s : t) : Prop := {
  rg_workers : zlen (workers s) = n;
  rg_copied : copied s = seqZ 0 (zlen (copied s));
  rg_turn : samples_thread_num s = zlen (copied s) mod n;
  rg_given : zlen (copied s) ≤ given s ≤ zlen (copied s) + n;
  rg_pending : ∀ j, zlen (copied s) ≤ j < given s → ∃ p, (workers s).[j mod n] = At p j ∧ pending p = true;
  rg_jobs : ∀ k p j, 0 ≤ k < n → (workers s).[k] = At p j → pending p = true →
    zlen (copied s) ≤ j < given s ∧ j mod n = k
}.

(** The mutex excludes; a worker at the samples has the turn; and the worker
    with the turn sleeps only while another is about to signal it. *)
Record sync_ok (n : Z) (s : t) : Prop := {
  rg_next : next_samples_cond s = map (λ j, Z.rem (j + 1) n) (seqZ 0 n);
  rg_owner : ∀ k, samples_mutex s = Some k → 0 ≤ k < n ∧ ∃ p j, (workers s).[k] = At p j ∧ critical p = true;
  rg_mutex : ∀ k p j, 0 ≤ k < n → (workers s).[k] = At p j → critical p = true → samples_mutex s = Some k;
  rg_copying : ∀ k j, 0 ≤ k < n → (workers s).[k] = At Copying j → samples_thread_num s = k;
  rg_signalling : ∀ k j, 0 ≤ k < n → (workers s).[k] = At Signalling j → samples_thread_num s = (k + 1) mod n;
  rg_wakeup : ∀ j, (workers s).[samples_thread_num s] = At Asleep j →
    ∃ k i, 0 ≤ k < n ∧ (workers s).[k] = At Signalling i
}.

Lemma start_ok n : 0 < n → jobs_ok n (start n) ∧ sync_ok n (start n).
Proof.
  intros Hn. assert (Hidle : ∀ k, 0 ≤ k < n → (replicate (Z.to_nat n) Idle).[k] = Idle) by (intros; apply at_replicate; lia).
  split; split; simpl; try done; try (intros; rewrite Hidle in *; [done|lia]).
  - rewrite zlen_replicate. lia.
  - unfold zlen. simpl. lia.
  - unfold zlen. simpl. lia.
Qed.

(** A worker goes from one place to another of the same kind. *)
Lemma jobs_move n g turn m m' next ws c k p p' j :
  0 ≤ k < n → ws.[k] = At p j → pending p = pending p' →
  jobs_ok n (mk g turn m next ws c) → jobs_ok n (mk g turn m' next (upd ws k (At p' j)) c).
Proof.
  intros Hk Hat Hp [Hl Hc Ht Hg Hw Hj]. simpl in *. split; simpl; try done; [by rewrite zlen_upd|..].
  - intros i Hi. destruct (Hw i Hi) as (q & Hq & Hqp). pose proof (Z.mod_pos_bound i n ltac:(lia)). rewrite at_upd by lia.
    destruct (Z.eqb_spec (i mod n) k) as [He|Hne]; [|by exists q]. exists p'. rewrite He, Hat in Hq. injection Hq as <- <-. by rewrite <- Hp.
  - intros i q i' Hi. rewrite at_upd by lia. destruct (Z.eqb_spec i k) as [-> |Hne]; [|by apply Hj].
    intros [= <- <-] Hq. apply (Hj k p j); [lia|done|congruence].
Qed.

(** A worker ends its job. *)
Lemma jobs_leave n g turn m next ws c k p j :
  0 ≤ k < n → ws.[k] = At p j → pending p = false →
  jobs_ok n (mk g turn m next ws c) → jobs_ok n (mk g turn m next (upd ws k Idle) c).
Proof.
  intros Hk Hat Hp [Hl Hc Ht Hg Hw Hj]. simpl in *. split; simpl; try done; [by rewrite zlen_upd|..].
  - intros i Hi. destruct (Hw i Hi) as (q & Hq & Hqp). pose proof (Z.mod_pos_bound i n ltac:(lia)). rewrite at_upd by lia.
    destruct (Z.eqb_spec (i mod n) k) as [He|Hne]; [|by exists q]. congruence.
  - intros i q i' Hi. rewrite at_upd by lia. destruct (Z.eqb_spec i k) as [-> |Hne]; [done|]. by apply Hj.
Qed.

(** A signal moves at most the sleeper. *)
Lemma jobs_signal n g turn m next ws c k :
  0 ≤ k < n → jobs_ok n (mk g turn m next ws c) → jobs_ok n (mk g turn m next (posix_cond_signal ws k) c).
Proof.
  intros Hk Hok. unfold posix_cond_signal. destruct ws.[k] as [|[] j] eqn:Hat; try done. by apply (jobs_move n g turn m m next ws c k Asleep).
Qed.

(** A worker takes its samples: its job is the oldest. *)
Lemma jobs_copy n g turn m next ws c k j :
  0 < n → 0 ≤ k < n → ws.[k] = At Copying j → turn = k →
  jobs_ok n (mk g turn m next ws c) → jobs_ok n (mk g (Z.rem (turn + 1) n) m next (upd ws k (At Signalling j)) (c ++ [j])).
Proof.
  intros Hn Hk Hat -> [Hl Hc Ht Hg Hw Hj]. simpl in *.
  destruct (Hj k Copying j Hk Hat eq_refl) as [Hjr Hjk].
  assert (Hjc : j = zlen c) by (apply (mod_window n (zlen c)); lia).
  assert (Hlen : zlen (c ++ [j]) = zlen c + 1) by (rewrite zlen_app; unfold zlen; simpl; lia).
  split; simpl; rewrite ?zlen_upd, ?Hlen; try done; try lia.
  - rewrite Hjc at 1. rewrite Hc at 1. rewrite seqZ_app by (unfold zlen; lia). f_equal; rewrite ?Hjc; f_equal; lia.
  - rewrite Z.rem_mod_nonneg by lia. rewrite <- Hjk, Hjc. apply Zplus_mod_idemp_l.
  - intros i Hi. pose proof (Z.mod_pos_bound i n Hn). rewrite at_upd_ne; [apply Hw; lia|lia|lia|]. intros He. rewrite <- Hjk in He.
    apply (mod_window n (zlen c)) in He; lia.
  - intros i p i' Hi. rewrite at_upd by lia. destruct (Z.eqb_spec i k) as [-> |Hne]; [by intros [= <- <-]|].
    intros Hwi Hp. destruct (Hj i p i' Hi Hwi Hp) as [Hr He]. split; [|done]. enough (i' ≠ zlen c) by lia. intros ->. congruence.
Qed.

(** The caller hands out a job: its worker had ended the one before. *)
Lemma jobs_give n g turn m next ws c :
  0 < n → ws.[g mod n] = Idle →
  jobs_ok n (mk g turn m next ws c) → jobs_ok n (mk (g + 1) turn m next (upd ws (g mod n) (At Arrived g)) c).
Proof.
  intros Hn Hidle [Hl Hc Ht Hg Hw Hj]. simpl in *.
  assert (Hroom : g < zlen c + n).
  { destruct (Z.eq_dec g (zlen c + n)) as [He|]; [|lia]. destruct (Hw (g - n) ltac:(lia)) as (p & Hp & _).
    replace ((g - n) mod n) with (g mod n) in Hp; [congruence|].
    replace g with (g - n + 1 * n) at 1 by lia. apply Z.mod_add. lia. }
  pose proof (Z.mod_pos_bound g n Hn) as Hm. split; simpl; rewrite ?zlen_upd; try done; try lia.
  - intros j Hjr. destruct (Z.eq_dec j g) as [-> |Hne]; [rewrite at_upd_eq by lia; by exists Arrived|].
    pose proof (Z.mod_pos_bound j n Hn). rewrite at_upd_ne; [apply Hw; lia|lia|lia|].
    intros He. apply Hne. apply (mod_window n (zlen c)); lia.
  - intros k p j Hk. rewrite at_upd by lia. destruct (Z.eqb_spec k (g mod n)) as [-> |Hne].
    + intros [= <- <-]. lia.
    + intros Hwk Hp. apply Hj in Hwk; [lia..|done].
Qed.

(** ** The mutex and the condition variables *)

(** A hypothesis about a worker of an updated array, by cases. *)
Ltac updated := repeat match goal with
  | H : (upd _ _ _).[_] = At _ _ |- _ => rewrite at_upd in H by lia
  | H : (if ?a =? ?b then _ else _) = At _ _ |- _ => destruct (Z.eqb_spec a b); simplify_eq
  end.

(** A worker that has the mutex, or takes it, goes to a place within or behind
    the critical section. *)
Lemma sync_inside n g turn m next ws c k p p' j :
  0 ≤ k < n → zlen ws = n → 0 ≤ turn < n → ws.[k] = At p j → m = None ∨ critical p = true →
  (p' = Asleep → turn ≠ k) → (p' = Copying → turn = k) → p' ≠ Signalling →
  (p = Signalling → ∀ i, ws.[turn] ≠ At Asleep i) →
  sync_ok n (mk g turn m next ws c) →
  sync_ok n (mk g turn (if critical p' then Some k else None) next (upd ws k (At p' j)) c).
Proof.
  intros Hk Hl Ht Hat Hm Hsleep Hcopy Hsig Hwake [Hnx Ho Hmx Hcp Hsg Hwk]. simpl in *.
  assert (Hex : ∀ i q i', 0 ≤ i < n → i ≠ k → ws.[i] = At q i' → critical q = false).
  { intros i q i' Hi Hne Hq. destruct (critical q) eqn:Hc; [|done]. exfalso. pose proof (Hmx i q i' Hi Hq Hc) as Hi'.
    destruct Hm as [->|Hp]; [done|]. pose proof (Hmx k p j Hk Hat Hp). congruence. }
  split; simpl; try done.
  - intros i Hi. destruct (critical p') eqn:Hp'; [|done]. injection Hi as <-. split; [done|]. exists p', j. by rewrite at_upd_eq by lia.
  - intros i q i' Hi Hq Hc. updated; [by rewrite Hc|]. rewrite (Hex i q i') in Hc; done.
  - intros i i' Hi Hq. updated; eauto.
  - intros i i' Hi Hq. updated; eauto.
  - intros i Hi. updated; [by destruct (Hsleep eq_refl)|]. destruct (Hwk i Hi) as (w & i' & Hw & Hws).
    destruct (Z.eq_dec w k) as [-> |Hne]; [|exists w, i'; by rewrite at_upd_ne by lia].
    rewrite Hat in Hws. injection Hws as -> ->. by destruct (Hwake eq_refl i).
Qed.

(** A worker outside the critical section, asleep or not, goes to a place
    outside. *)
Lemma sync_outside n g g' turn m next ws c k x :
  0 ≤ k < n → zlen ws = n → 0 ≤ turn < n →
  (∀ p j, ws.[k] = At p j → critical p = false) → (∀ p j, x = At p j → critical p = false ∧ p ≠ Asleep) →
  sync_ok n (mk g turn m next ws c) → sync_ok n (mk g' turn m next (upd ws k x) c).
Proof.
  intros Hk Hl Ht Hold Hnew [Hnx Ho Hmx Hcp Hsg Hwk]. simpl in *. split; simpl; try done.
  - intros i Hi. destruct (Ho i Hi) as (Hir & p & j & Hp & Hc). split; [done|]. exists p, j. split; [|done].
    rewrite at_upd_ne; try lia; [done|]. intros ->. rewrite (Hold p j Hp) in Hc. done.
  - intros i q i' Hi Hq Hc. updated; [|by eapply Hmx]. destruct (Hnew q i' eq_refl). congruence.
  - intros i i' Hi Hq. updated; [|eauto]. by destruct (Hnew Copying i' eq_refl).
  - intros i i' Hi Hq. updated; [|eauto]. by destruct (Hnew Signalling i' eq_refl).
  - intros i Hi. updated; [by destruct (Hnew Asleep i eq_refl)|]. destruct (Hwk i Hi) as (w & i' & Hw & Hws). exists w, i'. split; [done|].
    rewrite at_upd_ne; try lia; [done|]. intros ->. by specialize (Hold _ _ Hws).
Qed.

(** The worker with the turn passes it on. *)
Lemma sync_copy n g turn m next ws c c' k j :
  0 ≤ k < n → zlen ws = n → turn = k → ws.[k] = At Copying j →
  sync_ok n (mk g turn m next ws c) → sync_ok n (mk g (Z.rem (turn + 1) n) m next (upd ws k (At Signalling j)) c').
Proof.
  intros Hk Hl -> Hat [Hnx Ho Hmx Hcp Hsg Hwk]. simpl in *. rewrite Z.rem_mod_nonneg by lia.
  pose proof (Z.mod_pos_bound (k + 1) n ltac:(lia)) as Hb. pose proof (Hmx k _ _ Hk Hat eq_refl) as Hown.
  split; simpl; try done.
  - intros i Hi. assert (i = k) as -> by congruence. split; [done|]. exists Signalling, j. by rewrite at_upd_eq by lia.
  - intros i q i' Hi Hq Hc. updated; [done|]. by eapply Hmx.
  - intros i i' Hi Hq. updated. by destruct (Hcp i i' Hi Hq).
  - intros i i' Hi Hq. updated; [done|]. pose proof (Hmx i _ _ Hi Hq eq_refl). congruence.
  - intros i Hi. exists k, j. by rewrite at_upd_eq by lia.
Qed.

(** A signal wakes the sleeper on the condition, and moves nobody else. *)
Lemma signal_woken ws k i : 0 ≤ k < zlen ws → (posix_cond_signal ws k).[k] ≠ At Asleep i.
Proof. intros Hk. unfold posix_cond_signal. destruct ws.[k] as [|[] j] eqn:Hat; rewrite ?Hat; try done. by rewrite at_upd_eq by lia. Qed.

Lemma signal_others ws k i p j : 0 ≤ k < zlen ws → 0 ≤ i → ws.[i] = At p j → p ≠ Asleep → (posix_cond_signal ws k).[i] = At p j.
Proof.
  intros Hk Hi Hp Hne. unfold posix_cond_signal. destruct ws.[k] as [|[] j'] eqn:Hat; try done. rewrite at_upd_ne; try lia; [done|].
  intros ->. congruence.
Qed.

Lemma zlen_signal ws k : zlen (posix_cond_signal ws k) = zlen ws.
Proof. unfold posix_cond_signal. destruct ws.[k] as [|[] j]; by rewrite ?zlen_upd. Qed.

Lemma sync_signal n g turn m next ws c k :
  0 ≤ k < n → zlen ws = n → 0 ≤ turn < n →
  sync_ok n (mk g turn m next ws c) → sync_ok n (mk g turn m next (posix_cond_signal ws k) c).
Proof.
  intros Hk Hl Ht Hok. unfold posix_cond_signal. destruct ws.[k] as [|[] j] eqn:Hat; try done.
  apply (sync_outside n g); try done; [by intros p i; rewrite Hat; intros [= <- <-]|by intros p i [= <- <-]].
Qed.

Lemma at_next n k : 0 ≤ k < n → (map (λ j, Z.rem (j + 1) n) (seqZ 0 n)).[k] = (k + 1) mod n.
Proof.
  intros Hk. unfold at_. rewrite list_lookup_total_alt, list_lookup_fmap.
  rewrite (lookup_seqZ_lt 0 n (Z.to_nat k)) by lia. simpl. rewrite Z.rem_mod_nonneg by lia. f_equal. lia.
Qed.

Lemma owner n g turn m next ws c k p j :
  sync_ok n (mk g turn m next ws c) → 0 ≤ k < n → ws.[k] = At p j → critical p = true → m = Some k.
Proof. intros Hs. apply (rg_mutex _ _ Hs). Qed.

(** ** The invariant *)

Lemma worker_step_ok n s s' : 0 < n → jobs_ok n s → sync_ok n s → worker_step n s s' → jobs_ok n s' ∧ sync_ok n s'.
Proof.
  intros Hn Hj Hs Hstep. pose proof (rg_workers _ _ Hj) as Hl. pose proof (rg_turn _ _ Hj) as Ht.
  pose proof (Z.mod_pos_bound (zlen (copied s)) n Hn) as Hb. rewrite <- Ht in Hb.
  destruct Hstep as [g turn next ws c k j Hk Hat|g turn m next ws c k j Hk Hat Hne|g turn next ws c k j Hk Hat|g turn m next ws c k j Hk Hat Heq
    |g turn m next ws c k j Hk Hat|g turn m next ws c k j Hk Hat|g turn m next ws c k j Hk Hat|g turn m next ws c k j Hk Hat]; simpl in *.
  - split; [by eapply jobs_move|]. eapply (sync_inside n g turn None next ws c k Arrived Testing); try done. by left.
  - split; [by eapply jobs_move|]. eapply (sync_inside n g turn m next ws c k Testing Asleep); try done. by right.
  - split; [by eapply jobs_move|]. eapply (sync_inside n g turn None next ws c k Awake Testing); try done. by left.
  - split; [by eapply jobs_move|]. rewrite (owner n g turn m next ws c k Testing j Hs Hk Hat eq_refl).
    eapply (sync_inside n g turn m next ws c k Testing Copying _ Hk Hl Hb Hat); try done. by right.
  - pose proof (rg_copying _ _ Hs k j Hk Hat) as Heq. split; [by apply jobs_copy|by apply (sync_copy n g turn m next ws c)].
  - pose proof (rg_next _ _ Hs) as Hnx. pose proof (rg_signalling _ _ Hs k j Hk Hat) as Hturn. simpl in Hnx, Hturn.
    rewrite Hnx, at_next by lia. rewrite <- Hturn, <- Hnx.
    assert (Hat' : (posix_cond_signal ws turn).[k] = At Signalling j) by (apply signal_others; [lia..|done|done]).
    split; [eapply jobs_move; [done|exact Hat'|done|by apply jobs_signal]|].
    rewrite (owner n g turn m next ws c k Signalling j Hs Hk Hat eq_refl).
    eapply (sync_inside n g turn m next _ c k Signalling Unlocking); try done; [by rewrite zlen_signal|by right| |by apply sync_signal].
    intros _ i. apply signal_woken. lia.
  - split; [by eapply jobs_move|]. eapply (sync_inside n g turn m next ws c k Unlocking Coding); try done. by right.
  - split; [by eapply jobs_leave|]. eapply sync_outside; try done. intros p i. rewrite Hat. by intros [= <- <-].
Qed.

Lemma step_ok n s s' : 0 < n → jobs_ok n s → sync_ok n s → step n s s' → jobs_ok n s' ∧ sync_ok n s'.
Proof.
  intros Hn Hj Hs [Hw|[Hc|Hc]]; [by apply (worker_step_ok n s)|..].
  all: pose proof (rg_workers _ _ Hj) as Hl; pose proof (rg_turn _ _ Hj) as Ht.
  all: pose proof (Z.mod_pos_bound (zlen (copied s)) n Hn) as Hb; rewrite <- Ht in Hb.
  - destruct Hc as [g turn m next ws c Hidle]. simpl in *. split; [by apply jobs_give|].
    eapply (sync_outside n g); try done; [apply Z.mod_pos_bound; lia|by intros p i; rewrite Hidle|by intros p i [= <- <-]].
  - destruct Hc as [g turn m next ws c k j Hk Hat]. simpl in *. split; [by eapply jobs_move|].
    eapply sync_outside; try done; [by intros p i; rewrite Hat; intros [= <- <-]|by intros p i [= <- <-]].
Qed.

Lemma reachable_ok n s : 0 < n → reachable n s → jobs_ok n s ∧ sync_ok n s.
Proof. intros Hn. induction 1 as [|s s' _ [Hj Hs] Hst]; [by apply start_ok|by apply (step_ok n s)]. Qed.

(** ** Every worker gets on *)

(** How many steps a worker can take before it waits for the caller; a wake-up
    is paid for by the one who signals. *)
Definition weight (x : phase) : Z :=
  match x with
  | Idle => 0 | At Coding _ => 1 | At Unlocking _ => 2 | At Signalling _ => 5 | At Copying _ => 6
  | At Asleep _ => 6 | At Testing _ => 7 | At Awake _ => 8 | At Arrived _ => 8
  end.

Definition work (ws : list phase) : Z := foldr (λ x w, weight x + w) 0 ws.

Lemma weight_bounds x : 0 ≤ weight x ≤ 8.
Proof. destruct x as [|[] ?]; simpl; lia. Qed.

Lemma work_bounds ws : 0 ≤ work ws ≤ 8 * zlen ws.
Proof.
  induction ws as [|x ws IH]; [done|]. rewrite zlen_cons. simpl. pose proof (weight_bounds x). lia.
Qed.

Lemma work_upd ws k x : 0 ≤ k < zlen ws → work (upd ws k x) = work ws - weight ws.[k] + weight x.
Proof.
  unfold upd, at_. intros Hk. assert (Hn : (Z.to_nat k < length ws)%nat) by (unfold zlen in Hk; lia). clear Hk.
  generalize (Z.to_nat k), Hn. clear. induction ws as [|y ws IH]; simpl; intros i Hi; [lia|].
  destruct i as [|i]; simpl; [lia|]. rewrite IH by lia. change ((y :: ws) !!! S i) with (ws !!! i). lia.
Qed.

Lemma work_signal ws k : 0 ≤ k < zlen ws → work (posix_cond_signal ws k) ≤ work ws + 2.
Proof.
  intros Hk. unfold posix_cond_signal. destruct ws.[k] as [|[] j] eqn:Hat; try lia. rewrite work_upd by done. rewrite Hat. simpl. lia.
Qed.

Lemma worker_step_work n s s' : 0 < n → jobs_ok n s → sync_ok n s → worker_step n s s' → work (workers s') < work (workers s).
Proof.
  intros Hn Hj Hs Hstep. pose proof (rg_workers _ _ Hj) as Hl. pose proof (rg_next _ _ Hs) as Hnx.
  destruct Hstep as [g turn next ws c k j Hk Hat|g turn m next ws c k j Hk Hat Hne|g turn next ws c k j Hk Hat|g turn m next ws c k j Hk Hat Heq
    |g turn m next ws c k j Hk Hat|g turn m next ws c k j Hk Hat|g turn m next ws c k j Hk Hat|g turn m next ws c k j Hk Hat]; simpl in *.
  6: { subst next. rewrite at_next by lia. pose proof (Z.mod_pos_bound (k + 1) n Hn) as Hb.
    rewrite work_upd by (rewrite zlen_signal; lia). rewrite (signal_others ws _ k Signalling j) by (done || lia).
    pose proof (work_signal ws ((k + 1) mod n) ltac:(lia)). simpl. lia. }
  all: rewrite work_upd by lia; rewrite Hat; simpl; lia.
Qed.

Lemma run_ok n m u s s' :
  0 < n → jobs_ok n s → sync_ok n s → run n m u s s' →
  jobs_ok n s' ∧ sync_ok n s' ∧ given s' = given s ∧ m + work (workers s') ≤ work (workers s) + 2 * u.
Proof.
  intros Hn Hj Hs. induction 1 as [s|m u s s' s'' _ IH Hst|m u s s' s'' _ IH Hst]; [by split_and!; [..|lia]|..];
    destruct (IH Hj Hs) as (Hj' & Hs' & Hg & Hw).
  - destruct (step_ok n s' s'') as [Hj'' Hs'']; [done..|by left|]. split_and!; try done.
    + rewrite <- Hg. by destruct Hst.
    + pose proof (worker_step_work n s' s'' Hn Hj' Hs' Hst). lia.
  - destruct (step_ok n s' s'') as [Hj'' Hs'']; [done..|by right; right|]. split_and!; try done.
    + rewrite <- Hg. by destruct Hst.
    + pose proof (rg_workers _ _ Hj') as Hl. destruct Hst as [g turn mx next ws c k j Hk Hat]. simpl in *.
      rewrite work_upd by lia. rewrite Hat. simpl. lia.
Qed.

(** A worker outside [posix_cond_wait] that the mutex does not hold up can
    step. *)
Lemma can_step n s k p j :
  0 ≤ k < n → (workers s).[k] = At p j → p ≠ Asleep → critical p = true ∨ samples_mutex s = None → ∃ s', worker_step n s s'.
Proof.
  intros Hk Hat Hne Hm. destruct s as [g turn m next ws c]. simpl in *. destruct p; try done.
  - destruct Hm as [?| ->]; [done|]. eexists. by eapply lock.
  - destruct (Z.eq_dec turn k); eexists; [by eapply enter|by eapply wait].
  - destruct Hm as [?| ->]; [done|]. eexists. by eapply relock.
  - eexists. by eapply copy.
  - eexists. by eapply signal.
  - eexists. by eapply unlock.
  - eexists. by eapply finish.
Qed.

(** When no worker can step, all of them wait for the caller. *)
Lemma quiet_idle n s :
  0 < n → jobs_ok n s → sync_ok n s → (∀ s', ¬ worker_step n s s') →
  zlen (copied s) = given s ∧ ∀ k, 0 ≤ k < n → (workers s).[k] = Idle.
Proof.
  intros Hn Hj Hs Hq.
  assert (Hm : samples_mutex s = None).
  { destruct (samples_mutex s) as [k|] eqn:Hm; [|done]. destruct (rg_owner _ _ Hs k Hm) as (Hk & p & j & Hp & Hc).
    destruct (can_step n s k p j) as [s' Hs']; [done..| |by left|by destruct (Hq s')]. by intros ->. }
  assert (Hall : ∀ k p j, 0 ≤ k < n → (workers s).[k] = At p j → p = Asleep).
  { intros k p j Hk Hp. destruct p; try done; edestruct (can_step n s k) as [s' Hs']; try done; try (by right); by destruct (Hq s'). }
  assert (Hdone : zlen (copied s) = given s).
  { pose proof (rg_given _ _ Hj). destruct (Z.eq_dec (zlen (copied s)) (given s)) as [|Hne]; [done|exfalso].
    destruct (rg_pending _ _ Hj (zlen (copied s)) ltac:(lia)) as (p & Hp & _). rewrite <- (rg_turn _ _ Hj) in Hp.
    assert (p = Asleep) as ->. { eapply Hall; [|exact Hp]. rewrite (rg_turn _ _ Hj). by apply Z.mod_pos_bound. }
    destruct (rg_wakeup _ _ Hs _ Hp) as (k & i & Hk & Hsig). by pose proof (Hall k _ i Hk Hsig). }
  split; [done|]. intros k Hk. destruct (workers s).[k] as [|p j] eqn:Hp; [done|exfalso].
  pose proof (Hall k p j Hk Hp) as ->. destruct (rg_jobs _ _ Hj k Asleep j Hk Hp eq_refl) as [Hr _]. lia.
Qed.
End Ring.


(** Two threads, one of them asleep on its condition with the second frame,
    while the first takes its samples. *)
Definition one_asleep : Ring.t :=
  Ring.mk 2 0 (Some 0) [1; 0] [Ring.At Ring.Copying 0; Ring.At Ring.Asleep 1] [].

Lemma one_asleep_reachable : Ring.reachable 2 one_asleep.
Proof.
  assert (Hs : ∀ s s', Ring.reachable 2 s → Ring.worker_step 2 s s' → Ring.reachable 2 s')
    by (intros s s' Hr Hw; apply (Ring.reach_step 2 s s' Hr); by left).
  assert (Hg : ∀ s s', Ring.reachable 2 s → Ring.caller_step 2 s s' → Ring.reachable 2 s')
    by (intros s s' Hr Hw; apply (Ring.reach_step 2 s s' Hr); right; by left).
  refine (Hs _ _ _ (Ring.enter 2 2 0 (Some 0) [1; 0] [Ring.At Ring.Testing 0; Ring.At Ring.Asleep 1] [] 0 0 ltac:(lia) eq_refl eq_refl)).
  refine (Hs _ _ _ (Ring.lock 2 2 0 [1; 0] [Ring.At Ring.Arrived 0; Ring.At Ring.Asleep 1] [] 0 0 ltac:(lia) eq_refl)).
  refine (Hs _ _ _ (Ring.wait 2 2 0 (Some 1) [1; 0] [Ring.At Ring.Arrived 0; Ring.At Ring.Testing 1] [] 1 1 ltac:(lia) eq_refl ltac:(lia))).
  refine (Hs _ _ _ (Ring.lock 2 2 0 [1; 0] [Ring.At Ring.Arrived 0; Ring.At Ring.Arrived 1] [] 1 1 ltac:(lia) eq_refl)).
  refine (Hg _ _ _ (Ring.give 2 1 0 None [1; 0] [Ring.At Ring.Arrived 0; Ring.Idle] [] eq_refl)).
  exact (Hg _ _ (Ring.reach_start 2) (Ring.give 2 0 0 None [1; 0] [Ring.Idle; Ring.Idle] [] eq_refl)).
Qed.

