(* ===== verification/Threads.v ===== *)
(** The threads of [libaften/a52enc.c]: [threaded_worker], [prepare_encode],
    [process_frame_parallel] and the thread part of [aften_encode_close], over
    an arbitrary job for [process_frame].

    A worker touches its thread context only between the signal on its
    [enter_cond] and its next wait there, and the caller only while the worker
    waits; the audio state they share is used in the order of the calls, which
    [SampleRing] proves of the [samples_cond] protocol for every interleaving.  So the
    model runs a worker, from its wake-up to its next wait, where the caller
    signals it.  The theorems are about the protocol: which call returns which
    frame, that the flush ends, and when joining the threads blocks. *)
From Stdlib Require Import ZArith Lia ZifyBool Bool.
From stdpp Require Import base option list numbers.
From coqutil Require Import Datatypes.RecordSettersUsingExistingGetters.
From S2P Require Import Prelude CMachine Float BitIO Types FrameOut Samples Process Init SampleRing.
Local Open Scope Z_scope.
Local Open Scope carray_scope.

(** * The workers and their caller *)

(** [ThreadState] *)
Inductive ThreadState := START | WORK | END | ABORT.
#[global] Instance ThreadState_eq_dec : EqDecision ThreadState.
Proof. solve_decision. Defined.

(** The thread's part of [A52ThreadContext], and whether the worker returned. *)
Module Thread.
Record t := mk { state : ThreadState; tctx : TCtx.t; frame_buffer : list Z; exited : bool }.
End Thread.

(** The part of [A52Context] that changes between frames, with the
    [A52GlobalThreadSync] but [samples_thread_num], and the user's status. *)
Module Session.
Record t := mk {
  ctx : Ctx.t;
  audio : Audio.t;
  threads : list Thread.t;
  current_thread_num : Z;
  threads_to_abort : Z;
  threads_running : Z;
  status : Status.t
}.
End Session.

Definition set_thread (k : Z) (th : Thread.t) (ss : Session.t) : option Session.t :=
  ths ← aset (Session.threads ss) k th; Some (ss <| Session.threads := ths |>).

(** No more samples to encode: the last frame had so few that all of them,
    with the overlap, are in the frames so far. *)
Definition drained (ctx : Ctx.t) : bool :=
  (Ctx.last_samples_count ctx <=? A52_SAMPLES_PER_FRAME - 256) && negb (Ctx.last_samples_count ctx =? -1).

(** The samples of a call into a thread's frame. *)
Definition load_samples (ctx : Ctx.t) (au : Audio.t) (samples : list Z) (count : Z) (tctx : TCtx.t) : option TCtx.t :=
  audio ← convert_samples_from_src (Audio.fmt_convert_from_src au) ctx samples count (Frame.input_audio (TCtx.frame tctx));
  Some (put_frame ((TCtx.frame tctx) <| Frame.input_audio := audio |>) tctx).

(** [process_frame] on a thread's context and its own output buffer. *)
Class Job := job : Ctx.t → Audio.t → TCtx.t → list Z → option (Audio.t * TCtx.t * list Z * Z).

Section threads.
Context {J : Job}.

(** The worker [k] from the signal on [enter_cond] to its next wait or its end.
    [None] when the worker has ended: the caller would wait for its
    confirmation for ever. *)
Definition threaded_worker (k : Z) (ss : Session.t) : option Session.t :=
  th ← aget (Session.threads ss) k;
  if Thread.exited th then None else
  match Thread.state th with
  | END => set_thread k (th <| Thread.tctx := (Thread.tctx th) <| TCtx.framesize := 0 |> |> <| Thread.exited := true |>) ss
  | ABORT => set_thread k (th <| Thread.tctx := (Thread.tctx th) <| TCtx.framesize := -1 |> |> <| Thread.exited := true |>) ss
  | _ =>
      '(au, tctx, m, r) ← job (Session.ctx ss) (Session.audio ss) (Thread.tctx th) (Thread.frame_buffer th);
      let th := th <| Thread.tctx := tctx |> <| Thread.frame_buffer := m |> in
      let th := if negb (r =? 0) then th <| Thread.state := ABORT |> else th in
      set_thread k th (ss <| Session.audio := au |>)
  end.

(** [prepare_work]: the return value with the session. *)
Definition prepare_encode (k : Z) (samples : list Z) (count : Z) (ss : Session.t) : option (Session.t * Z) :=
  th ← aget (Session.threads ss) k;
  if drained (Session.ctx ss) then
    ss ← set_thread k (th <| Thread.state := END |>) ss;
    Some (ss <| Session.threads_running := Session.threads_running ss - 1 |>, 0)
  else
    tctx ← load_samples (Session.ctx ss) (Session.audio ss) samples count (Thread.tctx th);
    ss ← set_thread k (th <| Thread.tctx := tctx |>) ss;
    Some (ss <| Session.ctx := (Session.ctx ss) <| Ctx.last_samples_count := count |> |>, 0).

(** The abort of the thread [k]: it ends, and so will the other ones. *)
Definition abort_thread (k : Z) (th : Thread.t) (ss : Session.t) : option Session.t :=
  ss ← set_thread k (th <| Thread.state := ABORT |>) ss;
  let to_abort := if Session.threads_to_abort ss =? 0 then Session.threads_running ss else Session.threads_to_abort ss in
  threaded_worker k (ss <| Session.threads_to_abort := to_abort - 1 |> <| Session.threads_running := Session.threads_running ss - 1 |>).

(** The frame of the thread [k], with its status, to the user. *)
Definition hand_over (th : Thread.t) (frame_buffer : list Z) (ss : Session.t) : option (Session.t * list Z * Z) :=
  let framesize := TCtx.framesize (Thread.tctx th) in
  m ← memcpy frame_buffer 0 (Thread.frame_buffer th) 0 framesize;
  Some (ss <| Session.status := TCtx.status (Thread.tctx th) |>, m, framesize).

Definition next_thread (ss : Session.t) : Session.t :=
  ss <| Session.current_thread_num := Z.rem (Session.current_thread_num ss + 1) (Ctx.n_threads (Session.ctx ss)) |>.

(** The pass for a thread that has not failed: [inl] returns. *)
Definition feed_thread (prepare_work : Z → Session.t → option (Session.t * Z)) (k : Z) (ss : Session.t) (frame_buffer : list Z) (framesize : Z)
    : option (Session.t * list Z * (Z + Z)) :=
  '(ss, r) ← prepare_work k ss;
  if negb (r =? 0) then Some (ss, frame_buffer, inl (-1)) else
  th ← aget (Session.threads ss) k;
  if bool_decide (Thread.state th = START) then
    ss ← set_thread k (th <| Thread.state := WORK |>) ss;
    ss ← threaded_worker k ss;
    Some (next_thread ss, frame_buffer, inr framesize)
  else if TCtx.framesize (Thread.tctx th) >? 0 then
    '(ss, frame_buffer, framesize) ← hand_over th frame_buffer ss;
    ss ← threaded_worker k ss;
    Some (next_thread ss, frame_buffer, inr framesize)
  else Some (next_thread ss, frame_buffer, inr framesize).

(** The body of the loop. *)
Definition serve_thread (prepare_work : Z → Session.t → option (Session.t * Z)) (ss : Session.t) (frame_buffer : list Z) (framesize : Z)
    : option (Session.t * list Z * (Z + Z)) :=
  let k := Session.current_thread_num ss in
  th ← aget (Session.threads ss) k;
  if bool_decide (Thread.state th = ABORT) || negb (Session.threads_to_abort ss =? 0) then
    ss ← abort_thread k th ss;
    Some (next_thread ss, frame_buffer, inr (-1))
  else feed_thread prepare_work k ss frame_buffer framesize.

(** Every pass after the first one ends one of at most [MAX_NUM_THREADS]
    threads, 32. *)
Definition process_frame_parallel (prepare_work : Z → Session.t → option (Session.t * Z)) (frame_buffer : list Z) (ss : Session.t)
    : option (Session.t * list Z * Z) :=
  if Session.threads_running ss =? 0 then Some (ss, frame_buffer, 0) else
  '(ss, m, r) ← do_while 32 (λ '(ss, m, r),
    '(ss, m, r) ← serve_thread prepare_work ss m (match r with inl f | inr f => f end);
    Some ((ss, m, r), match r with inl _ => false | inr _ => negb (Session.threads_to_abort ss =? 0) end)) (ss, frame_buffer, inr 0);
  Some (ss, m, match r with inl f | inr f => f end).

(** The loop of [aften_encode_close] that stops the threads, each call with a
    buffer of its own; at most one call begins a frame, every other one ends a
    thread. *)
Definition stop_threads (ss : Session.t) : option (Session.t * Z) :=
  while_loop 33 (λ '(ss, _), negb (Session.threads_running ss =? 0)) (λ '(ss, _),
    '(ss, _, _) ← process_frame_parallel (λ k, prepare_encode k [] 0) (replicate (Z.to_nat A52_MAX_CODED_FRAME_SIZE) 0) ss;
    Some (ss, -1)) (ss, 0).

(** [thread_join] of every thread blocks unless the worker has ended. *)
Inductive closing := Closed (ret_val : Z) | Blocked (thread : Z).
Definition join_threads (ths : list Thread.t) (ret_val : Z) : option closing :=
  for_break 0 (zlen ths) (λ i r,
    th ← aget ths i;
    Some (if Thread.exited th then inr r else inl (Blocked i))) (Closed ret_val).

Definition close_threads (ss : Session.t) : option closing :=
  '(ss, ret_val) ← stop_threads ss;
  join_threads (Session.threads ss) ret_val.
End threads.

(** * What the protocol needs of the job

    Invariants of the contexts under which the job ends, keeps them, and leaves
    a frame size that fits its buffer if it succeeds; and sources of samples
    that can be converted, silence among them. *)
Definition frame_memory (m : list Z) : Prop := A52_MAX_CODED_FRAME_SIZE ≤ zlen m ∧ Forall byte m.
Definition coded_size (n : Z) : Prop := 0 < n ≤ A52_MAX_CODED_FRAME_SIZE.
Definition counted (ctx : Ctx.t) (count : Z) : Ctx.t := ctx <| Ctx.last_samples_count := count |>.

Class JobOk (J : Job) := {
  ctx_inv : Ctx.t → Prop;
  audio_inv : Ctx.t → Audio.t → Prop;
  tctx_inv : Ctx.t → TCtx.t → Prop;
  ready_inv : Ctx.t → Audio.t → TCtx.t → Prop;
  source_ok : Ctx.t → list Z → Z → Prop;
  job_ends ctx au t m : ctx_inv ctx → audio_inv ctx au → ready_inv ctx au t → frame_memory m →
    wp (job ctx au t m) (λ '(au', t', m', r), audio_inv ctx au' ∧ tctx_inv ctx t' ∧ frame_memory m' ∧
      (r = 0 → coded_size (TCtx.framesize t')));
  load_ends ctx au t samples count : ctx_inv ctx → audio_inv ctx au → tctx_inv ctx t → source_ok ctx samples count →
    0 ≤ count ≤ A52_SAMPLES_PER_FRAME → wp (load_samples ctx au samples count t) (λ t', ready_inv ctx au t' ∧
      TCtx.framesize t' = TCtx.framesize t ∧ TCtx.status t' = TCtx.status t);
  silence_ok ctx : ctx_inv ctx → source_ok ctx [] 0;
  tctx_size ctx t n : tctx_inv ctx t → tctx_inv ctx (t <| TCtx.framesize := n |>);
  inv_count ctx c : ctx_inv ctx → ctx_inv (counted ctx c) ∧ (∀ au, audio_inv ctx au → audio_inv (counted ctx c) au) ∧
    (∀ t, tctx_inv ctx t → tctx_inv (counted ctx c) t) ∧ (∀ au t, ready_inv ctx au t → ready_inv (counted ctx c) au t) ∧
    (∀ src n, source_ok ctx src n → source_ok (counted ctx c) src n)
}.

#[global] Instance Thread_inhabited : Inhabited Thread.t := populate (Thread.mk START inhabitant [] false).

(** * The state between two calls *)

Section protocol.
Context {J : Job} {JOk : JobOk J}.
Implicit Types (ss : Session.t) (th : Thread.t).

(** The [i]th thread after the current one. *)
Definition thread_at ss (i : Z) : Thread.t :=
  (Session.threads ss).[(Session.current_thread_num ss + i) mod Ctx.n_threads (Session.ctx ss)].

(** A thread the caller counts as running waits for a first frame, has a coded
    frame, or failed; the other ones have ended or, if they never had a frame,
    have not been told. *)
Definition live th : Prop :=
  Thread.exited th = false ∧
  (Thread.state th = START ∧ TCtx.framesize (Thread.tctx th) = 0 ∨
   Thread.state th = WORK ∧ coded_size (TCtx.framesize (Thread.tctx th)) ∨ Thread.state th = ABORT).
Definition finished th : Prop := Thread.exited th = true ∨ Thread.state th = END.

Record session_inv ss : Prop := {
  se_ctx : ctx_inv (Session.ctx ss);
  se_audio : audio_inv (Session.ctx ss) (Session.audio ss);
  se_n : zlen (Session.threads ss) = Ctx.n_threads (Session.ctx ss) ∧ 1 ≤ Ctx.n_threads (Session.ctx ss) ≤ 32;
  se_cur : 0 ≤ Session.current_thread_num ss < Ctx.n_threads (Session.ctx ss);
  se_running : 0 ≤ Session.threads_running ss ≤ Ctx.n_threads (Session.ctx ss);
  se_whole : drained (Session.ctx ss) = false →
    Session.threads_running ss = Ctx.n_threads (Session.ctx ss) ∨ Session.threads_running ss = 0 ∨ Session.threads_to_abort ss ≠ 0;
  se_tctx : ∀ k, 0 ≤ k < Ctx.n_threads (Session.ctx ss) → tctx_inv (Session.ctx ss) (Thread.tctx (Session.threads ss).[k]) ∧
    frame_memory (Thread.frame_buffer (Session.threads ss).[k]);
  se_live : ∀ i, 0 ≤ i < Session.threads_running ss → live (thread_at ss i);
  se_done : ∀ i, Session.threads_running ss ≤ i < Ctx.n_threads (Session.ctx ss) → finished (thread_at ss i)
}.

(** A call that serves the current thread: it changes that one and moves on. *)
Definition moved ss (ctx : Ctx.t) (au : Audio.t) th (to_abort running : Z) (status : Status.t) : Session.t :=
  next_thread (Session.mk ctx au (upd (Session.threads ss) (Session.current_thread_num ss) th)
    (Session.current_thread_num ss) to_abort running status).

Lemma thread_at_moved ss ctx au th to_abort running status i :
  session_inv ss → Ctx.n_threads ctx = Ctx.n_threads (Session.ctx ss) → 0 ≤ i < Ctx.n_threads ctx →
  thread_at (moved ss ctx au th to_abort running status) i = if i =? Ctx.n_threads ctx - 1 then th else thread_at ss (i + 1).
Proof.
  intros [_ _ [Hl Hn] Hc _ _ _ _ _] Hnt Hi. unfold thread_at, moved, next_thread. simpl. rewrite Hnt in *.
  set (n := Ctx.n_threads (Session.ctx ss)) in *. set (c := Session.current_thread_num ss) in *.
  rewrite Z.rem_mod_nonneg by lia. rewrite Zplus_mod_idemp_l. replace (c + 1 + i) with (c + (i + 1)) by lia.
  pose proof (Z.mod_pos_bound (c + (i + 1)) n ltac:(lia)) as Hb. rewrite at_upd by lia. 
  destruct (Z.eqb_spec i (n - 1)) as [-> |Hne].
  - replace (c + (n - 1 + 1)) with (c + 1 * n) by lia. rewrite Z.mod_add, Z.mod_small by lia. by rewrite Z.eqb_refl.
  - destruct (Z.eqb_spec ((c + (i + 1)) mod n) c) as [He|]; [|done]. exfalso. apply Hne.
    pose proof (mod_window n c (c + (i + 1)) c ltac:(lia) ltac:(lia) ltac:(lia)) as Hw. rewrite (Z.mod_small c) in Hw by lia. lia.
Qed.

Lemma moved_inv ss ctx au th to_abort running status :
  session_inv ss → ctx_inv ctx → audio_inv ctx au → Ctx.n_threads ctx = Ctx.n_threads (Session.ctx ss) →
  (∀ t, tctx_inv (Session.ctx ss) t → tctx_inv ctx t) → tctx_inv ctx (Thread.tctx th) → frame_memory (Thread.frame_buffer th) →
  (1 ≤ Session.threads_running ss ∧ running = Session.threads_running ss - 1 ∧ finished th ∧ (drained ctx = true ∨ to_abort ≠ 0 ∨ running = 0)) ∨
  (Session.threads_running ss = Ctx.n_threads ctx ∧ running = Ctx.n_threads ctx ∧ live th) →
  session_inv (moved ss ctx au th to_abort running status).
Proof.
  intros Hss Hctx Hau Hn Ht Htt Hm Hcase. pose proof (λ i, thread_at_moved ss ctx au th to_abort running status i Hss Hn) as Hat.
  destruct Hss as [_ _ [Hl Hnr] Hc Hr _ Htx Hlive Hdone]. rewrite <- Hn in *.
  split; simpl; try done.
  - split; [by rewrite zlen_upd|lia].
  - rewrite Z.rem_mod_nonneg by lia. apply Z.mod_pos_bound. lia.
  - lia.
  - intros Hd. destruct Hcase as [(? & ? & ? & [?|[?|?]])|(? & ? & ?)]; [congruence|auto..].
  - intros k Hk. rewrite at_upd by lia. destruct (Z.eqb_spec k (Session.current_thread_num ss)); [done|].
    destruct (Htx k Hk) as [H1 H2]. by split; [apply Ht|].
  - intros i Hi. rewrite Hat by lia. destruct Hcase as [(H1 & -> & H2 & _)|(H1 & -> & H2)].
    + replace (i =? Ctx.n_threads ctx - 1) with false by lia. apply Hlive. lia.
    + destruct (Z.eqb_spec i (Ctx.n_threads ctx - 1)); [done|]. apply Hlive. lia.
  - intros i Hi. destruct Hcase as [(H1 & -> & H2 & _)|(H1 & -> & H2)]; [|lia]. rewrite Hat by lia.
    destruct (Z.eqb_spec i (Ctx.n_threads ctx - 1)); [done|]. apply Hdone. lia.
Qed.

(** * One pass of the loop *)

(** A frame begun: the samples loaded and the job done. *)
Definition worked ss (samples : list Z) (count : Z) th (au' : Audio.t) th' : Prop :=
  ∃ t0 t m r, load_samples (Session.ctx ss) (Session.audio ss) samples count (Thread.tctx th) = Some t0 ∧
    job (counted (Session.ctx ss) count) (Session.audio ss) t0 (Thread.frame_buffer th) = Some (au', t, m, r) ∧
    th' = Thread.mk (if r =? 0 then WORK else ABORT) t m false.

(** The user's buffer with the thread's frame. *)
Definition received (fb : list Z) th : list Z :=
  splice fb 0 (slice (Thread.frame_buffer th) 0 (TCtx.framesize (Thread.tctx th))).

Inductive served ss (samples : list Z) (count : Z) (fb : list Z) (fs : Z) : Session.t → list Z → Z → Prop :=
  | served_abort th' :
      Thread.state (thread_at ss 0) = ABORT ∨ Session.threads_to_abort ss ≠ 0 → Thread.exited th' = true →
      served ss samples count fb fs (moved ss (Session.ctx ss) (Session.audio ss) th' (Session.threads_running ss - 1)
        (Session.threads_running ss - 1) (Session.status ss)) fb (-1)
  | served_dropped :
      Session.threads_to_abort ss = 0 → drained (Session.ctx ss) = true → Thread.state (thread_at ss 0) = START →
      served ss samples count fb fs (moved ss (Session.ctx ss) (Session.audio ss) ((thread_at ss 0) <| Thread.state := END |>) 0
        (Session.threads_running ss - 1) (Session.status ss)) fb fs
  | served_last th' :
      Session.threads_to_abort ss = 0 → drained (Session.ctx ss) = true → Thread.state (thread_at ss 0) = WORK → Thread.exited th' = true →
      served ss samples count fb fs (moved ss (Session.ctx ss) (Session.audio ss) th' 0 (Session.threads_running ss - 1)
        (TCtx.status (Thread.tctx (thread_at ss 0)))) (received fb (thread_at ss 0)) (TCtx.framesize (Thread.tctx (thread_at ss 0)))
  | served_first au th' :
      Session.threads_to_abort ss = 0 → drained (Session.ctx ss) = false → Thread.state (thread_at ss 0) = START →
      worked ss samples count (thread_at ss 0) au th' → live th' → Thread.state th' ≠ START →
      served ss samples count fb fs (moved ss (counted (Session.ctx ss) count) au th' 0 (Session.threads_running ss) (Session.status ss)) fb fs
  | served_next au th' :
      Session.threads_to_abort ss = 0 → drained (Session.ctx ss) = false → Thread.state (thread_at ss 0) = WORK →
      worked ss samples count (thread_at ss 0) au th' → live th' → Thread.state th' ≠ START →
      served ss samples count fb fs (moved ss (counted (Session.ctx ss) count) au th' 0 (Session.threads_running ss)
        (TCtx.status (Thread.tctx (thread_at ss 0)))) (received fb (thread_at ss 0)) (TCtx.framesize (Thread.tctx (thread_at ss 0))).

Lemma worker_ends k ss th :
  0 ≤ k < zlen (Session.threads ss) → (Session.threads ss).[k] = th → Thread.exited th = false →
  Thread.state th = END ∨ Thread.state th = ABORT →
  ∃ f, threaded_worker k ss = Some (ss <| Session.threads := upd (Session.threads ss) k
    (th <| Thread.tctx := (Thread.tctx th) <| TCtx.framesize := f |> |> <| Thread.exited := true |>) |>).
Proof.
  intros Hk Hth He Hs. unfold threaded_worker, set_thread. rewrite aget_at, Hth by done. cbn [mbind option_bind]. rewrite He.
  destruct Hs as [-> | ->]; rewrite aset_upd by done; by eexists.
Qed.

Lemma worker_works k ss th :
  0 ≤ k < zlen (Session.threads ss) → (Session.threads ss).[k] = th → Thread.exited th = false → Thread.state th = WORK →
  ctx_inv (Session.ctx ss) → audio_inv (Session.ctx ss) (Session.audio ss) →
  ready_inv (Session.ctx ss) (Session.audio ss) (Thread.tctx th) → frame_memory (Thread.frame_buffer th) →
  wp (threaded_worker k ss) (λ ss', ∃ au t m r, job (Session.ctx ss) (Session.audio ss) (Thread.tctx th) (Thread.frame_buffer th) = Some (au, t, m, r) ∧
    audio_inv (Session.ctx ss) au ∧ tctx_inv (Session.ctx ss) t ∧ frame_memory m ∧ (r = 0 → coded_size (TCtx.framesize t)) ∧
    ss' = ss <| Session.audio := au |> <| Session.threads := upd (Session.threads ss) k (Thread.mk (if r =? 0 then WORK else ABORT) t m false) |>).
Proof.
  intros Hk Hth He Hs Hc Ha Hr Hm. unfold threaded_worker. rewrite aget_at, Hth by done. cbn [mbind option_bind]. rewrite He, Hs.
  pose proof (job_ends _ _ _ _ Hc Ha Hr Hm) as Hj. apply wp_some in Hj as ([[[au t] m] r] & Hj & H1 & H2 & H3 & H4). rewrite Hj.
  cbn [mbind option_bind]. cbv zeta. unfold set_thread. simpl. rewrite aset_upd by done. apply wp_ret. exists au, t, m, r.
  split; [done|]. split; [done|]. split; [done|]. split; [done|]. split; [done|]. f_equal. f_equal.
  destruct th as [st tc fb ex]; simpl in *. subst. by destruct (r =? 0).
Qed.

Lemma thread_at_0 ss : session_inv ss → thread_at ss 0 = (Session.threads ss).[Session.current_thread_num ss].
Proof. intros [_ _ _ Hc _ _ _ _ _]. unfold thread_at. rewrite Z.add_0_r, Z.mod_small by done. done. Qed.

Lemma coded_size_copied fb th :
  frame_memory fb → frame_memory (Thread.frame_buffer th) → coded_size (TCtx.framesize (Thread.tctx th)) →
  memcpy fb 0 (Thread.frame_buffer th) 0 (TCtx.framesize (Thread.tctx th)) = Some (received fb th) ∧ frame_memory (received fb th).
Proof.
  intros [Hl Hb] [Hl' Hb'] Hs. unfold coded_size, A52_MAX_CODED_FRAME_SIZE in *. split; [apply memcpy_in; lia|].
  unfold received. set (n := TCtx.framesize _) in *. assert (Hz : zlen (slice (Thread.frame_buffer th) 0 n) = n) by (apply zlen_slice; lia).
  split; [rewrite zlen_splice by lia; unfold A52_MAX_CODED_FRAME_SIZE; lia|].
  unfold splice, slice. repeat apply Forall_app_2; auto using Forall_take, Forall_drop.
Qed.

Lemma upd_upd (ths : list Thread.t) k th th' : 0 ≤ k < zlen ths → upd (upd ths k th) k th' = upd ths k th'.
Proof.
  intros Hk. apply array_ext; [by rewrite !zlen_upd|]. rewrite !zlen_upd. intros i Hi. rewrite !at_upd by (rewrite ?zlen_upd; lia).
  by destruct (i =? k).
Qed.

(** The worker that ends, whatever else changed. *)
Lemma ended_thread ss th' :
  session_inv ss → Thread.exited th' = true → 
  tctx_inv (Session.ctx ss) (Thread.tctx th') → frame_memory (Thread.frame_buffer th') → 1 ≤ Session.threads_running ss →
  ∀ to_abort status, drained (Session.ctx ss) = true ∨ to_abort ≠ 0 ∨ Session.threads_running ss = 1 →
  session_inv (moved ss (Session.ctx ss) (Session.audio ss) th' to_abort (Session.threads_running ss - 1) status).
Proof.
  intros Hss He Ht Hm Hr to_abort status Hc. apply moved_inv; try done; [apply (se_ctx _ Hss)|apply (se_audio _ Hss)|].
  left. split; [done|]. split; [done|]. split; [by left|]. destruct Hc as [?|[?|?]]; auto. right. right. lia.
Qed.

Lemma begun_thread ss au th' count :
  session_inv ss → audio_inv (counted (Session.ctx ss) count) au → live th' → drained (Session.ctx ss) = false →
  Session.threads_to_abort ss = 0 → 1 ≤ Session.threads_running ss →
  tctx_inv (counted (Session.ctx ss) count) (Thread.tctx th') → frame_memory (Thread.frame_buffer th') → ∀ status,
  session_inv (moved ss (counted (Session.ctx ss) count) au th' 0 (Session.threads_running ss) status).
Proof.
  intros Hss Hau Hlive Hd Hta Hr Ht Hm status. destruct (inv_count (Session.ctx ss) count (se_ctx _ Hss)) as (H1 & H2 & H3 & H4 & _).
  apply moved_inv; try done. right. destruct (se_whole _ Hss Hd) as [Hw|[Hw|Hw]]; [|lia|done].
  change (Ctx.n_threads (counted (Session.ctx ss) count)) with (Ctx.n_threads (Session.ctx ss)). by split_and!; [lia|lia|].
Qed.

(** A thread that is served: the current one, live. *)
Lemma current_thread ss :
  session_inv ss → 1 ≤ Session.threads_running ss →
  let k := Session.current_thread_num ss in let th := (Session.threads ss).[k] in
  0 ≤ k < zlen (Session.threads ss) ∧ thread_at ss 0 = th ∧ live th ∧ tctx_inv (Session.ctx ss) (Thread.tctx th) ∧ frame_memory (Thread.frame_buffer th).
Proof.
  intros Hss Hrun. pose proof (thread_at_0 ss Hss) as H0. pose proof (se_live _ Hss 0 ltac:(lia)) as Hlive. rewrite H0 in Hlive.
  pose proof (se_n _ Hss) as [Hl Hn]. pose proof (se_cur _ Hss) as Hcur. destruct (se_tctx _ Hss _ Hcur). cbv zeta.
  split; [lia|]. by split.
Qed.

(** What a pass leaves. *)
Definition pass_outcome ss samples count fb fs (o : Session.t * list Z * (Z + Z)) : Prop :=
  ∃ f, o.2 = inr f ∧ served ss samples count fb fs o.1.1 o.1.2 f ∧ session_inv o.1.1 ∧ frame_memory o.1.2.

Lemma serve_aborted ctx au ths k ta run st samples count fb fs :
  let ss := Session.mk ctx au ths k ta run st in let th := ths.[k] in
  session_inv ss → 1 ≤ run → frame_memory fb →
  Thread.state th = ABORT ∨ ta ≠ 0 → ta = 0 ∨ ta = run →
  wp (ss ← abort_thread k th ss; Some (next_thread ss, fb, inr (-1))) (pass_outcome ss samples count fb fs).
Proof.
  intros ss th Hss Hrun Hfb Hab Hta. destruct (current_thread ss Hss Hrun) as (Hk & H0 & Hlive & Htx & Hmem). simpl in Hk, H0, Hlive, Htx, Hmem.
  fold th in H0, Hlive, Htx, Hmem. unfold abort_thread, set_thread. simpl.
  rewrite aset_upd by done. cbn [mbind option_bind].
  destruct (worker_ends k (Session.mk ctx au (upd ths k (th <| Thread.state := ABORT |>)) k ((if ta =? 0 then run else ta) - 1) (run - 1) st)
    (th <| Thread.state := ABORT |>)) as (f & Hf); [simpl; by rewrite zlen_upd|simpl; by rewrite at_upd_eq|by apply Hlive|by right|].
  unfold set_thread in Hf. simpl in Hf |- *. rewrite Hf. simpl. apply wp_ret. exists (-1). split; [done|].
  simpl. rewrite upd_upd by done. replace ((if ta =? 0 then run else ta) - 1) with (run - 1) by (destruct (Z.eqb_spec ta 0); lia).
  split; [|split; [|done]].
  - apply (served_abort ss); [|done]. by rewrite H0.
  - apply (ended_thread ss _ Hss); simpl; try done; [by apply tctx_size|]. lia.
Qed.

Section feed.
Variables (ctx : Ctx.t) (au : Audio.t) (ths : list Thread.t) (k run : Z) (st : Status.t).
#[local] Abbreviation ss := (Session.mk ctx au ths k 0 run st).
Hypothesis Hss : session_inv ss.
Hypothesis Hrun : 1 ≤ run.
Variables (samples : list Z) (count : Z) (fb : list Z) (fs : Z).
Hypothesis Hfb : frame_memory fb.
#[local] Abbreviation th := (ths.[k]).

Lemma feed_drained :
  drained ctx = true → Thread.state th ≠ ABORT → wp (feed_thread (λ k, prepare_encode k samples count) k ss fb fs) (pass_outcome ss samples count fb fs).
Proof.
  intros Hd Hnab. destruct (current_thread ss Hss Hrun) as (Hk & H0 & [Hex Hst] & Htx & Hmem). simpl in Hk, H0, Hex, Hst, Htx, Hmem.
  unfold feed_thread, prepare_encode, set_thread. simpl. rewrite aget_at by done. cbn [mbind option_bind]. rewrite Hd, aset_upd by done.
  cbn [mbind option_bind]. simpl. rewrite aget_at, at_upd_eq by (rewrite ?zlen_upd; done). cbn [mbind option_bind]. simpl.
  destruct Hst as [[Hst Hsz]|[[Hst Hsz]|Hst]]; [| |done].
  - rewrite Hsz. simpl. apply wp_ret. exists fs. split; [done|].
    pose proof (served_dropped ss samples count fb fs eq_refl Hd) as Hs. rewrite H0 in Hs. split; [by apply Hs|].
    split; [|done]. refine (moved_inv ss ctx au (th <| Thread.state := END |>) 0 (run - 1) st Hss _ _ _ _ _ _ _); simpl; try done; [apply (se_ctx _ Hss)|apply (se_audio _ Hss)|].
    left. split; [done|]. split; [done|]. split; [by right|by left].
  - replace (TCtx.framesize (Thread.tctx th) >? 0) with true by (unfold coded_size in Hsz; lia). 
    destruct (coded_size_copied fb th Hfb Hmem Hsz) as [Hcopy Hfb']. unfold hand_over. simpl. rewrite Hcopy. cbn [mbind option_bind].
    destruct (worker_ends k (Session.mk ctx au (upd ths k (th <| Thread.state := END |>)) k 0 (run - 1) (TCtx.status (Thread.tctx th)))
      (th <| Thread.state := END |>)) as (f & Hf); [simpl; by rewrite zlen_upd|simpl; by rewrite at_upd_eq|done|by left|].
    unfold set_thread in Hf. simpl in Hf |- *. rewrite Hf. simpl. apply wp_ret. eexists. split; [reflexivity|]. rewrite upd_upd by done.
    split; [|split; [|exact Hfb']].
    + rewrite <- H0. apply (served_last ss); [done|done|by rewrite H0|done].
    + apply (ended_thread ss _ Hss); simpl; try done; [by apply tctx_size|by left].
Qed.

(** The worker on the loaded samples. *)
Lemma fed_worker t0 st1 :
  drained ctx = false → load_samples ctx au samples count (Thread.tctx th) = Some t0 → ready_inv ctx au t0 →
  wp (threaded_worker k (Session.mk (counted ctx count) au (upd ths k (Thread.mk WORK t0 (Thread.frame_buffer th) false)) k 0 run st1))
    (λ ss', ∃ au' th', worked ss samples count th au' th' ∧ live th' ∧ Thread.state th' ≠ START ∧
      next_thread ss' = moved ss (counted ctx count) au' th' 0 run st1 ∧ session_inv (next_thread ss')).
Proof.
  intros Hd Hload Hready. destruct (current_thread ss Hss Hrun) as (Hk & H0 & [Hex Hst] & Htx & Hmem). simpl in Hk, H0, Hex, Hst, Htx, Hmem.
  destruct (inv_count ctx count (se_ctx _ Hss)) as (Hc1 & Ha1 & Ht1 & Hr1 & _).
  set (th1 := Thread.mk WORK t0 (Thread.frame_buffer th) false).
  eapply wp_mono; [apply (worker_works k _ th1)|].
  - simpl. by rewrite zlen_upd.
  - simpl. by rewrite at_upd_eq.
  - done.
  - done.
  - exact Hc1.
  - exact (Ha1 _ (se_audio _ Hss)).
  - exact (Hr1 _ _ Hready).
  - exact Hmem.
  - simpl. intros ss' (au' & t & m & r & Hj & Hau' & Ht' & Hm' & Hcs & ->).
    set (th' := Thread.mk (if r =? 0 then WORK else ABORT) t m false). exists au', th'.
    assert (Hlive : live th') by (split; [done|]; subst th'; simpl; destruct (Z.eqb_spec r 0); auto).
    split; [exists t0, t, m, r; done|]. split; [done|]. split; [subst th'; simpl; by destruct (r =? 0)|]. simpl. rewrite upd_upd by done.
    split; [done|]. refine (begun_thread ss au' th' count Hss _ _ _ _ _ _ _ st1); done.
Qed.

Lemma feed_next :
  drained ctx = false → Thread.state th ≠ ABORT → source_ok ctx samples count → 0 ≤ count ≤ A52_SAMPLES_PER_FRAME →
  wp (feed_thread (λ k, prepare_encode k samples count) k ss fb fs) (pass_outcome ss samples count fb fs).
Proof.
  intros Hd Hnab Hsrc Hcount. destruct (current_thread ss Hss Hrun) as (Hk & H0 & [Hex Hst] & Htx & Hmem). simpl in Hk, H0, Hex, Hst, Htx, Hmem.
  pose proof (load_ends _ _ _ _ _ (se_ctx _ Hss) (se_audio _ Hss) Htx Hsrc Hcount) as Hload. simpl in Hload.
  apply wp_some in Hload as (t0 & Hload & Hready & Hfs0 & Hst0). pose proof (fed_worker t0) as Hfed.
  unfold feed_thread, prepare_encode, set_thread. simpl. rewrite aget_at by done. cbn [mbind option_bind]. rewrite Hd, Hload.
  cbn [mbind option_bind]. rewrite aset_upd by done. cbn [mbind option_bind]. simpl.
  rewrite aget_at, at_upd_eq by (rewrite ?zlen_upd; done). cbn [mbind option_bind]. simpl. rewrite Hex. 
  destruct Hst as [[Hst Hsz]|[[Hst Hsz]|Hst]]; [| |done].
  - rewrite Hst. rewrite bool_decide_eq_true_2 by done. rewrite aset_upd by (rewrite zlen_upd; done). cbn [mbind option_bind].
    rewrite upd_upd by done. apply wp_bind. eapply wp_mono; [exact (Hfed st Hd Hload Hready)|].
    intros ss' (au' & th' & Hw & Hlive & Hns & Heq & Hinv). apply wp_ret. exists fs. split; [done|]. simpl. split; [|by split].
    rewrite Heq. apply (served_first ss samples count fb fs au' th'); [done|done|by rewrite H0|by rewrite H0|done|done].
  - rewrite Hst. rewrite bool_decide_eq_false_2 by done. rewrite Hfs0.
    replace (TCtx.framesize (Thread.tctx th) >? 0) with true by (unfold coded_size in Hsz; lia).
    destruct (coded_size_copied fb th Hfb Hmem Hsz) as [Hcopy Hfb']. unfold hand_over. simpl. rewrite Hfs0, Hcopy. cbn [mbind option_bind].
    apply wp_bind. rewrite Hst0. eapply wp_mono; [exact (Hfed _ Hd Hload Hready)|].
    intros ss' (au' & th' & Hw & Hlive & Hns & Heq & Hinv). apply wp_ret. eexists. split; [reflexivity|]. simpl. split; [|by split].
    rewrite Heq. rewrite <- H0. apply (served_next ss samples count fb fs au' th'); [done|done|by rewrite H0|by rewrite H0|done|done].
Qed.
End feed.

Lemma serve_thread_spec ss samples count fb fs :
  session_inv ss → 1 ≤ Session.threads_running ss → Session.threads_to_abort ss = 0 ∨ Session.threads_to_abort ss = Session.threads_running ss →
  source_ok (Session.ctx ss) samples count → 0 ≤ count ≤ A52_SAMPLES_PER_FRAME → frame_memory fb →
  wp (serve_thread (λ k, prepare_encode k samples count) ss fb fs) (pass_outcome ss samples count fb fs).
Proof.
  intros Hss Hr Hta Hsrc Hcount Hfb. destruct (current_thread ss Hss Hr) as (Hk & _).
  destruct ss as [ctx au ths k ta run st]. unfold serve_thread. simpl in *. rewrite aget_at by done. cbn [mbind option_bind].
  destruct (bool_decide (Thread.state ths.[k] = ABORT) || negb (ta =? 0)) eqn:Hab.
  - apply serve_aborted; try done. apply orb_true_iff in Hab as [Hab|Hab]; [left; by apply bool_decide_eq_true in Hab|right; lia].
  - apply orb_false_iff in Hab as [Hab%bool_decide_eq_false Hz]. assert (ta = 0) as -> by lia.
    destruct (drained ctx) eqn:Hd; [by apply feed_drained|by apply feed_next].
Qed.

(** * One call *)

Definition session_ok ss : Prop := session_inv ss ∧ Session.threads_to_abort ss = 0.

(** All threads are stopped; those the caller counted as running were told. *)
Definition stopping ss ss' : Prop :=
  Session.ctx ss' = Session.ctx ss ∧ Session.audio ss' = Session.audio ss ∧ Session.status ss' = Session.status ss ∧
  ∀ k, 0 ≤ k < Ctx.n_threads (Session.ctx ss) →
    Thread.exited (Session.threads ss').[k] = true ∨ (Session.threads ss').[k] = (Session.threads ss).[k].

Inductive called ss (samples : list Z) (count : Z) (fb : list Z) : Session.t → list Z → Z → Prop :=
  | called_idle : Session.threads_running ss = 0 → called ss samples count fb ss fb 0
  | called_abort ss' : 1 ≤ Session.threads_running ss → Thread.state (thread_at ss 0) = ABORT → stopping ss ss' →
      Session.threads_running ss' = 0 → called ss samples count fb ss' fb (-1)
  | called_served ss' fb' f : 1 ≤ Session.threads_running ss → Thread.state (thread_at ss 0) ≠ ABORT →
      served ss samples count fb 0 ss' fb' f → called ss samples count fb ss' fb' f.

Lemma moved_stopping ss ss1 th' ta run :
  session_inv ss1 → Thread.exited th' = true → stopping ss ss1 →
  stopping ss (moved ss1 (Session.ctx ss1) (Session.audio ss1) th' ta run (Session.status ss1)).
Proof.
  intros [_ _ [Hl _] Hc _ _ _ _ _] He (H1 & H2 & H3 & Hk). split; [done|]. split; [done|]. split; [done|]. simpl.
  intros k Hr. rewrite H1 in Hl, Hc. rewrite at_upd by lia. destruct (Z.eqb_spec k (Session.current_thread_num ss1)); [by left|by apply Hk].
Qed.

(** While the threads are stopped: between the passes of one call. *)
Definition aborting ss (fb : list Z) (s : Session.t * list Z * (Z + Z)) : Prop :=
  session_inv s.1.1 ∧ s.1.2 = fb ∧ s.2 = inr (-1) ∧ stopping ss s.1.1 ∧
  Session.threads_to_abort s.1.1 = Session.threads_running s.1.1.

Lemma process_frame_parallel_spec ss samples count fb :
  session_ok ss → source_ok (Session.ctx ss) samples count → 0 ≤ count ≤ A52_SAMPLES_PER_FRAME → frame_memory fb →
  wp (process_frame_parallel (λ k, prepare_encode k samples count) fb ss) (λ '(ss', fb', r),
    called ss samples count fb ss' fb' r ∧ session_ok ss' ∧ frame_memory fb').
Proof.
  intros [Hss Hta] Hsrc Hcount Hfb. unfold process_frame_parallel.
  destruct (Z.eqb_spec (Session.threads_running ss) 0) as [H0|H0]; [apply wp_ret; split; [by apply called_idle|by split]|].
  pose proof (se_running _ Hss) as Hr. pose proof (se_n _ Hss) as [_ Hn]. apply wp_bind.
  set (Post := λ s : Session.t * list Z * (Z + Z), let r := match s.2 with inl f | inr f => f end in
    called ss samples count fb s.1.1 s.1.2 r ∧ session_ok s.1.1 ∧ frame_memory s.1.2).
  apply (wp_mono _ Post); [|intros [[ss' m] r] HP; by apply wp_ret].
  apply (wp_do_while (λ s, s = (ss, fb, inr 0) ∨ (aborting ss fb s ∧ Session.threads_to_abort s.1.1 ≠ 0 ∧ Thread.state (thread_at ss 0) = ABORT))
    (λ s, Z.to_nat (Session.threads_running s.1.1))); [by left|simpl; lia|].
  assert (Hsrc' : ∀ ss1, stopping ss ss1 → source_ok (Session.ctx ss1) samples count) by (intros ss1 (-> & _); done).
  assert (Hend : ∀ ss1 th' ta, session_inv ss1 → stopping ss ss1 → Thread.exited th' = true →
    stopping ss (moved ss1 (Session.ctx ss1) (Session.audio ss1) th' ta (Session.threads_running ss1 - 1) (Session.status ss1)))
    by (intros; by apply moved_stopping).
  intros s [-> |(Hab & Hne & Hst)].
  - simpl. apply wp_bind. eapply wp_mono; [apply serve_thread_spec; auto; lia|]. intros [[ss' m] r] (f & Hf & Hserved & Hinv & Hm).
    simpl in Hf, Hserved, Hinv, Hm. subst r. apply wp_ret. simpl.
    pose proof Hserved as Hs'. destruct Hserved as [th' [Hs|?] He|Ht Hd Hs|th' Ht Hd Hs He|au th' Ht Hd Hs Hw Hl Hns|au th' Ht Hd Hs Hw Hl Hns]; [|done|simpl..].
    + simpl. assert (Hstop : stopping ss (moved ss (Session.ctx ss) (Session.audio ss) th' (Session.threads_running ss - 1)
        (Session.threads_running ss - 1) (Session.status ss))) by (apply Hend; [done|by split_and!; [..|auto]|done]).
      destruct (Z.eqb_spec (Session.threads_running ss - 1) 0) as [Hz|Hz]; simpl.
      * split; [|by split]. apply called_abort; [lia|done|done|simpl; lia].
      * split; [|lia]. right. by split_and!; [split_and!|..].
    + split; [|by split]. apply called_served; [lia|by rewrite Hs|exact Hs'].
    + split; [|by split]. apply called_served; [lia|by rewrite Hs|exact Hs'].
    + split; [|by split]. apply called_served; [lia|by rewrite Hs|exact Hs'].
    + split; [|by split]. apply called_served; [lia|by rewrite Hs|exact Hs'].
  - destruct s as [[ss1 m] r]. destruct Hab as (Hinv1 & Hm & Hr1 & Hstop & Hta1). simpl in Hinv1, Hm, Hr1, Hstop, Hta1, Hne. subst m r.
    pose proof (se_running _ Hinv1) as Hr1. simpl. apply wp_bind.
    eapply wp_mono; [apply serve_thread_spec; [done|lia|by right|by apply Hsrc'|done|done]|].
    intros [[ss' m] r] (f & Hf & Hserved & Hinv & Hm). simpl in Hf, Hserved, Hinv, Hm. subst r. apply wp_ret. simpl.
    destruct Hserved as [th' _ He|Ht|th' Ht|au th' Ht|au th' Ht]; [|by destruct (Hne Ht)..]. simpl.
    specialize (Hend ss1 th' (Session.threads_running ss1 - 1) Hinv1 Hstop He).
    destruct (Z.eqb_spec (Session.threads_running ss1 - 1) 0) as [Hz|Hz]; simpl.
    + split; [|by split]. apply called_abort; [lia|done|done|simpl; lia].
    + split; [|lia]. right. by split_and!; [split_and!|..].
Qed.

(** * The end of the stream *)

Lemma silent_buffer : frame_memory (replicate (Z.to_nat A52_MAX_CODED_FRAME_SIZE) 0).
Proof.
  split; [unfold zlen; rewrite length_replicate; lia|]. apply Forall_replicate. unfold byte. lia.
Qed.

Lemma moved_ctx ss ctx au th ta run st : Session.ctx (moved ss ctx au th ta run st) = ctx.
Proof. done. Qed.
Lemma moved_running ss ctx au th ta run st : Session.threads_running (moved ss ctx au th ta run st) = run.
Proof. done. Qed.

(** Calls until no thread runs: at most one begins a frame, the other ones end
    a thread.  [P] is kept by the calls. *)
Lemma stop_threads_spec (P : Session.t → Prop) ss :
  session_ok ss → P ss →
  (∀ ss1 fb ss2 fb' r, session_ok ss1 → P ss1 → called ss1 [] 0 fb ss2 fb' r → P ss2) →
  wp (stop_threads ss) (λ '(ss', r), session_ok ss' ∧ P ss' ∧ Session.threads_running ss' = 0 ∧
    r = if Session.threads_running ss =? 0 then 0 else -1).
Proof.
  intros Hok HP Hkeep. pose proof (se_running _ (proj1 Hok)) as Hr0. pose proof (se_n _ (proj1 Hok)) as [_ Hn].
  unfold stop_threads.
  apply (wp_while (λ s, session_ok s.1 ∧ P s.1 ∧
      (s = (ss, 0) ∨ (s.2 = -1 ∧ Session.threads_running ss ≠ 0)))
    (λ s, Z.to_nat (Session.threads_running s.1 + if drained (Session.ctx s.1) then 0 else 1))).
  - split; [exact Hok|]. split; [exact HP|by left].
  - simpl. destruct (drained _); lia.
  - intros [ss1 r] (Hok1 & HP1 & Hcase) Hc. simpl in Hok1, HP1, Hc |- *. apply wp_bind.
    assert (Hrun : Session.threads_running ss ≠ 0) by (destruct Hcase as [[= -> ->]|[_ ?]]; [lia|done]). clear Hcase.
    pose proof (se_running _ (proj1 Hok1)) as Hr1.
    eapply wp_mono; [apply process_frame_parallel_spec; [done|apply silence_ok, (se_ctx _ (proj1 Hok1))|unfold A52_SAMPLES_PER_FRAME; lia|exact silent_buffer]|].
    intros [[ss2 fb'] r'] (Hcalled & Hok2 & _). apply wp_ret. simpl. specialize (Hkeep _ _ _ _ _ Hok1 HP1 Hcalled).
    split; [split; [done|split; [done|by right]]|].
    destruct Hcalled as [H0|ss2 H1 Hst (Hctx & _) H0|ss2 fb' f H1 Hst Hs]; [lia|rewrite Hctx, H0; destruct (drained _); lia|].
    destruct Hs as [th' Hs He|Ht Hd Hs|th' Ht Hd Hs He|au th' Ht Hd Hs Hw Hl Hns|au th' Ht Hd Hs Hw Hl Hns].
    + destruct Hs as [Hs|Hs]; [done|]. by destruct (proj2 Hok1).
    + rewrite moved_ctx, moved_running, Hd. lia.
    + rewrite moved_ctx, moved_running, Hd. lia.
    + rewrite moved_ctx, moved_running, Hd. change (drained (counted (Session.ctx ss1) 0)) with true. lia.
    + rewrite moved_ctx, moved_running, Hd. change (drained (counted (Session.ctx ss1) 0)) with true. lia.
  - intros [ss1 r] (Hok1 & HP1 & Hcase) Hc. simpl in *. assert (H0 : Session.threads_running ss1 = 0) by lia.
    split; [done|]. split; [done|]. split; [done|]. destruct Hcase as [[= -> ->]|[-> Hne]].
    + by rewrite H0.
    + by rewrite (proj2 (Z.eqb_neq _ _) Hne).
Qed.

Lemma join_threads_spec ths r :
  wp (join_threads ths r) (λ c, match c with
    | Closed r' => r' = r ∧ ∀ k, 0 ≤ k < zlen ths → Thread.exited ths.[k] = true
    | Blocked k => 0 ≤ k < zlen ths ∧ Thread.exited ths.[k] = false
    end).
Proof.
  unfold join_threads. pose proof (Nat2Z.is_nonneg (length ths)).
  apply (wp_for_break (λ i c, c = Closed r ∧ ∀ k, 0 ≤ k < i → Thread.exited ths.[k] = true)); [unfold zlen; lia|split; [done|lia]| |].
  - intros i c Hi (-> & Hk). apply wp_bind, wp_aget; [done|]. apply wp_ret. destruct (Thread.exited ths.[i]) eqn:He; [|done].
    split; [done|]. intros k Hr. destruct (Z.eq_dec k i) as [-> |]; [done|]. apply Hk. lia.
  - intros c (-> & Hk). by split.
Qed.

Lemma close_threads_spec (P : Session.t → Prop) ss :
  session_ok ss → P ss →
  (∀ ss1 fb ss2 fb' r, session_ok ss1 → P ss1 → called ss1 [] 0 fb ss2 fb' r → P ss2) →
  wp (close_threads ss) (λ c, ∃ ss', session_ok ss' ∧ P ss' ∧ Session.threads_running ss' = 0 ∧ match c with
    | Closed r => r = (if Session.threads_running ss =? 0 then 0 else -1) ∧ ∀ k, 0 ≤ k < zlen (Session.threads ss') → Thread.exited (Session.threads ss').[k] = true
    | Blocked k => 0 ≤ k < zlen (Session.threads ss') ∧ Thread.exited (Session.threads ss').[k] = false
    end).
Proof.
  intros Hok HP Hkeep. unfold close_threads. apply wp_bind. eapply wp_mono; [by apply (stop_threads_spec P)|].
  intros [ss' r] (Hok' & HP' & H0 & ->). eapply wp_mono; [apply join_threads_spec|]. intros c Hc. exists ss'. split; [done|]. split; [done|]. by split.
Qed.

(** Every thread is found from the current one. *)
Lemma thread_position ss k :
  session_inv ss → 0 ≤ k < Ctx.n_threads (Session.ctx ss) →
  ∃ i, 0 ≤ i < Ctx.n_threads (Session.ctx ss) ∧ thread_at ss i = (Session.threads ss).[k].
Proof.
  intros [_ _ _ Hc _ _ _ _ _] Hk. set (n := Ctx.n_threads (Session.ctx ss)) in *. set (c := Session.current_thread_num ss) in *.
  exists ((k - c) mod n). split; [apply Z.mod_pos_bound; lia|]. unfold thread_at. fold n c. rewrite Zplus_mod_idemp_r.
  replace (c + (k - c)) with k by lia. by rewrite Z.mod_small.
Qed.

(** No thread was told to end before it had a frame, or will be. *)
Definition all_fed ss : Prop := ∀ k, 0 ≤ k < Ctx.n_threads (Session.ctx ss) →
  let th := (Session.threads ss).[k] in Thread.exited th = true ∨ Thread.state th = WORK ∨ Thread.state th = ABORT.

Lemma all_fed_kept ss1 samples count fb ss2 fb' r :
  session_ok ss1 → all_fed ss1 → called ss1 samples count fb ss2 fb' r → all_fed ss2.
Proof.
  intros [Hinv Hta] Hfed Hc. pose proof (se_n _ Hinv) as [Hl _]. pose proof (se_cur _ Hinv) as Hcur.
  destruct Hc as [H0|ss2 H1 Hst (Hctx & _ & _ & Hk) H0|ss2 fb' f H1 Hst Hs]; [done| |].
  - intros k Hr. rewrite Hctx in Hr. destruct (Hk k Hr) as [He| ->]; [by left|by apply Hfed].
  - destruct (current_thread ss1 Hinv H1) as (_ & H0 & [Hex _] & _). pose proof (Hfed _ Hcur) as Hf0. cbv zeta in Hf0. rewrite <- H0 in Hf0, Hex.
    assert (Hns : Thread.state (thread_at ss1 0) ≠ START) by (intros Hs0; rewrite Hs0, Hex in Hf0; by destruct Hf0 as [?|[?|?]]).
    assert (Hput : ∀ ctx au th' ta run st, Ctx.n_threads ctx = Ctx.n_threads (Session.ctx ss1) →
      Thread.exited th' = true ∨ Thread.state th' = WORK ∨ Thread.state th' = ABORT → all_fed (moved ss1 ctx au th' ta run st)).
    { intros ctx au th' ta run st Hn Hth' k. simpl. rewrite Hn. intros Hk. rewrite at_upd by lia. destruct (k =? _); [done|by apply Hfed]. }
    destruct Hs as [th' Hs He|Ht Hd Hs|th' Ht Hd Hs He|au th' Ht Hd Hs Hw Hl' Hns'|au th' Ht Hd Hs Hw Hl' Hns']; try done.
    + apply Hput; [done|by left].
    + apply Hput; [done|by left].
    + apply Hput; [done|]. right. destruct Hl' as [_ [[? _]|[[? _]|?]]]; [done|by left|by right].
Qed.

(** A thread that never had a frame, at the end of the stream, and no failure
    that would stop all threads. *)
Definition starving ss : Prop :=
  drained (Session.ctx ss) = true ∧
  (∀ k, 0 ≤ k < Ctx.n_threads (Session.ctx ss) → let th := (Session.threads ss).[k] in Thread.exited th = true ∨ Thread.state th ≠ ABORT) ∧
  ∃ k, 0 ≤ k < Ctx.n_threads (Session.ctx ss) ∧ let th := (Session.threads ss).[k] in
    Thread.exited th = false ∧ (Thread.state th = START ∨ Thread.state th = END).

Lemma starving_kept ss1 samples count fb ss2 fb' r :
  session_ok ss1 → starving ss1 → called ss1 samples count fb ss2 fb' r → starving ss2.
Proof.
  intros [Hinv Hta] Hstarve Hc. pose proof (se_n _ Hinv) as [Hl _]. pose proof (se_cur _ Hinv) as Hcur.
  destruct Hstarve as (Hd & Hna & k & Hk & Hex & Hst). set (c := Session.current_thread_num ss1) in *.
  assert (Hput : ∀ th' run st, Thread.exited th' = true ∨ Thread.state th' ≠ ABORT →
    k ≠ c ∨ (Thread.exited th' = false ∧ Thread.state th' = END) →
    starving (moved ss1 (Session.ctx ss1) (Session.audio ss1) th' 0 run st)).
  { intros th' run st Hth' Hkc. split; [exact Hd|]. simpl. fold c. split.
    - intros k' Hk'. rewrite at_upd by lia. destruct (k' =? c); [done|by apply Hna].
    - exists k. split; [exact Hk|]. rewrite at_upd by lia. destruct (Z.eqb_spec k c) as [He|]; [|done].
      destruct Hkc as [?|[? ?]]; [done|]. split; [done|by right]. }
  destruct Hc as [H0|ss2 H1 Habort _ _|ss2 fb' f H1 Habort Hs]; [by split; [|split; [|by exists k]]| |].
  - destruct (current_thread ss1 Hinv H1) as (_ & H0 & [Hex0 _] & _). fold c in H0, Hex0. rewrite H0 in Habort.
    destruct (Hna c Hcur) as [?|?]; [congruence|done].
  - destruct (current_thread ss1 Hinv H1) as (_ & H0 & [Hex0 _] & _). fold c in H0, Hex0.
    destruct Hs as [th' [Hs|?] He|_ _ Hs|th' _ _ Hs He|au th' _ Hd'|au th' _ Hd']; [done|done| | |congruence|congruence].
    + apply Hput; [by right|]. rewrite H0. by right.
    + apply Hput; [by left|]. left. intros ->. rewrite H0 in Hs. rewrite Hs in Hst. by destruct Hst.
Qed.

(** A session before its first call. *)
Definition fresh ss : Prop :=
  session_ok ss ∧ Session.threads_running ss = Ctx.n_threads (Session.ctx ss) ∧ Ctx.last_samples_count (Session.ctx ss) = -1 ∧
  ∀ k, 0 ≤ k < Ctx.n_threads (Session.ctx ss) → Thread.exited (Session.threads ss).[k] = false ∧ Thread.state (Session.threads ss).[k] = START.

Lemma first_call_starving ss samples count fb ss' fb' r :
  fresh ss → 2 ≤ Ctx.n_threads (Session.ctx ss) → 0 ≤ count ≤ 1280 →
  called ss samples count fb ss' fb' r → (∀ k, 0 ≤ k < Ctx.n_threads (Session.ctx ss) → Thread.state (Session.threads ss').[k] ≠ ABORT) →
  starving ss'.
Proof.
  intros ([Hinv Hta] & Hrun & Hlast & Hstart) Hn Hcount Hc Hna. pose proof (se_n _ Hinv) as [Hl _]. pose proof (se_cur _ Hinv) as Hcur.
  assert (Hdr : drained (Session.ctx ss) = false) by (unfold drained; rewrite Hlast; done).
  set (c := Session.current_thread_num ss) in *. pose proof (thread_at_0 ss Hinv) as H0. fold c in H0.
  destruct (Hstart c Hcur) as [Hex0 Hst0]. rewrite <- H0 in Hst0, Hex0.
  destruct Hc as [?|ss' H1 Habort _ _|ss' fb' f H1 Habort Hs]; [lia|congruence|].
  destruct Hs as [th' [Hs|?] He|_ Hd' Hs|th' _ Hd' Hs He|au th' _ _ _ Hw Hlive Hns|au th' _ _ Hs]; [done|done|congruence|congruence| |congruence].
  split; [unfold drained; simpl; unfold A52_SAMPLES_PER_FRAME; lia|]. simpl in Hna |- *. fold c in Hna |- *. split.
  - intros k Hk. right. by apply Hna.
  - exists (if c =? 0 then 1 else 0). assert (Hne : (if c =? 0 then 1 else 0) ≠ c) by (destruct (Z.eqb_spec c 0); lia).
    assert (Hk : 0 ≤ (if c =? 0 then 1 else 0) < Ctx.n_threads (Session.ctx ss)) by (destruct (c =? 0); lia).
    split; [exact Hk|]. rewrite at_upd by lia. rewrite (proj2 (Z.eqb_neq _ _) Hne). destruct (Hstart _ Hk) as [-> ->]. split; [done|by left].
Qed.

Lemma starving_blocks ss : session_ok ss → starving ss → ∃ k, close_threads ss = Some (Blocked k).
Proof.
  intros Hok Hs. pose proof (close_threads_spec starving ss Hok Hs) as Hc.
  specialize (Hc ltac:(intros; by eapply starving_kept)). apply wp_some in Hc as (c & Heq & ss' & Hok' & (_ & _ & k & Hk & Hex & _) & _ & Hc).
  destruct c as [r|k']; [|by exists k']. destruct Hc as [_ Hall]. rewrite Hall in Hex; [done|]. by rewrite (proj1 (se_n _ (proj1 Hok'))).
Qed.

(** * The frames of a stream

    The threads from the current one on are a queue: a call takes the first
    one, which has the oldest frame, and puts it back at the end. *)
Definition queue ss : list Thread.t := map (thread_at ss) (seqZ 0 (Ctx.n_threads (Session.ctx ss))).
Definition coded th : list Z := take (Z.to_nat (TCtx.framesize (Thread.tctx th))) (Thread.frame_buffer th).

(** The reference: one call after the other encodes a frame on the first
    context of the queue, without waiting or flushing. *)
Fixpoint encode_in_turn (ctx : Ctx.t) (au : Audio.t) (q : list Thread.t) (calls : list (list Z * Z)) : option (list Thread.t) :=
  match calls, q with
  | [], _ => Some []
  | (samples, count) :: calls, th :: q =>
      t ← load_samples ctx au samples count (Thread.tctx th);
      '(au, t, m, r) ← job (counted ctx count) au t (Thread.frame_buffer th);
      let th := Thread.mk (if r =? 0 then WORK else ABORT) t m false in
      ths ← encode_in_turn (counted ctx count) au (q ++ [th]) calls;
      Some (th :: ths)
  | _, [] => None
  end.

(** The frames that the calls return. *)
Fixpoint encode_stream ss (fb : list Z) (calls : list (list Z * Z)) : option (list (list Z)) :=
  match calls with
  | [] => Some []
  | (samples, count) :: calls =>
      '(ss, m, r) ← process_frame_parallel (λ k, prepare_encode k samples count) fb ss;
      fs ← encode_stream ss fb calls;
      Some (take (Z.to_nat r) m :: fs)
  end.

Lemma queue_moved ss ctx au th ta run st :
  session_inv ss → Ctx.n_threads ctx = Ctx.n_threads (Session.ctx ss) →
  ∃ q, queue ss = thread_at ss 0 :: q ∧ queue (moved ss ctx au th ta run st) = q ++ [th].
Proof.
  intros Hinv Hn. pose proof (se_n _ Hinv) as [_ Hnr]. unfold queue. rewrite moved_ctx, Hn.
  set (n := Ctx.n_threads (Session.ctx ss)) in *. exists (map (λ i, thread_at ss (i + 1)) (seqZ 0 (n - 1))).
  assert (Hat : ∀ i, 0 ≤ i < n → thread_at (moved ss ctx au th ta run st) i = if i =? n - 1 then th else thread_at ss (i + 1))
    by (intros i Hi; rewrite thread_at_moved by (rewrite ?Hn; done); by rewrite Hn).
  split.
  - rewrite (seqZ_cons 0 n) by lia. simpl. f_equal. replace (Z.pred n) with (n - 1) by lia. change (Z.succ 0) with 1.
    replace (seqZ 1 (n - 1)) with (map (Z.add 1) (seqZ 0 (n - 1))) by (apply (fmap_add_seqZ 1 0)).
    rewrite map_map. apply map_ext. intros i. f_equal. lia.
  - replace n with (n - 1 + 1) at 1 by lia. rewrite seqZ_app, map_app by lia. f_equal.
    + apply map_ext_in. intros i Hi%list_elem_of_In%elem_of_seqZ. rewrite Hat by lia. by replace (i =? n - 1) with false by lia.
    + simpl. rewrite Z.add_0_l. replace (seqZ (n - 1) 1) with [n - 1] by (by rewrite seqZ_cons, seqZ_nil by lia). simpl.
      rewrite Hat by lia. by rewrite Z.eqb_refl.
Qed.

(** The frame of a thread served is what it coded before. *)
Lemma received_coded fb th :
  frame_memory fb → frame_memory (Thread.frame_buffer th) → coded_size (TCtx.framesize (Thread.tctx th)) →
  take (Z.to_nat (TCtx.framesize (Thread.tctx th))) (received fb th) = coded th.
Proof.
  intros [Hl _] [Hl' _] Hs. unfold received, coded, splice, slice. unfold coded_size, A52_MAX_CODED_FRAME_SIZE in *.
  change (Z.to_nat 0) with 0%nat. rewrite take_0, drop_0. simpl. apply take_app_length'. rewrite length_take. unfold zlen in *. lia.
Qed.

Lemma encode_stream_spec ss fb calls ths :
  session_ok ss → Session.threads_running ss = Ctx.n_threads (Session.ctx ss) → drained (Session.ctx ss) = false →
  (∀ th, In th (queue ss) → Thread.state th ≠ ABORT) → frame_memory fb →
  Forall (λ c, source_ok (Session.ctx ss) c.1 c.2 ∧ 1280 < c.2 ≤ A52_SAMPLES_PER_FRAME) calls →
  encode_in_turn (Session.ctx ss) (Session.audio ss) (queue ss) calls = Some ths → Forall (λ th, Thread.state th = WORK) ths →
  encode_stream ss fb calls = Some (take (length calls) (map coded (queue ss ++ ths))).
Proof.
  revert ss ths. induction calls as [|[samples count] calls IH]; intros ss ths [Hinv Hta] Hrun Hd Hna Hfb Hcalls Hturn Hwork; [done|].
  inversion Hcalls as [|? ? [Hsrc Hcount] Hcalls']; subst. simpl in Hsrc, Hcount. pose proof (se_n _ Hinv) as [_ Hn].
  pose proof (process_frame_parallel_spec ss samples count fb (conj Hinv Hta) Hsrc ltac:(lia) Hfb) as Hp.
  apply wp_some in Hp as ([[ss' m] r] & Heq & Hcall & [Hinv' Hta'] & _). simpl. rewrite Heq. cbn [mbind option_bind].
  destruct (current_thread ss Hinv ltac:(lia)) as (_ & H0 & [_ Hst] & _ & Hmem). rewrite <- H0 in Hst, Hmem.
  assert (Hhead : Thread.state (thread_at ss 0) ≠ ABORT).
  { apply Hna. destruct (queue_moved ss (Session.ctx ss) (Session.audio ss) inhabitant 0 0 (Session.status ss) Hinv eq_refl) as (q & -> & _). by left. }
  assert (Hserve : ∃ au' th', worked ss samples count (thread_at ss 0) au' th' ∧ (∃ st, ss' = moved ss (counted (Session.ctx ss) count) au' th' 0
      (Session.threads_running ss) st) ∧ take (Z.to_nat r) m = coded (thread_at ss 0)).
  { destruct Hcall as [?|? ? ? _ _|ss' fb' f H1 _ Hs]; [lia|done|].
    destruct Hs as [th' [?|?] _|_ ? _|th' _ ? _ _|au th' _ _ Hs Hw _ _|au th' _ _ Hs Hw _ _]; try congruence.
    - exists au, th'. split; [done|]. split; [by eexists|]. destruct Hst as [[_ Hsz]|[[? _]|?]]; [|congruence..]. unfold coded. by rewrite Hsz.
    - exists au, th'. split; [done|]. split; [by eexists|]. destruct Hst as [[? _]|[[_ Hsz]|?]]; [congruence| |congruence]. by apply received_coded. }
  destruct Hserve as (au' & th' & (t0 & t & m' & r' & Hload & Hjob & Hth') & [st ->] & Hout).
  destruct (queue_moved ss (counted (Session.ctx ss) count) au' th' 0 (Session.threads_running ss) st Hinv eq_refl) as (q & Hq & Hq').
  simpl in Hturn. rewrite Hq in Hturn. rewrite Hload in Hturn. cbn [mbind option_bind] in Hturn. rewrite Hjob in Hturn. cbn [mbind option_bind] in Hturn.
  rewrite <- Hth' in Hturn. destruct (encode_in_turn _ au' (q ++ [th']) calls) as [ths'|] eqn:Hrest; [|done]. injection Hturn as <-.
  inversion Hwork as [|? ? Hw' Hws]; subst x l.
  rewrite (IH _ ths'); [|by split|done| | |done| |by rewrite Hq'|done].
  - cbn [mbind option_bind]. rewrite Hout, Hq, Hq'. rewrite <- app_assoc. done.
  - rewrite moved_ctx. unfold drained, counted. simpl. unfold A52_SAMPLES_PER_FRAME in *. lia.
  - rewrite Hq'. intros th Hin. apply in_app_iff in Hin as [Hin|[<-|[]]]; [|congruence]. apply Hna. rewrite Hq. by right.
  - rewrite moved_ctx. destruct (inv_count (Session.ctx ss) count (se_ctx _ Hinv)) as (_ & _ & _ & _ & Hs).
    apply Forall_forall. intros c Hc. rewrite Forall_forall in Hcalls'. destruct (Hcalls' c Hc) as [Hc1 Hc2]. split; [by apply Hs|done].
Qed.
End protocol.

(** * Properties *)

(** C7: A call of [process_frame_parallel] ends whatever the job does within its
    contract, and keeps the threads' invariant.  Without a running thread it
    returns 0; when the current thread has failed, it stops all threads and
    returns -1; otherwise it serves the current thread and moves on: it hands
    out the frame the thread coded before, with its size as the return value,
    or nothing and 0 for a thread without one, and starts the thread on the new
    samples, unless the stream is drained: then the thread ends. *)
Theorem process_frame_parallel_correct {J : Job} {JOk : JobOk J} ss samples count fb :
  session_ok ss → source_ok (Session.ctx ss) samples count → 0 ≤ count ≤ A52_SAMPLES_PER_FRAME → frame_memory fb →
  ∃ ss' fb' r, process_frame_parallel (λ k, prepare_encode k samples count) fb ss = Some (ss', fb', r) ∧
    called ss samples count fb ss' fb' r ∧ session_ok ss' ∧ frame_memory fb'.
Proof.
  intros Hok Hsrc Hcount Hfb. pose proof (process_frame_parallel_spec ss samples count fb Hok Hsrc Hcount Hfb) as Hw.
  apply wp_some in Hw as ([[ss' fb'] r] & Heq & H). by exists ss', fb', r.
Qed.

(** [aften_encode_close] stops the threads and joins them when every one of
    them has had a frame: the loop that flushes them ends, and the result is 0
    if they had been flushed before and -1 otherwise. *)
Theorem close_after_fed {J : Job} {JOk : JobOk J} ss :
  session_ok ss → all_fed ss → close_threads ss = Some (Closed (if Session.threads_running ss =? 0 then 0 else -1)).
Proof.
  intros Hok Hfed. pose proof (close_threads_spec all_fed ss Hok Hfed) as Hc.
  specialize (Hc ltac:(intros; by eapply all_fed_kept)). apply wp_some in Hc as (c & -> & ss' & Hok' & Hfed' & H0 & Hc).
  destruct c as [r|k]; [by destruct Hc as [-> _]|]. exfalso. destruct Hok' as [Hinv' _]. destruct Hc as [Hk Hex].
  rewrite (proj1 (se_n _ Hinv')) in Hk. destruct (thread_position ss' k Hinv' Hk) as (i & Hi & Hat).
  pose proof (se_done _ Hinv' i ltac:(lia)) as Hdone. rewrite Hat in Hdone. destruct Hdone as [Hdone|Hdone]; [congruence|].
  specialize (Hfed' k Hk). cbv zeta in Hfed'. rewrite Hex, Hdone in Hfed'. by destruct Hfed' as [?|[?|?]].
Qed.

(** C12: When the only frame of a stream has at most 1280 samples, and there are two
    or more threads, [aften_encode_close] never returns: a thread that had no
    frame is counted as ended without being woken, and joining it blocks. *)
Theorem short_stream_blocks_close {J : Job} {JOk : JobOk J} ss samples count fb :
  fresh ss → 2 ≤ Ctx.n_threads (Session.ctx ss) → source_ok (Session.ctx ss) samples count → 0 ≤ count ≤ 1280 → frame_memory fb →
  ∃ ss' fb' r, process_frame_parallel (λ k, prepare_encode k samples count) fb ss = Some (ss', fb', r) ∧
    ((∀ k, 0 ≤ k < Ctx.n_threads (Session.ctx ss) → Thread.state (Session.threads ss').[k] ≠ ABORT) →
     ∃ k, close_threads ss' = Some (Blocked k)).
Proof.
  intros Hfresh Hn Hsrc Hcount Hfb.
  pose proof (process_frame_parallel_spec ss samples count fb (proj1 Hfresh) Hsrc ltac:(unfold A52_SAMPLES_PER_FRAME; lia) Hfb) as Hw.
  apply wp_some in Hw as ([[ss' fb'] r] & Heq & Hc & Hok' & _). exists ss', fb', r. split; [exact Heq|]. intros Hna.
  apply starving_blocks; [exact Hok'|]. by apply (first_call_starving ss samples count fb ss' fb' r).
Qed.

(** C8: Frames come out in the order of the calls, one call for every thread later:
    for full frames and jobs that succeed, the first [n] calls on a fresh
    session return nothing, and call [n + i] the frame that encoding call after
    call, on the threads' contexts in turn, gives for call [i]. *)
Theorem frames_in_order {J : Job} {JOk : JobOk J} ss fb calls ths :
  fresh ss → frame_memory fb →
  Forall (λ c, source_ok (Session.ctx ss) c.1 c.2 ∧ 1280 < c.2 ≤ A52_SAMPLES_PER_FRAME) calls →
  encode_in_turn (Session.ctx ss) (Session.audio ss) (queue ss) calls = Some ths → Forall (λ th, Thread.state th = WORK) ths →
  encode_stream ss fb calls = Some (take (length calls) (replicate (Z.to_nat (Ctx.n_threads (Session.ctx ss))) [] ++ map coded ths)).
Proof.
  intros (Hok & Hrun & Hlast & Hstart) Hfb Hcalls Hturn Hwork. pose proof (proj1 Hok) as Hinv. pose proof (se_n _ Hinv) as [_ Hn].
  assert (Hq : ∀ th, In th (queue ss) → Thread.state th = START ∧ coded th = []).
  { intros th (i & <- & Hi)%in_map_iff. apply list_elem_of_In, elem_of_seqZ in Hi.
    pose proof (se_live _ Hinv i ltac:(lia)) as [_ Hlive].
    assert (Hs : Thread.state (thread_at ss i) = START) by (apply Hstart, Z.mod_pos_bound; lia).
    split; [exact Hs|]. destruct Hlive as [[_ Hz]|[[? _]|?]]; [|congruence..]. unfold coded. by rewrite Hz. }
  rewrite (encode_stream_spec ss fb calls ths); try done.
  - rewrite map_app. do 3 f_equal. unfold queue in *. rewrite map_map.
    assert (Hall : ∀ l, (∀ i, In i l → coded (thread_at ss i) = []) → map (λ i, coded (thread_at ss i)) l = replicate (length l) []).
    { induction l as [|i l IH]; intros Hl; [done|]. simpl. rewrite (Hl i (or_introl eq_refl)). f_equal. apply IH. intros; apply Hl. by right. }
    rewrite Hall; [by rewrite length_seqZ|]. intros i Hi. apply Hq. by apply (in_map (thread_at ss)).
  - unfold drained. by rewrite Hlast.
  - intros th Hin. destruct (Hq th Hin) as [-> _]. done.
Qed.

(** * Witnesses

    A job that numbers its frames: two bytes, the thread and its frame count;
    and an encoder without channels. *)
Definition numbering_job : Job := λ _ au t m,
  Some (au, t <| TCtx.framesize := 2 |> <| TCtx.sample_cnt := u8 (TCtx.sample_cnt t + 1) |>,
        splice m 0 [u8 (TCtx.thread_num t); u8 (TCtx.sample_cnt t)], 0).

Definition no_channels (ctx : Ctx.t) : Prop := Ctx.n_all_channels ctx = 0.
Definition no_conversion (au : Audio.t) : Prop := Audio.fmt_convert_from_src au = Some (λ dest _ _ _, Some dest).

#[global] Instance numbering_job_ok : JobOk numbering_job.
Proof.
  refine {| ctx_inv := no_channels; audio_inv := λ _, no_conversion; tctx_inv := λ _ _, True; ready_inv := λ _ _ _, True;
            source_ok := λ _ _ _, True |}; try done.
  - intros ctx au t m _ Hau _ [Hl Hb]. apply wp_ret. split; [done|]. split; [done|]. split; [|intros _; split; done].
    split; [rewrite zlen_splice; [done|lia|]; unfold A52_MAX_CODED_FRAME_SIZE in Hl; unfold zlen in *; simpl; lia|].
    unfold splice. repeat apply Forall_app_2; auto using Forall_take, Forall_drop.
    repeat constructor; unfold byte; apply Z.mod_pos_bound; lia.
  - intros ctx au t samples count Hc Hau _ _ _. unfold load_samples, convert_samples_from_src. rewrite Hau, Hc.
    cbn [mbind option_bind]. destruct (_ <? _); done.
Defined.

Definition two_threads : Ctx.t := Ctx.mk (EncParams.mk 0 1 0 0 0 0 192 240 (-1) 0 8 5 0 60) (AftenContext.meta Init.aften_set_defaults)
  2 (-1) 0 0 2 0 (-1) 48000 0 8 0 0 192 20 60.
Definition blank_audio : Audio.t := Init.calloc_audio (Some (λ dest _ _ _, Some dest)).
Definition blank_thread (j : Z) : Thread.t :=
  Thread.mk START (inhabitant <| TCtx.thread_num := j |>) (replicate (Z.to_nat A52_MAX_CODED_FRAME_SIZE) 0) false.
Definition opened : Session.t := Session.mk two_threads blank_audio [blank_thread 0; blank_thread 1] 0 0 2 (Status.mk 0 0 0).

Lemma opened_thread i : thread_at opened i = blank_thread 0 ∨ thread_at opened i = blank_thread 1.
Proof.
  unfold thread_at. change (Ctx.n_threads (Session.ctx opened)) with 2. pose proof (Z.mod_pos_bound (Session.current_thread_num opened + i) 2 ltac:(lia)) as Hm.
  assert (He : (Session.current_thread_num opened + i) mod 2 = 0 ∨ (Session.current_thread_num opened + i) mod 2 = 1) by lia.
  destruct He as [-> | ->]; [by left|by right].
Qed.

Lemma opened_fresh : fresh (J := numbering_job) opened.
Proof.
  assert (Hk : ∀ k, 0 ≤ k < 2 → (Session.threads opened).[k] = blank_thread k)
    by (intros k Hk; assert (He : k = 0 ∨ k = 1) by lia; destruct He as [-> | ->]; reflexivity).
  split; [split; [split|done]|split; [done|split; [done|]]].
  - done.
  - done.
  - split; [done|simpl; lia].
  - simpl. lia.
  - simpl. lia.
  - by left.
  - intros k Hr. rewrite (Hk k Hr). split; [done|exact silent_buffer].
  - intros i _. split; destruct (opened_thread i) as [-> | ->]; auto.
  - simpl. intros i Hi. lia.
  - intros k Hr. by rewrite (Hk k Hr).
Qed.

Lemma process_frame_parallel_correct_witness :
  ∃ ss' fb' r, process_frame_parallel (J := numbering_job) (λ k, prepare_encode k [] 1536) (replicate (Z.to_nat A52_MAX_CODED_FRAME_SIZE) 0) opened = Some (ss', fb', r).
Proof.
  destruct (process_frame_parallel_correct (J := numbering_job) opened [] 1536 (replicate (Z.to_nat A52_MAX_CODED_FRAME_SIZE) 0)
    (proj1 opened_fresh) I ltac:(unfold A52_SAMPLES_PER_FRAME; lia) silent_buffer) as (ss' & fb' & r & Heq & _).
  exists ss', fb', r. exact Heq.
Defined.

Lemma short_stream_blocks_close_witness :
  ∃ ss' fb' r k, process_frame_parallel (J := numbering_job) (λ k, prepare_encode k [] 1000) (replicate (Z.to_nat A52_MAX_CODED_FRAME_SIZE) 0) opened = Some (ss', fb', r) ∧
    close_threads (J := numbering_job) ss' = Some (Blocked k).
Proof.
  destruct (short_stream_blocks_close (J := numbering_job) opened [] 1000 (replicate (Z.to_nat A52_MAX_CODED_FRAME_SIZE) 0)
    opened_fresh ltac:(simpl; lia) I ltac:(lia) silent_buffer) as (ss' & fb' & r & Heq & Hblock).
  assert (Hna : ∀ k, 0 ≤ k < Ctx.n_threads (Session.ctx opened) → Thread.state (Session.threads ss').[k] ≠ ABORT).
  { assert (Hb : match process_frame_parallel (J := numbering_job) (λ k, prepare_encode k [] 1000) (replicate (Z.to_nat A52_MAX_CODED_FRAME_SIZE) 0) opened with
      | Some (ss, _, _) => forallb (λ k, negb (bool_decide (Thread.state (Session.threads ss).[k] = ABORT))) [0; 1] | None => false end = true)
      by (vm_compute; reflexivity).
    rewrite Heq in Hb. simpl in Hb. rewrite !andb_true_iff in Hb. destruct Hb as (H0 & H1 & _). apply negb_true_iff in H0, H1.
    intros k Hk. assert (He : k = 0 ∨ k = 1) by (simpl in Hk; lia).
    destruct He as [-> | ->]; [exact (proj1 (bool_decide_eq_false _) H0)|exact (proj1 (bool_decide_eq_false _) H1)]. }
  destruct (Hblock Hna) as [k Hk]. exists ss', fb', r, k. split; [exact Heq|exact Hk].
Defined.

Lemma close_after_fed_witness :
  ∃ ss, Session.threads_running ss = 2 ∧ close_threads (J := numbering_job) ss = Some (Closed (-1)).
Proof.
  set (th j := Thread.mk WORK (inhabitant <| TCtx.thread_num := j |> <| TCtx.framesize := 2 |>) (replicate (Z.to_nat A52_MAX_CODED_FRAME_SIZE) 0) false).
  set (ss := opened <| Session.threads := [th 0; th 1] |>).
  assert (Hk : ∀ k, 0 ≤ k < 2 → (Session.threads ss).[k] = th k)
    by (intros k Hk; assert (He : k = 0 ∨ k = 1) by lia; destruct He as [-> | ->]; reflexivity).
  exists ss. split; [reflexivity|]. refine (close_after_fed (J := numbering_job) ss _ _).
  - split; [split|done].
    + done.
    + done.
    + split; [done|simpl; lia].
    + simpl. lia.
    + simpl. lia.
    + by left.
    + intros k Hr. rewrite (Hk k Hr). split; [done|exact silent_buffer].
    + intros i _. unfold thread_at. change (Ctx.n_threads (Session.ctx ss)) with 2. rewrite Hk by (apply Z.mod_pos_bound; lia).
      split; [done|]. right. left. split; done.
    + simpl. intros i Hi. lia.
  - intros k Hr. cbv zeta. rewrite (Hk k Hr). right. by left.
Defined.

Lemma frames_in_order_witness :
  encode_stream (J := numbering_job) opened (replicate (Z.to_nat A52_MAX_CODED_FRAME_SIZE) 0) [([], 1536); ([], 1536); ([], 1536); ([], 1500)] =
  Some [[]; []; [0; 0]; [1; 0]].
Proof.
  refine (frames_in_order (J := numbering_job) opened (replicate (Z.to_nat A52_MAX_CODED_FRAME_SIZE) 0) [([], 1536); ([], 1536); ([], 1536); ([], 1500)]
    _ opened_fresh silent_buffer _ eq_refl _).
  - repeat constructor; unfold A52_SAMPLES_PER_FRAME; simpl; lia.
  - repeat constructor.
Defined.
