(* ===== verification/Encoder.v ===== *)
(** The threads that [aften_encode_init] creates and the calls of the library
    on an initialised encoder: [aften_encode_frame], with one thread and with
    several, and [aften_encode_close], of [libaften/a52enc.c].  The theorems
    put the parts together: what a call returns in every case, that
    [process_frame] fulfils the contract of the threads' protocol where there
    is headroom, as there is for silence, that flushing ends, and that an
    encoder from [aften_encode_init] is where they start. *)
From Stdlib Require Import ZArith Lia ZifyBool Bool.
From stdpp Require Import base option list numbers.
From coqutil Require Import Datatypes.RecordSettersUsingExistingGetters.
From S2P Require Import Prelude CMachine Float FloatExact BitIO Crc Tables Types A52 BitAlloc FrameOut.
From S2P Require Import Filter Convert Dynrng Window Samples Coefs Mdct Rate Process Init Threads.
Local Open Scope Z_scope.
Local Open Scope carray_scope.

(** * The calls *)

(** [process_frame] with [begin_encode_frame], the table of the checksum and
    the contents of the uninitialised buffer of [copy_samples]. *)
Definition frame_job `{T : Target} `{FF : FloatFormat} `{K : Kernels} `{LM : LibM} `{R : Residue} (crc16tab : list Z) (buffer : list FLOAT) : Job :=
  λ ctx au tctx m, process_frame crc16tab (begin_encode_frame ctx buffer) ctx au tctx m.

(** [calloc] of [frame_buffer] *)
Definition calloc_frame_buffer : list Z := replicate (Z.to_nat A52_MAX_CODED_FRAME_SIZE) 0.

(** A thread context from [calloc]; [START] is 0. *)
Definition calloc_thread : Thread.t := Thread.mk START inhabitant calloc_frame_buffer false.

(** [threaded_worker] up to its first wait, for which the creator of the thread
    waits. *)
Definition start_worker (ss : Session.t) : Session.t := ss <| Session.threads_running := Session.threads_running ss + 1 |>.

(** The thread contexts of [aften_encode_init]: the fields of the encoder's part
    and, with two threads or more, the start of the worker; and the other
    fields of the private context, as [calloc] left them. *)
Definition create_thread (enc : Encoder.t) (j : Z) (ss : Session.t) : option Session.t :=
  tctx ← aget (Encoder.tctxs enc) j;
  cur_tctx ← aget (Session.threads ss) j;
  ss ← set_thread j (cur_tctx <| Thread.tctx := tctx |>) ss;
  if Ctx.n_threads (Encoder.ctx enc) >? 1 then
    cur_tctx ← aget (Session.threads ss) j;
    ss ← set_thread j (cur_tctx <| Thread.state := START |>) ss;
    Some (start_worker ss)
  else Some ss.

Definition open_session (s : AftenContext.t) (enc : Encoder.t) : option Session.t :=
  let n := Ctx.n_threads (Encoder.ctx enc) in
  for_up 0 n (create_thread enc) {|
    Session.ctx := Encoder.ctx enc; Session.audio := Encoder.audio enc;
    Session.threads := replicate (Z.to_nat n) calloc_thread; Session.current_thread_num := 0;
    Session.threads_to_abort := 0; Session.threads_running := 0; Session.status := AftenContext.status s |}.

Section calls.
Context {J : Job}.

(** The frame of a call without worker threads. *)
Definition encode_single (src : list Z) (count : Z) (s : Session.t) (frame_buffer : list Z) : option (Session.t * list Z * Z) :=
  if drained (Session.ctx s) then Some (s, frame_buffer, 0) else
  th ← aget (Session.threads s) 0;
  tctx ← load_samples (Session.ctx s) (Session.audio s) src count (Thread.tctx th);
  '(au, tctx, m, _) ← job (Session.ctx s) (Session.audio s) tctx frame_buffer;
  s ← set_thread 0 (th <| Thread.tctx := tctx |>) (s <| Session.audio := au |>);
  let s := s <| Session.ctx := (Session.ctx s) <| Ctx.last_samples_count := count |> |>
             <| Session.status := TCtx.status tctx |> in
  Some (s, m, TCtx.framesize tctx).

(** The checks; a null pointer is [None]. *)
Definition rejected (ctx : Ctx.t) (samples : option (list Z)) (count : Z) : bool :=
  (bool_decide (samples = None) && negb (count =? 0)) ||
  ((count >? A52_SAMPLES_PER_FRAME) || (count <? 0)) ||
  (negb (count =? 0) && negb (Ctx.last_samples_count ctx =? -1) && (Ctx.last_samples_count ctx <? A52_SAMPLES_PER_FRAME)).

Definition aften_encode_frame (s : option Session.t) (frame_buffer : option (list Z)) (samples : option (list Z)) (count : Z)
    : option (option Session.t * option (list Z) * Z) :=
  match s, frame_buffer with
  | Some ss, Some m =>
      if rejected (Session.ctx ss) samples count then Some (s, frame_buffer, -1) else
      let src := default [] samples in
      '(ss, m, r) ← (if Ctx.n_threads (Session.ctx ss) >? 1 then process_frame_parallel (λ k, prepare_encode k src count) m ss
                     else encode_single src count ss m);
      Some (Some ss, Some m, r)
  | _, _ => Some (s, frame_buffer, -1)
  end.

(** The private context is freed; [s] or its private context may be null. *)
Definition aften_encode_close (s : option Session.t) : option closing :=
  match s with
  | None => Some (Closed 0)
  | Some ss =>
      '(ss, ret_val) ← stop_threads ss;
      if Ctx.n_threads (Session.ctx ss) =? 1 then Some (Closed ret_val) else join_threads (Session.threads ss) ret_val
  end.
End calls.

(** * The samples of a call *)

(** The frame's audio after the conversion: [count] samples of each channel and
    silence. *)
Definition loaded `{T : Target} `{FF : FloatFormat} (fmt : Z) (ctx : Ctx.t) (src : list Z) (count : Z) (d : list (list FLOAT)) : Prop :=
  dim2 6 1536 d ∧ ∀ ch i, 0 ≤ ch < Ctx.n_all_channels ctx → 0 ≤ i < 1536 →
    d.[ch].[i] = if i <? count then sample_at fmt src (i * Ctx.n_all_channels ctx + ch) else zero_float.
Definition enough (fmt : Z) (ctx : Ctx.t) (src : list Z) (count : Z) : Prop := Ctx.n_all_channels ctx * count * sample_width fmt ≤ zlen src.

Lemma ctx_ok_counted ctx c : ctx_ok ctx → ctx_ok (counted ctx c).
Proof. intros [[] H2 H3 H4 H5 H6 H7 H8 H9 H10 H11]. destruct ctx. split; try assumption. by split. Qed.

(** Nothing that is encoded depends on the count of the last call. *)
Lemma signal_ok_counted `{FF : FloatFormat} `{K : Kernels} `{LM : LibM} ctx c au d : signal_ok ctx au d → signal_ok (counted ctx c) au d.
Proof. destruct ctx. exact id. Qed.

Section load.
Context `{T : Target} `{FF : FloatFormat} {Ok : FloatOk FF}.

Lemma load_samples_spec fmt ctx au src count t :
  0 ≤ fmt ≤ 7 → 0 ≤ Ctx.n_all_channels ctx ≤ 6 → 0 ≤ count ≤ 1536 → Audio.fmt_convert_from_src au = set_converter None fmt →
  tctx_ok ctx t → enough fmt ctx src count →
  wp (load_samples ctx au src count t) (λ t', ∃ d, t' = put_frame ((TCtx.frame t) <| Frame.input_audio := d |>) t ∧
    tctx_ok ctx t' ∧ loaded fmt ctx src count d).
Proof.
  intros Hf Hn Hc Hconv [Hok Hcl Hq] Hsrc. unfold load_samples. rewrite Hconv. apply wp_bind.
  eapply wp_mono; [exact (convert_samples_from_src_spec None fmt ctx src count _ Hf Hn Hc (fo_audio _ Hok) Hsrc)|].
  intros d [Hd Hat]. apply wp_ret. exists d. split; [done|]. split; [|by split].
  split; [|destruct Hcl; by split|exact Hq]. destruct Hok. by split.
Qed.
End load.

Section single.
Context `{T : Target} `{FF : FloatFormat} {Ok : FloatOk FF} `{K : Kernels} {KOk : KernelsOk} `{LM : LibM} `{R : Residue} {ROk : ResidueOk R}.
Variables (tab : list Z) (buffer : list FLOAT) (fmt : Z).
Hypothesis Hbuf : zlen buffer = 1536.
Hypothesis Hfmt : 0 ≤ fmt ≤ 7.

(** An encoder between two frames, apart from its threads. *)
Record coder_ok (ctx : Ctx.t) (au : Audio.t) : Prop := {
  co_ctx : ctx_ok ctx;
  co_bwcode : EncParams.bwcode (Ctx.params ctx) ≠ -2;
  co_residue : residue_readable (Ctx.fixed_bwcode ctx * 3 + 73);
  co_audio : audio_ok ctx au;
  co_convert : Audio.fmt_convert_from_src au = set_converter None fmt
}.

(** One with a single thread context. *)
Record single_ok (ss : Session.t) : Prop := {
  so_coder : coder_ok (Session.ctx ss) (Session.audio ss);
  so_thread : Ctx.n_threads (Session.ctx ss) = 1 ∧ zlen (Session.threads ss) = 1;
  so_running : Session.threads_running ss = 0;
  so_tctx : tctx_ok (Session.ctx ss) (Thread.tctx (Session.threads ss).[0])
}.

Lemma coder_ok_counted ctx c au : coder_ok ctx au → coder_ok (counted ctx c) au.
Proof. intros [H1 H2 H3 H4 H5]. split; [by apply ctx_ok_counted|done|done|by apply (same_settings_ok ctx)|done]. Qed.

(** What a coded frame leaves; [r] is the return value. *)
Inductive coded_frame (ctx : Ctx.t) (au : Audio.t) (d : list (list FLOAT)) (m : list Z) (au' : Audio.t) (t' : TCtx.t) : list Z → Prop :=
  | frame_refused fb : begun ctx au d au' fb → TCtx.framesize t' = 0 → coded_frame ctx au d m au' t' m
  | frame_packed fb fc m' : begun ctx au d au' fb → remixed_from ctx fb fc → frame_output ctx fc m t' m' → coded_frame ctx au d m au' t' m'.

Lemma coded_size_output ctx fc m t' m' : frame_output ctx fc m t' m' → coded_size (TCtx.framesize t').
Proof. intros Hf. rewrite (fx_framesize _ _ _ _ _ Hf). pose proof (fc_size _ _ _ (fx_coded _ _ _ _ _ Hf)). unfold coded_size, A52_MAX_CODED_FRAME_SIZE. lia. Qed.

Lemma frame_job_spec ctx au t m :
  crc_init crc16tab_zero = Some tab → coder_ok ctx au → tctx_ok ctx t → signal_ok ctx au (Frame.input_audio (TCtx.frame t)) → frame_memory m →
  wp (frame_job tab buffer ctx au t m) (λ '(au', t', m', r), coder_ok ctx au' ∧ tctx_ok ctx t' ∧ frame_memory m' ∧
    coded_frame ctx au (Frame.input_audio (TCtx.frame t)) m au' t' m' ∧ (r = 0 → coded_size (TCtx.framesize t'))).
Proof.
  intros Htab [Hcx Hbw Hres Hau Hconv] Ht Hsig [Hl Hb]. unfold frame_job.
  eapply wp_mono; [exact (process_frame_spec ctx Hcx tab buffer au t m Htab Hbw Hres Ht Hau Hbuf Hsig Hl Hb)|]. clear Htab.
  intros [[[au' t'] m'] r] (Ht' & fb & Hbg & Hcase). cbv beta iota.
  split; [split; [exact Hcx|exact Hbw|exact Hres|apply (bg_audio _ _ _ _ _ Hbg)|rewrite (bg_converter _ _ _ _ _ Hbg); exact Hconv]|].
  split; [exact Ht'|]. destruct Hcase as [(-> & -> & Hz)|(-> & fc & Hrem & Hout)].
  - split; [by split|]. split; [by apply (frame_refused _ _ _ _ _ _ fb)|done].
  - pose proof (fx_written _ _ _ _ _ Hout) as Hwr.
    split; [split; [by rewrite (fw_len _ _ _ _ Hwr)|apply (fw_bytes _ _ _ _ Hwr)]|split; [by apply (frame_packed _ _ _ _ _ _ fb fc)|intros _; by apply (coded_size_output ctx fc m t' m')]].
Qed.

(** ** One thread *)

#[local] Instance single_job : Job := frame_job tab buffer.

(** What [encode_single] leaves: [r] is the size of the frame, 0 if bit
    allocation refused it. *)
Record encoded (ss : Session.t) (src : list Z) (count : Z) (m : list Z) (ss' : Session.t) (m' : list Z) (r : Z) : Prop := {
  ec_ok : single_ok ss';
  ec_count : Session.ctx ss' = counted (Session.ctx ss) count;
  ec_memory : frame_memory m';
  ec_size : 0 ≤ r ≤ A52_MAX_CODED_FRAME_SIZE;
  ec_result : r = TCtx.framesize (Thread.tctx (Session.threads ss').[0]);
  ec_status : Session.status ss' = TCtx.status (Thread.tctx (Session.threads ss').[0]);
  ec_frame : ∃ d, loaded fmt (Session.ctx ss) src count d ∧
    coded_frame (Session.ctx ss) (Session.audio ss) d m (Session.audio ss') (Thread.tctx (Session.threads ss').[0]) m'
}.

Lemma coded_frame_size ctx au d m au' t' m' : coded_frame ctx au d m au' t' m' → 0 ≤ TCtx.framesize t' ≤ A52_MAX_CODED_FRAME_SIZE.
Proof.
  intros [fb _ ->|fb fc m1 _ _ Hout]; [unfold A52_MAX_CODED_FRAME_SIZE; lia|].
  pose proof (coded_size_output _ _ _ _ _ Hout) as Hs. unfold coded_size in Hs. lia.
Qed.

Lemma encode_single_spec ss src count m :
  crc_init crc16tab_zero = Some tab → single_ok ss → drained (Session.ctx ss) = false → frame_memory m → 0 ≤ count ≤ 1536 →
  enough fmt (Session.ctx ss) src count →
  (∀ d, loaded fmt (Session.ctx ss) src count d → signal_ok (Session.ctx ss) (Session.audio ss) d) →
  wp (encode_single src count ss m) (λ '(ss', m', r), encoded ss src count m ss' m' r).
Proof.
  intros Htab Hss Hd Hm Hc Hsrc Hsig. pose proof (so_coder _ Hss) as Hco. pose proof (so_thread _ Hss) as [Hn1 Hl1].
  pose proof (n_range _ (co_ctx _ _ Hco)) as Hn. pose proof (so_tctx _ Hss) as Ht. pose proof (so_running _ Hss) as Hrun.
  unfold encode_single. rewrite Hd, aget_at by lia. cbn [mbind option_bind]. set (th := (Session.threads ss).[0]) in *.
  apply wp_bind. eapply wp_mono.
  { exact (load_samples_spec fmt (Session.ctx ss) (Session.audio ss) src count _ Hfmt ltac:(lia) Hc (co_convert _ _ Hco) Ht Hsrc). }
  intros t0 (d & Ht0 & Hok0 & Hload). apply wp_bind. eapply wp_mono.
  { apply (frame_job_spec _ _ t0 m Htab Hco Hok0); [|exact Hm]. rewrite Ht0. exact (Hsig d Hload). }
  clear Htab. intros [[[au' t'] m'] r] (Hco' & Hok' & Hm' & Hcoded & _). cbv beta iota. unfold set_thread. simpl.
  rewrite aset_upd by lia. apply wp_ret. rewrite Ht0 in Hcoded. simpl in Hcoded.
  assert (Hat : (upd (Session.threads ss) 0 (th <| Thread.tctx := t' |>)).[0] = th <| Thread.tctx := t' |>) by (apply at_upd_eq; lia).
  simpl in Hat. split; simpl; rewrite ?Hat; simpl.
  - split; simpl.
    + by apply coder_ok_counted.
    + by rewrite zlen_upd.
    + exact Hrun.
    + rewrite Hat. by apply (tctx_ok_settings (Session.ctx ss)).
  - done.
  - exact Hm'.
  - by apply (coded_frame_size (Session.ctx ss) (Session.audio ss) d m au' t' m').
  - done.
  - done.
  - exists d. by split.
Qed.
End single.

(** ** Several threads: [process_frame] keeps the contract of the protocol *)

Section contract.
Context `{T : Target} `{FF : FloatFormat} {Ok : FloatOk FF} `{K : Kernels} {KOk : KernelsOk} `{LM : LibM} `{R : Residue} {ROk : ResidueOk R}.

(** Conditions on the filters' state and on the samples under which the
    transforms stay below full scale, that encoding keeps and silence meets. *)
Record headroom (c0 : Ctx.t) (room : Audio.t → Prop) (calm : list (list FLOAT) → Prop) : Prop := {
  hr_signal : ∀ c au d, audio_ok c0 au → room au → calm d → signal_ok (counted c0 c) au d;
  hr_kept : ∀ c au d au' f, room au → calm d → begun (counted c0 c) au d au' f → room au';
  hr_silence : ∀ d, dim2 6 1536 d → (∀ ch i, 0 ≤ ch < Ctx.n_all_channels c0 → 0 ≤ i < 1536 → d.[ch].[i] = zero_float) → calm d
}.

(** The table is a hypothesis of the contract; a record keeps it folded. *)
Record table_ok (tab : list Z) : Prop := { table_init : crc_init crc16tab_zero = Some tab }.

Definition frame_contract (tab : list Z) (buffer : list FLOAT) (fmt : Z) (c0 : Ctx.t) (room : Audio.t → Prop) (calm : list (list FLOAT) → Prop)
    (Htab : table_ok tab) (Hbuf : zlen buffer = 1536) (Hfmt : 0 ≤ fmt ≤ 7) (Hn : 0 ≤ Ctx.n_all_channels c0 ≤ 6)
    (Hr : headroom c0 room calm) : JobOk (frame_job tab buffer).
Proof.
  refine {| ctx_inv := λ ctx, ∃ c, ctx = counted c0 c; audio_inv := λ ctx au, coder_ok fmt ctx au ∧ room au; tctx_inv := tctx_ok;
            ready_inv := λ ctx au t, tctx_ok ctx t ∧ calm (Frame.input_audio (TCtx.frame t));
            source_ok := λ ctx src n, enough fmt ctx src n ∧ ∀ d, loaded fmt ctx src n d → calm d |}.
  - intros ctx au t m [c ->] [Hco Hroom] [Ht Hcalm] Hm.
    eapply wp_mono; [apply (frame_job_spec tab buffer fmt Hbuf (counted c0 c) au t m (table_init _ Htab) Hco Ht); [|exact Hm]|].
    { apply (hr_signal _ _ _ Hr); [|done|done]. apply (same_settings_ok (counted c0 c)); [done..|apply (co_audio _ _ _ Hco)]. }
    intros [[[au' t'] m'] r] (Hco' & Ht' & Hm' & Hcoded & Hsz). split; [split; [exact Hco'|]|by split_and!].
    destruct Hcoded as [fb Hbg _|fb fc m1 Hbg _ _]; exact (hr_kept _ _ _ Hr c au _ au' fb Hroom Hcalm Hbg).
  - intros ctx au t src n [c ->] [Hco Hroom] Ht [Hsrc Hcalm] Hc.
    eapply wp_mono; [exact (load_samples_spec fmt (counted c0 c) au src n t Hfmt Hn Hc (co_convert _ _ _ Hco) Ht Hsrc)|].
    intros t' (d & -> & Ht' & Hd). split; [|done]. split; [exact Ht'|exact (Hcalm d Hd)].
  - intros ctx [c ->]. split; [unfold enough; change (zlen (@nil Z)) with 0; lia|]. intros d [Hd Hat]. apply (hr_silence _ _ _ Hr _ Hd).
    intros ch i Hch Hi. rewrite (Hat ch i Hch Hi). by replace (i <? 0) with false by lia.
  - intros ctx t n [Hf [Hc1 Hc2 Hc3] Hq]. split; [exact Hf|by split|exact Hq].
  - intros ctx c [c1 ->]. split; [by exists c|].
    split; [intros au [Hco Hroom]; split; [exact (coder_ok_counted fmt _ c au Hco)|exact Hroom]|].
    split; [intros t Ht; exact (tctx_ok_settings (counted c0 c1) (counted c0 c) t eq_refl eq_refl eq_refl Ht)|].
    split; [intros au t [Ht Hcalm]; split; [exact (tctx_ok_settings (counted c0 c1) (counted c0 c) t eq_refl eq_refl eq_refl Ht)|exact Hcalm]|]. intros src n Hs. exact Hs.
Defined.
End contract.

(** * From the initialisation to the calls *)

Section opened.
Context `{T : Target} `{FF : FloatFormat} {Ok : FloatOk FF} `{LM : LibM}.

(** The transforms of the encoder: the C functions with its tables. *)
Definition encoder_kernels (enc : Encoder.t) : Kernels := c_kernels (Encoder.window enc) (Encoder.mdct_ctx_512 enc) (Encoder.mdct_ctx_256 enc).
Lemma encoder_kernels_ok enc : encoder_ok enc → KernelsOk (H := encoder_kernels enc).
Proof. intros Henc. exact (c_kernels_ok _ _ _ (en_window _ Henc) (proj1 (en_mdct _ Henc)) (proj2 (en_mdct _ Henc))). Qed.

(** The session of an encoder before its first frame. *)
Record opened (s : AftenContext.t) (enc : Encoder.t) (ss : Session.t) : Prop := {
  op_ctx : Session.ctx ss = Encoder.ctx enc;
  op_audio : Session.audio ss = Encoder.audio enc;
  op_len : zlen (Session.threads ss) = Ctx.n_threads (Encoder.ctx enc);
  op_thread : ∀ k, 0 ≤ k < Ctx.n_threads (Encoder.ctx enc) →
    (Session.threads ss).[k] = Thread.mk START (Encoder.tctxs enc).[k] calloc_frame_buffer false;
  op_cur : Session.current_thread_num ss = 0;
  op_abort : Session.threads_to_abort ss = 0;
  op_running : Session.threads_running ss = if Ctx.n_threads (Encoder.ctx enc) >? 1 then Ctx.n_threads (Encoder.ctx enc) else 0;
  op_status : Session.status ss = AftenContext.status s
}.

Lemma open_session_spec s enc : encoder_ok enc → wp (open_session s enc) (opened s enc).
Proof.
  intros Henc. pose proof (en_threads _ Henc) as [Hl Hn]. unfold open_session. cbv zeta. set (n := Ctx.n_threads (Encoder.ctx enc)) in *.
  apply (wp_for_up (λ j ss, Session.ctx ss = Encoder.ctx enc ∧ Session.audio ss = Encoder.audio enc ∧ zlen (Session.threads ss) = n ∧
    (∀ k, 0 ≤ k < n → (Session.threads ss).[k] = if k <? j then Thread.mk START (Encoder.tctxs enc).[k] calloc_frame_buffer false else calloc_thread) ∧
    Session.current_thread_num ss = 0 ∧ Session.threads_to_abort ss = 0 ∧ Session.threads_running ss = (if n >? 1 then j else 0) ∧
    Session.status ss = AftenContext.status s)).
  - lia.
  - simpl. split_and!; try done; [rewrite zlen_replicate; lia| |by destruct (_ >? _)].
    intros k Hk. rewrite at_replicate by lia. by replace (k <? 0) with false by lia.
  - intros j ss Hj (Hc & Ha & Hlt & Hth & Hcur & Hab & Hrun & Hst).
    assert (Hdone : ∀ ths, ths = upd (Session.threads ss) j (Thread.mk START (Encoder.tctxs enc).[j] calloc_frame_buffer false) →
      zlen ths = n ∧ ∀ k, 0 ≤ k < n → ths.[k] = if k <? j + 1 then Thread.mk START (Encoder.tctxs enc).[k] calloc_frame_buffer false else calloc_thread).
    { intros ths ->. rewrite zlen_upd. split; [done|]. intros k Hk. rewrite at_upd by lia. destruct (Z.eqb_spec k j) as [-> |Hne].
      - by replace (j <? j + 1) with true by lia.
      - rewrite Hth by lia. by replace (k <? j + 1) with (k <? j) by lia. }
    pose proof (Hth j ltac:(lia)) as Hthj. rewrite Z.ltb_irrefl in Hthj.
    unfold create_thread, set_thread. fold n. rewrite aget_at by lia. cbn [mbind option_bind]. rewrite aget_at by lia. cbn [mbind option_bind].
    rewrite Hthj, aset_upd by lia. cbn [mbind option_bind]. destruct (Z.gtb_spec n 1) as [H1|H1].
    + simpl Session.threads. rewrite aget_at by (rewrite zlen_upd; lia). cbn [mbind option_bind]. rewrite at_upd_eq by lia.
      rewrite aset_upd by (rewrite zlen_upd; lia). apply wp_ret. unfold start_worker. simpl.
      split_and!; try done; [rewrite !zlen_upd; lia| |lia].
      destruct (Hdone _ eq_refl) as [_ Hd]. intros k Hk. rewrite <- Hd by done. rewrite !at_upd by (rewrite ?zlen_upd; lia). by destruct (k =? j).
    + apply wp_ret. simpl. destruct (Hdone _ eq_refl) as [Hdl Hd]. by split_and!.
  - intros ss (Hc & Ha & Hlt & Hth & Hcur & Hab & Hrun & Hst). split; try done.
    intros k Hk. rewrite Hth by done. fold n in Hk. by replace (k <? n) with true by lia.
Qed.

Lemma open_single s enc ss fmt `{R : Residue} :
  encoder_ok enc → opened s enc ss → Ctx.n_threads (Encoder.ctx enc) = 1 → Audio.fmt_convert_from_src (Encoder.audio enc) = set_converter None fmt →
  EncParams.bwcode (Ctx.params (Encoder.ctx enc)) ≠ -2 → residue_readable (Ctx.fixed_bwcode (Encoder.ctx enc) * 3 + 73) →
  single_ok fmt ss.
Proof.
  intros Henc [Hc Ha Hl Hth _ _ Hrun _] H1 Hconv Hbw Hres. pose proof (en_ctx _ Henc) as Hcx. pose proof (en_audio _ Henc) as Hau.
  pose proof (en_tctx _ Henc) as Htx. split; rewrite ?Hc, ?Ha.
  - by split.
  - split; [done|lia].
  - by rewrite Hrun, H1.
  - rewrite Hth by lia. apply Htx. lia.
Qed.

(** With two threads or more, the session is fresh for the threads' protocol. *)
Lemma open_fresh s enc ss fmt buffer room calm `{R : Residue} {ROk : ResidueOk R} (K : Kernels) (KOk : KernelsOk (H := K))
    Htab (Hbuf : zlen buffer = 1536) (Hfmt : 0 ≤ fmt ≤ 7) Hn (Hr : headroom (Encoder.ctx enc) room calm) :
  encoder_ok enc → opened s enc ss → 2 ≤ Ctx.n_threads (Encoder.ctx enc) → Audio.fmt_convert_from_src (Encoder.audio enc) = set_converter None fmt →
  EncParams.bwcode (Ctx.params (Encoder.ctx enc)) ≠ -2 → residue_readable (Ctx.fixed_bwcode (Encoder.ctx enc) * 3 + 73) →
  Ctx.last_samples_count (Encoder.ctx enc) = -1 → room (Encoder.audio enc) →
  fresh (JOk := frame_contract (Encoder.crc16tab enc) buffer fmt (Encoder.ctx enc) room calm Htab Hbuf Hfmt Hn Hr) ss.
Proof.
  intros Henc [Hc Ha Hl Hth Hcur Hab Hrun _] H2 Hconv Hbw Hres Hlast Hroom. pose proof (en_ctx _ Henc) as Hcx. pose proof (en_audio _ Henc) as Hau.
  pose proof (en_threads _ Henc) as [_ Hnt]. pose proof (en_tctx _ Henc) as Htx.
  replace (Ctx.n_threads (Encoder.ctx enc) >? 1) with true in Hrun by lia.
  split; [|rewrite Hc; split; [exact Hrun|split; [exact Hlast|]]].
  - split; [|done]. split; rewrite ?Hc, ?Ha.
    + exists (-1). unfold counted. destruct (Encoder.ctx enc). simpl in *. by subst.
    + split; [by split|done].
    + by split.
    + rewrite Hcur. lia.
    + lia.
    + intros _. by left.
    + intros k Hk. rewrite Hth by done. split; [by apply Htx|exact silent_buffer].
    + intros i Hi. unfold thread_at. rewrite Hc, Hth by (apply Z.mod_pos_bound; lia). split; [done|]. left. split; [done|].
      apply Htx. apply Z.mod_pos_bound. lia.
    + lia.
  - intros k Hk. by rewrite Hth.
Qed.

(** ** Silence has headroom

    An encoder without filters, block switching and dynamic range compression
    keeps a silent history silent, so when its transform takes silence below
    full scale, silence is a signal that any number of threads can encode. *)
Definition unfiltered (p : EncParams.t) : Prop :=
  EncParams.use_dc_filter p = 0 ∧ EncParams.use_bw_filter p = 0 ∧ EncParams.use_lfe_filter p = 0 ∧
  EncParams.use_block_switching p = 0 ∧ EncParams.dynrng_profile p = DYNRNG_PROFILE_NONE.

Definition silent_history (ctx : Ctx.t) (au : Audio.t) : Prop :=
  dim2 6 1536 (Audio.last_samples au) ∧
  ∀ ch i, 0 ≤ ch < Ctx.n_all_channels ctx → 0 ≤ i < 256 → (Audio.last_samples au).[ch].[i] = zero_float.
Definition silent_frame (ctx : Ctx.t) (d : list (list FLOAT)) : Prop :=
  dim2 6 1536 d ∧ ∀ ch i, 0 ≤ ch < Ctx.n_all_channels ctx → 0 ≤ i < 1536 → d.[ch].[i] = zero_float.

(** The long transform of a silent block, with the tables of the encoder. *)
Definition silence_transformed (enc : Encoder.t) : option (list FLOAT) :=
  xs ← apply_a52_window (Encoder.window enc) (replicate 512 zero_float);
  '(ys, _) ← mdct_512 (Encoder.mdct_ctx_512 enc) (replicate 256 zero_float) xs;
  Some ys.

Lemma silent_channel ctx au ch d :
  unfiltered (Ctx.params ctx) → silent_frame ctx d → 0 ≤ ch < Ctx.n_all_channels ctx → channel_audio ctx au ch d.[ch] = d.[ch].
Proof. intros (H1 & H2 & H3 & _) _ _. unfold channel_audio, stage. rewrite H1, H2, H3. by destruct (_ <? _). Qed.

Lemma silence_headroom enc :
  encoder_ok enc → unfiltered (Ctx.params (Encoder.ctx enc)) →
  (∃ ys, silence_transformed enc = Some ys ∧ ∀ i, 0 ≤ i < 256 → within 0 ys.[i]) →
  headroom (K := encoder_kernels enc) (Encoder.ctx enc) (silent_history (Encoder.ctx enc)) (silent_frame (Encoder.ctx enc)).
Proof.
  intros Henc Hun (ys & Hys & Hwithin). pose proof (n_range _ (en_ctx _ Henc)) as Hn. split.
  - intros c au d Hau [Hal Hsil] Hd bs [_ Hbs] Hwin. split; [left; apply Hun|]. intros k ch i Hk Hch Hi. change (Ctx.n_all_channels (counted (Encoder.ctx enc) c)) with (Ctx.n_all_channels (Encoder.ctx enc)) in *.
    destruct (Hbs k Hk) as [[Hco _ _ _ _ _ _ _ _ _ _ _] Hin _]. destruct (Hwin k ch Hk Hch) as [Hrow _].
    rewrite (silent_channel (counted (Encoder.ctx enc) c) au ch d Hun Hd Hch) in Hrow.
    assert (Hzero : (Block.input_samples bs.[k]).[ch] = replicate 512 zero_float).
    { rewrite Hrow. pose proof (dim2_row _ _ _ ch Hal ltac:(lia)) as Hr1. pose proof (dim2_row _ _ _ ch (proj1 Hd) ltac:(lia)) as Hr2.
      apply array_ext; [rewrite zlen_overlap, zlen_replicate by lia; done|]. rewrite zlen_overlap by lia. intros j Hj.
      rewrite at_overlap, at_replicate by lia. destruct (Z.ltb_spec (256 * k + j) 256); [apply Hsil; lia|apply (proj2 Hd); lia]. }
    unfold silence_transformed in Hys. unfold transform_of. rewrite Hzero. change k_apply_window with (apply_a52_window (Encoder.window enc)).
    destruct (apply_a52_window (Encoder.window enc) (replicate 512 zero_float)) as [xs|] eqn:Hxs; [|done]. cbn [mbind option_bind] in Hys.
    assert (Hlx : zlen xs = 512).
    { destruct (kernel_window (KernelsOk := encoder_kernels_ok enc Henc) (replicate 512 zero_float)) as (xs' & Hxs' & Hl); [done|].
      change (apply_a52_window (Encoder.window enc) (replicate 512 zero_float) = Some xs') in Hxs'. rewrite Hxs in Hxs'. by injection Hxs' as ->. }
    destruct (mdct_512_values (Encoder.mdct_ctx_512 enc) xs (proj1 (en_mdct _ Henc)) Hlx) as (zs & Hlz & Hzs).
    rewrite Hzs in Hys by done. injection Hys as <-.
    assert (Hsw : switch_of (counted (Encoder.ctx enc) c) bs.[k] ch = 0).
    { unfold switch_of. change (Ctx.params (counted (Encoder.ctx enc) c)) with (Ctx.params (Encoder.ctx enc)). destruct Hun as (_ & _ & _ & -> & _). done. }
    rewrite Hsw. simpl Z.eqb. cbv iota. change k_mdct_512 with (mdct_512 (Encoder.mdct_ctx_512 enc)). cbn [default]. rewrite Hzs; [by apply Hwithin|]. apply (dim2_row 6); [done|lia].
  - intros c au d au' f [Hal Hsil] Hd Hbg. destruct (bg_copied _ _ _ _ _ Hbg) as (f0 & f1 & Hf0 & Hcp).
    pose proof (au_last _ _ (cp_ok _ _ _ _ _ _ Hcp)) as Hal'. split; [exact Hal'|]. intros ch i Hch Hi.
    change (Ctx.n_all_channels (counted (Encoder.ctx enc) c)) with (Ctx.n_all_channels (Encoder.ctx enc)) in *.
    rewrite (cp_last _ _ _ _ _ _ Hcp), Hf0 by lia. replace (ch <? Ctx.n_all_channels (Encoder.ctx enc)) with true by lia.
    rewrite (silent_channel (counted (Encoder.ctx enc) c) au ch d Hun Hd Hch). pose proof (dim2_row _ _ _ ch (proj1 Hd) ltac:(lia)) as Hr2.
    assert (Hsl : zlen (slice d.[ch] 1280 256) = 256) by (apply zlen_slice; lia).
    pose proof (dim2_row _ _ _ ch Hal ltac:(lia)) as Hr1. unfold kept. rewrite at_splice by lia. rewrite Hsl.
    replace ((0 <=? i) && (i <? 0 + 256)) with true by lia. rewrite at_slice by lia. apply (proj2 Hd); lia.
  - intros d Hd Hz. by split.
Qed.
End opened.

(** * Properties *)

(** C2: [aften_encode_frame] with one thread.  A null argument, a count below 0 or
    above 1536, or samples after a short frame give -1 and change nothing; a
    drained stream gives 0 and changes nothing.  Otherwise the samples are
    converted and a frame is encoded, its status reported and the count kept;
    the return value is the size of the packed frame or, if bit allocation
    refused it, 0. *)
Theorem aften_encode_frame_single `{T : Target} `{FF : FloatFormat} {Ok : FloatOk FF} `{K : Kernels} {KOk : KernelsOk} `{LM : LibM} `{R : Residue} {ROk : ResidueOk R}
    tab buffer fmt ss m samples count :
  crc_init crc16tab_zero = Some tab → zlen buffer = 1536 → 0 ≤ fmt ≤ 7 → single_ok fmt ss → frame_memory m →
  let call := aften_encode_frame (J := frame_job tab buffer) (Some ss) (Some m) samples count in
  let src := default [] samples in
  (rejected (Session.ctx ss) samples count = true → call = Some (Some ss, Some m, -1)) ∧
  (rejected (Session.ctx ss) samples count = false → drained (Session.ctx ss) = true → call = Some (Some ss, Some m, 0)) ∧
  (rejected (Session.ctx ss) samples count = false → drained (Session.ctx ss) = false → enough fmt (Session.ctx ss) src count →
   (∀ d, loaded fmt (Session.ctx ss) src count d → signal_ok (Session.ctx ss) (Session.audio ss) d) →
   ∃ ss' m' r, call = Some (Some ss', Some m', r) ∧ encoded fmt ss src count m ss' m' r).
Proof.
  intros Htab Hbuf Hfmt Hss Hm call src. destruct (so_thread _ _ Hss) as [Hn _].
  assert (Hcall : call = if rejected (Session.ctx ss) samples count then Some (Some ss, Some m, -1) else
    '(ss', m', r) ← encode_single (J := frame_job tab buffer) src count ss m; Some (Some ss', Some m', r)).
  { unfold call, aften_encode_frame. by rewrite Hn. }
  split; [intros Hr; by rewrite Hcall, Hr|]. split.
  - intros Hr Hd. rewrite Hcall, Hr. unfold encode_single. rewrite Hd. reflexivity.
  - intros Hr Hd Hsrc Hsig. rewrite Hcall, Hr. 
    assert (Hc : 0 ≤ count ≤ 1536) by (unfold rejected, A52_SAMPLES_PER_FRAME in Hr; lia).
    pose proof (encode_single_spec tab buffer fmt Hbuf Hfmt ss src count m Htab Hss Hd Hm Hc Hsrc Hsig) as Hw.
    apply wp_some in Hw as ([[ss' m'] r] & Heq & Henc). exists ss', m', r. unfold single_job in Heq. rewrite Heq. split; [reflexivity|exact Henc].
Qed.

(** C11: Flushing ends: whatever the last call was, a call without samples encodes
    at most one more frame, and every further one returns 0 and changes
    nothing. *)
Theorem flush_ends `{T : Target} `{FF : FloatFormat} {Ok : FloatOk FF} `{K : Kernels} {KOk : KernelsOk} `{LM : LibM} `{R : Residue} {ROk : ResidueOk R}
    tab buffer fmt ss m :
  crc_init crc16tab_zero = Some tab → zlen buffer = 1536 → 0 ≤ fmt ≤ 7 → single_ok fmt ss → frame_memory m →
  (∀ d, loaded fmt (Session.ctx ss) [] 0 d → signal_ok (Session.ctx ss) (Session.audio ss) d) →
  let call ss m := aften_encode_frame (J := frame_job tab buffer) (Some ss) (Some m) None 0 in
  ∃ ss' m' r, call ss m = Some (Some ss', Some m', r) ∧ 0 ≤ r ≤ A52_MAX_CODED_FRAME_SIZE ∧
    ∀ m2, call ss' m2 = Some (Some ss', Some m2, 0).
Proof.
  intros Htab Hbuf Hfmt Hss Hm Hsig call. pose proof (so_thread _ _ Hss) as [Hn _].
  assert (Hcall : ∀ ss1 m1, Ctx.n_threads (Session.ctx ss1) = 1 →
    call ss1 m1 = ('(ss', m', r) ← encode_single (J := frame_job tab buffer) [] 0 ss1 m1; Some (Some ss', Some m', r))).
  { intros ss1 m1 H1. unfold call, aften_encode_frame. by rewrite H1. }
  assert (Hend : ∀ ss1, Ctx.n_threads (Session.ctx ss1) = 1 → drained (Session.ctx ss1) = true → ∀ m1, call ss1 m1 = Some (Some ss1, Some m1, 0)).
  { intros ss1 H1 Hd m1. rewrite (Hcall ss1 m1 H1). unfold encode_single. rewrite Hd. reflexivity. }
  destruct (drained (Session.ctx ss)) eqn:Hd.
  - exists ss, m, 0. split; [apply (Hend ss Hn Hd)|]. split; [unfold A52_MAX_CODED_FRAME_SIZE; lia|]. exact (Hend ss Hn Hd).
  - pose proof (encode_single_spec tab buffer fmt Hbuf Hfmt ss [] 0 m Htab Hss Hd Hm ltac:(lia)) as Hw. clear Htab.
    specialize (Hw ltac:(unfold enough; change (zlen (@nil Z)) with 0; lia) Hsig).
    apply wp_some in Hw as ([[ss' m'] r] & Heq & Henc). exists ss', m', r. unfold single_job in Heq. rewrite (Hcall ss m Hn), Heq. split; [reflexivity|].
    split; [exact (ec_size _ _ _ _ _ _ _ _ Henc)|]. apply Hend; rewrite (ec_count _ _ _ _ _ _ _ _ Henc); [exact Hn|reflexivity].
Qed.

(** C10: An encoder that [aften_encode_init] returns for consistent parameters is
    where the other theorems start.  Its thread contexts are created, with one
    running worker for each if there are two or more; with one thread the calls
    can begin; with more of them the session is fresh for the protocol, with
    [process_frame] as the job, for every condition on the history and the
    samples that gives headroom and that the initial history meets; without
    filters, and when the transform takes silence below full scale, silence is
    such a condition.  Its transforms are total. *)
Theorem initialised_encoder_ready `{T : Target} `{FF : FloatFormat} {Ok : FloatOk FF} `{LM : LibM} `{R : Residue} {ROk : ResidueOk R}
    s ncpus heap buffer initial :
  consistent s → heap_ok heap → zlen buffer = 1536 → initial_ok s initial → 1 ≤ ncpus → accepted s = true → ¬ bad_lfe_filter s →
  EncParams.bwcode (AftenContext.params s) ≠ -2 → (∀ c q, configured s c q → residue_readable (Ctx.fixed_bwcode c * 3 + 73)) →
  ∃ s' enc ss, aften_encode_init (Some s) ncpus heap buffer initial = Some (inr (s', enc)) ∧
    open_session s' enc = Some ss ∧ opened s' enc ss ∧ encoder_ok enc ∧ KernelsOk (H := encoder_kernels enc) ∧
    (AftenContext.n_threads s' = 1 → single_ok (AftenContext.sample_format s) ss) ∧
    (2 ≤ AftenContext.n_threads s' → ∀ (KOk : KernelsOk (H := encoder_kernels enc)) Htab Hfmt Hn room calm
      (Hr : headroom (K := encoder_kernels enc) (Encoder.ctx enc) room calm) (Hbuf : zlen buffer = 1536), room (Encoder.audio enc) →
      fresh (JOk := frame_contract (K := encoder_kernels enc) (Encoder.crc16tab enc) buffer (AftenContext.sample_format s) (Encoder.ctx enc) room calm Htab Hbuf Hfmt Hn Hr)
        ss) ∧
    (unfiltered (AftenContext.params s) → (∃ ys, silence_transformed enc = Some ys ∧ ∀ i, 0 ≤ i < 256 → within 0 ys.[i]) →
      headroom (K := encoder_kernels enc) (Encoder.ctx enc) (silent_history (Encoder.ctx enc)) (silent_frame (Encoder.ctx enc))).
Proof.
  intros Hcons Hheap Hbuf Hinit Hcpu Hacc Hlfe Hbw Hres.
  pose proof (aften_encode_init_spec s ncpus heap buffer initial Hcons Hheap Hbuf Hinit Hcpu) as Hw.
  apply wpr_cases in Hw as [[_ [Hbad|Hbad]]|([s' enc] & Heq & _ & _ & Henc & Hs' & Hconv & c & q & Hcf & Hctx)];
    [rewrite Hacc in Hbad; discriminate Hbad|contradiction|].
  pose proof (open_session_spec s' enc Henc) as Ho. apply wp_some in Ho as (ss & Hss & Ho).
  exists s', enc, ss. split; [exact Heq|]. split; [exact Hss|]. clear Heq Hss. split; [exact Ho|]. split; [exact Henc|]. split; [exact (encoder_kernels_ok enc Henc)|].
  assert (Hnt : Ctx.n_threads (Encoder.ctx enc) = AftenContext.n_threads s') by (rewrite Hctx; reflexivity).
  assert (Hpar : Ctx.params (Encoder.ctx enc) = audio_params c) by (rewrite Hctx; reflexivity).
  assert (Hbwc : EncParams.bwcode (Ctx.params (Encoder.ctx enc)) ≠ -2).
  { rewrite Hctx. simpl. unfold audio_params. simpl. rewrite (cf_params _ _ _ Hcf). exact Hbw. }
  assert (Hresc : residue_readable (Ctx.fixed_bwcode (Encoder.ctx enc) * 3 + 73)) by (rewrite Hctx; exact (Hres c q Hcf)).
  assert (Hlast : Ctx.last_samples_count (Encoder.ctx enc) = -1) by (rewrite Hctx; exact (cf_last _ _ _ Hcf)).
  split; [|split].
  - intros H1. apply (open_single s' enc); [exact Henc|exact Ho|rewrite Hnt; exact H1|exact Hconv|exact Hbwc|exact Hresc].
  - intros H2 KOk Htab Hfmt Hn room calm Hr Hbuf' Hroom.
    apply (open_fresh s' enc); [exact Henc|exact Ho|rewrite Hnt; exact H2|exact Hconv|exact Hbwc|exact Hresc|exact Hlast|exact Hroom].
  - intros Hun Hsil. apply silence_headroom; [exact Henc| |exact Hsil]. rewrite Hpar.
    destruct Hun as (U1 & U2 & U3 & U4 & U5). unfold unfiltered, audio_params. simpl. rewrite (cf_params _ _ _ Hcf), U1, U2, U3, U4, U5.
    destruct (_ <=? _), (_ <? _); repeat split.
Qed.

(** * Witnesses *)

(** The silent encoder with a converter, before its first frame. *)
Definition silent_session : Session.t := {|
  Session.ctx := counted silent_ctx (-1);
  Session.audio := silent_audio <| Audio.fmt_convert_from_src := set_converter (H := little_endian) (H0 := single_format) None A52_SAMPLE_FMT_S16 |>;
  Session.threads := [Thread.mk START silent_tctx (replicate (Z.to_nat A52_MAX_CODED_FRAME_SIZE) 0) false];
  Session.current_thread_num := 0; Session.threads_to_abort := 0; Session.threads_running := 0; Session.status := Status.mk 0 0 0 |}.

Lemma silent_session_ok : single_ok (T := little_endian) (FF := single_format) (R := trapping_residue) A52_SAMPLE_FMT_S16 silent_session.
Proof.
  split; [split|split; done|done|].
  - exact (ctx_ok_counted _ (-1) silent_ctx_ok).
  - discriminate.
  - left. vm_compute. discriminate.
  - destruct silent_audio_ok. by split.
  - reflexivity.
  - exact (tctx_ok_settings silent_ctx (counted silent_ctx (-1)) silent_tctx eq_refl eq_refl eq_refl silent_tctx_ok).
Qed.

Lemma aften_encode_frame_single_witness :
  let call := aften_encode_frame (J := frame_job (T := little_endian) (FF := single_format) (K := silent_kernels) (LM := quiet) (R := trapping_residue)
    tab_after_init (replicate 1536 zero_float)) (Some silent_session) (Some (replicate (Z.to_nat A52_MAX_CODED_FRAME_SIZE) 0)) in
  call None 3 = Some (Some silent_session, Some (replicate (Z.to_nat A52_MAX_CODED_FRAME_SIZE) 0), -1) ∧
  ∃ ss' m' r, call (Some [1; 0; 2; 0; 3; 0; 4; 0]) 2 = Some (Some ss', Some m', r) ∧ Ctx.last_samples_count (Session.ctx ss') = 2.
Proof.
  assert (Htab : crc_init crc16tab_zero = Some tab_after_init) by (vm_compute; reflexivity).
  pose proof (λ smp n, aften_encode_frame_single (T := little_endian) (FF := single_format) (K := silent_kernels) (KOk := silent_kernels_ok) (LM := quiet)
    (R := trapping_residue) tab_after_init (replicate 1536 zero_float) A52_SAMPLE_FMT_S16 silent_session (replicate (Z.to_nat A52_MAX_CODED_FRAME_SIZE) 0) smp n
    Htab eq_refl ltac:(split; discriminate) silent_session_ok silent_buffer) as Hcall.
  clear Htab. intros call. split.
  - destruct (Hcall None 3) as [Hr _]. apply Hr. reflexivity.
  - destruct (Hcall (Some [1; 0; 2; 0; 3; 0; 4; 0]) 2) as (_ & _ & Henc).
    destruct (Henc eq_refl eq_refl) as (ss' & m' & r & Heq & Hok).
    + vm_compute. discriminate.
    + intros d _. exact (signal_ok_counted _ (-1) _ d (silent_signal _ d)).
    + exists ss', m', r. split; [exact Heq|]. rewrite (ec_count _ _ _ _ _ _ _ _ Hok). reflexivity.
Defined.

Lemma flush_ends_witness :
  ∃ ss' m' r, aften_encode_frame (J := frame_job (T := little_endian) (FF := single_format) (K := silent_kernels) (LM := quiet) (R := trapping_residue)
    tab_after_init (replicate 1536 zero_float)) (Some silent_session) (Some (replicate (Z.to_nat A52_MAX_CODED_FRAME_SIZE) 0)) None 0 = Some (Some ss', Some m', r).
Proof.
  destruct (flush_ends (T := little_endian) (FF := single_format) (K := silent_kernels) (KOk := silent_kernels_ok) (LM := quiet)
    (R := trapping_residue) tab_after_init (replicate 1536 zero_float) A52_SAMPLE_FMT_S16 silent_session (replicate (Z.to_nat A52_MAX_CODED_FRAME_SIZE) 0))
    as (ss' & m' & r & Heq & _).
  - vm_compute. reflexivity.
  - reflexivity.
  - split; discriminate.
  - exact silent_session_ok.
  - exact silent_buffer.
  - intros d _. exact (signal_ok_counted _ (-1) _ d (silent_signal _ d)).
  - exists ss', m', r. exact Heq.
Defined.

(** The defaults for stereo on two threads, with the functions of [still]:
    silence has headroom, and the session is fresh for it. *)
Definition two_thread_settings : AftenContext.t := (defaults_with 2 2 0 48000) <| AftenContext.n_threads := 2 |>.

Definition is_silent (x : FLOAT) : bool := match x with S754_zero false => true | _ => false end.
Definition is_zero (x : FLOAT) : bool := match x with S754_zero _ => true | _ => false end.
Definition silent_encoder (enc : Encoder.t) : bool :=
  match silence_transformed (FF := single_format) enc with Some ys => (zlen ys =? 256) && forallb is_zero ys | None => false end &&
  forallb (forallb is_silent) (Audio.last_samples (Encoder.audio enc)).

Lemma silent_encoder_ok enc :
  encoder_ok (H := single_format) enc → silent_encoder enc = true →
  (∃ ys, silence_transformed (FF := single_format) enc = Some ys ∧ ∀ i, 0 ≤ i < 256 → within (F := single_format) 0 ys.[i]) ∧
  silent_history (Encoder.ctx enc) (Encoder.audio enc).
Proof.
  intros Henc Hs. apply andb_prop in Hs as [Ht Hl]. split.
  - destruct (silence_transformed enc) as [ys|]; [|discriminate Ht]. apply andb_prop in Ht as [Hly Hz]. exists ys. split; [done|].
    intros i Hi. pose proof (forallb_at is_zero ys i Hz ltac:(lia)) as Hy. by destruct ys.[i].
  - pose proof (au_last _ _ (en_audio _ Henc)) as Hd. pose proof (n_range _ (en_ctx _ Henc)) as Hn. split; [exact Hd|]. intros ch i Hch Hi.
    pose proof (forallb_at _ _ ch Hl ltac:(rewrite (proj1 Hd); lia)) as Hrow. pose proof (dim2_row _ _ _ ch Hd ltac:(lia)) as Hr.
    pose proof (forallb_at is_silent _ i Hrow ltac:(lia)) as Hx. by destruct (Audio.last_samples (Encoder.audio enc)).[ch].[i] as [[]| | |].
Qed.

Lemma initialised_encoder_ready_witness :
  ∃ s' enc ss Htab Hbuf Hfmt Hn Hr KOk, aften_encode_init (T := little_endian) (FF := single_format) (LM := still) (Some two_thread_settings) 1 example_heap
      (replicate 1536 zero_float) None = Some (inr (s', enc)) ∧ open_session s' enc = Some ss ∧ AftenContext.n_threads s' = 2 ∧
    fresh (JOk := frame_contract (T := little_endian) (FF := single_format) (LM := still) (K := encoder_kernels (FF := single_format) enc) (KOk := KOk) (R := trapping_residue)
      (Encoder.crc16tab enc) (replicate 1536 zero_float) A52_SAMPLE_FMT_S16 (Encoder.ctx enc)
      (silent_history (Encoder.ctx enc)) (silent_frame (Encoder.ctx enc)) Htab Hbuf Hfmt Hn Hr) ss.
Proof.
  destruct (initialised_encoder_ready (T := little_endian) (FF := single_format) (LM := still) (R := trapping_residue) two_thread_settings 1 example_heap
    (replicate 1536 zero_float) None ltac:(destruct example_consistent as [H1 H2 H3]; split; assumption) example_heap_ok eq_refl I ltac:(lia))
    as (s' & enc & ss & Heq & Hss & _ & Henc & HKOk & _ & Hfresh & Hhead).
  - vm_compute. reflexivity.
  - intros [Hu _]. apply Hu. reflexivity.
  - discriminate.
  - intros c q Hcf. left. rewrite (cf_bwcode _ _ _ Hcf). pose proof (cf_quality _ _ _ Hcf) as Hq.
    unfold initial_quality in Hq. rewrite (cf_params _ _ _ Hcf) in Hq. destruct (cf_channels _ _ _ Hcf) as (_ & Hn & _). rewrite Hn in Hq.
    destruct (cf_rate _ _ _ Hcf) as (_ & Hh & _). rewrite Hh in Hq. destruct (cf_bitrate _ _ _ Hcf) as (_ & _ & _ & _ & Hb). rewrite (Hb eq_refl) in Hq.
    vm_compute in Hq. injection Hq as <-. vm_compute. discriminate.
  - assert (Hc : match aften_encode_init (T := little_endian) (FF := single_format) (LM := still) (Some two_thread_settings) 1 example_heap (replicate 1536 zero_float) None with
      | Some (inr (s1, enc1)) => (AftenContext.n_threads s1 =? 2) && silent_encoder enc1 | _ => false end = true) by (vm_compute; reflexivity).
    rewrite Heq in Hc. apply andb_prop in Hc as [Hn2 Hsil]. destruct (silent_encoder_ok enc Henc Hsil) as [Htr Hroom].
    pose proof (Hhead ltac:(repeat split) Htr) as Hr. assert (Hbuf : zlen (replicate 1536 zero_float) = 1536) by reflexivity.
    assert (Hfmt : 0 ≤ A52_SAMPLE_FMT_S16 ≤ 7) by (split; discriminate).
    assert (Hn : 0 ≤ Ctx.n_all_channels (Encoder.ctx enc) ≤ 6) by (pose proof (n_range _ (en_ctx _ Henc)); lia).
    exists s', enc, ss, (Build_table_ok _ (en_tab _ Henc)), Hbuf, Hfmt, Hn, Hr, HKOk. split; [exact Heq|]. split; [exact Hss|]. split; [lia|].
    exact (Hfresh ltac:(lia) HKOk _ Hfmt Hn _ _ Hr Hbuf Hroom).
Defined.
