(* ===== verification/ByteIO.v ===== *)
(** [pcm/byteio.c]: buffered input.  A [FILE] is the content of the file, or
    all that will ever come out of a pipe, with the position in it; [fread]
    returns less than it is asked for only at the end.  The theorem
    is that reads and peeks, through the buffer, see the file as a stream of
    bytes, whatever their sizes. *)
From Stdlib Require Import ZArith Lia ZifyBool Bool.
From stdpp Require Import base option list numbers.
From coqutil Require Import Datatypes.RecordSettersUsingExistingGetters.
From S2P Require Import Prelude CMachine.
Local Open Scope Z_scope.
Local Open Scope carray_scope.

(** * The streams of [stdio.h] *)

Module FILE.
Record t := mk {
  content : list Z;
  position : Z;
  can_seek : bool
}.
End FILE.

Definition SEEK_SET : Z := 0.
Definition SEEK_CUR : Z := 1.
Definition SEEK_END : Z := 2.

(** [fread(ptr, 1, n, fp)]: the bytes read. *)
Definition fread (n : Z) (fp : FILE.t) : list Z * FILE.t :=
  let got := slice (FILE.content fp) (FILE.position fp) n in
  (got, fp <| FILE.position := FILE.position fp + zlen got |>).

(** [fseek]: [None] when it fails; a position behind the end is possible. *)
Definition fseek (fp : FILE.t) (offset whence : Z) : option FILE.t :=
  let pos := offset + (if whence =? SEEK_SET then 0
    else if whence =? SEEK_CUR then FILE.position fp else zlen (FILE.content fp)) in
  if FILE.can_seek fp && (0 <=? pos) then Some (fp <| FILE.position := pos |>) else None.

(** Bytes of an object that are copied out of it. *)
Definition copy_out {A} (l : list A) (s n : Z) : option (list A) :=
  if (0 <=? s) && (0 <=? n) && (s + n <=? zlen l) then Some (slice l s n) else None.

(** * The buffer *)

Definition BYTEIO_BUFFER_SIZE : Z := 16384.

Module ByteIOContext.
Record t := mk {
  fp : FILE.t;
  buffer : list Z;
  index : Z;
  size : Z
}.
End ByteIOContext.

Section byteio.
Import ByteIOContext.

Definition byteio_flush (ctx : ByteIOContext.t) : ByteIOContext.t :=
  let '(got, fp') := fread BYTEIO_BUFFER_SIZE (fp ctx) in
  ctx <| fp := fp' |> <| buffer := splice (buffer ctx) 0 got |> <| index := 0 |> <| size := zlen got |>.

Definition byteio_init (file : FILE.t) : ByteIOContext.t :=
  byteio_flush (mk file (replicate (Z.to_nat BYTEIO_BUFFER_SIZE) 0) 0 0).

Definition byteio_align (ctx : ByteIOContext.t) : option ByteIOContext.t :=
  b ← memcpy (buffer ctx) 0 (buffer ctx) (index ctx) (size ctx);
  let '(got, fp') := fread (BYTEIO_BUFFER_SIZE - size ctx) (fp ctx) in
  b ← memcpy b (size ctx) got 0 (zlen got);
  Some (ctx <| fp := fp' |> <| buffer := b |> <| index := 0 |> <| size := size ctx + zlen got |>).

(** The loop of [byteio_read]: what is left to read, and what has been. *)
Fixpoint read_buffers (fuel : nat) (n : Z) (out : list Z) (ctx : ByteIOContext.t) : option (Z * list Z * ByteIOContext.t) :=
  if n >? size ctx then
    match fuel with
    | O => None
    | S fuel =>
        b ← copy_out (buffer ctx) (index ctx) (size ctx);
        let out := out ++ b in
        let n := n - size ctx in
        let ctx := byteio_flush ctx in
        if size ctx =? 0 then Some (n, out, ctx) else read_buffers fuel n out ctx
    end
  else Some (n, out, ctx).

(** The bytes stored at [ptr]; their number is the value the C function
    returns.  Each turn of the loop but the first moves a byte at least. *)
Definition byteio_read (n : Z) (ctx : ByteIOContext.t) : option (list Z * ByteIOContext.t) :=
  '(n, out, ctx) ← read_buffers (S (Z.to_nat n)) n [] ctx;
  if (size ctx >=? n) && (n >? 0) then
    b ← copy_out (buffer ctx) (index ctx) n;
    Some (out ++ b, ctx <| size := size ctx - n |> <| index := index ctx + n |>)
  else Some (out, ctx).

Definition byteio_peek (n : Z) (ctx : ByteIOContext.t) : option (list Z * ByteIOContext.t) :=
  ctx ← (if n >? size ctx then byteio_align ctx else Some ctx);
  let nr := MIN n (size ctx) in
  b ← copy_out (buffer ctx) (index ctx) nr;
  Some (b, ctx).

(** A closed context, with [fp] and [buffer] gone, is [None]. *)
Definition byteio_close (ctx : option ByteIOContext.t) : option ByteIOContext.t := None.
End byteio.

(** * What the buffer stands for *)

(** The bytes still to be read. *)
Definition stream (ctx : ByteIOContext.t) : list Z :=
  slice (ByteIOContext.buffer ctx) (ByteIOContext.index ctx) (ByteIOContext.size ctx) ++
  drop (Z.to_nat (FILE.position (ByteIOContext.fp ctx))) (FILE.content (ByteIOContext.fp ctx)).

Record io_ok (ctx : ByteIOContext.t) : Prop := {
  io_buffer : zlen (ByteIOContext.buffer ctx) = BYTEIO_BUFFER_SIZE;
  io_index : 0 ≤ ByteIOContext.index ctx;
  io_size : 0 ≤ ByteIOContext.size ctx;
  io_window : ByteIOContext.index ctx + ByteIOContext.size ctx ≤ BYTEIO_BUFFER_SIZE;
  io_pos : 0 ≤ FILE.position (ByteIOContext.fp ctx)
}.

(** The same file, read from the same descriptor. *)
Definition same_file (ctx ctx' : ByteIOContext.t) : Prop :=
  FILE.content (ByteIOContext.fp ctx') = FILE.content (ByteIOContext.fp ctx) ∧
  FILE.can_seek (ByteIOContext.fp ctx') = FILE.can_seek (ByteIOContext.fp ctx).

(** Where the next byte to be read is in the file. *)
Definition offset (ctx : ByteIOContext.t) : Z := FILE.position (ByteIOContext.fp ctx) - ByteIOContext.size ctx.
#[global] Arguments byteio_flush : simpl never.

Lemma buffer_size_pos : 0 < BYTEIO_BUFFER_SIZE.
Proof. done. Qed.

Lemma wp_copy_out {A} (l : list A) s n Q :
  0 ≤ s → 0 ≤ n → s + n ≤ zlen l → Q (slice l s n) → wp (copy_out l s n) Q.
Proof. intros. unfold copy_out. by replace ((0 <=? s) && (0 <=? n) && (s + n <=? zlen l)) with true by lia. Qed.

Lemma zlen_slice_le {A} (l : list A) s n : 0 ≤ n → zlen (slice l s n) ≤ n.
Proof. unfold slice, zlen. rewrite length_take. lia. Qed.

Lemma slice_take {A} (l : list A) s n m : 0 ≤ m ≤ n → take (Z.to_nat m) (slice l s n) = slice l s m.
Proof. intros. unfold slice. rewrite take_take. f_equal. lia. Qed.

Lemma slice_drop {A} (l : list A) s n m :
  0 ≤ s → 0 ≤ m ≤ n → drop (Z.to_nat m) (slice l s n) = slice l (s + m) (n - m).
Proof.
  intros. unfold slice. rewrite skipn_firstn_comm, drop_drop. f_equal; [lia|f_equal; lia].
Qed.

(** Reading a part of a file and then the rest of it. *)
Lemma slice_rest {A} (l : list A) p n :
  0 ≤ p → 0 ≤ n → slice l p n ++ drop (Z.to_nat (p + zlen (slice l p n))) l = drop (Z.to_nat p) l.
Proof.
  intros Hp Hn. unfold slice, zlen. rewrite length_take, length_drop.
  rewrite <- (take_drop (Z.to_nat n) (drop (Z.to_nat p) l)) at 2. f_equal. rewrite drop_drop.
  destruct (decide (Z.to_nat n ≤ length l - Z.to_nat p)%nat).
  - f_equal. lia.
  - rewrite !drop_ge by lia. done.
Qed.

Lemma splice_front {A} (l k : list A) : zlen k ≤ zlen l → slice (splice l 0 k) 0 (zlen k) = k.
Proof.
  intros. unfold splice, slice, zlen in *. simpl. rewrite drop_0. rewrite Nat2Z.id. apply take_app_length.
Qed.

Lemma slice_none {A} (l : list A) p n : 0 < n → zlen (slice l p n) = 0 → drop (Z.to_nat p) l = [].
Proof. unfold slice, zlen. rewrite length_take, length_drop. intros. apply drop_ge. lia. Qed.

Lemma byteio_flush_eq b i s c p k :
  let got := slice c p BYTEIO_BUFFER_SIZE in
  byteio_flush (ByteIOContext.mk (FILE.mk c p k) b i s) =
  ByteIOContext.mk (FILE.mk c (p + zlen got) k) (splice b 0 got) 0 (zlen got).
Proof. done. Qed.

Lemma flush_spec ctx :
  zlen (ByteIOContext.buffer ctx) = BYTEIO_BUFFER_SIZE → 0 ≤ FILE.position (ByteIOContext.fp ctx) →
  io_ok (byteio_flush ctx) ∧ same_file ctx (byteio_flush ctx) ∧ offset (byteio_flush ctx) = FILE.position (ByteIOContext.fp ctx) ∧
  stream (byteio_flush ctx) = drop (Z.to_nat (FILE.position (ByteIOContext.fp ctx))) (FILE.content (ByteIOContext.fp ctx)) ∧
  (ByteIOContext.size (byteio_flush ctx) = 0 → stream (byteio_flush ctx) = []).
Proof.
  destruct ctx as [[c p k] b i s]. rewrite byteio_flush_eq.
  pose proof (zlen_slice_le c p BYTEIO_BUFFER_SIZE (Z.lt_le_incl _ _ buffer_size_pos)) as Hg.
  assert (Hs : 0 ≤ p → _) by (intros; apply (slice_rest c p BYTEIO_BUFFER_SIZE); [done|apply Z.lt_le_incl, buffer_size_pos]).
  pose proof (slice_none c p BYTEIO_BUFFER_SIZE buffer_size_pos) as H0.
  generalize dependent (slice c p BYTEIO_BUFFER_SIZE). intros got Hg Hs H0. unfold offset, stream, same_file. simpl. intros Hb Hp.
  pose proof (zlen_nonneg got). rewrite splice_front, Hs by lia.
  split_and!; try done; try lia; auto.
  split; simpl; try lia. rewrite zlen_splice by lia. done.
Qed.

Lemma zlen_stream ctx : io_ok ctx → ByteIOContext.size ctx ≤ zlen (stream ctx).
Proof.
  intros []. unfold stream. rewrite zlen_app, zlen_slice by lia. pose proof (zlen_nonneg
    (drop (Z.to_nat (FILE.position (ByteIOContext.fp ctx))) (FILE.content (ByteIOContext.fp ctx)))). lia.
Qed.

Lemma take_stream ctx m :
  io_ok ctx → 0 ≤ m ≤ ByteIOContext.size ctx →
  take (Z.to_nat m) (stream ctx) = slice (ByteIOContext.buffer ctx) (ByteIOContext.index ctx) m.
Proof.
  intros [] Hm. unfold stream. rewrite take_app_le.
  - by rewrite slice_take.
  - pose proof (zlen_slice (ByteIOContext.buffer ctx) (ByteIOContext.index ctx) (ByteIOContext.size ctx)). unfold zlen in *. lia.
Qed.

Lemma drop_stream ctx m :
  io_ok ctx → 0 ≤ m ≤ ByteIOContext.size ctx →
  drop (Z.to_nat m) (stream ctx) = slice (ByteIOContext.buffer ctx) (ByteIOContext.index ctx + m) (ByteIOContext.size ctx - m) ++
    drop (Z.to_nat (FILE.position (ByteIOContext.fp ctx))) (FILE.content (ByteIOContext.fp ctx)).
Proof.
  intros [] Hm. unfold stream. rewrite drop_app_le.
  - by rewrite slice_drop.
  - pose proof (zlen_slice (ByteIOContext.buffer ctx) (ByteIOContext.index ctx) (ByteIOContext.size ctx)). unfold zlen in *. lia.
Qed.

(** The loop takes whole buffers until the rest of the request is in the
    buffer, or the file has ended. *)
Lemma read_buffers_spec fuel n out ctx :
  io_ok ctx → (Z.to_nat n < fuel)%nat ∨ (Z.to_nat n < S fuel)%nat ∧ 0 < ByteIOContext.size ctx → 0 ≤ n →
  wp (read_buffers fuel n out ctx) (λ '(m, out', ctx'),
    io_ok ctx' ∧ same_file ctx ctx' ∧ 0 ≤ m ≤ n ∧ out' = out ++ take (Z.to_nat (n - m)) (stream ctx) ∧
    stream ctx' = drop (Z.to_nat (n - m)) (stream ctx) ∧ offset ctx' - offset ctx = zlen out' - zlen out ∧
    (m ≤ ByteIOContext.size ctx' ∨ stream ctx' = [] ∧ ByteIOContext.size ctx' = 0)).
Proof.
  revert n out ctx. induction fuel as [|fuel IH]; intros n out ctx Hok Hf Hn; cbn [read_buffers].
  { destruct Hf as [Hf|[Hf Hs]]; [lia|]. replace (n >? ByteIOContext.size ctx) with false by lia. cbn [wp].
    split_and!; try done; try lia; rewrite Z.sub_diag; [by rewrite take_0, app_nil_r|done]. }
  destruct (Z.gtb_spec n (ByteIOContext.size ctx)) as [Hgt|Hle].
  2:{ split_and!; try done; try lia; rewrite Z.sub_diag; [by rewrite take_0, app_nil_r|done]. }
  pose proof Hok as [Hb Hi Hsz Hw Hp]. apply wp_bind, wp_copy_out; [lia|lia|lia|]. cbv zeta.
  set (s := ByteIOContext.size ctx) in *. set (b := slice (ByteIOContext.buffer ctx) (ByteIOContext.index ctx) s).
  assert (Hlb : zlen b = s) by (apply zlen_slice; lia).
  destruct (flush_spec ctx Hb Hp) as (Hok' & Hsame & Hoff & Hstr & Hend).
  set (ctx1 := byteio_flush ctx) in *.
  assert (Hb1 : b = take (Z.to_nat s) (stream ctx)) by (symmetry; apply take_stream; [done|lia]).
  assert (Hs1 : stream ctx1 = drop (Z.to_nat s) (stream ctx)).
  { rewrite drop_stream by (done || (subst s; lia)). rewrite Hstr. subst s. by rewrite Z.sub_diag, slice_0. }
  assert (Ho1 : offset ctx1 = offset ctx + s) by (unfold offset in *; subst s; lia).
  destruct (Z.eqb_spec (ByteIOContext.size ctx1) 0) as [H0|H0].
  - cbn [wp]. split_and!; try done; try lia.
    + f_equal. rewrite Hb1. f_equal. lia.
    + rewrite Hs1. f_equal. lia.
    + rewrite zlen_app. lia.
    + right. split; [by apply Hend|done].
  - eapply wp_mono; [apply IH; [done| |lia]|].
    { right. split; [lia|]. destruct Hok'. lia. }
    intros [[m out'] ctx'] (Hok2 & Hsame2 & Hm & -> & Hstr2 & Hoff2 & Hfin). destruct Hsame, Hsame2.
    split_and!; try done; try lia.
    + rewrite <- app_assoc. f_equal. rewrite Hb1, Hs1. rewrite <- (take_drop (Z.to_nat s) (take (Z.to_nat (n - m)) (stream ctx))).
      rewrite take_take. f_equal; [f_equal; lia|]. rewrite skipn_firstn_comm. f_equal. lia.
    + rewrite Hstr2, Hs1, drop_drop. f_equal. lia.
    + rewrite !zlen_app in *. lia.
Qed.

Lemma byteio_read_spec n ctx :
  io_ok ctx → 0 ≤ n →
  wp (byteio_read n ctx) (λ '(out, ctx'), io_ok ctx' ∧ same_file ctx ctx' ∧ offset ctx' = offset ctx + zlen out ∧
    out = take (Z.to_nat n) (stream ctx) ∧ stream ctx' = drop (Z.to_nat n) (stream ctx)).
Proof.
  intros Hok Hn. unfold byteio_read. apply wp_bind. eapply wp_mono; [apply read_buffers_spec; [done|lia|done]|].
  intros [[m out] ctx'] (Hok' & Hsame & Hm & -> & Hstr & Hoff & Hfin). simpl app in *. rewrite zlen_nil, Z.sub_0_r in Hoff.
  set (a := Z.to_nat (n - m)) in *.
  assert (Hcut : take (Z.to_nat n) (stream ctx) = take a (stream ctx) ++ take (Z.to_nat m) (stream ctx')).
  { rewrite Hstr. rewrite <- (take_drop a (take (Z.to_nat n) (stream ctx))). rewrite take_take, skipn_firstn_comm.
    f_equal; f_equal; subst a; lia. }
  assert (Hrest : drop (Z.to_nat n) (stream ctx) = drop (Z.to_nat m) (stream ctx'))
    by (rewrite Hstr, drop_drop; f_equal; subst a; lia).
  apply wp_if; intros Hc.
  - pose proof Hok' as [Hb Hi Hs Hw Hp]. apply wp_bind, wp_copy_out; [lia|lia|lia|]. simpl.
    rewrite Hcut, Hrest, take_stream, drop_stream by (done || lia).
    split_and!; try done.
    + split; simpl; lia.
    + unfold offset in *. simpl. rewrite zlen_app, zlen_slice by lia. lia.
  - simpl. destruct (decide (m = 0)) as [->|Hm0].
    + rewrite Hcut, Hrest, take_0, drop_0, app_nil_r. split_and!; try done; lia.
    + destruct Hfin as [|[Hnil _]]; [lia|]. rewrite Hcut, Hrest, Hnil, take_nil, drop_nil, app_nil_r. split_and!; try done; lia.
Qed.

Lemma align_spec ctx :
  io_ok ctx →
  wp (byteio_align ctx) (λ ctx', io_ok ctx' ∧ same_file ctx ctx' ∧ offset ctx' = offset ctx ∧ stream ctx' = stream ctx ∧
    ByteIOContext.size ctx' = Z.min BYTEIO_BUFFER_SIZE (zlen (stream ctx))).
Proof.
  intros [Hb Hi Hs Hw Hp]. destruct ctx as [[c p k] b i s]. simpl in *. unfold byteio_align, fread. simpl.
  rewrite memcpy_in by lia. simpl. set (got := slice c p (BYTEIO_BUFFER_SIZE - s)).
  assert (Hg : zlen got ≤ BYTEIO_BUFFER_SIZE - s) by (apply zlen_slice_le; lia).
  pose proof (zlen_nonneg got). set (w := slice b i s). assert (Hlw : zlen w = s) by (apply zlen_slice; lia).
  set (b1 := splice b 0 w). assert (Hb1 : zlen b1 = BYTEIO_BUFFER_SIZE) by (unfold b1; rewrite zlen_splice; lia).
  rewrite memcpy_in by lia. simpl. rewrite slice_all.
  assert (Hrest : got ++ drop (Z.to_nat (p + zlen got)) c = drop (Z.to_nat p) c) by (apply slice_rest; lia).
  assert (Hstr : slice (splice b1 s got) 0 (s + zlen got) = w ++ got).
  { unfold slice. rewrite drop_0. rewrite take_splice by lia. f_equal. pose proof (splice_front b w ltac:(lia)) as Hf.
    unfold slice in Hf. rewrite drop_0, Hlw in Hf. exact Hf. }
  unfold stream, same_file, offset. simpl. rewrite Hstr. split_and!; try done; try lia.
  - split; simpl; try lia. rewrite zlen_splice by lia. done.
  - rewrite <- app_assoc, Hrest. done.
  - fold w. rewrite zlen_app, Hlw. unfold got, slice, zlen. rewrite length_take, length_drop. lia.
Qed.

Lemma byteio_peek_spec n ctx :
  io_ok ctx → 0 ≤ n →
  wp (byteio_peek n ctx) (λ '(out, ctx'), io_ok ctx' ∧ same_file ctx ctx' ∧ offset ctx' = offset ctx ∧
    out = take (Z.to_nat (Z.min n BYTEIO_BUFFER_SIZE)) (stream ctx) ∧ stream ctx' = stream ctx).
Proof.
  intros Hok Hn. unfold byteio_peek. apply wp_bind.
  apply (wp_mono _ (λ ctx', io_ok ctx' ∧ same_file ctx ctx' ∧ offset ctx' = offset ctx ∧ stream ctx' = stream ctx ∧
    (n ≤ ByteIOContext.size ctx' ∨ ByteIOContext.size ctx' = Z.min BYTEIO_BUFFER_SIZE (zlen (stream ctx))))).
  { apply wp_if; intros Hc.
    - eapply wp_mono; [by apply align_spec|]. intros ctx' (? & ? & ? & ? & ?). auto 6.
    - simpl. split_and!; try done. lia. }
  intros ctx' (Hok' & Hsame & Hoff & Hstr & Hsz). pose proof Hok' as [Hb Hi Hs Hw Hp]. rewrite MIN_min.
  apply wp_bind, wp_copy_out; [lia|lia|lia|]. simpl. split_and!; try done.
  rewrite <- take_stream, Hstr by (done || lia). pose proof (zlen_stream ctx' Hok') as Hle. rewrite Hstr in Hle.
  destruct (decide (n ≤ ByteIOContext.size ctx')).
  - f_equal. lia.
  - destruct Hsz as [|Hsz]; [lia|]. destruct (decide (BYTEIO_BUFFER_SIZE ≤ zlen (stream ctx))).
    + f_equal. lia.
    + rewrite !take_ge; [done|unfold zlen in *; lia|unfold zlen in *; lia].
Qed.

Lemma byteio_init_spec file :
  0 ≤ FILE.position file →
  let ctx := byteio_init file in
  io_ok ctx ∧ stream ctx = drop (Z.to_nat (FILE.position file)) (FILE.content file) ∧ offset ctx = FILE.position file ∧
  FILE.content (ByteIOContext.fp ctx) = FILE.content file ∧ FILE.can_seek (ByteIOContext.fp ctx) = FILE.can_seek file.
Proof.
  intros Hp. unfold byteio_init. set (c0 := ByteIOContext.mk _ _ _ _).
  destruct (flush_spec c0 eq_refl Hp) as (? & [] & ? & ? & _). done.
Qed.

(** * Sequences of reads and peeks *)

Inductive access := Read (n : Z) | Peek (n : Z).
Definition access_ok (a : access) : Prop := match a with Read n | Peek n => 0 ≤ n end.

Fixpoint run_buffered (accs : list access) (ctx : ByteIOContext.t) : option (list (list Z)) :=
  match accs with
  | [] => Some []
  | a :: accs =>
      '(out, ctx) ← match a with Read n => byteio_read n ctx | Peek n => byteio_peek n ctx end;
      outs ← run_buffered accs ctx;
      Some (out :: outs)
  end.

(** The same on the bytes themselves; a peek sees one buffer at most. *)
Fixpoint run_stream (accs : list access) (bytes : list Z) : list (list Z) :=
  match accs with
  | [] => []
  | Read n :: accs => take (Z.to_nat n) bytes :: run_stream accs (drop (Z.to_nat n) bytes)
  | Peek n :: accs => take (Z.to_nat (Z.min n BYTEIO_BUFFER_SIZE)) bytes :: run_stream accs bytes
  end.

Lemma run_buffered_spec accs ctx :
  io_ok ctx → Forall access_ok accs → run_buffered accs ctx = Some (run_stream accs (stream ctx)).
Proof.
  revert ctx. induction accs as [|a accs IH]; intros ctx Hok Hf; [done|]. apply Forall_cons_1 in Hf as [Ha Hf]. simpl run_buffered.
  destruct a as [n|n]; simpl in Ha.
  - pose proof (byteio_read_spec n ctx Hok Ha) as Hr. apply wp_some in Hr as ([out ctx'] & Hrun & Hok' & _ & _ & -> & Hs).
    rewrite Hrun. simpl. by rewrite IH, Hs.
  - pose proof (byteio_peek_spec n ctx Hok Ha) as Hr. apply wp_some in Hr as ([out ctx'] & Hrun & Hok' & _ & _ & -> & Hs).
    rewrite Hrun. simpl. by rewrite IH, Hs.
Qed.

(** C23: Every sequence of reads and peeks of any sizes through the
    buffer ends and returns what the same sequence returns on the bytes of the
    file from its position on: a read the next bytes, as many as there are, a
    peek the same bytes again, up to the size of the buffer. *)
Theorem buffered_reads_are_the_stream file accs :
  0 ≤ FILE.position file → Forall access_ok accs →
  run_buffered accs (byteio_init file) =
  Some (run_stream accs (drop (Z.to_nat (FILE.position file)) (FILE.content file))).
Proof.
  intros Hp Hf. destruct (byteio_init_spec file Hp) as (Hok & <- & _). by apply run_buffered_spec.
Qed.

(** Peeks before and after a read, and one at the end of the file. *)
Lemma buffered_reads_are_the_stream_witness :
  let file := FILE.mk [1; 2; 3; 4; 5] 1 false in
  let accs := [Peek 2; Read 3; Peek 20000; Read 7; Read 1] in
  run_buffered accs (byteio_init file) = Some (run_stream accs (drop (Z.to_nat (FILE.position file)) (FILE.content file))) ∧
  run_stream accs (drop (Z.to_nat (FILE.position file)) (FILE.content file)) = [[2; 3]; [2; 3; 4]; [5]; [5]; []].
Proof.
  split; [|by vm_compute]. apply buffered_reads_are_the_stream; [simpl; lia|repeat constructor; simpl; lia].
Defined.
