(* ===== verification/PcmConvert.v ===== *)
(** [pcm/pcm_convert.c]: conversion between all pairs of sample formats of the
    PCM library, on the bytes of the two arrays.  The theorem is that
    converting to a format that is wide enough and back is the identity; what
    a conversion does to the value of a sample is stated on the way.  A left
    shift of a negative number, which the C standard leaves open, is taken as
    a multiplication. *)
From Stdlib Require Import ZArith Lia ZifyBool Bool.
From stdpp Require Import base option list numbers.
From S2P Require Import Prelude CMachine Float FloatExact Convert.
Local Open Scope Z_scope.
Local Open Scope carray_scope.

(** * [float] and [double] *)

(** The bits of a number of the format with [mw] significand bits and [ew]
    exponent bits; the inverse of [ieee_decode] where it is a number. *)
Definition ieee_encode (mw ew : Z) (x : spec_float) : Z :=
  let sign (s : bool) := if s then 2 ^ (mw + ew) else 0 in
  match x with
  | S754_zero s => sign s
  | S754_infinity s => sign s + (2 ^ ew - 1) * 2 ^ mw
  | S754_nan => (2 ^ ew - 1) * 2 ^ mw + 2 ^ (mw - 1)
  | S754_finite s m e =>
      sign s + (if Zpos m <? 2 ^ mw then Zpos m else (e + (2 ^ (ew - 1) - 1) + mw) * 2 ^ mw + (Zpos m - 2 ^ mw))
  end.

Definition decode_float : Z → spec_float := ieee_decode 23 8.
Definition decode_double : Z → spec_float := ieee_decode 52 11.
Definition encode_float : spec_float → Z := ieee_encode 23 8.
Definition encode_double : spec_float → Z := ieee_encode 52 11.

(** The arithmetic of the two types. *)
Definition fl_of_int (F : FloatFormat) : Z → spec_float := @F_of_Z F.
Definition fl_add (F : FloatFormat) : spec_float → spec_float → spec_float := @F_add F.
Definition fl_sub (F : FloatFormat) : spec_float → spec_float → spec_float := @F_sub F.
Definition fl_mul (F : FloatFormat) : spec_float → spec_float → spec_float := @F_mul F.
Definition fl_div (F : FloatFormat) : spec_float → spec_float → spec_float := @F_div F.
(** [CLIP(x, min, max)] with integer bounds, which are converted. *)
Definition fl_clip (F : FloatFormat) (x : spec_float) (min max : Z) : spec_float :=
  F_CLIP x (fl_of_int F min) (fl_of_int F max).

(** The bits of a NaN after a conversion between the two types, from those
    before it: the processor's choice. *)
Class NanBits := { nan_to_float : Z → Z; nan_to_double : Z → Z }.

Definition is_nan (x : spec_float) : bool := match x with S754_nan => true | _ => false end.

(** Samples in memory: [w] bytes each, in the host's order. *)
Definition words `{Target} (w : Z) (vs : list Z) : list Z := concat (map (host_bytes w) vs).

Section convert.
Context `{Target} `{NanBits}.

Definition store (w : Z) (m : list Z) (j v : Z) : option (list Z) :=
  if (0 <=? j) && ((j + 1) * w <=? zlen m) then Some (splice m (j * w) (host_bytes w v)) else None.

Definition float_to_double (v : Z) : Z :=
  let x := decode_float v in
  if is_nan x then nan_to_double v else encode_double (@F_round double_format x).
Definition double_to_float (v : Z) : Z :=
  let x := decode_double v in
  if is_nan x then nan_to_float v else encode_float (@F_round single_format x).

Definition fmt_converter : Type := list Z → list Z → Z → option (list Z).

(** [for (i = 0; i < n; i++) dest[i] = f(src[i])], with elements of [ws] and [wd]
    bytes; what is stored is reduced to the element's width. *)
Definition element_loop (ws wd : Z) (f : Z → option Z) : fmt_converter := λ dest src n,
  for_up 0 n (λ i dest, v ← load ws src i; x ← f v; store wd dest i x) dest.

(** * The converters *)

Definition fmt_convert_u8_to_u8 : fmt_converter := λ dest src n, memcpy dest 0 src 0 (n * 1).
Definition fmt_convert_s8_to_u8 : fmt_converter := element_loop 1 1 (λ v, Some (sext 8 v + 128)).
Definition fmt_convert_s16_to_u8 : fmt_converter := element_loop 2 1 (λ v, Some (Z.shiftr (i16 v) 8 + 128)).
Definition fmt_convert_s20_to_u8 : fmt_converter := element_loop 4 1 (λ v, Some (Z.shiftr (i32 v) 12 + 128)).
Definition fmt_convert_s24_to_u8 : fmt_converter := element_loop 4 1 (λ v, Some (Z.shiftr (i32 v) 16 + 128)).
Definition fmt_convert_s32_to_u8 : fmt_converter := element_loop 4 1 (λ v, Some (Z.shiftr (i32 v) 24 + 128)).
Definition fmt_convert_float_to_u8 : fmt_converter := element_loop 4 1 (λ v, F_to_int (fl_clip single_format (fl_add single_format (fl_mul single_format (decode_float v) (fl_of_int single_format 128)) (fl_of_int single_format 128)) 0 255)).
Definition fmt_convert_double_to_u8 : fmt_converter := element_loop 8 1 (λ v, F_to_int (fl_clip double_format (fl_add double_format (fl_mul double_format (decode_double v) (fl_of_int double_format 128)) (fl_of_int double_format 128)) 0 255)).
Definition fmt_convert_u8_to_s8 : fmt_converter := element_loop 1 1 (λ v, Some (v - 128)).
Definition fmt_convert_s8_to_s8 : fmt_converter := λ dest src n, memcpy dest 0 src 0 (n * 1).
Definition fmt_convert_s16_to_s8 : fmt_converter := element_loop 2 1 (λ v, Some (Z.shiftr (i16 v) 8)).
Definition fmt_convert_s20_to_s8 : fmt_converter := element_loop 4 1 (λ v, Some (Z.shiftr (i32 v) 12)).
Definition fmt_convert_s24_to_s8 : fmt_converter := element_loop 4 1 (λ v, Some (Z.shiftr (i32 v) 16)).
Definition fmt_convert_s32_to_s8 : fmt_converter := element_loop 4 1 (λ v, Some (Z.shiftr (i32 v) 24)).
Definition fmt_convert_float_to_s8 : fmt_converter := element_loop 4 1 (λ v, F_to_int (fl_clip single_format (fl_mul single_format (decode_float v) (fl_of_int single_format 128)) (-128) 127)).
Definition fmt_convert_double_to_s8 : fmt_converter := element_loop 8 1 (λ v, F_to_int (fl_clip double_format (fl_mul double_format (decode_double v) (fl_of_int double_format 128)) (-128) 127)).
Definition fmt_convert_u8_to_s16 : fmt_converter := element_loop 1 2 (λ v, Some (Z.shiftl (v - 128) 8)).
Definition fmt_convert_s8_to_s16 : fmt_converter := element_loop 1 2 (λ v, Some (Z.shiftl (sext 8 v) 8)).
Definition fmt_convert_s16_to_s16 : fmt_converter := λ dest src n, memcpy dest 0 src 0 (n * 2).
Definition fmt_convert_s20_to_s16 : fmt_converter := element_loop 4 2 (λ v, Some (Z.shiftr (i32 v) 4)).
Definition fmt_convert_s24_to_s16 : fmt_converter := element_loop 4 2 (λ v, Some (Z.shiftr (i32 v) 8)).
Definition fmt_convert_s32_to_s16 : fmt_converter := element_loop 4 2 (λ v, Some (Z.shiftr (i32 v) 16)).
Definition fmt_convert_float_to_s16 : fmt_converter := element_loop 4 2 (λ v, F_to_int (fl_clip single_format (fl_mul single_format (decode_float v) (fl_of_int single_format 32768)) (-32768) 32767)).
Definition fmt_convert_double_to_s16 : fmt_converter := element_loop 8 2 (λ v, F_to_int (fl_clip double_format (fl_mul double_format (decode_double v) (fl_of_int double_format 32768)) (-32768) 32767)).
Definition fmt_convert_u8_to_s20 : fmt_converter := element_loop 1 4 (λ v, Some (Z.shiftl (v - 128) 12)).
Definition fmt_convert_s8_to_s20 : fmt_converter := element_loop 1 4 (λ v, Some (Z.shiftl (sext 8 v) 12)).
Definition fmt_convert_s16_to_s20 : fmt_converter := element_loop 2 4 (λ v, Some (Z.shiftl (i16 v) 4)).
Definition fmt_convert_s20_to_s20 : fmt_converter := λ dest src n, memcpy dest 0 src 0 (n * 4).
Definition fmt_convert_s24_to_s20 : fmt_converter := element_loop 4 4 (λ v, Some (Z.shiftr (i32 v) 4)).
Definition fmt_convert_s32_to_s20 : fmt_converter := element_loop 4 4 (λ v, Some (Z.shiftr (i32 v) 12)).
Definition fmt_convert_float_to_s20 : fmt_converter := element_loop 4 4 (λ v, F_to_int (fl_clip single_format (fl_mul single_format (decode_float v) (fl_of_int single_format 524288)) (-524288) 524287)).
Definition fmt_convert_double_to_s20 : fmt_converter := element_loop 8 4 (λ v, F_to_int (fl_clip double_format (fl_mul double_format (decode_double v) (fl_of_int double_format 524288)) (-524288) 524287)).
Definition fmt_convert_u8_to_s24 : fmt_converter := element_loop 1 4 (λ v, Some (Z.shiftl (v - 128) 16)).
Definition fmt_convert_s8_to_s24 : fmt_converter := element_loop 1 4 (λ v, Some (Z.shiftl (sext 8 v) 16)).
Definition fmt_convert_s16_to_s24 : fmt_converter := element_loop 2 4 (λ v, Some (Z.shiftl (i16 v) 8)).
Definition fmt_convert_s20_to_s24 : fmt_converter := element_loop 4 4 (λ v, Some (Z.shiftl (i32 v) 4)).
Definition fmt_convert_s24_to_s24 : fmt_converter := λ dest src n, memcpy dest 0 src 0 (n * 4).
Definition fmt_convert_s32_to_s24 : fmt_converter := element_loop 4 4 (λ v, Some (Z.shiftr (i32 v) 8)).
Definition fmt_convert_float_to_s24 : fmt_converter := element_loop 4 4 (λ v, F_to_int (fl_clip single_format (fl_mul single_format (decode_float v) (fl_of_int single_format 8388608)) (-8388608) 8388607)).
Definition fmt_convert_double_to_s24 : fmt_converter := element_loop 8 4 (λ v, F_to_int (fl_clip double_format (fl_mul double_format (decode_double v) (fl_of_int double_format 8388608)) (-8388608) 8388607)).
Definition fmt_convert_u8_to_s32 : fmt_converter := element_loop 1 4 (λ v, Some (Z.shiftl (v - 128) 24)).
Definition fmt_convert_s8_to_s32 : fmt_converter := element_loop 1 4 (λ v, Some (Z.shiftl (sext 8 v) 24)).
Definition fmt_convert_s16_to_s32 : fmt_converter := element_loop 2 4 (λ v, Some (Z.shiftl (i16 v) 16)).
Definition fmt_convert_s20_to_s32 : fmt_converter := element_loop 4 4 (λ v, Some (Z.shiftl (i32 v) 12)).
Definition fmt_convert_s24_to_s32 : fmt_converter := element_loop 4 4 (λ v, Some (Z.shiftl (i32 v) 8)).
Definition fmt_convert_s32_to_s32 : fmt_converter := λ dest src n, memcpy dest 0 src 0 (n * 4).
Definition fmt_convert_float_to_s32 : fmt_converter := element_loop 4 4 (λ v, F_to_int (fl_mul single_format (decode_float v) (fl_of_int single_format 2147483648))).
Definition fmt_convert_double_to_s32 : fmt_converter := element_loop 8 4 (λ v, F_to_int (fl_mul double_format (decode_double v) (fl_of_int double_format 2147483648))).
Definition fmt_convert_u8_to_float : fmt_converter := element_loop 1 4 (λ v, Some (encode_float (fl_div single_format (fl_sub single_format (fl_of_int single_format v) (fl_of_int single_format 128)) (fl_of_int single_format 128)))).
Definition fmt_convert_s8_to_float : fmt_converter := element_loop 1 4 (λ v, Some (encode_float (fl_div single_format (fl_of_int single_format (sext 8 v)) (fl_of_int single_format 128)))).
Definition fmt_convert_s16_to_float : fmt_converter := element_loop 2 4 (λ v, Some (encode_float (fl_div single_format (fl_of_int single_format (i16 v)) (fl_of_int single_format 32768)))).
Definition fmt_convert_s20_to_float : fmt_converter := element_loop 4 4 (λ v, Some (encode_float (fl_div single_format (fl_of_int single_format (i32 v)) (fl_of_int single_format 524288)))).
Definition fmt_convert_s24_to_float : fmt_converter := element_loop 4 4 (λ v, Some (encode_float (fl_div single_format (fl_of_int single_format (i32 v)) (fl_of_int single_format 8388608)))).
Definition fmt_convert_s32_to_float : fmt_converter := element_loop 4 4 (λ v, Some (encode_float (fl_div single_format (fl_of_int single_format (i32 v)) (fl_of_int single_format 2147483648)))).
Definition fmt_convert_float_to_float : fmt_converter := λ dest src n, memcpy dest 0 src 0 (n * 4).
Definition fmt_convert_double_to_float : fmt_converter := element_loop 8 4 (λ v, Some (double_to_float v)).
Definition fmt_convert_u8_to_double : fmt_converter := element_loop 1 8 (λ v, Some (encode_double (fl_div double_format (fl_sub double_format (fl_of_int double_format v) (fl_of_int double_format 128)) (fl_of_int double_format 128)))).
Definition fmt_convert_s8_to_double : fmt_converter := element_loop 1 8 (λ v, Some (encode_double (fl_div double_format (fl_of_int double_format (sext 8 v)) (fl_of_int double_format 128)))).
Definition fmt_convert_s16_to_double : fmt_converter := element_loop 2 8 (λ v, Some (encode_double (fl_div double_format (fl_of_int double_format (i16 v)) (fl_of_int double_format 32768)))).
Definition fmt_convert_s20_to_double : fmt_converter := element_loop 4 8 (λ v, Some (encode_double (fl_div double_format (fl_of_int double_format (i32 v)) (fl_of_int double_format 524288)))).
Definition fmt_convert_s24_to_double : fmt_converter := element_loop 4 8 (λ v, Some (encode_double (fl_div double_format (fl_of_int double_format (i32 v)) (fl_of_int double_format 8388608)))).
Definition fmt_convert_s32_to_double : fmt_converter := element_loop 4 8 (λ v, Some (encode_double (fl_div double_format (fl_of_int double_format (i32 v)) (fl_of_int double_format 2147483648)))).
Definition fmt_convert_float_to_double : fmt_converter := element_loop 4 8 (λ v, Some (float_to_double v)).
Definition fmt_convert_double_to_double : fmt_converter := λ dest src n, memcpy dest 0 src 0 (n * 8).

(** [enum PcmSampleFormat] *)
Definition PCM_SAMPLE_FMT_UNKNOWN : Z := -1.
Definition PCM_SAMPLE_FMT_U8 : Z := 0.
Definition PCM_SAMPLE_FMT_S8 : Z := 1.
Definition PCM_SAMPLE_FMT_S16 : Z := 2.
Definition PCM_SAMPLE_FMT_S20 : Z := 3.
Definition PCM_SAMPLE_FMT_S24 : Z := 4.
Definition PCM_SAMPLE_FMT_S32 : Z := 5.
Definition PCM_SAMPLE_FMT_FLT : Z := 6.
Definition PCM_SAMPLE_FMT_DBL : Z := 7.

(** The function [SET_FMT_CONVERT_FROM] stores for the read format, if it is
    one; [fns] are the eight functions for the source format in order. *)
Definition SET_FMT_CONVERT_FROM (fns : list fmt_converter) (rfmt : Z) (old : option fmt_converter) : option fmt_converter :=
  match aget fns rfmt with Some f => Some f | None => old end.

Definition from_u8 : list fmt_converter :=
  [fmt_convert_u8_to_u8; fmt_convert_u8_to_s8; fmt_convert_u8_to_s16; fmt_convert_u8_to_s20;
   fmt_convert_u8_to_s24; fmt_convert_u8_to_s32; fmt_convert_u8_to_float; fmt_convert_u8_to_double].
Definition from_s8 : list fmt_converter :=
  [fmt_convert_s8_to_u8; fmt_convert_s8_to_s8; fmt_convert_s8_to_s16; fmt_convert_s8_to_s20;
   fmt_convert_s8_to_s24; fmt_convert_s8_to_s32; fmt_convert_s8_to_float; fmt_convert_s8_to_double].
Definition from_s16 : list fmt_converter :=
  [fmt_convert_s16_to_u8; fmt_convert_s16_to_s8; fmt_convert_s16_to_s16; fmt_convert_s16_to_s20;
   fmt_convert_s16_to_s24; fmt_convert_s16_to_s32; fmt_convert_s16_to_float; fmt_convert_s16_to_double].
Definition from_s20 : list fmt_converter :=
  [fmt_convert_s20_to_u8; fmt_convert_s20_to_s8; fmt_convert_s20_to_s16; fmt_convert_s20_to_s20;
   fmt_convert_s20_to_s24; fmt_convert_s20_to_s32; fmt_convert_s20_to_float; fmt_convert_s20_to_double].
Definition from_s24 : list fmt_converter :=
  [fmt_convert_s24_to_u8; fmt_convert_s24_to_s8; fmt_convert_s24_to_s16; fmt_convert_s24_to_s20;
   fmt_convert_s24_to_s24; fmt_convert_s24_to_s32; fmt_convert_s24_to_float; fmt_convert_s24_to_double].
Definition from_s32 : list fmt_converter :=
  [fmt_convert_s32_to_u8; fmt_convert_s32_to_s8; fmt_convert_s32_to_s16; fmt_convert_s32_to_s20;
   fmt_convert_s32_to_s24; fmt_convert_s32_to_s32; fmt_convert_s32_to_float; fmt_convert_s32_to_double].
Definition from_float : list fmt_converter :=
  [fmt_convert_float_to_u8; fmt_convert_float_to_s8; fmt_convert_float_to_s16; fmt_convert_float_to_s20;
   fmt_convert_float_to_s24; fmt_convert_float_to_s32; fmt_convert_float_to_float; fmt_convert_float_to_double].
Definition from_double : list fmt_converter :=
  [fmt_convert_double_to_u8; fmt_convert_double_to_s8; fmt_convert_double_to_s16; fmt_convert_double_to_s20;
   fmt_convert_double_to_s24; fmt_convert_double_to_s32; fmt_convert_double_to_float; fmt_convert_double_to_double].

(** The [switch] over the source format. *)
Definition choose_converter (fmt rfmt : Z) (old : option fmt_converter) : option fmt_converter :=
  if fmt =? PCM_SAMPLE_FMT_U8 then SET_FMT_CONVERT_FROM from_u8 rfmt old
  else if fmt =? PCM_SAMPLE_FMT_S8 then SET_FMT_CONVERT_FROM from_s8 rfmt old
  else if fmt =? PCM_SAMPLE_FMT_S16 then SET_FMT_CONVERT_FROM from_s16 rfmt old
  else if fmt =? PCM_SAMPLE_FMT_S20 then SET_FMT_CONVERT_FROM from_s20 rfmt old
  else if fmt =? PCM_SAMPLE_FMT_S24 then SET_FMT_CONVERT_FROM from_s24 rfmt old
  else if fmt =? PCM_SAMPLE_FMT_S32 then SET_FMT_CONVERT_FROM from_s32 rfmt old
  else if fmt =? PCM_SAMPLE_FMT_FLT then SET_FMT_CONVERT_FROM from_float rfmt old
  else if fmt =? PCM_SAMPLE_FMT_DBL then SET_FMT_CONVERT_FROM from_double rfmt old
  else old.
End convert.

(** * Memory as words *)

Lemma zlen_words `{Target} w vs : 0 ≤ w → zlen (words w vs) = w * zlen vs.
Proof. apply zlen_concat. Qed.

Lemma words_app `{Target} w xs ys : words w (xs ++ ys) = words w xs ++ words w ys.
Proof. unfold words. by rewrite map_app, concat_app. Qed.

Lemma load_app_l `{Target} w m r j : 0 < w → 0 ≤ j → (j + 1) * w ≤ zlen m → load w (m ++ r) j = load w m j.
Proof.
  intros Hw Hj Hm. unfold load. rewrite zlen_app. pose proof (zlen_nonneg r).
  replace ((0 <=? j) && ((j + 1) * w <=? zlen m + zlen r)) with ((0 <=? j) && ((j + 1) * w <=? zlen m)) by lia.
  assert (Hs : slice (m ++ r) (j * w) w = slice m (j * w) w).
  { unfold slice, zlen in *. rewrite drop_app_le by nia. rewrite take_app_le; [done|]. rewrite length_drop. nia. }
  by rewrite Hs.
Qed.

Lemma load_words `{Target} w vs r j :
  0 < w → 0 ≤ j < zlen vs → load w (words w vs ++ r) j = Some (vs.[j] mod 2 ^ (8 * w)).
Proof.
  intros Hw Hj. rewrite load_app_l; [by apply load_stored|done|lia|]. rewrite zlen_words by lia. nia.
Qed.

Lemma host_bytes_mod `{Target} w v : 0 ≤ w → host_bytes w (v mod 2 ^ (8 * w)) = host_bytes w v.
Proof.
  intros Hw. unfold host_bytes. pose proof (le_bytes_mod (Z.to_nat w) v) as Hm. rewrite Z2Nat.id in Hm by done. by rewrite Hm.
Qed.

Lemma words_mod `{Target} w vs : 0 ≤ w → words w (map (λ v, v mod 2 ^ (8 * w)) vs) = words w vs.
Proof.
  intros Hw. unfold words. f_equal. rewrite map_map. apply map_ext. intros v. by apply host_bytes_mod.
Qed.

(** Storing the word behind those that are there. *)
Lemma store_next `{Target} w xs b0 x :
  0 < w → w * (zlen xs + 1) ≤ zlen b0 →
  store w (words w xs ++ drop (Z.to_nat (w * zlen xs)) b0) (zlen xs) x =
  Some (words w (xs ++ [x]) ++ drop (Z.to_nat (w * (zlen xs + 1))) b0).
Proof.
  intros Hw Hb. pose proof (zlen_nonneg xs) as Hx. pose proof (zlen_words w xs ltac:(lia)) as Hpre.
  set (post := drop (Z.to_nat (w * zlen xs)) b0).
  assert (Hpost : zlen post = zlen b0 - w * zlen xs) by (unfold post, zlen in *; rewrite length_drop; lia).
  unfold store. replace ((0 <=? zlen xs) && ((zlen xs + 1) * w <=? zlen (words w xs ++ post))) with true by (rewrite zlen_app; lia).
  rewrite words_app, <- app_assoc. unfold splice. rewrite take_app_length' by (unfold zlen in *; lia). do 2 f_equal.
  change (words w [x]) with (host_bytes w x ++ []). rewrite app_nil_r. f_equal.
  pose proof (host_bytes_len w x ltac:(lia)) as Hl.
  rewrite drop_app_ge by (unfold zlen in *; lia). unfold post. rewrite drop_drop. f_equal. unfold zlen in *. lia.
Qed.

(** A loop that stores word [i] of an array in turn [i], having read what it
    needs from behind the words it has stored; the array may be its own source. *)
Lemma store_loop `{Target} w body b0 outs :
  0 < w → w * zlen outs ≤ zlen b0 →
  (∀ i P, 0 ≤ i < zlen outs → zlen P = w * i →
     body i (P ++ drop (Z.to_nat (w * i)) b0) = store w (P ++ drop (Z.to_nat (w * i)) b0) i outs.[i]) →
  for_up 0 (zlen outs) body b0 = Some (words w outs ++ drop (Z.to_nat (w * zlen outs)) b0).
Proof.
  intros Hw Hb Hbody.
  assert (Hwp : wp (for_up 0 (zlen outs) body b0)
    (λ r, r = words w (take (Z.to_nat (zlen outs)) outs) ++ drop (Z.to_nat (w * zlen outs)) b0)).
  { apply (wp_for_up (λ i r, r = words w (take (Z.to_nat i) outs) ++ drop (Z.to_nat (w * i)) b0)); [apply zlen_nonneg| | |done].
    { rewrite Z.mul_0_r. by rewrite drop_0. }
    intros i r Hi ->. assert (Htk : zlen (take (Z.to_nat i) outs) = i) by (unfold zlen in *; rewrite length_take; lia).
    rewrite Hbody; [|done|rewrite zlen_words, Htk; lia].
    pose proof (store_next w (take (Z.to_nat i) outs) b0 outs.[i] Hw ltac:(rewrite Htk; nia)) as Hst. rewrite Htk in Hst. rewrite Hst.
    assert (Hv : outs !! Z.to_nat i = Some outs.[i]) by (apply list_lookup_lookup_total_lt; unfold zlen in *; lia).
    simpl. replace (Z.to_nat (i + 1)) with (S (Z.to_nat i)) by lia. by rewrite (take_S_r _ _ _ Hv). }
  apply wp_some in Hwp as (r & -> & ->). do 3 f_equal. apply take_ge. unfold zlen. lia.
Qed.

(** A converter on an array of words that may be followed by anything: the
    words converted one by one, and the rest of the destination. *)
Lemma element_loop_words `{Target} ws wd f dest vs vs' rest :
  0 < ws → 0 < wd → Forall2 (λ v v', f (v mod 2 ^ (8 * ws)) = Some v') vs vs' → wd * zlen vs ≤ zlen dest →
  element_loop ws wd f dest (words ws vs ++ rest) (zlen vs) = Some (words wd vs' ++ drop (Z.to_nat (wd * zlen vs)) dest).
Proof.
  intros Hws Hwd Hf Hd. assert (Hl : zlen vs' = zlen vs) by (unfold zlen; by rewrite (Forall2_length Hf)).
  unfold element_loop. rewrite <- Hl. apply store_loop; [done|lia|]. intros i P Hi HP.
  rewrite load_words by lia. simpl.
  assert (Hv : vs !! Z.to_nat i = Some vs.[i]) by (apply list_lookup_lookup_total_lt; unfold zlen in *; lia).
  assert (Hv' : vs' !! Z.to_nat i = Some vs'.[i]) by (apply list_lookup_lookup_total_lt; unfold zlen in *; lia).
  by rewrite (Forall2_lookup_lr _ _ _ _ _ _ Hf Hv Hv').
Qed.

(** * One definition for all pairs of formats

    Bytes of a sample, the bits of an integer format, the integer a word
    stands for, and the word of an integer. *)
Definition pcm_width (fmt : Z) : Z :=
  if fmt <=? PCM_SAMPLE_FMT_S8 then 1 else if fmt =? PCM_SAMPLE_FMT_S16 then 2
  else if fmt =? PCM_SAMPLE_FMT_DBL then 8 else 4.
Definition pcm_bits (fmt : Z) : Z :=
  if fmt <=? PCM_SAMPLE_FMT_S8 then 8 else if fmt =? PCM_SAMPLE_FMT_S16 then 16
  else if fmt =? PCM_SAMPLE_FMT_S20 then 20 else if fmt =? PCM_SAMPLE_FMT_S24 then 24 else 32.
Definition int_of (fmt v : Z) : Z :=
  if fmt =? PCM_SAMPLE_FMT_U8 then v - 128 else if fmt =? PCM_SAMPLE_FMT_S8 then sext 8 v
  else if fmt =? PCM_SAMPLE_FMT_S16 then i16 v else i32 v.
Definition of_int (fmt x : Z) : Z := if fmt =? PCM_SAMPLE_FMT_U8 then x + 128 else x.

Definition fl_format (fmt : Z) : FloatFormat := if fmt =? PCM_SAMPLE_FMT_FLT then single_format else double_format.
Definition fl_decode (fmt : Z) : Z → spec_float := if fmt =? PCM_SAMPLE_FMT_FLT then decode_float else decode_double.
Definition fl_encode (fmt : Z) : spec_float → Z := if fmt =? PCM_SAMPLE_FMT_FLT then encode_float else encode_double.
Definition is_int (fmt : Z) : bool := fmt <? PCM_SAMPLE_FMT_FLT.

(** An integer over the full scale as a number; unsigned bytes are centred in
    the arithmetic of the target. *)
Definition int_to_fl (f g v : Z) : spec_float :=
  let F := fl_format g in
  let x := if f =? PCM_SAMPLE_FMT_U8 then fl_sub F (fl_of_int F v) (fl_of_int F 128) else fl_of_int F (int_of f v) in
  fl_div F x (fl_of_int F (2 ^ (pcm_bits f - 1))).

(** A number times the full scale, clipped (but for 32 bits) and truncated. *)
Definition fl_to_int (f g v : Z) : option Z :=
  let F := fl_format f in
  let x := fl_mul F (fl_decode f v) (fl_of_int F (2 ^ (pcm_bits g - 1))) in
  F_to_int (if g =? PCM_SAMPLE_FMT_U8 then fl_clip F (fl_add F x (fl_of_int F 128)) 0 255
    else if g =? PCM_SAMPLE_FMT_S32 then x
    else fl_clip F x (- 2 ^ (pcm_bits g - 1)) (2 ^ (pcm_bits g - 1) - 1)).

(** A sample of format [f] as one of format [g <> f]. *)
Definition convert_sample `{NanBits} (f g v : Z) : option Z :=
  if is_int g then
    if is_int f then Some (of_int g (Z.shiftl (int_of f v) (pcm_bits g - pcm_bits f))) else fl_to_int f g v
  else if is_int f then Some (fl_encode g (int_to_fl f g v))
  else Some (if f =? PCM_SAMPLE_FMT_FLT then float_to_double v else double_to_float v).

Lemma format_cases fmt : 0 ≤ fmt ≤ 7 →
  fmt = 0 ∨ fmt = 1 ∨ fmt = 2 ∨ fmt = 3 ∨ fmt = 4 ∨ fmt = 5 ∨ fmt = 6 ∨ fmt = 7.
Proof. lia. Qed.

Ltac format_cases H :=
  apply format_cases in H; destruct H as [->|[->|[->|[->|[->|[->|[->| ->]]]]]]].

Lemma converter_is_sample_loop `{Target} `{NanBits} f g old :
  0 ≤ f ≤ 7 → 0 ≤ g ≤ 7 → ∃ fn, choose_converter f g old = Some fn ∧ ∀ dest src n,
    fn dest src n = if f =? g then memcpy dest 0 src 0 (n * pcm_width f)
      else element_loop (pcm_width f) (pcm_width g) (convert_sample f g) dest src n.
Proof.
  intros Hf Hg. format_cases Hf; format_cases Hg; (eexists; split; [reflexivity|]; intros dest src n; reflexivity).
Qed.

Lemma choose_converter_other `{Target} `{NanBits} f g old : g < 0 ∨ 7 < g → choose_converter f g old = old.
Proof.
  intros Hg. assert (Hn : ∀ fns : list fmt_converter, zlen fns = 8 → SET_FMT_CONVERT_FROM fns g old = old).
  { intros fns Hl. unfold SET_FMT_CONVERT_FROM. by rewrite aget_oob by lia. }
  unfold choose_converter. repeat (case_match; [by apply Hn|]). done.
Qed.

(** * Integers *)

(** The words a format uses: the range of its bits, or no NaN. *)
Definition sample_ok (fmt v : Z) : Prop :=
  0 ≤ v < 2 ^ (8 * pcm_width fmt) ∧
  if is_int fmt then - 2 ^ (pcm_bits fmt - 1) ≤ int_of fmt v < 2 ^ (pcm_bits fmt - 1)
  else is_nan (fl_decode fmt v) = false.

Lemma sext_mod w n x : 0 < w ≤ n → - 2 ^ (w - 1) ≤ x < 2 ^ (w - 1) → sext n (x mod 2 ^ n) = x.
Proof.
  intros Hw Hx. assert (Hp : 2 ^ (w - 1) ≤ 2 ^ (n - 1)) by (apply Z.pow_le_mono_r; lia).
  assert (H2 : 2 ^ n = 2 * 2 ^ (n - 1)) by (rewrite <- Z.pow_succ_r by lia; f_equal; lia).
  unfold sext. rewrite Zplus_mod_idemp_l. rewrite Z.mod_small; lia.
Qed.

Lemma int_of_of_int fmt x :
  0 ≤ fmt ≤ 7 → is_int fmt = true → - 2 ^ (pcm_bits fmt - 1) ≤ x < 2 ^ (pcm_bits fmt - 1) →
  int_of fmt (of_int fmt x mod 2 ^ (8 * pcm_width fmt)) = x.
Proof.
  intros Hf Hi Hx. format_cases Hf; try done.
  - change (int_of 0 ?v) with (v - 128). change (of_int 0 x) with (x + 128).
    change (2 ^ (pcm_bits 0 - 1)) with 128 in Hx. change (2 ^ (8 * pcm_width 0)) with 256. rewrite Z.mod_small; lia.
  - by apply (sext_mod 8 8).
  - by apply (sext_mod 16 16).
  - by apply (sext_mod 20 32).
  - by apply (sext_mod 24 32).
  - by apply (sext_mod 32 32).
Qed.

Lemma of_int_int_of fmt v :
  0 ≤ fmt ≤ 7 → is_int fmt = true → 0 ≤ v < 2 ^ (8 * pcm_width fmt) →
  of_int fmt (int_of fmt v) mod 2 ^ (8 * pcm_width fmt) = v.
Proof.
  assert (Hs : ∀ n, 0 ≤ v < 2 ^ n → sext n v mod 2 ^ n = v).
  { intros n Hv. unfold sext. rewrite Zminus_mod_idemp_l. replace (v + 2 ^ (n - 1) - 2 ^ (n - 1)) with v by lia. by apply Z.mod_small. }
  intros Hf Hi Hv. format_cases Hf; try done.
  - change (of_int 0 (int_of 0 v)) with (v - 128 + 128). rewrite Z.sub_add. by apply Z.mod_small.
  - by apply Hs.
  - by apply Hs.
  - by apply Hs.
  - by apply Hs.
  - by apply Hs.
Qed.

(** Widening keeps the range and is undone by narrowing. *)
Lemma shiftl_range x a b :
  1 ≤ a ≤ b → - 2 ^ (a - 1) ≤ x < 2 ^ (a - 1) →
  - 2 ^ (b - 1) ≤ Z.shiftl x (b - a) < 2 ^ (b - 1) ∧ Z.shiftl (Z.shiftl x (b - a)) (a - b) = x.
Proof.
  intros Hab Hx. rewrite Z.shiftl_mul_pow2 by lia. pose proof (Z.pow_pos_nonneg 2 (b - a) ltac:(lia) ltac:(lia)).
  replace (2 ^ (b - 1)) with (2 ^ (a - 1) * 2 ^ (b - a)) by (rewrite <- Z.pow_add_r by lia; f_equal; lia).
  split; [nia|]. rewrite <- Z.shiftl_mul_pow2, Z.shiftl_shiftl by lia. replace (b - a + (a - b)) with 0 by lia. apply Z.shiftl_0_r.
Qed.

Lemma pcm_bits_range fmt : 8 ≤ pcm_bits fmt ≤ 32.
Proof. unfold pcm_bits. repeat case_match; lia. Qed.

(** * Numbers *)

Section numbers.
Context {F : FloatFormat} {Ok : FloatOk F}.

Lemma SFcompare_pos m e m' e' :
  SFcompare (S754_finite false m e) (S754_finite false m' e') =
  Some (match e ?= e' with Eq => (m ?= m')%positive | c => c end).
Proof. simpl. by destruct (e ?= e'). Qed.

(** Integers compare as numbers. *)
Lemma compare_scaled m j m' j' a b :
  normal m → normal m' → 0 ≤ j → 0 ≤ j' → Zpos m = a * 2 ^ j → Zpos m' = b * 2 ^ j' → 0 < a → 0 < b →
  match - j ?= - j' with Eq => (m ?= m')%positive | c => c end = (a ?= b).
Proof.
  intros Hm Hm' Hj Hj' Ha Hb Hpa Hpb. unfold normal in *.
  assert (Hlt : ∀ x y k l (mx my : positive), 0 < x → 0 < y → 0 ≤ k → 0 ≤ l → k < l → Zpos mx = x * 2 ^ k → Zpos my = y * 2 ^ l →
    2 ^ (F_prec - 1) ≤ Zpos mx → Zpos my < 2 ^ F_prec → y < x).
  { intros x y k l mx my Hx Hy Hk Hl Hkl Emx Emy Hlo Hhi. pose proof (Z.pow_pos_nonneg 2 k ltac:(lia) Hk) as Hpk.
    assert (H1 : y * 2 ^ l < 2 * (x * 2 ^ k)).
    { rewrite <- Emx, <- Emy. pose proof format_facts. replace F_prec with (1 + (F_prec - 1)) in Hhi by lia.
      rewrite Z.pow_add_r in Hhi by lia. lia. }
    replace (2 ^ l) with (2 ^ k * 2 ^ (l - k)) in H1 by (rewrite <- Z.pow_add_r by lia; f_equal; lia).
    assert (H2 : 2 ≤ 2 ^ (l - k)) by (rewrite <- (Z.pow_1_r 2) at 1; apply Z.pow_le_mono_r; lia).
    assert (H3 : y * (2 ^ k * 2) ≤ y * (2 ^ k * 2 ^ (l - k))) by (apply Z.mul_le_mono_nonneg_l; nia). nia. }
  destruct (Z.compare_spec (- j) (- j')) as [He|He|He].
  - assert (j = j') as -> by lia. rewrite Pos2Z.inj_compare, Ha, Hb. symmetry.
    apply Zmult_compare_compat_r. apply Z.lt_gt, Z.pow_pos_nonneg; lia.
  - symmetry. apply Z.compare_lt_iff. apply (Hlt b a j' j m' m); lia.
  - symmetry. apply Z.compare_gt_iff. apply (Hlt a b j j' m m'); lia.
Qed.

Lemma F_lt_of_Z a b : Z.abs a < 2 ^ F_prec → Z.abs b < 2 ^ F_prec → F_lt (F_of_Z a) (F_of_Z b) = (a <? b).
Proof.
  intros Ha Hb. destruct (Z.eq_dec a 0) as [-> |Ha0], (Z.eq_dec b 0) as [-> |Hb0]; [done| | |].
  - destruct (F_of_Z_exact b Hb0 Hb) as (m & j & -> & _). change (F_of_Z 0) with (S754_zero false).
    unfold F_lt, SFltb. simpl. destruct (Z.ltb_spec b 0), (Z.ltb_spec 0 b); done || lia.
  - destruct (F_of_Z_exact a Ha0 Ha) as (m & j & -> & _). change (F_of_Z 0) with (S754_zero false).
    unfold F_lt, SFltb. simpl. destruct (Z.ltb_spec a 0); done || lia.
  - destruct (F_of_Z_exact a Ha0 Ha) as (m & j & -> & Hm & Hj & Em), (F_of_Z_exact b Hb0 Hb) as (m' & j' & -> & Hm' & Hj' & Em').
    pose proof (compare_scaled m j m' j' (Z.abs a) (Z.abs b) Hm Hm' ltac:(lia) ltac:(lia) Em Em' ltac:(lia) ltac:(lia)) as Hc.
    unfold F_lt, SFltb. destruct (Z.ltb_spec a 0), (Z.ltb_spec b 0); simpl; try lia.
    + change (Pos.compare_cont Eq m m') with (m ?= m')%positive. destruct (Z.compare_spec (- j) (- j')) as [He|He|He]; simpl.
      * rewrite Hc. destruct (Z.compare_spec (Z.abs a) (Z.abs b)); simpl; lia.
      * symmetry in Hc. change (Z.abs a < Z.abs b) in Hc. lia.
      * symmetry in Hc. change (Z.abs a > Z.abs b) in Hc. lia.
    + change (Pos.compare_cont Eq m m') with (m ?= m')%positive. destruct (Z.compare_spec (- j) (- j')) as [He|He|He]; simpl.
      * rewrite Hc. destruct (Z.compare_spec (Z.abs a) (Z.abs b)); simpl; lia.
      * symmetry in Hc. change (Z.abs a < Z.abs b) in Hc. lia.
      * symmetry in Hc. change (Z.abs a > Z.abs b) in Hc. lia.
Qed.

Lemma fl_clip_in x lo hi :
  lo ≤ x ≤ hi → Z.abs lo < 2 ^ F_prec → Z.abs hi < 2 ^ F_prec → fl_clip F (fl_of_int F x) lo hi = fl_of_int F x.
Proof.
  intros Hx Hlo Hhi. unfold fl_clip, F_CLIP, F_MIN, F_MAX, fl_of_int. rewrite !F_lt_of_Z by lia.
  replace (hi <? x) with false by lia. rewrite F_lt_of_Z by lia. destruct (Z.ltb_spec lo x); [done|]. by replace x with lo by lia.
Qed.

Lemma F_to_int_of_Z x : Z.abs x < 2 ^ F_prec → - 2 ^ 31 ≤ x < 2 ^ 31 → F_to_int (F_of_Z x) = Some x.
Proof. intros Hx Hr. unfold F_to_int. rewrite F_trunc_of_Z by done. simpl. by replace ((- 2 ^ 31 <=? x) && (x <? 2 ^ 31)) with true by lia. Qed.

(** A quotient of an integer and a power of two is a number with a full
    significand, or zero. *)
Lemma scaled_form x k :
  Z.abs x ≤ 2 ^ k → 0 ≤ k < F_prec → k ≤ 31 →
  F_div (F_of_Z x) (F_of_Z (2 ^ k)) = S754_zero false ∨
  ∃ s m e, F_div (F_of_Z x) (F_of_Z (2 ^ k)) = S754_finite s m e ∧ normal m ∧ -100 ≤ e ≤ 0.
Proof.
  intros Hx Hk Hk31. pose proof format_facts as (Hp & _ & _). destruct (Z.eq_dec x 0) as [-> |H0].
  { left. destruct (pow_exact k Hk) as (c & -> & _). done. }
  right. assert (Hlt : 2 ^ k < 2 ^ F_prec) by (apply Z.pow_lt_mono_r; lia).
  destruct (F_of_Z_exact x H0 (Z.le_lt_trans _ _ _ Hx Hlt)) as (m & j & -> & Hm & Hj & Heq).
  rewrite div_pow by (done || unfold mid; lia). do 3 eexists. split; [done|]. split; [done|lia].
Qed.
End numbers.

(** The bits of a number with a full significand. *)
Lemma ieee_code mw ew s m e :
  0 < mw → 1 < ew → 2 ^ mw ≤ Zpos m < 2 ^ (mw + 1) → 0 < e + (2 ^ (ew - 1) - 1) + mw < 2 ^ ew - 1 →
  0 ≤ ieee_encode mw ew (S754_finite s m e) < 2 ^ (mw + ew + 1) ∧
  ieee_decode mw ew (ieee_encode mw ew (S754_finite s m e)) = S754_finite s m e.
Proof.
  intros Hmw Hew Hm He. set (b := 2 ^ (ew - 1) - 1) in *. set (E := e + b + mw) in *.
  assert (Hcode : ieee_encode mw ew (S754_finite s m e) = Z.b2z s * 2 ^ (mw + ew) + (E * 2 ^ mw + (Zpos m - 2 ^ mw))).
  { unfold ieee_encode. fold b. fold E. replace (Zpos m <? 2 ^ mw) with false by lia. by destruct s; simpl Z.b2z; rewrite ?Z.mul_1_l, ?Z.mul_0_l. }
  rewrite Hcode. rewrite Z.pow_add_r in Hm by lia. rewrite !Z.pow_add_r by lia.
  set (M := 2 ^ mw) in *. set (W := 2 ^ ew) in *.
  assert (HM : 0 < M) by (apply Z.pow_pos_nonneg; lia). assert (HW : 0 < W) by (apply Z.pow_pos_nonneg; lia).
  set (r := E * M + (Zpos m - M)). assert (Hr : 0 ≤ r < M * W) by (unfold r; nia).
  assert (Hs : 0 ≤ Z.b2z s ≤ 1) by (by destruct s). split; [nia|].
  set (x := Z.b2z s * (M * W) + r).
  assert (Hbit : Z.testbit x (mw + ew) = s).
  { assert (Hd : x / 2 ^ (mw + ew) = Z.b2z s).
    { rewrite Z.pow_add_r by lia. fold M W. unfold x. rewrite Z.div_add_l by nia. rewrite Z.div_small; lia. }
    rewrite Z.testbit_odd, Z.shiftr_div_pow2, Hd by lia. by destruct s. }
  assert (Hmod : x mod M = Zpos m - M).
  { unfold x, r. replace (Z.b2z s * (M * W) + (E * M + (Zpos m - M))) with (Zpos m - M + (Z.b2z s * W + E) * M) by lia.
    rewrite Z.mod_add by lia. apply Z.mod_small. lia. }
  assert (Hexp : Z.shiftr x mw mod W = E).
  { rewrite Z.shiftr_div_pow2 by lia. fold M. unfold x, r.
    replace (Z.b2z s * (M * W) + (E * M + (Zpos m - M))) with ((Z.b2z s * W + E) * M + (Zpos m - M)) by lia.
    rewrite Z.div_add_l, (Z.div_small (Zpos m - M)), Z.add_0_r by lia. rewrite Z.add_comm, Z.mod_add by lia. apply Z.mod_small. lia. }
  unfold ieee_decode. fold b M W. rewrite Hbit, Hmod, Hexp. replace (E =? 0) with false by lia.
  replace (E =? W - 1) with false by lia. replace (Zpos m - M + M) with (Zpos m) by lia. f_equal. lia.
Qed.

(** The bits of a number are determined by it. *)
Lemma ieee_recode mw ew v :
  0 < mw → 1 < ew → 0 ≤ v < 2 ^ (mw + ew + 1) → is_nan (ieee_decode mw ew v) = false →
  ieee_encode mw ew (ieee_decode mw ew v) = v.
Proof.
  intros Hmw Hew Hv Hn. set (M := 2 ^ mw). set (W := 2 ^ ew).
  assert (HM : 0 < M) by (apply Z.pow_pos_nonneg; lia). assert (HW : 2 ≤ W).
  { unfold W. rewrite <- (Z.pow_1_r 2) at 1. apply Z.pow_le_mono_r; lia. }
  unfold ieee_decode in *. fold M W in Hn |- *. set (s := Z.testbit v (mw + ew)) in *.
  set (E := Z.shiftr v mw mod W) in *. set (m := v mod M) in *.
  assert (Hm : 0 ≤ m < M) by (apply Z.mod_pos_bound; lia). assert (HE : 0 ≤ E < W) by (apply Z.mod_pos_bound; lia).
  assert (Hs : v / M / W = Z.b2z s).
  { rewrite Z.div_div by lia. unfold M, W, s. rewrite <- Z.pow_add_r by lia. rewrite Z.testbit_odd, Z.shiftr_div_pow2 by lia.
    assert (0 ≤ v / 2 ^ (mw + ew) < 2).
    { rewrite Z.pow_add_r in Hv by lia. assert (0 < 2 ^ (mw + ew)) by (apply Z.pow_pos_nonneg; lia).
      split; [apply Z.div_pos; lia|apply Z.div_lt_upper_bound; lia]. }
    assert (v / 2 ^ (mw + ew) = 0 ∨ v / 2 ^ (mw + ew) = 1) as [-> | ->] by lia; done. }
  assert (Hval : v = Z.b2z s * (M * W) + E * M + m).
  { unfold E, m. rewrite Z.shiftr_div_pow2 by lia. fold M. pose proof (Z.div_mod v M ltac:(lia)).
    pose proof (Z.div_mod (v / M) W ltac:(lia)) as Hd. rewrite Hs in Hd. nia. }
  assert (Hsign : (if s then 2 ^ (mw + ew) else 0) = Z.b2z s * (M * W)).
  { rewrite Z.pow_add_r by lia. fold M W. destruct s; simpl Z.b2z; lia. }
  unfold ieee_encode. fold M W. destruct (Z.eqb_spec E 0) as [HE0|HE0].
  - destruct m as [|p|p]; [rewrite Hsign; lia| |lia]. rewrite Hsign. replace (Zpos p <? M) with true by lia. lia.
  - destruct (Z.eqb_spec E (W - 1)) as [HE1|HE1].
    + destruct (Z.eqb_spec m 0) as [Hm0|]; [|done]. rewrite Hsign. lia.
    + destruct (m + M) as [|p|p] eqn:Hp; [lia| |lia]. rewrite Hsign. replace (Zpos p <? M) with false by lia. 
      replace (E - (2 ^ (ew - 1) - 1) - mw + (2 ^ (ew - 1) - 1) + mw) with E by lia. lia.
Qed.

(** The numbers of [float]. *)
Lemma float_canonical v s m e :
  decode_float v = S754_finite s m e → Zpos m < 2 ^ 24 ∧ -149 ≤ e ≤ 104 ∧ @canonical single_format m e.
Proof.
  unfold decode_float, ieee_decode. cbv zeta. set (E := Z.shiftr v 23 mod 2 ^ 8). set (k := v mod 2 ^ 23).
  assert (Hk : 0 ≤ k < 2 ^ 23) by (apply Z.mod_pos_bound; lia). assert (HE : 0 ≤ E < 2 ^ 8) by (apply Z.mod_pos_bound; lia).
  unfold canonical, fexp. change (@F_prec single_format) with 24. change (@F_emax single_format) with 128.
  change (emin 24 128) with (-149). change (2 ^ (8 - 1) - 1) with 127. change (2 ^ 8 - 1) with 255.
  destruct (Z.eqb_spec E 0) as [H0|H0].
  - destruct k as [|p|p]; try done. intros [= <- <- <-]. pose proof (digits2_bounds p) as Hd.
    assert (Zpos (digits2_pos p) ≤ 23).
    { destruct (Z.leb_spec (Zpos (digits2_pos p)) 23); [done|]. pose proof (Z.pow_le_mono_r 2 23 (Zpos (digits2_pos p) - 1)). lia. }
    lia.
  - destruct (Z.eqb_spec E 255); [by destruct (k =? 0)|]. destruct (k + 2 ^ 23) as [|p|p] eqn:Hp; try done. intros [= <- <- <-].
    rewrite (digits2_unique p 24) by lia. lia.
Qed.

(** Widening a [float] and narrowing it again. *)
Lemma float_widen v s m e :
  decode_float v = S754_finite s m e → ∃ q f,
    @F_round double_format (S754_finite s m e) = S754_finite s q f ∧ 2 ^ 52 ≤ Zpos q < 2 ^ 53 ∧ -300 ≤ f ≤ 104 ∧
    @F_round single_format (S754_finite s q f) = S754_finite s m e.
Proof.
  intros Hv. destruct (float_canonical v s m e Hv) as (Hm & He & Hc). pose proof (digits2_bounds m) as Hd.
  set (d := Zpos (digits2_pos m)) in *.
  assert (Hd24 : d ≤ 24) by (destruct (Z.leb_spec d 24); [done|]; pose proof (Z.pow_le_mono_r 2 24 (d - 1)); lia).
  assert (Hround : ∀ F m e, @F_round F (S754_finite s m e) = binary_round (@F_prec F) (@F_emax F) s m e) by (intros; by destruct s).
  assert (Hf : fexp 53 1024 (d + e) = e - (53 - d)).
  { unfold fexp. change (emin 53 1024) with (-1074). unfold d in *. lia. }
  destruct (shl_align_value m e (e - (53 - d))) as (q & f & Hal & Hfe & Hq).
  rewrite Z.min_r in Hfe by lia. subst f. replace (e - (e - (53 - d))) with (53 - d) in Hq by lia.
  assert (Hqn : 2 ^ 52 ≤ Zpos q < 2 ^ 53).
  { assert (H52 : 2 ^ 52 = 2 ^ (d - 1) * 2 ^ (53 - d)) by (rewrite <- Z.pow_add_r by lia; f_equal; lia).
    assert (H53 : 2 ^ 53 = 2 ^ d * 2 ^ (53 - d)) by (rewrite <- Z.pow_add_r by lia; f_equal; lia).
    rewrite Hq, H52, H53. pose proof (Z.pow_pos_nonneg 2 (53 - d) ltac:(lia) ltac:(lia)). nia. }
  assert (Hdq : Zpos (digits2_pos q) = 53) by (by apply digits2_unique).
  exists q, (e - (53 - d)). split_and!; try lia.
  - rewrite Hround. unfold binary_round. change (@F_prec double_format) with 53. change (@F_emax double_format) with 1024.
    fold d. rewrite Hf, Hal. pose proof (@round_aux_canonical double_format s q (e - (53 - d)) 0) as Hr.
    rewrite Z.mul_1_r, Z.sub_0_r in Hr. apply Hr; [done| |].
    + unfold canonical. rewrite Hdq. change (@F_prec double_format) with 53. change (@F_emax double_format) with 1024.
      unfold fexp. change (emin 53 1024) with (-1074). lia.
    + change (@F_emax double_format - @F_prec double_format) with 971. lia.
  - rewrite Hround. unfold binary_round. change (@F_prec single_format) with 24. change (@F_emax single_format) with 128.
    rewrite Hdq. replace (53 + (e - (53 - d))) with (d + e) by lia.
    assert (Hfe : fexp 24 128 (d + e) = e) by exact Hc. rewrite Hfe.
    destruct (shl_align_value q (e - (53 - d)) e) as (q' & f' & -> & Hf' & Hq'). rewrite Z.min_l in Hf' by lia. subst f'.
    rewrite Z.sub_diag, Z.mul_1_r in Hq'. rewrite Hq', Hq.
    apply (@round_aux_canonical single_format); [lia|exact Hc|]. change (@F_emax single_format - @F_prec single_format) with 104. lia.
Qed.

Lemma double_to_float_to_double `{NanBits} v :
  sample_ok PCM_SAMPLE_FMT_FLT v → double_to_float (float_to_double v mod 2 ^ 64) = v.
Proof.
  intros [Hv Hn]. change (is_nan (decode_float v) = false) in Hn. change (2 ^ (8 * pcm_width PCM_SAMPLE_FMT_FLT)) with (2 ^ 32) in Hv.
  pose proof (ieee_recode 23 8 v ltac:(lia) ltac:(lia) Hv Hn) as Hback. fold decode_float encode_float in Hback.
  unfold float_to_double. rewrite Hn. destruct (decode_float v) as [s|s| |s m e] eqn:Hd; [| |done|].
  - unfold double_to_float. rewrite <- Hback. by destruct s.
  - unfold double_to_float. rewrite <- Hback. by destruct s.
  - destruct (float_widen v s m e Hd) as (q & f & -> & Hq & Hf & Hb).
    destruct (ieee_code 52 11 s q f) as [Hr Hc]; [lia|lia|exact Hq|change (2 ^ (11 - 1) - 1) with 1023; lia|].
    change (52 + 11 + 1) with 64 in Hr. unfold double_to_float, encode_double, decode_double. rewrite Z.mod_small by done.
    rewrite Hc. simpl is_nan. cbv iota. by rewrite Hb.
Qed.

(** * Round trips *)

#[global] Instance fl_format_ok fmt : FloatOk (fl_format fmt).
Proof. unfold fl_format. destruct (fmt =? PCM_SAMPLE_FMT_FLT); apply _. Qed.

Lemma u8_decentre `{!FloatOk F} x : -128 ≤ x < 128 → fl_add F (fl_of_int F x) (fl_of_int F 128) = fl_of_int F (x + 128).
Proof.
  intros Hx. apply number_eqb_eq. assert (Hv : 0 ≤ x + 128 < 256) by lia. replace x with (x + 128 - 128) at 1 by lia.
  generalize dependent (x + 128). intros v Hv. destruct FloatOk0 as [-> | ->].
  - by table_check (λ v, number_eqb (fl_add single_format (fl_of_int single_format (v - 128)) (fl_of_int single_format 128))
      (fl_of_int single_format v)) 256 Hv.
  - by table_check (λ v, number_eqb (fl_add double_format (fl_of_int double_format (v - 128)) (fl_of_int double_format 128))
      (fl_of_int double_format v)) 256 Hv.
Qed.

(** An integer sample as a number. *)
Lemma int_to_fl_value f g v :
  0 ≤ f ≤ 7 → is_int f = true → sample_ok f v →
  int_to_fl f g v = @F_div (fl_format g) (@F_of_Z (fl_format g) (int_of f v)) (@F_of_Z (fl_format g) (2 ^ (pcm_bits f - 1))).
Proof.
  intros Hf Hi [Hv _]. format_cases Hf; try done. unfold int_to_fl. change (0 =? PCM_SAMPLE_FMT_U8) with true. cbv iota zeta.
  unfold fl_sub, fl_of_int, fl_div. change (2 ^ (8 * pcm_width 0)) with 256 in Hv. by rewrite u8_centered by done.
Qed.

(** Its bits give it back. *)
Lemma fl_recode g x k :
  PCM_SAMPLE_FMT_FLT ≤ g ≤ PCM_SAMPLE_FMT_DBL → Z.abs x ≤ 2 ^ k → 0 ≤ k ≤ 31 → k < @F_prec (fl_format g) →
  let y := @F_div (fl_format g) (@F_of_Z (fl_format g) x) (@F_of_Z (fl_format g) (2 ^ k)) in
  fl_decode g (fl_encode g y mod 2 ^ (8 * pcm_width g)) = y.
Proof.
  intros Hg Hx Hk Hp. cbv zeta. unfold PCM_SAMPLE_FMT_FLT, PCM_SAMPLE_FMT_DBL in Hg.
  assert (Hk' : 0 ≤ k < @F_prec (fl_format g)) by lia.
  destruct (scaled_form x k Hx Hk' (proj2 Hk)) as [-> |(s & m & e & -> & Hm & He)].
  - assert (g = 6 ∨ g = 7) as [-> | ->] by lia; done.
  - unfold normal in Hm. assert (g = 6 ∨ g = 7) as [-> | ->] by lia.
    + destruct (ieee_code 23 8 s m e) as [Hr Hc]; [lia|lia|exact Hm|change (2 ^ (8 - 1) - 1) with 127; lia|].
      change (fl_decode 6) with (ieee_decode 23 8). change (fl_encode 6) with (ieee_encode 23 8).
      change (2 ^ (8 * pcm_width 6)) with (2 ^ (23 + 8 + 1)). by rewrite Z.mod_small.
    + destruct (ieee_code 52 11 s m e) as [Hr Hc]; [lia|lia|exact Hm|change (2 ^ (11 - 1) - 1) with 1023; lia|].
      change (fl_decode 7) with (ieee_decode 52 11). change (fl_encode 7) with (ieee_encode 52 11).
      change (2 ^ (8 * pcm_width 7)) with (2 ^ (52 + 11 + 1)). by rewrite Z.mod_small.
Qed.

(** Formats that hold every sample of another one. *)
Definition wide_enough (f g : Z) : bool :=
  if is_int f then
    if is_int g then pcm_bits f <=? pcm_bits g else (g =? PCM_SAMPLE_FMT_DBL) || (pcm_bits f <=? 24)
  else (f =? g) || (f =? PCM_SAMPLE_FMT_FLT) && (g =? PCM_SAMPLE_FMT_DBL).

Lemma int_fl_int f g v :
  0 ≤ f ≤ 7 → is_int f = true → PCM_SAMPLE_FMT_FLT ≤ g ≤ PCM_SAMPLE_FMT_DBL → wide_enough f g = true → sample_ok f v →
  fl_to_int g f (fl_encode g (int_to_fl f g v) mod 2 ^ (8 * pcm_width g)) = Some (of_int f (int_of f v)).
Proof.
  intros Hf Hi Hg Hw Hok. rewrite int_to_fl_value by done. destruct Hok as [Hv Hr]. rewrite Hi in Hr.
  set (x := int_of f v) in *. set (k := pcm_bits f - 1) in *. pose proof (pcm_bits_range f) as Hb.
  assert (Hk : 0 ≤ k < @F_prec (fl_format g) ∧ (f = PCM_SAMPLE_FMT_S32 → @F_prec (fl_format g) = 53) ∧ 24 ≤ @F_prec (fl_format g)).
  { unfold PCM_SAMPLE_FMT_FLT, PCM_SAMPLE_FMT_DBL in Hg. assert (g = 6 ∨ g = 7) as [-> | ->] by lia.
    - change (@F_prec (fl_format 6)) with 24. unfold wide_enough in Hw. rewrite Hi in Hw. simpl in Hw. 
      split_and!; [lia|lia| |lia]. intros ->. done.
    - change (@F_prec (fl_format 7)) with 53. lia. }
  destruct Hk as (Hk & H32 & H24). assert (Hpow : 2 ^ k < 2 ^ @F_prec (fl_format g)) by (apply Z.pow_lt_mono_r; lia).
  assert (H224 : 2 ^ 24 ≤ 2 ^ @F_prec (fl_format g)) by (apply Z.pow_le_mono_r; lia).
  assert (Hx : Z.abs x ≤ 2 ^ k) by lia.
  pose proof (fl_recode g x k Hg Hx ltac:(lia) ltac:(lia)) as Hre. cbv zeta in Hre.
  unfold fl_to_int. cbv zeta. fold k. rewrite Hre. unfold fl_mul. unfold fl_of_int at 1 3.
  destruct (scale_exact x k Hx Hk) as [Hmul _]. unfold fl_of_int. rewrite Hmul. fold (fl_of_int (fl_format g)).
  destruct (Z.eqb_spec f PCM_SAMPLE_FMT_U8) as [-> |Hu].
  - change (k) with 7 in *. rewrite u8_decentre by lia. rewrite fl_clip_in by lia.
    change (of_int PCM_SAMPLE_FMT_U8 x) with (x + 128). apply F_to_int_of_Z; lia.
  - unfold of_int. replace (f =? PCM_SAMPLE_FMT_U8) with false by lia.
    assert (Hk31 : 2 ^ k ≤ 2 ^ 31) by (apply Z.pow_le_mono_r; lia).
    destruct (Z.eqb_spec f PCM_SAMPLE_FMT_S32) as [H5|H5].
    + apply F_to_int_of_Z; lia.
    + rewrite fl_clip_in by lia. apply F_to_int_of_Z; lia.
Qed.

(** A sample survives the conversion to a wide enough format and back. *)
Lemma sample_roundtrip `{NanBits} f g v :
  0 ≤ f ≤ 7 → 0 ≤ g ≤ 7 → f ≠ g → wide_enough f g = true → sample_ok f v →
  ∃ x y, convert_sample f g v = Some x ∧ convert_sample g f (x mod 2 ^ (8 * pcm_width g)) = Some y ∧
    y mod 2 ^ (8 * pcm_width f) = v.
Proof.
  intros Hf Hg Hne Hw Hok. pose proof Hok as [Hv Hr]. unfold convert_sample.
  destruct (is_int f) eqn:Hif, (is_int g) eqn:Hig.
  - unfold wide_enough in Hw. rewrite Hif, Hig in Hw. pose proof (pcm_bits_range f). pose proof (pcm_bits_range g).
    destruct (shiftl_range (int_of f v) (pcm_bits f) (pcm_bits g) ltac:(lia) Hr) as [Hrange Hback].
    do 2 eexists. split; [done|]. split; [done|]. rewrite int_of_of_int by done. rewrite Hback. by apply of_int_int_of.
  - assert (Hg67 : PCM_SAMPLE_FMT_FLT ≤ g ≤ PCM_SAMPLE_FMT_DBL) by (unfold is_int, PCM_SAMPLE_FMT_FLT, PCM_SAMPLE_FMT_DBL in *; lia).
    do 2 eexists. split; [done|]. split; [by apply int_fl_int|]. by apply of_int_int_of.
  - unfold wide_enough in Hw. rewrite Hif in Hw. unfold is_int, PCM_SAMPLE_FMT_FLT, PCM_SAMPLE_FMT_DBL in *. lia.
  - unfold wide_enough in Hw. rewrite Hif in Hw. assert (f = PCM_SAMPLE_FMT_FLT ∧ g = PCM_SAMPLE_FMT_DBL) as [-> ->] by lia.
    do 2 eexists. split; [done|]. split; [done|].
    change (2 ^ (8 * pcm_width PCM_SAMPLE_FMT_DBL)) with (2 ^ 64). simpl. rewrite (double_to_float_to_double v Hok). by apply Z.mod_small.
Qed.

(** C22: Converting samples of one format to a format that is wide
    enough (an integer format of at least as many bits, [double], [float] for at most
    24 bits, [double] for [float]) and back is defined and gives the bytes back;
    the samples use the range of their format and, for [float], are not NaN. *)
Theorem pcm_conversion_roundtrip `{Target} `{NanBits} f g vs mid dest old :
  0 ≤ f ≤ 7 → 0 ≤ g ≤ 7 → f ≠ g → wide_enough f g = true → Forall (sample_ok f) vs →
  zlen mid = zlen vs * pcm_width g → zlen dest = zlen vs * pcm_width f →
  ∃ fn back mid', choose_converter f g old = Some fn ∧ choose_converter g f old = Some back ∧
    fn mid (words (pcm_width f) vs) (zlen vs) = Some mid' ∧ back dest mid' (zlen vs) = Some (words (pcm_width f) vs).
Proof.
  intros Hf Hg Hne Hw Hok Hmid Hdest.
  destruct (converter_is_sample_loop f g old Hf Hg) as (fn & Hfn & Hloop).
  destruct (converter_is_sample_loop g f old Hg Hf) as (back & Hback & Hloop').
  assert (Hpos : ∀ fmt, 0 < pcm_width fmt) by (intros; unfold pcm_width; repeat case_match; lia).
  assert (Hall : ∃ xs ys, Forall2 (λ v x, convert_sample f g (v mod 2 ^ (8 * pcm_width f)) = Some x) vs xs ∧
    Forall2 (λ x y, convert_sample g f (x mod 2 ^ (8 * pcm_width g)) = Some y) xs ys ∧
    map (λ y, y mod 2 ^ (8 * pcm_width f)) ys = vs ∧ length xs = length vs).
  { clear Hmid Hdest. induction Hok as [|v vs Hv Hvs IH]; [by exists [], []|]. destruct IH as (xs & ys & H1 & H2 & H3 & H4).
    destruct (sample_roundtrip f g v Hf Hg Hne Hw Hv) as (x & y & Hx & Hy & Hm). exists (x :: xs), (y :: ys).
    split_and!; [|by constructor|simpl; by rewrite Hm, H3|simpl; by rewrite H4]. constructor; [|done].
    destruct Hv as [Hv _]. by rewrite Z.mod_small. }
  destruct Hall as (xs & ys & H1 & H2 & H3 & H4). assert (Hlen : zlen xs = zlen vs) by (unfold zlen; lia).
  exists fn, back, (words (pcm_width g) xs). split; [done|]. split; [done|].
  rewrite Hloop, Hloop'. replace (f =? g) with false by lia. replace (g =? f) with false by lia.
  pose proof (Hpos f). pose proof (Hpos g). split.
  - rewrite <- (app_nil_r (words (pcm_width f) vs)). rewrite (element_loop_words _ _ _ _ _ xs) by (done || lia).
    f_equal. rewrite drop_ge by (unfold zlen in *; lia). apply app_nil_r.
  - rewrite <- (app_nil_r (words (pcm_width g) xs)). rewrite <- Hlen. rewrite (element_loop_words _ _ _ _ _ ys) by (done || lia).
    f_equal. rewrite drop_ge by (unfold zlen in *; lia). rewrite app_nil_r, <- H3. by rewrite words_mod by lia.
Qed.

(** 16-bit samples through [float] on a big-endian host. *)
Lemma pcm_conversion_roundtrip_witness :
  let T := {| words_bigendian := true |} in
  let N := {| nan_to_float := id; nan_to_double := id |} in
  ∃ fn back mid', choose_converter PCM_SAMPLE_FMT_S16 PCM_SAMPLE_FMT_FLT None = Some fn ∧
    choose_converter PCM_SAMPLE_FMT_FLT PCM_SAMPLE_FMT_S16 None = Some back ∧
    fn (replicate 12 0) (words 2 [1; 32768; 65535]) 3 = Some mid' ∧
    back (replicate 6 7) mid' 3 = Some (words 2 [1; 32768; 65535]).
Proof.
  intros T N.
  apply (pcm_conversion_roundtrip PCM_SAMPLE_FMT_S16 PCM_SAMPLE_FMT_FLT [1; 32768; 65535] (replicate 12 0) (replicate 6 7) None);
    [vm_compute; intuition discriminate|vm_compute; intuition discriminate|done|done| |done|done].
  repeat constructor; vm_compute; intuition discriminate.
Defined.
