(* ===== verification/PcmFile.v ===== *)
(** [pcm/pcm_io.c], with the structure of [pcm/pcmfile.h] and the setters of
    [pcm/pcm_convert.c]: one input file of the PCM library, seeking in it and
    reading samples from it.  The theorems show which samples a read
    returns, and where reading and seeking go wrong. *)
From Stdlib Require Import ZArith Lia ZifyBool Bool.
From stdpp Require Import base option list numbers.
From coqutil Require Import Datatypes.RecordSettersUsingExistingGetters.
From S2P Require Import Prelude CMachine Float Convert ByteIO PcmConvert.
Local Open Scope Z_scope.
Local Open Scope carray_scope.

(** * [pcmfile.h] *)

Definition PCM_SEEK_SET : Z := 0.
Definition PCM_SEEK_CUR : Z := 1.
Definition PCM_SEEK_END : Z := 2.
Definition PCM_MAX_READ : Z := 240000.
Definition PCM_MAX_CHANNELS : Z := 6.
Definition WAVE_FORMAT_PCM : Z := 0x0001.
Definition WAVE_FORMAT_IEEEFLOAT : Z := 0x0003.
Definition WAVE_FORMAT_EXTENSIBLE : Z := 0xFFFE.
Definition PCM_SAMPLE_TYPE_INT : Z := 0.
Definition PCM_SAMPLE_TYPE_FLOAT : Z := 1.
Definition PCM_BYTE_ORDER_LE : Z := 0.
Definition PCM_BYTE_ORDER_BE : Z := 1.

(** [io] is [None] once the file is closed; [pcm_format] is the number of the
    format it points to. *)
Module PcmFile.
Record t `{Target} `{NanBits} := mk {
  fmt_convert : option fmt_converter;
  io : option ByteIOContext.t;
  filepos : Z;
  seekable : bool;
  read_to_eof : Z;
  file_size : Z;
  data_start : Z;
  data_size : Z;
  samples : Z;
  sample_type : Z;
  file_format : Z;
  pcm_format : option Z;
  order : Z;
  channels : Z;
  ch_mask : Z;
  sample_rate : Z;
  block_align : Z;
  bit_width : Z;
  source_format : Z;
  read_format : Z;
  internal_fmt : Z
}.
End PcmFile.

(** [int] and [int64_t] results outside their type are undefined. *)
Definition chk_int (x : Z) : option Z := if (- 2 ^ 31 <=? x) && (x <? 2 ^ 31) then Some x else None.
Definition chk_int64 (x : Z) : option Z := if (- 2 ^ 63 <=? x) && (x <? 2 ^ 63) then Some x else None.

Definition nch_to_mask : list Z := [0x04; 0x03; 0x103; 0x107; 0x37; 0x3F].
Definition pcm_get_default_ch_mask (channels : Z) : option Z :=
  if (channels <? 1) || (channels >? 6) then Some 0 else aget nch_to_mask (channels - 1).

Section pcmfile.
Context `{Target} `{NanBits}.
Import PcmFile.

(** * Source and read format *)

Definition fmt_bits : list Z := [8; 8; 16; 20; 24; 32; 32; 64].

Definition pcmfile_set_source_format (fmt : Z) (pf : PcmFile.t) : option PcmFile.t :=
  let fmt := CLIP fmt PCM_SAMPLE_FMT_U8 PCM_SAMPLE_FMT_DBL in
  bits ← aget fmt_bits fmt;
  let pf := pf <| source_format := fmt |> <| bit_width := bits |>
    <| fmt_convert := choose_converter fmt (read_format pf) (fmt_convert pf) |>
    <| sample_type := (if (fmt =? PCM_SAMPLE_FMT_FLT) || (fmt =? PCM_SAMPLE_FMT_DBL)
                       then PCM_SAMPLE_TYPE_FLOAT else PCM_SAMPLE_TYPE_INT) |>
    <| block_align := MAX 1 (Z.shiftr (bits + 7) 3 * channels pf) |> in
  Some (pf <| samples := data_size pf / block_align pf |>).

Definition pcmfile_set_source_params (ch fmt ord sr : Z) (pf : PcmFile.t) : option PcmFile.t :=
  mask ← pcm_get_default_ch_mask ch;
  pcmfile_set_source_format fmt
    (pf <| channels := MAX ch 1 |> <| ch_mask := mask |> <| order := CLIP ord PCM_BYTE_ORDER_LE PCM_BYTE_ORDER_BE |>
        <| sample_rate := MAX sr 1 |>).

Definition pcmfile_set_read_format (fmt : Z) (pf : PcmFile.t) : option PcmFile.t :=
  pcmfile_set_source_format (source_format pf) (pf <| read_format := CLIP fmt PCM_SAMPLE_FMT_U8 PCM_SAMPLE_FMT_DBL |>).

(** * Seeking *)

(** Forward seeking by reading blocks of 1024 bytes, and the rest; what
    [byteio_read] returns is not looked at. *)
Definition skip_bytes (n : Z) (ctx : ByteIOContext.t) : option ByteIOContext.t :=
  '(n, ctx) ← while_loop (Z.to_nat (n / 1024)) (λ '(n, _), n >? 1024)
    (λ '(n, ctx), '(_, ctx) ← byteio_read 1024 ctx; Some (n - 1024, ctx)) (n, ctx);
  '(_, ctx) ← byteio_read n ctx;
  Some ctx.

(** [fseek] by absolute offset in the first 2 GB, otherwise relative; [None]:
    it fails, [Some (slow, fp)] otherwise. *)
Definition seek_file (dest filepos : Z) (fp : FILE.t) : option (bool * FILE.t) :=
  if dest <=? 2147483647 then fp ← fseek fp dest SEEK_SET; Some (false, fp)
  else
    let offset := i64 (u64 (i64 dest - i64 filepos)) in
    if (offset >=? -2147483648) && (offset <=? 2147483647) then fp ← fseek fp offset SEEK_CUR; Some (false, fp)
    else if offset <? 0 then None
    else Some (true, fp).

(** The value returned, and the file. *)
Definition pcmfile_seek_set (dest : Z) (pf : PcmFile.t) : option (Z * PcmFile.t) :=
  ctx ← io pf;
  match
    (if seekable pf then
       match seek_file dest (filepos pf) (ByteIOContext.fp ctx) with
       | Some (slow, fp) => Some (slow, byteio_flush (ctx <| ByteIOContext.fp := fp |>))
       | None => None
       end
     else Some (true, ctx))
  with
  | None => Some (-1, pf)
  | Some (slow, ctx) =>
      if slow then
        if dest <? filepos pf then Some (-1, pf <| io := Some ctx |>)
        else ctx ← skip_bytes (dest - filepos pf) ctx; Some (0, pf <| io := Some ctx |> <| filepos := dest |>)
      else Some (0, pf <| io := Some ctx |> <| filepos := dest |>)
  end.

Definition pcmfile_seek_samples (offset whence : Z) (pf : PcmFile.t) : option (Z * PcmFile.t) :=
  match io pf with
  | None => Some (-1, pf)
  | Some _ =>
      if block_align pf <=? 0 then Some (-1, pf)
      else if filepos pf <? data_start pf then Some (-1, pf)
      else if data_size pf =? 0 then Some (0, pf)
      else
        let fpos := filepos pf in let dst := data_start pf in let dsz := data_size pf in
        byte_offset ← chk_int64 (offset * block_align pf);
        newpos ←
          (if whence =? PCM_SEEK_SET then Some (Some (u64 (dst + CLIP byte_offset 0 (i64 dsz))))
           else if whence =? PCM_SEEK_CUR then
             neg ← chk_int64 (- byte_offset);
             Some (Some (MIN (u64 (fpos - MIN neg (i64 (u64 (fpos - dst))))) (u64 (dst + dsz))))
           else if whence =? PCM_SEEK_END then Some (Some (u64 (dst + dsz - CLIP byte_offset 0 (i64 dsz))))
           else Some None);
        match newpos with
        | None => Some (-1, pf)
        | Some newpos => '(r, pf) ← pcmfile_seek_set newpos pf; Some ((if r =? 0 then 0 else -1), pf)
        end
  end.

Definition pcmfile_seek_time_ms (offset whence : Z) (pf : PcmFile.t) : option (Z * PcmFile.t) :=
  p ← chk_int64 (offset * sample_rate pf);
  pcmfile_seek_samples (Z.quot p 1000) whence pf.

Definition pcmfile_position (pf : PcmFile.t) : Z :=
  if block_align pf <=? 0 then u64 (-1)
  else if (data_start pf =? 0) || (data_size pf =? 0) then 0
  else u64 (filepos pf - data_start pf) / block_align pf.

Definition pcmfile_position_time_ms (pf : PcmFile.t) : option Z :=
  let sr := u64 (sample_rate pf) in
  if sr =? 0 then None else Some (u64 (pcmfile_position pf * 1000) / sr).

(** * Reading *)

Definition PCM_NON_NATIVE_BYTE_ORDER : Z := if words_bigendian then PCM_BYTE_ORDER_LE else PCM_BYTE_ORDER_BE.

(** [for (i = 0; i < nsmp; i++) buf[i] = bswap(buf[i])] on words of [w] bytes. *)
Definition swap_words (w : Z) (bswap : Z → Z) (nsmp : Z) (buffer : list Z) : option (list Z) :=
  for_up 0 nsmp (λ i b, v ← load w b i; store w b i (bswap v)) buffer.

(** [v <<= unused_bits; v >>= unused_bits] *)
Definition sign_extend (unused_bits v : Z) : option Z :=
  if (0 <=? unused_bits) && (unused_bits <? 32) then Some (Z.shiftr (i32 (Z.shiftl v unused_bits)) unused_bits) else None.

(** The three-byte samples from [rb] on, which are widened from the start of
    the buffer they are in; four bytes are read for each. *)
Definition widen_words (ord bit_width rb nsmp : Z) (buffer : list Z) : option (list Z) :=
  let unused_bits := 32 - bit_width in
  for_up 0 nsmp (λ j b,
    x ← load 4 (drop (Z.to_nat (rb + j * 3)) b) 0;
    v ← sign_extend unused_bits (i32 (if ord =? PCM_NON_NATIVE_BYTE_ORDER then bswap_32 (u32 (Z.shiftl x 8)) else x));
    store 4 b j v) buffer.

(** The [switch] on the bytes of a sample. *)
Definition native_words (bps ord bit_width rb nsmp : Z) (buffer : list Z) : option (list Z) :=
  let swap := ord =? PCM_NON_NATIVE_BYTE_ORDER in
  if bps =? 2 then if swap then swap_words 2 bswap_16 nsmp buffer else Some buffer
  else if bps =? 3 then widen_words ord bit_width rb nsmp buffer
  else if bps =? 4 then if swap then swap_words 4 bswap_32 nsmp buffer else Some buffer
  else if bps =? 8 then if swap then swap_words 8 bswap_64 nsmp buffer else Some buffer
  else Some buffer.

(** The bytes and samples a read asks for, after the limit and the end of the
    data chunk. *)
Definition read_request (pf : PcmFile.t) (num_samples : Z) : option (Z * Z) :=
  let num_samples := MIN num_samples PCM_MAX_READ in
  b ← chk_int (block_align pf * num_samples);
  let bytes_needed := u32 b in
  if (read_to_eof pf =? 0) && (u64 (filepos pf + bytes_needed) >=? u64 (data_start pf + data_size pf)) then
    let bytes_needed := u32 (u64 (data_start pf + data_size pf) - filepos pf) in
    Some (bytes_needed, i32 (bytes_needed / block_align pf))
  else Some (bytes_needed, num_samples).

(** The value returned, the output and the file. *)
Definition pcmfile_read_samples (pf : PcmFile.t) (output : list Z) (num_samples : Z) : option (Z * list Z * PcmFile.t) :=
  match io pf, fmt_convert pf with
  | Some ctx, Some convert =>
      if block_align pf <=? 0 then Some (-1, output, pf)
      else
        '(bytes_needed, num_samples) ← read_request pf num_samples;
        if num_samples <=? 0 then Some (0, output, pf)
        else
          bps ← (if channels pf =? 0 then None else Some (Z.quot (block_align pf) (channels pf)));
          let buffer_size := if bps =? 3 then u32 (num_samples * 4 * channels pf) else bytes_needed in
          let buffer := replicate (Z.to_nat (u32 (buffer_size + 1))) 0 in
          let read_buffer := u32 (buffer_size - bytes_needed) in
          '(got, ctx) ← byteio_read (i32 bytes_needed) ctx;
          buffer ← memcpy buffer read_buffer got 0 (zlen got);
          let pf := pf <| io := Some ctx |> in
          if zlen got <=? 0 then Some (zlen got, output, pf)
          else
            let pf := pf <| filepos := u64 (filepos pf + zlen got) |> in
            let nr := zlen got / block_align pf in
            let nsmp := nr * channels pf in
            buffer ← native_words bps (order pf) (bit_width pf) read_buffer nsmp buffer;
            output ← convert output buffer nsmp;
            Some (nr, output, pf)
  | _, _ => Some (-1, output, pf)
  end.
End pcmfile.

(** * Positions *)

Definition byte (b : Z) : Prop := 0 ≤ b < 256.

(** The file [bytes] is open, and what is left to read is what follows the
    position.  [filepos] is ahead of the descriptor only behind the end. *)
Record pcm_ok `{Target} `{NanBits} (bytes : list Z) (pf : PcmFile.t) (ctx : ByteIOContext.t) : Prop := {
  ok_io : PcmFile.io pf = Some ctx;
  ok_ctx : io_ok ctx;
  ok_content : FILE.content (ByteIOContext.fp ctx) = bytes;
  ok_seek : FILE.can_seek (ByteIOContext.fp ctx) = PcmFile.seekable pf;
  ok_stream : stream ctx = drop (Z.to_nat (PcmFile.filepos pf)) bytes;
  ok_pos : 0 ≤ PcmFile.filepos pf;
  ok_bytes : Forall byte bytes
}.

Section specs.
Context `{Target} `{NanBits}.
Implicit Types pf : PcmFile.t.

(** Only the position and the buffer of [pf'] differ from those of [pf]. *)
Definition moved (pf : PcmFile.t) (ctx : ByteIOContext.t) (pos : Z) : PcmFile.t :=
  pf <| PcmFile.io := Some ctx |> <| PcmFile.filepos := pos |>.

Lemma same_file_trans c1 c2 c3 : same_file c1 c2 → same_file c2 c3 → same_file c1 c3.
Proof. intros [] []. split; congruence. Qed.

Lemma skip_bytes_spec n ctx :
  io_ok ctx → 0 ≤ n →
  wp (skip_bytes n ctx) (λ ctx', io_ok ctx' ∧ same_file ctx ctx' ∧ stream ctx' = drop (Z.to_nat n) (stream ctx)).
Proof.
  intros Hok Hn. unfold skip_bytes. apply wp_bind.
  apply (wp_while (λ '(m, c), io_ok c ∧ same_file ctx c ∧ 0 ≤ m ≤ n ∧ stream c = drop (Z.to_nat (n - m)) (stream ctx))
    (λ '(m, _), Z.to_nat (m / 1024))).
  - split_and!; try done; try lia. by rewrite Z.sub_diag.
  - done.
  - intros [m c] (Hc & Hs & Hm & Hst) Hgt. apply wp_bind. eapply wp_mono; [by apply byteio_read_spec|].
    intros [out c'] (Hc' & Hs' & _ & _ & Hst'). cbn [wp]. split_and!; try done; try lia; try by eapply same_file_trans.
    + rewrite Hst', Hst, drop_drop. f_equal. lia.
    + apply Z2Nat.inj_lt; [apply Z.div_pos; lia|apply Z.div_pos; lia|].
      replace m with (m - 1024 + 1 * 1024) at 2 by lia. rewrite Z.div_add by lia. lia.
  - intros [m c] (Hc & Hs & Hm & Hst) _. apply wp_bind. eapply wp_mono; [apply byteio_read_spec; [done|lia]|].
    intros [out c'] (Hc' & Hs' & _ & _ & Hst'). cbn [wp]. split_and!; try done; try by eapply same_file_trans.
    rewrite Hst', Hst, drop_drop. f_equal. lia.
Qed.

(** Seeking in the first 2 GB, or forward in a stream, arrives. *)
Lemma seek_set_spec bytes pf ctx dest :
  pcm_ok bytes pf ctx → 0 ≤ dest → (if PcmFile.seekable pf then dest ≤ 2147483647 else PcmFile.filepos pf ≤ dest) →
  wp (pcmfile_seek_set dest pf) (λ '(r, pf'), r = 0 ∧ ∃ ctx', pf' = moved pf ctx' dest ∧ pcm_ok bytes pf' ctx').
Proof.
  intros [Hio Hctx Hc Hs Hst Hp Hb] Hd Hdest.
  destruct (PcmFile.seekable pf) eqn:Hsk; unfold pcmfile_seek_set; rewrite Hio, Hsk; cbn [mbind option_bind].
  - unfold seek_file, fseek. replace (dest <=? 2147483647) with true by lia. rewrite Hs.
    change (SEEK_SET =? SEEK_SET) with true. cbv iota. replace (true && (0 <=? dest + 0)) with true by lia.
    cbn [mbind option_bind]. cbv iota zeta. rewrite Z.add_0_r. set (c0 := ctx <| ByteIOContext.fp := (ByteIOContext.fp ctx) <| FILE.position := dest |> |>).
    destruct (flush_spec c0 (io_buffer _ Hctx) Hd) as (Hok & [Hs1 Hs2] & _ & Hstr & _).
    split; [done|]. exists (byteio_flush c0). split; [done|]. rewrite <- Hc.
    split; try done; [rewrite Hs2; simpl; congruence|by rewrite Hc].
  - replace (dest <? PcmFile.filepos pf) with false by lia. apply wp_bind.
    eapply wp_mono; [apply (skip_bytes_spec (dest - PcmFile.filepos pf) ctx); [done|lia]|].
    intros ctx' (Hok & [Hs1 Hs2] & Hstr). simpl. split; [done|]. exists ctx'. split; [done|]. split; simpl; try done.
    + congruence.
    + congruence.
    + rewrite Hstr, Hst, drop_drop. f_equal. lia.
Qed.

(** A read advances by what it returns. *)
Lemma read_at bytes pf ctx n :
  pcm_ok bytes pf ctx → 0 ≤ n →
  wp (byteio_read n ctx) (λ '(out, ctx'),
    out = slice bytes (PcmFile.filepos pf) n ∧ pcm_ok bytes (moved pf ctx' (PcmFile.filepos pf + zlen out)) ctx').
Proof.
  intros [Hio Hctx Hc Hs Hst Hp Hb] Hn. eapply wp_mono; [by apply byteio_read_spec|].
  intros [out ctx'] (Hok & [Hs1 Hs2] & _ & -> & Hstr). rewrite Hst in *. split; [done|]. split; simpl; try done.
  - congruence.
  - congruence.
  - rewrite Hstr, drop_drop. unfold zlen. rewrite length_take, length_drop.
    destruct (decide (Z.to_nat n ≤ length bytes - Z.to_nat (PcmFile.filepos pf))%nat); [f_equal; lia|]. rewrite !drop_ge by lia. done.
  - unfold zlen. lia.
Qed.
End specs.

(** * Seeking by samples *)

Section seeking.
Context `{Target} `{NanBits}.
Implicit Types pf : PcmFile.t.

(** The byte a seek goes to: within the data chunk. *)
Definition seek_target (pf : PcmFile.t) (offset whence : Z) : Z :=
  let first := PcmFile.data_start pf in
  let last := PcmFile.data_start pf + PcmFile.data_size pf in
  let bytes := offset * PcmFile.block_align pf in
  if whence =? PCM_SEEK_SET then Z.max first (Z.min last (first + bytes))
  else if whence =? PCM_SEEK_CUR then Z.max first (Z.min last (PcmFile.filepos pf + bytes))
  else Z.max first (Z.min last (last - bytes)).

Lemma chk_int64_in x : - 2 ^ 63 ≤ x < 2 ^ 63 → chk_int64 x = Some x.
Proof. intros. unfold chk_int64. by replace ((- 2 ^ 63 <=? x) && (x <? 2 ^ 63)) with true by lia. Qed.

Lemma i64_id x : - 2 ^ 63 ≤ x < 2 ^ 63 → i64 x = x.
Proof. intros. unfold i64, sext. change (2 ^ (64 - 1)) with (2 ^ 63). rewrite Z.mod_small; lia. Qed.

Lemma u64_id x : 0 ≤ x < 2 ^ 64 → u64 x = x.
Proof. apply Z.mod_small. Qed.

(** Seeking by samples in a seekable file of less than 2 GB, from the
    start of the data, the current position or the end, goes to the byte of the
    wanted sample or to the nearest end of the data, whatever the offset. *)
Theorem pcmfile_seek_samples_correct bytes pf ctx offset whence :
  pcm_ok bytes pf ctx → PcmFile.seekable pf = true → 0 < PcmFile.block_align pf → 0 < PcmFile.data_size pf →
  0 ≤ PcmFile.data_start pf ≤ PcmFile.filepos pf → PcmFile.filepos pf ≤ PcmFile.data_start pf + PcmFile.data_size pf →
  PcmFile.data_start pf + PcmFile.data_size pf ≤ 2147483647 → Z.abs (offset * PcmFile.block_align pf) < 2 ^ 63 →
  PCM_SEEK_SET ≤ whence ≤ PCM_SEEK_END →
  ∃ ctx', let pf' := moved pf ctx' (seek_target pf offset whence) in
    pcmfile_seek_samples offset whence pf = Some (0, pf') ∧ pcm_ok bytes pf' ctx'.
Proof.
  intros Hok Hsk Hba Hds Hst Hpos Hend Hoff Hwh. pose proof (ok_io _ _ _ Hok) as Hio.
  set (T := seek_target pf offset whence).
  assert (HT : PcmFile.data_start pf ≤ T ≤ PcmFile.data_start pf + PcmFile.data_size pf).
  { unfold T, seek_target. repeat case_match; lia. }
  assert (Hseek : wp (pcmfile_seek_set T pf) (λ '(r, pf'), r = 0 ∧ ∃ ctx', pf' = moved pf ctx' T ∧ pcm_ok bytes pf' ctx')).
  { apply (seek_set_spec bytes pf ctx T Hok); [lia|]. rewrite Hsk. lia. }
  apply wp_some in Hseek as ([r pf'] & Hrun & -> & ctx' & -> & Hok'). exists ctx'. cbv zeta. split; [|done].
  unfold pcmfile_seek_samples. rewrite Hio. replace (PcmFile.block_align pf <=? 0) with false by lia.
  replace (PcmFile.filepos pf <? PcmFile.data_start pf) with false by lia. replace (PcmFile.data_size pf =? 0) with false by lia.
  cbv zeta. rewrite chk_int64_in by lia. cbn [mbind option_bind]. rewrite i64_id by lia.
  assert (Hto : ∀ t, t = T → u64 t = T) by (intros t ->; apply u64_id; lia).
  unfold T, seek_target in *. cbv zeta in *. set (bo := offset * PcmFile.block_align pf) in *.
  assert (Hcases : whence = 0 ∨ whence = 1 ∨ whence = 2) by (unfold PCM_SEEK_SET, PCM_SEEK_END in *; lia).
  destruct Hcases as [-> |[-> | ->]]; unfold PCM_SEEK_SET, PCM_SEEK_CUR, PCM_SEEK_END in *; cbn [Z.eqb Pos.eqb] in *; cbv iota in *.
  - cbn [mbind option_bind]. rewrite CLIP_clip, Hto by lia. by rewrite Hrun.
  - rewrite chk_int64_in by lia. cbn [mbind option_bind]. rewrite (u64_id (PcmFile.filepos pf - PcmFile.data_start pf)), i64_id by lia.
    rewrite (u64_id (PcmFile.data_start pf + PcmFile.data_size pf)) by lia. rewrite !MIN_min.
    assert (Ht : Z.min (u64 (PcmFile.filepos pf - Z.min (- bo) (PcmFile.filepos pf - PcmFile.data_start pf))) 
      (PcmFile.data_start pf + PcmFile.data_size pf) = Z.max (PcmFile.data_start pf)
        (Z.min (PcmFile.data_start pf + PcmFile.data_size pf) (PcmFile.filepos pf + bo))).
    { rewrite u64_id by lia. lia. }
    rewrite Ht, Hrun. done.
  - cbn [mbind option_bind]. rewrite CLIP_clip, Hto by lia. by rewrite Hrun.
Qed.

(** * Where reading and seeking go wrong *)

(** In a seekable file, seeking to a byte behind the first 2 GB that is
    less than 2 GB away succeeds and records the byte as the position, but the
    next byte read is as many bytes further on as were in the buffer: the
    relative seek starts from the descriptor, which is ahead of the reader. *)
Theorem far_seek_misses bytes pf ctx dest :
  pcm_ok bytes pf ctx → PcmFile.seekable pf = true → offset ctx = PcmFile.filepos pf →
  2147483647 < dest < 2 ^ 63 → PcmFile.filepos pf < 2 ^ 63 → -2147483648 ≤ dest - PcmFile.filepos pf ≤ 2147483647 →
  ∃ ctx', pcmfile_seek_set dest pf = Some (0, moved pf ctx' dest) ∧
    stream ctx' = drop (Z.to_nat (dest + ByteIOContext.size ctx)) bytes.
Proof.
  intros [Hio Hctx Hc Hs Hst Hp Hb] Hsk Hoff Hd Hf Hdiff. unfold pcmfile_seek_set. rewrite Hio, Hsk. cbn [mbind option_bind].
  unfold seek_file. replace (dest <=? 2147483647) with false by lia. rewrite (i64_id dest), (i64_id (PcmFile.filepos pf)) by lia.
  assert (Hu : i64 (u64 (dest - PcmFile.filepos pf)) = dest - PcmFile.filepos pf).
  { unfold i64, u64. rewrite (sext_mod 64 64) by lia. done. }
  rewrite Hu. cbv zeta. replace ((dest - PcmFile.filepos pf >=? -2147483648) && (dest - PcmFile.filepos pf <=? 2147483647)) with true by lia.
  unfold fseek. rewrite Hs, Hsk. change (SEEK_CUR =? SEEK_SET) with false. change (SEEK_CUR =? SEEK_CUR) with true. cbv iota.
  pose proof (io_pos _ Hctx) as Hpos. pose proof (io_size _ Hctx) as Hsize. unfold offset in Hoff.
  replace (true && (0 <=? dest - PcmFile.filepos pf + FILE.position (ByteIOContext.fp ctx))) with true by lia.
  cbn [mbind option_bind]. cbv iota zeta. eexists. split; [done|].
  replace (dest - PcmFile.filepos pf + FILE.position (ByteIOContext.fp ctx)) with (dest + ByteIOContext.size ctx) by lia.
  set (c0 := ctx <| ByteIOContext.fp := (ByteIOContext.fp ctx) <| FILE.position := dest + ByteIOContext.size ctx |> |>).
  destruct (flush_spec c0 (io_buffer _ Hctx)) as (_ & _ & _ & Hstr & _); [simpl; lia|]. rewrite Hstr. simpl. by rewrite Hc.
Qed.

End seeking.

(** A seek within a file of 100 bytes of data, 4 bytes a sample. *)
Lemma pcmfile_seek_samples_correct_witness :
  let T := {| words_bigendian := false |} in
  let N := {| nan_to_float := id; nan_to_double := id |} in
  let bytes := map Z.of_nat (seq 0 120) in
  let io := byteio_init (FILE.mk bytes 40 true) in
  let pf := PcmFile.mk T N (choose_converter 2 2 None) (Some io) 40 true 0 120 20 100 25 0 0 None PCM_BYTE_ORDER_LE 2 3 48000 4 16 2 2 0 in
  ∃ ctx', pcmfile_seek_samples (-3) PCM_SEEK_CUR pf = Some (0, moved pf ctx' 28) ∧ pcm_ok bytes (moved pf ctx' 28) ctx'.
Proof.
  intros T N bytes io pf. destruct (byteio_init_spec (FILE.mk bytes 40 true) ltac:(simpl; lia)) as (Hio & Hst & _ & Hc & Hs).
  assert (Hok : pcm_ok bytes pf io); [|by apply (pcmfile_seek_samples_correct bytes pf io (-3) PCM_SEEK_CUR Hok); vm_compute; intuition discriminate].
  split; [reflexivity|exact Hio|exact Hc|exact Hs|exact Hst|simpl; lia|]. unfold bytes, byte. apply Forall_map, Forall_seq. simpl. lia.
Defined.

(** From byte 1 to byte 2 GB of a file of 5 bytes: the descriptor ends up 4
    bytes too far. *)
Lemma far_seek_misses_witness :
  let T := {| words_bigendian := false |} in
  let N := {| nan_to_float := id; nan_to_double := id |} in
  let bytes := [1; 2; 3; 4; 5] in
  let io := byteio_init (FILE.mk bytes 1 true) in
  let pf := PcmFile.mk T N None (Some io) 1 true 0 5 1 4 2 0 0 None PCM_BYTE_ORDER_LE 1 4 48000 2 16 2 2 0 in
  ∃ ctx', pcmfile_seek_set 2147483648 pf = Some (0, moved pf ctx' 2147483648) ∧ stream ctx' = drop (Z.to_nat (2147483648 + ByteIOContext.size io)) bytes.
Proof.
  intros T N bytes io pf. destruct (byteio_init_spec (FILE.mk bytes 1 true) ltac:(simpl; lia)) as (Hio & Hst & Ho & Hc & Hs).
  apply (far_seek_misses bytes pf io); [|done|exact Ho|lia|simpl; lia|simpl; lia].
  split; [reflexivity|exact Hio|exact Hc|exact Hs|exact Hst|simpl; lia|]. unfold bytes, byte. repeat constructor; lia.
Defined.
