(* ===== verification/PcmRead.v ===== *)
(** Reading samples, [pcmfile_read_samples] of [pcm/pcm_io.c]: the bytes of the
    file become words of the host, in place, and words of the read format.  The
    theorems give every sample that a read returns, and show the read of a
    ragged end of a file leave its buffer. *)
From Stdlib Require Import ZArith Lia ZifyBool Bool.
From stdpp Require Import base option list numbers.
From coqutil Require Import Datatypes.RecordSettersUsingExistingGetters.
From S2P Require Import Prelude CMachine Float Convert ByteIO PcmConvert PcmFile.
Local Open Scope Z_scope.
Local Open Scope carray_scope.

(** * Words from bytes *)

Lemma lookup_map {A B} (f : A → B) l (i : nat) x : l !! i = Some x → map f l !! i = Some (f x).
Proof. intros Hl. change (map f l) with (f <$> l). by rewrite list_lookup_fmap, Hl. Qed.

Fixpoint chunks (w n : nat) (m : list Z) : list (list Z) :=
  match n with O => [] | S n => take w m :: chunks w n (drop w m) end.

Lemma le_bytes_value bs : Forall byte bs → le_bytes (length bs) (le_value bs) = bs.
Proof.
  induction 1 as [|b bs Hb Hbs IH]; [done|]. cbn [length le_bytes le_value]. unfold byte in Hb. f_equal.
  - unfold u8. rewrite Z.mul_comm, Z.mod_add by lia. apply Z.mod_small. lia.
  - rewrite Z.shiftr_div_pow2 by lia. rewrite Z.mul_comm, Z.div_add by lia. rewrite Z.div_small by lia. exact IH.
Qed.

Lemma le_value_range bs : Forall byte bs → 0 ≤ le_value bs < 2 ^ (8 * zlen bs).
Proof.
  unfold byte. induction 1 as [|b bs Hb Hbs IH]; [done|]. rewrite zlen_cons. cbn [le_value].
  pose proof (zlen_nonneg bs). replace (8 * (1 + zlen bs)) with (8 + 8 * zlen bs) by lia. rewrite Z.pow_add_r by lia. nia.
Qed.

(** The value of the bytes of a word as the host reads it. *)
Definition host_value `{Target} (bs : list Z) : Z := le_value (if words_bigendian then rev bs else bs).

Lemma host_bytes_value `{Target} bs : Forall byte bs → host_bytes (zlen bs) (host_value bs) = bs.
Proof.
  intros Hb. unfold host_bytes, host_value, zlen. rewrite Nat2Z.id. destruct words_bigendian.
  - rewrite <- (length_rev bs), le_bytes_value by (by apply Forall_rev). apply rev_involutive.
  - by apply le_bytes_value.
Qed.

Lemma length_chunks w n m : length (chunks w n m) = n.
Proof. revert m. induction n as [|n IH]; intros m; simpl; [done|]. by rewrite IH. Qed.

Lemma chunks_lookup w n m i :
  (i < n)%nat → chunks w n m !! i = Some (take w (drop (i * w) m)).
Proof.
  revert m i. induction n as [|n IH]; intros m i Hi; [lia|]. destruct i as [|i]; simpl; [by rewrite drop_0|].
  rewrite IH by lia. by rewrite drop_drop.
Qed.

(** Bytes are the words that the host reads in them. *)
Lemma words_of_bytes `{Target} w n m :
  Forall byte m → (w * n ≤ length m)%nat →
  words (Z.of_nat w) (map host_value (chunks w n m)) ++ drop (w * n) m = m.
Proof.
  intros Hm Hl. revert m Hm Hl. induction n as [|n IH]; intros m Hm Hl; [by rewrite Nat.mul_0_r|].
  cbn [chunks map]. unfold words. cbn [map concat]. fold (words (Z.of_nat w) (map host_value (chunks w n (drop w m)))).
  assert (Hw : host_bytes (Z.of_nat w) (host_value (take w m)) = take w m).
  { replace (Z.of_nat w) with (zlen (take w m)) by (unfold zlen; rewrite length_take; lia).
    apply host_bytes_value. by apply Forall_take. }
  rewrite Hw, <- app_assoc. replace (w * S n)%nat with (w + w * n)%nat by lia. rewrite <- drop_drop.
  rewrite IH; [apply take_drop|by apply Forall_drop|rewrite length_drop; lia].
Qed.

(** * Byte order *)

Lemma le_value_lor b bs : byte b → le_value (b :: bs) = Z.lor (u8 b) (Z.shiftl (le_value bs) 8).
Proof.
  unfold byte. intros Hb. cbn [le_value]. rewrite <- (u8_id b) at 1 by done.
  rewrite Z.mul_comm, <- Z.shiftl_mul_pow2 by lia. apply Z.add_nocarry_lor. unfold u8. bits_eq.
Qed.

Lemma u8_bits x i : 0 ≤ i → Z.testbit (u8 x) i = (i <? 8) && Z.testbit x i.
Proof. intros Hi. unfold u8. by rewrite Z.testbit_mod_pow2 by lia. Qed.

Ltac swap_bits :=
  rewrite !le_value_lor by done; unfold bswap_16, bswap_32, u16, u32, u8; cbn [le_value];
  change 0xFF00FF00 with (Z.lor (Z.shiftl (Z.ones 8) 24) (Z.shiftl (Z.ones 8) 8));
  change 0x00FF00FF with (Z.lor (Z.shiftl (Z.ones 8) 16) (Z.ones 8)); bits_eq; repeat (progress bits_simp).

Lemma bswap_16_rev a b : byte a → byte b → bswap_16 (le_value [a; b]) = le_value [b; a].
Proof. intros. swap_bits. Qed.

Lemma bswap_32_rev a b c d : byte a → byte b → byte c → byte d → bswap_32 (le_value [a; b; c; d]) = le_value [d; c; b; a].
Proof. intros. swap_bits. Qed.

Lemma le_value_app xs ys : le_value (xs ++ ys) = le_value xs + 2 ^ (8 * zlen xs) * le_value ys.
Proof.
  induction xs as [|x xs IH]; [rewrite Z.mul_1_l; done|]. cbn [app le_value]. rewrite IH, zlen_cons.
  pose proof (zlen_nonneg xs). replace (8 * (1 + zlen xs)) with (8 + 8 * zlen xs) by lia. rewrite Z.pow_add_r by lia. ring.
Qed.

Lemma four_bytes (bs : list Z) : length bs = 4%nat → ∃ a b c d, bs = [a; b; c; d].
Proof. do 5 (destruct bs as [|? bs]; try discriminate). eauto. Qed.

Lemma bswap_32_rev_list bs : length bs = 4%nat → Forall byte bs → bswap_32 (le_value bs) = le_value (rev bs).
Proof.
  intros Hl Hb. destruct (four_bytes bs Hl) as (a & b & c & d & ->).
  repeat (apply Forall_cons_1 in Hb as [? Hb]). by apply bswap_32_rev.
Qed.

Lemma bswap_64_app lo hi :
  length lo = 4%nat → length hi = 4%nat → Forall byte lo → Forall byte hi →
  bswap_64 (le_value (lo ++ hi)) = le_value (rev (lo ++ hi)).
Proof.
  intros Hl1 Hl2 Hlo Hhi. pose proof (le_value_range lo Hlo) as Rlo. pose proof (le_value_range hi Hhi) as Rhi.
  pose proof (le_value_range (rev hi) (Forall_rev Hhi)) as Rr.
  unfold bswap_64. rewrite rev_app_distr, !le_value_app. unfold zlen in *. rewrite !length_rev in *. rewrite Hl1, Hl2 in *.
  change (8 * Z.of_nat 4) with 32 in *. rewrite Z.shiftr_div_pow2 by lia.
  replace (le_value lo + 2 ^ 32 * le_value hi) with (le_value lo + le_value hi * 2 ^ 32) by lia.
  rewrite Z.div_add, Z.div_small, Z.add_0_l by lia. unfold u32. rewrite Z.mod_add, Z.mod_small by lia.
  rewrite !bswap_32_rev_list by done. rewrite Z.mul_comm, <- Z.shiftl_mul_pow2 by lia.
  symmetry. apply Z.add_nocarry_lor. rewrite <- (Z.mod_small _ _ Rr). bits_eq.
Qed.

Lemma bswap_64_rev bs : length bs = 8%nat → Forall byte bs → bswap_64 (le_value bs) = le_value (rev bs).
Proof.
  intros Hl Hb. rewrite <- (take_drop 4 bs). apply bswap_64_app.
  - rewrite length_take. lia.
  - rewrite length_drop. lia.
  - by apply Forall_take.
  - by apply Forall_drop.
Qed.

(** * From the bytes of the file to words *)

(** A sample of [w] bytes in byte order [ord] as a word of the buffer. *)
Definition order_value (ord : Z) (bs : list Z) : Z := le_value (if ord =? PCM_BYTE_ORDER_LE then bs else rev bs).
Definition sample_word (w ord bw : Z) (bs : list Z) : Z :=
  if w =? 3 then sext bw (order_value ord bs) else order_value ord bs.

Lemma sext_cong bw x y : 0 ≤ bw → x mod 2 ^ bw = y mod 2 ^ bw → sext bw x = sext bw y.
Proof.
  intros Hbw Hxy. unfold sext. f_equal. rewrite (Z.add_mod x), (Z.add_mod y), Hxy; [done| |]; pose proof (Z.pow_pos_nonneg 2 bw); lia.
Qed.

Lemma mod_pow_le x a b : 0 ≤ a ≤ b → (x mod 2 ^ b) mod 2 ^ a = x mod 2 ^ a.
Proof. intros. bits_eq. Qed.

Lemma sext_i32 bw v : 0 ≤ bw ≤ 32 → sext bw (i32 v) = sext bw v.
Proof.
  intros Hbw. apply sext_cong; [lia|]. unfold i32. unfold sext.
  rewrite <- (mod_pow_le _ bw 32) by lia. rewrite Zminus_mod_idemp_l. replace (v + 2 ^ (32 - 1) - 2 ^ (32 - 1)) with v by lia.
  by apply mod_pow_le.
Qed.

Lemma sign_extend_value bw v : 1 ≤ bw ≤ 32 → sign_extend (32 - bw) v = Some (sext bw v).
Proof.
  intros Hbw. unfold sign_extend. replace ((0 <=? 32 - bw) && (32 - bw <? 32)) with true by lia. f_equal.
  set (u := 32 - bw). pose proof (Z.pow_pos_nonneg 2 u ltac:(lia) ltac:(lia)) as Hu.
  assert (H32 : 2 ^ 32 = 2 ^ bw * 2 ^ u) by (rewrite <- Z.pow_add_r by lia; f_equal; lia).
  assert (H31 : 2 ^ (32 - 1) = 2 ^ (bw - 1) * 2 ^ u) by (rewrite <- Z.pow_add_r by lia; f_equal; lia).
  pose proof (Z.pow_pos_nonneg 2 bw ltac:(lia) ltac:(lia)).
  unfold i32, sext. rewrite Z.shiftl_mul_pow2, H31, H32 by lia. rewrite <- Z.mul_add_distr_r, Z.mul_mod_distr_r by lia.
  rewrite <- Z.mul_sub_distr_r, Z.shiftr_div_pow2, Z.div_mul by lia. done.
Qed.

Section native.
Context `{Target} `{NanBits}.

Lemma load_behind w P b0 i :
  0 < w → 0 ≤ i → zlen P = w * i → w * i ≤ zlen b0 →
  load w (P ++ drop (Z.to_nat (w * i)) b0) i = load w b0 i.
Proof.
  intros Hw Hi HP Hb. unfold load. rewrite zlen_app. replace (zlen (drop (Z.to_nat (w * i)) b0)) with (zlen b0 - w * i)
    by (unfold zlen in *; rewrite length_drop; lia).
  replace (zlen P + (zlen b0 - w * i)) with (zlen b0) by lia.
  assert (Hs : slice (P ++ drop (Z.to_nat (w * i)) b0) (i * w) w = slice b0 (i * w) w).
  { unfold slice. rewrite drop_app_ge by (unfold zlen in *; lia). rewrite drop_drop. do 2 f_equal. unfold zlen in *. lia. }
  by rewrite Hs.
Qed.

Lemma swap_words_spec w f vs rest :
  0 < w → Forall (λ v, 0 ≤ v < 2 ^ (8 * w)) vs →
  swap_words w f (zlen vs) (words w vs ++ rest) = Some (words w (map f vs) ++ rest).
Proof.
  intros Hw Hvs. unfold swap_words. rewrite <- (zlen_map f vs). rewrite (store_loop w _ _ (map f vs)).
  - f_equal. f_equal. rewrite drop_app_ge.
    + rewrite zlen_map. pose proof (zlen_words w vs ltac:(lia)) as Hl. unfold zlen in *.
      replace (Z.to_nat (w * Z.of_nat (length vs)) - length (words w vs))%nat with 0%nat by lia. done.
    + pose proof (zlen_words w vs ltac:(lia)) as Hl. rewrite zlen_map. unfold zlen in *. lia.
  - done.
  - rewrite zlen_map, zlen_app, zlen_words by lia. pose proof (zlen_nonneg rest). lia.
  - intros i P Hi HP. rewrite zlen_map in Hi. pose proof (zlen_nonneg rest).
    assert (w * i ≤ w * zlen vs) by (apply Z.mul_le_mono_nonneg_l; lia).
    rewrite load_behind by (try lia; rewrite zlen_app, zlen_words; lia). rewrite load_words by lia. simpl.
    assert (Hv : vs !! Z.to_nat i = Some vs.[i]) by (apply list_lookup_lookup_total_lt; unfold zlen in *; lia).
    rewrite (Z.mod_small vs.[i]) by (apply (Forall_lookup_1 _ _ _ _ Hvs Hv)). do 2 f_equal.
    unfold at_ at 2. symmetry. apply list_lookup_total_correct. by apply lookup_map.
Qed.

Lemma host_value_range bs : Forall byte bs → 0 ≤ host_value bs < 2 ^ (8 * zlen bs).
Proof.
  intros Hb. unfold host_value. destruct words_bigendian; [|by apply le_value_range].
  pose proof (le_value_range (rev bs) (Forall_rev Hb)) as Hr. unfold zlen in *. by rewrite length_rev in Hr.
Qed.

Lemma Forall_chunks w n m : Forall byte m → (w * n ≤ length m)%nat → Forall (λ bs, Forall byte bs ∧ length bs = w) (chunks w n m).
Proof.
  revert m. induction n as [|n IH]; intros m Hm Hl; simpl; [done|]. constructor.
  - split; [by apply Forall_take|]. rewrite length_take. lia.
  - apply IH; [by apply Forall_drop|]. rewrite length_drop. lia.
Qed.

(** Swapped, the host's value is the value in the file's order. *)
Lemma native_or_swapped w ord bs (f : Z → Z) :
  ord = PCM_BYTE_ORDER_LE ∨ ord = PCM_BYTE_ORDER_BE → (∀ bs, length bs = w → Forall byte bs → f (le_value bs) = le_value (rev bs)) →
  length bs = w → Forall byte bs →
  (if ord =? PCM_NON_NATIVE_BYTE_ORDER then f (host_value bs) else host_value bs) = order_value ord bs.
Proof.
  intros Ho Hf Hl Hb. unfold PCM_NON_NATIVE_BYTE_ORDER, host_value, order_value.
  destruct Ho as [-> | ->], words_bigendian; cbn [Z.eqb]; try done.
  - change (PCM_BYTE_ORDER_LE =? PCM_BYTE_ORDER_LE) with true. cbv iota.
    rewrite Hf; [by rewrite rev_involutive|by rewrite length_rev|by apply Forall_rev].
  - change (PCM_BYTE_ORDER_BE =? PCM_BYTE_ORDER_BE) with true. cbv iota. by apply Hf.
Qed.

Definition word_width (w : Z) : Z := if w =? 3 then 4 else w.

(** Samples of whole words. *)
Lemma native_words_whole (w n : nat) ord bw got pad :
  w = 1%nat ∨ w = 2%nat ∨ w = 4%nat ∨ w = 8%nat → ord = PCM_BYTE_ORDER_LE ∨ ord = PCM_BYTE_ORDER_BE →
  Forall byte got → (w * n ≤ length got)%nat →
  native_words (Z.of_nat w) ord bw 0 (Z.of_nat n) (got ++ pad) =
  Some (words (Z.of_nat w) (map (sample_word (Z.of_nat w) ord bw) (chunks w n got)) ++ drop (w * n) got ++ pad).
Proof.
  intros Hw Ho Hb Hl. set (vs := map host_value (chunks w n got)).
  assert (Hgot : got ++ pad = words (Z.of_nat w) vs ++ drop (w * n) got ++ pad).
  { rewrite app_assoc. f_equal. symmetry. by apply words_of_bytes. }
  pose proof (Forall_chunks w n got Hb Hl) as Hch.
  assert (Hlen : Z.of_nat n = zlen vs) by (unfold vs; rewrite zlen_map; unfold zlen; by rewrite length_chunks).
  assert (Hvs : Forall (λ v, 0 ≤ v < 2 ^ (8 * Z.of_nat w)) vs).
  { unfold vs. apply Forall_map. eapply Forall_impl; [|exact Hch]. intros bs [Hbs Hlb]. rewrite <- Hlb. by apply host_value_range. }
  assert (Hout : ∀ f, (∀ bs, length bs = w → Forall byte bs → f (le_value bs) = le_value (rev bs)) →
    (if ord =? PCM_NON_NATIVE_BYTE_ORDER then swap_words (Z.of_nat w) f (Z.of_nat n) (got ++ pad) else Some (got ++ pad)) =
    Some (words (Z.of_nat w) (map (sample_word (Z.of_nat w) ord bw) (chunks w n got)) ++ drop (w * n) got ++ pad)).
  { intros f Hf. assert (Hmap : map (sample_word (Z.of_nat w) ord bw) (chunks w n got) =
      if ord =? PCM_NON_NATIVE_BYTE_ORDER then map f vs else vs).
    { assert (Hel : ∀ bs, Forall byte bs ∧ length bs = w → sample_word (Z.of_nat w) ord bw bs =
        if ord =? PCM_NON_NATIVE_BYTE_ORDER then f (host_value bs) else host_value bs).
      { intros bs [Hbs Hlb]. rewrite (native_or_swapped w ord bs f) by done. unfold sample_word.
        by replace (Z.of_nat w =? 3) with false by lia. }
      unfold vs. clear -Hel Hch. destruct (ord =? PCM_NON_NATIVE_BYTE_ORDER); rewrite ?map_map;
        (induction Hch as [|bs l Hbs Hl IH]; [done|]; simpl; rewrite IH, Hel by done; done). }
    rewrite Hmap. destruct (ord =? PCM_NON_NATIVE_BYTE_ORDER).
    - rewrite Hgot, Hlen. apply swap_words_spec; [lia|done].
    - by rewrite Hgot. }
  destruct Hw as [-> |[-> |[-> | ->]]].
  - assert (Hmap : map (sample_word 1 ord bw) (chunks 1 n got) = vs).
    { unfold vs. clear -Hch. induction Hch as [|bs l [Hbs Hlb] Hl IH]; [done|]. simpl. rewrite IH. f_equal.
      destruct bs as [|b [|]]; try done. unfold sample_word, order_value, host_value. simpl. by destruct (ord =? PCM_BYTE_ORDER_LE), words_bigendian. }
    change (Z.of_nat 1) with 1 in *. rewrite Hmap. unfold native_words. simpl Z.eqb. cbv iota zeta. by rewrite <- Hgot.
  - apply (Hout bswap_16). intros bs Hlb Hbs. destruct bs as [|a [|b [|]]]; try done.
    repeat (apply Forall_cons_1 in Hbs as [? Hbs]). by apply bswap_16_rev.
  - apply (Hout bswap_32). apply bswap_32_rev_list.
  - apply (Hout bswap_64). apply bswap_64_rev.
Qed.

(** The three bytes of a sample and one more. *)
Lemma widened_value ord bw bs d :
  words_bigendian = false → ord = PCM_BYTE_ORDER_LE ∨ ord = PCM_BYTE_ORDER_BE → 1 ≤ bw ≤ 24 →
  length bs = 3%nat → Forall byte bs → byte d →
  let x := le_value (bs ++ [d]) in
  sign_extend (32 - bw) (i32 (if ord =? PCM_NON_NATIVE_BYTE_ORDER then bswap_32 (u32 (Z.shiftl x 8)) else x)) =
  Some (sample_word 3 ord bw bs).
Proof.
  intros Hle Ho Hbw Hl Hbs Hd x. rewrite sign_extend_value, sext_i32 by lia. f_equal. unfold sample_word.
  change (3 =? 3) with true. cbv iota. apply sext_cong; [lia|].
  assert (Hmod : ∀ v w, v mod 2 ^ 24 = w mod 2 ^ 24 → v mod 2 ^ bw = w mod 2 ^ bw).
  { intros v w Hvw. rewrite <- (mod_pow_le v bw 24), Hvw by lia. apply mod_pow_le. lia. }
  apply Hmod. unfold order_value, PCM_NON_NATIVE_BYTE_ORDER. rewrite Hle. destruct bs as [|a [|b [|c [|]]]]; try done.
  repeat (apply Forall_cons_1 in Hbs as [? Hbs]). destruct Ho as [-> | ->]; cbn [Z.eqb].
  - change (PCM_BYTE_ORDER_LE =? PCM_BYTE_ORDER_BE) with false. change (PCM_BYTE_ORDER_LE =? PCM_BYTE_ORDER_LE) with true.
    cbv iota. unfold x. rewrite le_value_app. change (2 ^ (8 * zlen [a; b; c])) with (2 ^ 24).
    rewrite Z.mul_comm, Z.mod_add by lia. done.
  - change (PCM_BYTE_ORDER_BE =? PCM_BYTE_ORDER_BE) with true. change (PCM_BYTE_ORDER_BE =? PCM_BYTE_ORDER_LE) with false. cbv iota.
    assert (Hx : u32 (Z.shiftl x 8) = le_value [0; a; b; c]).
    { unfold x, u32, byte in *. rewrite Z.shiftl_mul_pow2 by lia. cbn [app le_value].
      replace ((a + 2 ^ 8 * (b + 2 ^ 8 * (c + 2 ^ 8 * (d + 2 ^ 8 * 0)))) * 2 ^ 8)
        with (0 + 2 ^ 8 * (a + 2 ^ 8 * (b + 2 ^ 8 * (c + 2 ^ 8 * 0))) + d * 2 ^ 32) by lia.
      rewrite Z.mod_add by lia. apply Z.mod_small. lia. }
    rewrite Hx, bswap_32_rev by done. simpl rev. change [c; b; a; 0] with ([c; b; a] ++ [0]). rewrite le_value_app.
    by rewrite Z.mul_0_r, Z.add_0_r.
Qed.

(** Samples of three bytes: widened in place, the source being far enough
    behind the destination. *)
Lemma native_words_widen (n rb : nat) ord bw got pad :
  words_bigendian = false → ord = PCM_BYTE_ORDER_LE ∨ ord = PCM_BYTE_ORDER_BE → 1 ≤ bw ≤ 24 →
  Forall byte (got ++ pad) → (3 * n ≤ length got)%nat → (n ≤ rb)%nat → (4 * n ≤ rb + length (got ++ pad))%nat →
  (3 * n < length (got ++ pad))%nat →
  ∃ rest, native_words 3 ord bw (Z.of_nat rb) (Z.of_nat n) (replicate rb 0 ++ got ++ pad) =
    Some (words 4 (map (sample_word 3 ord bw) (chunks 3 n got)) ++ rest).
Proof.
  intros Hle Ho Hbw Hb Hl Hrb Hlen Hlast. set (outs := map (sample_word 3 ord bw) (chunks 3 n got)).
  assert (Hn : Z.of_nat n = zlen outs) by (unfold outs; rewrite zlen_map; unfold zlen; by rewrite length_chunks).
  eexists. unfold native_words. change (3 =? 2) with false. change (3 =? 3) with true. cbv iota zeta. unfold widen_words. cbv zeta.
  rewrite Hn. apply store_loop; [lia| |].
  - rewrite zlen_app, zlen_replicate. unfold zlen in *. lia.
  - intros i P Hi HP. set (b0 := replicate rb 0 ++ got ++ pad).
    assert (Hdrop : drop (Z.to_nat (Z.of_nat rb + i * 3)) (P ++ drop (Z.to_nat (4 * i)) b0) = drop (Z.to_nat (i * 3)) (got ++ pad)).
    { rewrite drop_app_ge by (unfold zlen in *; lia). rewrite drop_drop. unfold b0. rewrite drop_app_ge by (rewrite length_replicate; unfold zlen in *; lia).
      f_equal. rewrite length_replicate. unfold zlen in *. lia. }
    rewrite Hdrop.
    assert (Hin : (Z.to_nat i < n)%nat) by lia. pose proof (chunks_lookup 3 n got (Z.to_nat i) Hin) as Hch.
    set (bs := take 3 (drop (Z.to_nat i * 3) got)) in *.
    pose proof (Forall_lookup_1 _ _ _ _ (Forall_chunks 3 n got ltac:(by apply Forall_app in Hb as [? _]) ltac:(lia)) Hch) as [Hbs Hlb].
    assert (Hd : ∃ d, byte d ∧ take 4 (drop (Z.to_nat (i * 3)) (got ++ pad)) = bs ++ [d]).
    { destruct (lookup_lt_is_Some_2 (got ++ pad) (Z.to_nat i * 3 + 3)) as [d Hd]; [lia|]. exists d.
      split; [by apply (Forall_lookup_1 _ _ _ _ Hb Hd)|]. replace (Z.to_nat (i * 3)) with (Z.to_nat i * 3)%nat by lia.
      rewrite (take_S_r _ 3 d); [|by rewrite lookup_drop]. f_equal. unfold bs. rewrite drop_app_le by lia.
      rewrite take_app_le; [done|]. rewrite length_drop. lia. }
    destruct Hd as (d & Hd & Htake).
    assert (Hload : load 4 (drop (Z.to_nat (i * 3)) (got ++ pad)) 0 = Some (le_value (bs ++ [d]))).
    { unfold load. replace ((0 <=? 0) && ((0 + 1) * 4 <=? zlen (drop (Z.to_nat (i * 3)) (got ++ pad)))) with true.
      - rewrite Hle. unfold slice. change (Z.to_nat (0 * 4)) with 0%nat. rewrite drop_0. change (Z.to_nat 4) with 4%nat. by rewrite Htake.
      - unfold zlen. rewrite length_drop. apply (f_equal length) in Htake. rewrite length_take, length_drop, length_app in Htake. simpl in Htake. lia. }
    rewrite Hload. cbn [mbind option_bind]. rewrite (widened_value ord bw bs d) by done. cbn [mbind option_bind]. f_equal.
    unfold outs. unfold at_. symmetry. apply list_lookup_total_correct. by apply lookup_map.
Qed.
End native.

(** * The source of a file *)

(** Bytes of a sample in the file. *)
Definition file_width (fmt : Z) : Z := Z.shiftr (fmt_bits.[fmt] + 7) 3.

(** What the setters establish: the fields that depend on the source format
    and the read format fit them. *)
Record source_ok `{Target} `{NanBits} (pf : PcmFile.t) : Prop := {
  so_format : 0 ≤ PcmFile.source_format pf ≤ 7;
  so_read : 0 ≤ PcmFile.read_format pf ≤ 7;
  so_channels : 1 ≤ PcmFile.channels pf;
  so_order : PcmFile.order pf = PCM_BYTE_ORDER_LE ∨ PcmFile.order pf = PCM_BYTE_ORDER_BE;
  so_align : PcmFile.block_align pf = file_width (PcmFile.source_format pf) * PcmFile.channels pf;
  so_bits : PcmFile.bit_width pf = fmt_bits.[PcmFile.source_format pf];
  so_convert : PcmFile.fmt_convert pf = choose_converter (PcmFile.source_format pf) (PcmFile.read_format pf) None
}.

Section reading.
Context `{Target} `{NanBits}.
Implicit Types pf : PcmFile.t.

Lemma choose_converter_some f g old :
  0 ≤ f ≤ 7 → 0 ≤ g ≤ 7 → choose_converter f g old = choose_converter f g None.
Proof. intros Hf Hg. format_cases Hf; format_cases Hg; done. Qed.

Lemma set_source_format_ok fmt pf :
  1 ≤ PcmFile.channels pf → 0 ≤ PcmFile.read_format pf ≤ 7 →
  PcmFile.order pf = PCM_BYTE_ORDER_LE ∨ PcmFile.order pf = PCM_BYTE_ORDER_BE →
  wp (pcmfile_set_source_format fmt pf) (λ pf', source_ok pf' ∧
    PcmFile.source_format pf' = CLIP fmt 0 7 ∧ PcmFile.channels pf' = PcmFile.channels pf ∧
    PcmFile.samples pf' = PcmFile.data_size pf / (file_width (CLIP fmt 0 7) * PcmFile.channels pf) ∧
    PcmFile.io pf' = PcmFile.io pf ∧ PcmFile.filepos pf' = PcmFile.filepos pf ∧ PcmFile.seekable pf' = PcmFile.seekable pf ∧
    PcmFile.data_start pf' = PcmFile.data_start pf ∧ PcmFile.data_size pf' = PcmFile.data_size pf ∧
    PcmFile.read_format pf' = PcmFile.read_format pf ∧ PcmFile.order pf' = PcmFile.order pf ∧
    PcmFile.read_to_eof pf' = PcmFile.read_to_eof pf ∧ PcmFile.sample_rate pf' = PcmFile.sample_rate pf ∧
    PcmFile.ch_mask pf' = PcmFile.ch_mask pf).
Proof.
  intros Hch Hr Ho. unfold pcmfile_set_source_format, PCM_SAMPLE_FMT_U8, PCM_SAMPLE_FMT_DBL.
  set (f := CLIP fmt 0 7). assert (Hf : 0 ≤ f ≤ 7) by (unfold f; rewrite CLIP_clip; lia). clearbody f.
  apply wp_bind, wp_aget; [change (zlen fmt_bits) with 8; lia|]. cbv zeta. cbn [wp].
  assert (Hba : MAX 1 (Z.shiftr (fmt_bits.[f] + 7) 3 * PcmFile.channels pf) = file_width f * PcmFile.channels pf).
  { rewrite MAX_max. fold (file_width f). assert (1 ≤ file_width f) by (by format_cases Hf; vm_compute). nia. }
  split; [|simpl; rewrite Hba; by split_and!].
  split; simpl; try done. by apply choose_converter_some.
Qed.

(** The samples a read asks for: no more than there are. *)
Definition request (pf : PcmFile.t) (num : Z) : Z :=
  let num := Z.min num PCM_MAX_READ in
  if PcmFile.read_to_eof pf =? 0 then
    Z.min num ((PcmFile.data_start pf + PcmFile.data_size pf - PcmFile.filepos pf) / PcmFile.block_align pf)
  else num.

(** A read within the data chunk, which holds whole samples, or up to the end
    of the file; the product of the code stays in its type. *)
Record read_ok (pf : PcmFile.t) (num : Z) : Prop := {
  ro_num : 0 ≤ num;
  ro_int : PcmFile.block_align pf * Z.min num PCM_MAX_READ < 2 ^ 31;
  ro_pos : 0 ≤ PcmFile.filepos pf;
  ro_data : PcmFile.read_to_eof pf = 0 →
    PcmFile.filepos pf ≤ PcmFile.data_start pf + PcmFile.data_size pf < 2 ^ 63 ∧
    (PcmFile.data_start pf + PcmFile.data_size pf - PcmFile.filepos pf) mod PcmFile.block_align pf = 0
}.

Lemma read_request_spec pf num :
  0 < PcmFile.block_align pf → read_ok pf num →
  read_request pf num = Some (PcmFile.block_align pf * request pf num, request pf num) ∧ 0 ≤ request pf num ≤ Z.min num PCM_MAX_READ.
Proof.
  intros Hba [Hnum Hint Hpos Hdata]. set (ba := PcmFile.block_align pf) in *.
  set (n := Z.min num PCM_MAX_READ) in *. assert (Hn : 0 ≤ n) by (unfold n, PCM_MAX_READ; lia).
  assert (Hbn : 0 ≤ ba * n) by nia. unfold read_request, request. fold ba. rewrite MIN_min. fold n.
  unfold chk_int. replace ((- 2 ^ 31 <=? ba * n) && (ba * n <? 2 ^ 31)) with true by lia. cbn [mbind option_bind].
  rewrite (u32_id (ba * n)) by lia. unfold u64.
  destruct (Z.eqb_spec (PcmFile.read_to_eof pf) 0) as [He|He]; cbn [andb]; [|done].
  specialize (Hdata He) as [Hend Hwhole]. rewrite (Z.mod_small (PcmFile.data_start pf + PcmFile.data_size pf)) by lia.
  rewrite (Z.mod_small (PcmFile.filepos pf + ba * n)) by lia.
  set (avail := PcmFile.data_start pf + PcmFile.data_size pf - PcmFile.filepos pf) in *.
  pose proof (Z.div_mod avail ba ltac:(lia)) as Hdm. rewrite Hwhole, Z.add_0_r in Hdm.
  assert (Hq : 0 ≤ avail / ba) by (apply Z.div_pos; lia).
  destruct (Z.geb_spec (PcmFile.filepos pf + ba * n) (PcmFile.data_start pf + PcmFile.data_size pf)) as [Hge|Hlt].
  - assert (Hle : avail / ba ≤ n) by (apply (Z.mul_le_mono_pos_l _ _ ba); unfold avail in *; lia).
    rewrite (u32_id avail) by lia. assert (avail / ba ≤ avail) by nia. rewrite i32_id by lia. rewrite Z.min_r by lia. rewrite <- Hdm. split; [done|lia].
  - assert (Hle : n ≤ avail / ba) by (apply (Z.mul_le_mono_pos_l _ _ ba); unfold avail in *; lia).
    rewrite Z.min_l by lia. split; [done|lia].
Qed.

(** The words of the first [n] samples of [got], and what the reader makes of
    one of them. *)
Definition source_words (pf : PcmFile.t) (n : Z) (got : list Z) : list Z :=
  let w := file_width (PcmFile.source_format pf) in
  map (sample_word w (PcmFile.order pf) (PcmFile.bit_width pf)) (chunks (Z.to_nat w) (Z.to_nat n) got).

Definition converted (f g v v' : Z) : Prop :=
  if f =? g then v' = v else convert_sample f g (v mod 2 ^ (8 * pcm_width f)) = Some v'.

Lemma convert_words f g fn dest vs vs' rest :
  0 ≤ f ≤ 7 → 0 ≤ g ≤ 7 → choose_converter f g None = Some fn → Forall2 (converted f g) vs vs' →
  pcm_width g * zlen vs ≤ zlen dest →
  fn dest (words (pcm_width f) vs ++ rest) (zlen vs) =
  Some (words (pcm_width g) vs' ++ drop (Z.to_nat (pcm_width g * zlen vs)) dest).
Proof.
  intros Hf Hg Hfn Hall Hd. destruct (converter_is_sample_loop f g None Hf Hg) as (fn' & Hfn' & Hloop).
  rewrite Hfn in Hfn'. injection Hfn' as <-. rewrite Hloop.
  assert (Hpos : ∀ fmt, 0 < pcm_width fmt) by (intros; unfold pcm_width; repeat case_match; lia).
  pose proof (Hpos f). pose proof (Hpos g). unfold converted in Hall. destruct (Z.eqb_spec f g) as [-> |Hne].
  - assert (vs' = vs) as -> by (clear -Hall; induction Hall as [|v v' l l' -> Hl IH]; [done|by f_equal]).
    pose proof (zlen_words (pcm_width g) vs ltac:(lia)) as Hl. pose proof (zlen_nonneg rest). pose proof (zlen_nonneg vs).
    rewrite memcpy_in by (rewrite ?zlen_app, ?Hl; lia). f_equal. rewrite Z.mul_comm, <- Hl.
    unfold splice, slice, zlen. rewrite drop_0, Nat2Z.id, take_app_length. simpl. done.
  - by apply element_loop_words.
Qed.
End reading.

Section read_samples.
Context `{Target} `{NanBits}.
Implicit Types pf : PcmFile.t.

Lemma moved_id pf ctx : PcmFile.io pf = Some ctx → moved pf ctx (PcmFile.filepos pf) = pf.
Proof. intros Hio. destruct pf. simpl in *. unfold moved. simpl. by rewrite Hio. Qed.

Lemma file_width_cases fmt : 0 ≤ fmt ≤ 7 →
  file_width fmt = 3 ∧ pcm_width fmt = 4 ∧ 1 ≤ fmt_bits.[fmt] ≤ 24 ∨
  file_width fmt = pcm_width fmt ∧ (file_width fmt = 1 ∨ file_width fmt = 2 ∨ file_width fmt = 4 ∨ file_width fmt = 8).
Proof.
  intros Hf. format_cases Hf; vm_compute; first [left; intuition discriminate | right; intuition discriminate].
Qed.

Lemma zlen_source_words pf n got : 0 ≤ n → zlen (source_words pf n got) = n.
Proof. intros Hn. unfold source_words. rewrite zlen_map. unfold zlen. rewrite length_chunks. lia. Qed.

Lemma splice_zeros (rb n m : nat) got : n = (rb + length got + m)%nat →
  splice (replicate n 0) (Z.of_nat rb) got = replicate rb 0 ++ got ++ replicate m 0.
Proof.
  intros ->. unfold splice. rewrite Nat2Z.id, take_replicate, drop_replicate. do 2 f_equal; [|f_equal]; f_equal; lia.
Qed.

(** The bytes that were read become the words of the buffer, in place. *)
Lemma native_buffer pf got n N :
  source_ok pf → words_bigendian = false ∨ file_width (PcmFile.source_format pf) ≠ 3 → Forall byte got →
  0 ≤ n ≤ N → file_width (PcmFile.source_format pf) * n ≤ zlen got ≤ file_width (PcmFile.source_format pf) * N →
  let w := file_width (PcmFile.source_format pf) in
  let rb := if w =? 3 then N else 0 in
  ∃ rest, native_words w (PcmFile.order pf) (PcmFile.bit_width pf) rb n
    (splice (replicate (Z.to_nat ((if w =? 3 then 4 * N else w * N) + 1)) 0) rb got) =
    Some (words (pcm_width (PcmFile.source_format pf)) (source_words pf n got) ++ rest).
Proof.
  intros [Hf Hr Hch Ho Hal Hbits Hconv] Hhost Hb Hn Hl. unfold source_words. cbv zeta.
  destruct (Z_of_nat_complete n ltac:(lia)) as [n' ->], (Z_of_nat_complete N ltac:(lia)) as [N' ->]. rewrite Nat2Z.id.
  pose proof (file_width_cases _ Hf) as [(Hw & Hpw & Hbw)|(Hw & Hcases)].
  - rewrite Hw, Hpw in *. destruct Hhost as [Hle|]; [|done]. change (3 =? 3) with true. cbv iota.
    rewrite <- Hbits in Hbw.
    rewrite (splice_zeros N' _ (Z.to_nat (4 * Z.of_nat N' + 1 - Z.of_nat N' - zlen got))) by (unfold zlen in *; lia).
    change (Z.to_nat 3) with 3%nat.
    apply native_words_widen; try done; try (rewrite ?length_app, ?length_replicate; unfold zlen in *; lia).
    apply Forall_app; split; [done|]. apply Forall_replicate. unfold byte. lia.
  - assert (H3 : (file_width (PcmFile.source_format pf) =? 3) = false) by lia. rewrite H3. rewrite <- Hw.
    set (w := file_width (PcmFile.source_format pf)) in *. destruct (Z_of_nat_complete w ltac:(lia)) as [w' Hw'].
    clear Hw. clearbody w. subst w. rewrite Nat2Z.id.
    change 0 with (Z.of_nat 0) at 3.
    rewrite (splice_zeros 0 _ (Z.to_nat (Z.of_nat w' * Z.of_nat N' + 1 - zlen got))) by (unfold zlen in *; lia). cbn [replicate app].
    eexists. rewrite native_words_whole; [reflexivity|lia|done|done|unfold zlen in *; lia].
Qed.

(** The words that a read returns. *)
Lemma read_samples_spec bytes pf ctx output num outs :
  pcm_ok bytes pf ctx → source_ok pf → read_ok pf num → zlen bytes < 2 ^ 63 →
  words_bigendian = false ∨ file_width (PcmFile.source_format pf) ≠ 3 →
  let got := slice bytes (PcmFile.filepos pf) (PcmFile.block_align pf * request pf num) in
  let nr := zlen got / PcmFile.block_align pf in
  let w := pcm_width (PcmFile.read_format pf) in
  Forall2 (converted (PcmFile.source_format pf) (PcmFile.read_format pf)) (source_words pf (nr * PcmFile.channels pf) got) outs →
  w * (nr * PcmFile.channels pf) ≤ zlen output →
  ∃ ctx', let pf' := moved pf ctx' (PcmFile.filepos pf + zlen got) in
    pcmfile_read_samples pf output num = Some (nr, words w outs ++ drop (Z.to_nat (w * (nr * PcmFile.channels pf))) output, pf') ∧
    pcm_ok bytes pf' ctx' ∧ 0 ≤ nr ≤ request pf num ≤ num.
Proof.
  intros Hok Hsrc Hread Hlen Hhost got nr w Houts Hout. pose proof Hok as [Hio _ _ _ _ Hpos Hbytes].
  pose proof Hsrc as [Hf Hr Hch Ho Hal Hbits Hconv]. pose proof (file_width_cases _ Hf) as Hcases.
  assert (Hfw : 1 ≤ file_width (PcmFile.source_format pf)) by lia.
  set (ba := PcmFile.block_align pf) in *. assert (Hba : 0 < ba) by nia.
  destruct (read_request_spec pf num Hba Hread) as [Hreq Hn]. fold ba in Hreq. set (n := request pf num) in *.
  pose proof Hread as [Hnum Hint _ _]. fold ba in Hint.
  assert (Hbn : 0 ≤ ba * n < 2 ^ 31) by nia.
  assert (Hgot : zlen got ≤ ba * n) by (apply zlen_slice_le; lia). pose proof (zlen_nonneg got) as Hg0.
  assert (Hnr : 0 ≤ nr ≤ n).
  { unfold nr. split; [apply Z.div_pos; lia|]. apply (Z.mul_le_mono_pos_l _ _ ba); [lia|]. pose proof (Z.mul_div_le (zlen got) ba). lia. }
  assert (Hnr' : ba * nr ≤ zlen got) by (unfold nr; apply Z.mul_div_le; lia).
  unfold pcmfile_read_samples. rewrite Hio. rewrite Hconv.
  destruct (converter_is_sample_loop (PcmFile.source_format pf) (PcmFile.read_format pf) None Hf Hr) as (fn & Hfn & _). rewrite Hfn.
  fold ba. replace (ba <=? 0) with false by lia. rewrite Hreq. cbn [mbind option_bind].
  destruct (Z.leb_spec n 0) as [Hn0|Hn0].
  { assert (n = 0) by lia. assert (Hz : got = []) by (unfold got; replace (ba * n) with 0 by lia; done).
    assert (Hnr0 : nr = 0) by lia. clearbody nr. subst nr. rewrite Hz in Houts.
    assert (outs = []) as -> by (apply Forall2_length in Houts; pose proof (zlen_source_words pf (0 * PcmFile.channels pf) [] ltac:(lia));
      unfold zlen in *; destruct outs; [done|simpl in *; lia]).
    exists ctx. cbv zeta. assert (Hzl : zlen got = 0) by (by rewrite Hz). rewrite Hzl, Z.add_0_r, (moved_id pf ctx Hio). rewrite Z.mul_0_l, Z.mul_0_r. split; [done|]. split; [done|lia]. }
  replace (PcmFile.channels pf =? 0) with false by lia. cbn [mbind option_bind].
  set (fw := file_width (PcmFile.source_format pf)) in *. set (ch := PcmFile.channels pf) in *.
  replace (Z.quot ba ch) with fw by (rewrite Z.quot_div_nonneg, Hal, Z.div_mul; lia).
  assert (Hban : ba * n = fw * (n * ch)) by (rewrite Hal; lia).
  set (N := n * ch) in *. assert (HN : 1 ≤ N) by nia.
  assert (Hbs : (if fw =? 3 then u32 (n * 4 * ch) else ba * n) = (if fw =? 3 then 4 * N else fw * N)).
  { destruct (Z.eqb_spec fw 3) as [H3|]; [|done]. rewrite u32_id; unfold N in *; nia. }
  rewrite Hbs. clear Hbs. set (bs := if fw =? 3 then 4 * N else fw * N).
  assert (Hrb : u32 (bs - ba * n) = (if fw =? 3 then N else 0) ∧ u32 (bs + 1) = bs + 1 ∧ ba * n ≤ bs).
  { unfold bs. destruct (Z.eqb_spec fw 3) as [H3|]; rewrite !u32_id by nia; nia. }
  destruct Hrb as (-> & -> & Hbsn). rewrite (i32_id (ba * n)) by lia. set (rb := if fw =? 3 then N else 0).
  assert (Hrb : 0 ≤ rb ∧ rb + zlen got ≤ bs + 1) by (unfold rb, bs in *; destruct (Z.eqb_spec fw 3) as [H3|]; nia).
  pose proof (read_at bytes pf ctx (ba * n) Hok ltac:(lia)) as Hrd. apply wp_some in Hrd as ([out ctx'] & Hrd & Hout' & Hok').
  fold got in Hout'. subst out. rewrite Hrd. cbn [mbind option_bind]. exists ctx'. cbv zeta.
  rewrite memcpy_in by (rewrite ?zlen_replicate; lia). rewrite slice_all. cbn [mbind option_bind].
  destruct (Z.leb_spec (zlen got) 0) as [Hz|Hz].
  { assert (Hnil : got = []) by (apply nil_length_inv; unfold zlen in Hz; lia).
    assert (Hnr0 : nr = 0) by (unfold nr; replace (zlen got) with 0 by lia; apply Z.div_0_l; lia). clearbody nr. subst nr. rewrite Hnil in Houts.
    assert (outs = []) as -> by (apply Forall2_length in Houts; pose proof (zlen_source_words pf (0 * ch) [] ltac:(lia));
      unfold zlen in *; destruct outs; [done|simpl in *; lia]).
    assert (Hzl : zlen got = 0) by (by rewrite Hnil). rewrite Hzl, Z.add_0_r in *. rewrite Z.mul_0_l, Z.mul_0_r.
    split; [|split; [done|lia]]. reflexivity. }
  assert (Hgb : Forall byte got) by (unfold got, slice; by apply Forall_take, Forall_drop).
  assert (HnN : nr * ch ≤ N) by (unfold N; nia).
  destruct (native_buffer pf got (nr * ch) N Hsrc Hhost Hgb ltac:(nia) ltac:(fold fw; nia)) as [rest Hnat].
  cbv zeta in Hnat. fold fw in Hnat. fold rb in Hnat. fold bs in Hnat. fold nr. 
  assert (Hin : PcmFile.filepos pf + zlen got ≤ zlen bytes).
  { unfold got, slice, zlen in Hz |- *. rewrite length_take, length_drop in Hz |- *. lia. }
  change (PcmFile.filepos (pf <| PcmFile.io := Some ctx' |>)) with (PcmFile.filepos pf).
  unfold u64. rewrite (Z.mod_small (PcmFile.filepos pf + zlen got)) by lia.
  change (pf <| PcmFile.io := Some ctx' |> <| PcmFile.filepos := PcmFile.filepos pf + zlen got |>)
    with (moved pf ctx' (PcmFile.filepos pf + zlen got)).
  change (PcmFile.order (moved _ _ _)) with (PcmFile.order pf). change (PcmFile.bit_width (moved _ _ _)) with (PcmFile.bit_width pf).
  change (PcmFile.block_align (moved _ _ _)) with ba. change (PcmFile.channels (moved _ _ _)) with ch. fold nr.
  rewrite Hnat. cbn [mbind option_bind].
  pose proof (zlen_source_words pf (nr * ch) got ltac:(nia)) as Hzl.
  pose proof (convert_words _ _ fn output _ outs rest Hf Hr Hfn Houts) as Hcv. rewrite Hzl in Hcv. rewrite (Hcv Hout).
  split; [done|]. split; [done|]. lia.
Qed.

(** C14: Reading samples of any format, in either byte order and on either
    kind of host (24 bits and less in three bytes only on little-endian ones),
    within the data chunk or up to the end of the file: as many whole samples
    as are asked for, as one read allows and as there are are returned; each
    word of the output is the conversion of the sample that the bytes
    of the file stand for, the position moves on by the bytes read, and nothing
    else changes. *)
Theorem pcmfile_read_samples_correct bytes pf ctx output num outs :
  pcm_ok bytes pf ctx → source_ok pf → read_ok pf num → zlen bytes < 2 ^ 63 →
  words_bigendian = false ∨ file_width (PcmFile.source_format pf) ≠ 3 →
  let got := slice bytes (PcmFile.filepos pf) (PcmFile.block_align pf * request pf num) in
  let nr := zlen got / PcmFile.block_align pf in
  let w := pcm_width (PcmFile.read_format pf) in
  Forall2 (converted (PcmFile.source_format pf) (PcmFile.read_format pf)) (source_words pf (nr * PcmFile.channels pf) got) outs →
  w * (nr * PcmFile.channels pf) ≤ zlen output →
  ∃ ctx', let pf' := moved pf ctx' (PcmFile.filepos pf + zlen got) in
    pcmfile_read_samples pf output num = Some (nr, words w outs ++ drop (Z.to_nat (w * (nr * PcmFile.channels pf))) output, pf') ∧
    pcm_ok bytes pf' ctx' ∧ 0 ≤ nr ≤ request pf num ≤ num.
Proof. apply read_samples_spec. Qed.

End read_samples.

(** Two stereo samples of 24 bits, big-endian in the file, as 16 bits. *)
Lemma pcmfile_read_samples_correct_witness :
  let T := {| words_bigendian := false |} in
  let N := {| nan_to_float := id; nan_to_double := id |} in
  let bytes := [9; 1; 2; 3; 255; 0; 0; 127; 255; 255; 128; 0; 0] in
  let io := byteio_init (FILE.mk bytes 1 true) in
  let pf := PcmFile.mk T N (choose_converter 4 2 None) (Some io) 1 true 0 13 1 12 2 0 0 None PCM_BYTE_ORDER_BE 2 3 48000 6 24 4 2 0 in
  ∃ ctx', pcmfile_read_samples pf (replicate 10 0) 5 = Some (2, [2; 1; 0; 255; 255; 127; 0; 128; 0; 0], moved pf ctx' 13).
Proof.
  intros T N bytes io pf.
  destruct (byteio_init_spec (FILE.mk bytes 1 true) ltac:(simpl; lia)) as (Hio & Hst & _ & Hc & Hs).
  assert (Hok : pcm_ok bytes pf io).
  { split; [reflexivity|exact Hio|exact Hc|exact Hs|exact Hst|simpl; lia|]. unfold bytes, byte. repeat constructor; lia. }
  assert (Hsrc : source_ok pf) by (split; try reflexivity; try (vm_compute; intuition discriminate); by right).
  assert (Hread : read_ok pf 5) by (split; vm_compute; intuition discriminate).
  assert (Hwords : source_words pf 4 (slice bytes 1 12) = [66051; -65536; 8388607; -8388608]) by (by vm_compute).
  destruct (pcmfile_read_samples_correct bytes pf io (replicate 10 0) 5 [258; -256; 32767; -32768] Hok Hsrc Hread
    ltac:(by vm_compute) ltac:(by left)) as (ctx' & Hr & _).
  - change (Forall2 (converted 4 2) (source_words pf 4 (slice bytes 1 12)) [258; -256; 32767; -32768]). rewrite Hwords.
    repeat constructor.
  - vm_compute. discriminate.
  - exists ctx'. exact Hr.
Defined.

(** * A ragged end *)

Section ragged.
Context `{Target} `{NanBits}.
Implicit Types pf : PcmFile.t.

(** When the data chunk of a file with samples of three bytes ends
    with a part of a sample, and the bytes of that part outnumber the samples
    of the last read, that read starts in front of its buffer: the buffer is
    sized for the whole samples but filled with all the bytes that are left. *)
Theorem ragged_tail_overflows bytes pf ctx output num :
  pcm_ok bytes pf ctx → source_ok pf → file_width (PcmFile.source_format pf) = 3 →
  PcmFile.read_to_eof pf = 0 → PcmFile.data_start pf + PcmFile.data_size pf < 2 ^ 63 → PcmFile.filepos pf < zlen bytes →
  let ba := PcmFile.block_align pf in
  let avail := PcmFile.data_start pf + PcmFile.data_size pf - PcmFile.filepos pf in
  let n := avail / ba in
  1 ≤ n → num ≤ PCM_MAX_READ → avail ≤ ba * num < 2 ^ 31 → n * PcmFile.channels pf < avail mod ba →
  pcmfile_read_samples pf output num = None.
Proof.
  intros Hok Hsrc Hfw Heof Hend Hpos ba avail n Hn Hnum Hreq Htail. pose proof Hok as [Hio _ _ _ _ Hp0 _].
  destruct Hsrc as [Hf Hr Hch Ho Hal Hbits Hconv]. fold ba in Hal. rewrite Hfw in Hal. set (ch := PcmFile.channels pf) in *.
  assert (Hdm : avail = ba * n + avail mod ba) by (apply Z.div_mod; lia).
  assert (Hmod : 0 ≤ avail mod ba < ba) by (apply Z.mod_pos_bound; lia).
  assert (Hrq : read_request pf num = Some (avail, n)).
  { unfold read_request. fold ba. rewrite MIN_min, Z.min_l by lia. unfold chk_int.
    replace ((- 2 ^ 31 <=? ba * num) && (ba * num <? 2 ^ 31)) with true by lia. cbn [mbind option_bind].
    rewrite (u32_id (ba * num)), Heof by lia. unfold avail in *.
    rewrite (u64_id (PcmFile.data_start pf + PcmFile.data_size pf)), (u64_id (PcmFile.filepos pf + ba * num)) by lia.
    replace ((0 =? 0) && (PcmFile.filepos pf + ba * num >=? PcmFile.data_start pf + PcmFile.data_size pf)) with true by lia.
    rewrite u32_id by lia. fold n. rewrite i32_id; [done|]. nia. }
  unfold pcmfile_read_samples. rewrite Hio, Hconv.
  destruct (converter_is_sample_loop (PcmFile.source_format pf) (PcmFile.read_format pf) None Hf Hr) as (fn & -> & _).
  fold ba. replace (ba <=? 0) with false by lia. rewrite Hrq. cbn [mbind option_bind]. replace (n <=? 0) with false by lia.
  fold ch. replace (ch =? 0) with false by lia. cbn [mbind option_bind].
  replace (Z.quot ba ch) with 3 by (rewrite Z.quot_div_nonneg, Hal, Z.div_mul; lia). cbn [Z.eqb Pos.eqb].
  assert (Hbs : u32 (n * 4 * ch) = 4 * (n * ch)) by (rewrite u32_id; nia). rewrite Hbs.
  rewrite i32_id by lia. pose proof (read_at bytes pf ctx avail Hok ltac:(lia)) as Hrd.
  apply wp_some in Hrd as ([got ctx'] & -> & Hgot & _). cbn [mbind option_bind].
  unfold memcpy. rewrite zlen_replicate. rewrite (u32_id (4 * (n * ch) + 1)) by nia.
  assert (Hrb : u32 (4 * (n * ch) - avail) = 2 ^ 32 - (avail mod ba - n * ch)).
  { unfold u32. replace (4 * (n * ch) - avail) with (2 ^ 32 - (avail mod ba - n * ch) + (-1) * 2 ^ 32) by nia.
    rewrite Z.mod_add by lia. apply Z.mod_small. nia. }
  rewrite Hrb. pose proof (zlen_nonneg got).
  replace ((0 <=? _) && _ && _ && _ && _) with false; [done|]. symmetry. rewrite !andb_false_iff. left. right.
  apply Z.leb_gt. nia.
Qed.
End ragged.

(** In a file of 21 bytes with 5 bytes of data left. *)
Lemma ragged_tail_overflows_witness :
  let T := {| words_bigendian := false |} in
  let N := {| nan_to_float := id; nan_to_double := id |} in
  let bytes := replicate 21 0 in
  let io := byteio_init (FILE.mk bytes 16 true) in
  let pf := PcmFile.mk T N (choose_converter 4 2 None) (Some io) 16 true 0 21 0 21 7 0 1 None PCM_BYTE_ORDER_LE 1 4 48000 3 24 4 2 1 in
  pcmfile_read_samples pf (replicate 8 0) 4 = None.
Proof.
  intros T N bytes io pf. destruct (byteio_init_spec (FILE.mk bytes 16 true) ltac:(simpl; lia)) as (Hio & Hst & _ & Hc & Hs).
  assert (Hok : pcm_ok bytes pf io).
  { split; [reflexivity|exact Hio|exact Hc|exact Hs|exact Hst|simpl; lia|]. unfold bytes, byte. apply Forall_replicate. lia. }
  assert (Hsrc : source_ok pf) by (split; try reflexivity; try (vm_compute; intuition discriminate); by left).
  apply (ragged_tail_overflows bytes pf io (replicate 8 0) 4 Hok Hsrc); vm_compute; intuition discriminate.
Defined.

