(* ===== verification/PcmFormats.v ===== *)
(** The file formats of the PCM library: [pcm/wav.c], [pcm/aiff.c], [pcm/caff.c],
    [pcm/raw.c], their registration and detection in [pcm/formats.c], and
    [pcmfile_init] of [pcm/pcmfile.c].  The parsers of the headers are written
    in a monad of the file's state; a C function that returns -1 ends in [Err].
    Their loops over the chunks take fuel, a number of chunks. *)
From Stdlib Require Import ZArith Lia ZifyBool Bool.
From stdpp Require Import base option list numbers.
From coqutil Require Import Datatypes.RecordSettersUsingExistingGetters.
From S2P Require Import Prelude CMachine Float Convert ByteIO PcmConvert PcmFile.
Local Open Scope Z_scope.
Local Open Scope carray_scope.

(** * The monad *)

Inductive outcome (A : Type) := Ok (a : A) | Err.
Arguments Ok {A} a.
Arguments Err {A}.

Definition M `{Target} `{NanBits} (A : Type) : Type := PcmFile.t → option (outcome A * PcmFile.t).

Section monad.
Context `{Target} `{NanBits}.

#[global] Instance M_ret : MRet M := λ A a pf, Some (Ok a, pf).
#[global] Instance M_bind : MBind M := λ A B k m pf,
  match m pf with
  | Some (Ok a, pf) => k a pf
  | Some (Err, pf) => Some (Err, pf)
  | None => None
  end.

Definition fail {A} : M A := λ pf, Some (Err, pf).
Definition undefined {A} : M A := λ _, None.
Definition get : M PcmFile.t := λ pf, Some (Ok pf, pf).
Definition modify (f : PcmFile.t → PcmFile.t) : M unit := λ pf, Some (Ok tt, f pf).
(** A computation on the structure alone, which may be undefined. *)
Definition lift {A} (m : option A) : M A := λ pf, a ← m; Some (Ok a, pf).
Definition update (f : PcmFile.t → option PcmFile.t) : M unit := λ pf, pf ← f pf; Some (Ok tt, pf).
Definition check (bad : bool) : M unit := if bad then fail else mret tt.
End monad.

(** * Reading integers *)

Section formats.
Context `{Target} `{NanBits}.
Import PcmFile.

(** [byteio_read(&x, n, &pf->io)]: the bytes of [x]. *)
Definition read_bytes (n : Z) : M (list Z) := λ pf,
  ctx ← io pf;
  '(out, ctx) ← byteio_read n ctx;
  Some (Ok out, pf <| io := Some ctx |>).

(** A word of [n] bytes, brought to the host's byte order; 0 at the end of the file. *)
Definition read_word (n : Z) (to_host : Z → Z) : M Z :=
  out ← read_bytes n;
  if zlen out =? n then
    x ← lift (load n out 0);
    _ ← modify (λ pf, pf <| filepos := u64 (filepos pf + n) |>);
    mret (to_host x)
  else mret 0.

Definition read4le : M Z := read_word 4 le2me_32.
Definition read2le : M Z := read_word 2 le2me_16.
Definition read8be : M Z := read_word 8 be2me_64.
Definition read4be : M Z := read_word 4 be2me_32.
Definition read2be : M Z := read_word 2 be2me_16.

(** [if (pcmfile_seek_set(pf, dest)) return -1] *)
Definition seek_to (dest : Z) : M unit :=
  r ← ((λ pf, '(r, pf) ← pcmfile_seek_set dest pf; Some (Ok r, pf)) : M Z);
  check (negb (r =? 0)).

(** [pcmfile_seek_set(pf, pf->filepos + n)] *)
Definition skip_ahead (n : Z) : M unit :=
  pf ← get;
  seek_to (u64 (filepos pf + n)).

(** * wav.c *)

Definition RIFF_ID : Z := 0x46464952.
Definition WAVE_ID : Z := 0x45564157.
Definition FMT__ID : Z := 0x20746D66.
Definition DATA_ID : Z := 0x61746164.

Definition wave_probe (data : list Z) (size : Z) : option Z :=
  if size <? 12 then Some 0
  else
    d0 ← aget data 0; d1 ← aget data 1; d2 ← aget data 2; d3 ← aget data 3;
    let id := i32 (Z.lor (Z.lor (Z.lor d0 (Z.shiftl d1 8)) (Z.shiftl d2 16)) (Z.shiftl d3 24)) in
    if negb (id =? RIFF_ID) then Some 0
    else
      d8 ← aget data 8; d9 ← aget data 9; d10 ← aget data 10; d11 ← aget data 11;
      let id := i32 (Z.lor (Z.lor (Z.lor d8 (Z.shiftl d9 8)) (Z.shiftl d10 16)) (Z.shiftl d11 24)) in
      if negb (id =? WAVE_ID) then Some 0 else Some 100.

(** The ["fmt "] chunk: the plain fields, the extension, the sample type, and
    the checks. *)
Definition wave_fmt_fields : M unit :=
  x ← read2le; _ ← modify (λ pf, pf <| internal_fmt := x |>);
  ch ← read2le; mask ← lift (pcm_get_default_ch_mask ch);
  _ ← modify (λ pf, pf <| channels := ch |> <| ch_mask := mask |>);
  sr ← read4le; _ ← modify (λ pf, pf <| sample_rate := i32 sr |>);
  _ ← read4le;
  _ ← read2le;
  bw ← read2le;
  modify (λ pf, pf <| bit_width := bw |> <| block_align := MAX 1 (Z.shiftr (bw + 7) 3 * channels pf) |>
                   <| order := PCM_BYTE_ORDER_LE |>).

Definition wave_fmt_extension (chunksize : Z) : M Z :=
  pf ← get;
  if (internal_fmt pf =? WAVE_FORMAT_EXTENSIBLE) && (chunksize >=? 10) then
    _ ← read4le;
    mask ← read4le; _ ← modify (λ pf, pf <| ch_mask := mask |>);
    x ← read2le; _ ← modify (λ pf, pf <| internal_fmt := x |>);
    mret (chunksize - 10)
  else mret chunksize.

Definition wave_fmt_chunk (chunksize : Z) : M unit :=
  _ ← check (chunksize <? 16);
  _ ← wave_fmt_fields;
  chunksize ← wave_fmt_extension (chunksize - 16);
  pf ← get;
  _ ← (if internal_fmt pf =? WAVE_FORMAT_IEEEFLOAT then modify (λ pf, pf <| sample_type := PCM_SAMPLE_TYPE_FLOAT |>)
       else if internal_fmt pf =? WAVE_FORMAT_PCM then modify (λ pf, pf <| sample_type := PCM_SAMPLE_TYPE_INT |>)
       else fail);
  _ ← check (channels pf =? 0);
  _ ← check (sample_rate pf =? 0);
  _ ← check (bit_width pf =? 0);
  skip_ahead chunksize.

(** Data up to the end of the file at most; the size 0 stands for all of it. *)
Definition limit_data (pf : PcmFile.t) : PcmFile.t :=
  if seekable pf && (file_size pf >? 0) then
    if data_size pf >? 0 then pf <| data_size := MIN (data_size pf) (u64 (file_size pf - data_start pf)) |>
    else pf <| data_size := u64 (file_size pf - data_start pf) |>
  else pf.

Definition wave_data_chunk (found_fmt : bool) (chunksize : Z) : M unit :=
  _ ← check (negb found_fmt);
  _ ← (if chunksize =? 0 then modify (λ pf, pf <| read_to_eof := 1 |>) else mret tt);
  _ ← modify (λ pf, limit_data (pf <| data_size := u64 chunksize |> <| data_start := filepos pf |>));
  modify (λ pf, pf <| samples := data_size pf / block_align pf |>).

(** [while (!found_data)] *)
Fixpoint wave_chunks (fuel : nat) (found_fmt : bool) : M unit :=
  match fuel with
  | O => undefined
  | S fuel =>
      id ← read4le;
      chunksize ← read4le;
      let id := i32 id in
      let chunksize := i32 chunksize in
      if id =? FMT__ID then _ ← wave_fmt_chunk chunksize; wave_chunks fuel true
      else if id =? DATA_ID then wave_data_chunk found_fmt chunksize
      else _ ← (if chunksize >? 0 then skip_ahead chunksize else mret tt); wave_chunks fuel found_fmt
  end.

(** The source format for a bit depth; [None] is the error. *)
Definition wave_sample_format (bit_width sample_type : Z) : option Z :=
  if bit_width =? 8 then Some PCM_SAMPLE_FMT_U8
  else if bit_width =? 16 then Some PCM_SAMPLE_FMT_S16
  else if bit_width =? 20 then Some PCM_SAMPLE_FMT_S20
  else if bit_width =? 24 then Some PCM_SAMPLE_FMT_S24
  else if bit_width =? 32 then
    Some (if sample_type =? PCM_SAMPLE_TYPE_FLOAT then PCM_SAMPLE_FMT_FLT
          else if sample_type =? PCM_SAMPLE_TYPE_INT then PCM_SAMPLE_FMT_S32 else PCM_SAMPLE_FMT_UNKNOWN)
  else if bit_width =? 64 then if sample_type =? PCM_SAMPLE_TYPE_FLOAT then Some PCM_SAMPLE_FMT_DBL else None
  else Some PCM_SAMPLE_FMT_UNKNOWN.

Definition set_format (choose : Z → Z → option Z) : M unit :=
  pf ← get;
  match choose (bit_width pf) (sample_type pf) with
  | Some fmt => update (pcmfile_set_source_format fmt)
  | None => fail
  end.

Definition wave_init (fuel : nat) : M unit :=
  id ← read4le;
  _ ← check (negb (i32 id =? RIFF_ID));
  _ ← read4le;
  id ← read4le;
  _ ← check (negb (i32 id =? WAVE_ID));
  _ ← wave_chunks fuel false;
  set_format wave_sample_format.

(** * aiff.c *)

(** An 80-bit number as an integer: [uint64_t] arithmetic, with the shift counts
    that the standard leaves undefined refused. *)
Definition ext2dbl (exponent mantissa : list Z) : option spec_float :=
  m ← for_up 0 8 (λ i m, b ← aget mantissa i; Some (u64 (Z.shiftl m 8 + b))) 0;
  e0 ← aget exponent 0; e1 ← aget exponent 1;
  let e := Z.lor (Z.shiftl (Z.land e0 0x7f) 8) e1 in
  if (e =? 0x7fff) && negb (m =? 0) then Some (S754_zero false)
  else
    let e := e - (16383 + 63) in
    let m := if negb (Z.land e0 0x80 =? 0) then u64 (- m) else m in
    m ← (if e >? 0 then if e <? 64 then Some (u64 (Z.shiftl m e)) else None
         else if e <? 0 then if - e <? 64 then Some (Z.shiftr m (- e)) else None
         else Some m);
    Some (fl_of_int double_format m).

Definition FORM_ID : Z := 0x464F524D.
Definition AIFF_ID : Z := 0x41494646.
Definition COMM_ID : Z := 0x434F4D4D.
Definition SSND_ID : Z := 0x53534E44.

(** The 10 bytes; all zero at the end of the file. *)
Definition readext : M (list Z) :=
  out ← read_bytes 10;
  if zlen out =? 10 then _ ← modify (λ pf, pf <| filepos := u64 (filepos pf + 10) |>); mret out
  else mret (replicate 10 0).

Definition aiff_probe (data : list Z) (size : Z) : option Z :=
  if size <? 12 then Some 0
  else
    d0 ← aget data 0; d1 ← aget data 1; d2 ← aget data 2; d3 ← aget data 3;
    let id := i32 (Z.lor (Z.lor (Z.lor d3 (Z.shiftl d2 8)) (Z.shiftl d1 16)) (Z.shiftl d0 24)) in
    if negb (id =? FORM_ID) then Some 0
    else
      d8 ← aget data 8; d9 ← aget data 9; d10 ← aget data 10; d11 ← aget data 11;
      let id := i32 (Z.lor (Z.lor (Z.lor d11 (Z.shiftl d10 8)) (Z.shiftl d9 16)) (Z.shiftl d8 24)) in
      if negb (id =? AIFF_ID) then Some 0 else Some 100.

(** The local variables of [aiff_init] that the chunks set: [channels],
    [sample_rate], [block_align], [bits]. *)
Definition aiff_vars : Type := Z * Z * Z * Z.

(** [chunksize += chunksize & 1] *)
Definition pad_even (chunksize : Z) : M Z := lift (chk_int (chunksize + Z.land chunksize 1)).

Definition aiff_comm_chunk (chunksize : Z) : M aiff_vars :=
  _ ← check (chunksize <? 18);
  ch ← read2be;
  n ← read4be; _ ← modify (λ pf, pf <| samples := n |>);
  bits ← read2be;
  srate_ext ← readext;
  rate ← lift (x ← ext2dbl (take 2 srate_ext) (drop 2 srate_ext); F_to_int x);
  mask ← lift (pcm_get_default_ch_mask ch); _ ← modify (λ pf, pf <| ch_mask := mask |>);
  _ ← check (ch =? 0);
  _ ← check (rate <=? 0);
  _ ← check (bits =? 0);
  chunksize ← pad_even (chunksize - 18);
  _ ← skip_ahead chunksize;
  mret (ch, rate, MAX 1 (Z.shiftr (bits + 7) 3 * ch), bits).

Definition aiff_ssnd_chunk (found_comm : bool) (block_align : Z) : M unit :=
  _ ← check (negb found_comm);
  offset ← read4be;
  _ ← read4be;
  _ ← skip_ahead (i32 offset);
  modify (λ pf,
    let pf := pf <| data_size := u64 (block_align * samples pf) |> <| data_start := filepos pf |> in
    if seekable pf && (file_size pf >? 0) then
      let pf := pf <| data_size := MIN (data_size pf) (u64 (file_size pf - data_start pf)) |> in
      pf <| samples := data_size pf / block_align |>
    else pf).

(** [while (!found_ssnd)] *)
Fixpoint aiff_chunks (fuel : nat) (found_comm : bool) (vars : aiff_vars) : M aiff_vars :=
  match fuel with
  | O => undefined
  | S fuel =>
      id ← read4be;
      chunksize ← read4be;
      let id := i32 id in
      let chunksize := i32 chunksize in
      if id =? COMM_ID then vars ← aiff_comm_chunk chunksize; aiff_chunks fuel true vars
      else if id =? SSND_ID then
        let '(_, _, block_align, _) := vars in
        _ ← aiff_ssnd_chunk found_comm block_align;
        mret vars
      else
        chunksize ← pad_even chunksize;
        _ ← (if chunksize >? 0 then skip_ahead chunksize else mret tt);
        aiff_chunks fuel found_comm vars
  end.

Definition aiff_sample_format (bits : Z) : option Z :=
  if bits =? 8 then Some PCM_SAMPLE_FMT_S8
  else if bits =? 16 then Some PCM_SAMPLE_FMT_S16
  else if bits =? 20 then Some PCM_SAMPLE_FMT_S20
  else if bits =? 24 then Some PCM_SAMPLE_FMT_S24
  else if bits =? 32 then Some PCM_SAMPLE_FMT_S32
  else None.

Definition aiff_init (fuel : nat) : M unit :=
  id ← read4be;
  _ ← check (negb (i32 id =? FORM_ID));
  _ ← read4be;
  id ← read4be;
  _ ← check (negb (i32 id =? AIFF_ID));
  '(ch, rate, _, bits) ← aiff_chunks fuel false (2, 44100, 4, 16);
  match aiff_sample_format bits with
  | Some fmt =>
      _ ← modify (λ pf, pf <| internal_fmt := 0 |>);
      update (pcmfile_set_source_params ch fmt PCM_BYTE_ORDER_BE rate)
  | None => fail
  end.

(** * caff.c *)

Definition CAFF_ID : Z := 0x63616666.
Definition DESC_ID : Z := 0x64657363.
Definition CAFF_DATA_ID : Z := 0x64617461.
Definition LPCM_TAG : Z := 0x6C70636D.
Definition FLAG_IS_FLOAT : Z := 0x1.
Definition FLAG_IS_LITTLEENDIAN : Z := 0x2.

Definition read_dbl_be : M spec_float :=
  i ← read8be;
  mret (decode_double i).

Definition caff_probe (data : list Z) (size : Z) : option Z :=
  if size <? 6 then Some 0
  else
    d0 ← aget data 0; d1 ← aget data 1; d2 ← aget data 2; d3 ← aget data 3; d4 ← aget data 4; d5 ← aget data 5;
    let id := i32 (Z.lor (Z.lor (Z.lor d3 (Z.shiftl d2 8)) (Z.shiftl d1 16)) (Z.shiftl d0 24)) in
    if (id =? CAFF_ID) && (d4 =? 0) && (d5 =? 1) then Some 100 else Some 0.

(** The audio description, after its size. *)
Definition caff_desc : M unit :=
  rate ← read_dbl_be; rate ← lift (F_to_int rate); _ ← modify (λ pf, pf <| sample_rate := rate |>);
  x ← read4be; _ ← modify (λ pf, pf <| internal_fmt := i32 x |>);
  format_flags ← read4be;
  _ ← modify (λ pf, pf
    <| order := (if negb (Z.land format_flags FLAG_IS_LITTLEENDIAN =? 0) then PCM_BYTE_ORDER_LE else PCM_BYTE_ORDER_BE) |>
    <| sample_type := (if negb (Z.land format_flags FLAG_IS_FLOAT =? 0) then PCM_SAMPLE_TYPE_FLOAT else PCM_SAMPLE_TYPE_INT) |>);
  x ← read4be; _ ← modify (λ pf, pf <| block_align := i32 x |>);
  _ ← read4be;
  x ← read4be; mask ← lift (pcm_get_default_ch_mask (i32 x));
  _ ← modify (λ pf, pf <| channels := i32 x |> <| ch_mask := mask |>);
  x ← read4be; modify (λ pf, pf <| bit_width := i32 x |>).

Definition caff_sample_format (bit_width sample_type : Z) : option Z :=
  if bit_width =? 8 then Some PCM_SAMPLE_FMT_S8
  else if bit_width =? 16 then Some PCM_SAMPLE_FMT_S16
  else if bit_width =? 20 then Some PCM_SAMPLE_FMT_S20
  else if bit_width =? 24 then Some PCM_SAMPLE_FMT_S24
  else if bit_width =? 32 then
    Some (if sample_type =? PCM_SAMPLE_TYPE_FLOAT then PCM_SAMPLE_FMT_FLT
          else if sample_type =? PCM_SAMPLE_TYPE_INT then PCM_SAMPLE_FMT_S32 else PCM_SAMPLE_FMT_UNKNOWN)
  else if bit_width =? 64 then if sample_type =? PCM_SAMPLE_TYPE_FLOAT then Some PCM_SAMPLE_FMT_DBL else None
  else Some PCM_SAMPLE_FMT_UNKNOWN.

Definition caff_data_chunk (chunksize : Z) : M unit :=
  _ ← read4be;
  _ ← modify (λ pf, limit_data (pf <| data_size := u64 (chunksize - 4) |> <| data_start := filepos pf |>));
  modify (λ pf, pf <| samples := data_size pf / block_align pf |>).

(** [while (!found_data)] *)
Fixpoint caff_chunks (fuel : nat) : M unit :=
  match fuel with
  | O => undefined
  | S fuel =>
      id ← read4be;
      chunksize ← read8be;
      if i32 id =? CAFF_DATA_ID then caff_data_chunk chunksize
      else _ ← (if chunksize >? 0 then skip_ahead chunksize else mret tt); caff_chunks fuel
  end.

Definition caff_init (fuel : nat) : M unit :=
  id ← read4be; _ ← check (negb (id =? CAFF_ID));
  v ← read2be; _ ← check (negb (v =? 1));
  _ ← read2be;
  id ← read4be; _ ← check (negb (id =? DESC_ID));
  chunksize ← read8be; _ ← check (negb (chunksize =? 32));
  _ ← caff_desc;
  pf ← get;
  _ ← check (sample_rate pf <? 1);
  _ ← check (block_align pf <? 1);
  _ ← check ((channels pf <? 1) || (channels pf >? PCM_MAX_CHANNELS));
  _ ← check (negb (internal_fmt pf =? LPCM_TAG));
  _ ← set_format caff_sample_format;
  caff_chunks fuel.

(** * raw.c *)

Definition raw_probe (data : list Z) (size : Z) : option Z := if size <? 0 then Some 0 else Some 1.

Definition raw_init : M unit :=
  _ ← modify (λ pf,
    let pf := pf <| data_size := 0 |> <| data_start := 0 |> in
    let pf := if seekable pf && (file_size pf >? 0) then pf <| data_size := file_size pf |> else pf in
    pf <| read_to_eof := 1 |>);
  update (pcmfile_set_source_params 1 PCM_SAMPLE_FMT_S16 PCM_BYTE_ORDER_LE 48000).

(** * formats.c *)

Definition PCM_FORMAT_UNKNOWN : Z := -1.
Definition PCM_FORMAT_RAW : Z := 0.
Definition PCM_FORMAT_WAVE : Z := 1.
Definition PCM_FORMAT_AIFF : Z := 2.
Definition PCM_FORMAT_CAFF : Z := 3.

(** The names are left out, and [next] is the order in the list. *)
Record PcmFormat := {
  format : Z;
  probe : list Z → Z → option Z;
  init : nat → M unit
}.

Definition raw_format : PcmFormat := {| format := PCM_FORMAT_RAW; probe := raw_probe; init := λ _, raw_init |}.
Definition wave_format : PcmFormat := {| format := PCM_FORMAT_WAVE; probe := wave_probe; init := wave_init |}.
Definition aiff_format : PcmFormat := {| format := PCM_FORMAT_AIFF; probe := aiff_probe; init := aiff_init |}.
Definition caff_format : PcmFormat := {| format := PCM_FORMAT_CAFF; probe := caff_probe; init := caff_init |}.

(** [first_format], and whether the formats have been registered. *)
Record registry := { first_format : list PcmFormat; inited : bool }.

Definition pcmfile_register_format (fmt : PcmFormat) (r : registry) : registry :=
  {| first_format := first_format r ++ [fmt]; inited := inited r |}.

Definition pcmfile_register_all_formats (r : registry) : registry :=
  if inited r then r
  else
    let r := {| first_format := first_format r; inited := true |} in
    pcmfile_register_format caff_format (pcmfile_register_format aiff_format
      (pcmfile_register_format wave_format (pcmfile_register_format raw_format r))).

Fixpoint find_in (fmts : list PcmFormat) (number : Z) : option PcmFormat :=
  match fmts with
  | [] => None
  | fmt :: fmts => if format fmt =? number then Some fmt else find_in fmts number
  end.
Definition pcmfile_find_format (r : registry) (number : Z) : option PcmFormat := find_in (first_format r) number.

(** The first format with the best score. *)
Fixpoint probe_loop (fmts : list PcmFormat) (data : list Z) (size score_max : Z) (best : option PcmFormat) : option (option PcmFormat) :=
  match fmts with
  | [] => Some best
  | fmt :: fmts =>
      score ← probe fmt data size;
      if score >? score_max then probe_loop fmts data size score (Some fmt) else probe_loop fmts data size score_max best
  end.
Definition pcmfile_probe_format (r : registry) (data : list Z) (size : Z) : option (option PcmFormat) :=
  probe_loop (first_format r) data size 0 None.

(** * pcmfile.c *)

(** [pcmfile_init] on a structure of zeros; [stack] is what the array
    [probe_data] holds before it is filled, of which a file of less than 12
    bytes leaves a part.  [long] holds every file size. *)
Definition pcmfile_init (fuel : nat) (r : registry) (stack : list Z) (file : FILE.t) (rfmt ffmt : Z) : M unit :=
  let '(seekable_, size, file) :=
    match fseek file 0 SEEK_END with
    | Some file => (true, FILE.position file, default file (fseek file 0 SEEK_SET))
    | None => (false, 0, file)
    end in
  _ ← modify (λ pf, pf <| read_to_eof := 0 |> <| file_format := ffmt |> <| read_format := rfmt |>
    <| seekable := seekable_ |> <| file_size := size |> <| filepos := 0 |> <| io := Some (byteio_init file) |>);
  let r := pcmfile_register_all_formats r in
  fmt ← (if ffmt =? PCM_FORMAT_UNKNOWN then
           data ← ((λ pf, ctx ← io pf; '(out, ctx) ← byteio_peek 12 ctx; Some (Ok out, pf <| io := Some ctx |>)) : M (list Z));
           best ← lift (pcmfile_probe_format r (data ++ drop (length data) stack) 12);
           fmt ← lift best;
           _ ← modify (λ pf, pf <| file_format := format fmt |>);
           mret (Some fmt)
         else mret (pcmfile_find_format r ffmt));
  _ ← modify (λ pf, pf <| pcm_format := format <$> fmt |>);
  match fmt with
  | None => fail
  | Some fmt => init fmt fuel
  end.

Definition pcmfile_close (pf : PcmFile.t) : PcmFile.t := pf <| io := byteio_close (io pf) |>.
End formats.
