(* ===== verification/PcmParse.v ===== *)
(** What the parsers of the PCM library make of a file: a WAVE file, as RIFF
    describes it, is parsed back, and a file that ends before its data chunk
    keeps the parsers of all three formats busy for ever. *)
From Stdlib Require Import ZArith Lia ZifyBool Bool.
From stdpp Require Import base option list numbers.
From coqutil Require Import Datatypes.RecordSettersUsingExistingGetters.
From S2P Require Import Prelude CMachine Float Convert ByteIO PcmConvert PcmFile PcmRead PcmFormats.
Local Open Scope Z_scope.
Local Open Scope carray_scope.

Section parsing.
Context `{Target} `{NanBits}.
Implicit Types pf : PcmFile.t.

(** * The judgement of the monad *)

(** What [m] does from [pf], or [N] where it has no result. *)
Definition wpm_or {A} (N : Prop) (m : M A) pf (Q : outcome A → PcmFile.t → Prop) : Prop :=
  match m pf with Some (r, pf') => Q r pf' | None => N end.

Variable N : Prop.
Abbreviation wpm := (wpm_or N).

Lemma wpm_bind {A B} (m : M A) (k : A → M B) pf (Q : outcome B → PcmFile.t → Prop) :
  wpm m pf (λ r pf', match r with Ok a => wpm (k a) pf' Q | Err => Q Err pf' end) → wpm (m ≫= k) pf Q.
Proof. unfold wpm_or, mbind, M_bind. by destruct (m pf) as [[[a|] pf']|]. Qed.

Lemma wpm_mono {A} (m : M A) pf (P Q : outcome A → PcmFile.t → Prop) :
  wpm m pf P → (∀ r pf', P r pf' → Q r pf') → wpm m pf Q.
Proof. unfold wpm_or. destruct (m pf) as [[r pf']|]; auto. Qed.

Lemma wpm_ret {A} (a : A) pf Q : Q (Ok a) pf → wpm (mret a : M A) pf Q.
Proof. done. Qed.
Lemma wpm_modify f pf Q : Q (Ok tt) (f pf) → wpm (modify f) pf Q.
Proof. done. Qed.
Lemma wpm_get pf Q : Q (Ok pf) pf → wpm get pf Q.
Proof. done. Qed.
Lemma wpm_check b pf Q : b = false → Q (Ok tt) pf → wpm (check b) pf Q.
Proof. intros ->. by apply wpm_ret. Qed.
Lemma wpm_lift {A} (m : option A) a pf Q : m = Some a → Q (Ok a) pf → wpm (lift m) pf Q.
Proof. unfold wpm_or, lift. by intros ->. Qed.

(** * Reading what was written *)

(** [s] is what is left of the file. *)
Definition input (bytes : list Z) pf (s : list Z) : Prop :=
  (∃ ctx, pcm_ok bytes pf ctx) ∧ PcmFile.filepos pf ≤ zlen bytes < 2 ^ 31 ∧ s = drop (Z.to_nat (PcmFile.filepos pf)) bytes.

Lemma input_len bytes pf s : input bytes pf s → 0 ≤ PcmFile.filepos pf ∧ PcmFile.filepos pf + zlen s = zlen bytes.
Proof.
  intros ((ctx & [_ _ _ _ _ Hp _]) & Hl & ->). split; [done|]. unfold zlen in *. rewrite length_drop. lia.
Qed.

(** Updates that leave the position alone. *)
Lemma input_update bytes pf pf' s :
  PcmFile.io pf' = PcmFile.io pf → PcmFile.filepos pf' = PcmFile.filepos pf → PcmFile.seekable pf' = PcmFile.seekable pf →
  input bytes pf s → input bytes pf' s.
Proof.
  intros Hio Hpos Hsk ((ctx & [H1 H2 H3 H4 H5 H6 H7]) & Hl & ->). split; [|by rewrite Hpos].
  exists ctx. split; congruence.
Qed.

Lemma wpm_read_word bytes pf n to_host v s Q :
  input bytes pf (le_bytes (Z.to_nat n) v ++ s) → 0 < n →
  to_host (host_value (le_bytes (Z.to_nat n) v)) = v →
  (∀ ctx', let pf' := moved pf ctx' (PcmFile.filepos pf + n) in input bytes pf' s → Q (Ok v) pf') →
  wpm (read_word n to_host) pf Q.
Proof.
  intros Hin Hn Hv HQ. pose proof Hin as ((ctx & Hok) & Hlen & Hs). set (bs := le_bytes (Z.to_nat n) v) in *.
  assert (Hbs : zlen bs = n) by (unfold bs, zlen; rewrite length_le_bytes; lia).
  pose proof (read_at bytes pf ctx n Hok ltac:(lia)) as Hr. apply wp_some in Hr as ([out ctx'] & Hr & Hout & Hok').
  assert (Hob : out = bs).
  { rewrite Hout. unfold slice. rewrite <- Hs, take_app_le by (unfold zlen in *; lia). apply take_ge. unfold zlen in *. lia. }
  unfold read_word. apply wpm_bind. unfold wpm_or, read_bytes. rewrite (ok_io _ _ _ Hok). cbn [mbind option_bind]. rewrite Hr. cbn [mbind option_bind].
  rewrite Hob, Hbs, Z.eqb_refl. apply wpm_bind, (wpm_lift _ (host_value bs)).
  { unfold load. rewrite Hbs. replace ((0 <=? 0) && ((0 + 1) * n <=? n)) with true by lia. unfold slice. rewrite Z.mul_0_l.
    change (Z.to_nat 0) with 0%nat. rewrite drop_0. rewrite take_ge by (unfold zlen in *; lia). done. }
  apply wpm_bind, wpm_modify, wpm_ret. rewrite Hv.
  destruct (input_len _ _ _ Hin) as [Hpos Hend]. rewrite zlen_app in Hend. pose proof (zlen_nonneg s). rewrite Hob, Hbs in Hok'.
  change (PcmFile.filepos (pf <| PcmFile.io := Some ctx' |>)) with (PcmFile.filepos pf). rewrite u64_id by lia.
  apply HQ. split; [by exists ctx'|]. split; [simpl; lia|]. simpl. rewrite Z2Nat.inj_add, <- drop_drop, <- Hs by lia.
  symmetry. apply drop_app_length'. unfold zlen in *. lia.
Qed.

Lemma byte_le_bytes n v : Forall byte (le_bytes n v).
Proof. revert v. induction n as [|n IH]; intros v; simpl; constructor; [apply u8_range|apply IH]. Qed.

(** Little-endian words on any host. *)
Lemma le2me_value (n : nat) (le2me bswap : Z → Z) v :
  (∀ x, le2me x = if words_bigendian then bswap x else x) →
  (∀ bs, length bs = n → Forall byte bs → bswap (le_value bs) = le_value (rev bs)) →
  0 ≤ v < 2 ^ (8 * Z.of_nat n) → le2me (host_value (le_bytes n v)) = v.
Proof.
  intros Hle Hsw Hv. rewrite Hle. unfold host_value. destruct words_bigendian.
  - rewrite Hsw by (try apply Forall_rev, byte_le_bytes; by rewrite length_rev, length_le_bytes).
    rewrite rev_involutive. by apply le_value_bytes.
  - by apply le_value_bytes.
Qed.

Lemma bswap_16_rev_list bs : length bs = 2%nat → Forall byte bs → bswap_16 (le_value bs) = le_value (rev bs).
Proof.
  intros Hl Hb. destruct bs as [|a [|b [|]]]; try done. repeat (apply Forall_cons_1 in Hb as [? Hb]). by apply bswap_16_rev.
Qed.

Lemma wpm_read4le bytes pf v s Q :
  input bytes pf (le_bytes 4 v ++ s) → 0 ≤ v < 2 ^ 32 →
  (∀ ctx', let pf' := moved pf ctx' (PcmFile.filepos pf + 4) in input bytes pf' s → Q (Ok v) pf') → wpm read4le pf Q.
Proof.
  intros Hin Hv HQ. apply (wpm_read_word bytes pf 4 le2me_32 v s); [done|lia| |done].
  by apply (le2me_value 4 _ bswap_32); [|apply bswap_32_rev_list|].
Qed.

Lemma wpm_read2le bytes pf v s Q :
  input bytes pf (le_bytes 2 v ++ s) → 0 ≤ v < 2 ^ 16 →
  (∀ ctx', let pf' := moved pf ctx' (PcmFile.filepos pf + 2) in input bytes pf' s → Q (Ok v) pf') → wpm read2le pf Q.
Proof.
  intros Hin Hv HQ. apply (wpm_read_word bytes pf 2 le2me_16 v s); [done|lia| |done].
  by apply (le2me_value 2 _ bswap_16); [|apply bswap_16_rev_list|].
Qed.

(** Skipping bytes that are there. *)
Lemma wpm_skip_ahead bytes pf n s Q :
  input bytes pf s → 0 ≤ n ≤ zlen s →
  (∀ ctx', let pf' := moved pf ctx' (PcmFile.filepos pf + n) in input bytes pf' (drop (Z.to_nat n) s) → Q (Ok tt) pf') →
  wpm (skip_ahead n) pf Q.
Proof.
  intros Hin Hn HQ. pose proof Hin as ((ctx & Hok) & Hlen & Hs). destruct (input_len _ _ _ Hin) as [Hpos Hend].
  unfold skip_ahead. apply wpm_bind, wpm_get. rewrite u64_id by lia. unfold seek_to. apply wpm_bind.
  pose proof (seek_set_spec bytes pf ctx (PcmFile.filepos pf + n) Hok ltac:(lia)) as Hseek.
  destruct (proj1 (wp_some _ _) (Hseek ltac:(destruct (PcmFile.seekable pf); lia))) as ([r pf'] & Hr & -> & ctx' & -> & Hok').
  unfold wpm_or. rewrite Hr. cbn [mbind option_bind wp]. apply wpm_check; [done|]. apply HQ. split; [by exists ctx'|].
  split; [simpl; lia|]. simpl. rewrite Z2Nat.inj_add, <- drop_drop, <- Hs by lia. done.
Qed.

(** * Chunks *)

Definition chunk (id : Z) (body : list Z) : list Z := le_bytes 4 id ++ le_bytes 4 (zlen body) ++ body.

(** A chunk that is skipped. *)
Definition other_chunk (c : Z * list Z) : Prop :=
  0 ≤ c.1 < 2 ^ 32 ∧ c.1 ≠ FMT__ID ∧ c.1 ≠ DATA_ID.
Definition chunks_bytes (cs : list (Z * list Z)) : list Z := concat (map (λ c, chunk c.1 c.2) cs).

Lemma zlen_chunk id body : zlen (chunk id body) = 8 + zlen body.
Proof. unfold chunk. rewrite !zlen_app. unfold zlen. rewrite !length_le_bytes. lia. Qed.

Lemma i32_eqb id k : 0 ≤ id < 2 ^ 32 → 0 ≤ k < 2 ^ 31 → (i32 id =? k) = (id =? k).
Proof.
  intros Hid Hk. destruct (Z.eqb_spec id k) as [-> |Hne]; [by rewrite i32_id, Z.eqb_refl by lia|].
  apply Z.eqb_neq. unfold i32, sext. change (2 ^ (32 - 1)) with 2147483648. intros He.
  destruct (decide (id < 2147483648)); [rewrite Z.mod_small in He; lia|].
  replace (id + 2147483648) with (id - 2147483648 + 1 * 2 ^ 32) in He by lia. rewrite Z.mod_add, Z.mod_small in He by lia. lia.
Qed.

Lemma wpm_skip_chunk bytes pf c s (found : bool) fuel Q :
  input bytes pf (chunk c.1 c.2 ++ s) → other_chunk c →
  (∀ ctx', let pf' := moved pf ctx' (PcmFile.filepos pf + zlen (chunk c.1 c.2)) in
     input bytes pf' s → wpm (wave_chunks fuel found) pf' Q) →
  wpm (wave_chunks (S fuel) found) pf Q.
Proof.
  destruct c as [id body]. unfold other_chunk. cbn [fst snd]. rewrite zlen_chunk. intros Hin (Hid & Hf & Hd) HQ.
  destruct (input_len _ _ _ Hin) as [Hpos Hlen]. rewrite zlen_app, zlen_chunk in Hlen. pose proof (proj1 (proj2 Hin)) as Hb.
  pose proof (zlen_nonneg s). pose proof (zlen_nonneg body). unfold chunk in Hin.
  rewrite <- !app_assoc in Hin. cbn [wave_chunks].
  apply wpm_bind, (wpm_read4le bytes pf id _ _ Hin Hid). intros c1. cbv zeta. intros Hin1.
  apply wpm_bind, (wpm_read4le bytes _ (zlen body) _ _ Hin1); [lia|]. intros c2. cbv zeta. intros Hin2.
  rewrite !i32_eqb by (unfold FMT__ID, DATA_ID; lia). replace (id =? FMT__ID) with false by lia. replace (id =? DATA_ID) with false by lia.
  rewrite i32_id by lia.
  assert (Hmove : ∀ c3 q, q = PcmFile.filepos pf + (8 + zlen body) → wpm (wave_chunks fuel found) (moved pf c3 q) Q →
    wpm (wave_chunks fuel found) (moved (moved (moved pf c1 (PcmFile.filepos pf + 4)) c2 (PcmFile.filepos pf + 4 + 4)) c3 q) Q) by done.
  apply wpm_bind. destruct (Z.gtb_spec (zlen body) 0) as [Hgt|Hle].
  - apply (wpm_skip_ahead bytes _ _ _ _ Hin2); [rewrite zlen_app; lia|]. intros c3. cbv zeta. intros Hin3. apply Hmove.
    { simpl. lia. }
    rewrite drop_app_length' in Hin3 by (unfold zlen; lia). simpl in Hin3 |- *.
    replace (PcmFile.filepos pf + 4 + 4 + zlen body) with (PcmFile.filepos pf + (8 + zlen body)) in * by lia.
    apply HQ. exact Hin3.
  - assert (Hnil : body = []) by (apply nil_length_inv; unfold zlen in *; lia). apply wpm_ret.
    specialize (HQ c2). rewrite Hnil in *. rewrite zlen_nil in HQ. simpl in Hin2 |- *.
    replace (PcmFile.filepos pf + (8 + 0)) with (PcmFile.filepos pf + 4 + 4) in HQ by lia. by apply HQ.
Qed.

Lemma moved_here pf ctx : PcmFile.io pf = Some ctx → moved pf ctx (PcmFile.filepos pf) = pf.
Proof. destruct pf. simpl. by intros ->. Qed.

Lemma wpm_skip_chunks bytes cs pf s (found : bool) fuel Q :
  input bytes pf (chunks_bytes cs ++ s) → Forall other_chunk cs →
  (∀ ctx', let pf' := moved pf ctx' (PcmFile.filepos pf + zlen (chunks_bytes cs)) in
     input bytes pf' s → wpm (wave_chunks fuel found) pf' Q) →
  wpm (wave_chunks (length cs + fuel) found) pf Q.
Proof.
  revert pf. induction cs as [|c cs IH]; intros pf Hin Hcs HQ.
  - pose proof Hin as ((ctx & Hok) & _). specialize (HQ ctx). change (chunks_bytes []) with (@nil Z) in *.
    rewrite zlen_nil, Z.add_0_r, moved_here in HQ by apply Hok. by apply HQ.
  - apply Forall_cons_1 in Hcs as [Hc Hcs]. change (chunks_bytes (c :: cs)) with (chunk c.1 c.2 ++ chunks_bytes cs) in *.
    rewrite <- app_assoc in Hin. simpl length. apply (wpm_skip_chunk bytes pf c _ found _ Q Hin Hc). intros c1. cbv zeta. intros Hin1.
    apply (IH _ Hin1 Hcs). intros c2. cbv zeta. simpl. intros Hin2. specialize (HQ c2).
    rewrite zlen_app, Z.add_assoc in HQ. by apply HQ.
Qed.

(** * The format chunk *)

(** The extension holds the sizes that are skipped, the channel mask and the
    tag of the samples. *)
Record wave_fmt := {
  wf_tag : Z; wf_channels : Z; wf_rate : Z; wf_byte_rate : Z; wf_align : Z; wf_bits : Z;
  wf_extension : option (Z * Z * Z);
  wf_rest : list Z
}.

(** What follows the 16 bytes of the plain format. *)
Definition fmt_more (f : wave_fmt) : list Z :=
  match wf_extension f with Some (sizes, mask, tag) => le_bytes 4 sizes ++ le_bytes 4 mask ++ le_bytes 2 tag | None => [] end ++
  wf_rest f.
Definition fmt_body (f : wave_fmt) : list Z :=
  le_bytes 2 (wf_tag f) ++ le_bytes 2 (wf_channels f) ++ le_bytes 4 (wf_rate f) ++ le_bytes 4 (wf_byte_rate f) ++
  le_bytes 2 (wf_align f) ++ le_bytes 2 (wf_bits f) ++ fmt_more f.

Definition fmt_tag (f : wave_fmt) : Z := match wf_extension f with Some (_, _, tag) => tag | None => wf_tag f end.
Definition fmt_mask (f : wave_fmt) : Z :=
  match wf_extension f with Some (_, mask, _) => mask | None => default 0 (pcm_get_default_ch_mask (wf_channels f)) end.
Definition fmt_type (f : wave_fmt) : Z :=
  if fmt_tag f =? WAVE_FORMAT_IEEEFLOAT then PCM_SAMPLE_TYPE_FLOAT else PCM_SAMPLE_TYPE_INT.

Record fmt_ok (f : wave_fmt) : Prop := {
  fo_tag : 0 ≤ wf_tag f < 2 ^ 16;
  fo_channels : 1 ≤ wf_channels f < 2 ^ 16;
  fo_rate : 1 ≤ wf_rate f < 2 ^ 31;
  fo_byte_rate : 0 ≤ wf_byte_rate f < 2 ^ 32;
  fo_align : 0 ≤ wf_align f < 2 ^ 16;
  fo_bits : 1 ≤ wf_bits f < 2 ^ 16;
  fo_extension : match wf_extension f with
    | Some (sizes, mask, tag) => wf_tag f = WAVE_FORMAT_EXTENSIBLE ∧ 0 ≤ sizes < 2 ^ 32 ∧ 0 ≤ mask < 2 ^ 32 ∧ 0 ≤ tag < 2 ^ 16
    | None => True
    end;
  fo_samples : fmt_tag f = WAVE_FORMAT_PCM ∨ fmt_tag f = WAVE_FORMAT_IEEEFLOAT
}.

Lemma default_mask_some ch : ∃ m, pcm_get_default_ch_mask ch = Some m.
Proof.
  unfold pcm_get_default_ch_mask. destruct (Z.ltb_spec ch 1), (Z.gtb_spec ch 6); simpl; eauto.
  assert (ch = 1 ∨ ch = 2 ∨ ch = 3 ∨ ch = 4 ∨ ch = 5 ∨ ch = 6) as Hc by lia. destruct_or! Hc; subst ch; by eexists.
Qed.

(** What the chunk leaves in the structure. *)
Definition with_fmt (f : wave_fmt) pf : PcmFile.t :=
  pf <| PcmFile.internal_fmt := fmt_tag f |> <| PcmFile.channels := wf_channels f |> <| PcmFile.ch_mask := fmt_mask f |>
     <| PcmFile.sample_rate := wf_rate f |> <| PcmFile.bit_width := wf_bits f |>
     <| PcmFile.block_align := MAX 1 (Z.shiftr (wf_bits f + 7) 3 * wf_channels f) |> <| PcmFile.order := PCM_BYTE_ORDER_LE |>
     <| PcmFile.sample_type := fmt_type f |>.

Lemma wpm_set bytes pf f s Q :
  input bytes pf s → PcmFile.io (f pf) = PcmFile.io pf → PcmFile.filepos (f pf) = PcmFile.filepos pf →
  PcmFile.seekable (f pf) = PcmFile.seekable pf → (input bytes (f pf) s → Q (Ok tt) (f pf)) → wpm (modify f) pf Q.
Proof. intros Hin Hio Hp Hsk HQ. apply wpm_modify, HQ. by apply (input_update _ pf). Qed.

(** Updates of a record in canonical form, done. *)
Ltac flat_state :=
  match goal with
  | |- wpm_or _ _ ?p _ => let q := eval unfold moved in p in let q := eval simpl in q in change p with q in *
  end.
Ltac read_le H c :=
  apply wpm_bind; first [eapply (wpm_read4le _ _ _ _ _ H) | eapply (wpm_read2le _ _ _ _ _ H)];
  [lia|]; clear H; intros c; cbv zeta; intros H; flat_state.
Ltac set_fields H :=
  apply wpm_bind, (wpm_set _ _ _ _ _ H); [done|done|done|]; clear H; intros H; flat_state.

Lemma wpm_fmt_fields bytes pf f s Q :
  input bytes pf (fmt_body f ++ s) → fmt_ok f →
  (∀ ctx' pf', pf' = (with_fmt f (moved pf ctx' (PcmFile.filepos pf + 16))) <| PcmFile.internal_fmt := wf_tag f |>
     <| PcmFile.ch_mask := default 0 (pcm_get_default_ch_mask (wf_channels f)) |> <| PcmFile.sample_type := PcmFile.sample_type pf |> →
     input bytes pf' (fmt_more f ++ s) → Q (Ok tt) pf') →
  wpm wave_fmt_fields pf Q.
Proof.
  destruct pf. intros Hin [Ht Hc Hr Hbr Ha Hb He Hs] HQ. unfold fmt_body in Hin. rewrite <- !app_assoc in Hin.
  destruct (default_mask_some (wf_channels f)) as [m Hm]. rewrite Hm in HQ. unfold wave_fmt_fields.
  read_le Hin c1. set_fields Hin.
  read_le Hin c2. apply wpm_bind, (wpm_lift _ m); [done|]. set_fields Hin.
  read_le Hin c3. set_fields Hin.
  read_le Hin c4. read_le Hin c5. read_le Hin c6.
  apply (wpm_set _ _ _ _ _ Hin); [done..|]. clear Hin. intros Hin. apply (HQ c6); [|exact Hin].
  unfold with_fmt, moved. simpl. rewrite i32_id by lia. f_equal. lia.
Qed.

Lemma wpm_extension bytes pf f s n Q :
  input bytes pf (fmt_more f ++ s) → fmt_ok f → PcmFile.internal_fmt pf = wf_tag f →
  n = match wf_extension f with Some _ => 10 | None => 0 end + zlen (wf_rest f) →
  (∀ ctx' pf', pf' = (moved pf ctx' (PcmFile.filepos pf + (n - zlen (wf_rest f)))) <| PcmFile.internal_fmt := fmt_tag f |>
     <| PcmFile.ch_mask := match wf_extension f with Some (_, mask, _) => mask | None => PcmFile.ch_mask pf end |> →
     input bytes pf' (wf_rest f ++ s) → Q (Ok (zlen (wf_rest f))) pf') →
  wpm (wave_fmt_extension n) pf Q.
Proof.
  intros Hin Hf Htag -> HQ. pose proof (zlen_nonneg (wf_rest f)) as Hrest. unfold wave_fmt_extension, fmt_more, fmt_tag in *.
  destruct Hf as [Ht _ _ _ _ _ He Hs]. unfold fmt_tag in Hs. apply wpm_bind, wpm_get. rewrite Htag.
  destruct (wf_extension f) as [[[sizes mask] tag]|].
  - destruct He as (He & Hsz & Hm & Htg). rewrite He, Z.eqb_refl.
    replace (10 + zlen (wf_rest f) >=? 10) with true by lia. cbn [andb]. destruct pf. rewrite <- !app_assoc in Hin.
    read_le Hin c1. read_le Hin c2. set_fields Hin. read_le Hin c3. set_fields Hin.
    apply wpm_ret. replace (10 + zlen (wf_rest f) - 10) with (zlen (wf_rest f)) in * by lia. apply (HQ c3); [|exact Hin].
    unfold moved. simpl. f_equal. lia.
  - replace (wf_tag f =? WAVE_FORMAT_EXTENSIBLE) with false by (unfold WAVE_FORMAT_EXTENSIBLE, WAVE_FORMAT_PCM, WAVE_FORMAT_IEEEFLOAT in *; lia).
    apply wpm_ret. rewrite Z.add_0_l, Z.sub_diag, Z.add_0_r in *. pose proof Hin as ((ctx & Hok) & _).
    apply (HQ ctx); [|exact Hin]. destruct pf. simpl in *. unfold moved. simpl. f_equal; [|done]. exact (ok_io _ _ _ Hok).
Qed.

Lemma wpm_fmt_chunk bytes pf f s Q :
  input bytes pf (fmt_body f ++ s) → fmt_ok f →
  (∀ ctx', let pf' := with_fmt f (moved pf ctx' (PcmFile.filepos pf + zlen (fmt_body f))) in input bytes pf' s → Q (Ok tt) pf') →
  wpm (wave_fmt_chunk (zlen (fmt_body f))) pf Q.
Proof.
  intros Hin Hf HQ. unfold wave_fmt_chunk.
  assert (Hlen : zlen (fmt_body f) = 16 + match wf_extension f with Some _ => 10 | None => 0 end + zlen (wf_rest f)).
  { unfold fmt_body, fmt_more. rewrite !zlen_app. unfold zlen. rewrite !length_le_bytes. destruct (wf_extension f) as [[[? ?] ?]|]; simpl; lia. }
  set (n := zlen (fmt_body f)) in *. pose proof (zlen_nonneg (wf_rest f)) as Hrest. clearbody n.
  apply wpm_bind, wpm_check; [destruct (wf_extension f); lia|].
  apply wpm_bind, (wpm_fmt_fields _ _ _ _ _ Hin Hf). clear Hin. intros c1 p1 Hp1 Hin.
  apply wpm_bind, (wpm_extension _ _ _ _ _ _ Hin Hf); [by rewrite Hp1|by destruct (wf_extension f); lia|]. clear Hin.
  intros c2 p2 Hp2 Hin. apply wpm_bind, wpm_get. rewrite Hp1 in Hp2. clear p1 Hp1.
  destruct Hf as [Ht Hc Hr _ _ Hb _ Hs].
  assert (Hp : p2 = (with_fmt f (moved pf c2 (PcmFile.filepos pf + n - zlen (wf_rest f)))) <| PcmFile.sample_type := PcmFile.sample_type pf |>).
  { subst p2. unfold with_fmt, moved, fmt_mask. destruct (wf_extension f) as [[[? ?] ?]|]; simpl; f_equal; lia. }
  clear Hp2. apply wpm_bind.
  assert (Htag : PcmFile.internal_fmt p2 = fmt_tag f) by (by rewrite Hp).
  apply (wpm_mono _ _ (λ r p3, r = Ok tt ∧ p3 = with_fmt f (moved pf c2 (PcmFile.filepos pf + n - zlen (wf_rest f))))).
  { rewrite Htag. unfold with_fmt, fmt_type in *. destruct Hs as [Hs|Hs]; rewrite Hs in *; apply wpm_modify; (split; [done|]);
      rewrite Hp; destruct pf; unfold moved; simpl; reflexivity. }
  intros r p3 [-> Hp3].
  assert (Hch : PcmFile.channels p2 = wf_channels f ∧ PcmFile.sample_rate p2 = wf_rate f ∧ PcmFile.bit_width p2 = wf_bits f) by (by rewrite Hp).
  destruct Hch as (-> & -> & ->). do 3 (apply wpm_bind, wpm_check; [lia|]).
  assert (Hin3 : input bytes p3 (wf_rest f ++ s)) by (apply (input_update _ p2); [by rewrite Hp3, Hp..|done]).
  apply (wpm_skip_ahead bytes _ _ _ _ Hin3); [rewrite zlen_app; pose proof (zlen_nonneg s); lia|].
  intros c3. cbv zeta. rewrite drop_app_length' by (unfold zlen; lia). intros Hin4.
  replace (moved p3 c3 (PcmFile.filepos p3 + zlen (wf_rest f))) with (with_fmt f (moved pf c3 (PcmFile.filepos pf + n))) in *.
  - by apply HQ.
  - rewrite Hp3. destruct pf. unfold with_fmt, moved. simpl. f_equal. lia.
Qed.

(** * A whole file *)

Lemma wpm_fmt_then bytes pf f s (found : bool) fuel Q :
  input bytes pf (chunk FMT__ID (fmt_body f) ++ s) → fmt_ok f →
  (∀ ctx', let pf' := with_fmt f (moved pf ctx' (PcmFile.filepos pf + zlen (chunk FMT__ID (fmt_body f)))) in
     input bytes pf' s → wpm (wave_chunks fuel true) pf' Q) →
  wpm (wave_chunks (S fuel) found) pf Q.
Proof.
  intros Hin Hf HQ. destruct (input_len _ _ _ Hin) as [Hpos Hlen]. pose proof (proj1 (proj2 Hin)) as Hb.
  rewrite zlen_app, zlen_chunk in *. pose proof (zlen_nonneg s). pose proof (zlen_nonneg (fmt_body f)).
  unfold chunk in Hin. rewrite <- !app_assoc in Hin. cbn [wave_chunks].
  apply wpm_bind, (wpm_read4le _ _ _ _ _ Hin); [done|]. clear Hin. intros c1. cbv zeta. intros Hin.
  apply wpm_bind, (wpm_read4le _ _ _ _ _ Hin); [lia|]. clear Hin. intros c2. cbv zeta. intros Hin.
  rewrite i32_eqb, Z.eqb_refl, i32_id by (done || lia).
  apply wpm_bind, (wpm_fmt_chunk _ _ _ _ _ Hin Hf). clear Hin. intros c3. cbv zeta. intros Hin. specialize (HQ c3).
  replace (PcmFile.filepos pf + (8 + zlen (fmt_body f))) with (PcmFile.filepos pf + 4 + 4 + zlen (fmt_body f)) in HQ by lia.
  by apply HQ.
Qed.

(** What the data chunk leaves. *)
Definition with_data (n : Z) pf : PcmFile.t :=
  pf <| PcmFile.data_size := n |> <| PcmFile.data_start := PcmFile.filepos pf |> <| PcmFile.samples := n / PcmFile.block_align pf |>.

Lemma wpm_data_then bytes pf data s fuel Q :
  input bytes pf (chunk DATA_ID data ++ s) → 0 < zlen data →
  PcmFile.file_size pf ≤ 0 ∨ PcmFile.file_size pf = zlen bytes →
  (∀ ctx', let pf' := with_data (zlen data) (moved pf ctx' (PcmFile.filepos pf + 8)) in input bytes pf' (data ++ s) → Q (Ok tt) pf') →
  wpm (wave_chunks (S fuel) true) pf Q.
Proof.
  intros Hin Hd Hfs HQ. destruct (input_len _ _ _ Hin) as [Hpos Hlen]. pose proof (proj1 (proj2 Hin)) as Hb.
  rewrite zlen_app, zlen_chunk in *. pose proof (zlen_nonneg s).
  unfold chunk in Hin. rewrite <- !app_assoc in Hin. cbn [wave_chunks].
  apply wpm_bind, (wpm_read4le _ _ _ _ _ Hin); [done|]. clear Hin. intros c1. cbv zeta. intros Hin.
  apply wpm_bind, (wpm_read4le _ _ _ _ _ Hin); [lia|]. clear Hin. intros c2. cbv zeta. intros Hin.
  rewrite !i32_eqb, i32_id by (done || lia). change (DATA_ID =? FMT__ID) with false. rewrite Z.eqb_refl. cbv iota.
  unfold wave_data_chunk. apply wpm_bind, wpm_check; [done|]. replace (zlen data =? 0) with false by lia.
  apply wpm_bind, wpm_ret, wpm_bind, wpm_modify, wpm_modify.
  set (p := moved (moved pf c1 (PcmFile.filepos pf + 4)) c2 (PcmFile.filepos (moved pf c1 (PcmFile.filepos pf + 4)) + 4)) in *.
  assert (Hlim : limit_data (p <| PcmFile.data_size := u64 (zlen data) |> <| PcmFile.data_start := PcmFile.filepos p |>) =
    p <| PcmFile.data_size := zlen data |> <| PcmFile.data_start := PcmFile.filepos p |>).
  { unfold limit_data. rewrite u64_id by lia. subst p. destruct pf. unfold moved. simpl in *. destruct (seekable && (file_size >? 0)) eqn:E; [|done].
    replace (zlen data >? 0) with true by lia. rewrite MIN_min, u64_id, Z.min_l by lia. done. }
  cbv beta. rewrite Hlim. specialize (HQ c2).
  replace (PcmFile.filepos pf + 8) with (PcmFile.filepos (moved pf c1 (PcmFile.filepos pf + 4)) + 4) in HQ by (simpl; lia). apply HQ. by apply (input_update _ p).
Qed.

Record wave_file := {
  wv_size : Z;
  wv_before : list (Z * list Z);
  wv_fmt : wave_fmt;
  wv_between : list (Z * list Z);
  wv_data : list Z;
  wv_after : list Z
}.

Definition wave_header (w : wave_file) : list Z :=
  le_bytes 4 RIFF_ID ++ le_bytes 4 (wv_size w) ++ le_bytes 4 WAVE_ID ++
  chunks_bytes (wv_before w) ++ chunk FMT__ID (fmt_body (wv_fmt w)) ++ chunks_bytes (wv_between w).
Definition wave_bytes (w : wave_file) : list Z := wave_header w ++ chunk DATA_ID (wv_data w) ++ wv_after w.

Record wave_ok (w : wave_file) : Prop := {
  wo_size : 0 ≤ wv_size w < 2 ^ 32;
  wo_before : Forall other_chunk (wv_before w);
  wo_fmt : fmt_ok (wv_fmt w);
  wo_between : Forall other_chunk (wv_between w)
}.

Lemma zlen_le_bytes n v : zlen (le_bytes n v) = Z.of_nat n.
Proof. unfold zlen. by rewrite length_le_bytes. Qed.

(** The header up to the chunk that follows; [N] and [Q] of the rest. *)
Lemma wpm_wave_header bytes pf w s fuel Q :
  input bytes pf (wave_header w ++ s) → wave_ok w →
  (∀ ctx', let pf' := with_fmt (wv_fmt w) (moved pf ctx' (PcmFile.filepos pf + zlen (wave_header w))) in
     input bytes pf' s →
     wpm (wave_chunks fuel true) pf' (λ r pf2, match r with Ok _ => wpm (set_format wave_sample_format) pf2 Q | Err => Q Err pf2 end)) →
  wpm (wave_init (length (wv_before w) + S (length (wv_between w) + fuel))) pf Q.
Proof.
  intros Hin [Hsz Hbe Hf Hbt] HQ. unfold wave_header in *. rewrite !zlen_app, !zlen_le_bytes in HQ. rewrite <- !app_assoc in Hin.
  unfold wave_init.
  apply wpm_bind, (wpm_read4le _ _ _ _ _ Hin); [done|]. clear Hin. intros c1. cbv zeta. intros Hin. apply wpm_bind, wpm_check; [done|].
  apply wpm_bind, (wpm_read4le _ _ _ _ _ Hin); [done|]. clear Hin. intros c2. cbv zeta. intros Hin.
  apply wpm_bind, (wpm_read4le _ _ _ _ _ Hin); [done|]. clear Hin. intros c3. cbv zeta. intros Hin. apply wpm_bind, wpm_check; [done|].
  apply wpm_bind, (wpm_skip_chunks _ _ _ _ _ _ _ Hin Hbe). clear Hin. intros c4. cbv zeta. intros Hin.
  apply (wpm_fmt_then _ _ _ _ _ _ _ Hin Hf). clear Hin. intros c5. cbv zeta. intros Hin.
  apply (wpm_skip_chunks _ _ _ _ _ _ _ Hin Hbt). clear Hin. intros c6. cbv zeta. intros Hin. specialize (HQ c6).
  set (p := moved (with_fmt _ _) _ _) in *.
  replace (with_fmt (wv_fmt w) _) with p in HQ; [by apply HQ|].
  subst p. destruct pf. unfold with_fmt, moved. simpl. f_equal. lia.
Qed.
End parsing.

(** * The parsers *)

Section theorems.
Context `{Target} `{NanBits}.
Implicit Types pf : PcmFile.t.

Lemma wave_format_bits bits ty fmt :
  wave_sample_format bits ty = Some fmt → 0 ≤ fmt → fmt ≤ 7 ∧ fmt_bits.[fmt] = bits.
Proof.
  intros Hfmt Hfmt0. unfold wave_sample_format in Hfmt.
  repeat match type of Hfmt with context [if ?b then _ else _] => destruct b eqn:? end; simplify_eq;
    try (revert Hfmt0; unfold PCM_SAMPLE_FMT_UNKNOWN; lia);
    match goal with E : (bits =? _) = true |- _ => apply Z.eqb_eq in E; by subst bits end.
Qed.

Lemma wpm_some {A} (m : M A) pf (Q : PcmFile.t → Prop) :
  wpm_or False m pf (λ r pf', ∃ a, r = Ok a ∧ Q pf') → ∃ a pf', m pf = Some (Ok a, pf') ∧ Q pf'.
Proof. unfold wpm_or. destruct (m pf) as [[r pf']|]; [|done]. intros (a & -> & HQ). eauto. Qed.

Lemma wpm_set_format N fmt choose pf (Q : outcome unit → PcmFile.t → Prop) :
  choose (PcmFile.bit_width pf) (PcmFile.sample_type pf) = Some fmt → 0 ≤ PcmFile.read_format pf ≤ 7 → 1 ≤ PcmFile.channels pf →
  PcmFile.order pf = PCM_BYTE_ORDER_LE ∨ PcmFile.order pf = PCM_BYTE_ORDER_BE →
  (∀ pf', pcmfile_set_source_format fmt pf = Some pf' → Q (Ok tt) pf') → wpm_or N (set_format choose) pf Q.
Proof.
  intros Hf Hr Hch Ho HQ. pose proof (set_source_format_ok fmt pf Hch Hr Ho) as Hwp. apply wp_some in Hwp as (pf' & Hset & Hpf').
  unfold set_format. apply wpm_bind, wpm_get. rewrite Hf. unfold wpm_or, update. rewrite Hset. cbn [mbind option_bind]. by apply HQ.
Qed.

(** What the structure is after it. *)
Lemma wave_init_spec w pf fmt fuel :
  let bytes := wave_bytes w in let f := wv_fmt w in
  input bytes pf bytes → wave_ok w → 0 < zlen (wv_data w) →
  PcmFile.file_size pf ≤ 0 ∨ PcmFile.file_size pf = zlen bytes → 0 ≤ PcmFile.read_format pf ≤ 7 →
  wave_sample_format (wf_bits f) (fmt_type f) = Some fmt → 0 ≤ fmt →
  (length (wv_before w) + length (wv_between w) + 2 ≤ fuel)%nat →
  ∃ pf', wave_init fuel pf = Some (Ok tt, pf') ∧ source_ok pf' ∧ input bytes pf' (wv_data w ++ wv_after w) ∧
    PcmFile.source_format pf' = fmt ∧ PcmFile.bit_width pf' = wf_bits f ∧ PcmFile.channels pf' = wf_channels f ∧
    PcmFile.sample_rate pf' = wf_rate f ∧ PcmFile.ch_mask pf' = fmt_mask f ∧ PcmFile.order pf' = PCM_BYTE_ORDER_LE ∧
    PcmFile.filepos pf' = PcmFile.data_start pf' ∧ PcmFile.data_start pf' = zlen (wave_header w) + 8 ∧
    PcmFile.data_size pf' = zlen (wv_data w) ∧ PcmFile.samples pf' = zlen (wv_data w) / PcmFile.block_align pf' ∧
    PcmFile.read_to_eof pf' = PcmFile.read_to_eof pf ∧ PcmFile.read_format pf' = PcmFile.read_format pf.
Proof.
  intros bytes f Hin Hw Hd Hfs Hrf Hfmt Hfmt0 Hfuel. destruct (input_len _ _ _ Hin) as [Hpos Hlen].
  assert (Hp0 : PcmFile.filepos pf = 0) by lia.
  destruct (wave_format_bits _ _ _ Hfmt Hfmt0) as [Hfmt7 Hbits].
  enough (Hwp : wpm_or False (wave_init fuel) pf _) by (apply wpm_some in Hwp as ([] & Hwp); exact Hwp).
  replace fuel with (length (wv_before w) + S (length (wv_between w) + S (fuel - (length (wv_before w) + length (wv_between w) + 2))))%nat by lia.
  apply (wpm_wave_header _ bytes pf w _ _ _ Hin Hw). intros c1. cbv zeta. intros Hin1.
  eapply (wpm_data_then _ bytes _ _ _ _ _ Hin1 Hd); [done|]. intros c2. cbv zeta. intros Hin2. cbv beta iota.
  set (p := with_data _ _) in *. apply (wpm_set_format _ fmt); [done|done|simpl; apply Hw|by left|].
  intros pf' Hset. pose proof (set_source_format_ok fmt p) as Hwp. rewrite Hset in Hwp.
  destruct Hwp as (Hok & Hsf & Hch & Hsm & Hio & Hp & Hsk & Hds & Hdz & Hr & Ho & He & Hsr & Hmask); [simpl; apply Hw|done|by left|]. exists tt. split; [done|].
  assert (Hclip : CLIP fmt 0 7 = fmt) by (rewrite CLIP_clip; lia). rewrite Hclip in *.
  assert (Hba : PcmFile.block_align pf' = file_width fmt * wf_channels f) by (rewrite (so_align _ Hok), Hsf, Hch; done).
  split_and!; try done.
  - by apply (input_update _ p).
  - by rewrite (so_bits _ Hok), Hsf.
  - rewrite Hp, Hds. done.
  - rewrite Hds. simpl. lia.
  - by rewrite Hsm, Hba.
Qed.

(** *** Files as RIFF describes them

    A chunk of odd size is followed by a byte of padding that its size does not
    count. *)
Definition padding (body : list Z) : list Z := if Z.odd (zlen body) then [0] else [].
Definition riff_chunk (id : Z) (body : list Z) : list Z := chunk id body ++ padding body.
Definition riff_chunks (cs : list (Z * list Z)) : list Z := concat (map (λ c, riff_chunk c.1 c.2) cs).
Definition riff_bytes (w : wave_file) : list Z :=
  le_bytes 4 RIFF_ID ++ le_bytes 4 (wv_size w) ++ le_bytes 4 WAVE_ID ++
  riff_chunks (wv_before w) ++ riff_chunk FMT__ID (fmt_body (wv_fmt w)) ++ riff_chunks (wv_between w) ++
  riff_chunk DATA_ID (wv_data w) ++ wv_after w.

(** No chunk before the data needs padding. *)
Definition even_chunk (c : Z * list Z) : Prop := Z.odd (zlen c.2) = false.
Definition even_header (w : wave_file) : Prop :=
  Forall even_chunk (wv_before w) ∧ Z.odd (zlen (fmt_body (wv_fmt w))) = false ∧ Forall even_chunk (wv_between w).

(** The bytes behind the samples. *)
Definition behind_data (w : wave_file) : list Z := padding (wv_data w) ++ wv_after w.

Lemma riff_chunks_even cs : Forall even_chunk cs → riff_chunks cs = chunks_bytes cs.
Proof.
  induction 1 as [|c cs Hc _ IH]; [done|]. change (riff_chunks (c :: cs)) with (riff_chunk c.1 c.2 ++ riff_chunks cs).
  change (chunks_bytes (c :: cs)) with (chunk c.1 c.2 ++ chunks_bytes cs). unfold even_chunk in Hc.
  unfold riff_chunk, padding. by rewrite Hc, app_nil_r, IH.
Qed.

Lemma riff_bytes_even w :
  even_header w → riff_bytes w = wave_bytes (Build_wave_file (wv_size w) (wv_before w) (wv_fmt w) (wv_between w) (wv_data w) (behind_data w)).
Proof.
  intros (Hb & Hf & Ht). unfold riff_bytes, wave_bytes, wave_header, behind_data.
  cbn [wv_size wv_before wv_fmt wv_between wv_data wv_after]. rewrite !riff_chunks_even by done.
  assert (He : riff_chunk FMT__ID (fmt_body (wv_fmt w)) = chunk FMT__ID (fmt_body (wv_fmt w)))
    by (unfold riff_chunk, padding; by rewrite Hf, app_nil_r).
  rewrite He. unfold riff_chunk. by rewrite <- !app_assoc.
Qed.

(** C21: A WAVE file, written as RIFF describes it, with a format chunk of 8, 16,
    20, 24, 32 or 64 bits per sample that the library has a format for, plain or
    extensible, and a data chunk, with other chunks of even size before and
    between them, is accepted with the number of the chunks as fuel: the
    structure describes the samples as the format chunk does, they start behind
    the header of the data chunk, fill it, and are what the reader finds next.
    Before the data no chunk may have an odd size, since the code does not skip
    the byte of padding behind it ([odd_chunk_misread]); the data may. *)
Theorem wave_init_correct w pf fmt fuel :
  let bytes := riff_bytes w in let f := wv_fmt w in
  input bytes pf bytes → wave_ok w → even_header w → 0 < zlen (wv_data w) →
  PcmFile.file_size pf ≤ 0 ∨ PcmFile.file_size pf = zlen bytes → 0 ≤ PcmFile.read_format pf ≤ 7 →
  wave_sample_format (wf_bits f) (fmt_type f) = Some fmt → 0 ≤ fmt →
  (length (wv_before w) + length (wv_between w) + 2 ≤ fuel)%nat →
  ∃ pf', wave_init fuel pf = Some (Ok tt, pf') ∧ source_ok pf' ∧ input bytes pf' (wv_data w ++ behind_data w) ∧
    PcmFile.source_format pf' = fmt ∧ PcmFile.bit_width pf' = wf_bits f ∧ PcmFile.channels pf' = wf_channels f ∧
    PcmFile.sample_rate pf' = wf_rate f ∧ PcmFile.ch_mask pf' = fmt_mask f ∧ PcmFile.order pf' = PCM_BYTE_ORDER_LE ∧
    PcmFile.filepos pf' = PcmFile.data_start pf' ∧ PcmFile.data_start pf' = zlen (wave_header w) + 8 ∧
    PcmFile.data_size pf' = zlen (wv_data w) ∧ PcmFile.samples pf' = zlen (wv_data w) / PcmFile.block_align pf' ∧
    PcmFile.read_to_eof pf' = PcmFile.read_to_eof pf ∧ PcmFile.read_format pf' = PcmFile.read_format pf.
Proof.
  intros bytes f Hin [Hw1 Hw2 Hw3 Hw4] Heven. unfold bytes in *. rewrite (riff_bytes_even w Heven) in *.
  apply (wave_init_spec (Build_wave_file (wv_size w) (wv_before w) (wv_fmt w) (wv_between w) (wv_data w) (behind_data w)) pf fmt fuel Hin).
  by split.
Qed.

(** Opening a file gives all of it as input. *)
Lemma input_open bytes pf :
  PcmFile.io pf = Some (byteio_init (FILE.mk bytes 0 (PcmFile.seekable pf))) → PcmFile.filepos pf = 0 →
  Forall byte bytes → zlen bytes < 2 ^ 31 → input bytes pf bytes.
Proof.
  intros Hio Hp Hb Hl. set (file := FILE.mk bytes 0 (PcmFile.seekable pf)) in *. pose proof (zlen_nonneg bytes).
  destruct (byteio_init_spec file ltac:(done)) as (Hok & Hst & _ & Hc & Hs).
  split; [|split; [lia|by rewrite Hp]]. exists (byteio_init file). split; try done; [by rewrite Hp|lia].
Qed.

(** * The end of the file *)

Definition at_end bytes pf : Prop := (∃ ctx, pcm_ok bytes pf ctx) ∧ zlen bytes ≤ PcmFile.filepos pf.

Lemma read_word_at_end bytes pf n to_host :
  at_end bytes pf → 0 < n → wpm_or False (read_word n to_host) pf (λ r pf', r = Ok 0 ∧ at_end bytes pf').
Proof.
  intros ((ctx & Hok) & Hend) Hn. pose proof (read_at bytes pf ctx n Hok ltac:(lia)) as Hr.
  apply wp_some in Hr as ([out ctx'] & Hr & Hout & Hok').
  assert (out = []) as -> by (rewrite Hout; unfold slice, zlen in *; rewrite drop_ge, take_nil by lia; done).
  unfold read_word. apply wpm_bind. unfold wpm_or, read_bytes. rewrite (ok_io _ _ _ Hok). cbn [mbind option_bind]. rewrite Hr.
  cbn [mbind option_bind]. rewrite zlen_nil. replace (0 =? n) with false by lia. simpl. split; [done|].
  split; [exists ctx'|done]. by rewrite Z.add_0_r in Hok'.
Qed.

Lemma at_end_then {A} bytes n to_host (k : Z → M A) pf :
  0 < n → at_end bytes pf → (∀ pf', at_end bytes pf' → k 0 pf' = None) → (read_word n to_host ≫= k) pf = None.
Proof.
  intros Hn Hend Hk. pose proof (read_word_at_end bytes pf n to_host Hend Hn) as Hr. unfold wpm_or, mbind, M_bind in *.
  destruct (read_word n to_host pf) as [[r pf']|]; [|done]. destruct Hr as [-> Hend']. by apply Hk.
Qed.

Lemma wave_chunks_at_end bytes fuel found pf : at_end bytes pf → wave_chunks fuel found pf = None.
Proof.
  revert pf. induction fuel as [|fuel IH]; intros pf Hend; [done|]. cbn [wave_chunks].
  apply (at_end_then bytes); [lia|done|]. clear pf Hend. intros pf Hend. apply (at_end_then bytes); [lia|done|]. apply IH.
Qed.

Lemma aiff_chunks_at_end bytes fuel found vars pf : at_end bytes pf → aiff_chunks fuel found vars pf = None.
Proof.
  revert pf. induction fuel as [|fuel IH]; intros pf Hend; [done|]. cbn [aiff_chunks].
  apply (at_end_then bytes); [lia|done|]. clear pf Hend. intros pf Hend. apply (at_end_then bytes); [lia|done|]. apply IH.
Qed.

Lemma caff_chunks_at_end bytes fuel pf : at_end bytes pf → caff_chunks fuel pf = None.
Proof.
  revert pf. induction fuel as [|fuel IH]; intros pf Hend; [done|]. cbn [caff_chunks].
  apply (at_end_then bytes); [lia|done|]. clear pf Hend. intros pf Hend. apply (at_end_then bytes); [lia|done|]. apply IH.
Qed.

(** Once the file has ended, the loops of all three parsers over
    the chunks run for ever: identifiers and sizes that cannot be read count as
    0, which is an unknown and empty chunk. *)
Theorem chunk_loops_hang_at_end bytes pf :
  at_end bytes pf →
  (∀ fuel found, wave_chunks fuel found pf = None) ∧
  (∀ fuel found vars, aiff_chunks fuel found vars pf = None) ∧
  (∀ fuel, caff_chunks fuel pf = None).
Proof.
  intros Hend. split_and!; intros.
  - by apply (wave_chunks_at_end bytes).
  - by apply (aiff_chunks_at_end bytes).
  - by apply (caff_chunks_at_end bytes).
Qed.

(** More fuel does not change a result. *)
Definition extends {A} (m m' : M A) : Prop := ∀ pf r, m pf = Some r → m' pf = Some r.

Lemma extends_bind {A B} (m m' : M A) (k k' : A → M B) : extends m m' → (∀ a, extends (k a) (k' a)) → extends (m ≫= k) (m' ≫= k').
Proof.
  intros Hm Hk pf r. unfold mbind, M_bind. destruct (m pf) as [[r1 pf1]|] eqn:E; [|done].
  rewrite (Hm _ _ E). destruct r1; [apply Hk|done].
Qed.
Lemma extends_refl {A} (m : M A) : extends m m.
Proof. by intros pf r. Qed.

Lemma wave_chunks_more fuel fuel' found : (fuel ≤ fuel')%nat → extends (wave_chunks fuel found) (wave_chunks fuel' found).
Proof.
  revert fuel' found. induction fuel as [|fuel IH]; intros fuel' found Hle; [by intros pf r|].
  destruct fuel' as [|fuel']; [lia|]. cbn [wave_chunks].
  do 2 (apply extends_bind; [apply extends_refl|intros ?]).
  repeat case_match; try apply extends_refl; (apply extends_bind; [apply extends_refl|intros ?; apply IH; lia]).
Qed.

Lemma wave_init_more fuel fuel' : (fuel ≤ fuel')%nat → extends (wave_init fuel) (wave_init fuel').
Proof.
  intros Hle. unfold wave_init. do 5 (apply extends_bind; [apply extends_refl|intros ?]).
  apply extends_bind; [by apply wave_chunks_more|intros ?; apply extends_refl].
Qed.

(** C38: A WAVE file that ends after its format chunk and any
    other chunks, with no data chunk, is neither parsed nor rejected, whatever
    the fuel. *)
Theorem wave_without_data_hangs w pf fuel :
  input (wave_header w) pf (wave_header w) → wave_ok w → wave_init fuel pf = None.
Proof.
  intros Hin Hw. destruct (wave_init fuel pf) as [r|] eqn:E; [|done]. exfalso.
  set (fuel' := (length (wv_before w) + S (length (wv_between w) + fuel))%nat).
  apply (wave_init_more fuel fuel' ltac:(lia)) in E. rewrite <- (app_nil_r (wave_header w)) in Hin at 2.
  enough (wpm_or True (wave_init fuel') pf (λ _ _, False)) as Hwp by (unfold wpm_or in Hwp; rewrite E in Hwp; by destruct r).
  apply (wpm_wave_header _ _ _ _ _ _ _ Hin Hw). intros c. cbv zeta. intros Hend. destruct (input_len _ _ _ Hend) as [_ Hl]. rewrite zlen_nil in Hl.
  unfold wpm_or. rewrite (wave_chunks_at_end (wave_header w)); [done|]. split; [apply Hend|lia].
Qed.
End theorems.

Definition sample_fmt : wave_fmt :=
  {| wf_tag := WAVE_FORMAT_EXTENSIBLE; wf_channels := 2; wf_rate := 44100; wf_byte_rate := 264600; wf_align := 6; wf_bits := 24;
     wf_extension := Some (0x180016, 3, WAVE_FORMAT_PCM); wf_rest := [0; 0; 0; 0; 16; 0; 128; 0; 0; 170; 0; 56; 155; 113] |}.
Definition sample_wave : wave_file :=
  {| wv_size := 100; wv_before := [(0x5453494C, [1; 2; 3; 4])]; wv_fmt := sample_fmt; wv_between := [(0x74636166, [])];
     wv_data := [1; 2; 3; 4; 5; 6; 7; 8; 9; 10; 11; 12]; wv_after := [99] |}.
Definition open_file (T : Target) (N : NanBits) (bytes : list Z) : PcmFile.t :=
  PcmFile.mk T N None (Some (byteio_init (FILE.mk bytes 0 true))) 0 true 0 (zlen bytes) 0 0 0 0 1 (Some 1) 0 0 0 0 0 0 0 2 0.

Lemma sample_fmt_ok : fmt_ok sample_fmt.
Proof. split; simpl; unfold fmt_tag, WAVE_FORMAT_EXTENSIBLE, WAVE_FORMAT_PCM; simpl; intuition lia. Qed.
Lemma sample_wave_ok : wave_ok sample_wave.
Proof. split; [simpl; lia| |apply sample_fmt_ok|]; repeat constructor; simpl; unfold FMT__ID, DATA_ID; lia. Qed.

Lemma open_file_input T N bytes : Forall byte bytes → zlen bytes < 2 ^ 31 → input bytes (open_file T N bytes) bytes.
Proof. by apply input_open. Qed.

(** An extensible file of two samples, with a chunk before and one after the format. *)
Lemma wave_init_correct_witness :
  let T := {| words_bigendian := false |} in
  let N := {| nan_to_float := id; nan_to_double := id |} in
  ∃ pf', wave_init 4 (open_file T N (riff_bytes sample_wave)) = Some (Ok tt, pf') ∧ PcmFile.source_format pf' = PCM_SAMPLE_FMT_S24 ∧
    PcmFile.channels pf' = 2 ∧ PcmFile.data_start pf' = 88 ∧ PcmFile.samples pf' = 2.
Proof.
  intros T N. assert (Hb : Forall byte (riff_bytes sample_wave)) by (unfold byte; vm_compute; repeat constructor; discriminate).
  destruct (wave_init_correct sample_wave (open_file T N (riff_bytes sample_wave)) PCM_SAMPLE_FMT_S24 4)
    as (pf' & Hrun & Hok & _ & Hf & _ & Hc & _ & _ & _ & _ & Hd & _ & Hs & _).
  - apply open_file_input; [done|by vm_compute].
  - apply sample_wave_ok.
  - split; [repeat constructor|split; [by vm_compute|repeat constructor]].
  - by vm_compute.
  - by right.
  - simpl. lia.
  - by vm_compute.
  - done.
  - simpl. lia.
  - exists pf'. split; [exact Hrun|]. split; [exact Hf|]. split; [exact Hc|]. split; [rewrite Hd; by vm_compute|].
    rewrite Hs, (so_align _ Hok), Hf, Hc. by vm_compute.
Defined.

(** At the end of an empty file. *)
Lemma chunk_loops_hang_at_end_witness :
  let T := {| words_bigendian := false |} in
  let N := {| nan_to_float := id; nan_to_double := id |} in
  let pf := open_file T N [] in
  (∀ fuel found, wave_chunks fuel found pf = None) ∧ (∀ fuel found vars, aiff_chunks fuel found vars pf = None) ∧
  (∀ fuel, caff_chunks fuel pf = None).
Proof.
  intros T N pf. apply (chunk_loops_hang_at_end []). split; [|change (0 ≤ 0); lia].
  assert (Hin : input [] pf []) by (apply open_file_input; [done|by vm_compute]). exact (proj1 Hin).
Defined.

(** The same file without its data. *)
Lemma wave_without_data_hangs_witness :
  let T := {| words_bigendian := false |} in
  let N := {| nan_to_float := id; nan_to_double := id |} in
  wave_init 1000 (open_file T N (wave_header sample_wave)) = None.
Proof.
  intros T N. assert (Hb : Forall byte (wave_header sample_wave)) by (unfold byte; vm_compute; repeat constructor; discriminate).
  apply (wave_without_data_hangs sample_wave); [apply open_file_input; [done|by vm_compute]|apply sample_wave_ok].
Defined.

(** A text of three characters in front of the format: the parser takes the
    padding for the first byte of the next header, runs into the end of the
    file, and has no result within a thousand chunks. *)
Definition odd_wave : wave_file :=
  {| wv_size := 100; wv_before := [(0x5453494C, [1; 2; 3])]; wv_fmt := sample_fmt; wv_between := [];
     wv_data := [1; 2; 3; 4; 5; 6; 7; 8; 9; 10; 11; 12]; wv_after := [] |}.
Example odd_chunk_misread :
  let T := {| words_bigendian := false |} in
  let N := {| nan_to_float := id; nan_to_double := id |} in
  wave_init 1000 (open_file T N (riff_bytes odd_wave)) = None.
Proof. vm_compute. reflexivity. Qed.
