(* ===== verification/Pcm.v ===== *)
(** [pcm/pcm.c]: up to six files read as one, the context of [pcm/pcm.h].  The
    theorems show how the samples of several mono files are interleaved, and
    what initialisation leaves. *)
From Stdlib Require Import ZArith Lia ZifyBool Bool.
From stdpp Require Import base option list numbers.
From coqutil Require Import Datatypes.RecordSettersUsingExistingGetters.
From S2P Require Import Prelude CMachine Float Convert ByteIO PcmConvert PcmFile PcmRead PcmFormats PcmParse.
Local Open Scope Z_scope.
Local Open Scope carray_scope.

Module PcmContext.
Record t `{Target} `{NanBits} := mk {
  pcm_file : list PcmFile.t;
  num_files : Z;
  samples : Z;
  channels : Z;
  ch_mask : Z;
  sample_rate : Z;
  read_to_eof : Z;
  read_format : Z
}.
End PcmContext.

Section pcm.
Context `{Target} `{NanBits}.
Import PcmContext.

(** What [memset] leaves. *)
Definition zero_file : PcmFile.t := PcmFile.mk _ _ None None 0 false 0 0 0 0 0 0 0 None 0 0 0 0 0 0 0 0 0.
Definition zero_context : PcmContext.t := PcmContext.mk _ _ (replicate (Z.to_nat PCM_MAX_CHANNELS) zero_file) 0 0 0 0 0 0 0.

(** [for (i = 0; i < pc->num_files; i++) f(&pc->pcm_file[i])] *)
Definition each_file (f : PcmFile.t → option PcmFile.t) (pc : PcmContext.t) : option PcmContext.t :=
  files ← for_up 0 (num_files pc) (λ i files, pf ← aget files i; pf ← f pf; aset files i pf) (pcm_file pc);
  Some (pc <| pcm_file := files |>).

Definition pcm_close (pc : PcmContext.t) : option PcmContext.t :=
  _ ← each_file (λ pf, Some (pcmfile_close pf)) pc;
  Some zero_context.

Definition pcm_set_source_format (fmt : Z) (pc : PcmContext.t) : option PcmContext.t :=
  each_file (pcmfile_set_source_format fmt) pc.

Definition pcm_set_source_params (ch fmt order sr : Z) (pc : PcmContext.t) : option PcmContext.t :=
  if (num_files pc >? 1) && negb (ch =? 1) then Some pc
  else
    pc ← each_file (pcmfile_set_source_params ch fmt order sr) pc;
    let pc := pc <| sample_rate := sr |> in
    if num_files pc =? 1 then
      pf ← aget (pcm_file pc) 0;
      let pc := pc <| channels := PcmFile.channels pf |> in
      mask ← pcm_get_default_ch_mask (channels pc);
      Some (pc <| ch_mask := mask |>)
    else Some pc.

Definition pcm_set_sample_rate (sr : Z) (pc : PcmContext.t) : option PcmContext.t :=
  each_file (λ pf, Some (pf <| PcmFile.sample_rate := sr |>)) (pc <| sample_rate := sr |>).

Definition pcm_set_read_to_eof (eof : Z) (pc : PcmContext.t) : option PcmContext.t :=
  each_file (λ pf, Some (pf <| PcmFile.read_to_eof := eof |>)) (pc <| read_to_eof := eof |>).

Definition pcm_set_read_format (fmt : Z) (pc : PcmContext.t) : option PcmContext.t :=
  each_file (pcmfile_set_read_format fmt) (pc <| read_format := fmt |>).

(** The loop over the files of [pcm_init], from file [i] on: [None] in the
    result is the error; [r] and [stack] as for [pcmfile_init]. *)
Fixpoint init_files (fuel : nat) (r : registry) (stack : Z → list Z) (num rf ff : Z) (fp_list : list FILE.t) (i samples : Z)
    (files : list PcmFile.t) : option (option Z * list PcmFile.t) :=
  match fp_list with
  | [] => Some (Some samples, files)
  | fp :: fp_list =>
      pf ← aget files i;
      '(res, pf) ← pcmfile_init fuel r (stack i) fp rf ff pf;
      files ← aset files i pf;
      match res with
      | Err => Some (None, files)
      | Ok _ =>
          if (num >? 1) && negb (PcmFile.channels pf =? 1) then Some (None, files)
          else init_files fuel r stack num rf ff fp_list (i + 1) (MAX samples (PcmFile.samples pf)) files
      end
  end.

(** The value returned and the context. *)
Definition pcm_init (fuel : nat) (r : registry) (stack : Z → list Z) (num : Z) (fp_list : list FILE.t) (rf ff : Z)
    (pc : PcmContext.t) : option (Z * PcmContext.t) :=
  if (num <? 1) || (num >? PCM_MAX_CHANNELS) then Some (-1, pc)
  else if (rf <? PCM_SAMPLE_FMT_U8) || (rf >? PCM_SAMPLE_FMT_DBL) then Some (-1, pc)
  else if (ff <? PCM_FORMAT_UNKNOWN) || (ff >? PCM_FORMAT_CAFF) then Some (-1, pc)
  else
    let pc := zero_context in
    if zlen fp_list <? num then None
    else
      '(res, files) ← init_files fuel r stack num rf ff (take (Z.to_nat num) fp_list) 0 0 (pcm_file pc);
      let pc := pc <| pcm_file := files |> in
      match res with
      | None => pc ← pcm_close pc; Some (-1, pc)
      | Some n =>
          let pc := pc <| samples := n |> <| num_files := num |> <| read_format := rf |> in
          pf ← aget (pcm_file pc) 0;
          pc ← (if num =? 1 then
                  Some (pc <| channels := PcmFile.channels pf |> <| ch_mask := PcmFile.ch_mask pf |>)
                else
                  mask ← pcm_get_default_ch_mask num;
                  Some (pc <| channels := num |> <| ch_mask := mask |>));
          pc ← pcm_set_sample_rate (PcmFile.sample_rate pf) pc;
          Some (0, pc)
      end.

(** * Reading *)

Definition sample_sizes : list Z := [1; 1; 2; 4; 4; 4; 4; 8].

(** The loop over the files: the buffer, the files and [samples_read]; [inl] is
    the error. *)
Definition read_file (num chansize i : Z) (st : list PcmFile.t + list Z * list PcmFile.t * Z) :
    option (list PcmFile.t + list Z * list PcmFile.t * Z) :=
  match st with
  | inl files => Some (inl files)
  | inr (buf, files, samples_read) =>
      pf ← aget files i;
      let buf_ptr := i * chansize in
      '(nr, out, pf) ← pcmfile_read_samples pf (drop (Z.to_nat buf_ptr) buf) num;
      files ← aset files i pf;
      if nr <? 0 then Some (inl files)
      else Some (inr (take (Z.to_nat buf_ptr) buf ++ out, files, MAX samples_read nr))
  end.

(** [CHANNEL_INTERLEAVE_COMMON], on words of [w] bytes. *)
Definition CHANNEL_INTERLEAVE_COMMON (w num_files num_samples samples_read : Z) (buf buffer : list Z) : option (list Z) :=
  '(output, _) ← for_up 0 samples_read (λ i st,
    for_up 0 num_files (λ j '(output, k),
      x ← load w buf (num_samples * j + i);
      output ← store w output k x;
      Some (output, k + 1)) st) (buffer, 0);
  Some output.

(** The value returned, the buffer and the context; an allocation of a negative
    size fails. *)
Definition pcm_read_samples (pc : PcmContext.t) (buffer : list Z) (num_samples : Z) : option (Z * list Z * PcmContext.t) :=
  if num_files pc =? 1 then
    pf ← aget (pcm_file pc) 0;
    '(nr, buffer, pf) ← pcmfile_read_samples pf buffer num_samples;
    files ← aset (pcm_file pc) 0 pf;
    Some (nr, buffer, pc <| pcm_file := files |>)
  else
    size ← aget sample_sizes (read_format pc);
    chansize ← chk_int (num_samples * size);
    total ← chk_int (chansize * channels pc);
    if total <? 0 then Some (-1, buffer, pc)
    else
      st ← for_up 0 (num_files pc) (read_file num_samples chansize) (inr (replicate (Z.to_nat total) 0, pcm_file pc, 0));
      match st with
      | inl files => Some (-1, buffer, pc <| pcm_file := files |>)
      | inr (buf, files, samples_read) =>
          buffer ← CHANNEL_INTERLEAVE_COMMON size (num_files pc) num_samples samples_read buf buffer;
          Some (samples_read, buffer, pc <| pcm_file := files |>)
      end.
End pcm.

(** * Interleaving *)

Section interleaving.
Context `{Target} `{NanBits}.
Implicit Types pf : PcmFile.t.

(** Reading [num] samples of the file [pf] gives the words [outs], whatever is
    in the memory they are read to. *)
Definition reads (w num : Z) pf (outs : list Z) (Q : PcmFile.t → Prop) : Prop :=
  zlen outs ≤ num ∧
  ∀ out, w * num ≤ zlen out →
    ∃ pf', pcmfile_read_samples pf out num = Some (zlen outs, words w outs ++ drop (Z.to_nat (w * zlen outs)) out, pf') ∧ Q pf'.

(** The samples of a shorter file are followed by zeros. *)
Definition pad (num : Z) (outs : list Z) : list Z := outs ++ replicate (Z.to_nat (num - zlen outs)) 0.
Definition frame (outss : list (list Z)) (i : nat) : list Z := map (λ outs, default 0 (outs !! i)) outss.
Definition interleave (outss : list (list Z)) (n : Z) : list Z := concat (map (frame outss) (seq 0 (Z.to_nat n))).
Definition longest (outss : list (list Z)) : Z := foldl (λ m outs, Z.max m (zlen outs)) 0 outss.

Lemma le_bytes_0 n : le_bytes n 0 = replicate n 0.
Proof. induction n as [|n IH]; [done|]. simpl. by f_equal. Qed.

Lemma words_zeros w n : 0 ≤ w → words w (replicate n 0) = replicate (Z.to_nat w * n) 0.
Proof.
  intros Hw. assert (Hz : host_bytes w 0 = replicate (Z.to_nat w) 0).
  { unfold host_bytes. rewrite le_bytes_0. destruct words_bigendian; [|done]. rewrite rev_alt. apply reverse_replicate. }
  unfold words. induction n as [|n IH]; [by rewrite Nat.mul_0_r|]. simpl. rewrite IH, Hz, <- replicate_add. f_equal. lia.
Qed.

Lemma lookup_concat (ls : list (list Z)) (m i j : nat) :
  Forall (λ l, length l = m) ls → (i < m)%nat → (j < length ls)%nat → concat ls !! (m * j + i)%nat = ls !! j ≫= (.!! i).
Proof.
  intros Hl Hi. revert j. induction Hl as [|l ls Hl _ IH]; intros j Hj; simpl in *; [lia|]. destruct j as [|j].
  - rewrite Nat.mul_0_r. simpl. apply lookup_app_l. lia.
  - rewrite lookup_app_r by lia. replace (m * S j + i - length l)%nat with (m * j + i)%nat by lia. simpl. apply IH. lia.
Qed.

Lemma length_pad num outs : 0 ≤ zlen outs ≤ num → length (pad num outs) = Z.to_nat num.
Proof. intros Hn. unfold pad, zlen in *. rewrite length_app, length_replicate. lia. Qed.

Lemma lookup_pad num outs (i : nat) : zlen outs ≤ num → Z.of_nat i < num → pad num outs !! i = Some (default 0 (outs !! i)).
Proof.
  intros Hn Hi. unfold pad, zlen in *. destruct (decide (i < length outs)%nat) as [Hlt|Hge].
  - rewrite lookup_app_l by done. apply lookup_lt_is_Some in Hlt as [x ->]. done.
  - rewrite lookup_app_r by lia. rewrite (lookup_ge_None_2 outs) by lia. apply lookup_replicate_2. lia.
Qed.

Lemma words_pad w num outs :
  0 ≤ w → zlen outs ≤ num → words w (pad num outs) = words w outs ++ replicate (Z.to_nat (w * (num - zlen outs))) 0.
Proof. intros Hw Hn. unfold pad. rewrite words_app, words_zeros by done. do 2 f_equal. rewrite Z2Nat.inj_mul by lia. lia. Qed.

(** One turn of the loop over the files: [rest] bytes of the buffer follow. *)
Lemma read_file_spec w num i done_ samples pf files outs Q rest pre :
  0 < w → reads w num pf outs Q → zlen pre = i * (num * w) → zlen done_ = i → 0 ≤ rest →
  wp (read_file num (num * w) i (inr (pre ++ replicate (Z.to_nat (num * w + rest)) 0, done_ ++ pf :: files, samples)))
    (λ st, ∃ pf', Q pf' ∧ st = inr ((pre ++ words w (pad num outs)) ++ replicate (Z.to_nat rest) 0, done_ ++ pf' :: files,
       Z.max samples (zlen outs))).
Proof.
  intros Hw [Hn Hreads] Hpre Hdone Hrest. pose proof (zlen_nonneg outs) as Hno. pose proof (zlen_nonneg pre) as Hp0. unfold read_file.
  assert (Hi : i = Z.of_nat (length done_)) by (unfold zlen in *; lia).
  assert (Hin : 0 ≤ i < zlen (done_ ++ pf :: files)).
  { rewrite zlen_app, zlen_cons. pose proof (zlen_nonneg files). pose proof (zlen_nonneg done_). lia. }
  assert (Hget : aget (done_ ++ pf :: files) i = Some pf).
  { unfold aget. replace (0 <=? i) with true by lia. rewrite Hi, Nat2Z.id. by apply list_lookup_middle. }
  rewrite Hget. cbn [mbind option_bind].
  rewrite drop_app_length' by (unfold zlen in *; lia).
  destruct (Hreads (replicate (Z.to_nat (num * w + rest)) 0)) as (pf' & -> & HQ); [rewrite zlen_replicate; lia|].
  cbn [mbind option_bind]. rewrite aset_upd by done. cbn [mbind option_bind].
  replace (zlen outs <? 0) with false by lia. rewrite MAX_max. cbn [wp]. exists pf'. split; [done|]. do 3 f_equal.
  - rewrite take_app_length' by (unfold zlen in *; lia). rewrite words_pad, <- !app_assoc by lia. do 2 f_equal.
    rewrite drop_replicate, <- replicate_add. f_equal. nia.
  - unfold upd. rewrite Hi, Nat2Z.id. by rewrite insert_app_r_alt, Nat.sub_diag by lia.
Qed.

Lemma read_files_spec w num files outss Qs tail :
  0 < w → 0 ≤ num → Forall3 (reads w num) files outss Qs → ∀ i pre done_ samples,
  zlen pre = i * (num * w) → zlen done_ = i →
  wp (for_steps (length outss) i (read_file num (num * w))
       (inr (pre ++ replicate (Z.to_nat (zlen outss * (num * w))) 0, done_ ++ files ++ tail, samples)))
    (λ st, ∃ files', Forall2 (λ (Q : PcmFile.t → Prop) pf', Q pf') Qs files' ∧
       st = inr (pre ++ words w (concat (map (pad num) outss)), done_ ++ files' ++ tail,
         foldl (λ m outs, Z.max m (zlen outs)) samples outss)).
Proof.
  intros Hw Hn Hr. induction Hr as [|pf outs Q files outss Qs Hpf Hr IH]; intros i pre done_ samples Hpre Hdone; simpl.
  - exists []. split; [done|]. reflexivity.
  - apply wp_bind. rewrite zlen_cons.
    replace ((1 + zlen outss) * (num * w)) with (num * w + zlen outss * (num * w)) by lia. pose proof (zlen_nonneg outss) as Ho.
    eapply wp_mono; [apply (read_file_spec w num i done_ samples pf (files ++ tail) outs Q); [done..|nia]|].
    intros st (pf' & HQ & ->). destruct Hpf as [Hlen _].
    assert (Hpl : zlen (words w (pad num outs)) = num * w).
    { rewrite zlen_words by lia. pose proof (length_pad num outs). pose proof (zlen_nonneg outs). unfold zlen in *. nia. }
    specialize (IH (i + 1) (pre ++ words w (pad num outs)) (done_ ++ [pf']) (Z.max samples (zlen outs))).
    rewrite <- (app_assoc done_ [pf'] (files ++ tail)) in IH. simpl in IH.
    eapply wp_mono; [apply IH; rewrite ?zlen_app, ?Hpl; [lia|unfold zlen in *; simpl; lia]|].
    intros st (files' & Hf & ->). exists (pf' :: files'). split; [by constructor|].
    by rewrite words_app, <- !app_assoc.
Qed.

Lemma length_frame outss i : length (frame outss i) = length outss.
Proof. apply length_map. Qed.

Lemma interleave_S outss n : 0 ≤ n → interleave outss (n + 1) = interleave outss n ++ frame outss (Z.to_nat n).
Proof.
  intros Hn. unfold interleave. replace (Z.to_nat (n + 1)) with (S (Z.to_nat n)) by lia.
  rewrite seq_S, map_app, concat_app. simpl. by rewrite app_nil_r.
Qed.

Lemma zlen_interleave outss n : 0 ≤ n → zlen (interleave outss n) = zlen outss * n.
Proof.
  intros Hn. pattern n. apply natlike_ind; [by rewrite Z.mul_0_r| |done]. intros m Hm IH. rewrite <- Z.add_1_r, interleave_S, zlen_app, IH by done.
  unfold zlen. rewrite length_frame. lia.
Qed.

Lemma store_mod w m k v : 0 ≤ w → store w m k (v mod 2 ^ (8 * w)) = store w m k v.
Proof. intros Hw. unfold store. by rewrite host_bytes_mod. Qed.

Lemma length_pads num outss :
  Forall (λ outs, zlen outs ≤ num) outss → Forall (λ outs, length (pad num outs) = Z.to_nat num) outss.
Proof. rewrite !List.Forall_forall. intros Hl outs Ho. apply length_pad. split; [apply zlen_nonneg|by apply Hl]. Qed.

(** Sample [i] of file [j] in the buffer. *)
Lemma load_frame w num outss rest i j :
  0 < w → Forall (λ outs, zlen outs ≤ num) outss → 0 ≤ i < num → 0 ≤ j < zlen outss →
  load w (words w (concat (map (pad num) outss)) ++ rest) (num * j + i) = Some ((frame outss (Z.to_nat i)).[j] mod 2 ^ (8 * w)).
Proof.
  intros Hw Hl Hi Hj.
  assert (Hlk : concat (map (pad num) outss) !! Z.to_nat (num * j + i) = Some (frame outss (Z.to_nat i)).[j]).
  { replace (Z.to_nat (num * j + i)) with (Z.to_nat num * Z.to_nat j + Z.to_nat i)%nat by nia.
    rewrite lookup_concat; [|by apply Forall_map, (length_pads num)|lia|rewrite length_map; unfold zlen in *; lia].
    assert (Hlt : (Z.to_nat j < length outss)%nat) by (unfold zlen in *; lia). apply lookup_lt_is_Some in Hlt as [outs Houts].
    rewrite list_lookup_fmap, Houts. simpl. rewrite lookup_pad.
    - f_equal. symmetry. unfold at_, frame. apply list_lookup_total_correct. by rewrite list_lookup_fmap, Houts.
    - by apply (Forall_lookup_1 _ _ _ _ Hl Houts).
    - lia. }
  rewrite load_words; [|done|].
  - do 2 f_equal. unfold at_ at 1. by apply list_lookup_total_correct.
  - apply lookup_lt_Some in Hlk. unfold zlen. nia.
Qed.

(** The loops over the frames and over the files. *)
Lemma interleave_files_spec w num outss n buffer rest :
  0 < w → Forall (λ outs, zlen outs ≤ num) outss → 0 ≤ n ≤ num → w * (zlen outss * n) ≤ zlen buffer →
  CHANNEL_INTERLEAVE_COMMON w (zlen outss) num n (words w (concat (map (pad num) outss)) ++ rest) buffer =
  Some (words w (interleave outss n) ++ drop (Z.to_nat (w * (zlen outss * n))) buffer).
Proof.
  intros Hw Hl Hn Hb. unfold CHANNEL_INTERLEAVE_COMMON. pose proof (zlen_nonneg outss) as Hc.
  set (st := λ xs, (words w xs ++ drop (Z.to_nat (w * zlen xs)) buffer, zlen xs)).
  assert (Hwp : wp (for_up 0 n (λ i st, for_up 0 (zlen outss) (λ j '(output, k),
      x ← load w (words w (concat (map (pad num) outss)) ++ rest) (num * j + i); output ← store w output k x; Some (output, k + 1)) st)
      (buffer, 0)) (λ r, r = st (interleave outss n))).
  { apply (wp_for_up (λ i r, r = st (interleave outss i))); [lia| | |by intros ? ->].
    { unfold st. change (interleave outss 0) with (@nil Z). cbv beta. change (zlen (@nil Z)) with 0. by rewrite Z.mul_0_r. }
    intros i r Hi ->. set (xs := interleave outss i). assert (Hxs : zlen xs = zlen outss * i) by (apply zlen_interleave; lia).
    set (fr := frame outss (Z.to_nat i)). assert (Hfr : length fr = length outss) by apply length_frame.
    apply (wp_for_up (λ j r, r = st (xs ++ take (Z.to_nat j) fr))); [lia|by rewrite take_0, app_nil_r| |].
    2:{ intros r ->. f_equal. unfold xs. rewrite interleave_S by lia. f_equal. apply take_ge. fold fr. unfold zlen. lia. }
    intros j r Hj ->. set (ys := xs ++ take (Z.to_nat j) fr). simpl.
    assert (Hys : zlen ys = zlen outss * i + j) by (unfold ys; rewrite zlen_app; unfold zlen in *; rewrite length_take; lia).
    assert (Hub : w * (zlen ys + 1) ≤ zlen buffer).
    { rewrite Hys. etransitivity; [|exact Hb]. apply Z.mul_le_mono_nonneg_l; nia. }
    rewrite load_frame by (done || lia). cbn [mbind option_bind]. rewrite store_mod, store_next by (done || lia).
    cbn [mbind option_bind wp]. unfold st.
    assert (Htk : xs ++ take (Z.to_nat (j + 1)) fr = ys ++ [fr.[j]]).
    { unfold ys. rewrite <- app_assoc. f_equal. replace (Z.to_nat (j + 1)) with (S (Z.to_nat j)) by lia. apply take_S_r.
      apply list_lookup_lookup_total_lt. unfold zlen in *. lia. }
    rewrite Htk, zlen_app. reflexivity. }
  apply wp_some in Hwp as (r & -> & ->). simpl. by rewrite zlen_interleave by lia.
Qed.

(** * The files *)

(** What the next read of a file takes from it. *)
Definition taken (num : Z) (bytes : list Z) pf : list Z :=
  slice bytes (PcmFile.filepos pf) (PcmFile.block_align pf * request pf num).

(** A mono file that can be read, and the samples that the next read of it returns. *)
Record mono_input (rf num : Z) (bytes : list Z) pf (outs : list Z) : Prop := {
  mi_open : ∃ ctx, pcm_ok bytes pf ctx;
  mi_source : source_ok pf;
  mi_read : read_ok pf num;
  mi_len : zlen bytes < 2 ^ 63;
  mi_host : words_bigendian = false ∨ file_width (PcmFile.source_format pf) ≠ 3;
  mi_mono : PcmFile.channels pf = 1;
  mi_format : PcmFile.read_format pf = rf;
  mi_outs : Forall2 (converted (PcmFile.source_format pf) rf)
    (source_words pf (zlen (taken num bytes pf) / PcmFile.block_align pf) (taken num bytes pf)) outs
}.

(** The file after it. *)
Definition advanced (num : Z) (bytes : list Z) pf pf' : Prop :=
  ∃ ctx', pf' = moved pf ctx' (PcmFile.filepos pf + zlen (taken num bytes pf)) ∧ pcm_ok bytes pf' ctx'.

Lemma mono_reads rf num bytes pf outs :
  mono_input rf num bytes pf outs → reads (pcm_width rf) num pf outs (advanced num bytes pf).
Proof.
  intros [[ctx Hok] Hsrc Hread Hlen Hhost Hch <- Houts]. unfold taken in *.
  set (got := slice _ _ _) in *. set (nr := zlen got / PcmFile.block_align pf) in *.
  rewrite <- (Z.mul_1_r nr) in Houts. rewrite <- Hch in Houts.
  assert (Hw : 0 < pcm_width (PcmFile.read_format pf)) by (unfold pcm_width; repeat case_match; lia).
  assert (Hnr0 : 0 ≤ nr).
  { apply Z.div_pos; [apply zlen_nonneg|]. rewrite (so_align _ Hsrc), Hch. pose proof (file_width_cases _ (so_format _ Hsrc)). lia. }
  assert (Hz : zlen outs = nr).
  { apply Forall2_length in Houts. pose proof (zlen_source_words pf (nr * PcmFile.channels pf) got ltac:(rewrite Hch; lia)) as Hs.
    unfold zlen in *. rewrite Hch in *. lia. }
  assert (Hspec : ∀ out, pcm_width (PcmFile.read_format pf) * (nr * PcmFile.channels pf) ≤ zlen out → _)
    by (intros out; apply (read_samples_spec bytes pf ctx out num outs Hok Hsrc Hread Hlen Hhost Houts)).
  cbv zeta in Hspec. fold got in Hspec. fold nr in Hspec. rewrite Hch, Z.mul_1_r, <- Hz in Hspec.
  assert (Hle : zlen outs ≤ num).
  { destruct (Hspec (replicate (Z.to_nat (pcm_width (PcmFile.read_format pf) * zlen outs)) 0)) as (? & _ & _ & ?); [rewrite zlen_replicate; lia|lia]. }
  split; [done|]. intros out Hout. destruct (Hspec out) as (ctx' & Hr & Hok' & _); [nia|].
  eexists. split; [exact Hr|]. by exists ctx'.
Qed.

Lemma longest_bound (outss : list (list Z)) num m :
  0 ≤ m ≤ num → Forall (λ outs : list Z, zlen outs ≤ num) outss → 0 ≤ foldl (λ m (outs : list Z), Z.max m (zlen outs)) m outss ≤ num.
Proof. intros Hm Hl. revert m Hm. induction Hl as [|outs outss Ho _ IH]; intros m Hm; simpl; [lia|]. apply IH. lia. Qed.

(** C15: Several mono files, of any formats and lengths, are read as one: the
    number of frames is that of the file with the most samples to give, the
    samples of the files are interleaved in their order, where a file has ended
    its samples are zero words, and each file is left where its own read ended. *)
Theorem pcm_read_samples_interleaves pc buffer num files rest bytess outss :
  let rf := PcmContext.read_format pc in let w := pcm_width rf in let nr := longest outss in
  PcmContext.pcm_file pc = files ++ rest → Forall3 (mono_input rf num) bytess files outss →
  PcmContext.num_files pc = zlen files → PcmContext.channels pc = zlen files → 2 ≤ zlen files → 0 ≤ rf ≤ 7 → 0 ≤ num →
  num * w * zlen files < 2 ^ 31 → w * (zlen files * nr) ≤ zlen buffer →
  ∃ files', pcm_read_samples pc buffer num =
      Some (nr, words w (interleave outss nr) ++ drop (Z.to_nat (w * (zlen files * nr))) buffer,
        pc <| PcmContext.pcm_file := files' ++ rest |>) ∧
    Forall3 (advanced num) bytess files files'.
Proof.
  intros rf w nr Hfiles Hin Hnum Hch H1 Hrf Hn Hint Hbuf.
  assert (Hw : 0 < w) by (unfold w, pcm_width; repeat case_match; lia).
  assert (Hsize : aget sample_sizes rf = Some w) by (unfold w; format_cases Hrf; done).
  assert (Hlen : zlen outss = zlen files) by (unfold zlen; by rewrite <- (Forall3_length_lr _ _ _ _ Hin), (Forall3_length_lm _ _ _ _ Hin)).
  assert (Hreads : Forall3 (reads w num) files outss (zip_with (advanced num) bytess files)).
  { clear -Hin. induction Hin as [|bytes pf outs bytess files outss Hp _ IH]; constructor; [by apply mono_reads|done]. }
  assert (Hshort : Forall (λ outs : list Z, zlen outs ≤ num) outss).
  { clear -Hreads. induction Hreads as [|pf outs Q files outss Qs Hp _ IH]; constructor; [apply Hp|done]. }
  pose proof (longest_bound outss num 0 ltac:(lia) Hshort) as Hnr. fold (longest outss) in Hnr. fold nr in Hnr.
  unfold pcm_read_samples. rewrite Hnum. replace (zlen files =? 1) with false by lia. fold rf. rewrite Hsize. cbn [mbind option_bind].
  pose proof (zlen_nonneg files) as Hf0. rewrite Hch. unfold chk_int.
  replace ((- 2 ^ 31 <=? num * w) && (num * w <? 2 ^ 31)) with true by nia. cbn [mbind option_bind].
  replace ((- 2 ^ 31 <=? num * w * zlen files) && (num * w * zlen files <? 2 ^ 31)) with true by nia. cbn [mbind option_bind].
  replace (num * w * zlen files <? 0) with false by nia. rewrite Hfiles.
  pose proof (read_files_spec w num files outss _ rest Hw Hn Hreads 0 [] [] 0 eq_refl eq_refl) as Hloop. simpl app in Hloop.
  apply wp_some in Hloop as (st & Hst & files' & Hf' & ->). fold (longest outss) in Hst. fold nr in Hst.
  unfold for_up. replace (Z.to_nat (zlen files - 0)) with (length outss) by (unfold zlen in *; lia).
  replace (num * w * zlen files) with (zlen outss * (num * w)) by (rewrite Hlen; lia). rewrite Hst. cbn [mbind option_bind].
  rewrite <- Hlen in Hbuf |- *. rewrite <- (app_nil_r (words w (concat (map (pad num) outss)))).
  rewrite (interleave_files_spec w num outss nr buffer []) by (done || lia). cbn [mbind option_bind].
  exists files'. split; [done|].
  clear -Hf' Hin. revert files' Hf'. induction Hin as [|bytes pf outs bytess files outss _ _ IH]; intros files' Hf'; inversion Hf'; subst; constructor; auto.
Qed.
End interleaving.

(** Two files of 16 bits, of three samples and of one. *)
Lemma pcm_read_samples_interleaves_witness :
  let T := {| words_bigendian := false |} in
  let N := {| nan_to_float := id; nan_to_double := id |} in
  let b1 := [1; 0; 2; 0; 3; 0] in let b2 := [255; 255] in
  let file bytes := PcmFile.mk T N (choose_converter 2 2 None) (Some (byteio_init (FILE.mk bytes 0 true))) 0 true 0 (zlen bytes) 0
    (zlen bytes) (zlen bytes / 2) 0 0 None PCM_BYTE_ORDER_LE 1 4 48000 2 16 2 2 0 in
  let pc := PcmContext.mk T N [file b1; file b2] 2 3 2 3 48000 0 2 in
  ∃ files', pcm_read_samples pc (replicate 14 7) 3 =
    Some (3, [1; 0; 255; 255; 2; 0; 0; 0; 3; 0; 0; 0; 7; 7], pc <| PcmContext.pcm_file := files' |>).
Proof.
  intros T N b1 b2 file pc.
  assert (Hfile : ∀ bytes outs, Forall byte bytes → zlen bytes < 2 ^ 30 → zlen bytes mod 2 = 0 →
    Forall2 (converted 2 2) (source_words (file bytes) (zlen (taken 3 bytes (file bytes)) / 2) (taken 3 bytes (file bytes))) outs →
    mono_input 2 3 bytes (file bytes) outs).
  { intros bytes outs Hb Hl Heven Houts. destruct (byteio_init_spec (FILE.mk bytes 0 true) ltac:(simpl; lia)) as (Hio & Hst & _ & Hc & Hs).
    pose proof (zlen_nonneg bytes) as Hz.
    assert (Hsrc : source_ok (file bytes)) by (split; [simpl; lia|simpl; lia|simpl; lia|by left|reflexivity|reflexivity|reflexivity]).
    assert (Hread : read_ok (file bytes) 3) by (split; [lia|reflexivity|simpl; lia|intros _; split; [simpl; lia|simpl; by rewrite Z.sub_0_r]]).
    split; [|exact Hsrc|exact Hread|lia|by left|reflexivity|reflexivity|exact Houts].
    exists (byteio_init (FILE.mk bytes 0 true)). split; [reflexivity|exact Hio|exact Hc|exact Hs|exact Hst|simpl; lia|done]. }
  assert (Ht1 : taken 3 b1 (file b1) = b1) by done. assert (Ht2 : taken 3 b2 (file b2) = b2) by done.
  assert (Hm1 : mono_input 2 3 b1 (file b1) [1; 2; 3]).
  { apply Hfile; [unfold byte; repeat constructor; lia|by vm_compute|by vm_compute|]. rewrite Ht1.
    assert (source_words (file b1) (zlen b1 / 2) b1 = [1; 2; 3]) as -> by (by vm_compute). repeat constructor. }
  assert (Hm2 : mono_input 2 3 b2 (file b2) [65535]).
  { apply Hfile; [unfold byte; repeat constructor; lia|by vm_compute|by vm_compute|]. rewrite Ht2.
    assert (source_words (file b2) (zlen b2 / 2) b2 = [65535]) as -> by (by vm_compute). repeat constructor. }
  destruct (pcm_read_samples_interleaves pc (replicate 14 7) 3 [file b1; file b2] [] [b1; b2] [[1; 2; 3]; [65535]]) as (files' & Hr & _).
  - reflexivity.
  - apply Forall3_cons; [exact Hm1|]. apply Forall3_cons; [exact Hm2|]. apply Forall3_nil.
  - reflexivity.
  - reflexivity.
  - unfold zlen. simpl. lia.
  - simpl. lia.
  - lia.
  - by vm_compute.
  - by vm_compute.
  - exists files'. rewrite app_nil_r in Hr. exact Hr.
Defined.

(** * Initialisation *)

Section init.
Context `{Target} `{NanBits}.
Implicit Types pf : PcmFile.t.

Definition no_formats : registry := {| first_format := []; inited := false |}.

(** The structure when the format has been chosen. *)
Definition opened (k : bool) (bytes : list Z) (ctx : ByteIOContext.t) (rf ff pff : Z) pf : PcmFile.t :=
  pf <| PcmFile.io := Some ctx |> <| PcmFile.filepos := 0 |> <| PcmFile.seekable := k |> <| PcmFile.read_to_eof := 0 |>
     <| PcmFile.file_size := if k then zlen bytes else 0 |> <| PcmFile.file_format := ff |> <| PcmFile.pcm_format := Some pff |>
     <| PcmFile.read_format := rf |>.

Lemma bind_ok {A B} (m : M A) (k : A → M B) pf a pf' : m pf = Some (Ok a, pf') → (m ≫= k) pf = k a pf'.
Proof. unfold mbind, M_bind. by intros ->. Qed.

Lemma probe_wave w stack :
  pcmfile_probe_format (pcmfile_register_all_formats no_formats) (take 12 (wave_bytes w) ++ stack) 12 = Some (Some wave_format).
Proof. reflexivity. Qed.

Lemma open_wave fuel r stack w k rf pf :
  let bytes := wave_bytes w in
  r = no_formats ∨ r = pcmfile_register_all_formats no_formats → Forall byte bytes → zlen bytes < 2 ^ 31 →
  ∃ ctx, pcmfile_init fuel r stack (FILE.mk bytes 0 k) rf PCM_FORMAT_UNKNOWN pf =
    wave_init fuel (opened k bytes ctx rf PCM_FORMAT_WAVE PCM_FORMAT_WAVE pf) ∧
    input bytes (opened k bytes ctx rf PCM_FORMAT_WAVE PCM_FORMAT_WAVE pf) bytes.
Proof.
  intros bytes Hr Hb Hl.
  assert (Hreg : pcmfile_register_all_formats r = pcmfile_register_all_formats no_formats) by (by destruct Hr as [-> | ->]).
  destruct (byteio_init_spec (FILE.mk bytes 0 k) ltac:(done)) as (Hok & Hst & _ & Hc & Hs).
  pose proof (byteio_peek_spec 12 _ Hok ltac:(lia)) as Hp. apply wp_some in Hp as ([out ctx] & Hpeek & Hok' & [Hs1 Hs2] & _ & Hout & Hstr).
  exists ctx. pose proof (zlen_nonneg bytes) as Hz. simpl FILE.position in *. simpl FILE.content in *. simpl FILE.can_seek in *.
  rewrite Z.min_l in Hout by done. change (Z.to_nat 0) with 0%nat in Hst. rewrite drop_0 in Hst. rewrite Hst in Hout, Hstr.
  split.
  2:{ split; [|split; [simpl; lia|done]]. exists ctx. split; try done; simpl; congruence. }
  unfold pcmfile_init.
  assert (Hseek : match fseek (FILE.mk bytes 0 k) 0 SEEK_END with
    | Some file => (true, FILE.position file, default file (fseek file 0 SEEK_SET))
    | None => (false, 0, FILE.mk bytes 0 k) end = (k, if k then zlen bytes else 0, FILE.mk bytes 0 k)).
  { unfold fseek. simpl. destruct k; [|done]. replace (true && (0 <=? zlen bytes)) with true by lia. reflexivity. }
  rewrite Hseek, Hreg. clear Hok Hst Hseek. cbv beta iota zeta. generalize dependent (byteio_init (FILE.mk bytes 0 k)). intros c0 Hpeek.
  erewrite bind_ok by reflexivity. erewrite bind_ok; [erewrite bind_ok by reflexivity|].
  2:{ change (PCM_FORMAT_UNKNOWN =? PCM_FORMAT_UNKNOWN) with true. cbv iota.
    etransitivity; [apply bind_ok|].
    { cbv beta. match goal with |- ?o ≫= _ = _ => replace o with (Some c0) by reflexivity end. cbn [mbind option_bind]. rewrite Hpeek. reflexivity. }
    etransitivity; [apply bind_ok|].
    { unfold lift. rewrite Hout. change (Z.to_nat 12) with 12%nat. unfold bytes. rewrite probe_wave. reflexivity. }
    etransitivity; [apply bind_ok; reflexivity|]. etransitivity; [apply bind_ok; reflexivity|]. reflexivity. }
  reflexivity.
Qed.

Lemma set_one_rate sr pf files n ch m old e rf :
  pcm_set_sample_rate sr (PcmContext.mk _ _ (pf :: files) 1 n ch m old e rf) =
  Some (PcmContext.mk _ _ (pf <| PcmFile.sample_rate := sr |> :: files) 1 n ch m sr e rf).
Proof. reflexivity. Qed.

(** C13: Opening one WAVE file with the format left to be detected: it is
    recognised by its first bytes, the parser accepts it, and the context has the
    channels, the channel mask, the sample rate and the number of samples of the
    file, ready to be read from the start of its data; whether the file can
    be sought in or not, and whether or not the formats were registered before.
    Here the chunks follow each other without the padding of RIFF, which the
    code does not skip: with chunks of even size this is a RIFF file. *)
Theorem pcm_init_wave fuel r stack w k rf fmt pc :
  let bytes := wave_bytes w in let f := wv_fmt w in
  r = no_formats ∨ r = pcmfile_register_all_formats no_formats → Forall byte bytes → zlen bytes < 2 ^ 31 →
  wave_ok w → 0 < zlen (wv_data w) → wave_sample_format (wf_bits f) (fmt_type f) = Some fmt → 0 ≤ fmt →
  PCM_SAMPLE_FMT_U8 ≤ rf ≤ PCM_SAMPLE_FMT_DBL → (length (wv_before w) + length (wv_between w) + 2 ≤ fuel)%nat →
  ∃ pf, pcm_init fuel r stack 1 [FILE.mk bytes 0 k] rf PCM_FORMAT_UNKNOWN pc =
    Some (0, PcmContext.mk _ _ (pf :: replicate 5 zero_file) 1 (zlen (wv_data w) / PcmFile.block_align pf) (wf_channels f) (fmt_mask f)
      (wf_rate f) 0 rf) ∧
    source_ok pf ∧ input bytes pf (wv_data w ++ wv_after w) ∧ PcmFile.filepos pf = PcmFile.data_start pf ∧
    PcmFile.data_size pf = zlen (wv_data w) ∧ PcmFile.source_format pf = fmt ∧ PcmFile.channels pf = wf_channels f ∧ PcmFile.read_format pf = rf ∧ PcmFile.read_to_eof pf = 0.
Proof.
  intros bytes f Hr Hb Hl Hw Hd Hfmt Hfmt0 Hrf Hfuel. unfold PCM_SAMPLE_FMT_U8, PCM_SAMPLE_FMT_DBL in Hrf.
  destruct (open_wave fuel r (stack 0) w k rf zero_file Hr Hb Hl) as (ctx & Hinit & Hin).
  destruct (wave_init_spec w _ fmt fuel Hin Hw Hd) as (pf & Hrun & Hok & Hin' & Hsf & _ & Hch & Hsr & Hm & _ & Hp & _ & Hds & Hsm & He & Hrd); try done.
  { destruct k; [by right|left; done]. }
  assert (Hrate : pf <| PcmFile.sample_rate := wf_rate f |> = pf) by (unfold f; rewrite <- Hsr; by destruct pf).
  exists pf. split; [|by rewrite Hp, Hds, Hch, Hrd, He].
  unfold pcm_init. change ((1 <? 1) || (1 >? PCM_MAX_CHANNELS)) with false. cbv iota.
  unfold PCM_SAMPLE_FMT_U8, PCM_SAMPLE_FMT_DBL. replace ((rf <? 0) || (rf >? 7)) with false by lia.
  change ((PCM_FORMAT_UNKNOWN <? PCM_FORMAT_UNKNOWN) || (PCM_FORMAT_UNKNOWN >? PCM_FORMAT_CAFF)) with false. cbv iota zeta.
  change (zlen [FILE.mk bytes 0 k] <? 1) with false. cbv iota. change (take (Z.to_nat 1) [FILE.mk bytes 0 k]) with [FILE.mk bytes 0 k].
  cbn [init_files]. change (aget (PcmContext.pcm_file zero_context) 0) with (Some zero_file). cbn [mbind option_bind].
  fold bytes in Hinit, Hrun. rewrite Hinit, Hrun. cbn [mbind option_bind].
  change (aset (PcmContext.pcm_file zero_context) 0 pf) with (Some (pf :: replicate 5 zero_file)). cbn [mbind option_bind].
  change ((1 >? 1) && negb (PcmFile.channels pf =? 1)) with false. cbv iota. rewrite MAX_max.
  replace (Z.max 0 (PcmFile.samples pf)) with (PcmFile.samples pf).
  2:{ rewrite Hsm. symmetry. apply Z.max_r, Z.div_pos; [lia|]. rewrite (so_align _ Hok). pose proof (so_channels _ Hok).
    pose proof (file_width_cases _ (so_format _ Hok)). nia. }
  cbn [init_files mbind option_bind]. cbv beta iota zeta. rewrite Hsm.
  change (aget _ 0) with (Some pf). cbn [mbind option_bind]. change (1 =? 1) with true. cbv iota. cbn [mbind option_bind].
  rewrite Hch, Hm, Hsr.
  match goal with |- pcm_set_sample_rate _ ?c ≫= _ = _ => change c with (PcmContext.mk _ _ (pf :: replicate 5 zero_file) 1
    (zlen (wv_data w) / PcmFile.block_align pf) (wf_channels f) (fmt_mask f) 0 0 rf) end.
  rewrite set_one_rate. fold f. rewrite Hrate. reflexivity.
Qed.
End init.

(** The extensible file of two samples, read from a pipe. *)
Lemma pcm_init_wave_witness :
  let T := {| words_bigendian := false |} in
  let N := {| nan_to_float := id; nan_to_double := id |} in
  ∃ pf, pcm_init 10 no_formats (λ _, []) 1 [FILE.mk (wave_bytes sample_wave) 0 false] PCM_SAMPLE_FMT_FLT PCM_FORMAT_UNKNOWN zero_context =
    Some (0, PcmContext.mk T N (pf :: replicate 5 zero_file) 1 2 2 3 44100 0 PCM_SAMPLE_FMT_FLT).
Proof.
  intros T N. assert (Hb : Forall byte (wave_bytes sample_wave)) by (unfold byte; vm_compute; repeat constructor; discriminate).
  destruct (pcm_init_wave 10 no_formats (λ _, []) sample_wave false PCM_SAMPLE_FMT_FLT PCM_SAMPLE_FMT_S24 zero_context) as (pf & Hrun & Hok & _ & _ & _ & Hsf & Hch & _).
  - by left.
  - exact Hb.
  - by vm_compute.
  - apply sample_wave_ok.
  - by vm_compute.
  - by vm_compute.
  - done.
  - unfold PCM_SAMPLE_FMT_U8, PCM_SAMPLE_FMT_FLT, PCM_SAMPLE_FMT_DBL. lia.
  - simpl. lia.
  - exists pf. rewrite Hrun. assert (Hba : PcmFile.block_align pf = 6).
    by (rewrite (so_align _ Hok), Hsf, Hch; by vm_compute).
    rewrite Hba. reflexivity.
Defined.
