(* ===== verification/Opts.v ===== *)
(** [aften/opts.c] and [aften/opts.h]: the command line of the encoder.  Strings
    are Rocq strings without their terminator; reading a character behind it, or
    comparing with a null pointer, is undefined.  The theorems show
    what a command line that is accepted has set, and how the files of a
    multi-file input are put in order. *)
From Stdlib Require Import ZArith Lia ZifyBool Bool String Ascii.
From stdpp Require Import base option list numbers.
From coqutil Require Import Datatypes.RecordSettersUsingExistingGetters.
From S2P Require Import Prelude CMachine Types PcmConvert PcmFile.
Local Open Scope string_scope.
Local Open Scope list_scope.
Local Open Scope Z_scope.
Local Open Scope carray_scope.

(** * Strings *)

(** [!strncmp(a, b, n)] *)
Fixpoint strncmp_eq (a b : string) (n : nat) {struct n} : bool :=
  match n with
  | O => true
  | S n =>
      match a, b with
      | EmptyString, EmptyString => true
      | String c a, String d b => Ascii.eqb c d && strncmp_eq a b n
      | _, _ => false
      end
  end.

#[global] Arguments strncmp_eq : simpl never.

Definition strlen (s : string) : nat := String.length s.

(** [&s[k]] as a string, and [s[k]]; the terminator is the character 0. *)
Fixpoint suffix_at (s : string) (k : nat) : option string :=
  match k, s with
  | O, _ => Some s
  | S k, String _ s => suffix_at s k
  | S _, EmptyString => None
  end.
Definition char_of (c : ascii) : Z := Z.of_N (N_of_ascii c).
Definition char_at (s : string) (k : nat) : option Z :=
  s ← suffix_at s k; Some (match s with EmptyString => 0 | String c _ => char_of c end).

(** [isspace] in the "C" locale, and the value of a digit in bases up to 16. *)
Definition isspace (c : ascii) : bool := let v := char_of c in (v =? 32) || (9 <=? v) && (v <=? 13).
Definition digit_value (c : ascii) : Z :=
  let v := char_of c in
  if (48 <=? v) && (v <=? 57) then v - 48
  else if (97 <=? v) && (v <=? 102) then v - 87
  else if (65 <=? v) && (v <=? 70) then v - 55
  else 99.

Fixpoint skip_space (s : string) : string :=
  match s with String c s' => if isspace c then skip_space s' else s | EmptyString => s end.
Fixpoint digits (base acc : Z) (s : string) : Z * string :=
  match s with
  | String c s' => if digit_value c <? base then digits base (acc * base + digit_value c) s' else (acc, s)
  | EmptyString => (acc, s)
  end.
Definition starts_number (base : Z) (s : string) : bool :=
  match s with String c _ => digit_value c <? base | EmptyString => false end.

(** The sign, and the prefix of a number of base 0. *)
Definition number_sign (s : string) : bool * string :=
  match s with
  | String c s' => if Ascii.eqb c "-" then (true, s') else if Ascii.eqb c "+" then (false, s') else (false, s)
  | EmptyString => (false, s)
  end.
Definition number_base (s : string) : Z * string :=
  match s with
  | String "0" (String x s') =>
      if (Ascii.eqb x "x" || Ascii.eqb x "X") && starts_number 16 s' then (16, s') else (8, s)
  | String "0" EmptyString => (8, s)
  | _ => (10, s)
  end.

(** [strtol(s, &endp, base)] for the bases 0 and 10, with a 64-bit [long]: the
    number, saturated, and where it ends; [s] itself when there is none. *)
Definition strtol (s : string) (base : Z) : Z * string :=
  let '(neg, r) := number_sign (skip_space s) in
  let '(base, r) := if base =? 0 then number_base r else (base, r) in
  if starts_number base r then
    let '(v, endp) := digits base 0 r in
    (Z.max (- 2 ^ 63) (Z.min (2 ^ 63 - 1) (if neg then - v else v)), endp)
  else (0, s).

(** [atoi]; a number that is no [int] is undefined. *)
Definition atoi (s : string) : option Z := chk_int (fst (strtol s 10)).

(** * The options *)

Definition A52_NUM_SPEAKERS : Z := 9.
Definition MAX_NUM_THREADS : Z := 32.

(** The parts of [AftenSimdInstructions] that can be switched off. *)
Module Simd.
Record t := mk { mmx : Z; sse : Z; sse2 : Z; sse3 : Z; altivec : Z }.
End Simd.

(** [s] is the encoder's context, [simd] its [wanted_simd_instructions]. *)
Module CommandOptions.
Record t := mk {
  chmap : Z;
  num_input_files : Z;
  infile : list (option string);
  outfile : option string;
  s : AftenContext.t;
  simd : Simd.t;
  pad_start : Z;
  read_to_eof : Z;
  raw_input : Z;
  raw_fmt : Z;
  raw_order : Z;
  raw_sr : Z;
  raw_ch : Z
}.
End CommandOptions.

(** [PrivateOptions]; [arg_index] is what is left of the arguments. *)
Module PrivateOptions.
Record t := mk {
  found_output : bool;
  single_input : bool;
  multi_input : bool;
  empty_params : Z;
  input_mask : Z
}.
End PrivateOptions.

Section opts.
Import CommandOptions PrivateOptions.
Abbreviation CO := CommandOptions.t.
Abbreviation PO := PrivateOptions.t.

(** What an offset into the structures stands for. *)
Record field := { fget : CO → Z; fset : Z → CO → CO }.

(** The value returned (0: go on) and the options. *)
Definition result : Type := option (Z * CO * PO).
Definition parser : Type := string → option string → Z → Z → field → CO → PO → result.

Definition parse_integer_value (val min max : Z) (out : field) (o : CO) (p : PO) : result :=
  if (val <? min) || (val >? max) then Some (1, o, p) else Some (0, fset out val o, p).

Definition parse_bool_or_int (param : string) : option Z :=
  if strncmp_eq param "no" 3 || strncmp_eq param "off" 4 then Some 0
  else if strncmp_eq param "yes" 4 || strncmp_eq param "on" 3 then Some 1
  else
    let '(v, endp) := strtol param 0 in
    match endp with EmptyString => Some (i32 v) | _ => None end.

(** [parse_simple_int_s] and [parse_simple_int_o], which differ in what the
    offset is added to. *)
Definition parse_simple_int : parser := λ arg param min max out o p,
  param ← param;
  match parse_bool_or_int param with
  | None => Some (1, o, p)
  | Some v => parse_integer_value v min max out o p
  end.
Definition parse_simple_int_s : parser := parse_simple_int.
Definition parse_simple_int_o : parser := parse_simple_int.

Definition parse_h : parser := λ _ _ _ _ _ o p, Some (2, o, p).
Definition parse_longhelp : parser := λ _ _ _ _ _ o p, Some (3, o, p).
Definition parse_version : parser := λ _ _ _ _ _ o p, Some (4, o, p).

(** The text up to a comma and, if there is one, what follows it. *)
Fixpoint until_comma (s : string) : string * option string :=
  match s with
  | EmptyString => (EmptyString, None)
  | String c s => if Ascii.eqb c "," then (EmptyString, Some s) else let '(tok, rest) := until_comma s in (String c tok, rest)
  end.

Definition without_simd (tok : string) (w : Simd.t) : option Simd.t :=
  if strncmp_eq tok "mmx" 4 then Some (w <| Simd.mmx := 0 |>)
  else if strncmp_eq tok "sse" 4 then Some (w <| Simd.sse := 0 |>)
  else if strncmp_eq tok "sse2" 5 then Some (w <| Simd.sse2 := 0 |>)
  else if strncmp_eq tok "sse3" 5 then Some (w <| Simd.sse3 := 0 |>)
  else if strncmp_eq tok "altivec" 8 then Some (w <| Simd.altivec := 0 |>)
  else None.

(** [for (i = 0; simd[i]; i = j+1)]; the fuel is the length of the string. *)
Fixpoint nosimd_loop (fuel : nat) (s : string) (w : Simd.t) : option (bool * Simd.t) :=
  match s, fuel with
  | EmptyString, _ => Some (true, w)
  | _, O => None
  | _, S fuel =>
      let '(tok, rest) := until_comma s in
      match without_simd tok w with
      | None => Some (false, w)
      | Some w => match rest with None => Some (true, w) | Some s => nosimd_loop fuel s w end
      end
  end.
Definition parse_nosimd : parser := λ _ param _ _ _ o p,
  param ← param;
  '(ok, w) ← nosimd_loop (strlen param) param (simd o);
  Some (match ok with true => 0 | false => 1 end, o <| simd := w |>, p).

Definition parse_q : parser := λ _ param min max out o p,
  param ← param;
  let o := o <| s := (s o) <| AftenContext.params := (AftenContext.params (s o))
    <| EncParams.encoding_mode := AFTEN_ENC_MODE_VBR |> |> |> in
  v ← atoi param;
  parse_integer_value v min max out o p.

Definition set_acmod (v : Z) (o : CO) : CO := o <| s := (s o) <| AftenContext.acmod := v |> |>.
Definition set_lfe (v : Z) (o : CO) : CO := o <| s := (s o) <| AftenContext.lfe := v |> |>.

Definition parse_chconfig : parser := λ _ param _ _ _ o p,
  param ← param;
  cfg ← (if strncmp_eq param "1+1" 4 then Some (Some 0)
         else
           sep ← (if (3 <=? strlen param)%nat then char_at param 1 else Some 0);
           if sep =? 47 then
             c0 ← char_at param 0; c2 ← char_at param 2;
             let front_ch := c0 - 48 in let rear_ch := c2 - 48 in
             if (front_ch >? 3) || (front_ch <? 1) || (rear_ch <? 0) || (rear_ch >? 2) || (front_ch <? 2) && negb (rear_ch =? 0)
             then Some None else Some (Some (front_ch + 2 * rear_ch))
           else Some None);
  match cfg with
  | None => Some (1, o, p)
  | Some acmod =>
      let o := set_acmod acmod o in
      tail ← suffix_at param 3;
      Some (0, (if strncmp_eq tail "+LFE" 5 || strncmp_eq tail "+lfe" 5 then set_lfe 1 o else o), p)
  end.

Definition CHMASK_FL : Z := 0x1.
Definition CHMASK_FC : Z := 0x2.
Definition CHMASK_FR : Z := 0x4.
Definition CHMASK_SL : Z := 0x8.
Definition CHMASK_S : Z := 0x10.
Definition CHMASK_SR : Z := 0x20.
Definition CHMASK_M1 : Z := 0x40.
Definition CHMASK_M2 : Z := 0x80.
Definition CHMASK_LFE : Z := 0x100.

(** The [switch] over the channels. *)
Definition mask_acmod (input_mask : Z) : option Z :=
  let m := Z.land input_mask 0xFF in
  if m =? Z.lor CHMASK_M1 CHMASK_M2 then Some 0
  else if m =? CHMASK_FC then Some 1
  else if m =? Z.lor CHMASK_FL CHMASK_FR then Some 2
  else if m =? Z.lor (Z.lor CHMASK_FL CHMASK_FC) CHMASK_FR then Some 3
  else if m =? Z.lor (Z.lor CHMASK_FL CHMASK_FR) CHMASK_S then Some 4
  else if m =? Z.lor (Z.lor (Z.lor CHMASK_FL CHMASK_FC) CHMASK_FR) CHMASK_S then Some 5
  else if m =? Z.lor (Z.lor (Z.lor CHMASK_FL CHMASK_FR) CHMASK_SL) CHMASK_SR then Some 6
  else if m =? Z.lor (Z.lor (Z.lor (Z.lor CHMASK_FL CHMASK_FC) CHMASK_FR) CHMASK_SL) CHMASK_SR then Some 7
  else None.

(** [for (j = i; j > 0 && infile[j] != NULL && infile[j-1] == NULL; j--)] *)
Definition shift_down (i : Z) (infile : list (option string)) : option (list (option string)) :=
  '(_, infile) ← while_loop (Z.to_nat i)
    (λ '(j, infile), (j >? 0) && match aget infile j, aget infile (j - 1) with Some (Some _), Some None => true | _, _ => false end)
    (λ '(j, infile), f ← aget infile j; infile ← aset infile (j - 1) f; infile ← aset infile j None; Some (j - 1, infile))
    (i, infile);
  Some infile.

(** [None] in the result: the configuration is not valid. *)
Definition validate_input_files (infile : list (option string)) (input_mask : Z) : option (option (list (option string) * Z * Z)) :=
  let l := if Z.land input_mask CHMASK_LFE =? 0 then 0 else 1 in
  match mask_acmod input_mask with
  | None => Some None
  | Some acmod => infile ← for_up 1 A52_NUM_SPEAKERS shift_down infile; Some (Some (infile, acmod, l))
  end.

Definition chstrs : list string := ["fl"; "fc"; "fr"; "sl"; "s"; "sr"; "m1"; "m2"; "lfe"].

(** The loop of [parse_ch] over the names, from number [n] on. *)
Fixpoint ch_loop (names : list string) (n mask_bit : Z) (chstr : string) (param : string) (o : CO) (p : PO) : result :=
  match names with
  | [] => Some (0, o, p)
  | name :: names =>
      if strncmp_eq chstr name (S (strlen name)) then
        if negb (Z.land (input_mask p) mask_bit =? 0) then Some (1, o, p)
        else
          files ← aset (infile o) n (Some param);
          ch_loop names (n + 1) (mask_bit + mask_bit) chstr param (o <| infile := files |>)
            (p <| input_mask := Z.lor (input_mask p) mask_bit |>)
      else ch_loop names (n + 1) (mask_bit + mask_bit) chstr param o p
  end.

Definition parse_ch : parser := λ arg param _ _ _ o p,
  param ← param;
  chstr ← suffix_at arg 3;
  if single_input p then Some (1, o, p)
  else
    '(r, o, p) ← ch_loop chstrs 0 1 chstr param o p;
    if negb (r =? 0) then Some (r, o, p)
    else Some (0, o <| num_input_files := num_input_files o + 1 |>, p <| multi_input := true |>).

Definition raw_fmt_strs : list string := ["u8"; "s8"; "s16_"; "s20_"; "s24_"; "s32_"; "float_"; "double_"].
Fixpoint find_fmt (names : list string) (j : Z) (param : string) : option Z :=
  match names with
  | [] => None
  | name :: names => if strncmp_eq param name (strlen name) then Some j else find_fmt names (j + 1) param
  end.

Definition parse_raw_fmt : parser := λ _ param _ _ _ o p,
  param ← param;
  match find_fmt raw_fmt_strs 0 param with
  | None => Some (1, o, p)
  | Some j =>
      let o := o <| raw_fmt := j |> <| raw_order := PCM_BYTE_ORDER_LE |> in
      if negb (strncmp_eq param "u8" 3) && negb (strncmp_eq param "s8" 3) then
        order ← suffix_at param 4;
        if strncmp_eq order "be" 3 then Some (0, o <| raw_order := PCM_BYTE_ORDER_BE |> <| raw_input := 1 |>, p)
        else if negb (strncmp_eq order "le" 3) then Some (1, o, p)
        else Some (0, o <| raw_input := 1 |>, p)
      else Some (0, o <| raw_input := 1 |>, p)
  end.

Definition parse_raw_option : parser := λ arg param min max out o p,
  parse_simple_int_o arg param min max out (o <| raw_input := 1 |>) p.

Definition parse_xbsi1_opt : parser := λ arg param min max out o p,
  parse_simple_int_s arg param min max out
    (o <| s := (s o) <| AftenContext.meta := (AftenContext.meta (s o)) <| Metadata.xbsi1e := 1 |> |> |>) p.
Definition parse_xbsi2_opt : parser := λ arg param min max out o p,
  parse_simple_int_s arg param min max out
    (o <| s := (s o) <| AftenContext.meta := (AftenContext.meta (s o)) <| Metadata.xbsi2e := 1 |> |> |>) p.

(** * The table *)

Definition OPTION_FLAGS_NONE : Z := 0x0.
Definition OPTION_FLAG_NO_PARAM : Z := 0x1.
Definition OPTION_FLAG_MATCH_PARTIAL : Z := 0x2.

Record OptionItem := item { option_str : string; flags : Z; min : Z; max : Z; parse : parser; offset : field }.

(** An [int] of [CommandOptions], of [AftenContext], and of the structures in it;
    offset 0 where it is not used. *)
Definition field_o (get : CO → Z) (upd : Z → CO → CO) : field := {| fget := get; fset := upd |}.
Definition field_s (get : AftenContext.t → Z) (upd : Z → AftenContext.t → AftenContext.t) : field :=
  {| fget := λ o, get (s o); fset := λ v o, o <| s := upd v (s o) |> |}.
Definition field_params (get : EncParams.t → Z) (upd : Z → EncParams.t → EncParams.t) : field :=
  field_s (λ c, get (AftenContext.params c)) (λ v c, c <| AftenContext.params := upd v (AftenContext.params c) |>).
Definition field_meta (get : Metadata.t → Z) (upd : Z → Metadata.t → Metadata.t) : field :=
  field_s (λ c, get (AftenContext.meta c)) (λ v c, c <| AftenContext.meta := upd v (AftenContext.meta c) |>).
Definition no_field : field := {| fget := λ _, 0; fset := λ _ o, o |}.

Definition options_list : list OptionItem := [
  item "acmod" OPTION_FLAGS_NONE 0 7 parse_simple_int_s (field_s AftenContext.acmod (λ v, set AftenContext.acmod (λ _, v)));
  item "adconvtyp" OPTION_FLAGS_NONE 0 1 parse_simple_int_s (field_meta Metadata.adconvtyp (λ v, set Metadata.adconvtyp (λ _, v)));
  item "b" OPTION_FLAGS_NONE 0 640 parse_simple_int_s (field_params EncParams.bitrate (λ v, set EncParams.bitrate (λ _, v)));
  item "bwfilter" OPTION_FLAGS_NONE 0 1 parse_simple_int_s (field_params EncParams.use_bw_filter (λ v, set EncParams.use_bw_filter (λ _, v)));
  item "ch_" OPTION_FLAG_MATCH_PARTIAL 0 0 parse_ch no_field;
  item "chconfig" OPTION_FLAGS_NONE 0 0 parse_chconfig no_field;
  item "chmap" OPTION_FLAGS_NONE 0 2 parse_simple_int_o (field_o chmap (λ v, set chmap (λ _, v)));
  item "cmix" OPTION_FLAGS_NONE 0 2 parse_simple_int_s (field_meta Metadata.cmixlev (λ v, set Metadata.cmixlev (λ _, v)));
  item "dcfilter" OPTION_FLAGS_NONE 0 1 parse_simple_int_s (field_params EncParams.use_dc_filter (λ v, set EncParams.use_dc_filter (λ _, v)));
  item "dheadphon" OPTION_FLAGS_NONE 0 2 parse_xbsi2_opt (field_meta Metadata.dheadphonmod (λ v, set Metadata.dheadphonmod (λ _, v)));
  item "dmixmod" OPTION_FLAGS_NONE 0 2 parse_xbsi1_opt (field_meta Metadata.dmixmod (λ v, set Metadata.dmixmod (λ _, v)));
  item "dnorm" OPTION_FLAGS_NONE 0 31 parse_simple_int_s (field_meta Metadata.dialnorm (λ v, set Metadata.dialnorm (λ _, v)));
  item "dsur" OPTION_FLAGS_NONE 0 2 parse_simple_int_s (field_meta Metadata.dsurmod (λ v, set Metadata.dsurmod (λ _, v)));
  item "dsurexmod" OPTION_FLAGS_NONE 0 2 parse_xbsi2_opt (field_meta Metadata.dsurexmod (λ v, set Metadata.dsurexmod (λ _, v)));
  item "dynrng" OPTION_FLAGS_NONE 0 5 parse_simple_int_s (field_params EncParams.dynrng_profile (λ v, set EncParams.dynrng_profile (λ _, v)));
  item "exps" OPTION_FLAGS_NONE 1 32 parse_simple_int_s (field_params EncParams.expstr_search (λ v, set EncParams.expstr_search (λ _, v)));
  item "fba" OPTION_FLAGS_NONE 0 1 parse_simple_int_s (field_params EncParams.bitalloc_fast (λ v, set EncParams.bitalloc_fast (λ _, v)));
  item "h" OPTION_FLAG_NO_PARAM 0 0 parse_h no_field;
  item "lfe" OPTION_FLAGS_NONE 0 1 parse_simple_int_s (field_s AftenContext.lfe (λ v, set AftenContext.lfe (λ _, v)));
  item "lfefilter" OPTION_FLAGS_NONE 0 1 parse_simple_int_s (field_params EncParams.use_lfe_filter (λ v, set EncParams.use_lfe_filter (λ _, v)));
  item "longhelp" OPTION_FLAG_NO_PARAM 0 0 parse_longhelp no_field;
  item "lorocmix" OPTION_FLAGS_NONE 0 7 parse_xbsi1_opt (field_meta Metadata.lorocmixlev (λ v, set Metadata.lorocmixlev (λ _, v)));
  item "lorosmix" OPTION_FLAGS_NONE 0 7 parse_xbsi1_opt (field_meta Metadata.lorosmixlev (λ v, set Metadata.lorosmixlev (λ _, v)));
  item "ltrtcmix" OPTION_FLAGS_NONE 0 7 parse_xbsi1_opt (field_meta Metadata.ltrtcmixlev (λ v, set Metadata.ltrtcmixlev (λ _, v)));
  item "ltrtsmix" OPTION_FLAGS_NONE 0 7 parse_xbsi1_opt (field_meta Metadata.ltrtsmixlev (λ v, set Metadata.ltrtsmixlev (λ _, v)));
  item "m" OPTION_FLAGS_NONE 0 1 parse_simple_int_s (field_params EncParams.use_rematrixing (λ v, set EncParams.use_rematrixing (λ _, v)));
  item "nosimd" OPTION_FLAGS_NONE 0 0 parse_nosimd no_field;
  item "pad" OPTION_FLAGS_NONE 0 1 parse_simple_int_o (field_o pad_start (λ v, set pad_start (λ _, v)));
  item "q" OPTION_FLAGS_NONE 0 1023 parse_q (field_params EncParams.quality (λ v, set EncParams.quality (λ _, v)));
  item "raw_ch" OPTION_FLAGS_NONE 1 6 parse_raw_option (field_o raw_ch (λ v, set raw_ch (λ _, v)));
  item "raw_fmt" OPTION_FLAGS_NONE 0 0 parse_raw_fmt no_field;
  item "raw_sr" OPTION_FLAGS_NONE 1 48000 parse_raw_option (field_o raw_sr (λ v, set raw_sr (λ _, v)));
  item "readtoeof" OPTION_FLAGS_NONE 0 1 parse_simple_int_o (field_o read_to_eof (λ v, set read_to_eof (λ _, v)));
  item "s" OPTION_FLAGS_NONE 0 1 parse_simple_int_s (field_params EncParams.use_block_switching (λ v, set EncParams.use_block_switching (λ _, v)));
  item "smix" OPTION_FLAGS_NONE 0 2 parse_simple_int_s (field_meta Metadata.surmixlev (λ v, set Metadata.surmixlev (λ _, v)));
  item "threads" OPTION_FLAGS_NONE 0 MAX_NUM_THREADS parse_simple_int_s (field_s AftenContext.n_threads (λ v, set AftenContext.n_threads (λ _, v)));
  item "v" OPTION_FLAGS_NONE 0 2 parse_simple_int_s (field_s AftenContext.verbose (λ v, set AftenContext.verbose (λ _, v)));
  item "version" OPTION_FLAG_NO_PARAM 0 0 parse_version no_field;
  item "w" OPTION_FLAGS_NONE (-2) 60 parse_simple_int_s (field_params EncParams.bwcode (λ v, set EncParams.bwcode (λ _, v)));
  item "wmax" OPTION_FLAGS_NONE 0 60 parse_simple_int_s (field_params EncParams.max_bwcode (λ v, set EncParams.max_bwcode (λ _, v)));
  item "wmin" OPTION_FLAGS_NONE 0 60 parse_simple_int_s (field_params EncParams.min_bwcode (λ v, set EncParams.min_bwcode (λ _, v)));
  item "xbsi1" OPTION_FLAGS_NONE 0 1 parse_simple_int_s (field_meta Metadata.xbsi1e (λ v, set Metadata.xbsi1e (λ _, v)));
  item "xbsi2" OPTION_FLAGS_NONE 0 1 parse_simple_int_s (field_meta Metadata.xbsi2e (λ v, set Metadata.xbsi2e (λ _, v)))
].

(** * [parse_commandline] *)

(** The match of an argument, without its dash, with an item. *)
Definition matches (arg : string) (it : OptionItem) : bool :=
  strncmp_eq arg (option_str it)
    (strlen (option_str it) + (if negb (Z.land (flags it) OPTION_FLAG_MATCH_PARTIAL =? 0) then 0 else 1)).
Fixpoint find_item (items : list OptionItem) (arg : string) : option OptionItem :=
  match items with
  | [] => None
  | it :: items => if matches arg it then Some it else find_item items arg
  end.

(** An argument that is no option: the output, or the input and the output. *)
Definition parse_empty (arg : string) (o : CO) (p : PO) : Z * CO * PO :=
  let p := p <| empty_params := empty_params p + 1 |> in
  if empty_params p =? 1 then (0, o <| outfile := Some arg |>, p <| found_output := true |>)
  else if empty_params p =? 2 then
    if multi_input p then (1, o, p)
    else (0, o <| infile := upd (infile o) 0 (outfile o) |> <| outfile := Some arg |> <| num_input_files := 1 |>,
          p <| single_input := true |>)
  else (1, o, p).

(** The loop over the arguments. *)
Fixpoint parse_args (args : list string) (o : CO) (p : PO) : result :=
  match args with
  | [] => Some (0, o, p)
  | a :: rest =>
      match a with
      | String c (String _ _ as arg) =>
          if Ascii.eqb c "-" then
            match find_item options_list arg with
            | None => Some (1, o, p)
            | Some it =>
                if negb (Z.land (flags it) OPTION_FLAG_NO_PARAM =? 0) then
                  '(ret, o, p) ← parse it arg None (min it) (max it) (offset it) o p;
                  if negb (ret =? 0) then Some (ret, o, p) else parse_args rest o p
                else
                  match rest with
                  | [] => Some (1, o, p)
                  | param :: rest =>
                      '(ret, o, p) ← parse it arg (Some param) (min it) (max it) (offset it) o p;
                      if negb (ret =? 0) then Some (ret, o, p) else parse_args rest o p
                  end
            end
          else let '(r, o, p) := parse_empty a o p in if negb (r =? 0) then Some (r, o, p) else parse_args rest o p
      | _ => let '(r, o, p) := parse_empty a o p in if negb (r =? 0) then Some (r, o, p) else parse_args rest o p
      end
  end.

(** The two checks of the names, which end at the first bad one; a null pointer
    is undefined. *)
Definition is_pipe (name : string) : bool := strncmp_eq name "-" 2.
Definition check_files (bad : string → option bool) (o : CO) : option bool :=
  for_up 0 (num_input_files o) (λ i ok, if ok : bool then f ← aget (infile o) i; f ← f; b ← bad f; Some (negb b) else Some false) true.
Definition no_pipe (o : CO) : option bool := check_files (λ f, Some (is_pipe f)) o.
Definition names_differ (o : CO) : option bool :=
  check_files (λ f, if is_pipe f then Some false
    else out ← outfile o; Some (negb (is_pipe out) && String.eqb f out)) o.

Definition initial_options (o : CO) : CO :=
  o <| chmap := 0 |> <| num_input_files := 0 |> <| infile := replicate (Z.to_nat A52_NUM_SPEAKERS) None |> <| outfile := None |>
    <| pad_start := 1 |> <| read_to_eof := 0 |> <| raw_input := 0 |> <| raw_fmt := PCM_SAMPLE_FMT_S16 |>
    <| raw_order := PCM_BYTE_ORDER_LE |> <| raw_sr := 48000 |> <| raw_ch := 1 |>.

(** The files of a multi-file input; [None] in the result: no valid configuration. *)
Definition configure_files (o : CO) (p : PO) : option (option CO) :=
  if multi_input p then
    v ← validate_input_files (infile o) (input_mask p);
    Some match v with
         | Some (files, acmod, lfe) => Some ((set_lfe lfe (set_acmod acmod (o <| infile := files |>))) <| chmap := 1 |>)
         | None => None
         end
  else Some (Some o).

(** The checks behind the loop. *)
Definition check_options (o : CO) (p : PO) : option (Z * CO) :=
  if negb (xorb (single_input p) (multi_input p)) then Some (1, o)
  else if (num_input_files o <? 1) || (num_input_files o >? 6) then Some (1, o)
  else if negb (found_output p) then Some (1, o)
  else
    valid ← configure_files o p;
    match valid with
    | None => Some (1, o)
    | Some o =>
        pipes_ok ← (if num_input_files o >? 1 then no_pipe o else Some true);
        if negb pipes_ok then Some (1, o)
        else names_ok ← names_differ o; Some (if (names_ok : bool) then 0 else 1, o)
    end : option (Z * CO).

(** [argv], of which the first is the program's name. *)
Definition parse_commandline (argv : list string) (o : CO) : option (Z * CO) :=
  if zlen argv <? 2 then Some (1, o)
  else
    '(ret, o, p) ← parse_args (drop 1 argv) (initial_options o) (PrivateOptions.mk false false false 0 0);
    if negb (ret =? 0) then Some (ret, o) else check_options o p.
End opts.

(** * Settings stay in their ranges *)

Section ranges.
Import CommandOptions PrivateOptions.
Abbreviation CO := CommandOptions.t.
Abbreviation PO := PrivateOptions.t.
Variable start : CO.

(** Each setting of the table is the one at the start or within its bounds. *)
Definition setting_ok (o : CO) (it : OptionItem) : Prop :=
  fget (offset it) o = fget (offset it) start ∨ min it ≤ fget (offset it) o ≤ max it.

(** So is the raw format, and an output that has been found has a name. *)
Record settings_ok (o : CO) (p : PO) : Prop := {
  st_table : ∀ it, it ∈ options_list → setting_ok o it;
  st_fmt : PCM_SAMPLE_FMT_U8 ≤ raw_fmt o ≤ PCM_SAMPLE_FMT_DBL;
  st_order : raw_order o = PCM_BYTE_ORDER_LE ∨ raw_order o = PCM_BYTE_ORDER_BE;
  st_output : found_output p = true → is_Some (outfile o)
}.

Lemma set_table it v o :
  it ∈ options_list → min it ≤ v ≤ max it → ∀ it', it' ∈ options_list → setting_ok o it' → setting_ok (fset (offset it) v o) it'.
Proof.
  intros Hin. apply list_elem_of_lookup in Hin as [k Hk]. unfold setting_ok. intros Hv it' Hin'. apply list_elem_of_lookup in Hin' as [k' Hk'].
  do 43 (destruct k as [|k]; [injection Hk as <-; clear -Hv Hk';
    do 43 (destruct k' as [|k']; [injection Hk' as <-; first [exact id | intros _; right; exact Hv]|]); discriminate Hk'|]).
  discriminate Hk.
Qed.

(** Changes that the table does not see. *)
Lemma same_table o o' :
  (∀ it, it ∈ options_list → setting_ok o it → setting_ok o' it) → raw_fmt o' = raw_fmt o → raw_order o' = raw_order o → outfile o' = outfile o →
  ∀ p p', found_output p' = found_output p → settings_ok o p → settings_ok o' p'.
Proof. intros Ht Hf Ho Hout p p' Hp [H1 H2 H3 H4]. split; [auto|by rewrite Hf|by rewrite Ho|by rewrite Hout, Hp]. Qed.

Ltac each_setting :=
  let it := fresh "it" in let k := fresh "k" in let Hk := fresh "Hk" in
  intros it [k Hk]%list_elem_of_lookup; unfold setting_ok;
  do 43 (destruct k as [|k]; [injection Hk as <-; exact id|]); discriminate Hk.

Lemma set_ok it v o p : it ∈ options_list → min it ≤ v ≤ max it → settings_ok o p → settings_ok (fset (offset it) v o) p.
Proof.
  intros Hin Hv. assert (Hframe : raw_fmt (fset (offset it) v o) = raw_fmt o ∧ raw_order (fset (offset it) v o) = raw_order o ∧
    outfile (fset (offset it) v o) = outfile o).
  { apply list_elem_of_lookup in Hin as [k Hk]. do 43 (destruct k as [|k]; [injection Hk as <-; done|]). discriminate Hk. }
  apply same_table; try apply Hframe; [|done]. by apply set_table.
Qed.

(** The settings that are also set in other ways, by the name of their option. *)
Lemma set_named name v o p :
  match find_item options_list name with
  | Some it => min it ≤ v ≤ max it → settings_ok o p → settings_ok (fset (offset it) v o) p
  | None => True
  end.
Proof.
  destruct (find_item options_list name) as [it|] eqn:E; [|done]. apply set_ok. revert E. generalize options_list. intros l.
  induction l as [|it' l IH]; [done|]. simpl. case_match; [intros [= ->]; left|]. intros Hf. right. by apply IH.
Qed.

Lemma acmod_ok v o p : 0 ≤ v ≤ 7 → settings_ok o p → settings_ok (set_acmod v o) p.
Proof. exact (set_named "acmod" v o p). Qed.
Lemma lfe_ok v o p : 0 ≤ v ≤ 1 → settings_ok o p → settings_ok (set_lfe v o) p.
Proof. exact (set_named "lfe" v o p). Qed.

(** * The parsers *)

Definition keeps (P : parser) min max out : Prop :=
  (∀ v o p, min ≤ v ≤ max → settings_ok o p → settings_ok (fset out v o) p) →
  ∀ arg param o p r o' p', P arg param min max out o p = Some (r, o', p') → settings_ok o p → settings_ok o' p'.

Lemma integer_value_ok v min max out o p r o' p' :
  (∀ v o p, min ≤ v ≤ max → settings_ok o p → settings_ok (fset out v o) p) →
  parse_integer_value v min max out o p = Some (r, o', p') → settings_ok o p → settings_ok o' p'.
Proof.
  intros Hset. unfold parse_integer_value. case_match; intros [= <- <- <-]; [done|]. apply Hset. lia.
Qed.

Lemma simple_int_keeps min max out : keeps parse_simple_int min max out.
Proof.
  intros Hset arg param o p r o' p'. unfold parse_simple_int. destruct param as [param|]; [|done]. simpl.
  destruct (parse_bool_or_int param) as [v|]; [|by intros [= <- <- <-]]. by apply integer_value_ok.
Qed.

Lemma q_keeps min max out : keeps parse_q min max out.
Proof.
  intros Hset arg param o p r o' p'. unfold parse_q. destruct param as [param|]; [|done]. simpl.
  destruct (atoi param) as [v|]; [|done]. simpl. intros Hp Ho. refine (integer_value_ok _ _ _ _ _ _ _ _ _ Hset Hp _).
  revert Ho. apply same_table; try done. each_setting.
Qed.

Lemma raw_option_keeps min max out : keeps parse_raw_option min max out.
Proof.
  intros Hset arg param o p r o' p' Hp Ho. apply (simple_int_keeps min max out Hset arg param (o <| raw_input := 1 |>) p r o' p' Hp).
  revert Ho. apply same_table; try done. each_setting.
Qed.

Lemma xbsi1_keeps min max out : keeps parse_xbsi1_opt min max out.
Proof.
  intros Hset arg param o p r o' p' Hp Ho. refine (simple_int_keeps min max out Hset arg param _ p r o' p' Hp _).
  refine (set_named "xbsi1" 1 o p _ Ho). simpl. lia.
Qed.

Lemma xbsi2_keeps min max out : keeps parse_xbsi2_opt min max out.
Proof.
  intros Hset arg param o p r o' p' Hp Ho. refine (simple_int_keeps min max out Hset arg param _ p r o' p' Hp _).
  refine (set_named "xbsi2" 1 o p _ Ho). simpl. lia.
Qed.

Lemma nosimd_keeps min max out : keeps parse_nosimd min max out.
Proof.
  intros _ arg param o p r o' p'. unfold parse_nosimd. destruct param as [param|]; [|done]. simpl.
  destruct (nosimd_loop _ _ _) as [[ok w]|]; [|done]. simpl. intros [= <- <- <-]. apply same_table; try done. each_setting.
Qed.

Lemma chconfig_keeps min max out : keeps parse_chconfig min max out.
Proof.
  intros _ arg param o p r o' p'. unfold parse_chconfig. destruct param as [param|]; [|done]. simpl. intros Hp Ho.
  match type of Hp with (?c ≫= _) = _ => assert (Hc : ∀ v, c = Some (Some v) → 0 ≤ v ≤ 7); [|destruct c as [[v|]|]; [|by injection Hp as <- <- <-|done]] end.
  { intros v. case_match; [by intros [= <-]|]. destruct (if (3 <=? strlen param)%nat then _ else _) as [sep|]; [|done]. simpl.
    case_match; [|done]. destruct (char_at param 0) as [c0|], (char_at param 2) as [c2|]; try done. simpl.
    match goal with |- (if ?b then _ else _) = _ → _ => destruct b eqn:Hbad end; [done|]. intros [= <-]. lia. }
  specialize (Hc v eq_refl). simpl in Hp. destruct (suffix_at param 3) as [tail|]; [|done]. simpl in Hp. injection Hp as <- <- <-.
  case_match; [apply lfe_ok; [lia|]|]; by apply acmod_ok.
Qed.

Lemma ch_loop_keeps names n bit chstr param o p r o' p' :
  ch_loop names n bit chstr param o p = Some (r, o', p') → settings_ok o p → settings_ok o' p'.
Proof.
  revert n bit o p. induction names as [|name names IH]; intros n bit o p; simpl; [by intros [= <- <- <-]|].
  case_match; [|apply IH]. case_match; [by intros [= <- <- <-]|]. destruct (aset _ _ _) as [files|]; [|done]. simpl.
  intros Hl Ho. apply (IH _ _ _ _ Hl). revert Ho. apply same_table; try done. each_setting.
Qed.

Lemma ch_keeps min max out : keeps parse_ch min max out.
Proof.
  intros _ arg param o p r o' p'. unfold parse_ch. destruct param as [param|]; [|done]. cbn [mbind option_bind].
  destruct (suffix_at arg 3) as [chstr|]; [|done]. cbn [mbind option_bind]. case_match; [by intros [= <- <- <-]|].
  destruct (ch_loop _ _ _ _ _ _ _) as [[[r1 o1] p1]|] eqn:Hl; [|done]. cbn [mbind option_bind]. intros Hp Ho. pose proof (ch_loop_keeps _ _ _ _ _ _ _ _ _ _ Hl Ho) as H1.
  case_match; injection Hp as <- <- <-; [done|]. revert H1. apply same_table; try done. each_setting.
Qed.

Lemma raw_fmt_keeps min max out : keeps parse_raw_fmt min max out.
Proof.
  intros _ arg param o p r o' p'. unfold parse_raw_fmt. destruct param as [param|]; [|done]. cbn [mbind option_bind].
  destruct (find_fmt raw_fmt_strs 0 param) as [j|] eqn:Hj; [|by intros [= <- <- <-]].
  assert (Hj7 : 0 ≤ j ≤ 7).
  { revert Hj. unfold raw_fmt_strs. cbn [find_fmt]. repeat (case_match; [intros [= <-]; lia|]). done. }
  clear Hj. set (o1 := o <| raw_fmt := j |> <| raw_order := PCM_BYTE_ORDER_LE |>).
  assert (Hstep : ∀ o2, settings_ok o p → (∀ it, it ∈ options_list → setting_ok o it → setting_ok o2 it) → raw_fmt o2 = j →
    raw_order o2 = PCM_BYTE_ORDER_LE ∨ raw_order o2 = PCM_BYTE_ORDER_BE → outfile o2 = outfile o → settings_ok o2 p).
  { intros o2 [H1 H2 H3 H4] Ht Hf Ho Hout. split; [auto|rewrite Hf; exact Hj7|done|by rewrite Hout]. }
  intros Hp Ho.
  assert (Hcases : p' = p ∧ (o' = o1 ∨ o' = o1 <| raw_input := 1 |> ∨ o' = o1 <| raw_order := PCM_BYTE_ORDER_BE |> <| raw_input := 1 |>)).
  { revert Hp. destruct (negb _ && negb _); [|intros [= <- <- <-]; auto]. destruct (suffix_at param 4) as [order|]; [|done]. simpl.
    repeat case_match; intros [= <- <- <-]; auto. }
  destruct Hcases as (-> & Hcases). destruct_or! Hcases; subst o'; apply Hstep; try done; try (by left); try (by right); each_setting.
Qed.

Lemma done_keeps (c : Z) min max out : keeps (λ _ _ _ _ _ o p, Some (c, o, p)) min max out.
Proof. by intros _ arg param o p r o' p' [= <- <- <-]. Qed.

Lemma item_keeps it : it ∈ options_list → keeps (parse it) (min it) (max it) (offset it).
Proof.
  intros [k Hk]%list_elem_of_lookup.
  do 43 (destruct k as [|k]; [injection Hk as <-; first [exact (simple_int_keeps _ _ _) | exact (xbsi1_keeps _ _ _) | exact (xbsi2_keeps _ _ _) |
    exact (raw_option_keeps _ _ _) | exact (done_keeps _ _ _ _) | exact (ch_keeps _ _ _) | exact (chconfig_keeps _ _ _) |
    exact (nosimd_keeps _ _ _) | exact (q_keeps _ _ _) | exact (raw_fmt_keeps _ _ _)]|]).
  discriminate Hk.
Qed.

Lemma find_item_in items arg it : find_item items arg = Some it → it ∈ items.
Proof. induction items as [|it' items IH]; [done|]. simpl. case_match; [intros [= ->]; left|]. intros Hf. right. by apply IH. Qed.

Lemma empty_keeps arg o p r o' p' : parse_empty arg o p = (r, o', p') → settings_ok o p → settings_ok o' p'.
Proof.
  unfold parse_empty. intros Hp [H1 H2 H3 H4]. repeat case_match; injection Hp as <- <- <-; split; simpl; eauto; intros it Hit; generalize (H1 it Hit); revert it Hit; each_setting.
Qed.

Lemma args_keep args o p r o' p' : parse_args args o p = Some (r, o', p') → settings_ok o p → settings_ok o' p'.
Proof.
  remember (length args) as n eqn:Hn. revert args Hn o p. induction (lt_wf n) as [n _ IH]. intros args -> o p.
  destruct args as [|a rest]; [by intros [= <- <- <-]|]. cbn [parse_args].
  assert (Hempty : (let '(r, o, p) := parse_empty a o p in if negb (r =? 0) then Some (r, o, p) else parse_args rest o p) = Some (r, o', p') →
    settings_ok o p → settings_ok o' p').
  { destruct (parse_empty a o p) as [[r1 o1] p1] eqn:E. intros Hp Ho. pose proof (empty_keeps _ _ _ _ _ _ E Ho) as H1.
    destruct (negb (r1 =? 0)); [by injection Hp as <- <- <-|]. by apply (IH (length rest) ltac:(simpl; lia) rest eq_refl _ _ Hp). }
  destruct a as [|c [|d arg]]; [exact Hempty..|]. destruct (Ascii.eqb c "-"); [|exact Hempty]. clear Hempty.
  destruct (find_item options_list (String d arg)) as [it|] eqn:Hit; [|by intros [= <- <- <-]]. apply find_item_in in Hit.
  assert (Hone : ∀ param rest', (length rest' < length (String c (String d arg) :: rest))%nat →
    ('(ret, o, p) ← parse it (String d arg) param (min it) (max it) (offset it) o p;
     if negb (ret =? 0) then Some (ret, o, p) else parse_args rest' o p) = Some (r, o', p') → settings_ok o p → settings_ok o' p').
  { intros param rest' Hl Hp Ho. destruct (parse it _ param _ _ _ o p) as [[[r1 o1] p1]|] eqn:E; [|done]. cbn [mbind option_bind] in Hp.
    assert (H1 : settings_ok o1 p1) by (eapply (item_keeps it Hit); [|exact E|exact Ho]; intros v o2 p2; by apply set_ok).
    destruct (negb (r1 =? 0)); [by injection Hp as <- <- <-|]. by apply (IH (length rest') Hl rest' eq_refl _ _ Hp). }
  destruct (negb _); [apply Hone; simpl; lia|]. destruct rest as [|param rest]; [by intros [= <- <- <-]|]. apply Hone. simpl. lia.
Qed.

Lemma check_keeps o p r o' : check_options o p = Some (r, o') → settings_ok o p → settings_ok o' p ∧
  (r = 0 → 1 ≤ num_input_files o' ≤ 6 ∧ found_output p = true ∧
    (1 < num_input_files o' → no_pipe o' = Some true) ∧ names_differ o' = Some true).
Proof.
  unfold check_options. intros Hc Ho.
  destruct (negb (xorb _ _)); [by injection Hc as <- <-|]. destruct ((num_input_files o <? 1) || (num_input_files o >? 6)) eqn:Hn; [by injection Hc as <- <-|].
  destruct (found_output p) eqn:Hfound; [|by injection Hc as <- <-]. cbn [negb] in Hc.
  destruct (configure_files o p) as [valid|] eqn:Hconf; [|done]. cbn [mbind option_bind] in Hc.
  destruct valid as [o1|]; [|by injection Hc as <- <-].
  assert (H1 : settings_ok o1 p ∧ num_input_files o1 = num_input_files o).
  { unfold configure_files in Hconf. destruct (multi_input p); [|by injection Hconf as <-].
    unfold validate_input_files in Hconf. destruct (mask_acmod (input_mask p)) as [acmod|] eqn:Hm; [|done].
    destruct (for_up _ _ _ _) as [files|]; [|done]. simpl in Hconf. injection Hconf as <-. split; [|done].
    assert (Ha : 0 ≤ acmod ≤ 7) by (revert Hm; unfold mask_acmod; repeat case_match; intros [= <-]; lia).
    assert (H1 : settings_ok (set_lfe (if Z.land (input_mask p) CHMASK_LFE =? 0 then 0 else 1) (set_acmod acmod (o <| infile := files |>))) p).
    { apply lfe_ok; [case_match; lia|]. apply acmod_ok; [done|]. revert Ho. apply same_table; try done. each_setting. }
    refine (set_named "chmap" 1 _ p _ H1). simpl. lia. }
  destruct H1 as [H1 Hnum].
  destruct (if num_input_files o1 >? 1 then no_pipe o1 else Some true) as [ok1|] eqn:Hpipe; [|done]. cbn [mbind option_bind] in Hc.
  destruct ok1; [|by injection Hc as <- <-]. cbn [negb] in Hc.
  destruct (names_differ o1) as [ok2|] eqn:Hdiff; [|done]. cbn [mbind option_bind] in Hc. injection Hc as <- <-. split; [done|].
  intros Hr. destruct ok2; [|done]. split; [lia|]. split; [done|]. split; [|done]. intros Hgt. by replace (num_input_files o1 >? 1) with true in Hpipe by lia.
Qed.

Lemma initial_settings o : start = initial_options o → settings_ok (initial_options o) (PrivateOptions.mk false false false 0 0).
Proof.
  intros Hs. split; [|done|by left|done]. intros it _. left. by rewrite Hs.
Qed.

Lemma check_files_true bad o :
  check_files bad o = Some true → ∀ i, 0 ≤ i < num_input_files o → ∃ f, aget (infile o) i = Some (Some f) ∧ bad f = Some false.
Proof.
  unfold check_files, for_up. set (body := λ (i : Z) (ok : bool), _).
  assert (Hno : ∀ n i, for_steps n i body false = Some false) by (induction n as [|n IH]; intros i; [done|apply IH]).
  enough (Hsteps : ∀ n i, for_steps n i body true = Some true → ∀ j, i ≤ j < i + Z.of_nat n →
    ∃ f, aget (infile o) j = Some (Some f) ∧ bad f = Some false) by (intros Hc i Hi; apply (Hsteps _ _ Hc); lia).
  induction n as [|n IH]; intros i Hs j Hj; [lia|].
  change (for_steps (S n) i body true) with (s' ← body i true; for_steps n (i + 1) body s') in Hs.
  assert (Hbody : body i true = (f ← aget (infile o) i; f ← f; b ← bad f; Some (negb b))) by done. rewrite Hbody in Hs.
  destruct (aget (infile o) i) as [[f|]|] eqn:Hf; try done. cbn [mbind option_bind] in Hs.
  destruct (bad f) as [[]|] eqn:Hb; try done; cbn [mbind option_bind negb] in Hs.
  - by rewrite Hno in Hs.
  - destruct (decide (j = i)) as [->|]; [by exists f|]. apply (IH _ Hs). lia.
Qed.
End ranges.

(** * Properties *)

Section accepted.
Import CommandOptions PrivateOptions.

(** C16: Whatever the command line, and whether or not it is accepted, every numeric
    setting of the options and of the encoder that an option of the table sets
    is afterwards the default it had or within the bounds of its option,
    and the raw sample format and byte order are ones that exist. *)
Theorem settings_in_range argv o r o' :
  2 ≤ zlen argv → parse_commandline argv o = Some (r, o') →
  (∀ it, it ∈ options_list →
    fget (offset it) o' = fget (offset it) (initial_options o) ∨ min it ≤ fget (offset it) o' ≤ max it) ∧
  PCM_SAMPLE_FMT_U8 ≤ raw_fmt o' ≤ PCM_SAMPLE_FMT_DBL ∧ PCM_BYTE_ORDER_LE ≤ raw_order o' ≤ PCM_BYTE_ORDER_BE.
Proof.
  intros Hl Hp. enough (∃ p, settings_ok (initial_options o) o' p) as [p [H1 H2 H3 _]].
  { split; [exact H1|]. split; [exact H2|]. unfold PCM_BYTE_ORDER_LE, PCM_BYTE_ORDER_BE in *. lia. }
  unfold parse_commandline in Hp. replace (zlen argv <? 2) with false in Hp by lia.
  destruct (parse_args _ _ _) as [[[r1 o1] p1]|] eqn:Ha; [|done]. cbn [mbind option_bind] in Hp. exists p1.
  apply (args_keep (initial_options o)) in Ha; [|by apply initial_settings].
  destruct (negb (r1 =? 0)); [by injection Hp as <- <-|]. by apply (check_keeps _ _ _ _ _ Hp).
Qed.

(** A command line that is accepted names one to six input files and an
    output file; standard input is only allowed as the one input, and no input
    has the name of the output, unless one of them is standard input or
    output. *)
Theorem accepted_files argv o o' :
  parse_commandline argv o = Some (0, o') →
  1 ≤ num_input_files o' ≤ 6 ∧ ∃ out, outfile o' = Some out ∧
    ∀ i, 0 ≤ i < num_input_files o' → ∃ f, aget (infile o') i = Some (Some f) ∧
      (1 < num_input_files o' → is_pipe f = false) ∧ (is_pipe f = false → is_pipe out = false → f ≠ out).
Proof.
  intros Hp. unfold parse_commandline in Hp. destruct (zlen argv <? 2); [done|].
  destruct (parse_args _ _ _) as [[[r1 o1] p1]|] eqn:Ha; [|done]. cbn [mbind option_bind] in Hp.
  apply (args_keep (initial_options o)) in Ha; [|by apply initial_settings].
  destruct (Z.eqb_spec r1 0) as [->|Hr]; cbn [negb] in Hp; [|by injection Hp as -> _].
  destruct (check_keeps _ _ _ _ _ Hp Ha) as [Hok Hrest]. destruct (Hrest eq_refl) as (Hn & Hfound & Hpipe & Hdiff). split; [done|].
  destruct (st_output _ _ _ Hok Hfound) as [out Hout]. exists out. split; [done|]. intros i Hi.
  destruct (check_files_true _ _ Hdiff i Hi) as (f & Hf & Hb). exists f. split; [done|]. split.
  - intros Hgt. destruct (check_files_true _ _ (Hpipe Hgt) i Hi) as (f2 & Hf2 & Hb2). rewrite Hf in Hf2. injection Hf2 as <-. by injection Hb2.
  - intros Hfp Hop. rewrite Hfp, Hout in Hb. simpl in Hb. rewrite Hop in Hb. simpl in Hb. injection Hb as Hb. by apply String.eqb_neq.
Qed.
End accepted.

(** * Several files *)

(** The channels that are in use, as bits. *)
Fixpoint mask_of {A} (l : list (option A)) : Z :=
  match l with [] => 0 | x :: l => Z.b2z (match x with Some _ => true | None => false end) + 2 * mask_of l end.

Lemma mask_nonneg {A} (l : list (option A)) : 0 ≤ mask_of l.
Proof. induction l as [|[x|] l IH]; simpl; lia. Qed.

Lemma mask_testbit {A} (l : list (option A)) n : Z.testbit (mask_of l) (Z.of_nat n) = match l !! n with Some (Some _) => true | _ => false end.
Proof.
  revert n. induction l as [|x l IH]; intros n; [apply Z.testbit_0_l|]. simpl mask_of. destruct n as [|n].
  - rewrite Z.add_b2z_double_bit0. by destruct x.
  - rewrite Nat2Z.inj_succ, Z.add_comm, Z.testbit_succ_r by lia. apply IH.
Qed.

Lemma mask_free {A} (l : list (option A)) n : l !! n = Some None → Z.land (mask_of l) (2 ^ Z.of_nat n) = 0.
Proof.
  intros Hn. apply Z.bits_inj'. intros k Hk. rewrite Z.land_spec, Z.testbit_0_l, Z.pow2_bits_eqb by lia.
  destruct (Z.eqb_spec (Z.of_nat n) k) as [<-|]; [|apply andb_false_r]. by rewrite mask_testbit, Hn.
Qed.

Lemma mask_set {A} (l : list (option A)) n f : (n < length l)%nat →
  Z.lor (mask_of l) (2 ^ Z.of_nat n) = mask_of (<[n := Some f]> l).
Proof.
  intros Hn. apply Z.bits_inj'. intros k Hk. destruct (Z_of_nat_complete k Hk) as [k' ->].
  rewrite Z.lor_spec, Z.pow2_bits_eqb, !mask_testbit by lia. destruct (decide (n = k')) as [->|Hne].
  - rewrite Z.eqb_refl, orb_true_r, list_lookup_insert_eq by done. done.
  - rewrite list_lookup_insert_ne by done. replace (Z.of_nat n =? Z.of_nat k') with false by lia. by rewrite orb_false_r.
Qed.

(** The files in use come first, in their order. *)
Definition compact {A} (l : list (option A)) : list (option A) :=
  map Some (omap id l) ++ replicate (length l - length (omap id l)) None.

(** Number of full-bandwidth channels. *)
Definition acmod_to_ch : list Z := [2; 1; 2; 3; 3; 4; 4; 5].

Lemma validate_spec l : length l = 9%nat →
  validate_input_files l (mask_of l) =
    Some ((λ acmod, (compact l, acmod, Z.b2z (Z.testbit (mask_of l) 8))) <$> mask_acmod (mask_of l)) ∧
  ∀ acmod, mask_acmod (mask_of l) = Some acmod → zlen (omap id l) = acmod_to_ch.[acmod] + Z.b2z (Z.testbit (mask_of l) 8).
Proof.
  intros Hl. do 9 (destruct l as [|? l]; [done|]). destruct l; [|done]. clear Hl.
  repeat match goal with x : option string |- _ => destruct x end.
  all: split; [reflexivity|intros acmod Ha; vm_compute in Ha; first [discriminate Ha | injection Ha as <-; reflexivity]].
Qed.

Section several.
Import CommandOptions PrivateOptions.

Definition speaker (n : nat) : string := default EmptyString (chstrs !! n).
Definition ch_option (n : nat) : string := String.append "-ch_" (speaker n).

Ltac speakers n := do 9 (destruct n as [|n]; [|]); [..|lia].

Lemma ch_loop_one n f o p : (n < 9)%nat →
  ch_loop chstrs 0 1 (speaker n) f o p =
  (if negb (Z.land (input_mask p) (2 ^ Z.of_nat n) =? 0) then Some (1, o, p)
   else files ← aset (infile o) (Z.of_nat n) (Some f);
        Some (0, o <| infile := files |>, p <| input_mask := Z.lor (input_mask p) (2 ^ Z.of_nat n) |>)).
Proof. intros Hn. do 9 (destruct n as [|n]; [reflexivity|]). lia. Qed.

Lemma ch_step n f o p rest :
  (n < 9)%nat → length (infile o) = 9%nat → input_mask p = mask_of (infile o) → infile o !! n = Some None → single_input p = false →
  parse_args (ch_option n :: f :: rest) o p =
  parse_args rest (o <| infile := <[n := Some f]> (infile o) |> <| num_input_files := num_input_files o + 1 |>)
    (p <| input_mask := mask_of (<[n := Some f]> (infile o)) |> <| multi_input := true |>).
Proof.
  intros Hn Hl Hm Hfree Hs.
  assert (Hone : parse_args (ch_option n :: f :: rest) o p =
    ('(ret, o, p) ← parse_ch (String.append "ch_" (speaker n)) (Some f) 0 0 no_field o p; if negb (ret =? 0) then Some (ret, o, p) else parse_args rest o p)).
  { do 9 (destruct n as [|n]; [reflexivity|]). lia. }
  rewrite Hone. unfold parse_ch. cbn [mbind option_bind].
  assert (Hsuf : suffix_at (String.append "ch_" (speaker n)) 3 = Some (speaker n)) by (cbv [suffix_at String.append]; destruct (speaker n); reflexivity). rewrite Hsuf, Hs. cbn [mbind option_bind].
  rewrite ch_loop_one, Hm, mask_free, aset_upd by (done || unfold zlen; lia). change (negb (0 =? 0)) with false. cbv iota. cbn [mbind option_bind].
  unfold upd. rewrite Nat2Z.id, (mask_set _ _ f) by lia. reflexivity.
Qed.

(** The files put where they belong. *)
Definition place (l : list (option string)) (ins : list (nat * string)) : list (option string) :=
  foldl (λ l '(n, f), <[n := Some f]> l) l ins.
Definition ch_args (ins : list (nat * string)) : list string := concat (map (λ '(n, f), [ch_option n; f]) ins).

Lemma place_length l ins : length (place l ins) = length l.
Proof. revert l. induction ins as [|[n f] ins IH]; intros l; [done|]. simpl. by rewrite IH, length_insert. Qed.

Lemma ch_steps ins o p rest :
  NoDup ins.*1 → Forall (λ n, (n < 9)%nat ∧ infile o !! n = Some None) ins.*1 → length (infile o) = 9%nat → input_mask p = mask_of (infile o) →
  single_input p = false →
  parse_args (ch_args ins ++ rest) o p =
  parse_args rest (o <| infile := place (infile o) ins |> <| num_input_files := num_input_files o + zlen ins |>)
    (p <| input_mask := mask_of (place (infile o) ins) |> <| multi_input := multi_input p || negb (zlen ins =? 0) |>).
Proof.
  revert o p. induction ins as [|[n f] ins IH]; intros o p Hd Hf Hl Hm Hs.
  - simpl. rewrite <- Hm, orb_false_r, Z.add_0_r. by destruct o, p.
  - simpl in Hd, Hf. inversion Hd as [|? ? Hnew Hd2]; subst; clear Hd; rename Hd2 into Hd. apply Forall_cons_1 in Hf as [[Hn Hfree] Hf].
    change (ch_args ((n, f) :: ins) ++ rest) with (ch_option n :: f :: ch_args ins ++ rest). rewrite ch_step by done.
    rewrite IH; [|done| |simpl; by rewrite length_insert|reflexivity|exact Hs].
    + rewrite zlen_cons. pose proof (zlen_nonneg ins). f_equal.
      * simpl. unfold set. simpl. f_equal. lia.
      * simpl. unfold set. simpl. f_equal. replace (negb (1 + zlen ins =? 0)) with true by lia. by rewrite orb_true_r.
    + apply List.Forall_forall. intros m Hm'. rewrite List.Forall_forall in Hf. destruct (Hf m Hm') as [Hlt Hfm]. split; [done|]. simpl.
      rewrite list_lookup_insert_ne; [done|]. intros ->. apply Hnew. by apply list_elem_of_In.
Qed.

Lemma count_insert l n (f : string) : l !! n = Some None → length (omap id (<[n := Some f]> l)) = S (length (omap id l)).
Proof.
  revert n. induction l as [|x l IH]; intros n; [done|]. destruct n as [|n]; simpl.
  - intros [= ->]. done.
  - intros Hn. destruct x; simpl; by rewrite IH.
Qed.

Lemma place_count l ins :
  NoDup ins.*1 → Forall (λ n, l !! n = Some None) ins.*1 → length (omap id (place l ins)) = (length (omap id l) + length ins)%nat.
Proof.
  revert l. induction ins as [|[n f] ins IH]; intros l Hd Hf; [simpl; lia|]. simpl in *. inversion Hd as [|? ? Hnew Hd2]; subst.
  apply Forall_cons_1 in Hf as [Hn Hf]. rewrite IH; [rewrite count_insert by done; lia|done|].
  apply List.Forall_forall. intros m Hm. rewrite List.Forall_forall in Hf. rewrite list_lookup_insert_ne; [by apply Hf|].
  intros ->. apply Hnew. by apply list_elem_of_In.
Qed.

Lemma place_files (P : string → Prop) l ins :
  (∀ f, Some f ∈ l → P f) → Forall P ins.*2 → ∀ f, Some f ∈ place l ins → P f.
Proof.
  revert l. induction ins as [|[n f] ins IH]; intros l Hl Hf; [done|]. simpl in *. apply Forall_cons_1 in Hf as [Hp Hf]. apply IH; [|done].
  intros g Hg. apply list_elem_of_lookup in Hg as [k Hk]. destruct (decide (n = k)) as [->|Hne].
  - assert (Hlt : (k < length l)%nat) by (rewrite <- (length_insert l k (Some f)); by apply lookup_lt_Some in Hk).
    rewrite list_lookup_insert_eq in Hk by done. by injection Hk as <-.
  - rewrite list_lookup_insert_ne in Hk by done. apply Hl. by apply list_elem_of_lookup_2 in Hk.
Qed.

Lemma check_files_all bad o :
  (∀ i, 0 ≤ i < num_input_files o → ∃ f, aget (infile o) i = Some (Some f) ∧ bad f = Some false) → check_files bad o = Some true.
Proof.
  intros Hall. unfold check_files, for_up. set (body := λ (i : Z) (ok : bool), _).
  enough (Hsteps : ∀ n i, (∀ j, i ≤ j < i + Z.of_nat n → ∃ f, aget (infile o) j = Some (Some f) ∧ bad f = Some false) →
    for_steps n i body true = Some true) by (apply Hsteps; intros j Hj; apply Hall; lia).
  induction n as [|n IH]; intros i Hi; [done|]. change (for_steps (S n) i body true) with (s' ← body i true; for_steps n (i + 1) body s').
  destruct (Hi i ltac:(lia)) as (f & Hf & Hb).
  assert (Hbody : body i true = (f ← aget (infile o) i; f ← f; b ← bad f; Some (negb b))) by done.
  rewrite Hbody, Hf. cbn [mbind option_bind]. rewrite Hb. cbn [mbind option_bind negb]. apply IH. intros j Hj. apply Hi. lia.
Qed.

(** An argument that is no option. *)
Definition is_name (a : string) : bool :=
  match a with String c (String _ _) => negb (Ascii.eqb c "-") | _ => true end.

Lemma parse_name a o p : is_name a = true →
  parse_args [a] o p = let '(r, o, p) := parse_empty a o p in Some (r, o, p).
Proof.
  intros Ha. assert (Hrun : parse_args [a] o p = let '(r, o, p) := parse_empty a o p in if negb (r =? 0) then Some (r, o, p) else Some (0, o, p)).
  { destruct a as [|c [|d a]]; [done..|]. simpl in Ha |- *. destruct (Ascii.eqb c "-"); [done|]. done. }
  rewrite Hrun. destruct (parse_empty a o p) as [[r o1] p1]. destruct (Z.eqb_spec r 0) as [->|]; done.
Qed.

Lemma layout_size m acmod : mask_acmod m = Some acmod → 1 ≤ acmod_to_ch.[acmod] ≤ 5.
Proof.
  intros Hm. assert (Ha : 0 ≤ acmod ≤ 7) by (revert Hm; unfold mask_acmod; repeat case_match; intros [= <-]; lia). clear Hm.
  assert (acmod = 0 ∨ acmod = 1 ∨ acmod = 2 ∨ acmod = 3 ∨ acmod = 4 ∨ acmod = 5 ∨ acmod = 6 ∨ acmod = 7) as Hc by lia.
  destruct_or! Hc; subst acmod; vm_compute; split; discriminate.
Qed.

Lemma names_checked o out :
  outfile o = Some out → (∀ i, 0 ≤ i < num_input_files o → ∃ f, aget (infile o) i = Some (Some f) ∧ is_pipe f = false ∧ f ≠ out) →
  no_pipe o = Some true ∧ names_differ o = Some true.
Proof.
  intros Hout Hin. split; apply check_files_all; intros i Hi; destruct (Hin i Hi) as (f & Hf & Hp & Hne); exists f; rewrite Hp; split; try done.
  rewrite Hout. cbn [mbind option_bind]. f_equal. apply andb_false_iff. right. by apply String.eqb_neq.
Qed.

Lemma placed_names (P : string → Prop) ins :
  NoDup ins.*1 → Forall (λ n, (n < 9)%nat) ins.*1 → Forall P ins.*2 →
  let files := place (replicate 9 None) ins in
  length (omap id files) = length ins ∧ ∀ i, 0 ≤ i < zlen ins → ∃ f, aget (compact files) i = Some (Some f) ∧ P f.
Proof.
  intros Hd Hf HP files. assert (Hcount : length (omap id files) = length ins).
  { unfold files. rewrite place_count; [done|done|]. eapply Forall_impl; [|exact Hf]. intros n Hn. by apply lookup_replicate_2. }
  split; [exact Hcount|]. intros i Hi. unfold aget, compact. replace (0 <=? i) with true by lia.
  assert (Hlt : (Z.to_nat i < length (omap id files))%nat) by (unfold zlen in *; lia). apply lookup_lt_is_Some in Hlt as [f Hf'].
  exists f. rewrite lookup_app_l by (rewrite length_map; by apply lookup_lt_Some in Hf'). rewrite list_lookup_fmap, Hf'. split; [done|].
  apply (place_files P (replicate 9 None) ins); [|done|].
  - intros g Hg. apply list_elem_of_lookup in Hg as [k Hk]. by apply lookup_replicate in Hk as [Hk _].
  - apply list_elem_of_lookup_2 in Hf'. apply list_elem_of_omap in Hf' as (x & Hx & Hxf). unfold id in Hxf. by subst x.
Qed.

(** C17: Mono files given with [-ch_X] in any order, for distinct speakers that form
    one of the layouts of AC-3 with or without LFE, and an output: the command
    line is accepted, the files are put in the order of the
    speakers without gaps, there are as many as the audio coding mode has
    channels, and the mode, the LFE flag and the channel map are set. *)
Theorem several_files_accepted prog ins out o acmod :
  let files := place (replicate 9 None) ins in let lfe := Z.b2z (Z.testbit (mask_of files) 8) in
  NoDup ins.*1 → Forall (λ n, (n < 9)%nat) ins.*1 → mask_acmod (mask_of files) = Some acmod →
  Forall (λ f, is_pipe f = false ∧ f ≠ out) ins.*2 → is_name out = true →
  ∃ o', parse_commandline (prog :: ch_args ins ++ [out]) o = Some (0, o') ∧
    infile o' = map Some (omap id files) ++ replicate (9 - length ins) None ∧ outfile o' = Some out ∧
    num_input_files o' = zlen ins ∧ zlen ins = acmod_to_ch.[acmod] + lfe ∧
    AftenContext.acmod (s o') = acmod ∧ AftenContext.lfe (s o') = lfe ∧ chmap o' = 1.
Proof.
  intros files lfe Hd Hf Hm Hfiles Hout. destruct (placed_names _ ins Hd Hf Hfiles) as [Hcount Hin]. fold files in Hcount, Hin.
  assert (Hlen : length files = 9%nat) by apply place_length.
  destruct (validate_spec files Hlen) as [Hval Hnum]. specialize (Hnum acmod Hm). rewrite Hm in Hval. fold lfe in Hval, Hnum.
  assert (Hz : zlen (omap id files) = zlen ins) by (unfold zlen; lia). rewrite Hz in Hnum.
  assert (Hn : 1 ≤ zlen ins ≤ 6) by (pose proof (layout_size _ _ Hm); unfold lfe in *; destruct (Z.testbit _ 8); simpl in *; lia).
  set (o1 := (initial_options o) <| infile := files |> <| num_input_files := zlen ins |> <| outfile := Some out |>).
  set (p1 := PrivateOptions.mk true false true 1 (mask_of files)).
  assert (Hargs : parse_args (ch_args ins ++ [out]) (initial_options o) (PrivateOptions.mk false false false 0 0) = Some (0, o1, p1)).
  { rewrite (ch_steps ins); [|done| |done|done|done].
    - rewrite parse_name by done. replace (zlen ins =? 0) with false by lia. reflexivity.
    - eapply Forall_impl; [|exact Hf]. intros n Hlt. split; [done|]. by apply lookup_replicate_2. }
  set (o' := (set_lfe lfe (set_acmod acmod (o1 <| infile := compact files |>))) <| chmap := 1 |>).
  assert (Hconf : configure_files o1 p1 = Some (Some o')).
  { unfold configure_files. change (multi_input p1) with true. cbv iota. change (infile o1) with files. change (input_mask p1) with (mask_of files).
    rewrite Hval. reflexivity. }
  destruct (names_checked o' out eq_refl Hin) as [Hpipe Hdiff]. exists o'. split.
  - unfold parse_commandline. assert (H2 : (zlen (prog :: ch_args ins ++ [out]) <? 2) = false).
    { rewrite zlen_cons, zlen_app. pose proof (zlen_nonneg (ch_args ins)). change (zlen [out]) with 1. lia. }
    rewrite H2. change (drop 1 (prog :: ch_args ins ++ [out])) with (ch_args ins ++ [out]). rewrite Hargs. cbn [mbind option_bind].
    change (negb (0 =? 0)) with false. cbv iota. unfold check_options. change (negb (xorb (single_input p1) (multi_input p1))) with false. cbv iota.
    change (num_input_files o1) with (zlen ins). replace ((zlen ins <? 1) || (zlen ins >? 6)) with false by lia.
    change (negb (found_output p1)) with false. cbv iota. rewrite Hconf. cbn [mbind option_bind]. change (num_input_files o') with (zlen ins).
    rewrite Hpipe, Hdiff. by destruct (zlen ins >? 1).
  - split_and!; try done. change (infile o') with (compact files). unfold compact. by rewrite Hlen, Hcount.
Qed.

Lemma strncmp_full x name : strncmp_eq x name (S (strlen name)) = String.eqb x name.
Proof.
  revert x. induction name as [|c name IH]; intros [|d x]; try done.
  change (strncmp_eq (String d x) (String c name) (S (strlen (String c name)))) with (Ascii.eqb d c && strncmp_eq x name (S (strlen name))).
  simpl. destruct (Ascii.eqb_spec d c) as [->|Hne]; [apply IH|done].
Qed.

Lemma ch_loop_unknown names n bit x f o p : x ∉ names → ch_loop names n bit x f o p = Some (0, o, p).
Proof.
  revert n bit. induction names as [|name names IH]; intros n bit Hx; [done|]. cbn [ch_loop]. rewrite strncmp_full.
  apply not_elem_of_cons in Hx as [Hne Hx]. apply String.eqb_neq in Hne as ->. by apply IH.
Qed.

Lemma unknown_step x f o p rest : x ∉ chstrs → single_input p = false →
  parse_args (String.append "-ch_" x :: f :: rest) o p =
  parse_args rest (o <| num_input_files := num_input_files o + 1 |>) (p <| multi_input := true |>).
Proof.
  intros Hx Hs.
  assert (Hone : parse_args (String.append "-ch_" x :: f :: rest) o p =
    ('(ret, o, p) ← parse_ch (String.append "ch_" x) (Some f) 0 0 no_field o p; if negb (ret =? 0) then Some (ret, o, p) else parse_args rest o p)) by reflexivity.
  rewrite Hone. unfold parse_ch. cbn [mbind option_bind].
  assert (Hsuf : suffix_at (String.append "ch_" x) 3 = Some x) by (cbv [suffix_at String.append]; destruct x; reflexivity). rewrite Hsuf, Hs.
  cbn [mbind option_bind]. by rewrite ch_loop_unknown.
Qed.

(** C39: A [-ch_X] option with a name that is no speaker is counted as an input but
    its file is put nowhere: with a left and a right file before it, the check
    of the names compares a null pointer. *)
Theorem unknown_speaker_crashes prog x a b c out o :
  x ∉ chstrs → is_pipe a = false → is_pipe b = false → is_name out = true →
  parse_commandline [prog; "-ch_fl"; a; "-ch_fr"; b; String.append "-ch_" x; c; out] o = None.
Proof.
  intros Hx Ha Hb Hout. unfold parse_commandline. change (zlen _ <? 2) with false. cbv iota.
  change (drop 1 [prog; "-ch_fl"; a; "-ch_fr"; b; String.append "-ch_" x; c; out])
    with (ch_args [(0%nat, a); (2%nat, b)] ++ [String.append "-ch_" x; c; out]).
  rewrite ch_steps; [|apply (bool_decide_eq_true_1 _); by vm_compute|by repeat constructor; lia|done..].
  rewrite unknown_step, parse_name by done. destruct o as [? ? ? ? ctx simd0]. simpl initial_options.
  set (o1 := CommandOptions.mk 0 3 [Some a; None; Some b; None; None; None; None; None; None] (Some out) ctx simd0 1 0 0 2 0 48000 1).
  set (o2 := CommandOptions.mk 1 3 [Some a; Some b; None; None; None; None; None; None; None] (Some out)
    (ctx <| AftenContext.acmod := 2 |> <| AftenContext.lfe := 0 |>) simd0 1 0 0 2 0 48000 1).
  transitivity (check_options o1 (PrivateOptions.mk true false true 1 5)); [simpl; reflexivity|].
  transitivity (pipes_ok ← no_pipe o2; if negb pipes_ok then Some (1, o2)
    else names_ok ← names_differ o2; Some (if (names_ok : bool) then 0 else 1, o2)); [reflexivity|].
  assert (Hpipe : no_pipe o2 = None).
  { transitivity (ok ← Some (negb (is_pipe a)); for_up 1 3 (λ i (ok : bool), if ok then f ← aget (infile o2) i; f ← f; b ← Some (is_pipe f); Some (negb b) else Some false) ok); [reflexivity|].
    rewrite Ha. transitivity (ok ← Some (negb (is_pipe b)); for_up 2 3 (λ i (ok : bool), if ok then f ← aget (infile o2) i; f ← f; b ← Some (is_pipe f); Some (negb b) else Some false) ok); [reflexivity|].
    rewrite Hb. reflexivity. }
  by rewrite Hpipe.
Qed.
End several.

(** * Witnesses *)

Definition plain_context : AftenContext.t := AftenContext.mk (EncParams.mk 0 1 0 0 0 0 0 240 (-1) 0 8 5 0 60)
  (Metadata.mk 0 0 0 31 0 0 4 4 4 4 0 0 0 0) (Status.mk 0 0 0) 0 0 1 (-1) (-1) (-1) (-1) 1.
Definition plain_options : CommandOptions.t :=
  CommandOptions.mk 0 0 [] None plain_context (Simd.mk 1 1 1 1 1) 0 0 0 0 0 0 0.

Definition options_of (r : option (Z * CommandOptions.t)) : CommandOptions.t := match r with Some (_, o) => o | None => plain_options end.
Definition raw_options : CommandOptions.t := Eval vm_compute in
  options_of (parse_commandline ["aften"; "-b"; "0x180"; "-w"; "-2"; "-raw_fmt"; "s24_be"; "in"; "out"] plain_options).
Definition piped_options : CommandOptions.t := Eval vm_compute in options_of (parse_commandline ["aften"; "-"; "out.ac3"] plain_options).

(** A bit rate in hexadecimal, a bandwidth below 0 and a raw format. *)
Lemma settings_in_range_witness :
  parse_commandline ["aften"; "-b"; "0x180"; "-w"; "-2"; "-raw_fmt"; "s24_be"; "in"; "out"] plain_options = Some (0, raw_options) ∧
  AftenContext.params (CommandOptions.s raw_options) = EncParams.mk 0 1 0 0 0 0 384 240 (-2) 0 8 5 0 60 ∧
  ∀ it, it ∈ options_list →
    fget (offset it) raw_options = fget (offset it) (initial_options plain_options) ∨ min it ≤ fget (offset it) raw_options ≤ max it.
Proof.
  assert (Hp : parse_commandline ["aften"; "-b"; "0x180"; "-w"; "-2"; "-raw_fmt"; "s24_be"; "in"; "out"] plain_options = Some (0, raw_options))
    by (vm_compute; reflexivity).
  split; [exact Hp|]. split; [reflexivity|]. refine (proj1 (settings_in_range _ plain_options 0 raw_options _ Hp)). by vm_compute.
Defined.

(** From standard input. *)
Lemma accepted_files_witness :
  parse_commandline ["aften"; "-"; "out.ac3"] plain_options = Some (0, piped_options) ∧
  ∃ out, CommandOptions.outfile piped_options = Some out ∧ ∀ i, 0 ≤ i < CommandOptions.num_input_files piped_options →
    ∃ f, aget (CommandOptions.infile piped_options) i = Some (Some f) ∧ (1 < CommandOptions.num_input_files piped_options → is_pipe f = false) ∧
      (is_pipe f = false → is_pipe out = false → f ≠ out).
Proof.
  assert (Hp : parse_commandline ["aften"; "-"; "out.ac3"] plain_options = Some (0, piped_options)) by (vm_compute; reflexivity).
  split; [exact Hp|]. exact (proj2 (accepted_files _ plain_options piped_options Hp)).
Defined.

(** Right, LFE, centre and left. *)
Lemma several_files_accepted_witness :
  let ins := [(2%nat, "r.wav"); (8%nat, "sub.wav"); (1%nat, "c.wav"); (0%nat, "l.wav")] in
  ∃ o', parse_commandline ("aften" :: ch_args ins ++ ["out.ac3"]) plain_options = Some (0, o') ∧
    CommandOptions.infile o' = [Some "l.wav"; Some "c.wav"; Some "r.wav"; Some "sub.wav"; None; None; None; None; None] ∧
    AftenContext.acmod (CommandOptions.s o') = 3 ∧ AftenContext.lfe (CommandOptions.s o') = 1.
Proof.
  intros ins. destruct (several_files_accepted "aften" ins "out.ac3" plain_options 3) as (o' & Hp & Hf & _ & _ & _ & Ha & Hl & _).
  - apply (bool_decide_eq_true_1 _). by vm_compute.
  - repeat constructor; simpl; lia.
  - by vm_compute.
  - repeat constructor; discriminate.
  - reflexivity.
  - exists o'. split; [exact Hp|]. split; [exact Hf|]. split; [exact Ha|exact Hl].
Defined.

Lemma unknown_speaker_crashes_witness :
  parse_commandline ["aften"; "-ch_fl"; "l.wav"; "-ch_fr"; "r.wav"; "-ch_rear"; "c.wav"; "out.ac3"] plain_options = None.
Proof.
  apply (unknown_speaker_crashes "aften" "rear" "l.wav" "r.wav" "c.wav" "out.ac3"); [|done..].
  intros [k Hk]%list_elem_of_lookup. do 9 (destruct k as [|k]; [discriminate Hk|]). discriminate Hk.
Defined.
