(* ===== verification/Aften.v ===== *)
(** [aften/aften.c]: the encoder's program, from the options and the input files
    to the frames it writes.  Opening and closing files, what is printed and
    the progress are left out: a stream is the list of its bytes.  The
    theorems show how the channels are determined, and two ways in which
    the program goes wrong; [Program] shows what the loop writes. *)
From Stdlib Require Import ZArith Lia ZifyBool Bool.
From stdpp Require Import base option list numbers.
From coqutil Require Import Datatypes.RecordSettersUsingExistingGetters.
From S2P Require Import Prelude CMachine Float BitIO Crc Tables Types Util A52 Convert Dynrng Samples Coefs Mdct Process Init Threads Encoder.
From S2P Require Import ByteIO PcmConvert PcmFile PcmRead PcmFormats Pcm Opts.
Local Open Scope Z_scope.
Local Open Scope carray_scope.

(** * Channels *)

(** The mode and the LFE flag from the options and the input: the values, or
    [None] for the error, and the channel mask. *)
Definition explicit_channels (acmod lfe channels : Z) : option (option (Z * Z)) :=
  ch ← aget acmod_to_ch acmod;
  Some (if ch =? channels then
          if lfe <? 0 then Some (acmod, 0) else if negb (lfe =? 0) then None else Some (acmod, lfe)
        else if ch =? channels - 1 then
          if lfe <? 0 then Some (acmod, 1) else if negb (lfe =? 1) then None else Some (acmod, lfe)
        else None).

Definition automatic_channels (lfe channels ch_mask : Z) : option (option (Z * Z) * Z) :=
  if (lfe >=? 0) && ((lfe =? 0) && (channels =? 6) || (lfe =? 1) && (channels =? 1)) then Some (None, ch_mask)
  else
    let ch_mask := if (lfe >=? 0) && negb (lfe =? 0) then Z.lor ch_mask 0x08 else ch_mask in
    '(r, out) ← aften_wav_channels_to_acmod channels ch_mask;
    Some ((if negb (r =? 0) then None else out), ch_mask).

Definition choose_channels (acmod lfe channels ch_mask : Z) : option (option (Z * Z) * Z) :=
  if acmod >=? 0 then v ← explicit_channels acmod lfe channels; Some (v, ch_mask)
  else automatic_channels lfe channels ch_mask.

Section program.
Context `{Target} `{NanBits}.
(** [CONFIG_DOUBLE] *)
Variable config_double : bool.

Definition float_size : Z := if config_double then 8 else 4.
Definition read_format : Z := if config_double then PCM_SAMPLE_FMT_DBL else PCM_SAMPLE_FMT_FLT.
Definition sample_format : Z := if config_double then A52_SAMPLE_FMT_DBL else A52_SAMPLE_FMT_FLT.

(** The input: [None] is the error. *)
Definition open_input (fuel : nat) (r : registry) (stack : Z → list Z) (o : CommandOptions.t) (ifp : list FILE.t) (pc : PcmContext.t) :
    option (option PcmContext.t) :=
  let input_file_format := if negb (CommandOptions.raw_input o =? 0) then PCM_FORMAT_RAW else PCM_FORMAT_UNKNOWN in
  '(err, pc) ← pcm_init fuel r stack (CommandOptions.num_input_files o) ifp read_format input_file_format pc;
  if negb (err =? 0) then Some None
  else
    pc ← (if negb (CommandOptions.read_to_eof o =? 0) then pcm_set_read_to_eof 1 pc else Some pc);
    pc ← (if negb (CommandOptions.raw_input o =? 0) then
            pcm_set_source_params (CommandOptions.raw_ch o) (CommandOptions.raw_fmt o) (CommandOptions.raw_order o) (CommandOptions.raw_sr o) pc
          else Some pc);
    Some (Some pc).

(** [aften_remap], if there is one, on the samples from number [off] on; the
    samples of a buffer of bytes are groups of [float_size]. *)
Definition remap_samples (map_ : Z) (off n ch acmod : Z) (fwav : list Z) : option (list Z) :=
  let w := Z.to_nat float_size in
  let head := take (Z.to_nat off * w) fwav in
  let smp := chunks w (length fwav / w - Z.to_nat off) (drop (Z.to_nat off * w) fwav) in
  let rest := drop (length fwav / w * w) fwav in
  smp ← (if map_ =? 0 then aften_remap_wav_to_a52 (Some smp) n ch sample_format acmod
         else if map_ =? 2 then aften_remap_mpeg_to_a52 (Some smp) n ch sample_format acmod
         else Some (Some smp));
  smp ← smp;
  Some (head ++ concat smp ++ rest).

(** [if (!opts.pad_start)]: the buffer, whose samples become [initial_samples]. *)
Definition short_start (pc : PcmContext.t) (fwav : list Z) (channels : Z) : option (Z * list Z * PcmContext.t) :=
  '(nr, fwav, pc) ← pcm_read_samples pc fwav 256;
  let diff := 256 - nr in
  fwav ← (if diff >? 0 then
            fwav ← memcpy fwav (diff * channels * float_size) fwav 0 nr;
            memset fwav 0 0 (diff * channels * float_size)
          else Some fwav);
  Some (nr, fwav, pc).
Definition initial_samples (map_ : Z) (pc : PcmContext.t) (fwav : list Z) (channels acmod : Z) : option (list Z * PcmContext.t) :=
  '(nr, fwav, pc) ← short_start pc fwav channels;
  fwav ← remap_samples map_ (256 - nr) nr channels acmod fwav;
  Some (fwav, pc).

Context {J : Job}.

(** [do ... while (nr > 0 || fs > 0 || !frame_cnt)]: the bytes written. *)
Fixpoint encode_loop (fuel : nat) (map_ channels acmod : Z) (pc : PcmContext.t) (fwav : list Z) (ss : option Session.t) (frame : list Z)
    (frame_cnt : Z) (written : list Z) : option (list Z) :=
  match fuel with
  | O => None
  | S fuel =>
      '(nr, fwav, pc) ← pcm_read_samples pc fwav A52_SAMPLES_PER_FRAME;
      fwav ← remap_samples map_ 0 nr channels acmod fwav;
      '(ss, frame, fs) ← aften_encode_frame ss (Some frame) (Some fwav) nr;
      frame ← frame;
      if fs <? 0 then Some written
      else
        '(written, frame_cnt) ← (if fs >? 0 then
                                   if fs <=? zlen frame then Some (written ++ take (Z.to_nat fs) frame, frame_cnt + 1) else None
                                 else Some (written, frame_cnt));
        if (nr >? 0) || (fs >? 0) || (frame_cnt =? 0) then encode_loop fuel map_ channels acmod pc fwav ss frame frame_cnt written
        else Some written
  end.
End program.

(** * Properties *)

(** When the audio coding mode is given, the input must have its channels, or one
    more; that one is the LFE channel, and an LFE option must agree with
    it. *)
Theorem explicit_mode_matches_channels acmod lfe channels ch_mask :
  0 ≤ acmod ≤ 7 → -1 ≤ lfe ≤ 1 →
  let n := channels - a52_channels_tab.[acmod] in
  choose_channels acmod lfe channels ch_mask =
  Some (if (0 <=? n) && (n <=? 1) && ((lfe <? 0) || (lfe =? n)) then Some (acmod, n) else None, ch_mask).
Proof.
  intros Ha Hl n. unfold choose_channels. replace (acmod >=? 0) with true by lia. unfold explicit_channels.
  assert (Hch : aget acmod_to_ch acmod = Some a52_channels_tab.[acmod]).
  { assert (acmod = 0 ∨ acmod = 1 ∨ acmod = 2 ∨ acmod = 3 ∨ acmod = 4 ∨ acmod = 5 ∨ acmod = 6 ∨ acmod = 7) as Hc by lia.
    destruct_or! Hc; by subst acmod. }
  rewrite Hch. cbn [mbind option_bind]. do 2 f_equal. subst n. generalize (a52_channels_tab.[acmod]). intros ch.
  repeat case_match; try lia; repeat f_equal; lia.
Qed.

(** Without a mode, the option that there is no LFE channel changes nothing for
    less than six channels: a channel mask with an LFE channel still gives
    one. *)
Theorem lfe_0_is_ignored channels ch_mask :
  channels ≠ 6 → choose_channels (-1) 0 channels ch_mask = choose_channels (-1) (-1) channels ch_mask.
Proof.
  intros Hc. unfold choose_channels, automatic_channels. change (-1 >=? 0) with false. change (0 >=? 0) with true. cbv iota.
  replace ((0 =? 0) && (channels =? 6) || (0 =? 1) && (channels =? 1)) with false by lia. done.
Qed.

Section bugs.
Context `{Target} `{NanBits}.

Lemma splice_splice_zeros (fwav : list Z) D (n : Z) :
  0 ≤ n → 0 ≤ D → D + n ≤ zlen fwav →
  splice (splice fwav D (slice fwav 0 n)) 0 (replicate (Z.to_nat D) 0) =
  replicate (Z.to_nat D) 0 ++ take (Z.to_nat n) fwav ++ drop (Z.to_nat (D + n)) fwav.
Proof.
  intros Hn HD Hl. unfold splice, slice. rewrite drop_0. change (Z.to_nat 0) with 0%nat. cbn [take app Nat.add].
  rewrite take_0, length_replicate. cbn [app]. f_equal. rewrite drop_app_length' by (rewrite length_take; unfold zlen in *; lia). f_equal.
  rewrite length_take. f_equal. unfold zlen in *. lia.
Qed.

(** C40: With no silence before the input, and an input of [nr] < 256 samples per
    channel, the samples are to be moved behind silence in the buffer of the
    initial samples; but only [nr] bytes are, and behind them the buffer stays
    as it was. *)
Theorem short_start_moves_bytes config_double pc fwav channels nr fwav1 pc1 :
  pcm_read_samples pc fwav 256 = Some (nr, fwav1, pc1) → 0 ≤ nr < 256 → 1 ≤ channels ≤ 6 →
  zlen fwav1 = A52_SAMPLES_PER_FRAME * channels * float_size config_double →
  let silence := (256 - nr) * channels * float_size config_double in
  short_start config_double pc fwav channels =
  Some (nr, replicate (Z.to_nat silence) 0 ++ take (Z.to_nat nr) fwav1 ++ drop (Z.to_nat (silence + nr)) fwav1, pc1).
Proof.
  intros Hread Hnr Hch Hlen silence. unfold short_start. rewrite Hread. cbn [mbind option_bind]. replace (256 - nr >? 0) with true by lia.
  assert (Hw : 4 ≤ float_size config_double ≤ 8) by (unfold float_size; destruct config_double; lia).
  assert (Hs : 0 ≤ silence ∧ silence + nr ≤ zlen fwav1) by (unfold silence, A52_SAMPLES_PER_FRAME in *; nia).
  fold silence. rewrite memcpy_in by (unfold zlen in *; lia). cbn [mbind option_bind].
  rewrite memset_in; [|lia..|].
  - cbn [mbind option_bind]. by rewrite splice_splice_zeros by lia.
  - rewrite zlen_splice; [lia..|]. rewrite zlen_slice; lia.
Qed.

Lemma concat_chunks w n (m : list Z) : concat (chunks w n m) = take (n * w) m.
Proof.
  revert m. induction n as [|n IH]; intros m; [done|]. simpl. rewrite IH. rewrite <- (take_drop w m) at 3.
  rewrite take_app. rewrite length_take. destruct (decide (w ≤ length m)%nat).
  - rewrite (take_ge (take w m)) by (rewrite length_take; lia). f_equal. f_equal. lia.
  - rewrite (drop_ge m) by lia. rewrite !take_nil, !app_nil_r. symmetry. apply take_ge. rewrite length_take. lia.
Qed.

Lemma remap_none config_double n ch acmod fwav : remap_samples config_double 1 0 n ch acmod fwav = Some fwav.
Proof.
  unfold remap_samples. change (1 =? 0) with false. change (1 =? 2) with false. cbv iota. cbn [mbind option_bind]. f_equal.
  change (Z.to_nat 0) with 0%nat. rewrite Nat.mul_0_l, drop_0, Nat.sub_0_r, concat_chunks. cbn [take app]. apply take_drop.
Qed.

(** When the input is at its end, the encoder drained, and every frame so far
    was refused by bit allocation, so that none has been written, the loop
    runs for ever. *)
Theorem no_frame_hangs {J : Job} config_double fuel channels acmod pc fwav ss frame written :
  pcm_read_samples pc fwav A52_SAMPLES_PER_FRAME = Some (0, fwav, pc) →
  Ctx.n_threads (Session.ctx ss) = 1 → drained (Session.ctx ss) = true →
  encode_loop config_double fuel 1 channels acmod pc fwav (Some ss) frame 0 written = None.
Proof.
  intros Hread Hn Hd. induction fuel as [|fuel IH]; [done|]. cbn [encode_loop]. rewrite Hread. cbn [mbind option_bind]. rewrite remap_none. cbn [mbind option_bind].
  assert (Henc : aften_encode_frame (Some ss) (Some frame) (Some fwav) 0 = Some (Some ss, Some frame, 0)).
  { unfold aften_encode_frame, encode_single. rewrite Hn, Hd. reflexivity. }
  rewrite Henc. cbn [mbind option_bind]. change (0 <? 0) with false. change (0 >? 0) with false. change (0 =? 0) with true. cbv iota.
  cbn [mbind option_bind orb]. exact IH.
Qed.
End bugs.

(** Mode 3/2 given for six channels, without an LFE option. *)
Lemma explicit_mode_matches_channels_witness : choose_channels 7 (-1) 6 0x3F = Some (Some (7, 1), 0x3F).
Proof. apply (explicit_mode_matches_channels 7 (-1) 6 0x3F); lia. Defined.

(** Left, right and LFE in the mask. *)
Lemma lfe_0_is_ignored_witness : choose_channels (-1) 0 3 0xB = choose_channels (-1) (-1) 3 0xB ∧ choose_channels (-1) 0 3 0xB = Some (Some (2, 1), 0xB).
Proof. split; [apply lfe_0_is_ignored; lia|reflexivity]. Defined.

(** Two samples of a mono file, of eight bytes. *)
Lemma short_start_moves_bytes_witness :
  let T := {| words_bigendian := false |} in
  let N := {| nan_to_float := id; nan_to_double := id |} in
  let bytes := [1; 2; 3; 4; 5; 6; 7; 8] in
  let pf := PcmFile.mk T N (choose_converter 6 6 None) (Some (byteio_init (FILE.mk bytes 0 true))) 0 true 0 8 0 8 2 1 0 None PCM_BYTE_ORDER_LE
    1 4 48000 4 32 6 6 0 in
  let pc := PcmContext.mk T N [pf] 1 2 1 4 48000 0 6 in
  ∃ pc1, short_start false pc (replicate (Z.to_nat 6144) 0) 1 = Some (2, replicate (Z.to_nat 1016) 0 ++ [1; 2] ++ replicate (Z.to_nat 5126) 0, pc1).
Proof.
  intros T N bytes pf pc. destruct (byteio_init_spec (FILE.mk bytes 0 true) ltac:(simpl; lia)) as (Hio & Hst & _ & Hc & Hs).
  set (io := byteio_init _) in *.
  assert (Hok : pcm_ok bytes pf io).
  { split; [reflexivity|exact Hio|exact Hc|exact Hs|exact Hst|simpl; lia|]. unfold bytes, byte. repeat constructor; lia. }
  assert (Hsrc : source_ok pf) by (split; [simpl; lia|simpl; lia|simpl; lia|by left|reflexivity|reflexivity|reflexivity]).
  assert (Hread : read_ok pf 256) by (split; [lia|reflexivity|simpl; lia|intros _; split; [simpl; lia|reflexivity]]).
  assert (Hwords : source_words pf 2 (slice bytes 0 8) = [0x04030201; 0x08070605]) by (by vm_compute).
  destruct (read_samples_spec bytes pf io (replicate (Z.to_nat 6144) 0) 256 [0x04030201; 0x08070605] Hok Hsrc Hread ltac:(by vm_compute) ltac:(by left)) as (ctx' & Hr & _).
  { change (Forall2 (converted 6 6) (source_words pf 2 (slice bytes 0 8)) [0x04030201; 0x08070605]). rewrite Hwords. repeat constructor. }
  { vm_compute. discriminate. }
  exists (pc <| PcmContext.pcm_file := [moved pf ctx' 8] |>).
  apply (short_start_moves_bytes false pc (replicate (Z.to_nat 6144) 0) 1 2 ([1; 2; 3; 4; 5; 6; 7; 8] ++ replicate (Z.to_nat 6136) 0)); [|lia|lia|by vm_compute].
  unfold pcm_read_samples. change (PcmContext.num_files pc =? 1) with true. cbv iota. change (aget (PcmContext.pcm_file pc) 0) with (Some pf).
  cbn [mbind option_bind]. rewrite Hr. reflexivity.
Defined.

(** The silent encoder, drained, and a file that has been read. *)
Lemma no_frame_hangs_witness :
  let T := {| words_bigendian := false |} in
  let N := {| nan_to_float := id; nan_to_double := id |} in
  let pf := PcmFile.mk T N (choose_converter 6 6 None) (Some (byteio_init (FILE.mk [] 0 true))) 0 true 0 0 0 0 0 1 0 None PCM_BYTE_ORDER_LE
    1 4 48000 4 32 6 6 0 in
  let pc := PcmContext.mk T N [pf] 1 2 1 4 48000 0 6 in
  let ss := silent_session <| Session.ctx := counted silent_ctx 0 |> in
  encode_loop (J := frame_job (T := little_endian) (FF := single_format) (K := silent_kernels) (LM := quiet) (R := trapping_residue)
    tab_after_init (replicate (Z.to_nat 1536) zero_float)) false 100 1 1 1 pc [] (Some ss) [] 0 [] = None.
Proof. intros T N pf pc ss. apply no_frame_hangs; reflexivity. Defined.
