(* ===== verification/Program.v ===== *)
(** The encoder's program on one input file: the loop of [aften/aften.c] over
    the reader of [pcm/] and the calls of the library.  The theorem
    [program_writes_the_frames] is that the bytes written are the frames that
    the library returns for the samples of the file, cut into blocks of 1536
    per channel, and for one last call without samples; and that the loop ends
    if there is any such frame. *)
From Stdlib Require Import ZArith Lia ZifyBool Bool.
From stdpp Require Import base option list numbers.
From coqutil Require Import Datatypes.RecordSettersUsingExistingGetters.
From S2P Require Import Prelude CMachine Float FloatExact BitIO Crc Tables Types Util A52 BitAlloc FrameOut Filter Convert Dynrng Samples Coefs Process Init Threads Encoder.
From S2P Require Import ByteIO PcmConvert PcmFile PcmRead PcmFormats PcmParse Pcm Aften.
Local Open Scope Z_scope.
Local Open Scope carray_scope.

(** * The calls that encode a stream *)

Section stream.
Context {J : Job}.

(** What a list of calls returns: the frames, without the calls that return none. *)
Fixpoint encode_calls (calls : list (option (list Z) * Z)) (ss : Session.t) (m : list Z) : option (Session.t * list Z * list (list Z)) :=
  match calls with
  | [] => Some (ss, m, [])
  | (src, n) :: calls =>
      '(ss, m, fs) ← aften_encode_frame (Some ss) (Some m) src n;
      ss ← ss; m ← m;
      '(ss', m', frames) ← encode_calls calls ss m;
      Some (ss', m', (if fs >? 0 then [take (Z.to_nat fs) m] else []) ++ frames)
  end.
End stream.

(** A complete frame, as [process_frame] leaves it in the output buffer. *)
Definition whole_frame `{FloatFormat} (c0 : Ctx.t) (f : list Z) : Prop :=
  ∃ c fc m0 t m, frame_output (counted c0 c) fc m0 t m ∧ f = take (Z.to_nat (TCtx.framesize t)) m.

Section calls.
Context `{T : Target} `{FF : FloatFormat} {Ok : FloatOk FF} `{K : Kernels} {KOk : KernelsOk} `{LM : LibM} `{R : Residue} {ROk : ResidueOk R}.
Variables (tab : list Z) (buffer : list FLOAT) (fmt : Z) (c0 : Ctx.t) (room : Audio.t → Prop) (calm : list (list FLOAT) → Prop).
Hypothesis Htab : table_ok tab.
Hypothesis Hbuf : zlen buffer = 1536.
Hypothesis Hfmt : 0 ≤ fmt ≤ 7.
Hypothesis Hroom : headroom c0 room calm.

#[local] Instance program_job : Job := frame_job tab buffer.

(** What lies behind the samples of a call makes no difference. *)
Lemma load_ignores_rest ctx au src rest count t :
  0 ≤ Ctx.n_all_channels ctx ≤ 6 → 0 ≤ count ≤ 1536 → Audio.fmt_convert_from_src au = set_converter None fmt →
  tctx_ok ctx t → enough fmt ctx src count → load_samples ctx au (src ++ rest) count t = load_samples ctx au src count t.
Proof.
  intros Hn Hc Hconv Ht Hsrc. pose proof (fo_audio _ (tx_frame _ _ Ht)) as Hd. unfold enough in Hsrc.
  assert (Hw : 0 < sample_width fmt) by (unfold sample_width; by destruct (_ || _), (fmt =? A52_SAMPLE_FMT_S16), (fmt =? A52_SAMPLE_FMT_DBL)).
  destruct (converter_spec None fmt _ src _ _ Hfmt Hd Hn Hc Hsrc) as (f & Hf & H1).
  destruct (converter_spec None fmt _ (src ++ rest) _ _ Hfmt Hd Hn Hc) as (f' & Hf' & H2).
  { rewrite zlen_app. pose proof (zlen_nonneg rest). etransitivity; [exact Hsrc|lia]. }
  rewrite Hf in Hf'. injection Hf' as <-. apply wp_some in H1 as (d1 & E1 & D1 & A1), H2 as (d2 & E2 & D2 & A2).
  unfold load_samples, convert_samples_from_src. rewrite Hconv, Hf. cbn [mbind option_bind]. rewrite E1, E2.
  replace d2 with d1; [done|]. apply (dim2_ext 6 1536); [done..|]. intros ch i Hch Hi. rewrite A1, A2 by done.
  destruct (Z.ltb_spec ch (Ctx.n_all_channels ctx)), (Z.ltb_spec i count); cbn [andb]; try done.
  unfold sample_at. do 2 f_equal. symmetry. apply load_app_l; [done|nia|]. etransitivity; [|exact Hsrc].
  apply Z.mul_le_mono_nonneg_r; [lia|nia].
Qed.

Lemma single_ignores_rest ss src rest count m :
  single_ok fmt ss → 0 ≤ count ≤ 1536 → enough fmt (Session.ctx ss) src count →
  encode_single (src ++ rest) count ss m = encode_single src count ss m.
Proof.
  intros Hss Hc Hsrc. pose proof (so_thread _ _ Hss) as [_ Hl]. pose proof (so_coder _ _ Hss) as Hco.
  pose proof (n_range _ (co_ctx _ _ _ Hco)) as Hn. unfold encode_single. rewrite aget_at by lia. cbn [mbind option_bind].
  rewrite load_ignores_rest; [done|lia|done|apply (co_convert _ _ _ Hco)|apply (so_tctx _ _ Hss)|done].
Qed.

(** The encoder between two calls of the program, and what a call with [n]
    samples per channel leaves; [r] is its value. *)
Record running (ss : Session.t) : Prop := {
  rn_single : single_ok fmt ss;
  rn_ctx : ∃ c, Session.ctx ss = counted c0 c;
  rn_room : room (Session.audio ss)
}.

#[local] Abbreviation last ss := (Ctx.last_samples_count (Session.ctx ss)).

Record called (ss : Session.t) (m : list Z) (n : Z) (ss' : Session.t) (m' : list Z) (r : Z) : Prop := {
  cl_running : running ss';
  cl_memory : frame_memory m';
  cl_size : 0 ≤ r ≤ A52_MAX_CODED_FRAME_SIZE;
  cl_last : drained (Session.ctx ss) = false → last ss' = n;
  cl_drained : drained (Session.ctx ss) = true → ss' = ss ∧ m' = m ∧ r = 0;
  cl_frame : 0 < r → whole_frame c0 (take (Z.to_nat r) m')
}.

Lemma running_signal ss d : running ss → calm d → signal_ok (Session.ctx ss) (Session.audio ss) d.
Proof.
  intros [Hss [c Hctx] Hrm] Hd. pose proof (co_audio _ _ _ (so_coder _ _ Hss)) as Hau. rewrite Hctx in Hau |- *.
  apply (hr_signal _ _ _ Hroom); [|done|done]. by apply (same_settings_ok (counted c0 c)).
Qed.

Lemma coded_whole ss d m au' t' m' :
  (∃ c, Session.ctx ss = counted c0 c) → coded_frame (Session.ctx ss) (Session.audio ss) d m au' t' m' →
  0 < TCtx.framesize t' → whole_frame c0 (take (Z.to_nat (TCtx.framesize t')) m').
Proof.
  intros [c Hctx] [fb _ Hz|fb fc m1 _ _ Hout] Hpos; [lia|]. rewrite Hctx in Hout. by exists c, fc, m, t', m1.
Qed.

Lemma call_spec ss m src n :
  running ss → frame_memory m → 0 ≤ n ≤ 1536 → n = 0 ∨ last ss = -1 ∨ last ss = 1536 → enough fmt c0 src n →
  (∀ d, loaded fmt c0 src n d → calm d) →
  ∃ ss' m' r, called ss m n ss' m' r ∧
    ∀ samples rest, default [] samples = src ++ rest → (samples = None → n = 0) →
      aften_encode_frame (Some ss) (Some m) samples n = Some (Some ss', Some m', r).
Proof.
  intros Hrun Hm Hn Hlast Hsrc Hcalm. pose proof Hrun as [Hss [c Hctx] Hrm]. pose proof (so_thread _ _ Hss) as [Hone _].
  assert (Hcall : ∀ samples rest, default [] samples = src ++ rest → (samples = None → n = 0) →
    aften_encode_frame (Some ss) (Some m) samples n = ('(ss', m', r) ← encode_single src n ss m; Some (Some ss', Some m', r))).
  { intros samples rest Hdef Hnone. unfold aften_encode_frame.
    assert (Hrej : rejected (Session.ctx ss) samples n = false).
    { unfold rejected, A52_SAMPLES_PER_FRAME. destruct (bool_decide_reflect (samples = None)) as [Hs|_]; [rewrite (Hnone Hs) in *|]; lia. }
    rewrite Hrej, Hone, Hdef. change (1 >? 1) with false. cbv iota. rewrite single_ignores_rest; [done|done|done|]. by rewrite Hctx. }
  destruct (drained (Session.ctx ss)) eqn:Hd.
  - exists ss, m, 0. split; [by split; try done; unfold A52_MAX_CODED_FRAME_SIZE; lia|]. intros samples rest Hdef Hnone.
    rewrite (Hcall samples rest Hdef Hnone). unfold encode_single. by rewrite Hd.
  - pose proof (encode_single_spec tab buffer fmt Hbuf Hfmt ss src n m (table_init _ Htab) Hss Hd Hm Hn) as Hw.
    assert (Hsrc' : enough fmt (Session.ctx ss) src n) by (by rewrite Hctx).
    assert (Hsig : ∀ d, loaded fmt (Session.ctx ss) src n d → signal_ok (Session.ctx ss) (Session.audio ss) d).
    { intros d Hl. apply running_signal; [done|]. apply Hcalm. by rewrite Hctx in Hl. }
    specialize (Hw Hsrc' Hsig). apply wp_some in Hw as ([[ss' m'] r] & Heq & Henc).
    exists ss', m', r. destruct (ec_frame _ _ _ _ _ _ _ _ Henc) as (d & Hload & Hcoded). rewrite Hctx in Hload.
    split; [|intros samples rest Hdef Hnone; rewrite (Hcall samples rest Hdef Hnone); unfold single_job in Heq; unfold program_job; by rewrite Heq].
    split; [|apply (ec_memory _ _ _ _ _ _ _ _ Henc)|apply (ec_size _ _ _ _ _ _ _ _ Henc)| |intros; congruence|].
    + split; [apply (ec_ok _ _ _ _ _ _ _ _ Henc)|exists n; rewrite (ec_count _ _ _ _ _ _ _ _ Henc), Hctx; by destruct c0|].
      rewrite Hctx in Hcoded. destruct Hcoded as [fb Hbg _|fb fc m1 Hbg _ _]; exact (hr_kept _ _ _ Hroom c _ d _ fb Hrm (Hcalm d Hload) Hbg).
    + intros _. by rewrite (ec_count _ _ _ _ _ _ _ _ Henc).
    + rewrite (ec_result _ _ _ _ _ _ _ _ Henc). apply (coded_whole ss d m (Session.audio ss')); [by exists c|done].
Qed.
End calls.

(** * Remapping *)

(** [aften_remap] on samples of any type. *)
Definition remap_list {A} (map_ n ch fmt acmod : Z) (smp : list A) : option (list A) :=
  r ← (if map_ =? 0 then aften_remap_wav_to_a52 (Some smp) n ch fmt acmod
       else if map_ =? 2 then aften_remap_mpeg_to_a52 (Some smp) n ch fmt acmod
       else Some (Some smp));
  r.

Lemma at_map {A B} `{Inhabited A} `{Inhabited B} (f : A → B) (l : list A) i : 0 ≤ i < zlen l → (map f l).[i] = f l.[i].
Proof.
  intros Hi. unfold at_. apply list_lookup_total_correct. change (map f l) with (f <$> l). rewrite list_lookup_fmap.
  rewrite (list_lookup_lookup_total_lt l) by (unfold zlen in Hi; lia). done.
Qed.

(** Samples moved by [σ] within the first [N], before and after a function. *)
Definition moved_by {A} `{Inhabited A} (σ : Z → Z) (N : Z) (smp smp' : list A) : Prop :=
  zlen smp' = zlen smp ∧ ∀ t, 0 ≤ t → smp'.[t] = if t <? N then smp.[σ t] else smp.[t].

Lemma moved_by_map {A B} `{Inhabited A} `{Inhabited B} (f : A → B) σ N (b b' : list A) (rest s' : list B) :
  zlen b = N → (∀ t, 0 ≤ t < N → 0 ≤ σ t < N) → moved_by σ N b b' → moved_by σ N (map f b ++ rest) s' → s' = map f b' ++ rest.
Proof.
  intros Hb Hσ [Hl1 H1] [Hl2 H2]. rewrite zlen_app, zlen_map in Hl2. apply array_ext; [rewrite zlen_app, zlen_map; lia|].
  intros t Ht. rewrite H2 by lia. destruct (Z.ltb_spec t N) as [Hlt|Hge].
  - pose proof (Hσ t ltac:(lia)). rewrite !at_app_l by (rewrite zlen_map; lia). rewrite !at_map by lia. f_equal.
    rewrite H1 by lia. by replace (t <? N) with true by lia.
  - rewrite !at_app_r by (rewrite zlen_map; lia). rewrite !zlen_map. by rewrite Hl1.
Qed.

Lemma remap_list_map {A B} `{Inhabited A} `{Inhabited B} (f : A → B) (b : list A) (rest : list B) map_ n fmt acmod lfe :
  let ch := a52_channels_tab.[acmod] + lfe in
  0 ≤ acmod < 8 → 0 ≤ lfe < 2 → 0 ≤ n → zlen b = n * ch → fmt_known fmt = true →
  ∃ b', remap_list map_ n ch fmt acmod b = Some b' ∧ zlen b' = zlen b ∧
    remap_list map_ n ch fmt acmod (map f b ++ rest) = Some (map f b' ++ rest).
Proof.
  intros ch Ha Hl Hn Hb Hfmt. unfold remap_list.
  assert (Hch : 1 ≤ ch ∧ (3 ≤ acmod → 2 ≤ ch)).
  { assert (Htab : (1 ≤ a52_channels_tab.[acmod]) ∧ (3 ≤ acmod → 2 ≤ a52_channels_tab.[acmod]));
      [|unfold ch; lia]. table_check (λ a, (1 <=? a52_channels_tab.[a]) && (negb (3 <=? a) || (2 <=? a52_channels_tab.[a]))) 8 Ha. lia. }
  pose proof (zlen_nonneg rest) as Hr0.
  assert (Hall : n * ch ≤ zlen b ∧ n * ch ≤ zlen (map f b ++ rest)) by (rewrite zlen_app, zlen_map; lia). destruct Hall as [Hb1 Hb2].
  assert (Hid : ∃ b', (Some (Some b) ≫= λ r, r) = Some b' ∧ zlen b' = zlen b ∧ (Some (Some (map f b ++ rest)) ≫= λ r, r) = Some (map f b' ++ rest))
    by (by exists b).
  assert (Hdiv : ∀ t, 0 ≤ t < n * ch → 0 ≤ t / ch < n ∧ 0 ≤ t mod ch < ch).
  { intros t Ht. split; [split; [apply Z.div_pos; lia|apply Z.div_lt_upper_bound; lia]|apply Z.mod_pos_bound; lia]. }
  destruct (map_ =? 0); [|destruct (map_ =? 2); [|exact Hid]].
  - unfold aften_remap_wav_to_a52. rewrite aget_at by (change (zlen a52_channels_tab) with 8; lia). cbn [mbind option_bind].
    replace (if ch >? a52_channels_tab.[acmod] then 1 else 0) with lfe by (unfold ch; destruct (Z.gtb_spec (a52_channels_tab.[acmod] + lfe) (a52_channels_tab.[acmod])); lia).
    destruct ((acmod <? 3) || _); [exact Hid|]. rewrite Hfmt.
    pose proof (remap_wav_spec b n acmod lfe Ha Hl Hn ltac:(fold ch; lia) Hb1) as W1. fold ch in W1.
    pose proof (remap_wav_spec (map f b ++ rest) n acmod lfe Ha Hl Hn ltac:(fold ch; lia) Hb2) as W2. fold ch in W2.
    apply wp_some in W1 as (b' & E1 & L1 & A1), W2 as (s' & E2 & L2 & A2). rewrite E1, E2. cbn [mbind option_bind].
    exists b'. split; [done|]. split; [done|]. f_equal.
    apply (moved_by_map f (λ t, t / ch * ch + (chmap_row acmod lfe).[t mod ch]) (n * ch) b); [done| |by split|by split].
    intros t Ht. destruct (Hdiv t Ht) as [Hd Hm]. pose proof (chmap_row_entry acmod lfe (t mod ch) Ha Hl Hm) as (_ & _ & Hc). fold ch in Hc. nia.
  - unfold aften_remap_mpeg_to_a52. destruct (Z.leb_spec acmod 2) as [|H3]; cbn [orb]; [exact Hid|].
    destruct (Z.land acmod 1 =? 0); [exact Hid|]. rewrite Hfmt.
    pose proof (remap_mpeg_spec b n ch Hn ltac:(lia) Hb1) as W1. pose proof (remap_mpeg_spec (map f b ++ rest) n ch Hn ltac:(lia) Hb2) as W2.
    apply wp_some in W1 as (b' & E1 & L1 & A1), W2 as (s' & E2 & L2 & A2). rewrite E1, E2. cbn [mbind option_bind].
    exists b'. split; [done|]. split; [done|]. f_equal.
    apply (moved_by_map f (λ t, t / ch * ch + (if t mod ch =? 0 then 1 else if t mod ch =? 1 then 0 else t mod ch)) (n * ch) b); [done| |by split|by split].
    intros t Ht. destruct (Hdiv t Ht) as [Hd Hm]. destruct (Z.eqb_spec (t mod ch) 0), (Z.eqb_spec (t mod ch) 1); nia.
Qed.

Section buffers.
Context `{Target} `{NanBits}.

Lemma chunks_words (w m : nat) b r :
  chunks w (length b + m) (words (Z.of_nat w) b ++ r) = map (host_bytes (Z.of_nat w)) b ++ chunks w m r.
Proof.
  induction b as [|v b IH]; [done|]. change (words (Z.of_nat w) (v :: b)) with (host_bytes (Z.of_nat w) v ++ words (Z.of_nat w) b).
  assert (Hl : length (host_bytes (Z.of_nat w) v) = w) by (pose proof (host_bytes_len (Z.of_nat w) v ltac:(lia)); unfold zlen in *; lia).
  cbn [length Nat.add chunks map]. rewrite <- app_assoc. rewrite take_app_length' by done. rewrite drop_app_length' by done. by rewrite IH.
Qed.

(** Remapping a buffer that starts with the words of a block. *)
Lemma remap_samples_words config_double map_ n acmod lfe b rest :
  let w := float_size config_double in let ch := a52_channels_tab.[acmod] + lfe in
  0 ≤ acmod < 8 → 0 ≤ lfe < 2 → 0 ≤ n → zlen b = n * ch →
  ∃ b', remap_list map_ n ch (sample_format config_double) acmod b = Some b' ∧ zlen b' = zlen b ∧
    remap_samples config_double map_ 0 n ch acmod (words w b ++ rest) = Some (words w b' ++ rest).
Proof.
  intros w ch Ha Hl Hn Hb. assert (Hfmt : fmt_known (sample_format config_double) = true) by (by destruct config_double).
  destruct (Z_of_nat_complete w ltac:(unfold w, float_size; destruct config_double; lia)) as [k Hk].
  assert (Hk0 : (0 < k)%nat) by (unfold w, float_size in Hk; destruct config_double; lia).
  pose proof (zlen_words w b ltac:(lia)) as Hlen. set (m := (length rest / k)%nat).
  destruct (remap_list_map (host_bytes w) b (chunks k m rest) map_ n (sample_format config_double) acmod lfe Ha Hl Hn Hb Hfmt) as (b' & E1 & Hlb & E2).
  exists b'. split; [done|]. split; [done|]. fold ch in E2. unfold remap_samples, remap_list in *. fold w. rewrite Hk, Nat2Z.id.
  change (Z.to_nat 0) with 0%nat. rewrite Nat.mul_0_l, Nat.sub_0_r, drop_0. cbn [take app].
  assert (Hnum : (length (words (Z.of_nat k) b ++ rest) / k = length b + m)%nat).
  { rewrite length_app. replace (length (words (Z.of_nat k) b)) with (length b * k)%nat by (rewrite <- Hk; unfold zlen in *; lia).
    unfold m. rewrite Nat.div_add_l; lia. }
  rewrite Hnum, chunks_words. rewrite Hk in E2.
  match goal with E : ?o ≫= (λ r, r) = Some ?l |- (?o ≫= ?g) = _ => destruct o as [[smp|]|] eqn:Ho; try discriminate; injection E as -> end.
  cbn [mbind option_bind]. f_equal. rewrite take_0, app_nil_l, concat_app, concat_chunks. change (concat (map (host_bytes (Z.of_nat k)) b')) with (words (Z.of_nat k) b').
  rewrite <- app_assoc. f_equal. rewrite drop_app_ge by (rewrite <- Hk; unfold zlen in *; nia).
  replace ((length b + m) * k - length (words (Z.of_nat k) b))%nat with (m * k)%nat by (rewrite <- Hk; unfold zlen in *; nia).
  apply take_drop.
Qed.
End buffers.

(** * The samples of a file *)

Lemma chunks_split w n k l : chunks w (n + k) l = chunks w n l ++ chunks w k (drop (n * w) l).
Proof.
  revert l. induction n as [|n IH]; intros l; [by rewrite Nat.mul_0_l, drop_0|]. cbn [Nat.add chunks app]. rewrite IH, drop_drop.
  do 3 f_equal.
Qed.

Lemma chunks_take w n m l : (n * w ≤ m)%nat → chunks w n (take m l) = chunks w n l.
Proof.
  revert m l. induction n as [|n IH]; intros m l Hm; [done|]. cbn [chunks]. rewrite take_take, Nat.min_l by lia. f_equal.
  rewrite <- (IH (m - w)%nat (drop w l)) by lia. by rewrite skipn_firstn_comm.
Qed.

Section source.
Context `{Target} `{NanBits}.
Implicit Types pf : PcmFile.t.

(** The bytes that are left to read, and all the samples in them. *)
Definition remaining (bytes : list Z) pf : list Z :=
  if PcmFile.read_to_eof pf =? 0 then slice bytes (PcmFile.filepos pf) (PcmFile.data_start pf + PcmFile.data_size pf - PcmFile.filepos pf)
  else drop (Z.to_nat (PcmFile.filepos pf)) bytes.

(** A file that can be read to its end: a data chunk of whole samples in the
    file or, for [read_to_eof], anything; and its samples in the read format. *)
Record stream_input (bytes : list Z) pf (outs : list Z) : Prop := {
  si_open : ∃ ctx, pcm_ok bytes pf ctx;
  si_source : source_ok pf;
  si_len : zlen bytes < 2 ^ 63;
  si_host : words_bigendian = false ∨ file_width (PcmFile.source_format pf) ≠ 3;
  si_int : PcmFile.block_align pf * 1536 < 2 ^ 31;
  si_data : PcmFile.read_to_eof pf = 0 →
    PcmFile.filepos pf ≤ PcmFile.data_start pf + PcmFile.data_size pf ≤ zlen bytes ∧
    (PcmFile.data_start pf + PcmFile.data_size pf - PcmFile.filepos pf) mod PcmFile.block_align pf = 0;
  si_outs : Forall2 (converted (PcmFile.source_format pf) (PcmFile.read_format pf))
    (source_words pf (zlen (remaining bytes pf) / PcmFile.block_align pf * PcmFile.channels pf) (remaining bytes pf)) outs
}.

Lemma source_words_split pf n k l : 0 ≤ n → 0 ≤ k → 0 ≤ file_width (PcmFile.source_format pf) →
  source_words pf (n + k) l = source_words pf n l ++ source_words pf k (drop (Z.to_nat (n * file_width (PcmFile.source_format pf))) l).
Proof. intros Hn Hk Hw. unfold source_words. rewrite Z2Nat.inj_add, chunks_split, map_app by lia. do 4 f_equal. by rewrite Z2Nat.inj_mul by lia. Qed.

(** The part of it that a read takes. *)
Lemma taken_remaining bytes pf :
  0 < PcmFile.block_align pf →
  (PcmFile.read_to_eof pf = 0 → PcmFile.filepos pf ≤ PcmFile.data_start pf + PcmFile.data_size pf ∧
    (PcmFile.data_start pf + PcmFile.data_size pf - PcmFile.filepos pf) mod PcmFile.block_align pf = 0) →
  slice bytes (PcmFile.filepos pf) (PcmFile.block_align pf * request pf 1536) =
  take (Z.to_nat (PcmFile.block_align pf * 1536)) (remaining bytes pf).
Proof.
  intros Hba Hd. unfold request, remaining, PCM_MAX_READ. change (Z.min 1536 240000) with 1536. set (ba := PcmFile.block_align pf) in *.
  destruct (Z.eqb_spec (PcmFile.read_to_eof pf) 0) as [He|He]; [|done]. destruct (Hd He) as [Hle Hmod].
  set (D := PcmFile.data_start pf + PcmFile.data_size pf - PcmFile.filepos pf) in *.
  pose proof (Z.div_mod D ba ltac:(lia)) as HD. unfold slice. rewrite take_take. f_equal. rewrite <- Z2Nat.inj_min. f_equal. nia.
Qed.

Lemma source_words_cut pf a t m all outs (P : Z → Z → Prop) :
  let fw := file_width (PcmFile.source_format pf) in
  0 ≤ a ≤ t → 0 ≤ fw → a * fw ≤ m → Forall2 P (source_words pf t all) outs →
  Forall2 P (source_words pf a (take (Z.to_nat m) all)) (take (Z.to_nat a) outs) ∧
  Forall2 P (source_words pf (t - a) (drop (Z.to_nat (a * fw)) all)) (drop (Z.to_nat a) outs).
Proof.
  intros fw Ha Hw Hm Hall. replace t with (a + (t - a)) in Hall by lia. rewrite source_words_split in Hall by lia. fold fw in Hall.
  apply Forall2_app_inv_l in Hall as (o1 & o2 & H1 & H2 & ->). pose proof (Forall2_length H1) as Hl.
  pose proof (zlen_source_words pf a all ltac:(lia)) as Hz.
  assert (Hlen : Z.to_nat a = length o1) by (unfold zlen in Hz; lia). rewrite take_app_length', drop_app_length' by done.
  split; [|done]. replace (source_words pf a (take (Z.to_nat m) all)) with (source_words pf a all); [done|].
  unfold source_words. f_equal. symmetry. apply chunks_take. fold fw. nia.
Qed.

(** The bytes left behind a read. *)
Lemma remaining_moved bytes pf ctx n :
  0 ≤ PcmFile.filepos pf → 0 ≤ n ≤ zlen (remaining bytes pf) →
  remaining bytes (moved pf ctx (PcmFile.filepos pf + n)) = drop (Z.to_nat n) (remaining bytes pf).
Proof.
  intros Hp Hn. unfold remaining, slice in *. simpl. destruct (PcmFile.read_to_eof pf =? 0).
  - rewrite skipn_firstn_comm, drop_drop. unfold zlen in Hn. rewrite length_take in Hn. f_equal; [lia|f_equal; lia].
  - rewrite drop_drop. f_equal. lia.
Qed.

Lemma stream_step bytes pf outs out :
  let w := pcm_width (PcmFile.read_format pf) in let ch := PcmFile.channels pf in
  stream_input bytes pf outs → w * (1536 * ch) ≤ zlen out →
  let b := take (Z.to_nat (1536 * ch)) outs in
  ∃ ctx' pos, let pf' := moved pf ctx' pos in
    pcmfile_read_samples pf out 1536 = Some (zlen b / ch, words w b ++ drop (Z.to_nat (w * zlen b)) out, pf') ∧
    stream_input bytes pf' (drop (Z.to_nat (1536 * ch)) outs).
Proof.
  intros w ch [[ctx Hok] Hsrc Hlen Hhost Hint Hdata Houts] Hout b. pose proof Hsrc as [Hf Hr Hch Ho Hal _ _]. fold ch in Hch, Hal.
  assert (Hfw : 1 ≤ file_width (PcmFile.source_format pf)) by (pose proof (file_width_cases _ Hf); lia).
  set (fw := file_width (PcmFile.source_format pf)) in *. set (ba := PcmFile.block_align pf) in *. assert (Hba : 0 < ba) by nia.
  assert (Hw : 0 < w) by (unfold w, pcm_width; by repeat case_match).
  set (all := remaining bytes pf) in *. set (N := zlen all / ba) in *. pose proof (zlen_nonneg all) as Hall0.
  assert (HN : 0 ≤ N) by (apply Z.div_pos; lia). pose proof (Z.div_mod (zlen all) ba ltac:(lia)) as HNm. fold N in HNm.
  pose proof (Z.mod_pos_bound (zlen all) ba Hba) as Hmb. fold ch in Houts.
  assert (Hzo : zlen outs = N * ch) by (unfold zlen; rewrite <- (Forall2_length Houts); apply (zlen_source_words pf (N * ch) all); nia).
  pose proof (taken_remaining bytes pf Hba ltac:(intros He; destruct (Hdata He) as [[? _] ?]; done)) as Hgot. fold ba all in Hgot.
  set (n := Z.min (ba * 1536) (zlen all)). set (nr := Z.min 1536 N).
  assert (Hzg : zlen (take (Z.to_nat (ba * 1536)) all) = n) by (unfold n, zlen; rewrite length_take; lia).
  assert (Hnr : n / ba = nr ∧ (nr = 1536 ∧ n = ba * 1536 ∨ nr = N ∧ n = zlen all)).
  { unfold n, nr. destruct (Z.le_gt_cases (ba * 1536) (zlen all)) as [Hle|Hgt].
    - rewrite Z.min_l by lia. assert (1536 ≤ N) by (apply Z.div_le_lower_bound; lia).
      split; [rewrite Z.mul_comm, Z.div_mul; lia|left; lia].
    - rewrite Z.min_r by lia. fold N. assert (N < 1536) by (apply Z.div_lt_upper_bound; lia). split; [lia|right; lia]. }
  destruct Hnr as [Hdiv Hcase].
  assert (Hcut : take (Z.to_nat (1536 * ch)) outs = take (Z.to_nat (nr * ch)) outs ∧ drop (Z.to_nat (1536 * ch)) outs = drop (Z.to_nat (nr * ch)) outs).
  { destruct Hcase as [[-> _]|[Hnr _]]; [done|]. assert (N ≤ 1536) by lia. rewrite Hnr.
    rewrite !take_ge, !drop_ge by (unfold zlen in Hzo; nia). done. }
  destruct Hcut as [Hb Hrest]. unfold b. rewrite Hb, Hrest. clear b Hb Hrest.
  destruct (source_words_cut pf (nr * ch) (N * ch) (ba * 1536) all outs _ ltac:(nia) ltac:(fold fw; lia) ltac:(fold fw; nia) Houts) as [Hb Hrest]. fold fw in Hrest.
  assert (Hzb : zlen (take (Z.to_nat (nr * ch)) outs) = nr * ch) by (unfold zlen in *; rewrite length_take; nia).
  assert (Hread : read_ok pf 1536).
  { split; [lia|exact Hint|apply (ok_pos _ _ _ Hok)|]. intros He. destruct (Hdata He) as [[? ?] ?]. split; [lia|done]. }
  pose proof (read_samples_spec bytes pf ctx out 1536 (take (Z.to_nat (nr * ch)) outs) Hok Hsrc Hread Hlen Hhost) as Hspec.
  cbv zeta in Hspec. fold ba ch w in Hspec. rewrite Hgot, Hzg, Hdiv in Hspec. destruct (Hspec Hb ltac:(nia)) as (ctx' & Hrd & Hok' & _). clear Hspec.
  exists ctx', (PcmFile.filepos pf + n). cbv zeta. rewrite Hzb, Z.div_mul by lia. split; [exact Hrd|].
  assert (Hn : 0 ≤ n ≤ zlen all) by lia. pose proof (remaining_moved bytes pf ctx' n (ok_pos _ _ _ Hok) Hn) as Hrem. fold all in Hrem.
  split; [by exists ctx'|by destruct Hsrc; split|done|done|done| |].
  - intros He. change (PcmFile.read_to_eof pf = 0) in He. destruct (Hdata He) as [Hle Hmod]. simpl. fold ba. pose proof (ok_pos _ _ _ Hok) as Hp.
    assert (HD : zlen all = PcmFile.data_start pf + PcmFile.data_size pf - PcmFile.filepos pf).
    { unfold all, remaining. rewrite He. cbn [Z.eqb]. apply zlen_slice; lia. }
    split; [lia|]. rewrite Z.sub_add_distr, <- HD in *. destruct Hcase as [[_ ->]|[_ ->]]; [|by rewrite Z.sub_diag].
    rewrite <- Z.add_opp_r, <- Z.mul_opp_r, Z.mul_comm, Z.mod_add by lia. done.
  - rewrite Hrem. simpl. fold ba ch. change (source_words (moved _ _ _)) with (source_words pf).
    destruct Hcase as [[Hc1 Hc2]|[Hc1 Hc2]]; rewrite Hc1, Hc2 in *.
    + replace (zlen (drop (Z.to_nat (ba * 1536)) all) / ba * ch) with (N * ch - 1536 * ch).
      { by replace (ba * 1536) with (1536 * ch * fw) by lia. }
      replace (zlen (drop (Z.to_nat (ba * 1536)) all)) with (zlen all + (-1536) * ba) by (unfold zlen in *; rewrite length_drop; lia).
      rewrite Z.div_add by lia. fold N. lia.
    + rewrite drop_ge by (unfold zlen; lia). change (zlen []) with 0. rewrite Z.div_0_l, Z.mul_0_l by lia. by rewrite Z.sub_diag in Hrest.
Qed.
End source.

(** * The loop *)

Section loop.
Context `{T : Target} `{N : NanBits} `{FF : FloatFormat} {Ok : FloatOk FF} `{K : Kernels} {KOk : KernelsOk} `{LM : LibM}
  `{R : Residue} {ROk : ResidueOk R}.
Variables (tab : list Z) (buffer : list FLOAT) (config_double : bool) (map_ acmod lfe : Z) (c0 : Ctx.t)
  (room : Audio.t → Prop) (calm : list (list FLOAT) → Prop).

#[local] Abbreviation w := (float_size config_double).
#[local] Abbreviation fmt := (sample_format config_double).
#[local] Abbreviation ch := (a52_channels_tab.[acmod] + lfe).
#[local] Abbreviation block := (1536 * ch).

(** The calls of the library for the samples of a stream in [q] blocks, each
    remapped, and the last one without samples. *)
Definition remapped (b : list Z) : list Z := default b (remap_list map_ (zlen b / ch) ch fmt acmod b).
Definition block_call (b : list Z) : option (list Z) * Z := (Some (words w (remapped b)), zlen b / ch).
Definition stream_blocks (q : nat) (outs : list Z) : list (list Z) := chunks (Z.to_nat block) q outs.
Definition stream_calls (q : nat) (outs : list Z) : list (option (list Z) * Z) :=
  map block_call (stream_blocks q outs) ++ [(None, 0)].

(** The number of blocks that hold [outs]. *)
Definition blocks_of (outs : list Z) : nat := Z.to_nat ((zlen outs + block - 1) / block).

Hypothesis Hacmod : 0 ≤ acmod < 8.
Hypothesis Hlfe : 0 ≤ lfe < 2.
Hypothesis Htab : table_ok tab.
Hypothesis Hbuf : zlen buffer = 1536.
Hypothesis Hroom : headroom c0 room calm.
Hypothesis Hall : Ctx.n_all_channels c0 = ch.

#[local] Instance loop_job : Job := frame_job tab buffer.

(** The samples of a block, as a call converts them, have room. *)
Definition calm_block (b : list Z) : Prop :=
  ∀ d, loaded fmt c0 (words w (remapped b)) (zlen b / ch) d → calm d.
Definition calm_end : Prop := ∀ d, loaded fmt c0 [] 0 d → calm d.

(** One input file: the context reads the file [pf]. *)
Record one_file (bytes : list Z) (pc : PcmContext.t) (outs : list Z) : Prop := {
  of_num : PcmContext.num_files pc = 1;
  of_file : ∃ pf rest, PcmContext.pcm_file pc = pf :: rest ∧ stream_input bytes pf outs ∧
    PcmFile.channels pf = ch ∧ PcmFile.read_format pf = read_format config_double
}.

Lemma fmt_range : 0 ≤ fmt ≤ 7.
Proof. unfold sample_format. destruct config_double; by vm_compute. Qed.

Lemma fmt_width : sample_width fmt = w.
Proof. by destruct config_double. Qed.

Lemma channels_range : 1 ≤ ch ≤ 6.
Proof.
  assert (Ht : 1 ≤ a52_channels_tab.[acmod] ≤ 5); [|lia].
  revert Hacmod. intros Ha. table_check (λ a, (1 <=? a52_channels_tab.[a]) && (a52_channels_tab.[a] <=? 5)) 8 Ha. lia.
Qed.

(** Reading a block into the buffer of the loop. *)
Lemma read_block bytes pc outs out :
  one_file bytes pc outs → w * block ≤ zlen out →
  let b := take (Z.to_nat block) outs in
  ∃ pc', pcm_read_samples pc out 1536 = Some (zlen b / ch, words w b ++ drop (Z.to_nat (w * zlen b)) out, pc') ∧
    one_file bytes pc' (drop (Z.to_nat block) outs).
Proof.
  intros [Hnum (pf & rest & Hpf & Hin & Hch & Hfmt)] Hout b.
  assert (Hw : pcm_width (PcmFile.read_format pf) = w) by (rewrite Hfmt; by destruct config_double).
  pose proof (stream_step bytes pf outs out Hin) as Hstep. cbv zeta in Hstep. rewrite Hch, Hw in Hstep.
  destruct (Hstep Hout) as (ctx' & pos & Hread & Hin'). fold b in Hread.
  exists (pc <| PcmContext.pcm_file := moved pf ctx' pos :: rest |>). split.
  - unfold pcm_read_samples. rewrite Hnum, Hpf. change (1 =? 1) with true. cbv iota.
    change (aget (pf :: rest) 0) with (Some pf). cbn [mbind option_bind]. rewrite Hread. cbn [mbind option_bind].
    unfold aset. rewrite zlen_cons. pose proof (zlen_nonneg rest). replace ((0 <=? 0) && (0 <? 1 + zlen rest)) with true by lia. done.
  - split; [done|]. by exists (moved pf ctx' pos), rest.
Qed.

(** One turn of the loop on the buffer that a block [b] was read to, as far as
    the call of the library. *)
Lemma block_turn ss m (b rest : list Z) n :
  running fmt c0 room ss → frame_memory m → zlen b = n * ch → 0 ≤ n ≤ 1536 →
  n = 0 ∨ Ctx.last_samples_count (Session.ctx ss) = -1 ∨ Ctx.last_samples_count (Session.ctx ss) = 1536 →
  calm_block b →
  ∃ ss' m' r, called fmt c0 room ss m n ss' m' r ∧
    aften_encode_frame (Some ss) (Some m) (fst (block_call b)) (snd (block_call b)) = Some (Some ss', Some m', r) ∧
    ∃ fwav', zlen fwav' = zlen (words w b ++ rest) ∧
      remap_samples config_double map_ 0 n ch acmod (words w b ++ rest) = Some fwav' ∧
      aften_encode_frame (Some ss) (Some m) (Some fwav') n = Some (Some ss', Some m', r) ∧
      (n = 0 → aften_encode_frame (Some ss) (Some m) None 0 = Some (Some ss', Some m', r)).
Proof.
  intros Hrun Hm Hb Hn Hlast Hcalm. pose proof channels_range as Hch. pose proof fmt_range as Hfmt. pose proof fmt_width as Hw.
  assert (Hw0 : 0 < w) by (unfold float_size; by destruct config_double).
  assert (Hdiv : zlen b / ch = n) by (rewrite Hb; apply Z.div_mul; lia).
  destruct (remap_samples_words config_double map_ n acmod lfe b rest Hacmod Hlfe ltac:(lia) Hb) as (b' & Hrl & Hzb & Hrs).
  assert (Hre : remapped b = b') by (unfold remapped; by rewrite Hdiv, Hrl).
  unfold calm_block in Hcalm. rewrite Hre, Hdiv in Hcalm.
  destruct (call_spec tab buffer fmt c0 room calm Htab Hbuf Hfmt Hroom ss m (words w b') n Hrun Hm Hn Hlast) as (ss' & m' & r & Hcall & Heq).
  - unfold enough. rewrite Hall, Hw, zlen_words by lia. rewrite Hzb, Hb. lia.
  - exact Hcalm.
  - exists ss', m', r. split; [exact Hcall|]. unfold block_call. rewrite Hre, Hdiv. cbn [fst snd].
    split; [by apply (Heq (Some (words w b')) []); [rewrite app_nil_r|]|].
    exists (words w b' ++ rest). split; [rewrite !zlen_app, !zlen_words by lia; lia|]. split; [exact Hrs|].
    split; [by apply (Heq _ rest)|]. intros ->. apply (Heq None []); [|done]. rewrite app_nil_r.
    assert (Hnil : b' = []) by (apply nil_length_inv; unfold zlen in *; lia). by rewrite Hnil.
Qed.

Lemma one_file_whole bytes pc outs : one_file bytes pc outs → zlen outs = zlen outs / ch * ch.
Proof.
  intros [_ (pf & rest & _ & Hin & Hpch & _)]. pose proof channels_range. 
  pose proof (si_source _ _ _ Hin) as Hso. pose proof (file_width_cases _ (so_format _ Hso)). pose proof (so_align _ Hso) as Hal.
  assert (Hba : 0 < PcmFile.block_align pf) by (rewrite Hal, Hpch; nia).
  pose proof (zlen_nonneg (remaining bytes pf)).
  assert (Hq : 0 ≤ zlen (remaining bytes pf) / PcmFile.block_align pf) by (apply Z.div_pos; lia).
  assert (Hl : zlen outs = zlen (remaining bytes pf) / PcmFile.block_align pf * ch).
  { unfold zlen at 1. rewrite <- (Forall2_length (si_outs _ _ _ Hin)). rewrite <- Hpch. apply zlen_source_words. nia. }
  rewrite Hl, Z.div_mul by lia. done.
Qed.

Lemma blocks_of_nil : blocks_of [] = 0%nat.
Proof.
  pose proof channels_range. unfold blocks_of. change (zlen []) with 0. rewrite Z.div_small by lia. done.
Qed.

Lemma blocks_of_step outs : 0 < zlen outs → blocks_of outs = S (blocks_of (drop (Z.to_nat block) outs)).
Proof.
  intros Hl. pose proof channels_range. unfold blocks_of.
  destruct (Z.leb_spec block (zlen outs)).
  - assert (Hd : zlen (drop (Z.to_nat block) outs) = zlen outs - block) by (unfold zlen in *; rewrite length_drop; lia).
    rewrite Hd. replace (zlen outs + block - 1) with (zlen outs - block + block - 1 + 1 * block) by lia.
    rewrite Z.div_add by lia. assert (0 ≤ (zlen outs - block + block - 1) / block) by (apply Z.div_pos; lia). lia.
  - rewrite drop_ge by (unfold zlen in *; lia). change (zlen []) with 0.
    replace (zlen outs + block - 1) with (zlen outs - 1 + 1 * block) by lia.
    rewrite Z.div_add, !Z.div_small by lia. done.
Qed.

(** The frames and their number after a call of value [r]. *)
Definition put_out (r : Z) (m : list Z) : list (list Z) := if r >? 0 then [take (Z.to_nat r) m] else [].

(** One turn of the loop. *)
Lemma loop_turn bytes pc outs fwav ss m :
  let b := take (Z.to_nat block) outs in let n := zlen b / ch in
  one_file bytes pc outs → w * block ≤ zlen fwav → running fmt c0 room ss → frame_memory m →
  n = 0 ∨ Ctx.last_samples_count (Session.ctx ss) = -1 ∨ Ctx.last_samples_count (Session.ctx ss) = 1536 →
  calm_block b →
  zlen b = n * ch ∧ 0 ≤ n ≤ 1536 ∧
  ∃ pc' fwav' ss' m' r, one_file bytes pc' (drop (Z.to_nat block) outs) ∧ w * block ≤ zlen fwav' ∧
    called fmt c0 room ss m n ss' m' r ∧
    aften_encode_frame (Some ss) (Some m) (fst (block_call b)) (snd (block_call b)) = Some (Some ss', Some m', r) ∧
    (n = 0 → aften_encode_frame (Some ss) (Some m) None 0 = Some (Some ss', Some m', r)) ∧
    ∀ fuel cnt written,
      let cnt' := cnt + zlen (put_out r m') in let written' := written ++ concat (put_out r m') in
      encode_loop config_double (S fuel) map_ ch acmod pc fwav (Some ss) m cnt written =
        if (n >? 0) || (r >? 0) || (cnt' =? 0)
        then encode_loop config_double fuel map_ ch acmod pc' fwav' (Some ss') m' cnt' written' else Some written'.
Proof.
  intros b n Hof Hfw Hrun Hm Hlast Hcalm. pose proof channels_range as Hch.
  assert (Hw0 : 0 < w) by (unfold float_size; by destruct config_double).
  pose proof (one_file_whole _ _ _ Hof) as Hwhole. pose proof (zlen_nonneg outs).
  assert (Hb : zlen b = n * ch ∧ 0 ≤ n ≤ 1536).
  { assert (Hzb : zlen b = Z.min 1536 (zlen outs / ch) * ch) by (unfold b, zlen in *; rewrite length_take; nia).
    assert (0 ≤ zlen outs / ch) by (apply Z.div_pos; lia). unfold n. rewrite Hzb, Z.div_mul by lia. lia. }
  destruct Hb as [Hb Hn]. split; [exact Hb|]. split; [exact Hn|].
  destruct (read_block bytes pc outs fwav Hof Hfw) as (pc' & Hread & Hof'). fold b n in Hread.
  destruct (block_turn ss m b (drop (Z.to_nat (w * zlen b)) fwav) n Hrun Hm Hb Hn Hlast Hcalm)
    as (ss' & m' & r & Hcall & Henc & fwav' & Hlf & Hremap & Hframe & Hnone).
  exists pc', fwav', ss', m', r. split; [exact Hof'|]. split.
  { rewrite Hlf, zlen_app, zlen_words by lia. unfold zlen in *. rewrite length_drop. nia. }
  split; [exact Hcall|]. split; [exact Henc|]. split; [exact Hnone|].
  intros fuel cnt written. cbn [encode_loop]. unfold A52_SAMPLES_PER_FRAME. rewrite Hread. cbn [mbind option_bind].
  rewrite Hremap. cbn [mbind option_bind]. rewrite Hframe. cbn [mbind option_bind].
  destruct Hcall as [_ [Hml _] Hr _ _ _]. replace (r <? 0) with false by lia. unfold put_out.
  destruct (Z.gtb_spec r 0).
  - replace (r <=? zlen m') with true by lia. cbn [mbind option_bind concat]. rewrite app_nil_r. done.
  - cbn [mbind option_bind concat]. rewrite app_nil_r. change (zlen []) with 0. by rewrite Z.add_0_r.
Qed.

Lemma calm_nil : calm_block [].
Proof.
  intros d [Hd Hz]. apply (hr_silence _ _ _ Hroom); [exact Hd|]. intros c i Hc Hi. rewrite Hz by done.
  change (zlen [] / ch) with (0 / ch). pose proof channels_range. rewrite Z.div_0_l by lia. by replace (i <? 0) with false by lia.
Qed.

(** What is left to show of a point of the loop, where the calls [calls] are
    left and [q] blocks. *)
Definition loop_finishes (q : nat) (calls : list (option (list Z) * Z)) pc fwav ss m : Prop :=
  ∃ ss' m' frames, encode_calls calls ss m = Some (ss', m', frames) ∧ Forall (whole_frame c0) frames ∧
    ∀ fuel cnt written, 0 ≤ cnt → 0 < cnt ∨ frames ≠ [] → (q + 2 ≤ fuel)%nat →
      encode_loop config_double fuel map_ ch acmod pc fwav (Some ss) m cnt written = Some (written ++ concat frames).

Lemma put_out_whole ss m n ss' m' r : called fmt c0 room ss m n ss' m' r → Forall (whole_frame c0) (put_out r m').
Proof. intros []. unfold put_out. destruct (Z.gtb_spec r 0); constructor; [by apply cl_frame0; lia|constructor]. Qed.

Lemma put_out_none ss m n ss' m' r : called fmt c0 room ss m n ss' m' r → drained (Session.ctx ss) = true → put_out r m' = [].
Proof. intros Hc Hd. by destruct (cl_drained _ _ _ _ _ _ _ _ _ Hc Hd) as (_ & _ & ->). Qed.

(** The end of the stream: a last call without samples. *)
Lemma loop_end bytes pc fwav ss m :
  one_file bytes pc [] → w * block ≤ zlen fwav → running fmt c0 room ss → frame_memory m →
  loop_finishes 0 [(None, 0)] pc fwav ss m.
Proof.
  intros Hof Hfw Hrun Hm.
  destruct (loop_turn bytes pc [] fwav ss m Hof Hfw Hrun Hm) as (_ & _ & pc1 & fw1 & ss1 & m1 & r & Hof1 & Hfw1 & Hc & _ & Hnone & Hloop).
  { rewrite take_nil. left. by apply Z.div_0_l; pose proof channels_range; lia. }
  { rewrite take_nil. exact calm_nil. }
  rewrite take_nil in *. change (zlen [] / ch) with (0 / ch) in *. rewrite Z.div_0_l in * by (pose proof channels_range; lia).
  rewrite drop_nil in Hof1. exists ss1, m1, (put_out r m1). split.
  { cbn [encode_calls]. rewrite Hnone by done. cbn [mbind option_bind]. by rewrite app_nil_r. }
  split; [by eapply put_out_whole|]. intros fuel cnt written Hcnt Hsome Hfuel. destruct fuel as [|[|fuel]]; [lia|lia|].
  rewrite Hloop. cbv zeta. unfold put_out in *. destruct (Z.gtb_spec r 0) as [Hr|Hr].
  - change (zlen [_]) with 1. change ((0 >? 0) || true || (cnt + 1 =? 0)) with true. cbv iota.
    assert (Hd : drained (Session.ctx ss) = false).
    { destruct (drained (Session.ctx ss)) eqn:Hd; [|done]. destruct (cl_drained _ _ _ _ _ _ _ _ _ Hc Hd) as (_ & _ & ->). lia. }
    pose proof (cl_last _ _ _ _ _ _ _ _ _ Hc Hd) as Hl.
    destruct (loop_turn bytes pc1 [] fw1 ss1 m1 Hof1 Hfw1 (cl_running _ _ _ _ _ _ _ _ _ Hc) (cl_memory _ _ _ _ _ _ _ _ _ Hc))
      as (_ & _ & pc2 & fw2 & ss2 & m2 & r2 & _ & _ & Hc2 & _ & _ & Hloop2).
    { rewrite take_nil. left. by apply Z.div_0_l; pose proof channels_range; lia. }
    { rewrite take_nil. exact calm_nil. }
    assert (Hd2 : drained (Session.ctx ss1) = true) by (unfold drained, A52_SAMPLES_PER_FRAME; rewrite Hl; done).
    rewrite Hloop2. cbv zeta. rewrite (put_out_none _ _ _ _ _ _ Hc2 Hd2).
    destruct (cl_drained _ _ _ _ _ _ _ _ _ Hc2 Hd2) as (_ & _ & ->).
    rewrite take_nil. change (zlen [] / ch) with (0 / ch). rewrite Z.div_0_l by (pose proof channels_range; lia).
    change (zlen []) with 0. replace ((0 >? 0) || (0 >? 0) || (cnt + 1 + 0 =? 0)) with false by lia.
    by rewrite app_nil_r.
  - change (zlen []) with 0. destruct Hsome as [Hpos|]; [|done].
    by replace ((0 >? 0) || false || (cnt + 0 =? 0)) with false by lia.
Qed.

Lemma loop_blocks bytes q : ∀ pc outs fwav ss m,
  one_file bytes pc outs → blocks_of outs = q → w * block ≤ zlen fwav → running fmt c0 room ss → frame_memory m →
  q = 0%nat ∨ Ctx.last_samples_count (Session.ctx ss) = -1 ∨ Ctx.last_samples_count (Session.ctx ss) = 1536 →
  Forall calm_block (stream_blocks q outs) →
  loop_finishes q (stream_calls q outs) pc fwav ss m.
Proof.
  induction q as [|q IH]; intros pc outs fwav ss m Hof Hq Hfw Hrun Hm Hlast Hcalm.
  - destruct (Z.leb_spec (zlen outs) 0) as [Hz|Hz]; [|rewrite blocks_of_step in Hq by lia; lia].
    assert (outs = []) as -> by (apply nil_length_inv; unfold zlen in Hz; lia). by eapply loop_end.
  - destruct (Z.leb_spec (zlen outs) 0) as [Hz|Hz].
    { assert (outs = []) as -> by (apply nil_length_inv; unfold zlen in Hz; lia). by rewrite blocks_of_nil in Hq. }
    pose proof Hq as Hrest. rewrite blocks_of_step in Hrest by lia. injection Hrest as Hrest.
    unfold stream_blocks in Hcalm. cbn [chunks] in Hcalm. apply Forall_cons_1 in Hcalm as [Hcb Hcalm].
    set (b := take (Z.to_nat block) outs) in *. pose proof channels_range as Hch.
    destruct (loop_turn bytes pc outs fwav ss m Hof Hfw Hrun Hm) as (Hb & Hn & pc1 & fw1 & ss1 & m1 & r & Hof1 & Hfw1 & Hc & Henc & _ & Hloop);
      [fold b; destruct Hlast as [|Hlast]; [lia|by right]|exact Hcb|]. fold b in Hb, Hn, Hc, Hloop, Henc.
    assert (Hpos : 0 < zlen b / ch).
    { assert (0 < zlen b) by (unfold b, zlen in *; rewrite length_take; lia). nia. }
    assert (Hd : drained (Session.ctx ss) = false).
    { unfold drained, A52_SAMPLES_PER_FRAME. destruct Hlast as [|[->| ->]]; [lia|done|done]. }
    destruct (IH pc1 (drop (Z.to_nat block) outs) fw1 ss1 m1 Hof1 Hrest Hfw1 (cl_running _ _ _ _ _ _ _ _ _ Hc) (cl_memory _ _ _ _ _ _ _ _ _ Hc))
      as (ss' & m' & frames & Hcalls & Hwhole & Hend); [|exact Hcalm|].
    { rewrite (cl_last _ _ _ _ _ _ _ _ _ Hc Hd). destruct q as [|q]; [by left|right; right].
      assert (Hmore : block < zlen outs).
      { destruct (Z.ltb_spec block (zlen outs)); [done|]. rewrite drop_ge in Hrest by (unfold zlen in *; lia).
        by rewrite blocks_of_nil in Hrest. }
      assert (Hzb : zlen b = 1536 * ch) by (unfold b, zlen in *; rewrite length_take; lia).
      rewrite Hzb. apply Z.div_mul. lia. }
    exists ss', m', (put_out r m1 ++ frames). split.
    { unfold stream_calls, stream_blocks. cbn [chunks map app]. fold b. rewrite (surjective_pairing (block_call b)).
      cbn [encode_calls]. rewrite Henc. cbn [mbind option_bind].
      unfold stream_calls, stream_blocks in Hcalls. rewrite Hcalls. done. }
    split; [apply Forall_app; split; [by eapply put_out_whole|done]|].
    intros fuel cnt written Hcnt Hsome Hfuel. destruct fuel as [|fuel]; [lia|]. rewrite Hloop. cbv zeta.
    replace (zlen b / ch >? 0) with true by lia. cbn [orb].
    pose proof (zlen_nonneg (put_out r m1)) as Hp0.
    rewrite Hend; [by rewrite concat_app, app_assoc|lia| |lia].
    destruct Hsome as [|Hsome]; [left; lia|]. unfold put_out in *. destruct (Z.gtb_spec r 0); [left; change (zlen [_]) with 1; lia|by right].
Qed.
End loop.

(** * Properties *)

(** C33: The encoder's program on one input file, single-threaded.  Let [outs]
    be the samples of the file in the format that is read, and [blocks] their
    blocks of 1536 per channel (the last one may be shorter); the calls of the
    library for the remapped blocks and a last one without samples all return
    and give whole frames.  If they give any frame at all, the program's loop
    ends, after at most two turns more than there are blocks, and has written
    exactly these frames. *)
Theorem program_writes_the_frames `{T : Target} `{N : NanBits} `{FF : FloatFormat} {Ok : FloatOk FF} `{K : Kernels} {KOk : KernelsOk} `{LM : LibM}
    `{R : Residue} {ROk : ResidueOk R} tab buffer config_double map_ acmod lfe c0 room calm bytes pc outs fwav ss m :
  let fmt := sample_format config_double in let ch := a52_channels_tab.[acmod] + lfe in
  let q := blocks_of acmod lfe outs in
  0 ≤ acmod < 8 → 0 ≤ lfe < 2 → table_ok tab → zlen buffer = 1536 → headroom c0 room calm → Ctx.n_all_channels c0 = ch →
  one_file config_double acmod lfe bytes pc outs → float_size config_double * (1536 * ch) ≤ zlen fwav →
  running fmt c0 room ss → Ctx.last_samples_count (Session.ctx ss) = -1 → frame_memory m →
  Forall (calm_block config_double map_ acmod lfe c0 calm) (stream_blocks acmod lfe q outs) →
  ∃ ss' m' frames,
    encode_calls (J := frame_job tab buffer) (stream_calls config_double map_ acmod lfe q outs) ss m = Some (ss', m', frames) ∧
    Forall (whole_frame c0) frames ∧
    (frames ≠ [] → ∀ fuel, (q + 2 ≤ fuel)%nat →
       encode_loop (J := frame_job tab buffer) config_double fuel map_ ch acmod pc fwav (Some ss) m 0 [] = Some (concat frames)).
Proof.
  intros fmt ch q Ha Hl Htab Hbuf Hroom Hall Hof Hfw Hrun Hlast Hm Hcalm.
  destruct (loop_blocks tab buffer config_double map_ acmod lfe c0 room calm Ha Hl Htab Hbuf Hroom Hall bytes q pc outs fwav ss m
    Hof eq_refl Hfw Hrun Hm ltac:(by right; left) Hcalm) as (ss' & m' & frames & Hcalls & Hwhole & Hend).
  exists ss', m', frames. split; [exact Hcalls|]. split; [exact Hwhole|]. intros Hsome fuel Hfuel.
  by rewrite Hend by (done || by right).
Qed.

(** * Witness *)

(** Two stereo samples of 16 bits in a raw file, and the silent encoder that
    takes [float] samples. *)
Definition small_file `{Target} `{NanBits} : PcmFile.t :=
  PcmFile.mk _ _ (choose_converter 2 6 None) (Some (byteio_init (FILE.mk [1; 0; 2; 0; 3; 0; 4; 0] 0 true))) 0 true 1 8 0 8 2 0 0 None
    PCM_BYTE_ORDER_LE 2 3 48000 4 16 2 6 0.
Definition small_samples : list Z := map (λ v, default 0 (convert_sample (H := {| nan_to_float := id; nan_to_double := id |}) 2 6 v)) [1; 2; 3; 4].
Definition float_session : Session.t := silent_session <| Session.audio :=
  silent_audio <| Audio.fmt_convert_from_src := set_converter (H := little_endian) (H0 := single_format) None A52_SAMPLE_FMT_FLT |> |>.

Lemma float_session_ok : single_ok (T := little_endian) (FF := single_format) (R := trapping_residue) A52_SAMPLE_FMT_FLT float_session.
Proof.
  destruct silent_session_ok as [Hco Ht Htx Hl]. split; [|done..]. destruct Hco. split; try done.
  destruct silent_audio_ok. by split.
Qed.

Lemma silent_headroom :
  headroom (FF := single_format) (K := silent_kernels) (LM := quiet) silent_ctx (λ _, True) (λ _, True).
Proof. split; [|done|done]. intros c au d _ _ _. exact (signal_ok_counted _ c au d (silent_signal au d)). Qed.

Lemma program_writes_the_frames_witness :
  let T := little_endian in
  let N := {| nan_to_float := id; nan_to_double := id |} in
  let pc := PcmContext.mk T N [small_file] 1 2 2 3 48000 1 6 in
  let m := replicate (Z.to_nat A52_MAX_CODED_FRAME_SIZE) 0 in
  ∃ ss' m' frames,
    encode_calls (J := frame_job (T := little_endian) (FF := single_format) (K := silent_kernels) (LM := quiet) (R := trapping_residue)
        tab_after_init (replicate 1536 zero_float))
      [(Some (words 4 small_samples), 2); (None, 0)] float_session m = Some (ss', m', frames) ∧
    (frames ≠ [] → encode_loop (J := frame_job (T := little_endian) (FF := single_format) (K := silent_kernels) (LM := quiet) (R := trapping_residue)
        tab_after_init (replicate 1536 zero_float)) false 3 0 2 2 pc (replicate (Z.to_nat 12288) 0) (Some float_session) m 0 [] = Some (concat frames)).
Proof.
  intros T N pc m.
  destruct (byteio_init_spec (FILE.mk [1; 0; 2; 0; 3; 0; 4; 0] 0 true) ltac:(simpl; lia)) as (Hio & Hst & _ & Hc & Hs).
  destruct (program_writes_the_frames (T := T) (N := N) (FF := single_format) (Ok := Float.single_ok) (K := silent_kernels) (KOk := silent_kernels_ok)
    (LM := quiet) (R := trapping_residue) (ROk := trapping_residue_ok) tab_after_init (replicate 1536 zero_float) false 0 2 0 silent_ctx
    (λ _, True) (λ _, True) [1; 0; 2; 0; 3; 0; 4; 0] pc small_samples (replicate (Z.to_nat 12288) 0) float_session m)
    as (ss' & m' & frames & Hcalls & _ & Hend).
  - lia.
  - lia.
  - split. vm_compute. reflexivity.
  - reflexivity.
  - exact silent_headroom.
  - reflexivity.
  - split; [reflexivity|]. exists small_file, []. split; [reflexivity|]. split; [|split; reflexivity].
    split.
    + eexists. split; [reflexivity|exact Hio|exact Hc|exact Hs|exact Hst|simpl; lia|]. unfold byte. repeat constructor; lia.
    + split; try reflexivity; try (vm_compute; intuition discriminate).
    + by vm_compute.
    + by left.
    + by vm_compute.
    + intros He. change (1 = 0) in He. lia.
    + assert (Hw : source_words small_file 4 [1; 0; 2; 0; 3; 0; 4; 0] = [1; 2; 3; 4]) by (by vm_compute).
      change (Forall2 (converted 2 6) (source_words small_file 4 [1; 0; 2; 0; 3; 0; 4; 0]) small_samples).
      rewrite Hw. unfold small_samples. cbn [map]. repeat constructor; vm_compute; reflexivity.
  - vm_compute. discriminate.
  - split; [exact float_session_ok|by exists (-1)|exact I].
  - reflexivity.
  - exact silent_buffer.
  - repeat constructor.
  - exists ss', m', frames. split; [exact Hcalls|]. intros Hsome. exact (Hend Hsome 3%nat ltac:(vm_compute; lia)).
Defined.
